(* ===== verification/_CoqProject ===== *)
-Q . S2P
Prelude.v
Riscv.v
Str.v
Spinlock.v
Kalloc.v
Vm.v
PageTable.v
Cow.v
Pages.v
UserMem.v
Fork.v
FreeVm.v
CopyUser.v
PageFault.v
ProcVm.v
VmHistory.v
Sample.v
UserVm.v
Kernel.v
Proc.v
Sleeplock.v
Virtio.v
Bio.v
Log.v
Fs.v
Uart.v
Printf.v
Console.v
Pipe.v
File.v
ProcLife.v
Exec.v
Syscall.v
Sysproc.v
Sysfile.v
Trap.v
Boot.v
Asm.v
KernelWp.v
Ring.v
BioProof.v
BioBoot.v
LogProof.v
LogOps.v
LogCrash.v
Await.v
Sched.v
VirtioProof.v
SampleKernel.v
KernelVm.v
PipeProof.v
Paths.v
AsmProof.v
Stubs.v
User.v
Ulib.v
Uprintf.v
Umalloc.v
MallocProof.v
Sh.v
Uprogs.v
Utests.v
Usertests.v
Mkfs.v
Ustdio.v
Grep.v
FsBlocks.v
FsInode.v
FsFile.v
FsWrite.v
FsRead.v
FsUser.v
FsDir.v
ForkProof.v
WaitProof.v
FileProof.v
FsFree.v
FsPath.v
FsCreate.v
FsSample.v
