(* ===== verification/Prelude.v ===== *)
(** * xv6-riscv with copy-on-write fork: a verification development

    The program is the xv6 kernel for RISC-V of the copy-on-write lab
    ([src/kernel]), with its user programs ([src/user]) and the tool that makes
    the disk image ([src/mkfs]). This development translates all three into
    Rocq functions, routine by routine, and proves properties of them.

    ** How code is modelled

    A kernel routine is a function in the monad [M St] of this file: from a
    loop bound and a state it gives an outcome [out]: it returns ([Ret]), calls
    [panic] ([Panic], with the message), gives up the CPU on a channel ([Sleep],
    with the rest of its run as a function of the state it is resumed in), or
    has exhausted the bound ([NoFuel]). [wp m n s Q] says that [m] returns,
    with [Q] of the result and the final state: all theorems about routines are
    of total correctness, and none holds because a routine panics or runs out
    of fuel. The bound limits every loop of a run whose length is not known
    beforehand; the theorems say how large it must be (in number of iterations:
    32768 pages for [freerange], 30 buffers for the cache, 3 for the disk
    driver, twice the number of bytes for a pipe). C integers are in [Z] with
    the wrap-around written out ([u8] to [u64], [s16], [s32]). A pointer into a
    static table is the index of the entry, [None] for null; other pointers are
    addresses. Memory, disk blocks and [char] arrays are functions from the
    offset to the byte. What is not code of the kernel enters as a parameter:
    the addresses the linker chooses ([Layout]), the disk device
    ([VirtioDevice], with what the virtio specification promises), the answers
    of the serial line and the interrupt controller (streams in the state), the
    address translation in force (an argument of the assembly's step function).

    A user program is a function in the monad [U] of [User]: a tree of the
    system calls it makes over its own memory. [uwp X m n s w Q] says that for
    every answer the operating system [OS] may give the program returns with
    [Q] or exits with [X]. [mkfs] runs in [M] over the image it writes.

    ** Files

    Base:
    - [Prelude]: integers, function update, the monad, its rules and tactics;
    - [Riscv]: constants of [riscv.h], [memlayout.h], [param.h]; page and
      page-table-entry arithmetic; the control and status registers, and the
      functions of [riscv.h] that read and write them;
    - [Str]: memory and [string.c];
    - [Spinlock]: [spinlock.c]: one hart, the interface [Spin] that clients use,
      and several harts that interleave (module [Harts]).

    Physical and virtual memory, over the state [mstate] (memory, free list,
    reference counts, lock state):
    - [Kalloc]: [kalloc.c]; [Vm]: [vm.c]; [PageFault]: the page-fault part of
      [usertrap]; [ProcVm]: page tables of processes;
    - [PageTable]: the tree of page-table pages and [walk]; [Cow]: the invariant
      [cinv] of copy-on-write memory (each user page is counted once per
      mapping, pages with several mappings are write-protected); [Pages],
      [UserMem], [Fork], [FreeVm], [CopyUser]: the operations preserve it and do
      what they should, and what is undone leaves no page taken ([under],
      [undone]); [VmHistory]: states reached by any history of
      operations; [Sample]: a small concrete machine; [UserVm]: the properties.

    The kernel, over the record [kernel] of all global variables:
    - [Kernel]: the C structures and global variables; [Proc]: [proc.c];
      [Sleeplock], [Virtio], [Bio], [Log], [Fs], [Uart], [Printf], [Console],
      [Pipe], [File], [Exec], [Syscall], [Sysproc], [Sysfile], [Trap] (with
      [plic.c]): the C files of these names; [ProcLife]: [fork], [exit],
      [userinit]; [Boot]: [start.c], [main.c], the kernel page table;
    - [Asm]: the assembly files, as lists of instructions with a step function;
      [Stubs]: [initcode.S], the stubs of [usys.pl], and enough of an assembler and
      of a processor to relate them to the machine code in [proc.c].

    Proofs about the kernel:
    - [KernelWp]: rules for locks, [wakeup] and sleep locks on this state;
      [Await]: code that sleeps, run against the rest of the system, and the
      statements of [sleep] and [wakeup] on two harts that interleave (module
      [Smp]), with a wakeup that is not lost; [Sched]: the scheduler; [KernelVm]: the theorems
      about user memory carried over to this state;
    - [Ring], [BioProof], [BioBoot]: the ring of buffers, the invariant [binv] of
      the cache over any disk that keeps the promises [BlockDevOk];
      [VirtioProof]: the virtio driver keeps them, with a device that looks at
      its queue when it is notified;
    - [LogProof], [LogOps], [LogCrash]: the log: the writes of a commit and of a
      recovery, transactions ([linv]), and crashes ([crashes]: power failures at
      any write of the runs of [initlog] that follow one another);
    - [PipeProof]: pipes as queues; [Paths]: path elements; [AsmProof]: what
      trap and switch code saves and restores;
    - [FsBlocks], [FsInode], [FsFile], [FsWrite], [FsRead], [FsUser], [FsDir]: the
      file system on top of a transaction: the bitmap, inodes on the disk and in
      the table, the block map of a file ([file_ok]), writing and reading, the
      memory of the calling process, directories as maps ([dir_map]); [FileProof]:
      open files between transactions ([open_file]); [FsFree]: truncation and the
      last reference to a file; [FsPath]: the tree of directories on the disk and
      the resolution of paths; [FsCreate]: [ialloc] and [create];
    - [ForkProof], [WaitProof]: [allocproc], [freeproc], [fork] and [wait], on top of
      the theorems about user memory;
    - [SampleKernel], [FsSample]: concrete states that satisfy the
      hypotheses of these theorems.

    User programs and tools:
    - [User]: the monad, system calls as events, its rules; [Ulib], [Uprintf],
      [Umalloc]: [ulib.c], [printf.c], [umalloc.c]; [Sh]: [sh.c]; [Uprogs]: [cat],
      [echo], [grep], [init], [kill], [ln], [ls], [mkdir], [rm], [wc], [zombie];
    - the programs that test the system: [Utests]: [cowtest], [forktest],
      [stressfs], [grind]; [Usertests]: [usertests.c], its tests, table and [main];
    - [Mkfs]: [mkfs.c];
    - [Ustdio]: strings in memory, and a kernel with one file to read and one to
      write; [Grep]: the meaning of patterns, the matcher and the program;
    - [MallocProof]: the arena of the allocator, and the break as the kernel
      moves it.

    ** What the theorems show

    - Copy-on-write memory ([UserVm], [Kalloc]): after any history of fork,
      growth, shrinking, faults, copies and deletion, reference counts equal
      the number of mappings, a store by one process is seen by no other, and
      each operation returns with the effect it should have or fails without
      one; the allocator and its error paths.
    - Locks ([Spinlock]): mutual exclusion for every interleaving of harts.
    - Disk ([BioBoot], [LogCrash], [VirtioProof]): the cache is coherent and
      durable, the log makes a transaction atomic under power failure at any
      write, also during recovery, and the driver transfers what it is asked to.
    - Processes ([Await], [Sched], [ForkProof], [WaitProof]): no wakeup is lost in
      any interleaving of [sleep] with [wakeup], a turn for every runnable process
      in each round; [fork] makes a child that shares its parent's memory
      copy-on-write and cannot tell it from a copy, or gives back every page it
      took; [wait] reports an exited child once and gives back
      what it had.
    - Pipes ([PipeProof]): bytes come out in the order they went in, in the
      presence of user memory that faults and counters that wrap.
    - Files ([FsFile], [FsWrite], [FsUser], [FsInode]): the bitmap hands blocks out
      and takes them back; [writei] and [readi] are the store and the load of an
      array of bytes that grows, whatever the block map looks like, and leave
      other files alone; an inode is well typed after [ilock] and survives the
      way to the disk and back. The bound on the transaction is part of the
      statements: [pot] counts the blocks logged so far with those the indirect
      block may still cost. [filewrite] ([FileProof]) keeps within it by cutting a
      write of any length into transactions, and returns with the bytes on the
      disk; [fileread] gets them back. [itrunc] ([FsFree]) frees the blocks of a
      file and no others, and the last [iput] of a file without links frees its
      inode.
    - Directories ([FsDir], [Paths], [FsPath]): [dirlookup] and [dirlink] are lookup
      and insertion of a finite map; [iget] keeps one entry for each inode;
      [skipelem] visits the elements of a path, and [namex] finds the inode that
      they lead to in the tree of directories, balancing its references; [create]
      ([FsCreate]) adds an empty file or a device under one new name and changes
      nothing else; making a directory is translated, and not part of the theorem.
    - The allocator of user programs ([MallocProof]): [malloc] hands out blocks
      that do not overlap, [free] takes them back, and the list of free blocks
      stays sorted, joined and exact, through every growth of the process.
    - [grep] ([Grep]): the matcher decides the meaning of patterns, and the
      program prints the lines that match for every way the kernel may split
      its input.
    - Traps ([AsmProof]): user and kernel traps, timer interrupts and context
      switches restore the registers.
    - The first process ([Stubs]): the bytes in [proc.c], decoded and run, call
      [exec] of ["/init"]; they differ from the assembled source in an alignment.
    - The random numbers of [grind] ([Utests]): [do_rand] is the generator of Park
      and Miller, and does not overflow.

    ** Limits

    The harts interleave in the model of the spin locks and in that of [sleep]
    and [wakeup], statement by statement; the other theorems are about one hart
    at a time, with sleeping processes resumed by whatever the rest of the system
    does to the state in between. Weak memory ordering is not modelled. The count
    of references to an inode is not cut to an [int]: it overflows, which C does
    not define, with 2^31 references only. The theorems about files are about calls that
    succeed in allocating blocks and in logging; a process that reads or writes
    user memory in between is covered, a concurrent change of the same file is
    excluded by its sleep lock. A user program has a total memory of its own: an
    access that the tests make in order to be killed is an event, like a system
    call with arguments that the stubs of the library would not pass; the tests
    are programs of the model, and no theorem says that they pass. Not modelled:
    [ramdisk.c], which the build does not use and whose buffers have fields that
    [struct buf] lacks; the linker script and the makefile; the scripts that grade
    the lab. Headers that only declare ([defs.h], [types.h], [user.h], [date.h]) have
    nothing to translate. *)

From Stdlib Require Import FunctionalExtensionality.
From stdpp Require Export strings functions prelude.
From stdpp Require Import options.

#[global] Open Scope Z_scope.

(** ** Machine-width integers *)

Definition u8 (x : Z) : Z := x mod 2 ^ 8.
Definition u16 (x : Z) : Z := x mod 2 ^ 16.
Definition u32 (x : Z) : Z := x mod 2 ^ 32.
Definition u64 (x : Z) : Z := x mod 2 ^ 64.

(** Conversion to a signed 16-bit [short] and to a signed 32-bit [int]. *)
Definition s16 (x : Z) : Z := (x + 2 ^ 15) mod 2 ^ 16 - 2 ^ 15.
Definition s32 (x : Z) : Z := (x + 2 ^ 31) mod 2 ^ 32 - 2 ^ 31.

Lemma u8_small x : 0 <= x < 256 -> u8 x = x.
Proof. intros. unfold u8. rewrite Z.mod_small; lia. Qed.

Lemma u32_small x : 0 <= x < 2 ^ 32 -> u32 x = x.
Proof. intros. unfold u32. rewrite Z.mod_small; lia. Qed.

Lemma u64_small x : 0 <= x < 2 ^ 64 -> u64 x = x.
Proof. intros. unfold u64. rewrite Z.mod_small; lia. Qed.

Lemma u64_range x : 0 <= u64 x < 2 ^ 64.
Proof. unfold u64. apply Z.mod_pos_bound. lia. Qed.

Lemma u32_range x : 0 <= u32 x < 2 ^ 32.
Proof. unfold u32. apply Z.mod_pos_bound. lia. Qed.

Lemma s32_small x : - 2 ^ 31 <= x < 2 ^ 31 -> s32 x = x.
Proof. intros. unfold s32. rewrite Z.mod_small; lia. Qed.

#[global] Arguments u8 : simpl never.
#[global] Arguments u16 : simpl never.
#[global] Arguments u32 : simpl never.
#[global] Arguments u64 : simpl never.
#[global] Arguments s16 : simpl never.
#[global] Arguments s32 : simpl never.

(** ** Total maps

    Arrays of the kernel are total functions on their index, updated with
    stdpp's [<[i := x]> f]. *)

#[global] Arguments fn_insert : simpl never.

Lemma fn_insert_spec {A T} `{EqDecision A} (f : A -> T) a b t :
  <[a := t]> f b = if decide (a = b) then t else f b.
Proof. done. Qed.

Lemma fn_insert_ne {A T} `{EqDecision A} (f : A -> T) a b t : a <> b -> <[a := t]> f b = f b.
Proof. intros. by rewrite fn_insert_spec, decide_False. Qed.

Lemma fn_insert_insert {A T} `{EqDecision A} (f : A -> T) a t t' :
  <[a := t]> (<[a := t']> f) = <[a := t]> f.
Proof.
  apply functional_extensionality. intros b.
  rewrite !fn_insert_spec. by case_decide.
Qed.

Lemma fn_insert_id {A T} `{EqDecision A} (f : A -> T) a :
  <[a := f a]> f = f.
Proof.
  apply functional_extensionality. intros b.
  rewrite !fn_insert_spec. case_decide; congruence.
Qed.

(** ** Lists *)

Lemma bind_ext_in {A B} (f g : A -> list B) l :
  (forall x, x ∈ l -> f x = g x) -> l ≫= f = l ≫= g.
Proof.
  induction l as [|x l IH]; intros Heq; [done|]. rewrite !bind_cons. f_equal.
  - apply Heq. by left.
  - apply IH. intros y Hy. apply Heq. by right.
Qed.

(** ** Identities of kernel objects

    A spin lock is named by the C object it is; the channel a process sleeps
    on is named by the C object whose address the source passes to [sleep]. *)

Inductive lockid : Type :=
| Lkmem            (* kmem.lock *)
| Lref             (* kmem.ref_lock *)
| Lpid             (* pid_lock *)
| Lwait            (* wait_lock *)
| Lticks           (* tickslock *)
| Lproc (i : Z)    (* proc[i].lock *)
| Lbcache          (* bcache.lock *)
| Lbuf (i : Z)     (* bcache.buf[i].lock.lk *)
| Llog             (* log.lock *)
| Litable          (* itable.lock *)
| Linode (i : Z)   (* itable.inode[i].lock.lk *)
| Lftable          (* ftable.lock *)
| Lpipe (pi : Z)   (* the lock of the pipe at address pi *)
| Lcons            (* cons.lock *)
| Luart            (* uart_tx_lock *)
| Lpr              (* pr.lock *)
| Lvdisk.          (* disk.vdisk_lock *)

#[global] Instance lockid_eq_dec : EqDecision lockid.
Proof. solve_decision. Defined.

Inductive chan : Type :=
| Cnone            (* the null channel *)
| Cproc (i : Z)    (* &proc[i], used by wait() *)
| Cticks           (* &ticks *)
| Cbuflock (i : Z) (* &bcache.buf[i].lock *)
| Cbuf (i : Z)     (* &bcache.buf[i], used by virtio_disk_rw() *)
| Cinode (i : Z)   (* &itable.inode[i].lock *)
| Clog             (* &log *)
| Cnread (pi : Z)  (* &pi->nread *)
| Cnwrite (pi : Z) (* &pi->nwrite *)
| Ccons            (* &cons.r *)
| Cuart            (* &uart_tx_r *)
| Cdiskfree.       (* &disk.free[0] *)

#[global] Instance chan_eq_dec : EqDecision chan.
Proof. solve_decision. Defined.

(** ** Outcomes of kernel code

    A kernel routine started in a state either returns, panics (the kernel
    prints the message and stops: [panic] never returns), goes to sleep on a
    channel with the rest of its execution as a function of the state it is
    woken up in, or exhausts the loop bound the model was given. *)

Inductive out (St A : Type) : Type :=
| Ret (a : A) (s : St)
| Panic (msg : string) (s : St)
| Sleep (ch : chan) (s : St) (k : St -> out St A)
| NoFuel.
#[global] Arguments Ret {_ _} _ _.
#[global] Arguments Panic {_ _} _ _.
#[global] Arguments Sleep {_ _} _ _ _.
#[global] Arguments NoFuel {_ _}.

Fixpoint obind {St A B} (o : out St A) (f : A -> St -> out St B) : out St B :=
  match o with
  | Ret a s => f a s
  | Panic msg s => Panic msg s
  | Sleep ch s k => Sleep ch s (fun s' => obind (k s') f)
  | NoFuel => NoFuel
  end.

(** The monad of kernel code over a state [St]. The [nat] bounds the number
    of iterations of each loop whose length is not known beforehand; it is
    the same for every loop of a run, so theorems say "for every bound that
    is large enough". *)
Definition M (St A : Type) : Type := nat -> St -> out St A.

#[global] Instance M_ret St : MRet (M St) := fun A a _ s => Ret a s.
#[global] Instance M_bind St : MBind (M St) :=
  fun A B f m n s => obind (m n s) (fun a s' => f a n s').

Definition panic {St A} (msg : string) : M St A := fun _ s => Panic msg s.
Definition gets {St A} (f : St -> A) : M St A := fun _ s => Ret (f s) s.
Definition modify {St} (f : St -> St) : M St unit := fun _ s => Ret tt (f s).

(** [if(b) m;] *)
Definition when {St} (b : bool) (m : M St unit) : M St unit :=
  if b then m else mret tt.

(** What the body of a loop does: go round again with new values of the
    local variables, or leave the loop (or the function) with a result. *)
Inductive ctl (L A : Type) : Type :=
| Next (l : L)
| Done (a : A).
#[global] Arguments Next {_ _} _.
#[global] Arguments Done {_ _} _.

Fixpoint loop_n {St L A} (body : L -> M St (ctl L A)) (i : nat) (l : L)
    : M St A :=
  fun n s =>
    match i with
    | O => NoFuel
    | S i' =>
        obind (body l n s) (fun r s' =>
          match r with
          | Next l' => loop_n body i' l' n s'
          | Done a => Ret a s'
          end)
    end.

(** A loop bounded by the bound of the run. *)
Definition loop {St L A} (body : L -> M St (ctl L A)) (l : L) : M St A :=
  fun n s => loop_n body n l n s.

(** [for(i = lo; i < lo + k; i++) body(i)], left early when the body is
    [Done]; the result is [None] when the loop runs to its end. *)
Fixpoint for_ {St A} (k : nat) (i : Z) (body : Z -> M St (ctl unit A))
    : M St (option A) :=
  match k with
  | O => mret None
  | S k' =>
      r ← body i;
      match r with
      | Next _ => for_ k' (i + 1) body
      | Done a => mret (Some a)
      end
  end.

(** The same with local variables [l] that the body changes. *)
Fixpoint forl {St L A} (k : nat) (i : Z) (l : L) (body : Z -> L -> M St (ctl L A))
    : M St (ctl L A) :=
  match k with
  | O => mret (Next l)
  | S k' =>
      r ← body i l;
      match r with
      | Next l' => forl k' (i + 1) l' body
      | Done a => mret (Done a)
      end
  end.

(** ** Lenses: a component's state inside a larger one *)

Class Lens (St T : Type) := {
  lget : St -> T;
  lset : T -> St -> St;
  lget_lset : forall t s, lget (lset t s) = t;
  lset_lget : forall s, lset (lget s) s = s;
  lset_lset : forall t t' s, lset t (lset t' s) = lset t s
}.

Fixpoint olift {St T A} `{Lens St T} (s : St) (o : out T A) : out St A :=
  match o with
  | Ret a t => Ret a (lset t s)
  | Panic msg t => Panic msg (lset t s)
  | Sleep ch t k => Sleep ch (lset t s) (fun s' => olift s' (k (lget s')))
  | NoFuel => NoFuel
  end.

(** Run code of a component inside the larger state. *)
Definition lift {St T A} `{Lens St T} (m : M T A) : M St A :=
  fun n s => olift s (m n (lget s)).

(** ** Total correctness

    [wp m n s Q]: run with loop bound [n] from [s], the routine returns (it
    does not panic, sleep or run out of fuel) and [Q] holds of the result and
    the final state. *)

Definition wp {St A} (m : M St A) (n : nat) (s : St) (Q : A -> St -> Prop) : Prop :=
  match m n s with
  | Ret a s' => Q a s'
  | _ => False
  end.

Section wp_rules.
Context {St : Type}.

Lemma wp_ret {A} (a : A) n (s : St) Q : Q a s -> wp (mret a) n s Q.
Proof. done. Qed.

Lemma wp_bind {A B} (m : M St A) (f : A -> M St B) n s Q :
  wp m n s (fun a s' => wp (f a) n s' Q) -> wp (m ≫= f) n s Q.
Proof.
  unfold wp, mbind, M_bind. destruct (m n s); simpl; done.
Qed.

(** What follows from the outcome of [f] follows from that of [m ≫= f], also
    when it is a panic. *)
Lemma run_bind {A B} (T : out St B -> Prop) (m : M St A) (f : A -> M St B) n s :
  wp m n s (fun a s' => T (f a n s')) -> T ((m ≫= f) n s).
Proof. unfold wp, mbind, M_bind. destruct (m n s); simpl; done. Qed.

Lemma wp_mono {A} (m : M St A) n s (Q Q' : A -> St -> Prop) :
  wp m n s Q -> (forall a s', Q a s' -> Q' a s') -> wp m n s Q'.
Proof. unfold wp. destruct (m n s); eauto. Qed.

Lemma wp_gets {A} (f : St -> A) n s Q : Q (f s) s -> wp (gets f) n s Q.
Proof. done. Qed.

Lemma wp_modify (f : St -> St) n s (Q : unit -> St -> Prop) :
  Q tt (f s) -> wp (modify f) n s Q.
Proof. done. Qed.

Lemma wp_when b (m : M St unit) n s Q :
  (b = true -> wp m n s Q) -> (b = false -> Q tt s) -> wp (when b m) n s Q.
Proof. destruct b; intros H1 H2; [by apply H1|by apply H2]. Qed.

Lemma wp_Ret {A} (m : M St A) n s a s' :
  wp m n s (fun x y => x = a /\ y = s') <-> m n s = Ret a s'.
Proof.
  unfold wp. split.
  - destruct (m n s); try done. by intros [-> ->].
  - by intros ->.
Qed.

Lemma wp_elim {A} (m : M St A) n s Q :
  wp m n s Q -> exists a s', m n s = Ret a s' /\ Q a s'.
Proof. unfold wp. destruct (m n s); naive_solver. Qed.

Lemma wp_elim_unit (m : M St unit) n s (Q : St -> Prop) :
  wp m n s (fun _ s' => Q s') -> exists s', m n s = Ret tt s' /\ Q s'.
Proof. intros ([] & s' & ? & ?)%wp_elim. eauto. Qed.

Lemma wp_lift {T A} `{Lens St T} (m : M T A) n s Q :
  wp m n (lget s) (fun a t => Q a (lset t s)) -> wp (lift m) n s Q.
Proof. unfold wp, lift. by destruct (m n (lget s)). Qed.

(** A loop terminates with [Q] when its body keeps an invariant indexed by a
    measure that decreases at each round and starts below the bound. *)
Lemma wp_loop {L A} (body : L -> M St (ctl L A)) (I : nat -> L -> St -> Prop)
    (n : nat) Q :
  (forall k l s, I k l s ->
     wp (body l) n s (fun r s' =>
       match r with
       | Next l' => exists k', (k' < k)%nat /\ I k' l' s'
       | Done a => Q a s'
       end)) ->
  forall k l s, (k < n)%nat -> I k l s -> wp (loop body l) n s Q.
Proof.
  intros Hbody k l s Hk HI. unfold wp, loop.
  assert (forall i k l s, (k < i)%nat -> I k l s -> wp (loop_n body i l) n s Q) as Hi.
  { clear k l s Hk HI. induction i as [|i IH]; [lia|].
    intros k l s Hk HI. specialize (Hbody _ _ _ HI). unfold wp in *. simpl.
    destruct (body l n s) as [r s'| | |]; try done. simpl.
    destruct r; [|done]. destruct Hbody as (k' & ? & ?).
    apply (IH k'); [lia|done]. }
  by apply (Hi n k).
Qed.

(** A loop that is left in its first round. *)
Lemma wp_loop_once {L A} (body : L -> M St (ctl L A)) n l s Q :
  (0 < n)%nat -> wp (body l) n s (fun r s' => match r with Next _ => False | Done a => Q a s' end) ->
  wp (loop body l) n s Q.
Proof.
  intros Hn Hb. destruct n as [|n]; [lia|]. unfold wp, loop in *. cbn [loop_n].
  destruct (body l (S n) s) as [[]| | |]; done.
Qed.

(** A loop unfolded a known number of times. *)
Lemma wp_loop_n {L A} (body : L -> M St (ctl L A)) i l n s Q :
  wp (body l) n s (fun r s' => match r with Next l' => wp (loop_n body i l') n s' Q | Done a => Q a s' end) ->
  wp (loop_n body (S i) l) n s Q.
Proof. unfold wp. cbn [loop_n]. destruct (body l n s) as [[]| | |]; done. Qed.

Lemma wp_loop_rounds {L A} (body : L -> M St (ctl L A)) i l n s Q :
  n = i -> wp (loop_n body i l) n s Q -> wp (loop body l) n s Q.
Proof. by intros <-. Qed.

(** A counted loop, by an invariant on the counter. *)
Lemma wp_for {A} (I : Z -> St -> Prop) (body : Z -> M St (ctl unit A)) n k :
  forall i s Q,
  I i s ->
  (forall j s, i <= j < i + Z.of_nat k -> I j s ->
     wp (body j) n s (fun r s' =>
       match r with Next _ => I (j + 1) s' | Done a => Q (Some a) s' end)) ->
  (forall s, I (i + Z.of_nat k) s -> Q None s) ->
  wp (for_ k i body) n s Q.
Proof.
  induction k as [|k IH]; intros i s Q HI Hbody Hend; simpl.
  - apply wp_ret, Hend. by rewrite Z.add_0_r.
  - apply wp_bind. eapply wp_mono; [apply Hbody; [lia|done]|].
    intros [u|a] s'; simpl; [|done]. intros HI'. apply IH; [done| |].
    + intros j s'' ? ?. apply Hbody; [lia|done].
    + intros s'' ?. apply Hend. by replace (i + Z.of_nat (S k)) with (i + 1 + Z.of_nat k) by lia.
Qed.

Lemma wp_forl {L A} (I : Z -> L -> St -> Prop) (body : Z -> L -> M St (ctl L A)) n k :
  forall i l s Q,
  I i l s ->
  (forall j l s, i <= j < i + Z.of_nat k -> I j l s ->
     wp (body j l) n s (fun r s' =>
       match r with Next l' => I (j + 1) l' s' | Done a => Q (Done a) s' end)) ->
  (forall l s, I (i + Z.of_nat k) l s -> Q (Next l) s) ->
  wp (forl k i l body) n s Q.
Proof.
  induction k as [|k IH]; intros i l s Q HI Hbody Hend; simpl.
  - apply wp_ret, Hend. by rewrite Z.add_0_r.
  - apply wp_bind. eapply wp_mono; [apply Hbody; [lia|done]|].
    intros [u|a] s'; simpl; [|done]. intros HI'. apply IH; [done| |].
    + intros j l' s'' ? ?. apply Hbody; [lia|done].
    + intros l' s'' ?. apply Hend. by replace (i + Z.of_nat (S k)) with (i + 1 + Z.of_nat k) by lia.
Qed.

End wp_rules.

(** Step through straight-line code. *)
Ltac wp_step :=
  lazymatch goal with
  | |- wp (mbind _ _) _ _ _ => apply wp_bind
  | |- wp (mret _) _ _ _ => apply wp_ret
  | |- wp (gets _) _ _ _ => apply wp_gets
  | |- wp (modify _) _ _ _ => apply wp_modify
  | |- wp (when _ _) _ _ _ => apply wp_when
  | |- wp (lift _) _ _ _ => apply wp_lift
  end.
Ltac wp_steps := repeat (wp_step; cbn beta).

(** Expose the state passing of straight-line code. *)
Ltac munfold := unfold mbind, M_bind, mret, M_ret, gets, modify, panic, lift in *.

(** Decide a boolean test of the code. *)
Ltac zbool :=
  repeat match goal with
  | H : (_ =? _) = true |- _ => apply Z.eqb_eq in H
  | H : (_ =? _) = false |- _ => apply Z.eqb_neq in H
  | H : (_ <? _) = true |- _ => apply Z.ltb_lt in H
  | H : (_ <? _) = false |- _ => apply Z.ltb_ge in H
  | H : (_ <=? _) = true |- _ => apply Z.leb_le in H
  | H : (_ <=? _) = false |- _ => apply Z.leb_gt in H
  | H : negb _ = true |- _ => apply negb_true_iff in H
  | H : negb _ = false |- _ => apply negb_false_iff in H
  | H : (_ && _)%bool = true |- _ => apply andb_true_iff in H; destruct H
  | H : (_ || _)%bool = false |- _ => apply orb_false_iff in H; destruct H
  end.

(** Refute a conjunction of equations, or decide one of several cases. *)
Ltac nope :=
  intros;
  repeat match goal with
  | H : _ /\ _ |- _ => destruct H
  | H : _ \/ _ |- _ => destruct H
  end; subst; first [done | congruence | lia | tauto].
