(* ===== verification/Riscv.v ===== *)
(** * The RISC-V definitions the kernel uses

    Models the constants and macros of [src/kernel/riscv.h] (page sizes, page
    table entries, Sv39 indices, [satp]) and of [src/kernel/memlayout.h] and
    [src/kernel/param.h] (the physical and virtual memory layout), with the
    arithmetic facts about them that the other components use. *)

From S2P Require Import Prelude.

(** ** riscv.h *)

Definition PGSIZE : Z := 4096.
Definition PGSHIFT : Z := 12.

Definition PGROUNDUP (sz : Z) : Z := Z.land (u64 (sz + PGSIZE - 1)) (Z.lnot (PGSIZE - 1)).
Definition PGROUNDDOWN (a : Z) : Z := Z.land a (Z.lnot (PGSIZE - 1)).

Definition PTE_V : Z := Z.shiftl 1 0.
Definition PTE_R : Z := Z.shiftl 1 1.
Definition PTE_W : Z := Z.shiftl 1 2.
Definition PTE_X : Z := Z.shiftl 1 3.
Definition PTE_U : Z := Z.shiftl 1 4.
Definition PTE_RSW : Z := Z.shiftl 1 8.

Definition PA2PTE (pa : Z) : Z := u64 (Z.shiftl (Z.shiftr pa 12) 10).
Definition PTE2PA (pte : Z) : Z := u64 (Z.shiftl (Z.shiftr pte 10) 12).
Definition PTE_FLAGS (pte : Z) : Z := Z.land pte 0x3FF.

Definition PXMASK : Z := 0x1FF.
Definition PXSHIFT (level : Z) : Z := PGSHIFT + 9 * level.
Definition PX (level va : Z) : Z := Z.land (Z.shiftr va (PXSHIFT level)) PXMASK.

Definition MAXVA : Z := Z.shiftl 1 (9 + 9 + 9 + 12 - 1).

Definition SATP_SV39 : Z := Z.shiftl 8 60.
Definition MAKE_SATP (pagetable : Z) : Z := Z.lor SATP_SV39 (Z.shiftr pagetable 12).

Definition SSTATUS_SPP : Z := Z.shiftl 1 8.
Definition SSTATUS_SPIE : Z := Z.shiftl 1 5.
Definition SSTATUS_SIE : Z := Z.shiftl 1 1.

(** [(x & f) != 0] *)
Definition has (x f : Z) : bool := negb (Z.land x f =? 0).

(** ** memlayout.h *)

Definition UART0 : Z := 0x10000000.
Definition VIRTIO0 : Z := 0x10001000.
Definition PLIC : Z := 0x0c000000.
Definition KERNBASE : Z := 0x80000000.
Definition PHYSTOP : Z := KERNBASE + 128 * 1024 * 1024.
Definition TRAMPOLINE : Z := MAXVA - PGSIZE.
Definition KSTACK (p : Z) : Z := TRAMPOLINE - (p + 1) * 2 * PGSIZE.
Definition TRAPFRAME : Z := TRAMPOLINE - PGSIZE.

(** ** param.h *)

Definition NPROC : Z := 64.
Definition NCPU : Z := 8.
Definition NOFILE : Z := 16.
Definition NFILE : Z := 100.
Definition NINODE : Z := 50.
Definition NDEV : Z := 10.
Definition ROOTDEV : Z := 1.
Definition MAXARG : Z := 32.
Definition MAXOPBLOCKS : Z := 10.
Definition LOGSIZE : Z := MAXOPBLOCKS * 3.
Definition NBUF : Z := MAXOPBLOCKS * 3.
Definition FSSIZE : Z := 1000.
Definition MAXPATH : Z := 128.

(** ** fs.h: the sizes of blocks and files *)

Definition BSIZE : Z := 1024.
Definition NDIRECT : Z := 12.
Definition NINDIRECT : Z := BSIZE / 4.
Definition MAXFILE : Z := NDIRECT + NINDIRECT.

(** ** fcntl.h *)

Definition O_RDONLY : Z := 0x000.
Definition O_WRONLY : Z := 0x001.
Definition O_RDWR : Z := 0x002.
Definition O_CREATE : Z := 0x200.
Definition O_TRUNC : Z := 0x400.

(** ** syscall.h *)

Definition SYS_fork : Z := 1.
Definition SYS_exit : Z := 2.
Definition SYS_wait : Z := 3.
Definition SYS_pipe : Z := 4.
Definition SYS_read : Z := 5.
Definition SYS_kill : Z := 6.
Definition SYS_exec : Z := 7.
Definition SYS_fstat : Z := 8.
Definition SYS_chdir : Z := 9.
Definition SYS_dup : Z := 10.
Definition SYS_getpid : Z := 11.
Definition SYS_sbrk : Z := 12.
Definition SYS_sleep : Z := 13.
Definition SYS_uptime : Z := 14.
Definition SYS_open : Z := 15.
Definition SYS_write : Z := 16.
Definition SYS_mknod : Z := 17.
Definition SYS_unlink : Z := 18.
Definition SYS_link : Z := 19.
Definition SYS_mkdir : Z := 20.
Definition SYS_close : Z := 21.

(** ** Symbols of the linker script

    [kernel.ld] fixes the order of the sections; the addresses depend on the
    compiled code, so they are parameters: [end] is the first address after
    the kernel, [etext] the end of its code and [trampoline] the page of
    [trampoline.S]. *)

Class Layout := {
  kend : Z;
  etext : Z;
  trampoline : Z;
  forkret_addr : Z;      (* the address of forkret(), and likewise below *)
  usertrap_addr : Z;
  kernelvec_addr : Z;
  uservec_addr : Z;
  userret_addr : Z;
  timervec_addr : Z;
  main_addr : Z
}.

(** What [kernel.ld] promises about them, and that the kernel leaves the
    allocator at least its reference-count pages and one page. *)
Class LayoutOk `{Layout} : Prop := {
  kend_lo : etext <= kend;
  kend_hi : kend + 64 * PGSIZE <= PHYSTOP;
  etext_lo : KERNBASE < etext;
  etext_aligned : etext mod PGSIZE = 0;
  trampoline_page : trampoline + PGSIZE = etext
}.

(** A kernel image of 34 pages, for concrete examples. *)
Definition small_kernel : Layout :=
  {| kend := KERNBASE + 34 * PGSIZE; etext := KERNBASE + 8 * PGSIZE;
     trampoline := KERNBASE + 7 * PGSIZE;
     forkret_addr := KERNBASE + 0x1000; usertrap_addr := KERNBASE + 0x1100; kernelvec_addr := KERNBASE + 0x1200;
     uservec_addr := KERNBASE + 7 * PGSIZE; userret_addr := KERNBASE + 7 * PGSIZE + 0x90;
     timervec_addr := KERNBASE + 0x1300; main_addr := KERNBASE + 0x1400 |}.

Lemma small_kernel_ok : @LayoutOk small_kernel.
Proof. split; vm_compute; congruence. Qed.

#[global] Arguments PGROUNDUP : simpl never.
#[global] Arguments PGROUNDDOWN : simpl never.
#[global] Arguments PA2PTE : simpl never.
#[global] Arguments PTE2PA : simpl never.
#[global] Arguments PTE_FLAGS : simpl never.
#[global] Arguments PX : simpl never.
#[global] Arguments has : simpl never.
#[global] Arguments PGSIZE : simpl never.
#[global] Arguments MAXVA : simpl never.
#[global] Arguments PHYSTOP : simpl never.
#[global] Arguments KERNBASE : simpl never.

(** ** Pages *)

Definition aligned (a : Z) : Prop := a mod PGSIZE = 0.

(** The page number of a virtual address. *)
Definition vpn (va : Z) : Z := va / PGSIZE.

Lemma MAXVA_eq : MAXVA = 2 ^ 38.
Proof. done. Qed.

Ltac pages := unfold aligned, vpn, PGSIZE, PHYSTOP, KERNBASE in *; rewrite ?MAXVA_eq in *.

Lemma land_lnot_pow2 a k : 0 <= k -> Z.land a (Z.lnot (2 ^ k - 1)) = a - a mod 2 ^ k.
Proof.
  intros Hk. replace (2 ^ k - 1) with (Z.ones k) by (rewrite Z.ones_equiv; lia).
  rewrite <-Z.ldiff_land, Z.ldiff_ones_r by done.
  rewrite Z.shiftl_mul_pow2, Z.shiftr_div_pow2 by done.
  pose proof (Z.div_mod a (2 ^ k)). lia.
Qed.

Lemma PGROUNDDOWN_eq a : PGROUNDDOWN a = a - a mod PGSIZE.
Proof. apply (land_lnot_pow2 a 12). lia. Qed.

Lemma PGROUNDUP_eq a :
  0 <= a -> a + PGSIZE <= 2 ^ 64 ->
  PGROUNDUP a = (a + PGSIZE - 1) - (a + PGSIZE - 1) mod PGSIZE.
Proof.
  intros. unfold PGROUNDUP. rewrite u64_small by (pages; lia).
  apply (land_lnot_pow2 _ 12). lia.
Qed.

Lemma PGROUNDDOWN_aligned a : aligned a -> PGROUNDDOWN a = a.
Proof. rewrite PGROUNDDOWN_eq. unfold aligned. lia. Qed.

Lemma PGROUNDDOWN_is_aligned a : aligned (PGROUNDDOWN a).
Proof.
  rewrite PGROUNDDOWN_eq. pages. Z.div_mod_to_equations. lia.
Qed.

Lemma PGROUNDDOWN_bounds a : PGROUNDDOWN a <= a < PGROUNDDOWN a + PGSIZE.
Proof. rewrite PGROUNDDOWN_eq. pages. Z.div_mod_to_equations. lia. Qed.

Lemma PGROUNDUP_bounds a :
  0 <= a -> a + PGSIZE <= 2 ^ 64 ->
  aligned (PGROUNDUP a) /\ a <= PGROUNDUP a < a + PGSIZE.
Proof.
  intros. rewrite PGROUNDUP_eq by done. pages. Z.div_mod_to_equations. lia.
Qed.

Lemma PGROUNDUP_aligned a :
  0 <= a -> a + PGSIZE <= 2 ^ 64 -> aligned a -> PGROUNDUP a = a.
Proof.
  intros. rewrite PGROUNDUP_eq by done. pages. Z.div_mod_to_equations. lia.
Qed.

Lemma aligned_add a : aligned a -> aligned (a + PGSIZE).
Proof. pages. intros. Z.div_mod_to_equations. lia. Qed.

Lemma aligned_vpn a : aligned a -> a = vpn a * PGSIZE.
Proof. pages. intros. Z.div_mod_to_equations. lia. Qed.

(** Two aligned pages are equal or disjoint. *)
Lemma aligned_disjoint p q :
  aligned p -> aligned q -> p <> q -> p + PGSIZE <= q \/ q + PGSIZE <= p.
Proof. pages. intros. Z.div_mod_to_equations. lia. Qed.

(** ** Bits of a page table entry *)

Lemma has_testbit x k : 0 <= k -> has x (Z.shiftl 1 k) = Z.testbit x k.
Proof.
  intros Hk. unfold has. rewrite Z.shiftl_1_l.
  destruct (Z.testbit x k) eqn:E.
  - apply negb_true_iff, Z.eqb_neq. intros H0.
    apply (f_equal (fun z => Z.testbit z k)) in H0.
    rewrite Z.land_spec, Z.pow2_bits_true, E, Z.testbit_0_l in H0; done.
  - apply negb_false_iff, Z.eqb_eq. apply Z.bits_inj'. intros i Hi.
    rewrite Z.land_spec, Z.testbit_0_l.
    destruct (decide (i = k)) as [->|]; [by rewrite E|].
    rewrite Z.pow2_bits_false by done. apply andb_false_r.
Qed.

Lemma shiftr_small c k : 0 <= k -> 0 <= c < 2 ^ k -> Z.shiftr c k = 0.
Proof. intros. rewrite Z.shiftr_div_pow2 by done. by apply Z.div_small. Qed.

(** Setting and clearing bits among the flags leaves the physical page. *)
Lemma PTE2PA_lor x c : 0 <= c < 1024 -> PTE2PA (Z.lor x c) = PTE2PA x.
Proof.
  intros. unfold PTE2PA. rewrite Z.shiftr_lor, (shiftr_small c 10) by lia.
  by rewrite Z.lor_0_r.
Qed.

Lemma PTE2PA_clear x c : 0 <= c < 1024 -> PTE2PA (Z.land x (Z.lnot c)) = PTE2PA x.
Proof.
  intros. unfold PTE2PA. rewrite Z.shiftr_land.
  replace (Z.shiftr (Z.lnot c) 10) with (-1); [by rewrite Z.land_m1_r|].
  rewrite Z.shiftr_div_pow2 by lia. unfold Z.lnot.
  Z.div_mod_to_equations. lia.
Qed.

(** The entry [PA2PTE(pa) | perm | PTE_V] that [mappages] stores. *)
Definition mkpte (pa perm : Z) : Z := Z.lor (Z.lor (PA2PTE pa) perm) PTE_V.

Lemma PA2PTE_eq pa : 0 <= pa < 2 ^ 56 -> PA2PTE pa = pa / 4096 * 1024.
Proof.
  intros. unfold PA2PTE. rewrite Z.shiftl_mul_pow2, Z.shiftr_div_pow2 by lia.
  apply u64_small. Z.div_mod_to_equations. lia.
Qed.

Lemma PTE2PA_mkpte pa perm :
  aligned pa -> 0 <= pa < 2 ^ 56 -> 0 <= perm < 1024 -> PTE2PA (mkpte pa perm) = pa.
Proof.
  intros Hal ? ?. unfold mkpte.
  rewrite (PTE2PA_lor _ PTE_V) by done. rewrite PTE2PA_lor by done.
  unfold PTE2PA. rewrite PA2PTE_eq by done.
  rewrite Z.shiftl_mul_pow2, Z.shiftr_div_pow2 by lia.
  change (2 ^ 10) with 1024. rewrite Z.div_mul by lia.
  pages. rewrite u64_small; Z.div_mod_to_equations; lia.
Qed.

Lemma mkpte_flag pa perm k :
  0 <= pa < 2 ^ 56 -> 0 <= k < 10 ->
  Z.testbit (mkpte pa perm) k = Z.testbit (Z.lor perm PTE_V) k.
Proof.
  intros ? [? ?]. unfold mkpte. rewrite <-Z.lor_assoc, Z.lor_spec.
  unfold PA2PTE. rewrite u64_small.
  - rewrite Z.shiftl_spec_low by lia. done.
  - rewrite Z.shiftl_mul_pow2, Z.shiftr_div_pow2 by lia. Z.div_mod_to_equations. lia.
Qed.

Lemma lor_add a c k : 0 <= k -> 0 <= c < 2 ^ k -> Z.lor (a * 2 ^ k) c = a * 2 ^ k + c.
Proof.
  intros Hk Hc. assert (Z.land (a * 2 ^ k) c = 0) as H0.
  { apply Z.bits_inj'. intros i Hi. rewrite Z.land_spec, Z.testbit_0_l.
    destruct (Z.ltb_spec i k).
    - by rewrite Z.mul_pow2_bits_low by lia.
    - rewrite <-(Z.mod_small c (2 ^ k)), (Z.mod_pow2_bits_high c k i) by lia.
      apply andb_false_r. }
  rewrite <-Z.lxor_lor, <-Z.add_nocarry_lxor by done. done.
Qed.

(** An entry is the physical page number next to ten bits of flags. *)
Lemma mkpte_eq pa perm :
  0 <= pa < 2 ^ 56 -> 0 <= Z.lor perm PTE_V < 1024 ->
  mkpte pa perm = pa / 4096 * 1024 + Z.lor perm PTE_V.
Proof.
  intros. unfold mkpte. rewrite <-Z.lor_assoc, PA2PTE_eq by done.
  by apply (lor_add _ _ 10).
Qed.

Lemma lor_V_range perm : 0 <= perm < 1024 -> 0 <= Z.lor perm PTE_V < 1024.
Proof.
  intros [Hp ?]. split; [by apply Z.lor_nonneg|].
  destruct (decide (Z.lor perm PTE_V = 0)) as [->|Hne]; [lia|].
  apply (Z.log2_lt_pow2 _ 10); [|].
  { assert (0 <= Z.lor perm PTE_V) by by apply Z.lor_nonneg. lia. }
  rewrite Z.log2_lor by done. apply Z.max_lub_lt; [|done].
  destruct (decide (perm = 0)) as [->|]; [done|]. apply Z.log2_lt_pow2; lia.
Qed.

Lemma mkpte_u64 pa perm :
  0 <= pa < 2 ^ 56 -> 0 <= perm < 1024 -> u64 (mkpte pa perm) = mkpte pa perm.
Proof.
  intros Hpa Hperm. pose proof (lor_V_range perm Hperm).
  rewrite mkpte_eq by done. apply u64_small. Z.div_mod_to_equations. lia.
Qed.

Lemma PTE_FLAGS_mod x : PTE_FLAGS x = x mod 1024.
Proof. apply (Z.land_ones x 10). lia. Qed.

Lemma PTE_FLAGS_mkpte pa perm :
  0 <= pa < 2 ^ 56 -> 0 <= perm < 1024 ->
  PTE_FLAGS (mkpte pa perm) = Z.lor perm PTE_V.
Proof.
  intros Hpa Hperm. pose proof (lor_V_range perm Hperm).
  rewrite PTE_FLAGS_mod, mkpte_eq by done. rewrite Z.add_comm, Z.mod_add by done.
  by apply Z.mod_small.
Qed.

(** An entry is determined by its page and its flags. *)
Lemma mkpte_of e :
  0 <= e < 2 ^ 54 -> Z.testbit e 0 = true ->
  mkpte (PTE2PA e) (PTE_FLAGS e) = e.
Proof.
  intros He HV. assert (PTE2PA e = e / 1024 * 4096) as HP.
  { unfold PTE2PA. rewrite Z.shiftl_mul_pow2, Z.shiftr_div_pow2 by lia.
    apply u64_small. Z.div_mod_to_equations. lia. }
  assert (Z.lor (PTE_FLAGS e) PTE_V = e mod 1024) as HF.
  { rewrite PTE_FLAGS_mod. apply Z.bits_inj'. intros i Hi. rewrite Z.lor_spec.
    destruct (decide (i = 0)) as [->|].
    - rewrite orb_true_r. symmetry. change 1024 with (2 ^ 10).
      rewrite Z.mod_pow2_bits_low by lia. done.
    - change PTE_V with (2 ^ 0). rewrite Z.pow2_bits_false by done. apply orb_false_r. }
  rewrite mkpte_eq, HF, HP.
  - rewrite Z.div_mul by done. rewrite (Z.div_mod e 1024) at 3 by done. lia.
  - rewrite HP. Z.div_mod_to_equations. lia.
  - rewrite HF. apply Z.mod_pos_bound. done.
Qed.

(** ** Sv39 indices *)

Lemma PX_eq l va : 0 <= l -> PX l va = va / 2 ^ (12 + 9 * l) mod 512.
Proof.
  intros. unfold PX, PXSHIFT, PGSHIFT, PXMASK.
  rewrite Z.shiftr_div_pow2 by lia. by apply (Z.land_ones _ 9).
Qed.

Lemma PX_range l va : 0 <= l -> 0 <= PX l va < 512.
Proof. intros. rewrite PX_eq by done. apply Z.mod_pos_bound. lia. Qed.

(** The index at a level is a base-512 digit of the page number. *)
Lemma PX_digit l va : 0 <= l -> PX l va = vpn va / 512 ^ l mod 512.
Proof.
  intros. rewrite PX_eq by done. unfold vpn, PGSIZE.
  rewrite Z.pow_add_r, Z.pow_mul_r, <-Z.div_div by lia. done.
Qed.

Lemma PX_vpn l va va' : 0 <= l -> vpn va = vpn va' -> PX l va = PX l va'.
Proof. intros ? Heq. by rewrite !PX_digit, Heq by done. Qed.

Lemma digits512 x :
  0 <= x < 2 ^ 27 ->
  x = x mod 512 + 512 * ((x / 512) mod 512) + 512 ^ 2 * ((x / 512 ^ 2) mod 512).
Proof.
  intros Hx. change (512 ^ 2) with (512 * 512). rewrite <-Z.div_div by lia.
  rewrite (Z.mod_small (x / 512 / 512)) by (Z.div_mod_to_equations; lia).
  Z.div_mod_to_equations. lia.
Qed.

(** Below [MAXVA] the three indices determine the page. *)
Lemma PX_inj va va' :
  0 <= va < MAXVA -> 0 <= va' < MAXVA ->
  PX 2 va = PX 2 va' -> PX 1 va = PX 1 va' -> PX 0 va = PX 0 va' ->
  vpn va = vpn va'.
Proof.
  intros Hva Hva'. rewrite !PX_digit by lia.
  rewrite Z.pow_1_r, Z.pow_0_r, !Z.div_1_r. intros H2 H1 H0.
  assert (forall a, 0 <= a < MAXVA -> 0 <= vpn a < 2 ^ 27) as Hb.
  { unfold vpn, PGSIZE. rewrite MAXVA_eq. intros. Z.div_mod_to_equations. lia. }
  rewrite (digits512 (vpn va)), (digits512 (vpn va')), H0, H1, H2 by auto. done.
Qed.

Lemma PX_half va : 0 <= va < MAXVA -> PX 2 va < 256.
Proof.
  intros Hva. rewrite PX_digit by lia. pages. change (512 ^ 2) with 262144.
  assert (va / 4096 < 2 ^ 26) by (Z.div_mod_to_equations; lia).
  assert (0 <= va / 4096) by (Z.div_mod_to_equations; lia).
  rewrite Z.mod_small; Z.div_mod_to_equations; lia.
Qed.

(** ** Control registers

    The registers of a hart that code reads with [csrr] and writes with
    [csrw], as one file. [sstatus] and the thread pointer, which the spin locks
    use, are in the state of [Spinlock]; the kernel's state has a file for the
    registers that traps use, and machine mode has one of its own. *)

Inductive csr : Type :=
| Cmhartid | Cmstatus | Cmepc | Csip | Csie | Cmie | Csepc | Cmedeleg | Cmideleg | Cstvec | Cmtvec
| Cpmpcfg0 | Cpmpaddr0 | Csatp | Csscratch | Cmscratch | Cscause | Cstval | Cmcounteren | Ctime.

#[global] Instance csr_eq_dec : EqDecision csr.
Proof. solve_decision. Defined.

Definition csrfile : Type := csr -> Z.

(** [asm volatile("csrr %0, r" : "=r" (x))] and [asm volatile("csrw r, %0" : : "r" (x))] *)
Definition csrr (r : csr) : M csrfile Z := gets (fun f => f r).
Definition csrw (r : csr) (x : Z) : M csrfile unit := modify (fun f => <[r := u64 x]> f).

Definition r_mhartid : M csrfile Z := csrr Cmhartid.

Definition r_mstatus : M csrfile Z := csrr Cmstatus.
Definition w_mstatus (x : Z) : M csrfile unit := csrw Cmstatus x.

Definition w_mepc (x : Z) : M csrfile unit := csrw Cmepc x.

Definition r_sip : M csrfile Z := csrr Csip.
Definition w_sip (x : Z) : M csrfile unit := csrw Csip x.

Definition r_sie : M csrfile Z := csrr Csie.
Definition w_sie (x : Z) : M csrfile unit := csrw Csie x.

Definition r_mie : M csrfile Z := csrr Cmie.
Definition w_mie (x : Z) : M csrfile unit := csrw Cmie x.

Definition w_sepc (x : Z) : M csrfile unit := csrw Csepc x.
Definition r_sepc : M csrfile Z := csrr Csepc.

Definition r_medeleg : M csrfile Z := csrr Cmedeleg.
Definition w_medeleg (x : Z) : M csrfile unit := csrw Cmedeleg x.

Definition r_mideleg : M csrfile Z := csrr Cmideleg.
Definition w_mideleg (x : Z) : M csrfile unit := csrw Cmideleg x.

Definition w_stvec (x : Z) : M csrfile unit := csrw Cstvec x.
Definition r_stvec : M csrfile Z := csrr Cstvec.

Definition w_mtvec (x : Z) : M csrfile unit := csrw Cmtvec x.

Definition w_pmpcfg0 (x : Z) : M csrfile unit := csrw Cpmpcfg0 x.
Definition w_pmpaddr0 (x : Z) : M csrfile unit := csrw Cpmpaddr0 x.

Definition w_satp (x : Z) : M csrfile unit := csrw Csatp x.
Definition r_satp : M csrfile Z := csrr Csatp.

Definition w_sscratch (x : Z) : M csrfile unit := csrw Csscratch x.
Definition w_mscratch (x : Z) : M csrfile unit := csrw Cmscratch x.

Definition r_scause : M csrfile Z := csrr Cscause.
Definition r_stval : M csrfile Z := csrr Cstval.

Definition w_mcounteren (x : Z) : M csrfile unit := csrw Cmcounteren x.
Definition r_mcounteren : M csrfile Z := csrr Cmcounteren.

Definition r_time : M csrfile Z := csrr Ctime.

(** ** Bits *)

Definition MSTATUS_MPP_MASK : Z := Z.shiftl 3 11.
Definition MSTATUS_MPP_M : Z := Z.shiftl 3 11.
Definition MSTATUS_MPP_S : Z := Z.shiftl 1 11.
Definition MSTATUS_MPP_U : Z := Z.shiftl 0 11.
Definition MSTATUS_MIE : Z := Z.shiftl 1 3.
Definition SSTATUS_UPIE : Z := Z.shiftl 1 4.
Definition SSTATUS_UIE : Z := Z.shiftl 1 0.
Definition SIE_SEIE : Z := Z.shiftl 1 9.
Definition SIE_STIE : Z := Z.shiftl 1 5.
Definition SIE_SSIE : Z := Z.shiftl 1 1.
Definition MIE_MEIE : Z := Z.shiftl 1 11.
Definition MIE_MTIE : Z := Z.shiftl 1 7.
Definition MIE_MSIE : Z := Z.shiftl 1 3.
