(* ===== verification/Str.v ===== *)
(** * Memory and strings

    Byte-addressed memory with little-endian words, and the routines of
    [src/kernel/string.c] on it. A [char *] that is only read is a function
    from the offset to the byte there, so that the same definitions apply to
    physical memory and to a buffer held by value. *)

From Stdlib Require Import FunctionalExtensionality.
From S2P Require Import Prelude.

(** ** Memory *)

(** The byte at each address. *)
Abbreviation memory := (Z -> Z).

(** The [k]-byte little-endian word at [a]. *)
Fixpoint ld (k : nat) (m : memory) (a : Z) : Z :=
  match k with
  | O => 0
  | S k' => m a + 256 * ld k' m (a + 1)
  end.

Fixpoint st (k : nat) (m : memory) (a v : Z) : memory :=
  match k with
  | O => m
  | S k' => st k' (<[a := v mod 256]> m) (a + 1) (v / 256)
  end.

Definition load64 (m : memory) (a : Z) : Z := ld 8 m a.
Definition store64 (m : memory) (a v : Z) : memory := st 8 m a v.

(** The [k] bytes from [a] on, and writing a list of bytes at [a]. *)
Fixpoint rd_bytes (m : memory) (a : Z) (k : nat) : list Z :=
  match k with
  | O => []
  | S k' => m a :: rd_bytes m (a + 1) k'
  end.

Fixpoint wr_bytes (m : memory) (a : Z) (bs : list Z) : memory :=
  match bs with
  | [] => m
  | b :: bs' => wr_bytes (<[a := b]> m) (a + 1) bs'
  end.

(** ** string.c *)

Fixpoint memset_loop (m : memory) (dst c : Z) (i : Z) (k : nat) : memory :=
  match k with
  | O => m
  | S k' => memset_loop (<[dst + i := u8 c]> m) dst c (i + 1) k'
  end.

Definition memset (m : memory) (dst c n : Z) : memory :=
  memset_loop m dst c 0 (Z.to_nat n).

Fixpoint memcmp_loop (s1 s2 : Z -> Z) (i : Z) (n : nat) : Z :=
  match n with
  | O => 0
  | S n' =>
      if negb (s1 i =? s2 i) then s1 i - s2 i
      else memcmp_loop s1 s2 (i + 1) n'
  end.

Definition memcmp (s1 s2 : Z -> Z) (n : Z) : Z := memcmp_loop s1 s2 0 (Z.to_nat n).

(** [while(n-- > 0) *--d = *--s;] *)
Fixpoint move_down (m : memory) (d s : Z) (n : nat) : memory :=
  match n with
  | O => m
  | S n' => move_down (<[d - 1 := m (s - 1)]> m) (d - 1) (s - 1) n'
  end.

(** [while(n-- > 0) *d++ = *s++;] *)
Fixpoint move_up (m : memory) (d s : Z) (n : nat) : memory :=
  match n with
  | O => m
  | S n' => move_up (<[d := m s]> m) (d + 1) (s + 1) n'
  end.

Definition memmove (m : memory) (dst src n : Z) : memory :=
  if n =? 0 then m
  else if (src <? dst) && (dst <? src + n)
  then move_down m (dst + n) (src + n) (Z.to_nat n)
  else move_up m dst src (Z.to_nat n).

Definition memcpy (m : memory) (dst src n : Z) : memory := memmove m dst src n.

Fixpoint strncmp_loop (p q : Z -> Z) (i : Z) (n : nat) : Z :=
  match n with
  | O => 0
  | S n' =>
      if negb (p i =? 0) && (p i =? q i) then strncmp_loop p q (i + 1) n'
      else u8 (p i) - u8 (q i)
  end.

Definition strncmp (p q : Z -> Z) (n : Z) : Z := strncmp_loop p q 0 (Z.to_nat n).

(** The two loops of [strncpy]: copy up to and including the NUL, then pad. *)
Fixpoint strncpy_pad (m : memory) (s : Z) (n : nat) : memory :=
  match n with
  | O => m
  | S n' => strncpy_pad (<[s := 0]> m) (s + 1) n'
  end.

Fixpoint strncpy_copy (m : memory) (s : Z) (t : Z -> Z) (i : Z) (n : nat) : memory :=
  match n with
  | O => m
  | S n' =>
      let m' := <[s + i := t i]> m in
      if t i =? 0 then strncpy_pad m' (s + i + 1) n'
      else strncpy_copy m' s t (i + 1) n'
  end.

Definition strncpy (m : memory) (s : Z) (t : Z -> Z) (n : Z) : memory :=
  strncpy_copy m s t 0 (Z.to_nat n).

(** [n] is the count left after the [--n] of the loop test. *)
Fixpoint safestrcpy_loop (m : memory) (s : Z) (t : Z -> Z) (i : Z) (n : nat) : memory :=
  match n with
  | O => <[s + i := 0]> m
  | S n' =>
      let m' := <[s + i := t i]> m in
      if t i =? 0 then <[s + i + 1 := 0]> m'
      else safestrcpy_loop m' s t (i + 1) n'
  end.

Definition safestrcpy (m : memory) (s : Z) (t : Z -> Z) (n : Z) : memory :=
  if n <=? 0 then m else safestrcpy_loop m s t 0 (Z.to_nat (n - 1)).

(** [strlen] runs until it finds a NUL: [None] when none is found within
    the bound. *)
Fixpoint strlen_loop (s : Z -> Z) (n : Z) (fuel : nat) : option Z :=
  match fuel with
  | O => None
  | S fuel' => if s n =? 0 then Some n else strlen_loop s (n + 1) fuel'
  end.

Definition strlen (fuel : nat) (s : Z -> Z) : option Z := strlen_loop s 0 fuel.

(** The string at [p + i], cut at [n] bytes: what the bounded routines see. *)
Fixpoint strn (p : Z -> Z) (i : Z) (n : nat) : list Z :=
  match n with
  | O => []
  | S n' => if p i =? 0 then [] else p i :: strn p (i + 1) n'
  end.

#[global] Arguments load64 : simpl never.
#[global] Arguments store64 : simpl never.
#[global] Arguments memset : simpl never.
#[global] Arguments memmove : simpl never.

(** ** Words in memory *)

Lemma ld_ext k m m' a :
  (forall x, a <= x < a + Z.of_nat k -> m x = m' x) -> ld k m a = ld k m' a.
Proof.
  revert a. induction k as [|k IH]; intros a Heq; simpl; [done|].
  rewrite (Heq a) by lia. rewrite (IH (a + 1)); [done|].
  intros x ?. apply Heq. lia.
Qed.

Lemma st_out k m a v x : x < a \/ a + Z.of_nat k <= x -> st k m a v x = m x.
Proof.
  revert m a v. induction k as [|k IH]; intros m a v Hx; simpl; [done|].
  rewrite IH by lia. apply fn_lookup_insert_ne. lia.
Qed.

Lemma ld_st k m a v : ld k (st k m a v) a = v mod 256 ^ Z.of_nat k.
Proof.
  revert m a v. induction k as [|k IH]; intros m a v.
  { by rewrite Z.mod_1_r. }
  cbn [ld st]. rewrite IH, st_out, fn_lookup_insert by lia.
  rewrite Nat2Z.inj_succ, Z.pow_succ_r by lia.
  rewrite Z.rem_mul_r; lia.
Qed.

Lemma load64_ext m m' a :
  (forall x, a <= x < a + 8 -> m x = m' x) -> load64 m a = load64 m' a.
Proof. intros. by apply ld_ext. Qed.

Lemma store64_out m a v x : x < a \/ a + 8 <= x -> store64 m a v x = m x.
Proof. intros. by apply st_out. Qed.

Lemma load64_store64 m a v : load64 (store64 m a v) a = u64 v.
Proof. unfold load64, store64. by rewrite ld_st. Qed.

Lemma load64_store64_ne m a b v :
  a + 8 <= b \/ b + 8 <= a -> load64 (store64 m a v) b = load64 m b.
Proof. intros. apply load64_ext. intros. apply store64_out. lia. Qed.

Lemma ld_zero k m a :
  (forall x, a <= x < a + Z.of_nat k -> m x = 0) -> ld k m a = 0.
Proof.
  revert a. induction k as [|k IH]; intros a H0; simpl; [done|].
  rewrite (H0 a), IH by (try lia; intros; apply H0; lia). done.
Qed.

Lemma load64_zero m a : (forall x, a <= x < a + 8 -> m x = 0) -> load64 m a = 0.
Proof. intros. by apply ld_zero. Qed.

(** ** Byte lists in memory *)

Lemma length_rd_bytes m a k : length (rd_bytes m a k) = k.
Proof. revert a. induction k; intros; simpl; auto. Qed.

Lemma rd_bytes_lookup m a k i :
  (i < k)%nat -> rd_bytes m a k !! i = Some (m (a + Z.of_nat i)).
Proof.
  revert a i. induction k as [|k IH]; intros a i Hi; [lia|].
  destruct i as [|i]; simpl; [by rewrite Z.add_0_r|].
  rewrite IH by lia. do 2 f_equal. lia.
Qed.

Lemma rd_bytes_ext m m' a b k :
  (forall i, 0 <= i < Z.of_nat k -> m (a + i) = m' (b + i)) ->
  rd_bytes m a k = rd_bytes m' b k.
Proof.
  revert a b. induction k as [|k IH]; intros a b Heq; simpl; [done|].
  pose proof (Heq 0 ltac:(lia)) as E. rewrite !Z.add_0_r in E. f_equal; [done|].
  apply IH. intros i Hi. specialize (Heq (1 + i) ltac:(lia)).
  by rewrite !Z.add_assoc in Heq.
Qed.

Lemma wr_bytes_spec bs : forall m a x,
  wr_bytes m a bs x =
    if decide (a <= x < a + Z.of_nat (length bs))
    then bs !!! Z.to_nat (x - a) else m x.
Proof.
  induction bs as [|b bs IH]; intros m a x; simpl.
  { rewrite decide_False by lia. done. }
  rewrite IH, fn_insert_spec. repeat case_decide; try lia.
  - replace (Z.to_nat (x - a)) with (S (Z.to_nat (x - (a + 1)))) by lia. done.
  - subst. by rewrite Z.sub_diag.
Qed.

(** ** The routines against their specifications *)

Lemma memset_loop_spec k : forall m dst c i x,
  memset_loop m dst c i k x =
    if decide (dst + i <= x < dst + i + Z.of_nat k) then u8 c else m x.
Proof.
  induction k as [|k IH]; intros m dst c i x; simpl.
  { by rewrite decide_False by lia. }
  rewrite IH, fn_insert_spec. by repeat case_decide; try lia.
Qed.

Lemma memset_spec m dst c n x :
  0 <= n -> memset m dst c n x = if decide (dst <= x < dst + n) then u8 c else m x.
Proof.
  intros. unfold memset. rewrite memset_loop_spec, Z.add_0_r, Z2Nat.id by done. done.
Qed.

Lemma move_up_spec k : forall m d s x,
  d <= s \/ s + Z.of_nat k <= d ->
  move_up m d s k x = if decide (d <= x < d + Z.of_nat k) then m (s + (x - d)) else m x.
Proof.
  induction k as [|k IH]; intros m d s x Hds; simpl.
  { by rewrite decide_False by lia. }
  rewrite IH by lia. rewrite !fn_insert_spec.
  repeat case_decide; try lia; subst; try done; f_equal; lia.
Qed.

Lemma move_down_spec k : forall m d s x,
  s <= d ->
  move_down m d s k x =
    if decide (d - Z.of_nat k <= x < d) then m (s + (x - d)) else m x.
Proof.
  induction k as [|k IH]; intros m d s x Hds; simpl.
  { by rewrite decide_False by lia. }
  rewrite IH by lia. rewrite !fn_insert_spec.
  repeat case_decide; try lia; subst; try done; f_equal; lia.
Qed.

Lemma memmove_byte m dst src n x :
  0 <= n ->
  memmove m dst src n x =
    if decide (dst <= x < dst + n) then m (src + (x - dst)) else m x.
Proof.
  intros Hn. unfold memmove. destruct (n =? 0) eqn:E0; zbool.
  { by rewrite decide_False by lia. }
  destruct (src <? dst) eqn:E1, (dst <? src + n) eqn:E2; zbool; simpl.
  1: rewrite move_down_spec, Z2Nat.id by lia.
  2-4: rewrite move_up_spec, Z2Nat.id by lia.
  all: repeat case_decide; try lia; try done; f_equal; lia.
Qed.

Lemma strn_ext p q i j n :
  (forall k, 0 <= k < Z.of_nat n -> p (i + k) = q (j + k)) -> strn p i n = strn q j n.
Proof.
  revert i j. induction n as [|n IH]; intros i j Heq; simpl; [done|].
  assert (p i = q j) as -> by (specialize (Heq 0); rewrite !Z.add_0_r in Heq; apply Heq; lia).
  rewrite (IH (i + 1) (j + 1)); [done|].
  intros k ?. rewrite <-!Z.add_assoc. apply Heq. lia.
Qed.

Lemma strncmp_loop_0 p q n : forall i,
  (forall k, 0 <= p k < 256) -> (forall k, 0 <= q k < 256) ->
  strncmp_loop p q i n = 0 <-> strn p i n = strn q i n.
Proof.
  induction n as [|n IH]; intros i Hp Hq; simpl; [done|].
  rewrite !u8_small by auto.
  destruct (p i =? 0) eqn:E; zbool; simpl.
  - destruct (q i =? 0) eqn:E'; zbool; split; try done; lia.
  - destruct (p i =? q i) eqn:E'; zbool.
    + rewrite <-E'. rewrite (proj2 (Z.eqb_neq _ _)) by done. rewrite IH by done.
      split; [by intros ->|by intros [= ->]].
    + split; [lia|]. destruct (q i =? 0); [done|]. intros [= ? _]. lia.
Qed.

Lemma strncpy_pad_spec n : forall m s x,
  strncpy_pad m s n x = if decide (s <= x < s + Z.of_nat n) then 0 else m x.
Proof.
  induction n as [|n IH]; intros m s x; simpl.
  { by rewrite decide_False by lia. }
  rewrite IH, fn_insert_spec. by repeat case_decide; try lia.
Qed.

(** Both copies leave every byte outside the destination alone. *)
Lemma strncpy_copy_out n : forall m s t i x,
  x < s + i \/ s + i + Z.of_nat n <= x -> strncpy_copy m s t i n x = m x.
Proof.
  induction n as [|n IH]; intros m s t i x Hx; simpl; [done|].
  destruct (t i =? 0).
  - rewrite strncpy_pad_spec, decide_False by lia. apply fn_lookup_insert_ne. lia.
  - rewrite IH by lia. apply fn_lookup_insert_ne. lia.
Qed.

Lemma strncpy_copy_spec n : forall m s t i x,
  s + i <= x < s + i + Z.of_nat n ->
  strncpy_copy m s t i n x =
    if decide (x - s - i < Z.of_nat (length (strn t i n))) then t (x - s) else 0.
Proof.
  induction n as [|n IH]; intros m s t i x Hx; simpl; [lia|].
  destruct (t i =? 0) eqn:E; zbool; simpl.
  - rewrite decide_False by lia. rewrite strncpy_pad_spec.
    case_decide; [done|]. replace x with (s + i) by lia. rewrite fn_lookup_insert. done.
  - destruct (decide (x = s + i)) as [->|].
    + rewrite strncpy_copy_out, fn_lookup_insert, decide_True by lia. f_equal. lia.
    + rewrite IH by lia. repeat case_decide; try lia; done.
Qed.

Lemma safestrcpy_loop_out n : forall m s t i x,
  x < s + i \/ s + i + Z.of_nat n < x -> safestrcpy_loop m s t i n x = m x.
Proof.
  induction n as [|n IH]; intros m s t i x Hx; simpl.
  { apply fn_lookup_insert_ne. lia. }
  destruct (t i =? 0).
  - rewrite !fn_lookup_insert_ne by lia. done.
  - rewrite IH by lia. apply fn_lookup_insert_ne. lia.
Qed.

Lemma safestrcpy_loop_strn n : forall m s t i,
  strn (safestrcpy_loop m s t i n) (s + i) (S n) = strn t i n.
Proof.
  induction n as [|n IH]; intros m s t i.
  { cbn [strn safestrcpy_loop]. by rewrite fn_lookup_insert. }
  cbn [safestrcpy_loop]. set (m' := <[s + i:=t i]> m).
  change (strn t i (S n)) with (if t i =? 0 then [] else t i :: strn t (i + 1) n).
  destruct (t i =? 0) eqn:E; zbool.
  - cbn [strn]. rewrite fn_lookup_insert_ne by lia. unfold m'.
    by rewrite fn_lookup_insert, E.
  - remember (safestrcpy_loop m' s t (i + 1) n) as r eqn:Hr.
    cbn [strn]. assert (r (s + i) = t i) as ->.
    { subst r. rewrite safestrcpy_loop_out by lia. apply fn_lookup_insert. }
    rewrite (proj2 (Z.eqb_neq _ _) E). f_equal. subst r.
    specialize (IH m' s t (i + 1)). rewrite Z.add_assoc in IH. exact IH.
Qed.

Lemma strlen_loop_spec fuel : forall s i k,
  strlen_loop s i fuel = Some k <->
  i <= k < i + Z.of_nat fuel /\ s k = 0 /\ forall j, i <= j < k -> s j <> 0.
Proof.
  induction fuel as [|fuel IH]; intros s i k; simpl.
  { split; [done|lia]. }
  destruct (s i =? 0) eqn:E; zbool.
  - split.
    + intros [= <-]. split; [lia|]. split; [done|lia].
    + intros (? & ? & Hj). destruct (decide (i = k)) as [->|]; [done|].
      exfalso. apply (Hj i); [lia|done].
  - rewrite IH. split; intros (? & ? & Hj).
    + split; [lia|]. split; [done|]. intros j ?.
      destruct (decide (j = i)) as [->|]; [done|]. apply Hj. lia.
    + destruct (decide (i = k)) as [->|]; [done|].
      split; [lia|]. split; [done|]. intros j ?. apply Hj. lia.
Qed.

(** ** Properties *)

(** [memmove] moves [n] bytes exactly, whether or not the two ranges
    overlap and in whichever direction: afterwards the destination holds what
    the source held before the call, and no other byte has changed. *)
Theorem memmove_correct m dst src n :
  0 <= n ->
  rd_bytes (memmove m dst src n) dst (Z.to_nat n) = rd_bytes m src (Z.to_nat n) /\
  forall x, x < dst \/ dst + n <= x -> memmove m dst src n x = m x.
Proof.
  intros Hn. split.
  - apply rd_bytes_ext. intros i Hi. rewrite memmove_byte by done.
    rewrite decide_True by lia. f_equal. lia.
  - intros x Hx. rewrite memmove_byte by done. by rewrite decide_False by lia.
Qed.

Lemma memmove_correct_witness :
  rd_bytes (memmove (fun x => x) 102 100 5) 102 5 = [100; 101; 102; 103; 104].
Proof. apply (memmove_correct (fun x => x) 102 100 5). lia. Defined.

(** [safestrcpy] copies the string cut at [n - 1] characters, always
    leaves the destination NUL-terminated within its [n] bytes, and writes
    nothing outside them. *)
Theorem safestrcpy_correct m s t n :
  0 < n ->
  strn (safestrcpy m s t n) s (Z.to_nat n) = strn t 0 (Z.to_nat (n - 1)) /\
  forall x, x < s \/ s + n <= x -> safestrcpy m s t n x = m x.
Proof.
  intros Hn. unfold safestrcpy. rewrite (proj2 (Z.leb_gt n 0)) by lia. split.
  - pose proof (safestrcpy_loop_strn (Z.to_nat (n - 1)) m s t 0) as Hs.
    rewrite Z.add_0_r in Hs. by replace (Z.to_nat n) with (S (Z.to_nat (n - 1))) by lia.
  - intros x Hx. apply safestrcpy_loop_out. lia.
Qed.

Lemma safestrcpy_correct_witness :
  strn (safestrcpy (fun _ => 9) 50 (fun i => 65 + i) 4) 50 4 = [65; 66; 67].
Proof. apply (safestrcpy_correct (fun _ => 9) 50 (fun i => 65 + i) 4). lia. Defined.

(** [strncmp] is 0 exactly when the two strings, cut at [n] characters,
    are equal; this is how directory names are compared. *)
Theorem strncmp_correct p q n :
  (forall k, 0 <= p k < 256) -> (forall k, 0 <= q k < 256) ->
  strncmp p q n = 0 <-> strn p 0 (Z.to_nat n) = strn q 0 (Z.to_nat n).
Proof. intros. by apply strncmp_loop_0. Qed.

Lemma strncmp_correct_witness :
  strncmp (fun k => if k <? 3 then 97 else 0) (fun k => if k <? 3 then 97 else if k =? 3 then 0 else 5) 14 = 0.
Proof.
  apply (strncmp_correct (fun k => if k <? 3 then 97 else 0)
    (fun k => if k <? 3 then 97 else if k =? 3 then 0 else 5) 14).
  - intros k. destruct (k <? 3); lia.
  - intros k. destruct (k <? 3), (k =? 3); lia.
  - reflexivity.
Defined.
