(* ===== verification/Spinlock.v ===== *)
(** * Spin locks

    [src/kernel/spinlock.c] on the state of one hart (its [sstatus], the
    per-CPU [noff] and [intena], the lock words), the interface [Spin] the
    other components are verified against, the proof that the code implements
    it, and a step relation in which several harts run [acquire] and
    [release] interleaved instruction by instruction. *)

From S2P Require Import Prelude Riscv.

(** ** Data *)

(** [struct spinlock] *)
Record spinlock := mkSpin {
  locked : Z;
  lname : string;
  lcpu : option Z   (* index in cpus[], [None] for the null pointer *)
}.

(** The part of [struct cpu] that concerns locks. *)
Record cpu := mkCpu {
  noff : Z;
  intena : Z
}.

Record machine := mkMachine {
  tp : Z;                   (* this hart's id *)
  sstatus : Z;
  cpus : Z -> cpu;
  locks : lockid -> spinlock
}.

Definition set_sstatus (x : Z) (h : machine) : machine :=
  mkMachine (tp h) x (cpus h) (locks h).
Definition set_cpu (c : cpu) (h : machine) : machine :=
  mkMachine (tp h) (sstatus h) (<[tp h := c]> (cpus h)) (locks h).
Definition set_lock (lk : lockid) (v : spinlock) (h : machine) : machine :=
  mkMachine (tp h) (sstatus h) (cpus h) (<[lk := v]> (locks h)).

(** ** Code *)

(** riscv.h: [sstatus], the thread pointer, [intr_on], [intr_off], [intr_get] *)
Definition r_sstatus : M machine Z := gets sstatus.
Definition w_sstatus (x : Z) : M machine unit := modify (set_sstatus x).
Definition r_tp : M machine Z := gets tp.
Definition intr_on : M machine unit :=
  modify (fun h => set_sstatus (Z.lor (sstatus h) SSTATUS_SIE) h).
Definition intr_off : M machine unit :=
  modify (fun h => set_sstatus (Z.land (sstatus h) (Z.lnot SSTATUS_SIE)) h).
Definition intr_get : M machine bool :=
  gets (fun h => has (sstatus h) SSTATUS_SIE).

(** proc.c: [cpuid], [mycpu] *)
Definition cpuid : M machine Z := r_tp.
Definition mycpu : M machine cpu := gets (fun h => cpus h (tp h)).

Definition initlock (lk : lockid) (name : string) : M machine unit :=
  modify (set_lock lk (mkSpin 0 name None)).

Definition holding (lk : lockid) : M machine bool :=
  id ← cpuid;
  l ← gets (fun h => locks h lk);
  mret (negb (locked l =? 0) && bool_decide (lcpu l = Some id)).

Definition push_off : M machine unit :=
  old ← intr_get;
  intr_off;;
  c ← mycpu;
  when (noff c =? 0) (modify (set_cpu (mkCpu (noff c) (Z.b2z old))));;
  c ← mycpu;
  modify (set_cpu (mkCpu (noff c + 1) (intena c))).

Definition pop_off : M machine unit :=
  i ← intr_get;
  if (i : bool) then panic "pop_off - interruptible" else
  c ← mycpu;
  if noff c <? 1 then panic "pop_off" else
  modify (set_cpu (mkCpu (noff c - 1) (intena c)));;
  c ← mycpu;
  when ((noff c =? 0) && negb (intena c =? 0)) intr_on.

(** [__sync_lock_test_and_set(&lk->locked, 1)]: one atomic swap. *)
Definition test_and_set (lk : lockid) : M machine Z :=
  l ← gets (fun h => locks h lk);
  modify (set_lock lk (mkSpin 1 (lname l) (lcpu l)));;
  mret (locked l).

(** [acquire]: disable interrupts and check, spin, record the owner. *)
Definition acq_enter (lk : lockid) : M machine unit :=
  push_off;;
  b ← holding lk;
  if (b : bool) then panic "acquire" else mret tt.

Definition acq_own (lk : lockid) : M machine unit :=
  id ← cpuid;
  l ← gets (fun h => locks h lk);
  modify (set_lock lk (mkSpin (locked l) (lname l) (Some id))).

Definition acquire_ (lk : lockid) : M machine unit :=
  acq_enter lk;;
  loop (fun _ : unit =>
    old ← test_and_set lk;
    mret (if old =? 0 then Done tt else Next tt)) tt;;
  acq_own lk.

(** [release]: check and forget the owner, clear the lock word with one
    atomic store, undo [push_off]. *)
Definition rel_enter (lk : lockid) : M machine unit :=
  b ← holding lk;
  if negb b then panic "release" else
  l ← gets (fun h => locks h lk);
  modify (set_lock lk (mkSpin (locked l) (lname l) None)).

Definition rel_unlock (lk : lockid) : M machine unit :=
  l ← gets (fun h => locks h lk);
  modify (set_lock lk (mkSpin 0 (lname l) (lcpu l))).

Definition release_ (lk : lockid) : M machine unit :=
  rel_enter lk;;
  rel_unlock lk;;
  pop_off.

(** ** What spin locks promise on one hart

    [hrep h l]: the hart holds exactly the locks [l] and no other hart holds
    one. Acquiring a lock already held and releasing one that is not are
    panics. *)

Class Spin (H : Type) := {
  init_lock : lockid -> string -> M H unit;
  acquire : lockid -> M H unit;
  release : lockid -> M H unit;
  hold : lockid -> H -> bool;
  depth : H -> Z;
  hrep : H -> list lockid -> Prop;
  init_lock_ok : forall lk name n h l, hrep h l -> lk ∉ l ->
    exists h', init_lock lk name n h = Ret tt h' /\ hrep h' l;
  acquire_ok : forall lk n h l, (0 < n)%nat -> hrep h l -> lk ∉ l ->
    exists h', acquire lk n h = Ret tt h' /\ hrep h' (lk :: l);
  acquire_again : forall lk n h l, hrep h l -> lk ∈ l ->
    exists h', acquire lk n h = Panic "acquire" h';
  release_ok : forall lk n h l, hrep h l -> lk ∈ l ->
    exists h' l', release lk n h = Ret tt h' /\ hrep h' l' /\ l ≡ₚ lk :: l';
  release_free : forall lk n h l, hrep h l -> lk ∉ l ->
    exists h', release lk n h = Panic "release" h';
  hrep_perm : forall h l l', l ≡ₚ l' -> hrep h l -> hrep h l';
  hold_iff : forall lk h l, hrep h l -> hold lk h = bool_decide (lk ∈ l);
  depth_eq : forall h l, hrep h l -> depth h = Z.of_nat (length l)
}.

Section spin_rules.
Context `{Spin H}.

Lemma wp_init_lock lk name n h l Q :
  hrep h l -> lk ∉ l -> (forall h', hrep h' l -> Q tt h') -> wp (init_lock lk name) n h Q.
Proof.
  intros Hr Hl HQ. destruct (init_lock_ok lk name n h l Hr Hl) as (h' & E & ?).
  unfold wp. rewrite E. auto.
Qed.

Lemma wp_acquire lk n h l Q :
  (0 < n)%nat -> hrep h l -> lk ∉ l ->
  (forall h', hrep h' (lk :: l) -> Q tt h') -> wp (acquire lk) n h Q.
Proof.
  intros Hn Hr Hl HQ. destruct (acquire_ok lk n h l Hn Hr Hl) as (h' & E & ?).
  unfold wp. rewrite E. auto.
Qed.

Lemma wp_release lk n h l Q :
  hrep h (lk :: l) ->
  (forall h', hrep h' l -> Q tt h') -> wp (release lk) n h Q.
Proof.
  intros Hr HQ. destruct (release_ok lk n h (lk :: l) Hr) as (h' & l' & E & Hr' & Hp).
  { apply elem_of_cons. by left. }
  unfold wp. rewrite E. apply HQ. eapply hrep_perm; [|done].
  by apply Permutation_cons_inv in Hp.
Qed.

End spin_rules.

(** ** The code implements the interface *)

Record mrep (h : machine) (l : list lockid) : Prop := {
  mrep_nodup : NoDup l;
  mrep_locked : forall lk, locked (locks h lk) = if decide (lk ∈ l) then 1 else 0;
  mrep_cpu : forall lk, lcpu (locks h lk) = if decide (lk ∈ l) then Some (tp h) else None;
  mrep_noff : noff (cpus h (tp h)) = Z.of_nat (length l);
  mrep_off : l <> [] -> has (sstatus h) SSTATUS_SIE = false
}.

Lemma elem_of_cons_ne (x y : lockid) l : x <> y -> y ∈ x :: l <-> y ∈ l.
Proof. intros Hne. rewrite elem_of_cons. split; [by intros [->|]|by right]. Qed.

Lemma decide_cons_ne {A} (x y : lockid) l (a b : A) :
  x <> y -> (if decide (y ∈ x :: l) then a else b) = if decide (y ∈ l) then a else b.
Proof.
  intros Hne. apply decide_ext. by apply elem_of_cons_ne.
Qed.

Lemma SIE_testbit x : has x SSTATUS_SIE = Z.testbit x 1.
Proof. by apply has_testbit. Qed.

Lemma SIE_off x : has (Z.land x (Z.lnot SSTATUS_SIE)) SSTATUS_SIE = false.
Proof.
  rewrite SIE_testbit, Z.land_spec, Z.lnot_spec by done. apply andb_false_r.
Qed.

Lemma SIE_on x : has (Z.lor x SSTATUS_SIE) SSTATUS_SIE = true.
Proof. rewrite SIE_testbit, Z.lor_spec. apply orb_true_r. Qed.

(** [push_off] turns interrupts off, counts one more level, and at the first
    level remembers how they were. *)
Lemma push_off_eq n h :
  push_off n h =
    Ret tt (mkMachine (tp h) (Z.land (sstatus h) (Z.lnot SSTATUS_SIE))
      (<[tp h := mkCpu (noff (cpus h (tp h)) + 1)
          (if noff (cpus h (tp h)) =? 0
           then Z.b2z (has (sstatus h) SSTATUS_SIE)
           else intena (cpus h (tp h)))]> (cpus h)) (locks h)).
Proof.
  destruct h as [t ss cs ls]. unfold push_off, intr_get, intr_off, mycpu, when. munfold. simpl.
  destruct (noff (cs t) =? 0) eqn:E; simpl; [|done].
  unfold set_cpu; simpl. by rewrite fn_lookup_insert, fn_insert_insert.
Qed.

(** [pop_off] undoes one level, and at the last one turns interrupts back on
    when they were on. *)
Lemma pop_off_eq n h :
  has (sstatus h) SSTATUS_SIE = false -> 1 <= noff (cpus h (tp h)) ->
  pop_off n h =
    Ret tt (mkMachine (tp h)
      (if (noff (cpus h (tp h)) - 1 =? 0) && negb (intena (cpus h (tp h)) =? 0)
       then Z.lor (sstatus h) SSTATUS_SIE else sstatus h)
      (<[tp h := mkCpu (noff (cpus h (tp h)) - 1) (intena (cpus h (tp h)))]> (cpus h))
      (locks h)).
Proof.
  destruct h as [t ss cs ls]. simpl. intros Hs Hn.
  unfold pop_off, intr_get, intr_on, mycpu, when. munfold. simpl. rewrite Hs. simpl.
  destruct (Z.ltb_spec (noff (cs t)) 1); [lia|]. simpl. rewrite fn_lookup_insert. simpl.
  by destruct (_ && _).
Qed.

Lemma acquire_mrep lk n h l :
  (0 < n)%nat -> mrep h l -> lk ∉ l ->
  exists h', acquire_ lk n h = Ret tt h' /\ mrep h' (lk :: l) /\ tp h' = tp h.
Proof.
  intros Hn [Hnd Hlk Hcp Hno Hoff] Hl.
  unfold acquire_, acq_enter, acq_own, holding, test_and_set, cpuid. munfold. rewrite push_off_eq. simpl.
  rewrite Hlk, decide_False by done. simpl.
  destruct n as [|n]; [lia|]. unfold loop. simpl.
  rewrite Hlk, decide_False by done. simpl. rewrite fn_lookup_insert. simpl.
  eexists. split; [done|]. split; [|done]. unfold set_lock; simpl. rewrite fn_insert_insert.
  split; simpl.
  - by constructor.
  - intros lk'. rewrite fn_insert_spec. destruct (decide (lk = lk')) as [->|].
    + by rewrite decide_True by by left.
    + by rewrite Hlk, decide_cons_ne.
  - intros lk'. rewrite fn_insert_spec. destruct (decide (lk = lk')) as [->|].
    + by rewrite decide_True by by left.
    + by rewrite Hcp, decide_cons_ne.
  - rewrite fn_lookup_insert. simpl. lia.
  - intros _. apply SIE_off.
Qed.

Lemma acquire_again_mrep lk n h l :
  mrep h l -> lk ∈ l -> exists h', acquire_ lk n h = Panic "acquire" h'.
Proof.
  intros [_ Hlk Hcp _ _] Hl. unfold acquire_, acq_enter, holding, cpuid. munfold.
  rewrite push_off_eq. simpl. rewrite Hlk, Hcp, !decide_True by done. simpl.
  rewrite bool_decide_true by done. eauto.
Qed.

Lemma holding_mrep lk n h l :
  mrep h l -> holding lk n h = Ret (bool_decide (lk ∈ l)) h.
Proof.
  intros [_ Hlk Hcp _ _]. unfold holding, cpuid. munfold. simpl.
  rewrite Hlk, Hcp. case_decide; simpl.
  - by rewrite !bool_decide_true.
  - by rewrite bool_decide_false.
Qed.

Lemma release_mrep lk n h l :
  mrep h (lk :: l) -> exists h', release_ lk n h = Ret tt h' /\ mrep h' l /\ tp h' = tp h.
Proof.
  intros Hr. pose proof (holding_mrep lk n h _ Hr) as Hh.
  destruct Hr as [Hnd Hlk Hcp Hno Hoff]. apply NoDup_cons in Hnd as [Hl Hnd].
  unfold release_, rel_enter, rel_unlock. munfold. rewrite Hh. rewrite bool_decide_true by by left.
  simpl. rewrite fn_lookup_insert. unfold set_lock at 1. simpl.
  rewrite fn_insert_insert. simpl in Hno.
  rewrite pop_off_eq; simpl; [|by apply Hoff|rewrite Hno; lia].
  eexists. split; [done|]. split; [|done]. split; simpl; [done| | | |].
  - intros lk'. rewrite fn_insert_spec. destruct (decide (lk = lk')) as [<-|].
    + by rewrite decide_False.
    + by rewrite Hlk, decide_cons_ne.
  - intros lk'. rewrite fn_insert_spec. destruct (decide (lk = lk')) as [<-|].
    + by rewrite decide_False.
    + by rewrite Hcp, decide_cons_ne.
  - rewrite fn_lookup_insert. simpl. lia.
  - intros Hne. rewrite Hno. destruct l; [done|]. simpl length.
    rewrite (proj2 (Z.eqb_neq _ _)) by lia. simpl. by apply Hoff.
Qed.

Lemma release_free_mrep lk n h l :
  mrep h l -> lk ∉ l -> exists h', release_ lk n h = Panic "release" h'.
Proof.
  intros Hr Hl. unfold release_, rel_enter, rel_unlock. munfold. rewrite (holding_mrep _ _ _ _ Hr).
  rewrite bool_decide_false by done. simpl. eauto.
Qed.

Lemma mrep_perm h l l' : l ≡ₚ l' -> mrep h l -> mrep h l'.
Proof.
  intros Hp [Hnd Hlk Hcp Hno Hoff]. split.
  - by rewrite <-Hp.
  - intros lk. rewrite Hlk. apply decide_ext. by rewrite Hp.
  - intros lk. rewrite Hcp. apply decide_ext. by rewrite Hp.
  - rewrite Hno. by rewrite Hp.
  - intros Hne. apply Hoff. intros ->. by apply Permutation_nil_l in Hp.
Qed.

Lemma initlock_mrep lk name n h l :
  mrep h l -> lk ∉ l -> exists h', initlock lk name n h = Ret tt h' /\ mrep h' l /\ tp h' = tp h.
Proof.
  intros [Hnd Hlk Hcp Hno Hoff] Hl. unfold initlock. munfold. eexists. split; [done|]. split; [|done].
  split; simpl; try done; intros lk'; rewrite fn_insert_spec;
    destruct (decide (lk = lk')) as [<-|]; try done; by rewrite decide_False.
Qed.

Definition holdb (lk : lockid) (h : machine) : bool :=
  negb (locked (locks h lk) =? 0) && bool_decide (lcpu (locks h lk) = Some (tp h)).

#[global] Program Instance machine_spin : Spin machine := {|
  init_lock := initlock;
  acquire := acquire_;
  release := release_;
  hold := holdb;
  depth := fun h => noff (cpus h (tp h));
  hrep := mrep
|}.
Next Obligation.
  intros lk name n h l Hr Hl. destruct (initlock_mrep lk name n h l Hr Hl) as (h' & ? & ? & _). eauto.
Qed.
Next Obligation.
  intros lk n h l Hn Hr Hl. destruct (acquire_mrep lk n h l Hn Hr Hl) as (h' & ? & ? & _). eauto.
Qed.
Next Obligation. intros. by eapply acquire_again_mrep. Qed.
Next Obligation.
  intros lk n h l Hr Hl.
  assert (exists l', l ≡ₚ lk :: l') as [l' Hp].
  { apply elem_of_Permutation in Hl as [k ?]. eauto. }
  destruct (release_mrep lk n h l') as (h' & ? & ? & _); [by eapply mrep_perm|].
  eauto.
Qed.
Next Obligation. intros. by eapply release_free_mrep. Qed.
Next Obligation. intros. by eapply mrep_perm. Qed.
Next Obligation.
  intros lk h l Hr. pose proof (holding_mrep lk 0 h l Hr) as Hh.
  unfold holding, cpuid in Hh. munfold. by injection Hh.
Qed.
Next Obligation. intros h l Hr. apply Hr. Qed.

(** A [pop_off] undoes a [push_off] done at the same depth. *)
Lemma push_pop_mrep n h l :
  mrep h l ->
  exists h1 h2, push_off n h = Ret tt h1 /\ pop_off n h1 = Ret tt h2 /\
    tp h1 = tp h /\ tp h2 = tp h /\ mrep h2 l.
Proof.
  intros [Hnd Hlk Hcp Hno Hoff]. rewrite push_off_eq. eexists _, _. split; [done|].
  rewrite pop_off_eq; simpl.
  2: apply SIE_off.
  2: rewrite fn_lookup_insert; simpl; lia.
  rewrite !fn_lookup_insert. simpl. rewrite fn_insert_insert, Hno.
  split; [done|]. do 2 (split; [done|]).
  split; simpl; [done|done|done| |]; rewrite ?fn_lookup_insert; simpl; [lia|].
  intros Hne. destruct l as [|lk' l]; [done|].
  rewrite (proj2 (Z.eqb_neq _ _)) by (simpl; lia). simpl. apply SIE_off.
Qed.

(** ** Nesting of push_off and pop_off *)

Fixpoint rep (k : nat) (m : M machine unit) : M machine unit :=
  match k with
  | O => mret tt
  | S k' => m;; rep k' m
  end.

(** After a [push_off] from level [c], with interrupts on or off as [b] at
    level 0, the hart is [k] levels deeper with interrupts off. *)
Record deep (b : bool) (k : nat) (h h' : machine) : Prop := {
  dp_tp : tp h' = tp h;
  dp_noff : noff (cpus h' (tp h)) = Z.of_nat k;
  dp_ena : (0 < k)%nat -> intena (cpus h' (tp h)) = Z.b2z b /\ has (sstatus h') SSTATUS_SIE = false;
  dp_same : (0 < k)%nat \/ has (sstatus h') SSTATUS_SIE = b
}.

Lemma push_off_deep b k n h h' :
  deep b k h h' -> wp push_off n h' (fun _ h'' => deep b (S k) h h'').
Proof.
  intros [Ht Hn He Hs]. unfold wp. rewrite push_off_eq. rewrite Ht, Hn.
  split; simpl; try done; rewrite ?fn_lookup_insert; simpl; [lia| |left; lia].
  intros _. split; [|apply SIE_off].
  destruct k; simpl; [|by apply He; lia].
  destruct Hs as [?|<-]; [lia|done].
Qed.

Lemma pop_off_deep b k n h h' :
  deep b (S k) h h' -> wp pop_off n h' (fun _ h'' => deep b k h h'').
Proof.
  intros [Ht Hn He Hs]. destruct He as [He1 He2]; [lia|]. unfold wp.
  rewrite pop_off_eq; rewrite ?Ht, ?Hn, ?He1; [|done|lia].
  split; simpl; try done; rewrite ?fn_lookup_insert; simpl.
  - lia.
  - intros ?. split; [done|]. by rewrite (proj2 (Z.eqb_neq _ _)) by lia.
  - destruct k; [right|left; lia]. destruct b; simpl; [apply SIE_on|done].
Qed.

Lemma push_off_rep b n h k : forall j h',
  deep b j h h' -> wp (rep k push_off) n h' (fun _ h'' => deep b (k + j) h h'').
Proof.
  induction k as [|k IH]; intros j h' Hd; simpl; [done|].
  apply wp_bind. eapply wp_mono; [by apply push_off_deep|]. intros [] h1 H1.
  eapply wp_mono; [by apply IH|]. simpl. intros _ h2. by rewrite Nat.add_succ_r.
Qed.

Lemma pop_off_rep b n h k : forall h',
  deep b k h h' -> wp (rep k pop_off) n h' (fun _ h'' => deep b 0 h h'').
Proof.
  induction k as [|k IH]; intros h' Hd; simpl; [done|].
  apply wp_bind. eapply wp_mono; [by apply pop_off_deep|]. intros [] h1 H1. by apply IH.
Qed.

(** [push_off] and [pop_off] are matched: after any number [k] of
    [push_off]s interrupts are off, [k] [pop_off]s undo them without a panic,
    and interrupts are then enabled exactly when they were before. *)
Theorem push_pop_matched k n h :
  noff (cpus h (tp h)) = 0 ->
  exists h1 h2, rep k push_off n h = Ret tt h1 /\ rep k pop_off n h1 = Ret tt h2 /\
    ((0 < k)%nat -> has (sstatus h1) SSTATUS_SIE = false) /\
    has (sstatus h2) SSTATUS_SIE = has (sstatus h) SSTATUS_SIE /\
    noff (cpus h2 (tp h2)) = 0.
Proof.
  intros H0.
  assert (deep (has (sstatus h) SSTATUS_SIE) 0 h h) as Hd by (split; [done|done|lia|by right]).
  destruct (wp_elim _ _ _ _ (push_off_rep _ n h k 0 h Hd)) as ([] & h1 & E1 & D1).
  rewrite Nat.add_0_r in D1.
  destruct (wp_elim _ _ _ _ (pop_off_rep _ n h k h1 D1)) as ([] & h2 & E2 & D2).
  exists h1, h2. do 2 (split; [done|]). split; [by intros ?; apply D1|].
  destruct D2 as [Ht Hn _ [?|Hs]]; [lia|]. by rewrite Ht.
Qed.

(** A hart that holds no lock and has interrupts enabled. *)
Definition idle_hart : machine :=
  mkMachine 0 SSTATUS_SIE (fun _ => mkCpu 0 0) (fun _ => mkSpin 0 "" None).

Lemma idle_hart_mrep : mrep idle_hart [].
Proof.
  split; try done; [constructor|intros lk; by rewrite decide_False by apply not_elem_of_nil..].
Qed.

Lemma push_pop_matched_witness :
  exists h1 h2, rep 3 push_off 0%nat idle_hart = Ret tt h1 /\ rep 3 pop_off 0%nat h1 = Ret tt h2 /\
    ((0 < 3)%nat -> has (sstatus h1) SSTATUS_SIE = false) /\
    has (sstatus h2) SSTATUS_SIE = has (sstatus idle_hart) SSTATUS_SIE /\
    noff (cpus h2 (tp h2)) = 0.
Proof. apply (push_pop_matched 3 0 idle_hart). reflexivity. Defined.

(** ** Several harts

    Each hart runs [acquire] and [release] one shared-memory access at a
    time; the harts' steps interleave in any order. [crit] records, for each
    hart, the locks whose [acquire] has returned and whose [release] has not
    begun: the critical sections the hart is in. *)

Module Harts.

Inductive pc : Type :=
| Run               (* outside acquire and release *)
| Spinning (lk : lockid)  (* in acquire, at the test-and-set *)
| Own (lk : lockid)     (* the swap returned 0, lk->cpu not yet set *)
| Unlock (lk : lockid)  (* in release, lk->cpu cleared, lk->locked not yet *)
| Pop.              (* in release, at pop_off *)

Record sys := mkSys {
  slocks : lockid -> spinlock;
  scpus : Z -> cpu;
  sst : Z -> Z;                 (* sstatus of each hart *)
  spc : Z -> pc;
  crit : Z -> list lockid
}.

(** The machine as hart [i] sees it, and the system after hart [i] changed
    what it sees and moved to [p] with critical sections [l]. *)
Definition view (s : sys) (i : Z) : machine :=
  mkMachine i (sst s i) (scpus s) (slocks s).
Definition upd (s : sys) (i : Z) (h : machine) (p : pc) (l : list lockid) : sys :=
  mkSys (locks h) (cpus h) (<[i := sstatus h]> (sst s)) (<[i := p]> (spc s))
    (<[i := l]> (crit s)).

Inductive step (s : sys) : sys -> Prop :=
| step_acq i lk h n :
    spc s i = Run -> acq_enter lk n (view s i) = Ret tt h ->
    step s (upd s i h (Spinning lk) (crit s i))
| step_spin i lk h old n :
    spc s i = Spinning lk -> test_and_set lk n (view s i) = Ret old h ->
    step s (upd s i h (if old =? 0 then Own lk else Spinning lk) (crit s i))
| step_own i lk h n :
    spc s i = Own lk -> acq_own lk n (view s i) = Ret tt h ->
    step s (upd s i h Run (lk :: crit s i))
| step_rel i lk h n l :
    spc s i = Run -> rel_enter lk n (view s i) = Ret tt h ->
    crit s i ≡ₚ lk :: l ->
    step s (upd s i h (Unlock lk) l)
| step_unlock i lk h n :
    spc s i = Unlock lk -> rel_unlock lk n (view s i) = Ret tt h ->
    step s (upd s i h Pop (crit s i))
| step_pop i h n :
    spc s i = Pop -> pop_off n (view s i) = Ret tt h ->
    step s (upd s i h Run (crit s i))
| step_intr_on i h n :
    (* the scheduler loop and usertrap() enable interrupts, with no lock *)
    spc s i = Run -> crit s i = [] -> intr_on n (view s i) = Ret tt h ->
    step s (upd s i h Run []).

(** After [initlock] on every lock, with no [push_off] outstanding. *)
Definition boot (s : sys) : Prop :=
  (forall lk, locked (slocks s lk) = 0 /\ lcpu (slocks s lk) = None) /\
  (forall i, noff (scpus s i) = 0 /\ spc s i = Run /\ crit s i = []).

Definition busy (s : sys) (lk : lockid) (i : Z) : Prop :=
  spc s i = Own lk \/ spc s i = Unlock lk.

Record lock_inv (s : sys) (lk : lockid) : Prop := {
  li_crit : forall i, lk ∈ crit s i <-> lcpu (slocks s lk) = Some i;
  li_busy : forall i j, busy s lk i -> busy s lk j -> i = j;
  li_none : forall i, busy s lk i -> lcpu (slocks s lk) = None;
  li_free : locked (slocks s lk) = 0 ->
    lcpu (slocks s lk) = None /\ forall i, ~ busy s lk i
}.

Record hart_inv (s : sys) (i : Z) : Prop := {
  hi_nodup : NoDup (crit s i);
  hi_noff : noff (scpus s i) =
    Z.of_nat (length (crit s i)) + match spc s i with Run => 0 | _ => 1 end;
  hi_off : 0 < noff (scpus s i) -> has (sst s i) SSTATUS_SIE = false
}.

Definition inv (s : sys) : Prop := (forall lk, lock_inv s lk) /\ (forall i, hart_inv s i).

Lemma boot_inv s : boot s -> inv s.
Proof.
  intros [Hl Hh]. split.
  - intros lk. destruct (Hl lk) as [? Hc]. split.
    + intros i. destruct (Hh i) as (_ & _ & ->). rewrite Hc. split; [|done].
      by intros ?%elem_of_nil.
    + intros i j [E|E]; destruct (Hh i) as (_ & ? & _); congruence.
    + done.
    + intros _. split; [done|]. intros i [E|E]; destruct (Hh i) as (_ & ? & _); congruence.
  - intros i. destruct (Hh i) as (Hn & Hp & Hc). split.
    + rewrite Hc. constructor.
    + by rewrite Hn, Hc, Hp.
    + lia.
Qed.

(** What each step changes. *)
Lemma acq_enter_Ret lk n h h' :
  acq_enter lk n h = Ret tt h' ->
  locks h' = locks h /\ sstatus h' = Z.land (sstatus h) (Z.lnot SSTATUS_SIE) /\
  exists e, cpus h' = <[tp h := mkCpu (noff (cpus h (tp h)) + 1) e]> (cpus h).
Proof.
  unfold acq_enter, holding, cpuid. munfold. rewrite push_off_eq. simpl.
  case_match; [done|]. intros [= <-]. eauto.
Qed.

Lemma rel_enter_Ret lk n h h' :
  rel_enter lk n h = Ret tt h' ->
  locked (locks h lk) <> 0 /\ lcpu (locks h lk) = Some (tp h) /\
  h' = set_lock lk (mkSpin (locked (locks h lk)) (lname (locks h lk)) None) h.
Proof.
  unfold rel_enter, holding, cpuid. munfold. simpl.
  case_match eqn:E; [done|]. intros [= <-].
  zbool. split; [done|]. split; [|done]. by eapply bool_decide_eq_true_1.
Qed.

Lemma pop_off_Ret n h h' :
  pop_off n h = Ret tt h' ->
  locks h' = locks h /\ has (sstatus h) SSTATUS_SIE = false /\ 1 <= noff (cpus h (tp h)) /\
  cpus h' = <[tp h := mkCpu (noff (cpus h (tp h)) - 1) (intena (cpus h (tp h)))]> (cpus h) /\
  (1 < noff (cpus h (tp h)) -> sstatus h' = sstatus h).
Proof.
  intros E. destruct (has (sstatus h) SSTATUS_SIE) eqn:Hs.
  { unfold pop_off, intr_get in E. munfold. simpl in E. by rewrite Hs in E. }
  destruct (Z.ltb_spec (noff (cpus h (tp h))) 1) as [Hn|Hn].
  { unfold pop_off, intr_get, mycpu in E. munfold. simpl in E. rewrite Hs in E.
    simpl in E. by rewrite (proj2 (Z.ltb_lt _ _) Hn) in E. }
  rewrite pop_off_eq in E by done. injection E as <-. simpl. do 4 (split; [done|]).
  intros. rewrite (proj2 (Z.eqb_neq _ _)) by lia. done.
Qed.

(** Steps of hart [i] keep the other harts' state. *)
Lemma hart_inv_other s i h p l j :
  j <> i -> cpus h j = scpus s j -> hart_inv s j -> hart_inv (upd s i h p l) j.
Proof.
  intros Hne Hc [H1 H2 H3]. split; simpl; rewrite ?fn_lookup_insert_ne by done;
    rewrite ?Hc; done.
Qed.

(** They keep the invariant of a lock they do not touch. *)
Lemma lock_inv_other s i h p l lk :
  lcpu (locks h lk) = lcpu (slocks s lk) ->
  (locked (locks h lk) = 0 -> locked (slocks s lk) = 0) ->
  ~ busy s lk i -> p <> Own lk -> p <> Unlock lk ->
  (lk ∈ l <-> lk ∈ crit s i) -> lock_inv s lk -> lock_inv (upd s i h p l) lk.
Proof.
  intros Hl Hz Hb Hp1 Hp2 Hc [H1 H2 H3 H4].
  assert (forall j, busy (upd s i h p l) lk j <-> busy s lk j) as Hbusy.
  { intros j. unfold busy; simpl. rewrite fn_insert_spec. case_decide; [|done].
    subst. split; [by intros [?|?]|]. intros ?. by destruct Hb. }
  split; simpl; rewrite ?Hl.
  - intros j. rewrite <-H1, fn_insert_spec. case_decide; [by subst|done].
  - intros j k. rewrite !Hbusy. eauto.
  - intros j. rewrite Hbusy. eauto.
  - intros ?. destruct H4 as [? Hn]; [by apply Hz|]. split; [done|]. intros j. by rewrite Hbusy.
Qed.

Lemma step_inv_acq s i lk h n :
  inv s -> spc s i = Run -> acq_enter lk n (view s i) = Ret tt h ->
  inv (upd s i h (Spinning lk) (crit s i)).
Proof.
  intros [HL HH] Hp E. apply acq_enter_Ret in E as (El & Es & e & Ec). simpl in *.
  split.
  - intros lk'. apply lock_inv_other; rewrite ?El; try done.
    intros [?|?]; congruence.
  - intros j. destruct (decide (j = i)) as [->|].
    + destruct (HH i) as [H1 H2 H3]. rewrite Hp in H2. split; simpl;
        rewrite ?fn_lookup_insert; [done| |].
      * rewrite Ec, fn_lookup_insert. simpl. lia.
      * intros _. rewrite Es. apply SIE_off.
    + apply hart_inv_other; [done| |done]. rewrite Ec. by apply fn_lookup_insert_ne.
Qed.

Lemma step_inv_spin s i lk h old n :
  inv s -> spc s i = Spinning lk -> test_and_set lk n (view s i) = Ret old h ->
  inv (upd s i h (if old =? 0 then Own lk else Spinning lk) (crit s i)).
Proof.
  intros [HL HH] Hp E. unfold test_and_set in E. munfold. injection E as <- <-. simpl.
  assert (forall lk', ~ busy s lk' i) as Hb by (intros lk' [?|?]; congruence).
  split.
  - intros lk'. destruct (decide (lk = lk')) as [<-|].
    2:{ apply lock_inv_other; simpl; rewrite ?fn_lookup_insert_ne by done; try done;
        case_match; congruence. }
    destruct (HL lk) as [H1 H2 H3 H4].
    destruct (locked (slocks s lk) =? 0) eqn:E0; zbool.
    + destruct (H4 E0) as [Hc Hnb]. split; simpl; rewrite ?fn_lookup_insert; simpl.
      * intros j. rewrite fn_insert_spec. case_decide; [subst|]; apply H1.
      * assert (forall j, busy (upd s i (set_lock lk (mkSpin 1 (lname (slocks s lk))
            (lcpu (slocks s lk))) (view s i)) (Own lk) (crit s i)) lk j -> j = i) as Hj.
        { intros j. unfold busy; simpl. rewrite fn_insert_spec. case_decide; [done|].
          intros ?. exfalso. by apply (Hnb j). }
        intros j k ?%Hj ?%Hj. congruence.
      * done.
      * done.
    + by apply lock_inv_other; simpl; rewrite ?fn_lookup_insert; simpl; try done; apply Hb.
  - intros j. destruct (decide (j = i)) as [->|];
      [|apply hart_inv_other; [done|done|apply HH]].
    destruct (HH i) as [H1 H2 H3]. rewrite Hp in H2. split; simpl;
      rewrite ?fn_lookup_insert; [done| |by apply H3].
    by destruct (locked (slocks s lk) =? 0).
Qed.

Lemma step_inv_own s i lk h n :
  inv s -> spc s i = Own lk -> acq_own lk n (view s i) = Ret tt h ->
  inv (upd s i h Run (lk :: crit s i)).
Proof.
  intros [HL HH] Hp E. unfold acq_own, cpuid in E. munfold. injection E as <-. simpl.
  destruct (HL lk) as [H1 H2 H3 H4].
  assert (busy s lk i) as Hbi by by left.
  assert (lk ∉ crit s i) as Hni by (rewrite H1, (H3 i); done).
  split.
  - intros lk'. destruct (decide (lk = lk')) as [<-|].
    2:{ apply lock_inv_other; simpl; rewrite ?fn_lookup_insert_ne by done; try done;
        [intros [?|?]; congruence|]. by apply elem_of_cons_ne. }
    assert (forall j, ~ busy (upd s i (set_lock lk (mkSpin (locked (slocks s lk))
       (lname (slocks s lk)) (Some i)) (view s i)) Run (lk :: crit s i)) lk j) as Hnb.
    { intros j. unfold busy; simpl. rewrite fn_insert_spec. case_decide; [by intros [?|?]|].
      intros Hj. apply (H2 i j) in Hj; done. }
    split; simpl; rewrite ?fn_lookup_insert; simpl.
    + intros j. rewrite fn_insert_spec. case_decide.
      * subst. split; [done|]. intros _. by left.
      * rewrite H1, (H3 i) by done. split; congruence.
    + intros j k Hj. by destruct (Hnb j).
    + intros j Hj. by destruct (Hnb j).
    + intros H0. destruct (H4 H0) as [_ Hb]. by destruct (Hb i).
  - intros j. destruct (decide (j = i)) as [->|];
      [|apply hart_inv_other; [done|done|apply HH]].
    destruct (HH i) as [G1 G2 G3]. rewrite Hp in G2. split; simpl;
      rewrite ?fn_lookup_insert; [by constructor| |by apply G3]. simpl length. lia.
Qed.

Lemma step_inv_rel s i lk h n l :
  inv s -> spc s i = Run -> rel_enter lk n (view s i) = Ret tt h ->
  crit s i ≡ₚ lk :: l -> inv (upd s i h (Unlock lk) l).
Proof.
  intros [HL HH] Hp E Hc. apply rel_enter_Ret in E as (E1 & E2 & ->). simpl in *.
  destruct (HL lk) as [H1 H2 H3 H4]. destruct (HH i) as [G1 G2 G3].
  rewrite Hc in G1. apply NoDup_cons in G1 as [Hl G1].
  assert (forall j, ~ busy s lk j) as Hnb by (intros j Hj; rewrite (H3 j) in E2; done).
  split.
  - intros lk'. destruct (decide (lk = lk')) as [<-|].
    2:{ apply lock_inv_other; simpl; rewrite ?fn_lookup_insert_ne by done; try done;
        [intros [?|?]; congruence|congruence|]. by rewrite Hc, elem_of_cons_ne. }
    assert (forall j, busy (upd s i (set_lock lk (mkSpin (locked (slocks s lk))
       (lname (slocks s lk)) None) (view s i)) (Unlock lk) l) lk j -> j = i) as Hj.
    { intros j. unfold busy; simpl. rewrite fn_insert_spec. case_decide; [done|].
      intros Hj. by destruct (Hnb j). }
    split; simpl; rewrite ?fn_lookup_insert; simpl; try done.
    + intros j. rewrite fn_insert_spec. case_decide; [done|]. rewrite H1, E2.
      split; congruence.
    + intros j k ?%Hj ?%Hj. congruence.
  - intros j. destruct (decide (j = i)) as [->|];
      [|apply hart_inv_other; [done|done|apply HH]].
    apply Permutation_length in Hc. simpl in Hc. rewrite Hp in G2. split; simpl;
      rewrite ?fn_lookup_insert; [done|lia|by apply G3].
Qed.

Lemma step_inv_unlock s i lk h n :
  inv s -> spc s i = Unlock lk -> rel_unlock lk n (view s i) = Ret tt h ->
  inv (upd s i h Pop (crit s i)).
Proof.
  intros [HL HH] Hp E. unfold rel_unlock in E. munfold. injection E as <-. simpl.
  destruct (HL lk) as [H1 H2 H3 H4].
  assert (busy s lk i) as Hbi by by right.
  split.
  - intros lk'. destruct (decide (lk = lk')) as [<-|].
    2:{ apply lock_inv_other; simpl; rewrite ?fn_lookup_insert_ne by done; try done;
        intros [?|?]; congruence. }
    assert (forall j, ~ busy (upd s i (set_lock lk (mkSpin 0 (lname (slocks s lk))
       (lcpu (slocks s lk))) (view s i)) Pop (crit s i)) lk j) as Hnb.
    { intros j. unfold busy; simpl. rewrite fn_insert_spec. case_decide; [by intros [?|?]|].
      intros Hj. apply (H2 i j) in Hj; done. }
    split; simpl; rewrite ?fn_lookup_insert; simpl.
    + intros j. rewrite fn_insert_spec. case_decide; [subst|]; apply H1.
    + intros j k Hj. by destruct (Hnb j).
    + intros j Hj. by destruct (Hnb j).
    + intros _. split; [by apply (H3 i)|done].
  - intros j. destruct (decide (j = i)) as [->|];
      [|apply hart_inv_other; [done|done|apply HH]].
    destruct (HH i) as [G1 G2 G3]. rewrite Hp in G2. split; simpl;
      rewrite ?fn_lookup_insert; [done|done|by apply G3].
Qed.

Lemma step_inv_pop s i h n :
  inv s -> spc s i = Pop -> pop_off n (view s i) = Ret tt h ->
  inv (upd s i h Run (crit s i)).
Proof.
  intros [HL HH] Hp E. apply pop_off_Ret in E as (E1 & E2 & E3 & E4 & E5). simpl in *.
  split.
  - intros lk'. apply lock_inv_other; rewrite ?E1; try done. intros [?|?]; congruence.
  - intros j. destruct (decide (j = i)) as [->|].
    + destruct (HH i) as [G1 G2 G3]. rewrite Hp in G2. split; simpl;
        rewrite ?fn_lookup_insert; [done| |]; rewrite E4, fn_lookup_insert; simpl; [lia|].
      intros ?. rewrite E5 by lia. done.
    + apply hart_inv_other; [done| |apply HH]. rewrite E4. by apply fn_lookup_insert_ne.
Qed.

Lemma step_inv_intr_on s i h n :
  inv s -> spc s i = Run -> crit s i = [] -> intr_on n (view s i) = Ret tt h ->
  inv (upd s i h Run []).
Proof.
  intros [HL HH] Hp Hc E. unfold intr_on in E. munfold. injection E as <-. simpl.
  split.
  - intros lk'. apply lock_inv_other; try done; [intros [?|?]; congruence|by rewrite Hc].
  - intros j. destruct (decide (j = i)) as [->|];
      [|apply hart_inv_other; [done|done|apply HH]].
    destruct (HH i) as [G1 G2 G3]. rewrite Hp, Hc in G2. split; simpl;
      rewrite ?fn_lookup_insert; [constructor|done|]. simpl in G2. lia.
Qed.

Lemma step_inv s s' : inv s -> step s s' -> inv s'.
Proof.
  intros Hi Hs. destruct Hs; eauto using step_inv_acq, step_inv_spin, step_inv_own,
    step_inv_rel, step_inv_unlock, step_inv_pop, step_inv_intr_on.
Qed.

Lemma reachable_inv s s' : boot s -> rtc step s s' -> inv s'.
Proof. intros Hb Hr. apply boot_inv in Hb. induction Hr; eauto using step_inv. Qed.

(** C17: Mutual exclusion. In every state the harts can reach from boot by
    interleaving the instructions of [acquire] and [release], two harts
    between the return of [acquire(lk)] and the start of [release(lk)] for the
    same lock are the same hart, and that hart has interrupts disabled. *)
Theorem mutual_exclusion s s' i j lk :
  boot s -> rtc step s s' -> lk ∈ crit s' i -> lk ∈ crit s' j ->
  i = j /\ has (sst s' i) SSTATUS_SIE = false.
Proof.
  intros Hb Hs Hi Hj. destruct (reachable_inv s s' Hb Hs) as [Hl Hh].
  pose proof (li_crit _ _ (Hl lk)) as Hc. split.
  - apply Hc in Hi. apply Hc in Hj. congruence.
  - apply (hi_off _ _ (Hh i)). rewrite (hi_noff _ _ (Hh i)).
    destruct (crit s' i) as [|l ls]; [by apply not_elem_of_nil in Hi|].
    simpl. destruct (spc s' i); lia.
Qed.

Definition boot_state : sys :=
  mkSys (fun _ => mkSpin 0 "" None) (fun _ => mkCpu 0 0) (fun _ => SSTATUS_SIE)
    (fun _ => Run) (fun _ => []).

(** What a step of code leaves. *)
Definition left {A} (o : out machine A) (h : machine) : machine :=
  match o with Ret _ h' => h' | _ => h end.

(** Harts 1 and 2 enter [acquire], hart 1 gets the lock, hart 2 spins. *)
Definition run1 : sys := upd boot_state 1 (left (acq_enter Lkmem 0%nat (view boot_state 1)) (view boot_state 1)) (Spinning Lkmem) [].
Definition run2 : sys := upd run1 2 (left (acq_enter Lkmem 0%nat (view run1 2)) (view run1 2)) (Spinning Lkmem) [].
Definition run3 : sys := upd run2 1 (left (test_and_set Lkmem 0%nat (view run2 1)) (view run2 1)) (Own Lkmem) [].
Definition run4 : sys := upd run3 1 (left (acq_own Lkmem 0%nat (view run3 1)) (view run3 1)) Run [Lkmem].
Definition run5 : sys := upd run4 2 (left (test_and_set Lkmem 0%nat (view run4 2)) (view run4 2)) (Spinning Lkmem) [].

Lemma run5_reachable : rtc step boot_state run5.
Proof.
  apply (rtc_l _ _ run1); [by apply (step_acq boot_state 1 Lkmem _ 0)|].
  apply (rtc_l _ _ run2); [by apply (step_acq run1 2 Lkmem _ 0)|].
  apply (rtc_l _ _ run3); [by apply (step_spin run2 1 Lkmem _ 0 0)|].
  apply (rtc_l _ _ run4); [by apply (step_own run3 1 Lkmem _ 0)|].
  apply (rtc_l _ _ run5); [by apply (step_spin run4 2 Lkmem _ 1 0)|].
  apply rtc_refl.
Qed.

(** Hart 1 is inside [Lkmem] while hart 2 spins on it. *)
Lemma mutual_exclusion_witness :
  rtc step boot_state run5 /\ spc run5 2 = Spinning Lkmem /\ crit run5 1 = [Lkmem] /\
    (1 = 1 /\ has (sst run5 1) SSTATUS_SIE = false).
Proof.
  assert (crit run5 1 = [Lkmem]) as Hc by (vm_compute; reflexivity).
  split; [exact run5_reachable|]. split; [vm_compute; reflexivity|]. split; [exact Hc|].
  apply (mutual_exclusion boot_state run5 1 1 Lkmem); [|exact run5_reachable| |];
    [split; intros; repeat split|rewrite Hc; apply list_elem_of_here..].
Defined.

End Harts.
