(* ===== verification/Kalloc.v ===== *)
(** * The physical page allocator with reference counts

    [src/kernel/kalloc.c]: the free list threaded through the free pages and
    the reference count of every page, on byte-addressed physical memory. *)

From S2P Require Import Prelude Riscv Spinlock Str.

(** ** State *)

(** Physical memory, [kmem.freelist], [kmem.ref_count] and the hart. The
    reference-count array lives at [end], below every page the allocator
    hands out ([ref_count_below] below), so it is kept apart from [mem]. *)
Record mstate (H : Type) := MState {
  mem : memory;
  freelist : Z;
  ref_count : Z -> Z;
  hart : H
}.
#[global] Arguments MState {_} _ _ _ _.
#[global] Arguments mem {_} _.
#[global] Arguments freelist {_} _.
#[global] Arguments ref_count {_} _.
#[global] Arguments hart {_} _.

Definition set_mem {H} (m : memory) (s : mstate H) : mstate H :=
  MState m (freelist s) (ref_count s) (hart s).
Definition set_freelist {H} (p : Z) (s : mstate H) : mstate H :=
  MState (mem s) p (ref_count s) (hart s).
Definition set_ref {H} (i v : Z) (s : mstate H) : mstate H :=
  MState (mem s) (freelist s) (<[i := v]> (ref_count s)) (hart s).
Definition set_hart {H} (h : H) (s : mstate H) : mstate H :=
  MState (mem s) (freelist s) (ref_count s) h.

#[global] Program Instance mstate_hart H : Lens (mstate H) H :=
  {| lget := hart; lset := set_hart |}.
Next Obligation. done. Qed.
Next Obligation. by intros ? []. Qed.
Next Obligation. done. Qed.

Definition modify_mem {H} (f : memory -> memory) : M (mstate H) unit :=
  modify (fun s => set_mem (f (mem s)) s).

(** ** Code *)

Section code.
Context {H : Type} {SP : Spin H} {LY : Layout}.

Definition INDEX (pa : Z) : Z := Z.shiftr (pa - PGROUNDUP kend) 12.

Definition kfree (pa : Z) : M (mstate H) unit :=
  if negb (pa mod PGSIZE =? 0) || (pa <? kend) || (PHYSTOP <=? pa)
  then panic "kfree" else
  lift (acquire Lkmem);;
  modify (fun s => set_ref (INDEX pa) (u32 (ref_count s (INDEX pa) - 1)) s);;
  c ← gets (fun s => ref_count s (INDEX pa));
  if negb (c =? 0) then lift (release Lkmem) else
  lift (release Lkmem);;
  modify_mem (fun m => memset m pa 1 PGSIZE);;
  lift (acquire Lkmem);;
  fl ← gets freelist;
  modify_mem (fun m => store64 m pa fl);;
  modify (set_freelist pa);;
  lift (release Lkmem).

Definition kalloc : M (mstate H) Z :=
  lift (acquire Lkmem);;
  r ← gets freelist;
  when (negb (r =? 0))
    (nxt ← gets (fun s => load64 (mem s) r);
     modify (set_freelist nxt);;
     modify (set_ref (INDEX r) 1));;
  lift (release Lkmem);;
  when (negb (r =? 0)) (modify_mem (fun m => memset m r 5 PGSIZE));;
  mret r.

Definition freerange (pa_start pa_end : Z) : M (mstate H) unit :=
  loop (fun p =>
    if negb (p + PGSIZE <=? pa_end) then mret (Done tt) else
    modify (set_ref (INDEX p) 1);;
    kfree p;;
    mret (Next (p + PGSIZE))) (PGROUNDUP pa_start).

(** The size in bytes of the pages that hold the reference counts. *)
Definition ref_offset : Z :=
  let physical_pages := Z.shiftr (PHYSTOP - kend) 12 + 1 in
  let physical_pages := Z.shiftr (physical_pages * 4) 12 + 1 in
  Z.shiftl physical_pages 12.

Definition kinit : M (mstate H) unit :=
  lift (init_lock Lkmem "kmem");;
  lift (init_lock Lref "ref");;
  freerange (kend + ref_offset) PHYSTOP.

(** [int get_kmem_ref(void *pa)] *)
Definition get_kmem_ref (pa : Z) : M (mstate H) Z :=
  gets (fun s => s32 (ref_count s (INDEX pa))).

Definition add_kmem_ref (pa : Z) : M (mstate H) unit :=
  modify (fun s => set_ref (INDEX pa) (u32 (ref_count s (INDEX pa) + 1)) s).

Definition acquire_ref_lock : M (mstate H) unit := lift (acquire Lref).
Definition release_ref_lock : M (mstate H) unit := lift (release Lref).

(** ** Invariant *)

(** The pages the allocator manages: those [kinit] frees. *)
Definition kfirst : Z := PGROUNDUP (kend + ref_offset).
Definition managed (p : Z) : Prop := aligned p /\ kfirst <= p /\ p + PGSIZE <= PHYSTOP.

(** The free list from [p] is [l], linked through the first word of each page. *)
Fixpoint chain (m : memory) (p : Z) (l : list Z) : Prop :=
  match l with
  | [] => p = 0
  | q :: l' => p = q /\ chain m (load64 m q) l'
  end.

Record free_inv (s : mstate H) (l : list Z) : Prop := {
  fi_chain : chain (mem s) (freelist s) l;
  fi_nodup : NoDup l;
  fi_managed : forall p, p ∈ l -> managed p;
  fi_ref : forall p, p ∈ l -> ref_count s (INDEX p) = 0
}.

End code.

#[global] Arguments INDEX : simpl never.
#[global] Arguments kfirst : simpl never.

(** ** Layout of the managed pages *)

Section layout.
Context {LY : Layout} {LO : LayoutOk}.

Lemma kend_bounds : 0 < kend < 2 ^ 32.
Proof.
  pose proof kend_lo. pose proof kend_hi. pose proof etext_lo. pages. lia.
Qed.

Lemma ref_offset_bounds :
  4 * ((PHYSTOP - kend) / PGSIZE + 1) < ref_offset <= 34 * PGSIZE.
Proof.
  pose proof kend_lo. pose proof kend_hi. pose proof etext_lo.
  unfold ref_offset. rewrite Z.shiftl_mul_pow2, !Z.shiftr_div_pow2 by lia.
  pages. Z.div_mod_to_equations. lia.
Qed.

Lemma kfirst_bounds :
  aligned kfirst /\ kend + ref_offset <= kfirst < kend + ref_offset + PGSIZE.
Proof.
  pose proof kend_bounds. pose proof ref_offset_bounds. pose proof kend_hi.
  apply PGROUNDUP_bounds; pages; Z.div_mod_to_equations; lia.
Qed.

Lemma managed_bounds p : managed p -> aligned p /\ kend < p /\ p + PGSIZE <= PHYSTOP.
Proof.
  pose proof kfirst_bounds as [_ ?]. pose proof ref_offset_bounds. pose proof kend_hi.
  intros (? & ? & ?). split; [done|]. pages. Z.div_mod_to_equations. lia.
Qed.

Lemma INDEX_eq p : INDEX p = (p - PGROUNDUP kend) / PGSIZE.
Proof. unfold INDEX. by rewrite Z.shiftr_div_pow2 by lia. Qed.

Lemma INDEX_inj p q : aligned p -> aligned q -> INDEX p = INDEX q -> p = q.
Proof.
  rewrite !INDEX_eq. pose proof kend_bounds.
  destruct (PGROUNDUP_bounds kend) as [Hal _]; [lia|pages; lia|].
  revert Hal. generalize (PGROUNDUP kend). pages. intros.
  Z.div_mod_to_equations. lia.
Qed.

(** The count of a managed page is inside the array at [end], and the array
    ends below the first managed page. *)
Lemma ref_count_below p :
  managed p -> 0 <= INDEX p /\ kend + 4 * INDEX p + 4 <= kfirst.
Proof.
  intros (Hal & Hlo & Hhi). rewrite INDEX_eq.
  pose proof kend_bounds. pose proof ref_offset_bounds.
  pose proof kfirst_bounds as [_ ?].
  destruct (PGROUNDUP_bounds kend) as [Hal' ?]; [lia|pages; lia|].
  generalize dependent (PGROUNDUP kend). pages. intros.
  Z.div_mod_to_equations. lia.
Qed.

Lemma managed_nonzero p : managed p -> 0 < p < 2 ^ 32.
Proof.
  intros (? & ? & ?)%managed_bounds. pose proof kend_bounds. pages. lia.
Qed.

Lemma kfree_check p :
  managed p ->
  negb (p mod PGSIZE =? 0) || (p <? kend) || (PHYSTOP <=? p) = false.
Proof.
  intros (Hal & ? & ?)%managed_bounds. unfold aligned in Hal.
  rewrite Hal. simpl. destruct (Z.ltb_spec p kend), (Z.leb_spec PHYSTOP p); try done; pages; lia.
Qed.
End layout.

(** ** Free lists in memory *)

Lemma chain_ext m m' p l :
  (forall q x, q ∈ l -> q <= x < q + 8 -> m x = m' x) -> chain m p l -> chain m' p l.
Proof.
  revert p. induction l as [|q l IH]; intros p Heq; simpl; [done|].
  intros [-> Hc]. split; [done|].
  rewrite <-(load64_ext m m' q) by (intros; apply (Heq q); [by left|done]).
  apply IH; [|done]. intros q' x ?. apply Heq. by right.
Qed.

(** Memory that only changed inside the page [p]. *)
Definition same_except (p : Z) (m m' : memory) : Prop :=
  forall x, ~ (p <= x < p + PGSIZE) -> m' x = m x.

Lemma same_except_memset p c m : same_except p m (memset m p c PGSIZE).
Proof. intros x ?. rewrite memset_spec by (pages; lia). by rewrite decide_False. Qed.

Lemma same_except_store64 p a v m :
  p <= a -> a + 8 <= p + PGSIZE -> same_except p m (store64 m a v).
Proof. intros ? ? x ?. apply store64_out. lia. Qed.

Lemma same_except_memmove p src m : same_except p m (memmove m p src PGSIZE).
Proof. intros x Hx. rewrite memmove_byte by done. by rewrite decide_False by lia. Qed.

Lemma same_except_trans p m1 m2 m3 :
  same_except p m1 m2 -> same_except p m2 m3 -> same_except p m1 m3.
Proof. intros H1 H2 x ?. rewrite H2, H1; done. Qed.

Lemma same_except_load64 p m m' a :
  same_except p m m' -> a + 8 <= p \/ p + PGSIZE <= a -> load64 m' a = load64 m a.
Proof. intros Hs ?. apply load64_ext. intros. apply Hs. lia. Qed.

Lemma same_except_page p m m' x :
  aligned p -> same_except p m m' -> PGROUNDDOWN x <> p -> m' x = m x.
Proof.
  intros Hal Hs Hne. apply Hs. pose proof (PGROUNDDOWN_bounds x).
  destruct (aligned_disjoint (PGROUNDDOWN x) p); auto using PGROUNDDOWN_is_aligned; lia.
Qed.

Lemma chain_same_except p m m' q l :
  aligned p -> (forall q, q ∈ l -> aligned q) -> p ∉ l ->
  same_except p m m' -> chain m q l -> chain m' q l.
Proof.
  intros Hp Hl Hn Hs. apply chain_ext. intros q' x Hq' Hx. symmetry. apply Hs.
  destruct (aligned_disjoint p q'); auto; [congruence| |]; pages; lia.
Qed.

(** ** Specifications *)

Section specs.
Context {H : Type} {SP : Spin H} {LY : Layout} {LO : LayoutOk}.
Implicit Types s : mstate H.

Lemma free_inv_aligned s l p : free_inv s l -> p ∈ l -> aligned p.
Proof. intros Hi Hp. by apply (fi_managed _ _ Hi) in Hp as (? & _). Qed.

(** Changing the contents and count of a page that is not free keeps the
    free list. *)
Lemma free_inv_frame s l p m' v (h' : H) :
  free_inv s l -> managed p -> p ∉ l -> same_except p (mem s) m' ->
  free_inv (MState m' (freelist s) (<[INDEX p := v]> (ref_count s)) h') l.
Proof.
  intros Hi Hp Hn Hs. pose proof (free_inv_aligned s l) as Hal.
  destruct Hi as [H1 H2 H3 H4]. split; simpl; try done.
  - eapply chain_same_except; eauto using Build_free_inv. apply Hp.
  - intros q Hq. rewrite fn_lookup_insert_ne; [auto|].
    intros Heq. apply INDEX_inj in Heq; [congruence|apply Hp|by apply H3].
Qed.

Lemma free_inv_mem s l p m' (h' : H) :
  free_inv s l -> managed p -> p ∉ l -> same_except p (mem s) m' ->
  free_inv (MState m' (freelist s) (ref_count s) h') l.
Proof.
  intros Hi Hp Hn Hs. rewrite <-(fn_insert_id (ref_count s) (INDEX p)).
  by apply free_inv_frame.
Qed.

Lemma free_inv_hart s l (h' : H) :
  free_inv s l -> free_inv (MState (mem s) (freelist s) (ref_count s) h') l.
Proof. by intros []. Qed.

(** What [kalloc] does: it fails exactly when the free list is empty, and
    otherwise takes the first free page, sets its count to one and fills it
    with 5s. *)
Lemma wp_kalloc n s l hl (Q : Z -> mstate H -> Prop) :
  (0 < n)%nat -> free_inv s l -> hrep (hart s) hl -> Lkmem ∉ hl ->
  (forall h', l = [] -> hrep h' hl ->
    Q 0 (MState (mem s) (freelist s) (ref_count s) h')) ->
  (forall p l' h', l = p :: l' -> managed p -> p ∉ l' ->
    free_inv (MState (memset (mem s) p 5 PGSIZE) (load64 (mem s) p)
      (<[INDEX p := 1]> (ref_count s)) h') l' ->
    hrep h' hl ->
    Q p (MState (memset (mem s) p 5 PGSIZE) (load64 (mem s) p)
      (<[INDEX p := 1]> (ref_count s)) h')) ->
  wp kalloc n s Q.
Proof.
  intros Hn Hi Hr Hl HQ0 HQ. unfold kalloc.
  apply wp_bind, wp_lift. eapply wp_acquire; [done|exact Hr|done|]. intros h1 Hr1.
  destruct s as [m fl rc h]. simpl in *. apply wp_bind, wp_gets. simpl.
  destruct l as [|p l'].
  - pose proof (fi_chain _ _ Hi) as Hc. simpl in Hc. subst fl. simpl.
    apply wp_bind, wp_ret, wp_bind, wp_lift.
    eapply wp_release; [exact Hr1|]. intros h2 Hr2. apply wp_bind, wp_ret, wp_ret. by apply HQ0.
  - assert (managed p) as Hp by (apply (fi_managed _ _ Hi); by left).
    pose proof (managed_nonzero p Hp).
    pose proof (free_inv_aligned _ _ p Hi (list_elem_of_here _ _)) as Hal.
    destruct Hi as [Hc Hnd Hm Hz]. simpl in *. destruct Hc as [-> Hc].
    apply NoDup_cons in Hnd as [Hpl Hnd].
    rewrite (proj2 (Z.eqb_neq p 0)) by lia. simpl.
    apply wp_bind. wp_steps. unfold set_hart, set_freelist, set_ref; simpl.
    eapply wp_release; [exact Hr1|]. intros h2 Hr2. unfold modify_mem. wp_steps.
    unfold set_mem; simpl. apply (HQ p l'); try done.
    split; simpl; [|done| |].
    + eapply chain_same_except; [exact Hal| |exact Hpl| |exact Hc].
      * intros q Hq. apply Hm. by right.
      * apply same_except_memset.
    + intros q Hq. apply Hm. by right.
    + intros q Hq. rewrite fn_lookup_insert_ne; [apply Hz; by right|].
      intros Heq. apply INDEX_inj in Heq; [congruence|done|]. apply Hm. by right.
Qed.

(** What [kfree] does on a managed page whose count is [c]: with more than
    one reference only the count changes; with one, the page goes to the
    front of the free list. *)
Lemma wp_kfree n s l hl p (Q : unit -> mstate H -> Prop) :
  (0 < n)%nat -> free_inv s l -> hrep (hart s) hl -> Lkmem ∉ hl ->
  managed p -> p ∉ l -> 1 <= ref_count s (INDEX p) < 2 ^ 32 ->
  (forall h', 1 < ref_count s (INDEX p) ->
    free_inv (MState (mem s) (freelist s)
      (<[INDEX p := ref_count s (INDEX p) - 1]> (ref_count s)) h') l ->
    hrep h' hl ->
    Q tt (MState (mem s) (freelist s)
      (<[INDEX p := ref_count s (INDEX p) - 1]> (ref_count s)) h')) ->
  (forall h' m', ref_count s (INDEX p) = 1 -> same_except p (mem s) m' ->
    free_inv (MState m' p (<[INDEX p := 0]> (ref_count s)) h') (p :: l) ->
    hrep h' hl ->
    Q tt (MState m' p (<[INDEX p := 0]> (ref_count s)) h')) ->
  wp (kfree p) n s Q.
Proof.
  intros Hn Hi Hr Hl Hp Hpl Hc HQ1 HQ0. unfold kfree. rewrite (kfree_check p Hp).
  apply wp_bind, wp_lift. eapply wp_acquire; [done|exact Hr|done|]. intros h1 Hr1.
  destruct s as [m fl rc h]. simpl in *. wp_steps. simpl.
  unfold set_hart, set_ref; simpl. rewrite fn_lookup_insert.
  rewrite u32_small by lia. destruct (rc (INDEX p) - 1 =? 0) eqn:E; zbool; simpl.
  - wp_steps. eapply wp_release; [exact Hr1|]. intros h2 Hr2. unfold modify_mem. wp_steps.
    eapply wp_acquire; [done|exact Hr2|done|]. intros h3 Hr3. wp_steps. simpl.
    eapply wp_release; [exact Hr3|]. intros h4 Hr4. unfold set_hart, set_mem, set_freelist; simpl.
    assert (same_except p m (store64 (memset m p 1 PGSIZE) p fl)) as Hse.
    { eapply same_except_trans; [apply same_except_memset|].
      apply same_except_store64; pages; lia. }
    rewrite E. apply HQ0; try done; [lia|].
    pose proof (free_inv_frame _ l p _ 0 h4 Hi Hp Hpl Hse) as [F1 F2 F3 F4]. simpl in *.
    split; simpl.
    + split; [done|]. rewrite load64_store64. rewrite u64_small; [done|].
      destruct l as [|q l']; [by simpl in F1; subst|]. destruct F1 as [-> _].
      assert (managed q) as Hq by (apply F3; by left). apply managed_nonzero in Hq. lia.
    + by constructor.
    + intros q [->|]%elem_of_cons; auto.
    + intros q [->|]%elem_of_cons; [apply fn_lookup_insert|auto].
  - wp_steps. eapply wp_release; [exact Hr1|]. intros h2 Hr2. unfold set_hart; simpl.
    apply HQ1; [lia| |done]. by apply (free_inv_frame (MState m fl rc h) l p m).
Qed.

(** The pages below [p] that [freerange] has already freed. *)
Definition freed_to (p : Z) (l : list Z) : Prop :=
  forall q, q ∈ l <-> managed q /\ q < p.

Lemma freed_to_step p l :
  aligned p -> kfirst <= p -> p + PGSIZE <= PHYSTOP ->
  freed_to p l -> (p ∉ l) /\ freed_to (p + PGSIZE) (p :: l).
Proof.
  intros Hal Hlo Hhi Hf. unfold freed_to in *. split.
  - rewrite Hf. lia.
  - intros q. rewrite elem_of_cons, Hf. split.
    + intros [->|[? ?]]; [|split; [done|pages; lia]].
      split; [done|pages; lia].
    + intros [Hq Hlt]. destruct (decide (q = p)) as [->|Hne]; [by left|right].
      split; [done|]. destruct (aligned_disjoint q p); [apply Hq|done|done| |];
        pages; lia.
Qed.

Lemma wp_freerange n s hl (Q : unit -> mstate H -> Prop) :
  32768 < Z.of_nat n -> free_inv s [] -> hrep (hart s) hl -> Lkmem ∉ hl ->
  (forall s' l, free_inv s' l -> (forall p, p ∈ l <-> managed p) ->
     hrep (hart s') hl -> Q tt s') ->
  wp (freerange (kend + ref_offset) PHYSTOP) n s Q.
Proof.
  intros Hn Hi Hr Hl HQ. unfold freerange. change (PGROUNDUP _) with kfirst.
  pose proof kfirst_bounds as [Hal Hlo]. pose proof ref_offset_bounds.
  pose proof kend_bounds. pose proof kend_hi. pose proof kend_lo. pose proof etext_lo.
  apply (wp_loop _ (fun k p s => exists l, free_inv s l /\ hrep (hart s) hl /\
      aligned p /\ kfirst <= p <= PHYSTOP /\ freed_to p l /\
      Z.of_nat k = (PHYSTOP - p) / PGSIZE))
    with (k := Z.to_nat ((PHYSTOP - kfirst) / PGSIZE)).
  2:{ pages. Z.div_mod_to_equations. lia. }
  2:{ exists []. split; [done|]. split; [done|]. split; [done|].
      split; [pages; Z.div_mod_to_equations; lia|]. split.
      - intros q. split; [by intros ?%elem_of_nil|]. intros [(_ & ? & _) ?]. lia.
      - pages. Z.div_mod_to_equations. lia. }
  clear s Hi Hr. intros k p s (l & Hi & Hr & Hp & Hb & Hf & Hk).
  destruct (Z.leb_spec (p + PGSIZE) PHYSTOP) as [Hle|Hgt]; simpl.
  - destruct (freed_to_step p l) as [Hpl Hf']; [done|lia|done|done|].
    assert (managed p) as Hm by (split; [done|lia]).
    wp_steps. set (s1 := set_ref (INDEX p) 1 s).
    assert (free_inv s1 l) as Hi1 by (destruct s; by eapply free_inv_frame).
    assert (ref_count s1 (INDEX p) = 1) as Hr1 by (by apply fn_lookup_insert).
    eapply (wp_kfree n s1 l hl p); try done; [lia|lia|lia|].
    intros h' m' _ Hse Hi' Hr'. wp_steps. exists (pred k).
    split; [pages; Z.div_mod_to_equations; lia|]. exists (p :: l).
    split; [done|]. split; [done|]. split; [by apply aligned_add|].
    split; [pages; lia|]. split; [done|]. pages. Z.div_mod_to_equations. lia.
  - wp_steps. apply (HQ s l); try done. intros q. rewrite (Hf q). split; [by intros [? ?]|].
    intros Hq. split; [done|]. destruct Hq as (? & ? & ?). pages. lia.
Qed.

End specs.

(** ** Properties *)

Section properties.
Context {H : Type} {SP : Spin H} {LY : Layout} {LO : LayoutOk}.

(** The reference counts live below every page the allocator hands out:
    the word [ref_count[INDEX(p)]] of a managed page [p] lies between [end]
    and the first managed page, so writing counts and writing pages never
    interfere. *)
Theorem ref_counts_below_pages p q :
  managed p -> managed q ->
  kend <= kend + 4 * INDEX p /\ kend + 4 * INDEX p + 4 <= q.
Proof. intros Hp (_ & Hq & _). destruct (ref_count_below p Hp). lia. Qed.

(** [kinit], run at boot with an empty free list, terminates, and then
    the free list holds exactly the pages from the first one after the
    reference counts up to [PHYSTOP], each once, all with count 0. *)
Theorem kinit_correct n s hl :
  32768 < Z.of_nat n -> freelist s = 0 -> hrep (hart s) hl ->
  Lkmem ∉ hl -> Lref ∉ hl ->
  exists s' l, kinit n s = Ret tt s' /\ free_inv s' l /\ hrep (hart s') hl /\
    forall p, p ∈ l <-> managed p.
Proof.
  intros Hn Hf Hr Hl Hl'.
  assert (wp kinit n s (fun _ s' => exists l, free_inv s' l /\ hrep (hart s') hl /\
    forall p, p ∈ l <-> managed p)) as Hwp.
  { unfold kinit. wp_steps. eapply wp_init_lock; [exact Hr|done|]. intros h1 Hr1.
    wp_steps. eapply wp_init_lock; [exact Hr1|done|]. intros h2 Hr2.
    apply (wp_freerange n _ hl); [done| |exact Hr2|done|by eauto].
    split; simpl; [done|constructor|by intros ? ?%not_elem_of_nil..]. }
  destruct (wp_elim _ _ _ _ Hwp) as ([] & s' & E & l & ?). eauto.
Qed.

(** [kalloc] on the free list [l]: it returns 0 exactly when [l] is empty
    and then changes nothing; otherwise it returns the head of [l], a managed
    page filled with 5s that is no longer free and has count 1, and no other
    page or count changes. *)
Theorem kalloc_correct n s l hl :
  (0 < n)%nat -> free_inv s l -> hrep (hart s) hl -> Lkmem ∉ hl ->
  exists p s', kalloc n s = Ret p s' /\ hrep (hart s') hl /\
    match l with
    | [] => p = 0 /\ mem s' = mem s /\ ref_count s' = ref_count s /\ free_inv s' []
    | q :: l' =>
        p = q /\ managed p /\ (p ∉ l') /\ free_inv s' l' /\ ref_count s' (INDEX p) = 1 /\
        (forall x, p <= x < p + PGSIZE -> mem s' x = 5) /\ same_except p (mem s) (mem s') /\
        (forall r, aligned r -> r <> p -> ref_count s' (INDEX r) = ref_count s (INDEX r))
    end.
Proof.
  intros Hn Hi Hr Hl.
  apply wp_elim, (wp_kalloc n s l hl); [done..| |]; simpl.
  - intros h' -> Hr'. split; [done|]. do 3 (split; [done|]). by apply free_inv_hart.
  - intros p l' h' -> Hm Hp Hf Hr'. simpl. split; [done|].
    do 4 (split; [done|]). split; [apply fn_lookup_insert|]. split; [|split].
    + intros x Hx. rewrite memset_spec by done. by rewrite decide_True.
    + apply same_except_memset.
    + intros r Hra Hne. rewrite fn_lookup_insert_ne; [done|].
      intros E%INDEX_inj; [done|apply Hm|done].
Qed.

(** C38: [kfree] of a referenced page: with other references left only its
    count goes down by one; at the last one the page joins the free list.
    In both cases no other page's memory or count changes. *)
Theorem kfree_correct n s l hl p :
  (0 < n)%nat -> free_inv s l -> hrep (hart s) hl -> Lkmem ∉ hl ->
  managed p -> p ∉ l -> 1 <= ref_count s (INDEX p) < 2 ^ 32 ->
  exists s', kfree p n s = Ret tt s' /\ hrep (hart s') hl /\
    ref_count s' = <[INDEX p := ref_count s (INDEX p) - 1]> (ref_count s) /\
    (if ref_count s (INDEX p) =? 1
     then free_inv s' (p :: l) /\ same_except p (mem s) (mem s')
     else free_inv s' l /\ mem s' = mem s).
Proof.
  intros Hn Hi Hr Hl Hp Hpl Hc.
  apply wp_elim_unit, (wp_kfree n s l hl p); try done; simpl.
  - intros h' Hgt Hf Hr'. do 2 (split; [done|]). by rewrite (proj2 (Z.eqb_neq _ _)) by lia.
  - intros h' m' E Hse Hf Hr'. rewrite E. done.
Qed.

(** C39: [kfree] panics on an address that is not the start of a page of RAM
    above the kernel, before touching any state. *)
Theorem kfree_rejects pa n s :
  pa mod PGSIZE <> 0 \/ pa < kend \/ PHYSTOP <= pa ->
  kfree pa n s = Panic "kfree" s.
Proof.
  intros Hb. unfold kfree.
  replace (negb (pa mod PGSIZE =? 0) || (pa <? kend) || (PHYSTOP <=? pa)) with true; [done|].
  symmetry. rewrite !orb_true_iff, negb_true_iff, Z.eqb_neq, Z.ltb_lt, Z.leb_le. tauto.
Qed.

End properties.

(** *** Concrete instances *)

(** One free page, the first managed one, above a small kernel. *)
Definition one_free (p : Z) : mstate machine :=
  MState (fun _ => 0) p (fun _ => 0) idle_hart.

Definition page0 : Z := KERNBASE + 67 * PGSIZE.

Lemma page0_managed : @managed small_kernel page0.
Proof. repeat split; vm_compute; congruence. Qed.

Lemma one_free_inv : @free_inv machine small_kernel (one_free page0) [page0].
Proof.
  split; simpl; [by vm_compute|apply NoDup_singleton| |done].
  intros p ->%list_elem_of_singleton. apply page0_managed.
Qed.

Lemma ref_counts_below_pages_witness :
  kend (Layout := small_kernel) <= kend (Layout := small_kernel) + 4 * @INDEX small_kernel page0 /\
  kend (Layout := small_kernel) + 4 * @INDEX small_kernel page0 + 4 <= page0.
Proof.
  apply (@ref_counts_below_pages small_kernel small_kernel_ok page0 page0); apply page0_managed.
Defined.

Lemma kinit_correct_witness :
  exists s' l, @kinit machine machine_spin small_kernel (Z.to_nat 40000) (one_free 0) = Ret tt s' /\
    @free_inv machine small_kernel s' l /\ hrep (hart s') [] /\
    forall p, p ∈ l <-> @managed small_kernel p.
Proof.
  apply (@kinit_correct machine machine_spin small_kernel small_kernel_ok
    (Z.to_nat 40000) (one_free 0) []);
    [lia|reflexivity|apply idle_hart_mrep|apply not_elem_of_nil..].
Defined.

Lemma kalloc_correct_witness :
  exists p s', @kalloc machine machine_spin small_kernel 1%nat (one_free page0) = Ret p s' /\
    hrep (hart s') [] /\ p = page0 /\ @free_inv machine small_kernel s' [].
Proof.
  destruct (@kalloc_correct machine machine_spin small_kernel small_kernel_ok
    1 (one_free page0) [page0] []) as (p & s' & E & Hr & Hp & _ & _ & Hf & _);
    [lia|apply one_free_inv|apply idle_hart_mrep|apply not_elem_of_nil|].
  exists p, s'. done.
Defined.

Lemma kfree_correct_witness :
  exists s', @kfree machine machine_spin small_kernel page0 1%nat
      (MState (fun _ => 0) 0 (fun _ => 1) idle_hart) = Ret tt s' /\
    @free_inv machine small_kernel s' [page0].
Proof.
  destruct (@kfree_correct machine machine_spin small_kernel small_kernel_ok
    1 (MState (fun _ => 0) 0 (fun _ => 1) idle_hart) [] [] page0) as (s' & E & _ & _ & Hf & _);
    [lia| |apply idle_hart_mrep|apply not_elem_of_nil|apply page0_managed|
     apply not_elem_of_nil|by vm_compute|exists s'; split; [exact E|exact Hf]].
  split; simpl; [done|constructor|by intros ? ?%not_elem_of_nil..].
Defined.

Lemma kfree_rejects_witness :
  @kfree machine machine_spin small_kernel (page0 + 8) 0%nat (one_free 0) = Panic "kfree" (one_free 0).
Proof.
  apply (@kfree_rejects machine machine_spin small_kernel (page0 + 8) 0 (one_free 0)).
  left. vm_compute. congruence.
Defined.
