(* ===== verification/Vm.v ===== *)
(** * Virtual memory: the code of [src/kernel/vm.c]

    Page tables are arrays of 512 little-endian words in physical memory;
    [walk] follows them through memory exactly as the hardware and the kernel
    do. A buffer of the kernel that user memory is copied to or from is
    passed by value as a list of bytes. *)

From S2P Require Import Prelude Riscv Spinlock Str Kalloc.

Section code.
Context {H : Type} {SP : Spin H} {LY : Layout}.
Abbreviation MM := (M (mstate H)).

(** [*pte] and [*pte = v] *)
Definition get_pte (pte : Z) : MM Z := gets (fun s => load64 (mem s) pte).
Definition set_pte (pte v : Z) : MM unit := modify_mem (fun m => store64 m pte v).

(** ** walk *)

(** [&pagetable[PX(level, va)]] *)
Definition pte_addr (pagetable level va : Z) : Z := pagetable + 8 * PX level va.

(** The [for] loop of [walk] from [level] down, and its final [return]. *)
Fixpoint walk_loop (level : nat) (pagetable va : Z) (alloc : bool) : MM Z :=
  match level with
  | O => mret (pte_addr pagetable 0 va)
  | S level' =>
      let pte := pte_addr pagetable (Z.of_nat level) va in
      v ← get_pte pte;
      if has v PTE_V then walk_loop level' (PTE2PA v) va alloc else
      if negb alloc then mret 0 else
      p ← kalloc;
      if p =? 0 then mret 0 else
      modify_mem (fun m => memset m p 0 PGSIZE);;
      set_pte pte (Z.lor (PA2PTE p) PTE_V);;
      walk_loop level' p va alloc
  end.

Definition walk (pagetable va : Z) (alloc : bool) : MM Z :=
  if MAXVA <=? va then panic "walk" else walk_loop 2 pagetable va alloc.

Definition walkaddr (pagetable va : Z) : MM Z :=
  if MAXVA <=? va then mret 0 else
  pte ← walk pagetable va false;
  if pte =? 0 then mret 0 else
  v ← get_pte pte;
  if negb (has v PTE_V) then mret 0 else
  if negb (has v PTE_U) then mret 0 else
  mret (PTE2PA v).

(** ** Mapping and unmapping *)

Definition mappages (pagetable va size pa perm : Z) : MM Z :=
  if size =? 0 then panic "mappages: size" else
  let last := PGROUNDDOWN (u64 (va + size - 1)) in
  loop (fun '(a, pa) =>
    pte ← walk pagetable a true;
    if pte =? 0 then mret (Done (-1)) else
    set_pte pte (Z.lor (Z.lor (PA2PTE pa) perm) PTE_V);;
    if a =? last then mret (Done 0) else
    mret (Next (u64 (a + PGSIZE), u64 (pa + PGSIZE))))
    (PGROUNDDOWN va, pa).

Definition kvmmap (kpgtbl va pa sz perm : Z) : MM unit :=
  r ← mappages kpgtbl va sz pa perm;
  when (negb (r =? 0)) (panic "kvmmap").

Definition uvmunmap (pagetable va npages : Z) (do_free : bool) : MM unit :=
  if negb (va mod PGSIZE =? 0) then panic "uvmunmap: not aligned" else
  loop (fun a =>
    if negb (a <? u64 (va + u64 (npages * PGSIZE))) then mret (Done tt) else
    pte ← walk pagetable a false;
    if pte =? 0 then panic "uvmunmap: walk" else
    v ← get_pte pte;
    if negb (has v PTE_V) then panic "uvmunmap: not mapped" else
    if PTE_FLAGS v =? PTE_V then panic "uvmunmap: not a leaf" else
    when do_free (kfree (PTE2PA v));;
    set_pte pte 0;;
    mret (Next (u64 (a + PGSIZE)))) va.

Definition uvmcreate : MM Z :=
  pagetable ← kalloc;
  if pagetable =? 0 then mret 0 else
  modify_mem (fun m => memset m pagetable 0 PGSIZE);;
  mret pagetable.

(** [src] is the [uchar *] of the caller, [sz] its length. *)
Definition uvminit (pagetable : Z) (src : list Z) (sz : Z) : MM unit :=
  if PGSIZE <=? sz then panic "inituvm: more than a page" else
  m ← kalloc;
  modify_mem (fun mm => memset mm m 0 PGSIZE);;
  mappages pagetable 0 PGSIZE m (Z.lor PTE_W (Z.lor PTE_R (Z.lor PTE_X PTE_U)));;
  modify_mem (fun mm => wr_bytes mm m (take (Z.to_nat sz) src)).

Definition uvmdealloc (pagetable oldsz newsz : Z) : MM Z :=
  if oldsz <=? newsz then mret oldsz else
  when (PGROUNDUP newsz <? PGROUNDUP oldsz)
    (let npages := s32 ((PGROUNDUP oldsz - PGROUNDUP newsz) / PGSIZE) in
     uvmunmap pagetable (PGROUNDUP newsz) (u64 npages) true);;
  mret newsz.

Definition uvmalloc (pagetable oldsz newsz : Z) : MM Z :=
  if newsz <? oldsz then mret oldsz else
  let oldsz := PGROUNDUP oldsz in
  loop (fun a =>
    if negb (a <? newsz) then mret (Done newsz) else
    m ← kalloc;
    if m =? 0 then
      uvmdealloc pagetable a oldsz;; mret (Done 0)
    else
    modify_mem (fun mm => memset mm m 0 PGSIZE);;
    r ← mappages pagetable a PGSIZE m (Z.lor PTE_W (Z.lor PTE_X (Z.lor PTE_R PTE_U)));
    if negb (r =? 0) then
      kfree m;;
      uvmdealloc pagetable a oldsz;; mret (Done 0)
    else mret (Next (u64 (a + PGSIZE)))) oldsz.

(** The recursion of [freewalk] is bounded by the bound of the run. *)
Fixpoint freewalk_n (d : nat) (pagetable : Z) : MM unit :=
  match d with
  | O => fun _ _ => NoFuel
  | S d' =>
      for_ 512 0 (fun i =>
        pte ← get_pte (pagetable + 8 * i);
        if has pte PTE_V && (Z.land pte (Z.lor PTE_R (Z.lor PTE_W PTE_X)) =? 0) then
          freewalk_n d' (PTE2PA pte);;
          set_pte (pagetable + 8 * i) 0;;
          mret (Next tt : ctl unit unit)
        else if has pte PTE_V then panic "freewalk: leaf"
        else mret (Next tt));;
      kfree pagetable
  end.

Definition freewalk (pagetable : Z) : MM unit := fun n s => freewalk_n n pagetable n s.

Definition uvmfree (pagetable sz : Z) : MM unit :=
  when (0 <? sz) (uvmunmap pagetable 0 (PGROUNDUP sz / PGSIZE) true);;
  freewalk pagetable.

Definition uvmcopy (old new sz : Z) : MM Z :=
  loop (fun i =>
    if negb (i <? sz) then mret (Done 0) else
    pte ← walk old i false;
    if pte =? 0 then panic "uvmcopy: pte should exist" else
    v ← get_pte pte;
    if negb (has v PTE_V) then panic "uvmcopy: page not present" else
    set_pte pte (Z.lor (Z.land v (Z.lnot PTE_W)) PTE_RSW);;
    v ← get_pte pte;
    let pa := PTE2PA v in
    let flags := PTE_FLAGS v in
    r ← mappages new i PGSIZE pa flags;
    if negb (r =? 0) then
      uvmunmap new 0 (i / PGSIZE) true;;
      mret (Done (-1))
    else
    add_kmem_ref pa;;
    mret (Next (u64 (i + PGSIZE)))) 0.

Definition uvmclear (pagetable va : Z) : MM unit :=
  pte ← walk pagetable va false;
  if pte =? 0 then panic "uvmclear" else
  v ← get_pte pte;
  set_pte pte (Z.land v (Z.lnot PTE_U)).

(** ** Copying between kernel and user *)

(** The copy-on-write part of [copyout]: [None] when the page can be written,
    [Some (-1)] when [copyout] returns -1 there. *)
Definition copyout_cow (pagetable va0 pte : Z) : MM (option Z) :=
  v ← get_pte pte;
  let pa0 := PTE2PA v in
  if negb (negb (has v PTE_W) && has v PTE_RSW) then mret None else
  acquire_ref_lock;;
  ref ← get_kmem_ref pa0;
  if ref =? 1 then
    set_pte pte (Z.land (Z.lor v PTE_W) (Z.lnot PTE_RSW));;
    release_ref_lock;;
    mret None
  else
  m ← kalloc;
  if m =? 0 then release_ref_lock;; mret (Some (-1)) else
  modify_mem (fun mm => memmove mm m pa0 PGSIZE);;
  v ← get_pte pte;
  let new_flags := Z.land (Z.lor (PTE_FLAGS v) PTE_RSW) (Z.lnot PTE_W) in
  r ← mappages pagetable va0 PGSIZE m new_flags;
  if negb (r =? 0) then
    kfree m;;
    release_ref_lock;;
    mret (Some (-1))
  else
  kfree pa0;;
  release_ref_lock;;
  mret None.

Definition copyout (pagetable dstva : Z) (src : list Z) (len : Z) : MM Z :=
  loop (fun '(dstva, src, len) =>
    if negb (0 <? len) then mret (Done 0) else
    let va0 := PGROUNDDOWN dstva in
    if MAXVA <=? va0 then mret (Done (-1)) else
    pte ← walk pagetable va0 false;
    if pte =? 0 then mret (Done (-1)) else
    v ← get_pte pte;
    if negb (has v PTE_V) || negb (has v PTE_U) then mret (Done (-1)) else
    r ← copyout_cow pagetable va0 pte;
    match r with
    | Some e => mret (Done e)
    | None =>
        pa0 ← walkaddr pagetable va0;
        if pa0 =? 0 then mret (Done (-1)) else
        let n := PGSIZE - (dstva - va0) in
        let n := if len <? n then len else n in
        modify_mem (fun m => wr_bytes m (pa0 + (dstva - va0)) (take (Z.to_nat n) src));;
        mret (Next (u64 (va0 + PGSIZE), drop (Z.to_nat n) src, len - n))
    end) (dstva, src, len).

(** The result is the C result with the bytes written to [dst] so far. *)
Definition copyin (pagetable srcva len : Z) : MM (Z * list Z) :=
  loop (fun '(dst, srcva, len) =>
    if negb (0 <? len) then mret (Done (0, dst)) else
    let va0 := PGROUNDDOWN srcva in
    pa0 ← walkaddr pagetable va0;
    if pa0 =? 0 then mret (Done (-1, dst)) else
    let n := PGSIZE - (srcva - va0) in
    let n := if len <? n then len else n in
    bs ← gets (fun s => rd_bytes (mem s) (pa0 + (srcva - va0)) (Z.to_nat n));
    mret (Next (dst ++ bs, u64 (va0 + PGSIZE), len - n))) ([], srcva, len).

(** The inner loop of [copyinstr]: the bytes stored to [dst], whether a NUL
    was found, and how many bytes were counted off [n] and [max]. *)
Fixpoint copyinstr_page (m : memory) (p : Z) (n : nat) (dst : list Z) : list Z * bool * Z :=
  match n with
  | O => (dst, false, 0)
  | S n' =>
      if m p =? 0 then (dst ++ [0], true, 0)
      else
        let '(dst', got_null, k) := copyinstr_page m (p + 1) n' (dst ++ [m p]) in
        (dst', got_null, k + 1)
  end.

Definition copyinstr (pagetable srcva max : Z) : MM (Z * list Z) :=
  loop (fun '(dst, srcva, max, got_null) =>
    if negb (negb got_null && (0 <? max)) then
      mret (Done (if (got_null : bool) then (0, dst) else (-1, dst)))
    else
    let va0 := PGROUNDDOWN srcva in
    pa0 ← walkaddr pagetable va0;
    if pa0 =? 0 then mret (Done (-1, dst)) else
    let n := PGSIZE - (srcva - va0) in
    let n := if max <? n then max else n in
    '(dst, got_null, k) ←
      gets (fun s => copyinstr_page (mem s) (pa0 + (srcva - va0)) (Z.to_nat n) dst);
    mret (Next (dst, u64 (va0 + PGSIZE), max - k, got_null))) ([], srcva, max, false).

End code.

#[global] Arguments pte_addr : simpl never.
