(* ===== verification/PageTable.v ===== *)
(** * Page tables in memory

    What the three-level tables of [vm.c] mean, and the invariant under which
    [walk], [mappages] and the others can be understood as updates of a map
    from (page table, page number) to entries: every physical page has one
    role, a valid entry of a higher-level table points to a table one level
    down, and no two entries point to the same table. *)

From S2P Require Import Prelude Riscv Spinlock Str Kalloc Vm.

(** ** Translation *)

(** Entry [i] of the table at [q]. *)
Definition entry (m : memory) (q i : Z) : Z := load64 m (q + 8 * i).

(** The address of the leaf entry for [va] under the table [q] of level [lv],
    when the tables on the way exist. *)
Fixpoint path (m : memory) (lv : nat) (q va : Z) : option Z :=
  match lv with
  | O => Some (pte_addr q 0 va)
  | S lv' =>
      let e := entry m q (PX (Z.of_nat lv) va) in
      if has e PTE_V then path m lv' (PTE2PA e) va else None
  end.

Definition leaf_addr (m : memory) (root va : Z) : option Z := path m 2 root va.

(** The leaf entry for [va]; 0, an invalid entry, when there is none. *)
Definition pte_at (m : memory) (root va : Z) : Z :=
  match leaf_addr m root va with
  | Some a => load64 m a
  | None => 0
  end.

(** ** Roles of physical pages *)

Inductive role : Type :=
| RNone                     (* not managed by the allocator *)
| RFree                     (* on the free list *)
| RPT (k : bool) (l : nat)  (* a table at level l; k: of the kernel *)
| RData                     (* user memory *)
| RKern.                    (* other kernel memory: trapframes, stacks, pipes *)

#[global] Instance role_eq_dec : EqDecision role.
Proof. solve_decision. Defined.

Record pt_wf (ρ : Z -> role) (m : memory) : Prop := {
  pw_lv : forall q k l, ρ q = RPT k l -> (l <= 2)%nat;
  (* MAXVA is half of what three levels could map *)
  pw_half : forall q k i, ρ q = RPT k 2 -> 256 <= i < 512 -> has (entry m q i) PTE_V = false;
  pw_child : forall q k l i, ρ q = RPT k (S l) -> 0 <= i < 512 ->
    has (entry m q i) PTE_V = true ->
    ρ (PTE2PA (entry m q i)) = RPT k l /\
    entry m q i = Z.lor (PA2PTE (PTE2PA (entry m q i))) PTE_V;
  pw_inj : forall q k l i q' k' l' i', ρ q = RPT k (S l) -> ρ q' = RPT k' (S l') ->
    0 <= i < 512 -> 0 <= i' < 512 ->
    has (entry m q i) PTE_V = true -> has (entry m q' i') PTE_V = true ->
    PTE2PA (entry m q i) = PTE2PA (entry m q' i') -> q = q' /\ i = i'
}.

Section inv.
Context {H : Type} {SP : Spin H} {LY : Layout}.

(** The invariant of the tables: free list, roles, tables and their counts. *)
Record tinv (ρ : Z -> role) (l : list Z) (s : mstate H) : Prop := {
  ti_free : free_inv s l;
  ti_role_free : forall p, ρ p = RFree <-> p ∈ l;
  ti_managed : forall p, ρ p <> RNone -> managed p;
  ti_pt : pt_wf ρ (mem s);
  ti_one : forall p, (exists k lv, ρ p = RPT k lv) \/ ρ p = RKern ->
    ref_count s (INDEX p) = 1
}.

End inv.

(** Memory whose role is not a table and not free: what table operations
    must leave alone. *)
Definition solid (r : role) : bool :=
  match r with RNone | RData | RKern => true | _ => false end.

(** Growing the tables, from the roles [ρ] and state [s] to [ρ'] and [s']:
    only free pages become tables of kind [k]; translations, existing table
    entries, other memory and its reference counts stay. *)
Record ext {H : Type} {LY : Layout} (k : bool) (ρ : Z -> role) (s : mstate H)
    (ρ' : Z -> role) (s' : mstate H) : Prop := {
  ex_grows : forall p, ρ' p = ρ p \/ (ρ p = RFree /\ exists l, (l < 2)%nat /\ ρ' p = RPT k l);
  ex_maps : forall k r va, ρ r = RPT k 2 -> pte_at (mem s') r va = pte_at (mem s) r va;
  ex_entries : forall q k l i, ρ q = RPT k (S l) -> 0 <= i < 512 ->
    has (entry (mem s) q i) PTE_V = true -> entry (mem s') q i = entry (mem s) q i;
  ex_new : forall q l i, ρ' q = RPT k (S l) -> 0 <= i < 512 -> has (entry (mem s') q i) PTE_V = true ->
    ρ (PTE2PA (entry (mem s') q i)) = RFree \/ (ρ q = RPT k (S l) /\ has (entry (mem s) q i) PTE_V = true);
  ex_keeps : forall x, solid (ρ (PGROUNDDOWN x)) = true -> mem s' x = mem s x;
  ex_refs : forall p, ρ p <> RFree -> ρ p <> RNone ->
    ref_count s' (INDEX p) = ref_count s (INDEX p)
}.

#[global] Arguments entry : simpl never.

(** ** Facts about entries *)

Lemma V_testbit x : has x PTE_V = Z.testbit x 0.
Proof. by apply has_testbit. Qed.

Lemma has_0 f : has 0 f = false.
Proof. unfold has. by rewrite Z.land_0_l. Qed.

Lemma path_vpn m lv q va va' : vpn va = vpn va' -> path m lv q va = path m lv q va'.
Proof.
  intros E. revert q. induction lv as [|lv IH]; intros q; simpl.
  - unfold pte_addr. by rewrite (PX_vpn 0 va va').
  - rewrite (PX_vpn (Z.of_nat (S lv)) va va') by (lia || done). case_match; auto.
Qed.

Lemma pte_at_vpn m r va va' : vpn va = vpn va' -> pte_at m r va = pte_at m r va'.
Proof. intros E. unfold pte_at, leaf_addr. by rewrite (path_vpn _ _ _ _ _ E). Qed.

(** The entry [PA2PTE(p) | PTE_V] for a table. *)
Lemma table_entry p :
  aligned p -> 0 <= p < 2 ^ 56 ->
  let e := Z.lor (PA2PTE p) PTE_V in
  u64 e = e /\ has e PTE_V = true /\ PTE2PA e = p.
Proof.
  intros Hal Hp e. assert (e = mkpte p 0) as -> by (unfold e, mkpte; by rewrite Z.lor_0_r).
  split; [by apply mkpte_u64|]. split; [|by apply PTE2PA_mkpte].
  rewrite V_testbit, mkpte_flag by done. done.
Qed.

Lemma entry_same_except p q i m m' :
  aligned p -> aligned q -> p <> q -> 0 <= i < 512 ->
  same_except p m m' -> entry m' q i = entry m q i.
Proof.
  intros Hp Hq Hne Hi Hs. eapply same_except_load64; [done|].
  destruct (aligned_disjoint p q); auto; pages; lia.
Qed.

Lemma entry_store_ne m q i q' i' v :
  aligned q -> aligned q' -> 0 <= i < 512 -> 0 <= i' < 512 -> q <> q' \/ i <> i' ->
  entry (store64 m (q + 8 * i) v) q' i' = entry m q' i'.
Proof.
  intros Hq Hq' Hi Hi' Hne. apply load64_store64_ne.
  destruct (decide (q = q')) as [->|]; [lia|].
  destruct (aligned_disjoint q q'); auto; pages; lia.
Qed.

Lemma entry_store m q i v : entry (store64 m (q + 8 * i) v) q i = u64 v.
Proof. apply load64_store64. Qed.

(** ** Changes of memory and the tables *)

Section tables.
Context (ρ : Z -> role) (m : memory).
Context (Hal : forall p, ρ p <> RNone -> aligned p) (Hwf : pt_wf ρ m).

Lemma role_aligned q r : ρ q = r -> r <> RNone -> aligned q.
Proof. intros E ?. apply Hal. congruence. Qed.

(** The same table entries: the same tables and translations. *)
Lemma path_frame m' k lv : forall q va,
  (forall q k l i, ρ q = RPT k l -> 0 <= i < 512 -> entry m' q i = entry m q i) ->
  ρ q = RPT k lv -> path m' lv q va = path m lv q va.
Proof.
  induction lv as [|lv IH]; intros q va He Hq; cbn [path]; [done|].
  rewrite (He q k (S lv)) by (done || apply PX_range; lia).
  destruct (has _ PTE_V) eqn:E; [|done]. apply IH; [done|].
  eapply pw_child; eauto. apply PX_range; lia.
Qed.

Lemma path_table k lv : forall q va a,
  ρ q = RPT k lv -> path m lv q va = Some a ->
  exists q0, ρ q0 = RPT k 0 /\ a = q0 + 8 * PX 0 va.
Proof.
  induction lv as [|lv IH]; intros q va a Hq Hp; cbn [path] in Hp.
  - injection Hp as <-. by exists q.
  - destruct (has _ PTE_V) eqn:E; [|done]. eapply IH; [|done].
    eapply pw_child; eauto. apply PX_range; lia.
Qed.

Lemma pte_at_frame m' :
  (forall q k l i, ρ q = RPT k l -> 0 <= i < 512 -> entry m' q i = entry m q i) ->
  forall k r va, ρ r = RPT k 2 -> pte_at m' r va = pte_at m r va.
Proof.
  intros He k r va Hr. unfold pte_at, leaf_addr. rewrite (path_frame m' k) by done.
  destruct (path m 2 r va) as [a|] eqn:E; [|done].
  destruct (path_table _ _ _ _ _ Hr E) as (q0 & Hq0 & ->).
  apply (He q0 k 0%nat); [done|]. apply PX_range. lia.
Qed.

Lemma pt_wf_frame m' :
  (forall q k l i, ρ q = RPT k (S l) -> 0 <= i < 512 -> entry m' q i = entry m q i) ->
  pt_wf ρ m'.
Proof.
  intros He. destruct Hwf as [Hlv Hh Hc Hi]. split; [done| | |].
  - intros q k i Hq ?. rewrite (He q k 1%nat i) by (done || lia). by eapply Hh.
  - intros q k l i Hq ?. rewrite !(He q k l i) by done. by apply Hc.
  - intros q k l i q' k' l' i' Hq Hq' ? ?. rewrite (He q k l i), (He q' k' l' i') by done.
    by apply (Hi q k l i q' k' l' i').
Qed.

(** Writing the entry of a lowest-level table. *)
Lemma pt_wf_leaf q k i v :
  ρ q = RPT k 0 -> 0 <= i < 512 -> pt_wf ρ (store64 m (q + 8 * i) v).
Proof.
  intros Hq Hi. apply pt_wf_frame. intros q' k' l i' Hq' ?.
  apply entry_store_ne; try done.
  - eapply role_aligned; eauto.
  - eapply role_aligned; eauto.
  - left. congruence.
Qed.

Lemma path_leaf q k i v lv : forall q' k' va,
  ρ q = RPT k 0 -> 0 <= i < 512 -> ρ q' = RPT k' lv ->
  path (store64 m (q + 8 * i) v) lv q' va = path m lv q' va.
Proof.
  induction lv as [|lv IH]; intros q' k' va Hq Hi Hq'; cbn [path]; [done|].
  assert (entry (store64 m (q + 8 * i) v) q' (PX (Z.of_nat (S lv)) va) =
          entry m q' (PX (Z.of_nat (S lv)) va)) as ->.
  { apply entry_store_ne; try done; [eapply role_aligned; eauto..|apply PX_range; lia|].
    left. congruence. }
  destruct (has _ PTE_V) eqn:E; [|done]. apply (IH _ k'); [done|done|].
  eapply pw_child; eauto. apply PX_range; lia.
Qed.

(** Two translations that end at the same entry are the same. *)
Lemma path_inj k k' lv : forall q q' va va' a,
  ρ q = RPT k lv -> ρ q' = RPT k' lv ->
  path m lv q va = Some a -> path m lv q' va' = Some a ->
  q = q' /\ forall l, 0 <= l <= Z.of_nat lv -> PX l va = PX l va'.
Proof.
  induction lv as [|lv IH]; intros q q' va va' a Hq Hq' Hp Hp'; cbn [path] in *.
  - injection Hp as <-. injection Hp' as Hp'. unfold pte_addr in Hp'.
    assert (aligned q) by (eapply role_aligned; eauto).
    assert (aligned q') by (eapply role_aligned; eauto).
    pose proof (PX_range 0 va). pose proof (PX_range 0 va').
    assert (q = q') as ->.
    { destruct (decide (q = q')); [done|].
      destruct (aligned_disjoint q q'); auto; pages; lia. }
    split; [done|]. intros l ?. replace l with 0 by lia. lia.
  - set (i := PX (Z.of_nat (S lv)) va) in *. set (i' := PX (Z.of_nat (S lv)) va') in *.
    destruct (has (entry m q i) PTE_V) eqn:E; [|done].
    destruct (has (entry m q' i') PTE_V) eqn:E'; [|done].
    assert (0 <= i < 512) by (apply PX_range; lia).
    assert (0 <= i' < 512) by (apply PX_range; lia).
    destruct (IH (PTE2PA (entry m q i)) (PTE2PA (entry m q' i')) va va' a) as [Heq HPX];
      try done; [eapply pw_child; eauto..|].
    destruct (pw_inj _ _ Hwf q k lv i q' k' lv i') as [-> Hii]; try done.
    split; [done|]. intros l Hl. destruct (decide (l = Z.of_nat (S lv))) as [->|]; [done|].
    apply HPX. lia.
Qed.

Lemma leaf_inj k k' r r' va va' a :
  ρ r = RPT k 2 -> ρ r' = RPT k' 2 -> 0 <= va < MAXVA -> 0 <= va' < MAXVA ->
  leaf_addr m r va = Some a -> leaf_addr m r' va' = Some a ->
  r = r' /\ vpn va = vpn va'.
Proof.
  intros Hr Hr' ? ? Hl Hl'. destruct (path_inj k k' 2 r r' va va' a) as [-> HPX]; try done.
  split; [done|]. apply PX_inj; [done|done|apply HPX; lia..].
Qed.

(** A write to a leaf entry changes exactly one translation. *)
Lemma pte_at_leaf k k' r r' va va' a v :
  ρ r = RPT k 2 -> ρ r' = RPT k' 2 -> 0 <= va < MAXVA -> 0 <= va' < MAXVA ->
  leaf_addr m r va = Some a ->
  pte_at (store64 m a v) r' va' =
    if decide (r' = r /\ vpn va' = vpn va) then u64 v else pte_at m r' va'.
Proof.
  intros Hr Hr' Hva Hva' Hl. destruct (path_table _ _ _ _ _ Hr Hl) as (q & Hq & ->).
  unfold pte_at. unfold leaf_addr at 1. rewrite (path_leaf q k _ v 2 r' k') by (done || apply PX_range; lia).
  fold (leaf_addr m r' va'). case_decide as Hd.
  - destruct Hd as [-> Hd]. unfold leaf_addr in *. rewrite (path_vpn _ _ _ _ va) by done.
    rewrite Hl. apply load64_store64.
  - destruct (leaf_addr m r' va') as [a'|] eqn:E; [|done].
    destruct (path_table _ _ _ _ _ Hr' E) as (q' & Hq' & ->).
    apply entry_store_ne; [eapply role_aligned; eauto|eapply role_aligned; eauto|
      apply PX_range; lia|apply PX_range; lia|].
    destruct (decide (q = q')) as [->|]; [|by left]. right. intros Heq.
    apply Hd. rewrite Heq in Hl.
    destruct (leaf_inj k k' r r' va va' (q' + 8 * PX 0 va')) as [-> ?]; try done.
Qed.

End tables.

(** ** Adding a table *)

Section add_table.
Context (ρ : Z -> role) (m m1 : memory) (k : bool) (l : nat) (q i p : Z).
Context (Hal : forall p, ρ p <> RNone -> aligned p) (Hwf : pt_wf ρ m).
Context (Hq : ρ q = RPT k (S l)) (Hi : 0 <= i < 512) (Hlv : (S l <= 2)%nat).
Context (Hhalf : l = 1%nat -> i < 256).
Context (Hinv : has (entry m q i) PTE_V = false).
Context (Hp : ρ p = RFree) (Hpb : 0 <= p < 2 ^ 56).
Context (Hse : same_except p m m1) (Hz : forall x, p <= x < p + PGSIZE -> m1 x = 0).

Let e := Z.lor (PA2PTE p) PTE_V.
Let m' := store64 m1 (q + 8 * i) e.
Let ρ' := <[p := RPT k l]> ρ.

Lemma add_al_p : aligned p.
Proof. apply Hal. congruence. Qed.

Lemma add_entry_new : entry m' q i = e.
Proof. unfold m'. rewrite entry_store. by apply table_entry; [apply add_al_p|]. Qed.

Lemma add_entry_zero j : 0 <= j < 512 -> entry m' p j = 0.
Proof.
  intros Hj. unfold m'. rewrite entry_store_ne; [|apply Hal; congruence|apply add_al_p|done|done|].
  2:{ left. intros ->. congruence. }
  apply load64_zero. intros x ?. apply Hz. pages. lia.
Qed.

Lemma add_entry_old q' j :
  ρ q' <> RNone -> q' <> p -> 0 <= j < 512 -> q <> q' \/ i <> j ->
  entry m' q' j = entry m q' j.
Proof.
  intros Hr Hne Hj Hd. unfold m'.
  rewrite entry_store_ne by (done || apply Hal; congruence).
  eapply entry_same_except; [apply add_al_p|by apply Hal|done|done|done].
Qed.

Lemma add_role_old q' r : ρ q' = r -> r <> RFree -> q' <> p /\ ρ' q' = r.
Proof.
  intros Hr Hf. assert (q' <> p) by (intros ->; congruence).
  split; [done|]. unfold ρ'. by rewrite fn_lookup_insert_ne.
Qed.

Lemma add_role_new : ρ' p = RPT k l.
Proof. apply fn_lookup_insert. Qed.

(** A table of the new roles is the new one or an old one. *)
Lemma add_role_inv q' k' l' :
  ρ' q' = RPT k' (S l') -> q' = p \/ (q' <> p /\ ρ q' = RPT k' (S l')).
Proof.
  unfold ρ'. rewrite fn_insert_spec. case_decide; [by left|]. right. split; congruence.
Qed.

Lemma add_valid q' k' l' j :
  ρ' q' = RPT k' (S l') -> 0 <= j < 512 -> has (entry m' q' j) PTE_V = true ->
  (q' = q /\ j = i /\ k' = k /\ l' = l /\ entry m' q' j = e) \/
  (ρ q' = RPT k' (S l') /\ entry m' q' j = entry m q' j /\ PTE2PA (entry m q' j) <> p).
Proof.
  intros Hr Hj Hv. destruct (add_role_inv _ _ _ Hr) as [->|[Hne Hr']].
  { rewrite add_entry_zero, has_0 in Hv; done. }
  destruct (decide (q = q' /\ i = j)) as [[<- <-]|Hd].
  { left. rewrite Hq in Hr'. injection Hr' as -> ->. by rewrite add_entry_new. }
  assert (entry m' q' j = entry m q' j) as He.
  { apply add_entry_old; try done; [congruence|]. destruct (decide (q = q')); [|by left].
    right. intros ->. by apply Hd. }
  right. split; [done|]. split; [done|]. rewrite He in Hv. intros Hp'.
  destruct (pw_child _ _ Hwf q' k' l' j) as [Hc _]; try done. congruence.
Qed.

Lemma add_table_wf : pt_wf ρ' m'.
Proof.
  destruct (table_entry p add_al_p Hpb) as (Hu & Hv & Hpa). fold e in Hu, Hv, Hpa.
  split.
  - intros q' k' l'. unfold ρ'. rewrite fn_insert_spec. case_decide.
    + intros [= _ <-]. lia.
    + apply (pw_lv _ _ Hwf).
  - intros q' k' j Hr Hj. destruct (has (entry m' q' j) PTE_V) eqn:Hv'; [|done].
    assert (0 <= j < 512) as Hj' by lia.
    destruct (add_valid _ _ _ _ Hr Hj' Hv') as [(-> & -> & _ & <- & _)|(Hr' & He & _)]; [lia|].
    rewrite <-Hv', He. eapply (pw_half _ _ Hwf); [|done]. done.
  - intros q' k' l' j Hr Hj Hv'.
    destruct (add_valid _ _ _ _ Hr Hj Hv') as [(-> & -> & -> & -> & He)|(Hr' & He & Hne)].
    + rewrite He, Hpa. split; [apply add_role_new|done].
    + rewrite He in *. destruct (pw_child _ _ Hwf q' k' l' j) as [Hc Hc']; try done.
      split; [|done]. by apply add_role_old.
  - intros q1 k1 l1 i1 q2 k2 l2 i2 Hr1 Hr2 Hi1 Hi2 Hv1 Hv2 Heq.
    destruct (add_valid _ _ _ _ Hr1 Hi1 Hv1) as [(-> & -> & _ & _ & He1)|(Hr1' & He1 & Hne1)],
      (add_valid _ _ _ _ Hr2 Hi2 Hv2) as [(-> & -> & _ & _ & He2)|(Hr2' & He2 & Hne2)];
      rewrite ?He1, ?He2, ?Hpa in *; try done; try congruence.
    by apply (pw_inj _ _ Hwf q1 k1 l1 i1 q2 k2 l2 i2).
Qed.

Lemma add_table_entries q' k' l' j :
  ρ q' = RPT k' (S l') -> 0 <= j < 512 -> has (entry m q' j) PTE_V = true ->
  entry m' q' j = entry m q' j.
Proof.
  intros Hr Hj Hv. apply add_entry_old; try done; [congruence|intros ->; congruence|].
  destruct (decide (q = q')) as [->|]; [|by left]. right. congruence.
Qed.

(** The new table maps nothing, so no translation changes. *)
Lemma add_table_path lv : forall q' k' va,
  ρ q' = RPT k' lv ->
  match path m' lv q' va with Some a => load64 m' a | None => 0 end =
  match path m lv q' va with Some a => load64 m a | None => 0 end.
Proof.
  destruct (table_entry p add_al_p Hpb) as (Hu & Hv & Hpa). fold e in Hu, Hv, Hpa.
  induction lv as [|lv IH]; intros q' k' va Hr; cbn [path].
  - apply add_entry_old; [congruence|intros ->; congruence|apply PX_range; lia|].
    left. intros ->. congruence.
  - set (j := PX (Z.of_nat (S lv)) va). assert (0 <= j < 512) by (apply PX_range; lia).
    destruct (decide (q = q' /\ i = j)) as [[<- <-]|Hd].
    + rewrite Hinv, add_entry_new, Hv, Hpa. destruct lv as [|lv]; cbn [path].
      * apply add_entry_zero. apply PX_range. lia.
      * rewrite add_entry_zero, has_0; [done|]. apply PX_range. lia.
    + rewrite (add_entry_old q' j); [|congruence|intros ->; congruence|done|].
      2:{ destruct (decide (q = q')); [|by left]. right. intros ->. by apply Hd. }
      destruct (has (entry m q' j) PTE_V) eqn:E; [|done]. apply (IH _ k').
      eapply pw_child; eauto.
Qed.

Lemma add_table_maps k' r va : ρ r = RPT k' 2 -> pte_at m' r va = pte_at m r va.
Proof. apply add_table_path. Qed.

Lemma add_table_keeps x : solid (ρ (PGROUNDDOWN x)) = true -> m' x = m x.
Proof.
  intros Hs. assert (aligned q) by (apply Hal; congruence). pose proof add_al_p.
  pose proof (PGROUNDDOWN_bounds x).
  assert (PGROUNDDOWN x <> p) by (intros E; rewrite E, Hp in Hs; done).
  assert (PGROUNDDOWN x <> q) by (intros E; rewrite E, Hq in Hs; done).
  pose proof (PGROUNDDOWN_is_aligned x) as Hax.
  unfold m'. rewrite store64_out.
  - apply Hse. destruct (aligned_disjoint p (PGROUNDDOWN x)); auto; pages; lia.
  - destruct (aligned_disjoint q (PGROUNDDOWN x)); auto; pages; lia.
Qed.

End add_table.

(** ** The tables below a table *)

(** The tables reached from entries [0 .. j) of the table [q], given the
    tables [tr] below each. *)
Definition kids (m : memory) (tr : Z -> list Z) (q j : Z) : list Z :=
  seqZ 0 j ≫= fun i => if has (entry m q i) PTE_V then tr (PTE2PA (entry m q i)) else [].

Fixpoint tree (m : memory) (lv : nat) (q : Z) : list Z :=
  match lv with
  | O => [q]
  | S lv' => q :: kids m (tree m lv') q 512
  end.

(** Every entry is what [freewalk] expects: a pointer to a table above level
    0, and nothing valid at level 0. *)
Fixpoint bare (m : memory) (lv : nat) (q : Z) : Prop :=
  match lv with
  | O => forall i, 0 <= i < 512 -> has (entry m q i) PTE_V = false
  | S lv' => forall i, 0 <= i < 512 -> has (entry m q i) PTE_V = true ->
      Z.land (entry m q i) (Z.lor PTE_R (Z.lor PTE_W PTE_X)) = 0 /\ bare m lv' (PTE2PA (entry m q i))
  end.

Lemma elem_of_kids m tr q j p :
  p ∈ kids m tr q j <-> exists i, 0 <= i < j /\ has (entry m q i) PTE_V = true /\ p ∈ tr (PTE2PA (entry m q i)).
Proof.
  unfold kids. rewrite list_elem_of_bind. split.
  - intros (i & Hp & Hi%elem_of_seqZ). exists i. destruct (has _ _); [split; [lia|done]|by apply elem_of_nil in Hp].
  - intros (i & Hi & HV & Hp). exists i. rewrite HV. split; [done|]. apply elem_of_seqZ. lia.
Qed.

Lemma kids_S m tr q j : 0 <= j ->
  kids m tr q (j + 1) = kids m tr q j ++ (if has (entry m q j) PTE_V then tr (PTE2PA (entry m q j)) else []).
Proof.
  intros Hj. unfold kids. rewrite seqZ_app by lia. rewrite bind_app. f_equal.
  rewrite Z.add_0_l. change (seqZ j 1) with [0 + j]. by rewrite Z.add_0_l, bind_cons, app_nil_r.
Qed.

Lemma kids_prefix m tr q j : 0 <= j <= 512 ->
  exists rest, kids m tr q 512 = kids m tr q j ++ rest.
Proof.
  intros Hj. unfold kids. replace 512 with (j + (512 - j)) by lia. rewrite seqZ_app by lia.
  rewrite bind_app. eauto.
Qed.

Lemma tree_here m lv q : q ∈ tree m lv q.
Proof. destruct lv; simpl; apply list_elem_of_here. Qed.

Lemma tree_zero m lv q : (forall i, 0 <= i < 512 -> entry m q i = 0) -> tree m (S lv) q = [q].
Proof.
  intros Hz. simpl. f_equal. destruct (kids m (tree m lv) q 512) as [|p ps] eqn:E; [done|].
  assert (p ∈ kids m (tree m lv) q 512) as (i & Hi & HV & _)%elem_of_kids by (rewrite E; by left).
  by rewrite Hz, has_0 in HV.
Qed.

(** The tables and their contents depend only on their own pages. *)
Lemma tree_frame m m' lv : forall q,
  (forall p i, p ∈ tree m lv q -> 0 <= i < 512 -> entry m' p i = entry m p i) ->
  tree m' lv q = tree m lv q /\ (bare m lv q -> bare m' lv q).
Proof.
  induction lv as [|lv IH]; intros q He; simpl.
  { split; [done|]. intros Hb i Hi. rewrite He; [by apply Hb|apply list_elem_of_here|done]. }
  assert (forall i, 0 <= i < 512 -> entry m' q i = entry m q i) as Hq.
  { intros i Hi. apply He; [apply list_elem_of_here|done]. }
  assert (forall i, 0 <= i < 512 -> has (entry m q i) PTE_V = true ->
    tree m' lv (PTE2PA (entry m q i)) = tree m lv (PTE2PA (entry m q i)) /\
    (bare m lv (PTE2PA (entry m q i)) -> bare m' lv (PTE2PA (entry m q i)))) as Hsub.
  { intros i Hi HV. apply IH. intros p j Hp Hj. apply He; [|done]. right. apply elem_of_kids. eauto. }
  split.
  - f_equal. apply bind_ext_in. intros i Hi%elem_of_seqZ. rewrite Hq by lia.
    destruct (has _ PTE_V) eqn:E; [|done]. apply Hsub; [lia|done].
  - intros Hb i Hi. rewrite Hq by done. intros HV. destruct (Hb i Hi HV) as [? ?].
    split; [done|]. by apply Hsub.
Qed.

(** ** Trees of well-formed tables *)

Section tree_wf.
Context (ρ : Z -> role) (m : memory) (Hwf : pt_wf ρ m).

Lemma tree_role k lv : forall q p,
  ρ q = RPT k lv -> p ∈ tree m lv q -> exists lv', (lv' <= lv)%nat /\ ρ p = RPT k lv' /\ (lv' = lv -> p = q).
Proof.
  induction lv as [|lv IH]; intros q p Hq; simpl.
  { intros ->%list_elem_of_singleton. exists 0%nat. auto. }
  intros [->|(i & Hi & HV & Hp)%elem_of_kids]%elem_of_cons; [eauto|].
  destruct (pw_child _ _ Hwf q k lv i) as [Hc _]; try done.
  destruct (IH _ _ Hc Hp) as (lv' & ? & ? & ?). exists lv'. split_and!; [lia|done|lia].
Qed.

(** A table is below at most one table of each level. *)
Lemma tree_unique k k' lv : forall q q' p,
  ρ q = RPT k lv -> ρ q' = RPT k' lv -> p ∈ tree m lv q -> p ∈ tree m lv q' -> q = q'.
Proof.
  induction lv as [|lv IH]; intros q q' p Hq Hq' Hp Hp'.
  { simpl in *. apply list_elem_of_singleton in Hp, Hp'. congruence. }
  destruct (tree_role _ _ _ _ Hq Hp) as (l1 & Hl1 & Hr1 & He1).
  destruct (tree_role _ _ _ _ Hq' Hp') as (l2 & Hl2 & Hr2 & He2).
  assert (l1 = l2) as <- by congruence.
  destruct (decide (l1 = S lv)) as [E|E]; [by rewrite <-(He1 E), <-(He2 E)|].
  simpl in Hp, Hp'. apply elem_of_cons in Hp as [->|(i & Hi & HV & Hp)%elem_of_kids]; [congruence|].
  apply elem_of_cons in Hp' as [->|(i' & Hi' & HV' & Hp')%elem_of_kids]; [congruence|].
  destruct (pw_child _ _ Hwf q k lv i) as [Hc _], (pw_child _ _ Hwf q' k' lv i') as [Hc' _]; try done.
  by destruct (pw_inj _ _ Hwf q k lv i q' k' lv i') as [-> _]; try done; apply (IH _ _ p).
Qed.

Lemma kids_nodup k lv q :
  ρ q = RPT k (S lv) -> (forall c, ρ c = RPT k lv -> NoDup (tree m lv c)) ->
  forall j, 0 <= j <= 512 -> NoDup (kids m (tree m lv) q j).
Proof.
  intros Hq IH j [Hj0 Hj]. revert Hj. pattern j. apply natlike_ind; [| |done].
  { intros _. constructor. }
  clear j Hj0. intros j Hj IHj Hle. rewrite <-Z.add_1_r, kids_S by done.
  destruct (has (entry m q j) PTE_V) eqn:HV; [|rewrite app_nil_r; apply IHj; lia].
  destruct (pw_child _ _ Hwf q k lv j) as [Hc _]; try done; [lia|].
  apply NoDup_app. split_and!; [apply IHj; lia| |by apply IH].
  intros p (i & Hi & HV' & Hp)%elem_of_kids Hp'.
  destruct (pw_child _ _ Hwf q k lv i) as [Hc' _]; try done; [lia|].
  pose proof (tree_unique _ _ _ _ _ _ Hc Hc' Hp' Hp) as E.
  destruct (pw_inj _ _ Hwf q k lv j q k lv i) as [_ ->]; try done; lia.
Qed.

Lemma tree_nodup k lv : forall q, ρ q = RPT k lv -> NoDup (tree m lv q).
Proof.
  induction lv as [|lv IH]; intros q Hq; simpl; [apply NoDup_singleton|].
  apply NoDup_cons. split; [|by apply (kids_nodup k)].
  intros (i & Hi & HV & Hp)%elem_of_kids.
  destruct (pw_child _ _ Hwf q k lv i) as [Hc _]; try done.
  destruct (tree_role _ _ _ _ Hc Hp) as (l' & ? & E & _). rewrite Hq in E. injection E. lia.
Qed.

(** The table that points into the tree is in the tree. *)
Lemma tree_parent k lv : forall q p x k' l' i,
  ρ q = RPT k lv -> p ∈ tree m lv q -> p <> q -> ρ x = RPT k' (S l') -> 0 <= i < 512 ->
  has (entry m x i) PTE_V = true -> PTE2PA (entry m x i) = p -> x ∈ tree m lv q.
Proof.
  induction lv as [|lv IH]; intros q p x k' l' i Hq Hp Hne Hx Hi HV E; simpl in *.
  { by apply list_elem_of_singleton in Hp. }
  apply elem_of_cons in Hp as [->|(j & Hj & HVj & Hp)%elem_of_kids]; [done|].
  destruct (pw_child _ _ Hwf q k lv j) as [Hc _]; try done.
  destruct (decide (p = PTE2PA (entry m q j))) as [->|Hpc].
  - destruct (pw_inj _ _ Hwf q k lv j x k' l' i) as [-> _]; try done. apply list_elem_of_here.
  - right. apply elem_of_kids. exists j. do 2 (split; [done|]). by eapply IH.
Qed.

End tree_wf.

(** What the tables below a table are depends on the entries of the tables
    above level 0 only. *)
Lemma tree_upper ρ m m' k (Hwf : pt_wf ρ m) lv : forall q,
  ρ q = RPT k lv -> (forall q' k' l' i, ρ q' = RPT k' (S l') -> 0 <= i < 512 -> entry m' q' i = entry m q' i) ->
  tree m' lv q = tree m lv q.
Proof.
  induction lv as [|lv IH]; intros q Hq He; simpl; [done|]. f_equal. apply bind_ext_in. intros i Hi%elem_of_seqZ.
  rewrite (He q k lv) by (done || lia). destruct (has _ PTE_V) eqn:HV; [|done]. apply IH; [|done].
  apply (pw_child _ _ Hwf); [done|lia|done].
Qed.

Lemma entry_page m m' p i : aligned p -> 0 <= i < 512 ->
  (forall x, PGROUNDDOWN x = p -> m' x = m x) -> entry m' p i = entry m p i.
Proof.
  intros Hal Hi Hx. apply load64_ext. intros x Hxb. apply Hx.
  rewrite PGROUNDDOWN_eq. pages. Z.div_mod_to_equations. lia.
Qed.

(** The roles of pages that are not tables do not matter. *)
Lemma pt_wf_role ρ m p x :
  pt_wf ρ m -> (forall k lv, ρ p <> RPT k lv) -> (forall k lv, x <> RPT k lv) -> pt_wf (<[p := x]> ρ) m.
Proof.
  intros [W0 Wh W1 W2] Hp Hx.
  assert (forall q k lv, <[p := x]> ρ q = RPT k lv -> ρ q = RPT k lv) as Hr.
  { intros q k lv. rewrite fn_insert_spec. case_decide; [by intros ?%Hx|done]. }
  split; eauto.
  intros q k lv i Hq Hi Hv. destruct (W1 q k lv i) as [Hc He]; [auto..|]. split; [|done].
  rewrite fn_insert_ne; [done|]. intros E. rewrite <-E in Hc. by apply Hp in Hc.
Qed.

(** ** Growing the tables *)

Section grow.
Context {H : Type} {SP : Spin H} {LY : Layout} {LO : LayoutOk}.
Implicit Types s : mstate H.

Lemma tinv_aligned ρ l s p : tinv ρ l s -> ρ p <> RNone -> aligned p.
Proof. intros Hi Hp. by apply (ti_managed _ _ _ Hi) in Hp as (? & _). Qed.

Lemma tinv_hart ρ l s (h' : H) :
  tinv ρ l s -> tinv ρ l (MState (mem s) (freelist s) (ref_count s) h').
Proof. intros [H1 H2 H3 H4 H5]. split; try done. by apply free_inv_hart. Qed.

Lemma ext_refl k ρ s h' : ext k ρ s ρ (MState (mem s) (freelist s) (ref_count s) h').
Proof. split; simpl; auto. Qed.

Lemma ext_role k ρ s ρ' s' p r :
  ext k ρ s ρ' s' -> ρ p = r -> r <> RFree -> ρ' p = r.
Proof. intros He Hr Hf. destruct (ex_grows _ _ _ _ _ He p) as [|[? _]]; congruence. Qed.

Lemma ext_trans k ρ1 s1 ρ2 s2 ρ3 s3 :
  ext k ρ1 s1 ρ2 s2 -> ext k ρ2 s2 ρ3 s3 -> ext k ρ1 s1 ρ3 s3.
Proof.
  intros E1 E2. pose proof (fun p r => ext_role _ _ _ _ _ p r E1) as Hr.
  destruct E1 as [A1 A2 A3 A6 A4 A5], E2 as [B1 B2 B3 B6 B4 B5]. split.
  - intros p. destruct (A1 p) as [E|(E & l' & L & E')], (B1 p) as [F|(F & l'' & L' & F')].
    + left. congruence.
    + right. split; [congruence|eauto].
    + right. split; [done|]. exists l'. split; [done|congruence].
    + congruence.
  - intros k' r va Hk. rewrite (B2 k'), (A2 k'); auto.
  - intros q k' l i Hq Hi Hv. rewrite (B3 q k' l i), (A3 q k' l i); auto.
    by rewrite (A3 q k' l i).
  - intros q l i Hq Hi Hv. destruct (B6 q l i Hq Hi Hv) as [Hf|[Hq2 Hv2]].
    + left. destruct (A1 (PTE2PA (entry (mem s3) q i))) as [<-|(_ & l' & _ & E)]; [done|congruence].
    + rewrite (B3 q k l i) by done. by apply A6.
  - intros x Hx. rewrite B4, A4; [done|done|].
    destruct (A1 (PGROUNDDOWN x)) as [->|[E _]]; [done|]. by rewrite E in Hx.
  - intros p Hf Hn. rewrite B5, A5; [done..| |]; by rewrite (Hr p (ρ1 p)).
Qed.

(** *** The trees of extended tables *)

Section tree_ext.
Context (k : bool) (ρ ρ' : Z -> role) (s s' : mstate H).
Context (Hwf : pt_wf ρ (mem s)) (Hwf' : pt_wf ρ' (mem s')) (He : ext k ρ s ρ' s').

Lemma tree_ext_mono lv : forall q p, ρ q = RPT k lv -> p ∈ tree (mem s) lv q -> p ∈ tree (mem s') lv q.
Proof.
  induction lv as [|lv IH]; intros q p Hq; simpl; [done|].
  intros [->|(i & Hi & HV & Hp)%elem_of_kids]%elem_of_cons; [by left|]. right. apply elem_of_kids.
  exists i. rewrite (ex_entries _ _ _ _ _ He q k lv i) by done. split; [done|]. split; [done|].
  apply IH; [|done]. by apply (pw_child _ _ Hwf).
Qed.

(** Below a new table there are new tables only. *)
Lemma tree_ext_new lv : forall q p, ρ' q = RPT k lv -> ρ q = RFree -> p ∈ tree (mem s') lv q -> ρ p = RFree.
Proof.
  induction lv as [|lv IH]; intros q p Hq Hf; simpl; [by intros ->%list_elem_of_singleton|].
  intros [->|(i & Hi & HV & Hp)%elem_of_kids]%elem_of_cons; [done|].
  destruct (ex_new _ _ _ _ _ He q lv i Hq Hi HV) as [Hc|[Hc _]]; [|congruence].
  eapply IH; [|exact Hc|exact Hp]. by apply (pw_child _ _ Hwf').
Qed.

Lemma tree_ext_inv lv : forall q p, ρ q = RPT k lv -> p ∈ tree (mem s') lv q -> p ∈ tree (mem s) lv q \/ ρ p = RFree.
Proof.
  induction lv as [|lv IH]; intros q p Hq; simpl; [by left|].
  intros [->|(i & Hi & HV & Hp)%elem_of_kids]%elem_of_cons; [left; by left|].
  assert (ρ' q = RPT k (S lv)) as Hq' by by eapply ext_role.
  destruct (ex_new _ _ _ _ _ He q lv i Hq' Hi HV) as [Hc|[_ HV0]].
  { right. eapply tree_ext_new; [|exact Hc|exact Hp]. by apply (pw_child _ _ Hwf'). }
  rewrite (ex_entries _ _ _ _ _ He q k lv i Hq Hi HV0) in Hp.
  destruct (IH _ p (proj1 (pw_child _ _ Hwf q k lv i Hq Hi HV0)) Hp) as [Ht|]; [|by right].
  left. right. apply elem_of_kids. eauto.
Qed.

End tree_ext.

(** One step of [walk] with a new table. *)
Lemma tinv_add_table ρ l l' s k lv q i p (h' : H) :
  tinv ρ l s -> l = p :: l' -> p ∉ l' ->
  free_inv (MState (memset (mem s) p 5 PGSIZE) (load64 (mem s) p)
      (<[INDEX p := 1]> (ref_count s)) h') l' ->
  ρ q = RPT k (S lv) -> 0 <= i < 512 -> (S lv <= 2)%nat ->
  (lv = 1%nat -> i < 256) -> has (entry (mem s) q i) PTE_V = false ->
  let m1 := memset (memset (mem s) p 5 PGSIZE) p 0 PGSIZE in
  let s' := MState (store64 m1 (q + 8 * i) (Z.lor (PA2PTE p) PTE_V)) (load64 (mem s) p)
      (<[INDEX p := 1]> (ref_count s)) h' in
  let ρ' := <[p := RPT k lv]> ρ in
  tinv ρ' l' s' /\ ext k ρ s ρ' s' /\ ρ' p = RPT k lv /\
  entry (mem s') q i = Z.lor (PA2PTE p) PTE_V.
Proof.
  intros Hi -> Hpl Hf Hq Hib Hlv Hhf Hv m1 s' ρ'.
  pose proof (fun x => tinv_aligned _ _ _ x Hi) as Hal.
  destruct Hi as [H1 H2 H3 H4 H5].
  assert (ρ p = RFree) as Hp by (apply H2; by left).
  assert (managed p) as Hm by (apply H3; congruence).
  assert (managed q) as Hmq by (apply H3; congruence).
  assert (p <> q) as Hpq by congruence.
  assert (q ∉ l') as Hql. { intros Hin. assert (ρ q = RFree) by (apply H2; by right). congruence. }
  pose proof (managed_nonzero p Hm) as Hpb.
  assert (same_except p (mem s) m1) as Hse.
  { eapply same_except_trans; apply same_except_memset. }
  assert (forall x, p <= x < p + PGSIZE -> m1 x = 0) as Hz.
  { intros x ?. unfold m1. rewrite memset_spec by done. by rewrite decide_True. }
  split; [split|split; [split|split]].
  - apply (free_inv_mem _ l' p m1 h') in Hf; [|done|done|apply same_except_memset].
    apply (free_inv_mem _ l' q _ h' Hf); [done|done|].
    apply same_except_store64; pages; lia.
  - intros x. unfold ρ'. rewrite fn_insert_spec. case_decide.
    + subst. split; [done|]. intros ?. by destruct Hpl.
    + rewrite H2, elem_of_cons. split; [by intros [->|]|by right].
  - intros x. unfold ρ'. rewrite fn_insert_spec. case_decide; [by subst|apply H3].
  - eapply add_table_wf; eauto; lia.
  - intros x. unfold ρ'. rewrite !fn_insert_spec. simpl. destruct (decide (p = x)) as [<-|Hne].
    { intros _. by rewrite fn_lookup_insert. }
    intros Hx. assert (ρ x <> RNone) by (destruct Hx as [(? & ? & ?)|?]; congruence).
    rewrite fn_lookup_insert_ne; [by apply H5|].
    intros E. apply INDEX_inj in E; [done|apply Hm|by apply Hal].
  - intros x. unfold ρ'. rewrite fn_insert_spec. case_decide; [|by left].
    subst. right. split; [done|]. exists lv. split; [lia|done].
  - intros k' r va Hr. eapply add_table_maps; eauto; lia.
  - intros q' k' l0 j Hr Hj Hv'. eapply add_table_entries; eauto.
  - intros q' l0 j Hr Hj Hv'. destruct (table_entry p) as (_ & _ & Hpa); [apply Hm|lia|].
    assert ((q' = q /\ j = i /\ k = k /\ l0 = lv /\ entry (mem s') q' j = Z.lor (PA2PTE p) PTE_V) \/
      (ρ q' = RPT k (S l0) /\ entry (mem s') q' j = entry (mem s) q' j /\ PTE2PA (entry (mem s) q' j) <> p))
      as [(_ & _ & _ & _ & E)|(Hr' & E & _)] by (eapply add_valid; eauto; lia).
    + left. by rewrite E, Hpa.
    + right. split; [done|]. by rewrite E in Hv'.
  - intros x Hx. eapply add_table_keeps; eauto.
  - intros x Hx Hxn. simpl. rewrite fn_lookup_insert_ne; [done|].
    intros E. apply INDEX_inj in E; [congruence|apply Hm|by apply Hal].
  - apply fn_lookup_insert.
  - eapply add_entry_new; eauto. lia.
Qed.

(** [walk] without allocation reads the tables. *)
Lemma walk_loop_read lv : forall q va n s,
  walk_loop lv q va false n s =
    Ret (match path (mem s) lv q va with Some a => a | None => 0 end) s.
Proof.
  induction lv as [|lv IH]; intros q va n s; cbn [walk_loop path]; [done|].
  unfold get_pte. munfold. cbn -[has PX path walk_loop].
  fold (entry (mem s) q (PX (Z.of_nat (S lv)) va)).
  unfold pte_addr. fold (entry (mem s) q (PX (Z.of_nat (S lv)) va)).
  destruct (has _ PTE_V); [apply IH|done].
Qed.

Lemma walk_read r va n s :
  va < MAXVA ->
  walk r va false n s =
    Ret (match leaf_addr (mem s) r va with Some a => a | None => 0 end) s.
Proof.
  intros Hva. unfold walk. destruct (Z.leb_spec MAXVA va); [lia|]. apply walk_loop_read.
Qed.

(** The pages that are not free any more are tables below [q]. *)
Definition hung (lv : nat) (q : Z) (ρ ρ' : Z -> role) (s' : mstate H) : Prop :=
  forall p, ρ p = RFree -> ρ' p <> RFree -> p ∈ tree (mem s') lv q.

Lemma hung_same lv q ρ s : hung lv q ρ ρ s.
Proof. by intros p H1 []. Qed.

(** [walk] with allocation: either the tables for [va] are there at the end,
    or memory has run out. *)
Lemma wp_walk_loop k va n hl lv : forall q s ρ l,
  (0 < n)%nat -> tinv ρ l s -> hrep (hart s) hl -> Lkmem ∉ hl ->
  ρ q = RPT k lv -> (lv <= 2)%nat -> 0 <= va < MAXVA ->
  wp (walk_loop lv q va true) n s (fun a s' =>
    exists ρ' l', tinv ρ' l' s' /\ ext k ρ s ρ' s' /\ hung lv q ρ ρ' s' /\ hrep (hart s') hl /\
      ((a = 0 /\ l' = [] /\ (length l < lv)%nat) \/
       (a <> 0 /\ path (mem s') lv q va = Some a /\ (length l <= length l' + lv)%nat))).
Proof.
  induction lv as [|lv IH]; intros q s ρ l Hn Hi Hr Hl Hq Hlv Hva; cbn [walk_loop].
  { wp_steps. exists ρ, l. split; [done|]. split; [destruct s; apply ext_refl|]. split; [apply hung_same|].
    split; [done|]. right. split; [|split; [done|lia]]. unfold pte_addr.
    assert (managed q) as Hm by (apply (ti_managed _ _ _ Hi); congruence).
    apply managed_nonzero in Hm. pose proof (PX_range 0 va). lia. }
  set (i := PX (Z.of_nat (S lv)) va). assert (0 <= i < 512) by (apply PX_range; lia).
  unfold get_pte. wp_steps. unfold pte_addr. fold i. fold (entry (mem s) q i).
  destruct (has (entry (mem s) q i) PTE_V) eqn:Hv.
  - eapply wp_mono; [apply (IH _ s ρ l); try done; [|lia]|].
    { eapply pw_child; eauto. apply Hi. }
    intros a s' (ρ' & l' & Hi' & He & Hu & Hr' & Ha). exists ρ', l'. do 2 (split; [done|]).
    assert (entry (mem s') q i = entry (mem s) q i) as Ee by by apply (ex_entries _ _ _ _ _ He q k lv).
    split; [|split; [done|]].
    { intros x Hx Hx'. right. apply elem_of_kids. exists i. rewrite Ee. split; [done|]. split; [done|]. by apply Hu. }
    destruct Ha as [(? & ? & ?)|(? & Ha & ?)]; [left; split_and!; [done..|lia]|right].
    split; [done|]. split; [|lia]. cbn [path]. fold i.
    rewrite (ex_entries _ _ _ _ _ He q k lv i) by done. by rewrite Hv.
  - simpl. apply wp_bind. eapply wp_kalloc; [done|apply Hi|exact Hr|done| |].
    { intros h' -> Hr'. simpl. wp_steps. exists ρ, []. split; [by apply tinv_hart|].
      split; [apply ext_refl|]. split; [apply hung_same|]. split; [done|left; simpl; split_and!; [done..|lia]]. }
    intros p l' h' -> Hm Hpl Hf Hr'. pose proof (managed_nonzero p Hm).
    rewrite (proj2 (Z.eqb_neq p 0)) by lia.
    unfold set_pte, modify_mem. wp_steps. unfold set_mem; simpl.
    destruct (tinv_add_table ρ _ l' s k lv q i p h' Hi eq_refl Hpl Hf Hq) as (Hi1 & He1 & Hp1 & Hen);
      [done|lia| |done|].
    { intros ->. apply PX_half. done. }
    eapply wp_mono; [apply (IH p _ (<[p := RPT k lv]> ρ) l'); try done; lia|].
    intros a s' (ρ' & l2 & Hi' & He & Hu & Hr2 & Ha). exists ρ', l2. split; [done|].
    split; [by eapply ext_trans|].
    assert (ρ p = RFree) as Hpf by (apply (ti_role_free _ _ _ Hi); by left).
    destruct (table_entry p) as (_ & Hev & Hep); [apply Hm|lia|].
    assert (entry (mem s') q i = Z.lor (PA2PTE p) PTE_V) as Ee.
    { rewrite <-Hen. apply (ex_entries _ _ _ _ _ He q k lv i); rewrite ?Hen; try done.
      rewrite fn_lookup_insert_ne; [done|congruence]. }
    split; [|split; [done|]].
    { intros x Hx Hx'. right. apply elem_of_kids. exists i. rewrite Ee, Hev, Hep. split; [done|]. split; [done|].
      destruct (decide (x = p)) as [->|Hne]; [apply tree_here|]. apply Hu; [|done]. by rewrite fn_insert_ne. }
    destruct Ha as [(? & ? & ?)|(? & Ha & ?)]; [left; simpl; split_and!; [done..|lia]|right].
    split; [done|]. split; [|simpl; lia]. cbn [path]. fold i. by rewrite Ee, Hev, Hep.
Qed.

Lemma wp_walk r va n s ρ l hl k :
  (0 < n)%nat -> tinv ρ l s -> hrep (hart s) hl -> Lkmem ∉ hl ->
  ρ r = RPT k 2 -> 0 <= va < MAXVA ->
  wp (walk r va true) n s (fun a s' =>
    exists ρ' l', tinv ρ' l' s' /\ ext k ρ s ρ' s' /\ hung 2 r ρ ρ' s' /\ hrep (hart s') hl /\
      ((a = 0 /\ l' = [] /\ (length l < 2)%nat) \/
       (a <> 0 /\ leaf_addr (mem s') r va = Some a /\ (length l <= length l' + 2)%nat))).
Proof.
  intros. unfold walk. destruct (Z.leb_spec MAXVA va); [lia|]. by eapply wp_walk_loop.
Qed.

(** Writing the leaf entry of one page. *)
Definition set_leaf (a v : Z) (s : mstate H) : mstate H :=
  set_mem (store64 (mem s) a v) s.

Lemma leaf_table ρ l s r k va a :
  tinv ρ l s -> ρ r = RPT k 2 -> leaf_addr (mem s) r va = Some a ->
  exists q, ρ q = RPT k 0 /\ a = q + 8 * PX 0 va.
Proof. intros Hi Hr Ha. eapply path_table; eauto. apply Hi. Qed.

Lemma set_leaf_same_except ρ l s r k va a v :
  tinv ρ l s -> ρ r = RPT k 2 -> leaf_addr (mem s) r va = Some a ->
  exists q, ρ q = RPT k 0 /\ same_except q (mem s) (store64 (mem s) a v).
Proof.
  intros Hi Hr Ha. destruct (leaf_table _ _ _ _ _ _ _ Hi Hr Ha) as (q & Hq & ->).
  exists q. split; [done|]. pose proof (PX_range 0 va). apply same_except_store64; pages; lia.
Qed.

Lemma tinv_set_leaf ρ l s r k va a v :
  tinv ρ l s -> ρ r = RPT k 2 -> leaf_addr (mem s) r va = Some a ->
  tinv ρ l (set_leaf a v s).
Proof.
  intros Hi Hr Ha. destruct (leaf_table _ _ _ _ _ _ _ Hi Hr Ha) as (q & Hq & E).
  destruct (set_leaf_same_except _ _ _ _ _ _ _ v Hi Hr Ha) as (q' & Hq' & Hse).
  pose proof (fun x => tinv_aligned _ _ _ x Hi) as Hal. destruct Hi as [H1 H2 H3 H4 H5].
  split; try done; simpl.
  - apply (free_inv_mem _ l q' _ (hart s) H1); [apply H3; congruence| |done].
    intros Hin%H2. congruence.
  - subst a. apply (pt_wf_leaf _ _ Hal H4 q k); [done|]. apply PX_range. lia.
Qed.

Lemma set_leaf_pte_at ρ l s r k va a v r' k' va' :
  tinv ρ l s -> ρ r = RPT k 2 -> leaf_addr (mem s) r va = Some a -> 0 <= va < MAXVA ->
  ρ r' = RPT k' 2 -> 0 <= va' < MAXVA ->
  pte_at (mem (set_leaf a v s)) r' va' =
    if decide (r' = r /\ vpn va' = vpn va) then u64 v else pte_at (mem s) r' va'.
Proof.
  intros Hi Hr Ha ? ? ?. eapply pte_at_leaf; eauto; [|apply Hi].
  intros x. by eapply tinv_aligned.
Qed.

Lemma set_leaf_keeps ρ l s r k va a v x :
  tinv ρ l s -> ρ r = RPT k 2 -> leaf_addr (mem s) r va = Some a ->
  solid (ρ (PGROUNDDOWN x)) = true -> mem (set_leaf a v s) x = mem s x.
Proof.
  intros Hi Hr Ha Hx. destruct (set_leaf_same_except _ _ _ _ _ _ _ v Hi Hr Ha) as (q & Hq & Hse).
  apply (same_except_page q); [eapply tinv_aligned; eauto; congruence|done|].
  intros <-. by rewrite Hq in Hx.
Qed.

(** [mappages] of one page. *)
Lemma wp_mappages1 r va pa perm n s ρ l hl k (Q : Z -> mstate H -> Prop) :
  (0 < n)%nat -> tinv ρ l s -> hrep (hart s) hl -> Lkmem ∉ hl ->
  ρ r = RPT k 2 -> aligned va -> 0 <= va < MAXVA ->
  (forall s1 ρ1, tinv ρ1 [] s1 -> ext k ρ s ρ1 s1 -> hung 2 r ρ ρ1 s1 -> hrep (hart s1) hl -> (length l < 2)%nat -> Q (-1) s1) ->
  (forall s1 ρ1 l1 a, tinv ρ1 l1 s1 -> ext k ρ s ρ1 s1 -> hung 2 r ρ ρ1 s1 -> hrep (hart s1) hl ->
    leaf_addr (mem s1) r va = Some a -> (length l <= length l1 + 2)%nat -> Q 0 (set_leaf a (mkpte pa perm) s1)) ->
  wp (mappages r va PGSIZE pa perm) n s Q.
Proof.
  intros Hn Hi Hr Hl Hrt Hal Hva HQ1 HQ0. unfold mappages. simpl.
  assert (PGROUNDDOWN (u64 (va + PGSIZE - 1)) = va) as ->.
  { rewrite MAXVA_eq in Hva. rewrite u64_small by (pages; lia).
    rewrite PGROUNDDOWN_eq. pages. Z.div_mod_to_equations. lia. }
  rewrite (PGROUNDDOWN_aligned va) by done.
  apply (wp_loop _ (fun k' '(a, pa') s' => k' = 0%nat /\ a = va /\ pa' = pa /\ s' = s) n Q)
    with (k := 0%nat); [|lia|done].
  intros k' [a pa'] s' (-> & -> & -> & ->). wp_step.
  eapply wp_mono; [by eapply wp_walk; eauto; lia|].
  intros a s1 (ρ1 & l1 & Hi1 & He1 & Hu1 & Hr1 & [(-> & -> & Hlen)|(Hne & Ha & Hlen)]); simpl.
  - wp_steps. eauto.
  - rewrite (proj2 (Z.eqb_neq a 0)) by done. unfold set_pte, modify_mem. wp_steps.
    rewrite Z.eqb_refl. wp_steps. by eapply HQ0.
Qed.

(** A change of one page that is not a table, before or after: allocation,
    freeing, writing and counting references are all of this form. *)
Lemma tinv_page ρ l s p r l' s' :
  tinv ρ l s -> aligned p ->
  (forall k lv, ρ p <> RPT k lv) -> (forall k lv, r <> RPT k lv) ->
  same_except p (mem s) (mem s') -> free_inv s' l' ->
  (forall x, <[p := r]> ρ x = RFree <-> x ∈ l') ->
  (r <> RNone -> managed p) -> (r = RKern -> ref_count s' (INDEX p) = 1) ->
  (forall x, aligned x -> x <> p -> ref_count s' (INDEX x) = ref_count s (INDEX x)) ->
  tinv (<[p := r]> ρ) l' s' /\
  forall k q va, ρ q = RPT k 2 -> pte_at (mem s') q va = pte_at (mem s) q va /\
    leaf_addr (mem s') q va = leaf_addr (mem s) q va.
Proof.
  intros Hi Hp Hnt Hnr Hse Hf Hfr Hm H1 Hrc.
  pose proof (fun x => tinv_aligned _ _ _ x Hi) as Hal. destruct Hi as [A1 A2 A3 A4 A5].
  assert (forall q k lv i, ρ q = RPT k lv -> 0 <= i < 512 ->
    entry (mem s') q i = entry (mem s) q i) as He.
  { intros q k lv i Hq ?. eapply entry_same_except; [exact Hp| | |done|done].
    - apply Hal. congruence.
    - intros ->. by eapply Hnt. }
  assert (forall q k lv, <[p := r]> ρ q = RPT k lv <-> ρ q = RPT k lv) as Hpt.
  { intros q k lv. rewrite fn_insert_spec. case_decide; [|done].
    subst q. split; intros E; [by apply Hnr in E|by apply Hnt in E]. }
  split; [split; try done|].
  - intros q. rewrite fn_insert_spec. case_decide; [by subst|apply A3].
  - apply pt_wf_role; [eapply pt_wf_frame; eauto|done|done].
  - intros q Hq. destruct (decide (q = p)) as [->|Hne].
    + rewrite fn_lookup_insert in Hq. apply H1. destruct Hq as [(k & lv & E)|?]; [by apply Hnr in E|done].
    + rewrite fn_lookup_insert_ne in Hq by done. rewrite Hrc; [by apply A5| |done].
      apply Hal. destruct Hq as [(? & ? & ?)|?]; congruence.
  - intros k q va Hq. split; [eapply pte_at_frame; eauto|by eapply path_frame].
Qed.

(** A zeroed page becomes the root of an empty page table. *)
Lemma tinv_new_root ρ l s p k :
  tinv ρ l s -> ρ p = RKern -> (forall x, p <= x < p + PGSIZE -> mem s x = 0) ->
  tinv (<[p := RPT k 2]> ρ) l s /\ forall va, pte_at (mem s) p va = 0.
Proof.
  intros Hi Hp Hz. pose proof (fun x => tinv_aligned _ _ _ x Hi) as Hal.
  assert (forall i, 0 <= i < 512 -> entry (mem s) p i = 0) as He.
  { intros i Hib. apply load64_zero. intros x ?. apply Hz. pages. lia. }
  destruct Hi as [A1 A2 A3 A4 A5]. split; [split; try done|].
  - intros x. rewrite fn_insert_spec, <-A2. case_decide; [subst; by rewrite Hp|done].
  - intros x. rewrite fn_insert_spec. case_decide; [subst; intros _; apply A3; congruence|apply A3].
  - destruct A4 as [W0 Wh W1 W2].
    assert (forall q k' lv i, <[p := RPT k 2]> ρ q = RPT k' (S lv) -> 0 <= i < 512 ->
      has (entry (mem s) q i) PTE_V = true -> q <> p /\ ρ q = RPT k' (S lv)) as Hold.
    { intros q k' lv i Hq Hib Hv. rewrite fn_insert_spec in Hq. case_decide; [|done].
      subst q. rewrite He, has_0 in Hv by done. done. }
    split.
    + intros q k' lv. rewrite fn_insert_spec. case_decide; [by intros [= _ <-]|apply W0].
    + intros q k' i. rewrite fn_insert_spec. case_decide; [|apply Wh].
      subst. intros _ Hib. rewrite He by lia. apply has_0.
    + intros q k' lv i Hq Hib Hv. destruct (Hold q k' lv i) as [_ Hq']; try done.
      destruct (W1 q k' lv i Hq' Hib Hv) as [Hc ?]. split; [|done].
      rewrite fn_insert_spec. case_decide; [congruence|done].
    + intros q k' lv i q' k'' lv' i' Hq Hq' Hib Hib' Hv Hv'.
      destruct (Hold q k' lv i) as [_ ?], (Hold q' k'' lv' i') as [_ ?]; try done.
      by apply (W2 q k' lv i q' k'' lv' i').
  - intros x. rewrite fn_insert_spec. case_decide; [subst; intros _; apply A5; by right|apply A5].
  - intros va. unfold pte_at, leaf_addr. cbn [path]. rewrite He by (apply PX_range; lia). by rewrite has_0.
Qed.

End grow.
