(* ===== verification/Cow.v ===== *)
(** * Sharing of user pages

    The invariant that makes copy-on-write correct: which page tables map
    which physical page at which virtual page, and what the reference counts
    and the flags of the entries have to do with it. *)

From S2P Require Import Prelude Riscv Spinlock Str Kalloc Vm PageTable.

(** ** Leaf entries *)

(** An entry with only a page number and flags: bits 54 to 63 are clear. *)
Definition canon (e : Z) : Prop := 0 <= e < 2 ^ 54.

(** Marked copy-on-write: [PTE_RSW] set and [PTE_W] clear. *)
Definition cow (e : Z) : bool := has e PTE_RSW && negb (has e PTE_W).

(** The entry is valid and accessible to the user. *)
Definition user (e : Z) : bool := has e PTE_V && has e PTE_U.

Lemma R_testbit x : has x PTE_R = Z.testbit x 1.
Proof. by apply has_testbit. Qed.
Lemma W_testbit x : has x PTE_W = Z.testbit x 2.
Proof. by apply has_testbit. Qed.
Lemma U_testbit x : has x PTE_U = Z.testbit x 4.
Proof. by apply has_testbit. Qed.
Lemma RSW_testbit x : has x PTE_RSW = Z.testbit x 8.
Proof. by apply has_testbit. Qed.

Lemma FLAGS_testbit x k : 0 <= k < 10 -> Z.testbit (PTE_FLAGS x) k = Z.testbit x k.
Proof. intros. rewrite PTE_FLAGS_mod. change 1024 with (2 ^ 10).
  apply Z.mod_pow2_bits_low. lia. Qed.

(** Compute the flags of an entry built with bit operations. *)
Ltac pte_bits :=
  unfold cow, user;
  rewrite ?V_testbit, ?R_testbit, ?W_testbit, ?U_testbit, ?RSW_testbit;
  repeat match goal with
  | |- context [Z.testbit (Z.lor _ _) _] => rewrite Z.lor_spec
  | |- context [Z.testbit (Z.land _ _) _] => rewrite Z.land_spec
  | |- context [Z.testbit (Z.lnot _) _] => rewrite Z.lnot_spec by lia
  | |- context [Z.testbit (PTE_FLAGS _) _] => rewrite FLAGS_testbit by lia
  | |- context [Z.testbit (mkpte _ _) _] => rewrite mkpte_flag by lia
  | |- context [Z.testbit ?c ?k] =>
      first [constr_eq c PTE_V | constr_eq c PTE_R | constr_eq c PTE_W |
             constr_eq c PTE_X | constr_eq c PTE_U | constr_eq c PTE_RSW];
      let b := eval vm_compute in (Z.testbit c k) in
      match b with
      | true => change (Z.testbit c k) with true
      | false => change (Z.testbit c k) with false
      end
  end;
  rewrite ?andb_true_r, ?andb_false_r, ?orb_true_r, ?orb_false_r; cbn [andb orb negb].

Lemma canon_0 : canon 0.
Proof. done. Qed.

Lemma canon_u64 e : canon e -> u64 e = e.
Proof. intros [??]. apply u64_small. lia. Qed.

Lemma canon_lor e c : canon e -> 0 <= c < 1024 -> canon (Z.lor e c).
Proof.
  intros [H0 H1] [H2 H3]. split; [by apply Z.lor_nonneg|].
  destruct (decide (Z.lor e c = 0)) as [->|Hne]; [done|].
  assert (0 <= Z.lor e c) by by apply Z.lor_nonneg.
  apply Z.log2_lt_pow2; [lia|]. rewrite Z.log2_lor by done.
  assert (forall x, 0 <= x -> x < 2 ^ 54 -> Z.log2 x < 54) as Hl.
  { intros x ? ?. destruct (decide (x = 0)) as [->|]; [done|]. apply Z.log2_lt_pow2; lia. }
  apply Z.max_lub_lt; apply Hl; lia.
Qed.

Lemma canon_clear e c : canon e -> canon (Z.land e (Z.lnot c)).
Proof.
  intros He. unfold canon in *.
  assert (Z.land e (Z.lnot c) = Z.land e (Z.lnot c) mod 2 ^ 54) as ->.
  { apply Z.bits_inj'. intros i Hi. destruct (Z.ltb_spec i 54).
    - by rewrite Z.mod_pow2_bits_low by lia.
    - rewrite Z.mod_pow2_bits_high, Z.land_spec by lia.
      rewrite <-(Z.mod_small e (2 ^ 54)), Z.mod_pow2_bits_high by lia. done. }
  apply Z.mod_pos_bound. lia.
Qed.

Lemma canon_mkpte pa perm : 0 <= pa < 2 ^ 56 -> 0 <= perm < 1024 -> canon (mkpte pa perm).
Proof.
  intros Hpa Hp. pose proof (lor_V_range perm Hp). rewrite mkpte_eq by done.
  split; [|Z.div_mod_to_equations; lia]. Z.div_mod_to_equations; lia.
Qed.

Lemma PTE2PA_bounds e : canon e -> 0 <= PTE2PA e < 2 ^ 56 /\ aligned (PTE2PA e).
Proof.
  intros [??]. assert (PTE2PA e = e / 1024 * 4096) as ->.
  { unfold PTE2PA. rewrite Z.shiftl_mul_pow2, Z.shiftr_div_pow2 by lia.
    apply u64_small. Z.div_mod_to_equations. lia. }
  pages. split; Z.div_mod_to_equations; lia.
Qed.

Lemma PTE_FLAGS_range e : 0 <= PTE_FLAGS e < 1024.
Proof. rewrite PTE_FLAGS_mod. by apply Z.mod_pos_bound. Qed.

#[global] Arguments cow : simpl never.
#[global] Arguments user : simpl never.

(** ** The invariant *)

(** Virtual pages of the user part of the address space, below the trapframe
    and the trampoline, and all virtual pages. *)
Definition NVPN : Z := TRAPFRAME / PGSIZE.
Definition TOPVPN : Z := MAXVA / PGSIZE.

Lemma NVPN_eq : NVPN = 2 ^ 26 - 2.
Proof. done. Qed.

Lemma TOPVPN_eq : TOPVPN = 2 ^ 26.
Proof. done. Qed.

#[global] Opaque NVPN TOPVPN.

Section sharing.
Context {LY : Layout} {LO : LayoutOk}.
Implicit Types (ρ : Z -> role) (own : Z -> list (Z * Z)) (pt : Z -> Z -> Z) (rc : Z -> Z).

(** [r] is the root of a user page table. *)
Definition uroot ρ (r : Z) : Prop := ρ r = RPT false 2.

(** Page table [r] maps the page [v] of user memory. *)
Definition mapped ρ pt (r v : Z) : Prop :=
  uroot ρ r /\ 0 <= v < NVPN /\ has (pt r v) PTE_V = true.

(** [own p] lists the user page tables and virtual pages that map the data
    page [p]. *)
Record binv ρ own pt rc : Prop := {
  bi_own : forall p r v, (r, v) ∈ own p <-> mapped ρ pt r v /\ PTE2PA (pt r v) = p;
  bi_nodup : forall p, NoDup (own p);
  bi_ref : forall p, ρ p = RData ->
    rc (INDEX p) = Z.of_nat (length (own p)) /\ own p <> [];
  (* a page that is mapped twice is marked copy-on-write everywhere *)
  bi_cow : forall r v, mapped ρ pt r v ->
    cow (pt r v) = false -> own (PTE2PA (pt r v)) = [(r, v)];
  bi_leaf : forall r v, mapped ρ pt r v ->
    canon (pt r v) /\ has (pt r v) PTE_R = true /\ ρ (PTE2PA (pt r v)) = RData;
  (* fork keeps the virtual page *)
  bi_vpn : forall p r v r' v', (r, v) ∈ own p -> (r', v') ∈ own p -> v = v';
  (* trapframe and trampoline are not accessible to the user *)
  bi_top : forall r v, uroot ρ r -> NVPN <= v < TOPVPN -> user (pt r v) = false
}.

(** [pt'] is [pt] with the entry of page [v] under [r] set to [e]. *)
Definition upd_pt ρ pt (r v e : Z) pt' : Prop :=
  forall r' v', uroot ρ r' -> 0 <= v' < TOPVPN ->
    pt' r' v' = if decide (r' = r /\ v' = v) then e else pt r' v'.

(** ** Steps of the invariant *)

Lemma user_vpn v : 0 <= v < NVPN -> 0 <= v < TOPVPN.
Proof. rewrite NVPN_eq, TOPVPN_eq. lia. Qed.
Hint Resolve user_vpn : core.

(** Nothing of user memory changes. *)
Lemma binv_ext ρ own pt rc ρ' pt' rc' :
  binv ρ own pt rc ->
  (forall p, ρ' p = RData <-> ρ p = RData) -> (forall r, uroot ρ' r <-> uroot ρ r) ->
  (forall r v, uroot ρ r -> 0 <= v < TOPVPN -> pt' r v = pt r v) ->
  (forall p, ρ p = RData -> rc' (INDEX p) = rc (INDEX p)) ->
  binv ρ' own pt' rc'.
Proof.
  intros [B1 B2 B3 B4 B5 B6 B7] Hd Hr Hp Hrc.
  assert (forall r v, mapped ρ' pt' r v <-> mapped ρ pt r v) as Hm.
  { intros r v. unfold mapped. rewrite Hr. split; intros (? & ? & E); rewrite ?Hp in * by auto; auto. }
  assert (forall r v, mapped ρ pt r v -> pt' r v = pt r v) as He.
  { intros r v (? & ? & _). apply Hp; auto. }
  split; auto.
  - intros p r v. rewrite B1, Hm. split; intros (? & ?); rewrite He in *; auto.
  - intros p ?%Hd. rewrite Hrc by done. auto.
  - intros r v Hv%Hm. rewrite He by done. auto.
  - intros r v Hv%Hm. rewrite He by done. destruct (B5 r v Hv) as (? & ? & ?). rewrite Hd. auto.
  - intros r v Hu%Hr Hv. rewrite Hp; auto. rewrite NVPN_eq in Hv. lia.
Qed.

Section entry_change.
Context ρ own pt rc pt' (r v e : Z).
Context (Hb : binv ρ own pt rc) (Hr : uroot ρ r) (Hv : 0 <= v < NVPN)
  (Hpt : upd_pt ρ pt r v e pt').

Lemma pt_new : pt' r v = e.
Proof. rewrite (Hpt r v); auto. by rewrite decide_True. Qed.

Lemma pt_old r' v' : uroot ρ r' -> 0 <= v' < TOPVPN -> ~ (r' = r /\ v' = v) -> pt' r' v' = pt r' v'.
Proof. intros ? ? ?. rewrite Hpt by done. by rewrite decide_False. Qed.

Lemma pt_mapped r' v' : mapped ρ pt r' v' -> ~ (r' = r /\ v' = v) -> pt' r' v' = pt r' v'.
Proof. intros (? & ? & _) ?. apply pt_old; auto. Qed.

Lemma mapped_old r' v' : ~ (r' = r /\ v' = v) -> mapped ρ pt' r' v' <-> mapped ρ pt r' v'.
Proof.
  intros Hne. unfold mapped. split; intros (? & ? & E); rewrite pt_old in * by auto; done.
Qed.

Lemma top_old r' v' : uroot ρ r' -> NVPN <= v' < TOPVPN -> user (pt' r' v') = false.
Proof.
  intros ? ?. rewrite pt_old; [by apply (bi_top _ _ _ _ Hb)|done| |lia].
  pose proof NVPN_eq. lia.
Qed.

(** Changing flags of an entry for the same page. *)
Lemma binv_flags rc' :
  mapped ρ pt r v -> canon e -> PTE2PA e = PTE2PA (pt r v) ->
  has e PTE_V = true -> has e PTE_R = true ->
  (cow e = false -> own (PTE2PA e) = [(r, v)]) ->
  (forall p, ρ p = RData -> rc' (INDEX p) = rc (INDEX p)) ->
  binv ρ own pt' rc'.
Proof.
  intros Hm Hc Hpa HV HR Hcow Hrc. pose proof top_old as Ht. destruct Hb as [B1 B2 B3 B4 B5 B6 B7].
  assert (forall r' v', mapped ρ pt' r' v' <-> mapped ρ pt r' v') as Hmm.
  { intros r' v'. destruct (decide (r' = r /\ v' = v)) as [[-> ->]|]; [|by apply mapped_old].
    split; [done|]. intros _. split; [done|]. by rewrite pt_new. }
  assert (forall r' v', mapped ρ pt r' v' -> PTE2PA (pt' r' v') = PTE2PA (pt r' v')) as Hpp.
  { intros r' v' Hm'. destruct (decide (r' = r /\ v' = v)) as [[-> ->]|].
    - by rewrite pt_new. - by rewrite pt_mapped. }
  split; auto.
  - intros p r' v'. rewrite B1, Hmm. split; intros (? & ?); rewrite Hpp in *; auto.
  - intros p Hp. rewrite Hrc by done. auto.
  - intros r' v' Hm'%Hmm. rewrite Hpp by done.
    destruct (decide (r' = r /\ v' = v)) as [[-> ->]|].
    + rewrite pt_new. by rewrite Hpa in Hcow.
    + rewrite pt_mapped by done. auto.
  - intros r' v' Hm'%Hmm. rewrite Hpp by done. destruct (B5 r' v' Hm') as (? & ? & ?).
    destruct (decide (r' = r /\ v' = v)) as [[-> ->]|]; [by rewrite pt_new|by rewrite pt_mapped].
Qed.

(** Mapping one more reference to a shared page. *)
Lemma binv_share rc' p :
  ~ mapped ρ pt r v -> ρ p = RData -> PTE2PA e = p -> canon e ->
  has e PTE_V = true -> has e PTE_R = true -> cow e = true ->
  (forall r' v', (r', v') ∈ own p -> v' = v /\ cow (pt r' v') = true) ->
  rc' (INDEX p) = rc (INDEX p) + 1 ->
  (forall q, ρ q = RData -> q <> p -> rc' (INDEX q) = rc (INDEX q)) ->
  binv ρ (<[p := (r, v) :: own p]> own) pt' rc'.
Proof.
  intros Hn Hp Hpa Hc HV HR Hcow Hall Hrc Hrc'. pose proof top_old as Ht.
  destruct Hb as [B1 B2 B3 B4 B5 B6 B7].
  assert ((r, v) ∉ own p) as Hnin. { intros (Hm & _)%B1. done. }
  assert (mapped ρ pt' r v) as Hmn by (split; [done|]; by rewrite pt_new).
  split; [| | | | | |done].
  - intros q r' v'. destruct (decide (r' = r /\ v' = v)) as [[-> ->]|Hne].
    + rewrite pt_new, fn_insert_spec. case_decide as Hq.
      * subst q. split; [done|by left].
      * split; [by intros (? & _)%B1|by intros (_ & ?); congruence].
    + rewrite (mapped_old r' v') by done. rewrite fn_insert_spec. case_decide as Hq.
      * subst q. rewrite elem_of_cons, B1. split.
        -- intros [[= -> ->]|(? & ?)]; [by destruct Hne|]. by rewrite pt_mapped.
        -- intros (Hm & ?). right. by rewrite pt_mapped in *.
      * rewrite B1. split; intros (Hm & ?); by rewrite pt_mapped in *.
  - intros q. rewrite fn_insert_spec. case_decide; [subst|done]. by constructor.
  - intros q Hq. rewrite fn_insert_spec. case_decide.
    + subst q. rewrite Hrc. destruct (B3 p Hp) as [-> ?]. simpl. split; [lia|done].
    + rewrite Hrc' by done. auto.
  - intros r' v' Hm. destruct (decide (r' = r /\ v' = v)) as [[-> ->]|Hne].
    + rewrite pt_new. congruence.
    + apply mapped_old in Hm; [|done]. rewrite pt_mapped by done.
      intros Hnc. rewrite fn_lookup_insert_ne; [auto|]. intros Heq.
      destruct (Hall r' v'); [|congruence]. apply B1. auto.
  - intros r' v' Hm. destruct (decide (r' = r /\ v' = v)) as [[-> ->]|Hne].
    + rewrite pt_new, Hpa, Hp. done.
    + apply mapped_old in Hm; [|done]. rewrite pt_mapped by done. auto.
  - intros q r1 v1 r2 v2. rewrite !fn_insert_spec. case_decide as Hq; [|apply B6]. subst q.
    by intros [[= -> ->]|[-> _]%Hall]%elem_of_cons [[= -> ->]|[-> _]%Hall]%elem_of_cons.
Qed.

(** Removing one of several references to a page. *)
Lemma binv_unmap_shared rc' p :
  mapped ρ pt r v -> PTE2PA (pt r v) = p -> has e PTE_V = false ->
  1 < rc (INDEX p) -> rc' (INDEX p) = rc (INDEX p) - 1 ->
  (forall q, ρ q = RData -> q <> p -> rc' (INDEX q) = rc (INDEX q)) ->
  exists own', binv ρ own' pt' rc' /\ forall q, own' q ⊆ own q.
Proof.
  intros Hm Hpa HV Hgt Hrc Hrc'. pose proof top_old as Ht. destruct Hb as [B1 B2 B3 B4 B5 B6 B7].
  assert (ρ p = RData) as Hp by (rewrite <-Hpa; by apply B5).
  assert ((r, v) ∈ own p) as [k Hk]%elem_of_Permutation by (apply B1; auto).
  destruct (B3 p Hp) as [Hlen _]. rewrite Hk in Hlen. simpl in Hlen.
  assert (NoDup ((r, v) :: k)) as [Hnin Hnd]%NoDup_cons by by rewrite <-Hk.
  assert (~ mapped ρ pt' r v) as Hmn by (intros (_ & _ & E); rewrite pt_new in E; congruence).
  assert (k ⊆ own p) as Hsub by (intros x Hx; rewrite Hk; by right).
  exists (<[p := k]> own). split; [split; [| | | | | |done]|].
  - intros q r' v'. destruct (decide (r' = r /\ v' = v)) as [[-> ->]|Hne].
    + split; [|by intros (? & _)]. rewrite fn_insert_spec. case_decide as Hq; [done|].
      intros (_ & ?)%B1. congruence.
    + rewrite (mapped_old r' v') by done.
      assert ((r', v') ∈ (<[p := k]> own : Z -> list (Z * Z)) q <-> (r', v') ∈ own q) as ->.
      { rewrite fn_insert_spec. case_decide as Hq; [subst q|done]. rewrite Hk, elem_of_cons.
        split; [by right|]. by intros [[= -> ->]|]; [destruct Hne|]. }
      rewrite B1. split; intros (Hm' & ?); by rewrite pt_mapped in *.
  - intros q. rewrite fn_insert_spec. by case_decide.
  - intros q Hq. rewrite fn_insert_spec. case_decide.
    + subst q. rewrite Hrc. split; [lia|]. intros ->. simpl in Hlen. lia.
    + rewrite Hrc' by done. auto.
  - intros r' v' Hm'. destruct (decide (r' = r /\ v' = v)) as [[-> ->]|Hne]; [done|].
    apply mapped_old in Hm'; [|done]. rewrite pt_mapped by done.
    intros Hnc. rewrite fn_lookup_insert_ne; [auto|]. intros Heq.
    specialize (B4 r' v' Hm' Hnc). rewrite <-Heq in B4. rewrite B4 in Hk.
    apply Permutation_length in Hk. simpl in *. lia.
  - intros r' v' Hm'. destruct (decide (r' = r /\ v' = v)) as [[-> ->]|Hne]; [done|].
    apply mapped_old in Hm'; [|done]. rewrite pt_mapped by done. auto.
  - intros q r1 v1 r2 v2. rewrite !fn_insert_spec. case_decide as Hq; [subst q|apply B6].
    intros H1 H2. by apply (B6 p r1 v1 r2 v2); apply Hsub.
  - intros q. rewrite fn_insert_spec. case_decide; by subst.
Qed.

(** The only reference to a page. *)
Lemma own_single p : mapped ρ pt r v -> PTE2PA (pt r v) = p -> rc (INDEX p) = 1 -> own p = [(r, v)].
Proof.
  intros Hm Hpa H1. destruct Hb as [B1 B2 B3 B4 B5 B6 B7].
  assert (ρ p = RData) as Hp by (rewrite <-Hpa; by apply B5).
  destruct (B3 p Hp) as [Hlen _]. assert ((r, v) ∈ own p) as Hin by (apply B1; auto).
  destruct (own p) as [|x [|y k]]; simpl in Hlen; try lia.
  by apply list_elem_of_singleton in Hin as ->.
Qed.

(** Removing the last reference: the page is user memory no more. *)
Lemma binv_unmap_last rc' p x :
  mapped ρ pt r v -> PTE2PA (pt r v) = p -> has e PTE_V = false ->
  rc (INDEX p) = 1 -> x <> RData -> x <> RPT false 2 ->
  (forall q, ρ q = RData -> q <> p -> rc' (INDEX q) = rc (INDEX q)) ->
  binv (<[p := x]> ρ) (<[p := []]> own) pt' rc'.
Proof.
  intros Hm Hpa HV H1 Hx Hxr Hrc'. pose proof (own_single p Hm Hpa H1) as Ho.
  pose proof top_old as Ht. destruct Hb as [B1 B2 B3 B4 B5 B6 B7].
  assert (ρ p = RData) as Hp by (rewrite <-Hpa; by apply B5).
  assert (forall r', uroot (<[p := x]> ρ) r' <-> uroot ρ r') as Hur.
  { intros r'. unfold uroot. rewrite fn_insert_spec. case_decide; [subst|done]. by rewrite Hp. }
  assert (forall r' v', mapped (<[p := x]> ρ) pt' r' v' <->
    mapped ρ pt r' v' /\ PTE2PA (pt r' v') <> p) as Hmm.
  { intros r' v'. destruct (decide (r' = r /\ v' = v)) as [[-> ->]|Hne].
    - split; [|by intros [_ ?]]. intros (_ & _ & E). rewrite pt_new in E. congruence.
    - unfold mapped at 1. rewrite Hur. fold (mapped ρ pt' r' v'). rewrite (mapped_old r' v') by done.
      split; [|by intros [? _]]. intros Hm'. split; [done|]. intros Heq. apply Hne.
      assert ((r', v') ∈ own p) as Hin by (by apply B1).
      rewrite Ho in Hin. apply list_elem_of_singleton in Hin. by injection Hin. }
  assert (forall r' v', mapped ρ pt r' v' -> PTE2PA (pt r' v') <> p -> pt' r' v' = pt r' v') as Hpp.
  { intros r' v' Hm' Hne. apply pt_mapped; [done|]. intros [-> ->]. done. }
  split.
  - intros q r' v'. rewrite Hmm, fn_insert_spec. case_decide as Hq.
    + subst q. split; [by intros ?%elem_of_nil|]. intros ((? & Hne) & E). by rewrite Hpp in E.
    + rewrite B1. split.
      * intros (Hm' & E). assert (PTE2PA (pt r' v') <> p) by congruence. by rewrite Hpp.
      * intros ((Hm' & E) & E'). by rewrite Hpp in E'.
  - intros q. rewrite fn_insert_spec. case_decide; [constructor|done].
  - intros q. rewrite !fn_insert_spec. case_decide; [done|]. intros. rewrite Hrc' by done. auto.
  - intros r' v' (? & ?)%Hmm. rewrite Hpp by done. rewrite fn_lookup_insert_ne by done. auto.
  - intros r' v' (? & ?)%Hmm. rewrite Hpp by done. rewrite fn_lookup_insert_ne by done. auto.
  - intros q r1 v1 r2 v2. rewrite !fn_insert_spec. case_decide as Hq; [by intros ?%elem_of_nil|apply B6].
  - intros r' v' ?%Hur. auto.
Qed.

(** Mapping a page that is not user memory yet. *)
Lemma binv_map p rc' :
  ~ mapped ρ pt r v -> ρ p <> RData -> (forall k lv, ρ p <> RPT k lv) ->
  PTE2PA e = p -> canon e -> has e PTE_V = true -> has e PTE_R = true ->
  rc' (INDEX p) = 1 -> (forall q, ρ q = RData -> q <> p -> rc' (INDEX q) = rc (INDEX q)) ->
  binv (<[p := RData]> ρ) (<[p := [(r, v)]]> own) pt' rc'.
Proof.
  intros Hn Hp Hnt Hpa Hc HV HR Hrc Hrc'. pose proof top_old as Ht.
  destruct Hb as [B1 B2 B3 B4 B5 B6 B7].
  assert (forall r' v', mapped ρ pt r' v' -> PTE2PA (pt r' v') <> p) as Hun.
  { intros r' v' Hm <-. by apply Hp, B5. }
  assert (forall r', uroot (<[p := RData]> ρ) r' <-> uroot ρ r') as Hur.
  { intros r'. unfold uroot. rewrite fn_insert_spec. case_decide; [subst|done].
    split; [done|]. by intros ?%Hnt. }
  assert (mapped (<[p := RData]> ρ) pt' r v) as Hmn by (split; [by apply Hur|]; by rewrite pt_new).
  assert (forall r' v', ~ (r' = r /\ v' = v) ->
    mapped (<[p := RData]> ρ) pt' r' v' <-> mapped ρ pt r' v') as Hmo.
  { intros r' v' Hne. rewrite <-mapped_old by done. unfold mapped. by rewrite Hur. }
  split.
  - intros q r' v'. destruct (decide (r' = r /\ v' = v)) as [[-> ->]|Hne].
    + rewrite pt_new, fn_insert_spec. case_decide as Hq.
      * subst q. split; [done|]. intros. apply list_elem_of_here.
      * split; [by intros (? & _)%B1|]. by intros (_ & ?); congruence.
    + rewrite (Hmo r' v') by done. rewrite fn_insert_spec. case_decide as Hq.
      * subst q. rewrite list_elem_of_singleton. split; [by intros [= -> ->]; destruct Hne|].
        intros (Hm & E). rewrite pt_mapped in E by done. by apply Hun in Hm.
      * rewrite B1. split; intros (Hm & ?); by rewrite pt_mapped in *.
  - intros q. rewrite fn_insert_spec. case_decide; [apply NoDup_singleton|done].
  - intros q. rewrite !fn_insert_spec. case_decide; [subst q; by rewrite Hrc|].
    intros. rewrite Hrc' by done. auto.
  - intros r' v' Hm. destruct (decide (r' = r /\ v' = v)) as [[-> ->]|Hne].
    + by rewrite pt_new, Hpa, fn_lookup_insert.
    + apply Hmo in Hm; [|done]. rewrite pt_mapped by done.
      rewrite fn_lookup_insert_ne by (by apply not_eq_sym, Hun). auto.
  - intros r' v' Hm. destruct (decide (r' = r /\ v' = v)) as [[-> ->]|Hne].
    + by rewrite pt_new, Hpa, fn_lookup_insert.
    + apply Hmo in Hm; [|done]. rewrite pt_mapped by done.
      rewrite fn_lookup_insert_ne by (by apply not_eq_sym, Hun). auto.
  - intros q r1 v1 r2 v2. rewrite !fn_insert_spec. case_decide as Hq; [|apply B6].
    by intros [= -> ->]%list_elem_of_singleton [= -> ->]%list_elem_of_singleton.
  - intros r' v' ?%Hur. auto.
Qed.

End entry_change.

(** Changing an entry above user memory. *)
Lemma binv_top_entry ρ own pt rc pt' r v e rc' :
  binv ρ own pt rc -> NVPN <= v < TOPVPN -> upd_pt ρ pt r v e pt' -> user e = false ->
  (forall p, ρ p = RData -> rc' (INDEX p) = rc (INDEX p)) ->
  binv ρ own pt' rc'.
Proof.
  intros Hb Hv Hpt He Hrc.
  set (pt1 := fun r' v' => if decide (v' < NVPN) then pt r' v' else pt' r' v').
  assert (binv ρ own pt1 rc) as Hb1.
  { assert (forall r' v', mapped ρ pt1 r' v' <-> mapped ρ pt r' v') as Hm.
    { intros r' v'. unfold mapped, pt1. split; intros (? & ? & E); rewrite decide_True in * by lia; done. }
    assert (forall r' v', mapped ρ pt r' v' -> pt1 r' v' = pt r' v') as Hp.
    { intros r' v' (_ & ? & _). unfold pt1. by rewrite decide_True by lia. }
    destruct Hb as [B1 B2 B3 B4 B5 B6 B7]. split; auto.
    - intros p r' v'. rewrite B1, Hm. split; intros (? & ?); rewrite Hp in *; auto.
    - intros r' v' Hm'%Hm. rewrite Hp by done. auto.
    - intros r' v' Hm'%Hm. rewrite Hp by done. auto.
    - intros r' v' Hr' Hv'. unfold pt1. rewrite decide_False by lia.
      rewrite Hpt by (done || pose proof NVPN_eq; lia). case_decide; auto. }
  eapply binv_ext; [exact Hb1|done|done| |done].
  intros r' v' Hr' Hv'. unfold pt1. case_decide; [|done].
  rewrite Hpt by done. rewrite decide_False by lia. done.
Qed.

(** A change of role that does not concern user memory. *)
Lemma binv_role ρ own pt rc r x pt' rc' :
  binv ρ own pt rc -> ρ r <> RData -> x <> RData ->
  (forall v, ~ mapped ρ pt r v) ->
  (x = RPT false 2 -> forall v, 0 <= v < TOPVPN -> has (pt' r v) PTE_V = false) ->
  (forall r' v, uroot ρ r' -> r' <> r -> 0 <= v < TOPVPN -> pt' r' v = pt r' v) ->
  (forall p, ρ p = RData -> rc' (INDEX p) = rc (INDEX p)) ->
  binv (<[r := x]> ρ) own pt' rc'.
Proof.
  intros Hb Hr Hx Hn Hz Hpt Hrc. destruct Hb as [B1 B2 B3 B4 B5 B6 B7].
  assert (forall p, <[r := x]> ρ p = RData <-> ρ p = RData) as Hd.
  { intros p. rewrite fn_insert_spec. case_decide; [by subst|done]. }
  assert (forall r' v, mapped (<[r := x]> ρ) pt' r' v <-> mapped ρ pt r' v) as Hm.
  { intros r' v. destruct (decide (r' = r)) as [->|Hne].
    - split; [|by intros ?%Hn]. intros (Hu & ? & HV). unfold uroot in Hu.
      rewrite fn_lookup_insert in Hu. rewrite Hz in HV; auto. done.
    - unfold mapped, uroot. rewrite fn_lookup_insert_ne by done.
      split; intros (? & ? & ?); rewrite Hpt in *; auto. }
  assert (forall r' v, mapped ρ pt r' v -> pt' r' v = pt r' v) as Hp.
  { intros r' v Hm'. apply Hpt; [apply Hm'| |apply user_vpn, Hm']. intros ->. by apply Hn in Hm'. }
  split; auto.
  - intros p r' v'. rewrite B1, Hm. split; intros (? & ?); rewrite Hp in *; auto.
  - intros p ?%Hd. rewrite Hrc by done. auto.
  - intros r' v Hm'%Hm. rewrite Hp by done. auto.
  - intros r' v Hm'%Hm. rewrite Hp by done. rewrite Hd. auto.
  - intros r' v Hu Hv. unfold uroot in Hu. rewrite fn_insert_spec in Hu. case_decide as Hq.
    + subst r'. unfold user. rewrite Hz; [done|done|]. rewrite NVPN_eq in Hv. lia.
    + rewrite Hpt; auto. rewrite NVPN_eq in Hv. lia.
Qed.

(** Page tables without user memory may be forgotten. *)
Lemma binv_sub ρ own pt rc ρ' :
  binv ρ own pt rc -> (forall p, ρ' p = RData <-> ρ p = RData) ->
  (forall r, uroot ρ' r -> uroot ρ r) -> (forall r v, mapped ρ pt r v -> uroot ρ' r) ->
  binv ρ' own pt rc.
Proof.
  intros [B1 B2 B3 B4 B5 B6 B7] Hd Hr Hm.
  assert (forall r v, mapped ρ' pt r v <-> mapped ρ pt r v) as Hmm.
  { intros r v. split; intros Hv; [|pose proof (Hm _ _ Hv)]; destruct Hv as (? & ? & ?); split; auto. }
  split; auto.
  - intros p r v. by rewrite Hmm.
  - intros p ?%Hd. auto.
  - intros r v ?%Hmm. auto.
  - intros r v ?%Hmm. rewrite Hd. auto.
Qed.

(** ** Counting *)

(** There are at most 32768 managed pages. *)
Lemma managed_length l : NoDup l -> (forall p, p ∈ l -> managed p) -> Z.of_nat (length l) <= 32768.
Proof.
  intros Hnd Hm. set (f := fun p => Z.to_nat ((p - KERNBASE) / PGSIZE)).
  pose proof kend_lo. pose proof etext_lo.
  assert (forall p, p ∈ l -> aligned p /\ KERNBASE <= p /\ p + PGSIZE <= PHYSTOP) as Hb.
  { intros p Hp%Hm. apply managed_bounds in Hp as (? & ? & ?). split; [done|lia]. }
  assert (f <$> l ⊆+ seq 0 (Z.to_nat 32768)) as Hs%submseteq_length.
  2:{ rewrite length_fmap, length_seq in Hs. lia. }
  apply NoDup_submseteq.
  - apply NoDup_fmap_2_strong; [|done]. intros p q Hp%Hb Hq%Hb Heq. unfold f in Heq.
    destruct Hp as (? & ? & ?), Hq as (? & ? & ?). pages. Z.div_mod_to_equations. lia.
  - intros x (p & -> & Hp%Hb)%list_elem_of_fmap. apply elem_of_seq. unfold f.
    destruct Hp as (? & ? & ?). pages. Z.div_mod_to_equations. lia.
Qed.

(** A page is mapped at most once per page table, so its count is small. *)
Lemma own_bound ρ own pt rc p :
  binv ρ own pt rc -> (forall q, ρ q <> RNone -> managed q) -> Z.of_nat (length (own p)) <= 32768.
Proof.
  intros [B1 B2 B3 B4 B5 B6 B7] Hm. rewrite <-(length_fmap fst). apply managed_length.
  - apply NoDup_fmap_2_strong; [|apply B2]. intros [r v] [r' v'] H1 H2 E. simpl in E. subst r'.
    f_equal. by eapply B6.
  - intros r ([r' v] & -> & H1)%list_elem_of_fmap. apply B1 in H1 as ((Hu & _) & _).
    apply Hm. simpl. unfold uroot in Hu. congruence.
Qed.

(** User memory without holes has at most as many pages as there are. *)
Lemma mapped_bound ρ own pt rc r k :
  binv ρ own pt rc -> (forall q, ρ q <> RNone -> managed q) ->
  (forall v, 0 <= v < k -> mapped ρ pt r v) -> k <= 32768.
Proof.
  intros [B1 B2 B3 B4 B5 B6 B7] Hm Hk. destruct (decide (k <= 0)); [lia|].
  assert (Z.of_nat (length ((fun v => PTE2PA (pt r (Z.of_nat v))) <$> seq 0 (Z.to_nat k))) <= 32768) as Hl.
  { apply managed_length.
    - apply NoDup_fmap_2_strong; [|apply NoDup_seq].
      intros v v' Hv%elem_of_seq Hv'%elem_of_seq Heq.
      enough (Z.of_nat v = Z.of_nat v') by lia.
      eapply (B6 (PTE2PA (pt r (Z.of_nat v))) r _ r); apply B1; (split; [apply Hk; lia|done]).
    - intros p (v & -> & Hv%elem_of_seq)%list_elem_of_fmap.
      destruct (B5 r (Z.of_nat v)) as (_ & _ & Hd); [apply Hk; lia|]. apply Hm. congruence. }
  rewrite length_fmap, length_seq in Hl. lia.
Qed.

End sharing.

(** ** The state *)

Section state.
Context {H : Type} {SP : Spin H} {LY : Layout} {LO : LayoutOk}.
Implicit Types (s : mstate H) (ρ : Z -> role) (own : Z -> list (Z * Z)).

(** The entry of virtual page [v] under the root [r]. *)
Definition pt (s : mstate H) (r v : Z) : Z := pte_at (mem s) r (v * PGSIZE).

(** What user code running on page table [r] reads at [va]; [None] when the
    access faults. *)
Definition ubyte (s : mstate H) (r va : Z) : option Z :=
  let e := pte_at (mem s) r va in
  if user e then Some (mem s (PTE2PA e + va mod PGSIZE)) else None.

Record cinv ρ l own s : Prop := {
  ci_t : tinv ρ l s;
  ci_b : binv ρ own (pt s) (ref_count s)
}.

(** From [s] to [s'], what concerns user memory changes at most at the
    virtual pages [V] of the page table [r]. *)
Record delta ρ s ρ' s' (r : Z) (V : Z -> Prop) : Prop := {
  d_roots : forall r', uroot ρ' r' <-> uroot ρ r';
  d_view : forall r' va, uroot ρ r' -> 0 <= va < MAXVA -> ~ (r' = r /\ V (vpn va)) ->
    ubyte s' r' va = ubyte s r' va;
  d_valid : forall r' v, uroot ρ r' -> 0 <= v < TOPVPN -> ~ (r' = r /\ V v) ->
    has (pt s' r' v) PTE_V = has (pt s r' v) PTE_V;
  d_top : forall r' v, uroot ρ r' -> NVPN <= v < TOPVPN -> ~ (r' = r /\ V v) ->
    pt s' r' v = pt s r' v;
  d_kern : forall p, ρ p = RKern \/ ρ p = RNone -> ρ' p = ρ p;
  d_mem : forall x, ρ (PGROUNDDOWN x) = RKern \/ ρ (PGROUNDDOWN x) = RNone -> mem s' x = mem s x
}.

Lemma delta_refl ρ s h' r V : delta ρ s ρ (MState (mem s) (freelist s) (ref_count s) h') r V.
Proof. by split. Qed.

Lemma delta_id ρ s r V : delta ρ s ρ s r V.
Proof. by split. Qed.

Lemma delta_trans ρ s ρ1 s1 ρ2 s2 r V :
  delta ρ s ρ1 s1 r V -> delta ρ1 s1 ρ2 s2 r V -> delta ρ s ρ2 s2 r V.
Proof.
  intros [A1 A2 A3 A4 A5 A6] [B1 B2 B3 B4 B5 B6]. split.
  - intros r'. by rewrite B1, A1.
  - intros r' va Hr ? ?. rewrite B2 by (try apply A1; done). auto.
  - intros r' v Hr ? ?. rewrite B3 by (try apply A1; done). auto.
  - intros r' v Hr ? ?. rewrite B4 by (try apply A1; done). auto.
  - intros p Hp. rewrite B5; [by apply A5|]. by rewrite A5.
  - intros x Hx. rewrite B6, A6; [done|done|]. by rewrite A5.
Qed.

Lemma delta_mono ρ s ρ' s' r (V V' : Z -> Prop) :
  (forall v, V v -> V' v) -> delta ρ s ρ' s' r V -> delta ρ s ρ' s' r V'.
Proof.
  intros HV [A1 A2 A3 A4 A5 A6]. split; auto.
  - intros r' va ? ? Hn. apply A2; [done|done|]. intros [? ?]. apply Hn. auto.
  - intros r' va ? ? Hn. apply A3; [done|done|]. intros [? ?]. apply Hn. auto.
  - intros r' va ? ? Hn. apply A4; [done|done|]. intros [? ?]. apply Hn. auto.
Qed.

(** User memory reads the same everywhere. *)
Definition quiet ρ s ρ' s' : Prop := forall r V, delta ρ s ρ' s' r V.

Lemma quiet_trans ρ s ρ1 s1 ρ2 s2 : quiet ρ s ρ1 s1 -> quiet ρ1 s1 ρ2 s2 -> quiet ρ s ρ2 s2.
Proof. intros H1 H2 r V. by eapply delta_trans. Qed.

(** From [s] to [s'] the address space [r] appears and no other changes. *)
Record born ρ s ρ' s' (r : Z) : Prop := {
  bo_free : ρ r = RFree;
  bo_roots : forall r', uroot ρ' r' <-> uroot ρ r' \/ r' = r;
  bo_view : forall r' va, uroot ρ r' -> 0 <= va < MAXVA -> ubyte s' r' va = ubyte s r' va;
  bo_valid : forall r' v, uroot ρ r' -> 0 <= v < TOPVPN -> has (pt s' r' v) PTE_V = has (pt s r' v) PTE_V;
  bo_top : forall r' v, uroot ρ r' -> NVPN <= v < TOPVPN -> pt s' r' v = pt s r' v;
  bo_kern : forall p, ρ p = RKern \/ ρ p = RNone -> ρ' p = ρ p;
  bo_mem : forall x, ρ (PGROUNDDOWN x) = RKern \/ ρ (PGROUNDDOWN x) = RNone -> mem s' x = mem s x
}.

Lemma born_other ρ s ρ' s' r r' : born ρ s ρ' s' r -> uroot ρ r' -> r' <> r.
Proof. intros Hb Hu ->. pose proof (bo_free _ _ _ _ _ Hb). unfold uroot in Hu. congruence. Qed.

Lemma born_delta ρ s ρ1 s1 ρ2 s2 r V :
  born ρ s ρ1 s1 r -> delta ρ1 s1 ρ2 s2 r V -> born ρ s ρ2 s2 r.
Proof.
  intros Hb [B1 B2 B3 B4 B5 B6]. pose proof (fun r' => born_other _ _ _ _ _ r' Hb) as Hne.
  destruct Hb as [A0 A1 A2 A3 A4 A5 A6]. split; [done|..].
  - intros r'. by rewrite B1.
  - intros r' va Hr Hva. rewrite B2; [by apply A2|apply A1; auto|done|]. intros [E _]. by apply (Hne r').
  - intros r' v Hr Hv. rewrite B3; [by apply A3|apply A1; auto|done|]. intros [E _]. by apply (Hne r').
  - intros r' v Hr Hv. rewrite B4; [by apply A4|apply A1; auto|done|]. intros [E _]. by apply (Hne r').
  - intros p Hp. rewrite B5; [by apply A5|]. by rewrite A5.
  - intros x Hx. rewrite B6; [by apply A6|]. by rewrite A5.
Qed.

(** From [s] to [s'] the address space [r] disappears and no other changes. *)
Record gone ρ s ρ' s' (r : Z) : Prop := {
  g_roots : forall r', uroot ρ' r' <-> uroot ρ r' /\ r' <> r;
  g_view : forall r' va, uroot ρ r' -> r' <> r -> 0 <= va < MAXVA -> ubyte s' r' va = ubyte s r' va;
  g_valid : forall r' v, uroot ρ r' -> r' <> r -> 0 <= v < TOPVPN ->
    has (pt s' r' v) PTE_V = has (pt s r' v) PTE_V;
  g_top : forall r' v, uroot ρ r' -> r' <> r -> NVPN <= v < TOPVPN -> pt s' r' v = pt s r' v;
  g_kern : forall p, ρ p = RKern \/ ρ p = RNone -> ρ' p = ρ p;
  g_mem : forall x, ρ (PGROUNDDOWN x) = RKern \/ ρ (PGROUNDDOWN x) = RNone -> mem s' x = mem s x
}.

Lemma delta_gone ρ s ρ1 s1 ρ2 s2 r V :
  delta ρ s ρ1 s1 r V -> gone ρ1 s1 ρ2 s2 r -> gone ρ s ρ2 s2 r.
Proof.
  intros [A1 A2 A3 A4 A5 A6] [B1 B2 B3 B4 B5 B6]. split.
  - intros r'. by rewrite B1, A1.
  - intros r' va Hr Hne Hva. rewrite B2, A2 by (done || by apply A1 || nope). done.
  - intros r' va Hr Hne Hva. rewrite B3, A3 by (done || by apply A1 || nope). done.
  - intros r' va Hr Hne Hva. rewrite B4, A4 by (done || by apply A1 || nope). done.
  - intros p Hp. rewrite B5; [by apply A5|]. by rewrite A5.
  - intros x Hx. rewrite B6, A6; [done|done|]. by rewrite A5.
Qed.

(** An address space that came and went. *)
Lemma born_gone ρ s ρ1 s1 ρ2 s2 r :
  born ρ s ρ1 s1 r -> gone ρ1 s1 ρ2 s2 r -> quiet ρ s ρ2 s2.
Proof.
  intros Hb [B1 B2 B3 B4 B5 B6] r0 V. pose proof (fun r' => born_other _ _ _ _ _ r' Hb) as Hne.
  destruct Hb as [A0 A1 A2 A3 A4 A5 A6]. split.
  - intros r'. rewrite B1, A1. split; [tauto|]. intros Hr. auto.
  - intros r' va Hr Hva _. rewrite B2; [by apply A2|apply A1; auto|auto|done].
  - intros r' v Hr Hv _. rewrite B3; [by apply A3|apply A1; auto|auto|done].
  - intros r' v Hr Hv _. rewrite B4; [by apply A4|apply A1; auto|auto|done].
  - intros p Hp. rewrite B5; [by apply A5|]. by rewrite A5.
  - intros x Hx. rewrite B6; [by apply A6|]. by rewrite A5.
Qed.

(** *** Reading through the tables *)

Lemma vpn_range va : 0 <= va < MAXVA -> 0 <= vpn va < TOPVPN.
Proof. rewrite TOPVPN_eq. pages. intros. Z.div_mod_to_equations. lia. Qed.

Lemma pte_at_pt s r va : pte_at (mem s) r va = pt s r (vpn va).
Proof. unfold pt. apply pte_at_vpn. pages. by rewrite Z.div_mul. Qed.

Lemma pt_at s r v : pt s r v = pte_at (mem s) r (v * PGSIZE).
Proof. done. Qed.

Lemma va_of_vpn v : 0 <= v < TOPVPN -> 0 <= v * PGSIZE < MAXVA /\ aligned (v * PGSIZE) /\ vpn (v * PGSIZE) = v.
Proof. rewrite TOPVPN_eq. pages. intros. repeat split; try lia; Z.div_mod_to_equations; lia. Qed.

(** A user access goes to a page of user memory. *)
Lemma user_mapped ρ l own s r va :
  cinv ρ l own s -> uroot ρ r -> 0 <= va < MAXVA ->
  user (pte_at (mem s) r va) = true ->
  mapped ρ (pt s) r (vpn va) /\ ρ (PTE2PA (pte_at (mem s) r va)) = RData.
Proof.
  intros [Ht Hb] Hr Hva Hu. pose proof (vpn_range va Hva) as Hv. rewrite pte_at_pt in *.
  assert (mapped ρ (pt s) r (vpn va)) as Hm.
  { split; [done|]. split.
    - destruct (decide (vpn va < NVPN)); [lia|].
      rewrite (bi_top _ _ _ _ Hb) in Hu; [done|done|lia].
    - unfold user in Hu. by apply andb_true_iff in Hu as [? _]. }
  split; [done|]. by apply (bi_leaf _ _ _ _ Hb).
Qed.

Lemma page_offset p x : aligned p -> PGROUNDDOWN (p + x mod PGSIZE) = p.
Proof. rewrite PGROUNDDOWN_eq. pages. intros. Z.div_mod_to_equations. lia. Qed.

(** The view stays when the entry keeps its page and access, and the page its
    contents. *)
Lemma ubyte_frame ρ l own s s' r va :
  cinv ρ l own s -> uroot ρ r -> 0 <= va < MAXVA ->
  user (pte_at (mem s') r va) = user (pte_at (mem s) r va) ->
  (user (pte_at (mem s) r va) = true ->
    PTE2PA (pte_at (mem s') r va) = PTE2PA (pte_at (mem s) r va)) ->
  (forall x, ρ (PGROUNDDOWN x) = RData -> mem s' x = mem s x) ->
  ubyte s' r va = ubyte s r va.
Proof.
  intros Hi Hr Hva Hu Hp Hm. unfold ubyte. rewrite Hu.
  destruct (user (pte_at (mem s) r va)) eqn:E; [|done]. rewrite Hp by done. f_equal. apply Hm.
  destruct (user_mapped _ _ _ _ _ _ Hi Hr Hva E) as (Hmm & Hd).
  rewrite page_offset; [done|]. rewrite pte_at_pt in *. apply PTE2PA_bounds.
  by apply (bi_leaf _ _ _ _ (ci_b _ _ _ _ Hi)).
Qed.

End state.
