(* ===== verification/Pages.v ===== *)
(** * Steps on user memory

    The steps the operations of [vm.c] are made of (growing tables, taking,
    filling, mapping, sharing and dropping a page, changing an entry), each
    with its effect on the invariant of [Cow] and on what user code sees. *)

From S2P Require Import Prelude Riscv Spinlock Str Kalloc Vm PageTable Cow.

Section steps.
Context {H : Type} {SP : Spin H} {LY : Layout} {LO : LayoutOk}.
Implicit Types (s : mstate H) (ρ : Z -> role) (own : Z -> list (Z * Z)).

(** ** Growing the tables *)

Lemma cinv_ext k ρ l own s ρ' l' s' :
  cinv ρ l own s -> tinv ρ' l' s' -> ext k ρ s ρ' s' -> cinv ρ' l' own s'.
Proof.
  intros [Ht Hb] Ht' He. split; [done|].
  eapply binv_ext; [exact Hb| | | |].
  - intros p. destruct (ex_grows _ _ _ _ _ He p) as [->|(E & lv & ? & E')]; [done|].
    rewrite E, E'. done.
  - intros r. unfold uroot. destruct (ex_grows _ _ _ _ _ He r) as [->|(E & lv & ? & E')]; [done|].
    rewrite E, E'. split; [|done]. intros [= _ ->]. lia.
  - intros r v Hr _. unfold pt. by apply (ex_maps _ _ _ _ _ He false).
  - intros p Hp. apply (ex_refs _ _ _ _ _ He); congruence.
Qed.

Lemma delta_ext k ρ0 s0 r V ρ l own s ρ' s' :
  delta ρ0 s0 ρ s r V -> cinv ρ l own s -> ext k ρ s ρ' s' -> delta ρ0 s0 ρ' s' r V.
Proof.
  intros Hd Hi He. eapply delta_trans; [exact Hd|]. split.
  - intros r'. unfold uroot. destruct (ex_grows _ _ _ _ _ He r') as [->|(E & lv & ? & E')]; [done|].
    rewrite E, E'. split; [|done]. intros [= _ ->]. lia.
  - intros r' va Hr Hva _. eapply ubyte_frame; eauto; rewrite ?(ex_maps _ _ _ _ _ He false) by done; try done.
    intros x Hx. apply (ex_keeps _ _ _ _ _ He). by rewrite Hx.
  - intros r' v Hr _ _. unfold pt. by rewrite (ex_maps _ _ _ _ _ He false).
  - intros r' v Hr _ _. unfold pt. by rewrite (ex_maps _ _ _ _ _ He false).
  - intros p Hp. eapply ext_role; eauto. destruct Hp; congruence.
  - intros x Hx. apply (ex_keeps _ _ _ _ _ He). by destruct Hx as [->| ->].
Qed.

(** ** Pages of the kernel *)

(** The tables below the roots of [ρ] are the same. *)
Definition leaves ρ s s' : Prop :=
  forall q va, uroot ρ q -> pte_at (mem s') q va = pte_at (mem s) q va /\
    leaf_addr (mem s') q va = leaf_addr (mem s) q va.

Lemma leaves_pt ρ s s' q v : leaves ρ s s' -> uroot ρ q -> pt s' q v = pt s q v.
Proof. intros Hl Hq. by apply Hl. Qed.

Lemma leaf_load s r v a : leaf_addr (mem s) r (v * PGSIZE) = Some a -> load64 (mem s) a = pt s r v.
Proof. unfold pt, pte_at. by intros ->. Qed.

(** A page that is not user memory, before or after: taking it from the free
    list, filling it, giving it back. *)
Lemma cinv_page ρ l own s p x l' s' :
  cinv ρ l own s -> aligned p ->
  ρ p = RFree \/ ρ p = RKern -> x = RFree \/ x = RKern ->
  same_except p (mem s) (mem s') -> free_inv s' l' ->
  (forall y, <[p := x]> ρ y = RFree <-> y ∈ l') ->
  managed p -> (x = RKern -> ref_count s' (INDEX p) = 1) ->
  (forall y, aligned y -> y <> p -> ref_count s' (INDEX y) = ref_count s (INDEX y)) ->
  cinv (<[p := x]> ρ) l' own s' /\ leaves ρ s s'.
Proof.
  intros [Ht Hb] Hp Ho Hx Hse Hf Hfr Hm H1 Hrc.
  destruct (tinv_page ρ l s p x l' s') as [Ht' Hpt]; try done.
  { intros k lv E. destruct Ho; congruence. }
  { intros k lv E. destruct Hx; congruence. }
  split; [split; [done|]|].
  - eapply binv_role; [exact Hb| | | | | |].
    + destruct Ho; congruence.
    + destruct Hx; congruence.
    + intros v (E & _). unfold uroot in E. destruct Ho; congruence.
    + destruct Hx; congruence.
    + intros r' v Hr _ _. by apply (Hpt false).
    + intros q Hq. apply Hrc; [apply (tinv_aligned _ _ _ q Ht); congruence|].
      intros ->. destruct Ho; congruence.
  - intros q va Hq. by apply (Hpt false).
Qed.

Lemma delta_page ρ0 s0 r V ρ l own s p x s' :
  delta ρ0 s0 ρ s r V -> cinv ρ l own s -> ρ0 p = RFree -> aligned p ->
  ρ p = RFree \/ ρ p = RKern -> (forall k lv, x <> RPT k lv) ->
  same_except p (mem s) (mem s') ->
  leaves ρ s s' ->
  delta ρ0 s0 (<[p := x]> ρ) s' r V.
Proof.
  intros [A1 A2 A3 A4 A5 A6] Hi H0 Hal Hp Hx Hse Hlv.
  pose proof (fun q v => leaves_pt _ _ _ q v Hlv) as Hpt.
  assert (forall y, PGROUNDDOWN y <> p -> mem s' y = mem s y) as Hk.
  { intros y Hy. by apply (same_except_page p). }
  split.
  - intros r'. rewrite <-A1. unfold uroot. rewrite fn_insert_spec. case_decide; [subst|done].
    split; [by intros ?%Hx|]. intros. destruct Hp; congruence.
  - intros r' va Hr Hva Hn. rewrite <-(A2 r' va) by done. apply A1 in Hr.
    eapply ubyte_frame; [exact Hi|exact Hr|done|by rewrite !pte_at_pt, Hpt..|].
    intros y Hy. apply Hk. intros E. rewrite E in Hy. destruct Hp; congruence.
  - intros r' v Hr Hv Hn. rewrite Hpt by by apply A1. auto.
  - intros r' v Hr Hv Hn. rewrite Hpt by by apply A1. auto.
  - intros q Hq. rewrite fn_lookup_insert_ne; [auto|]. intros ->. destruct Hq; congruence.
  - intros y Hy. rewrite Hk; [auto|]. intros <-. destruct Hy; congruence.
Qed.

Lemma other_index ρ l s p q : tinv ρ l s -> ρ p <> RNone -> ρ q <> RNone -> p <> q -> INDEX p <> INDEX q.
Proof. intros Ht Hp Hq Hne E%INDEX_inj; [done|by eapply tinv_aligned..]. Qed.

(** [kalloc] takes a page for the kernel. *)
Lemma wp_kalloc_page ρ l own s n hl (Q : Z -> mstate H -> Prop) :
  (0 < n)%nat -> cinv ρ l own s -> hrep (hart s) hl -> Lkmem ∉ hl ->
  (forall s', l = [] -> cinv ρ [] own s' -> (forall r V, delta ρ s ρ s' r V) -> hrep (hart s') hl -> Q 0 s') ->
  (forall p l' s', l = p :: l' -> ρ p = RFree -> managed p ->
    cinv (<[p := RKern]> ρ) l' own s' -> (forall r V, delta ρ s (<[p := RKern]> ρ) s' r V) ->
    leaves ρ s s' ->
    (forall q, ρ q = RData -> ref_count s' (INDEX q) = ref_count s (INDEX q)) ->
    (forall x, ρ (PGROUNDDOWN x) = RData -> mem s' x = mem s x) ->
    hrep (hart s') hl -> Q p s') ->
  wp kalloc n s Q.
Proof.
  intros Hn Hi Hr Hl HQ0 HQ. pose proof (ci_t _ _ _ _ Hi) as Ht.
  eapply wp_kalloc; [done|apply Ht|exact Hr|done| |].
  - intros h' -> Hr'. apply HQ0; [done| |intros; apply delta_refl|done].
    destruct Hi as [Ht' Hb]. split; [by apply tinv_hart|done].
  - intros p l' h' -> Hm Hp Hf Hr'.
    assert (ρ p = RFree) as Hpf by (apply (ti_role_free _ _ _ Ht); by left).
    assert (forall y, <[p := RKern]> ρ y = RFree <-> y ∈ l') as Hfr.
    { intros y. rewrite fn_insert_spec. case_decide; [subst; by split|].
      rewrite (ti_role_free _ _ _ Ht), elem_of_cons. split; [by intros [->|]|by right]. }
    assert (aligned p) as Hal by apply Hm.
    destruct (cinv_page ρ (p :: l') own s p RKern l' (MState (memset (mem s) p 5 PGSIZE)
      (load64 (mem s) p) (<[INDEX p:=1]> (ref_count s)) h')) as [Hi' Hpt]; auto.
    + apply same_except_memset.
    + intros _. apply fn_lookup_insert.
    + intros y Hy Hne. simpl. rewrite fn_lookup_insert_ne; [done|].
      intros E%INDEX_inj; auto.
    + eapply HQ; eauto.
      * intros r V.
        eapply (delta_page ρ s r V ρ (p :: l') own s p); auto using delta_id. apply same_except_memset.
      * intros q Hq. simpl. rewrite fn_lookup_insert_ne; [done|].
        eapply other_index; [exact Ht|congruence..].
      * intros x Hx. simpl. apply (same_except_page p); [done|apply same_except_memset|congruence].
Qed.

(** [kfree] gives a page of the kernel back. *)
Lemma wp_kfree_page ρ l own s n hl p (Q : unit -> mstate H -> Prop) :
  (0 < n)%nat -> cinv ρ l own s -> hrep (hart s) hl -> Lkmem ∉ hl -> ρ p = RKern ->
  (forall s', cinv (<[p := RFree]> ρ) (p :: l) own s' ->
    (forall ρ0 s0 r V, delta ρ0 s0 ρ s r V -> ρ0 p = RFree -> delta ρ0 s0 (<[p := RFree]> ρ) s' r V) ->
    (forall x, PGROUNDDOWN x <> p -> mem s' x = mem s x) ->
    hrep (hart s') hl -> Q tt s') ->
  wp (kfree p) n s Q.
Proof.
  intros Hn Hi Hr Hl Hp HQ. pose proof (ci_t _ _ _ _ Hi) as Ht.
  assert (managed p) as Hm by (apply (ti_managed _ _ _ Ht); congruence).
  assert (aligned p) as Hal by apply Hm.
  assert (ref_count s (INDEX p) = 1) as H1 by (apply (ti_one _ _ _ Ht); by right).
  assert (p ∉ l) as Hpl. { intros Hin%(ti_role_free _ _ _ Ht). congruence. }
  eapply wp_kfree; [done|apply Ht|exact Hr|done|done|done|lia|lia|].
  intros h' m' _ Hse Hf Hr'.
  destruct (cinv_page ρ l own s p RFree (p :: l)
    (MState m' p (<[INDEX p:=0]> (ref_count s)) h')) as [Hi' Hpt]; auto.
  - intros y. rewrite fn_insert_spec, elem_of_cons. case_decide; [subst; by split; auto|].
    rewrite (ti_role_free _ _ _ Ht). split; [by right|by intros [->|]].
  - done.
  - intros y Hy Hne. simpl. rewrite fn_lookup_insert_ne; [done|]. intros E%INDEX_inj; auto.
  - apply HQ; [done| | |done].
    + intros ρ0 s0 r V Hd H0. eapply delta_page; eauto.
    + intros x Hx. by apply (same_except_page p).
Qed.

(** Filling a page of the kernel. *)
Lemma cinv_fill ρ l own s p m' :
  cinv ρ l own s -> ρ p = RKern -> same_except p (mem s) m' ->
  cinv ρ l own (set_mem m' s) /\
  (forall ρ0 s0 r V, delta ρ0 s0 ρ s r V -> ρ0 p = RFree -> delta ρ0 s0 ρ (set_mem m' s) r V) /\
  leaves ρ s (set_mem m' s).
Proof.
  intros Hi Hp Hse. pose proof (ci_t _ _ _ _ Hi) as Ht.
  assert (managed p) as Hm by (apply (ti_managed _ _ _ Ht); congruence).
  assert (aligned p) as Hal by apply Hm.
  assert (p ∉ l) as Hpl. { intros Hin%(ti_role_free _ _ _ Ht). congruence. }
  assert (<[p := RKern]> ρ = ρ) as Hid by (rewrite <-Hp; apply fn_insert_id).
  destruct (cinv_page ρ l own s p RKern l (set_mem m' s)) as [Hi' Hpt]; auto.
  - eapply free_inv_mem; [apply Ht|done..].
  - rewrite Hid. apply (ti_role_free _ _ _ Ht).
  - intros _. apply (ti_one _ _ _ Ht). by right.
  - rewrite Hid in Hi'. split; [done|]. split; [|done]. intros ρ0 s0 r V Hd H0.
    rewrite <-Hid. eapply delta_page; eauto.
Qed.

(** ** Entries *)

Lemma leaf_of_valid s r v :
  has (pt s r v) PTE_V = true -> exists a, leaf_addr (mem s) r (v * PGSIZE) = Some a /\ load64 (mem s) a = pt s r v.
Proof.
  unfold pt, pte_at. destruct (leaf_addr _ _ _) as [a|]; [eauto|]. by rewrite has_0.
Qed.

Lemma upd_leaf ρ l s r v a e :
  tinv ρ l s -> uroot ρ r -> 0 <= v < TOPVPN -> leaf_addr (mem s) r (v * PGSIZE) = Some a ->
  canon e -> upd_pt ρ (pt s) r v e (pt (set_leaf a e s)).
Proof.
  intros Ht Hr Hv Ha He r' v' Hr' Hv'. unfold pt.
  destruct (va_of_vpn v Hv) as (? & ? & Hvp), (va_of_vpn v' Hv') as (? & ? & Hvp').
  rewrite (set_leaf_pte_at ρ l s r false (v * PGSIZE)) with (k' := false) by done.
  rewrite (canon_u64 e He), Hvp, Hvp'. done.
Qed.

(** What a leaf write does to the views: nothing outside the page, and
    nothing at all when page and access stay. *)
Lemma delta_leaf ρ0 s0 ρ l own s r V r1 v a e :
  delta ρ0 s0 ρ s r V -> cinv ρ l own s -> uroot ρ r1 -> 0 <= v < TOPVPN ->
  leaf_addr (mem s) r1 (v * PGSIZE) = Some a -> canon e ->
  ((r1 = r /\ V v) \/ (v < NVPN /\ has e PTE_V = has (pt s r1 v) PTE_V /\
           user e = user (pt s r1 v) /\ PTE2PA e = PTE2PA (pt s r1 v))) ->
  delta ρ0 s0 ρ (set_leaf a e s) r V.
Proof.
  intros Hd Hi Hr Hv Ha He HV. pose proof (ci_t _ _ _ _ Hi) as Ht.
  pose proof (upd_leaf _ _ _ _ _ _ _ Ht Hr Hv Ha He) as Hu.
  eapply delta_trans; [exact Hd|].
  assert (forall x, solid (ρ (PGROUNDDOWN x)) = true -> mem (set_leaf a e s) x = mem s x) as Hk.
  { intros x Hx. by apply (set_leaf_keeps ρ l s r1 false (v * PGSIZE)). }
  split.
  - done.
  - intros r' va Hr' Hva Hn. pose proof (vpn_range va Hva) as Hvv.
    eapply ubyte_frame; [exact Hi|exact Hr'|done| | |intros x Hx; apply Hk; by rewrite Hx];
      rewrite !pte_at_pt, Hu by done; case_decide as Hq; try done;
      destruct Hq as [-> Hq]; rewrite Hq in *; destruct HV as [?|(_ & ? & ? & ?)]; auto; done.
  - intros r' v' Hr' Hv' Hn. rewrite Hu by done. case_decide as Hq; [|done].
    destruct Hq as [-> ->]. destruct HV as [?|(_ & ? & ? & ?)]; auto. done.
  - intros r' v' Hr' Hv' Hn. rewrite Hu; [|done|pose proof NVPN_eq; lia]. case_decide as Hq; [|done].
    destruct Hq as [-> ->]. destruct HV as [?|(? & ? & ? & ?)]; [|lia]. done.
  - done.
  - intros x Hx. apply Hk. by destruct Hx as [->| ->].
Qed.

(** Changing flags. *)
Lemma cinv_flags ρ l own s r v a e :
  cinv ρ l own s -> mapped ρ (pt s) r v -> leaf_addr (mem s) r (v * PGSIZE) = Some a ->
  canon e -> PTE2PA e = PTE2PA (pt s r v) -> has e PTE_V = true -> has e PTE_R = true ->
  (cow e = false -> own (PTE2PA e) = [(r, v)]) ->
  cinv ρ l own (set_leaf a e s).
Proof.
  intros [Ht Hb] Hm Ha He Hpa HV HR Hc. pose proof Hm as (Hr & Hv & _).
  split; [by eapply tinv_set_leaf|].
  eapply binv_flags; eauto. eapply upd_leaf; eauto. by apply user_vpn.
Qed.

(** Mapping a fresh page. *)
Lemma cinv_map ρ l own s r v a p perm :
  cinv ρ l own s -> ρ p = RKern -> uroot ρ r -> 0 <= v < NVPN ->
  has (pt s r v) PTE_V = false -> leaf_addr (mem s) r (v * PGSIZE) = Some a ->
  0 <= perm < 1024 -> Z.testbit perm 1 = true ->
  cinv (<[p := RData]> ρ) l (<[p := [(r, v)]]> own) (set_leaf a (mkpte p perm) s).
Proof.
  intros [Ht Hb] Hp Hr Hv Hn Ha Hpe HR.
  assert (managed p) as Hm by (apply (ti_managed _ _ _ Ht); congruence).
  pose proof (managed_nonzero p Hm). assert (aligned p) as Hal by apply Hm.
  assert (canon (mkpte p perm)) as Hc by (apply canon_mkpte; lia).
  assert (tinv ρ l (set_leaf a (mkpte p perm) s)) as Ht' by by eapply tinv_set_leaf.
  split.
  - destruct (tinv_page ρ l (set_leaf a (mkpte p perm) s) p RData l (set_leaf a (mkpte p perm) s));
      try done; try apply Ht'; [congruence|].
    intros x. rewrite fn_insert_spec. case_decide; [subst|apply Ht'].
    split; [done|]. intros Hx%(ti_role_free _ _ _ Ht). congruence.
  - eapply binv_map; [exact Hb|done|done|by eapply upd_leaf; eauto using user_vpn| | | |
      by apply PTE2PA_mkpte; [|lia|]|done| | |by apply (ti_one _ _ _ Ht); right|done].
    + intros (_ & _ & E). congruence.
    + congruence.
    + congruence.
    + rewrite V_testbit, mkpte_flag, Z.lor_spec by lia. apply orb_true_r.
    + rewrite R_testbit, mkpte_flag, Z.lor_spec by lia. by rewrite HR.
Qed.

(** Counting references. *)
Lemma tinv_ref ρ l s p x : tinv ρ l s -> ρ p = RData -> tinv ρ l (set_ref (INDEX p) x s).
Proof.
  intros Ht Hp. assert (managed p) as Hm by (apply (ti_managed _ _ _ Ht); congruence).
  assert (<[p := RData]> ρ = ρ) as Hid by (rewrite <-Hp; apply fn_insert_id).
  assert (p ∉ l) as Hpl. { intros Hin%(ti_role_free _ _ _ Ht). congruence. }
  destruct (tinv_page ρ l s p RData l (set_ref (INDEX p) x s)) as [Ht' _]; try done.
  - apply Hm.
  - congruence.
  - apply (free_inv_frame s l p (mem s) x (hart s)); [apply Ht|done..].
  - rewrite Hid. apply Ht.
  - intros y Hy Hne. simpl. rewrite fn_lookup_insert_ne; [done|]. intros E%INDEX_inj; [done|apply Hm|done].
  - by rewrite Hid in Ht'.
Qed.

Lemma delta_mem ρ0 s0 ρ s s' r V : delta ρ0 s0 ρ s r V -> mem s' = mem s -> delta ρ0 s0 ρ s' r V.
Proof.
  intros [A1 A2 A3 A4 A5 A6] E.
  assert (forall r' va, ubyte s' r' va = ubyte s r' va) as E1 by (intros; unfold ubyte; by rewrite E).
  assert (forall r' v, pt s' r' v = pt s r' v) as E2 by (intros; unfold pt; by rewrite E).
  split; auto; intros; rewrite ?E1, ?E2, ?E; auto.
Qed.

(** All mappings of a page marked copy-on-write at one of them are. *)
Lemma own_all_cow ρ own ptf rc r v r' v' :
  binv ρ own ptf rc -> mapped ρ ptf r v -> cow (ptf r v) = true ->
  (r', v') ∈ own (PTE2PA (ptf r v)) -> v' = v /\ cow (ptf r' v') = true.
Proof.
  intros Hb Hm Hc Hin. assert ((r, v) ∈ own (PTE2PA (ptf r v))) as Hin0 by (by apply (bi_own _ _ _ _ Hb)).
  split; [by eapply (bi_vpn _ _ _ _ Hb)|].
  destruct (cow (ptf r' v')) eqn:E; [done|]. apply (bi_own _ _ _ _ Hb) in Hin as [Hm' Hp'].
  pose proof (bi_cow _ _ _ _ Hb r' v' Hm' E) as Ho. rewrite Hp' in Ho. rewrite Ho in Hin0.
  apply list_elem_of_singleton in Hin0. injection Hin0 as -> ->. congruence.
Qed.

Lemma ref_bounds ρ l own s p :
  cinv ρ l own s -> ρ p = RData -> 1 <= ref_count s (INDEX p) <= 32768.
Proof.
  intros [Ht Hb] Hp. destruct (bi_ref _ _ _ _ Hb p Hp) as [-> Hne].
  pose proof (own_bound _ _ _ _ p Hb (ti_managed _ _ _ Ht)).
  destruct (own p); [done|]. simpl in *. lia.
Qed.

(** Sharing the page of [(r, v)] with [(r', v)]. *)
Lemma cinv_share ρ l own s r r' v a e :
  cinv ρ l own s -> mapped ρ (pt s) r v -> pt s r v = e -> cow e = true ->
  uroot ρ r' -> has (pt s r' v) PTE_V = false -> leaf_addr (mem s) r' (v * PGSIZE) = Some a ->
  let p := PTE2PA e in
  let s1 := set_leaf a e s in
  let s2 := set_ref (INDEX p) (u32 (ref_count s1 (INDEX p) + 1)) s1 in
  cinv ρ l (<[p := (r', v) :: own p]> own) s2 /\
  ref_count s2 (INDEX p) = ref_count s (INDEX p) + 1 /\
  forall va, 0 <= va < MAXVA -> vpn va = v -> ubyte s2 r' va = ubyte s r va.
Proof.
  intros Hi Hm <- Hc Hr' Hn Ha p s1 s2. pose proof Hi as [Ht Hb].
  pose proof Hm as (Hr & Hv & HV). destruct (bi_leaf _ _ _ _ Hb _ _ Hm) as (Hca & HR & Hd). fold p in Hd.
  pose proof (ref_bounds _ _ _ _ _ Hi Hd) as Hrb.
  assert (ref_count s2 (INDEX p) = ref_count s (INDEX p) + 1) as Hrc.
  { unfold s2, set_ref. cbn [ref_count]. rewrite fn_lookup_insert. apply u32_small.
    change (ref_count s1) with (ref_count s). lia. }
  assert (tinv ρ l s1) as Ht1 by by apply (tinv_set_leaf ρ l s r' false (v * PGSIZE)).
  pose proof (upd_leaf ρ l s r' v a _ Ht Hr' (user_vpn _ Hv) Ha Hca) as Hu.
  split; [split|split; [done|]].
  - by apply tinv_ref.
  - eapply binv_share; [exact Hb|exact Hr'|exact Hv|exact Hu| |exact Hd|done|done|done|done|done| |done|].
    + intros (_ & _ & E). congruence.
    + intros r0 v0. by apply (own_all_cow ρ own (pt s) (ref_count s) r v).
    + intros q Hq Hne. unfold s2, set_ref. cbn [ref_count].
      rewrite fn_lookup_insert_ne; [done|]. eapply other_index; [exact Ht|congruence..].
  - intros va Hva Hvp. unfold ubyte. change (mem s2) with (mem s1). rewrite !pte_at_pt, Hvp, Hu by auto using user_vpn.
    rewrite decide_True by done. destruct (user (pt s r v)); [|done]. f_equal.
    apply (set_leaf_keeps ρ l s r' false (v * PGSIZE)); try done. rewrite page_offset by by apply PTE2PA_bounds. fold p. by rewrite Hd.
Qed.

(** ** The pages a new address space takes *)

(** The same page is mapped, or none. *)
Definition same_page (e e' : Z) : Prop :=
  has e' PTE_V = has e PTE_V /\ (has e PTE_V = true -> PTE2PA e' = PTE2PA e).

#[global] Instance same_page_preorder : PreOrder same_page.
Proof.
  split; [done|]. intros e1 e2 e3 [A1 A2] [B1 B2]. split; [congruence|]. intros Hv. rewrite B2, A2; congruence.
Qed.

(** Since [s0] the page table [r] has been built from pages that were free;
    all other pages have the role they had and the address spaces of [s0] map
    the pages they mapped. *)
Record under (r : Z) ρ0 s0 ρ s : Prop := {
  un_tree : forall p, p ∈ tree (mem s) 2 r -> ρ0 p = RFree;
  un_rest : forall p, p ∉ tree (mem s) 2 r -> ρ p = ρ0 p;
  un_page : forall r' v, uroot ρ0 r' -> 0 <= v < NVPN -> same_page (pt s0 r' v) (pt s r' v)
}.

Lemma under_root r ρ0 s0 ρ s r' : under r ρ0 s0 ρ s -> uroot ρ0 r' -> uroot ρ r' /\ r' <> r.
Proof.
  intros [A1 A2 _] Hr. unfold uroot in *. split.
  - rewrite A2; [done|]. intros Hin%A1. congruence.
  - intros ->. rewrite A1 in Hr; [done|apply tree_here].
Qed.

(** The tables of [r] grow. *)
Lemma under_ext r ρ0 s0 ρ s ρ' s' :
  pt_wf ρ (mem s) -> pt_wf ρ' (mem s') -> uroot ρ r ->
  ext false ρ s ρ' s' -> hung 2 r ρ ρ' s' -> under r ρ0 s0 ρ s -> under r ρ0 s0 ρ' s'.
Proof.
  intros Hw Hw' Hr He Hh Hu. pose proof (fun r' => under_root _ _ _ _ _ r' Hu) as Hur. destruct Hu as [A1 A2 A3]. split.
  - intros p Hp. destruct (tree_ext_inv false ρ ρ' s s' Hw Hw' He 2 r p Hr Hp) as [|Hf]; [auto|].
    destruct (decide (p ∈ tree (mem s) 2 r)); [auto|]. by rewrite <-A2.
  - intros p Hp. assert (p ∉ tree (mem s) 2 r) as Hp0.
    { intros Hin. apply Hp. by apply (tree_ext_mono false ρ ρ' s s' Hw He 2 r p Hr). }
    destruct (ex_grows _ _ _ _ _ He p) as [->|(Hf & lv & _ & E)]; [auto|]. exfalso. apply Hp, Hh; congruence.
  - intros r' v Hr' Hv. unfold pt at 2. rewrite (ex_maps _ _ _ _ _ He false) by by apply Hur. by apply A3.
Qed.

(** Nothing is taken: at most pages of user memory that only [r] maps are given
    back, the tables are the same and only [r] maps other pages than before. *)
Record thin (r : Z) ρ s ρ' s' : Prop := {
  th_role : forall p, ρ' p = ρ p \/ (ρ p = RData /\
    forall r' v, r' <> r -> mapped ρ (pt s) r' v -> PTE2PA (pt s r' v) <> p);
  th_table : forall q k lv i, ρ q = RPT k (S lv) -> 0 <= i < 512 -> entry (mem s') q i = entry (mem s) q i;
  th_page : forall r' v, uroot ρ r' -> r' <> r -> 0 <= v < NVPN -> same_page (pt s r' v) (pt s' r' v)
}.

Lemma under_thin r ρ0 l0 own0 s0 ρ s ρ' s' :
  cinv ρ0 l0 own0 s0 -> pt_wf ρ (mem s) -> uroot ρ r -> thin r ρ s ρ' s' ->
  under r ρ0 s0 ρ s -> under r ρ0 s0 ρ' s'.
Proof.
  intros Hi Hw Hr [B1 B2 B3] Hu. pose proof (fun r' => under_root _ _ _ _ _ r' Hu) as Hur. destruct Hu as [A1 A2 A3].
  assert (tree (mem s') 2 r = tree (mem s) 2 r) as Et by by apply (tree_upper ρ (mem s) (mem s') false Hw).
  split; rewrite ?Et; [done| |].
  - intros p Hp. destruct (B1 p) as [->|[Hd Hno]]; [auto|]. exfalso. rewrite A2 in Hd by done.
    destruct (bi_ref _ _ _ _ (ci_b _ _ _ _ Hi) p Hd) as [_ Hne]. destruct (own0 p) as [|[r' v] o] eqn:Eo; [done|].
    assert ((r', v) ∈ own0 p) as Hin by (rewrite Eo; by left).
    apply (bi_own _ _ _ _ (ci_b _ _ _ _ Hi)) in Hin as [(Hr' & Hv & HV) Hpa].
    destruct (Hur r' Hr') as [Hr1 Hne1], (A3 r' v Hr' Hv) as [E1 E2].
    apply (Hno r' v Hne1); [split; [done|split; [done|congruence]]|]. by rewrite E2.
  - intros r' v Hr' Hv. destruct (Hur r' Hr'). etrans; [by apply A3|by apply B3].
Qed.

(** A page that is not a table is written. *)
Lemma thin_mem r ρ s s' :
  pt_wf ρ (mem s) -> (forall p, ρ p <> RNone -> aligned p) ->
  (forall x k lv, ρ (PGROUNDDOWN x) = RPT k lv -> mem s' x = mem s x) -> thin r ρ s ρ s'.
Proof.
  intros Hw Hal Hm. assert (forall q k lv i, ρ q = RPT k lv -> 0 <= i < 512 -> entry (mem s') q i = entry (mem s) q i) as He.
  { intros q k lv i Hq Hi. apply entry_page; [apply Hal; congruence|done|]. intros x <-. by eapply Hm. }
  split; [by left|eauto|]. intros r' v Hr' _ _. unfold pt. by rewrite (pte_at_frame ρ (mem s) Hw (mem s') He false).
Qed.

(** An entry of user memory is written, after a page that is not a table. *)
Lemma thin_leaf r ρ l s r1 v a e s1 ρ' :
  tinv ρ l s -> uroot ρ r1 -> leaf_addr (mem s) r1 (v * PGSIZE) = Some a ->
  (forall x k lv, ρ (PGROUNDDOWN x) = RPT k lv -> mem s1 x = mem s x) ->
  upd_pt ρ (pt s) r1 v e (pt (set_leaf a e s1)) -> r1 = r \/ same_page (pt s r1 v) e ->
  (forall p, ρ' p = ρ p \/ (ρ p = RData /\ forall r' v', r' <> r -> mapped ρ (pt s) r' v' -> PTE2PA (pt s r' v') <> p)) ->
  thin r ρ s ρ' (set_leaf a e s1).
Proof.
  intros Ht Hr1 Ha Hm Hu Hs Hrole. destruct (leaf_table _ _ _ _ _ _ _ Ht Hr1 Ha) as (t & Hq & ->).
  pose proof (fun x => tinv_aligned _ _ _ x Ht) as Hal. split; [done| |].
  - intros q k lv i Hq' Hi. unfold set_leaf, set_mem. cbn [mem].
    rewrite entry_store_ne; [|apply Hal; congruence|apply Hal; congruence|apply PX_range; lia|done|left; congruence].
    apply entry_page; [apply Hal; congruence|done|]. intros x <-. by eapply Hm.
  - intros r' v' Hr' Hne Hv'. rewrite Hu by (done || by apply user_vpn). case_decide as E; [|done].
    destruct E as [-> ->]. by destruct Hs.
Qed.

Lemma thin_same r ρ s ρ' s' s2 : mem s2 = mem s' -> thin r ρ s ρ' s' -> thin r ρ s ρ' s2.
Proof. intros E [A1 A2 A3]. split; unfold pt in *; rewrite ?E; done. Qed.

(** What [under] says is kept, whatever the state it started from. *)
Definition stays (r : Z) ρ s ρ' s' : Prop :=
  forall ρ0 l0 own0 s0, cinv ρ0 l0 own0 s0 -> under r ρ0 s0 ρ s -> under r ρ0 s0 ρ' s'.

Lemma stays_refl r ρ s : stays r ρ s ρ s.
Proof. by intros ρ0 l0 own0 s0. Qed.

Lemma stays_trans r ρ s ρ1 s1 ρ2 s2 : stays r ρ s ρ1 s1 -> stays r ρ1 s1 ρ2 s2 -> stays r ρ s ρ2 s2.
Proof. intros A B ρ0 l0 own0 s0 Hi Hu. eauto. Qed.

Lemma stays_thin r ρ l own s ρ' s' : cinv ρ l own s -> uroot ρ r -> thin r ρ s ρ' s' -> stays r ρ s ρ' s'.
Proof. intros Hi Hr Ht ρ0 l0 own0 s0 Hi0 Hu. eapply under_thin; eauto. apply Hi. Qed.

(** The same, when no page is taken. *)
Definition drops (r : Z) ρ s ρ' s' : Prop := stays r ρ s ρ' s' /\ forall p, ρ p = RFree -> ρ' p = RFree.

Lemma drops_refl r ρ s : drops r ρ s ρ s.
Proof. split; [apply stays_refl|done]. Qed.

Lemma drops_trans r ρ s ρ1 s1 ρ2 s2 : drops r ρ s ρ1 s1 -> drops r ρ1 s1 ρ2 s2 -> drops r ρ s ρ2 s2.
Proof. intros [A1 A2] [B1 B2]. split; [by eapply stays_trans|auto]. Qed.

Lemma drops_thin r ρ l own s ρ' s' : cinv ρ l own s -> uroot ρ r -> thin r ρ s ρ' s' -> drops r ρ s ρ' s'.
Proof.
  intros Hi Hr Ht. split; [by eapply stays_thin|]. intros p Hp. destruct (th_role _ _ _ _ _ Ht p) as [->|[E _]]; congruence.
Qed.

Lemma stays_ext r ρ l s ρ' l' s' :
  tinv ρ l s -> tinv ρ' l' s' -> uroot ρ r -> ext false ρ s ρ' s' -> hung 2 r ρ ρ' s' -> stays r ρ s ρ' s'.
Proof. intros Ht Ht' Hr He Hh ρ0 l0 own0 s0 _ Hu. eapply under_ext; eauto; by apply ti_pt in Ht, Ht'. Qed.

(** ** Dropping a page of user memory *)

Lemma drop_shared ρ l own s r v a h' :
  cinv ρ l own s -> mapped ρ (pt s) r v -> leaf_addr (mem s) r (v * PGSIZE) = Some a ->
  let p := PTE2PA (pt s r v) in
  1 < ref_count s (INDEX p) ->
  let s1 := MState (mem s) (freelist s) (<[INDEX p := ref_count s (INDEX p) - 1]> (ref_count s)) h' in
  exists own', cinv ρ l own' (set_leaf a 0 s1) /\ delta ρ s ρ (set_leaf a 0 s1) r (eq v) /\
    (forall q, own' q ⊆ own q) /\ upd_pt ρ (pt s) r v 0 (pt (set_leaf a 0 s1)) /\ drops r ρ s ρ (set_leaf a 0 s1).
Proof.
  intros Hi Hm Ha p Hgt s1. pose proof Hi as [Ht Hb]. pose proof Hm as (Hr & Hv & HV).
  assert (ρ p = RData) as Hp by (by apply (bi_leaf _ _ _ _ Hb)).
  assert (tinv ρ l s1) as Ht1 by (by apply (tinv_hart ρ l (set_ref (INDEX p) _ s)), tinv_ref).
  pose proof (upd_leaf ρ l s1 r v a 0 Ht1 Hr (user_vpn _ Hv) Ha canon_0) as Hu.
  destruct (binv_unmap_shared ρ own (pt s) (ref_count s) (pt (set_leaf a 0 s1)) r v 0 Hb Hr Hv Hu
    (ref_count s1) p) as (own' & Hb' & Hsub); [done|done|apply has_0|done| | |].
  - unfold s1. cbn [ref_count]. apply fn_lookup_insert.
  - intros q Hq Hne. unfold s1. cbn [ref_count]. rewrite fn_lookup_insert_ne; [done|].
    eapply other_index; [exact Ht|congruence..].
  - exists own'. split; [split; [by eapply tinv_set_leaf|done]|]. split; [|split; [done|split; [done|]]].
    2:{ eapply drops_thin; [exact Hi|exact Hr|]. eapply thin_leaf; eauto. }
    eapply (delta_mem _ _ _ (set_leaf a 0 s)); [|done].
    eapply delta_leaf; [|exact Hi|exact Hr|by apply user_vpn|exact Ha|apply canon_0|by left].
    destruct s. apply delta_refl.
Qed.

Lemma drop_last ρ l own s r v a h' m' :
  cinv ρ l own s -> mapped ρ (pt s) r v -> leaf_addr (mem s) r (v * PGSIZE) = Some a ->
  let p := PTE2PA (pt s r v) in
  ref_count s (INDEX p) = 1 -> same_except p (mem s) m' ->
  let s1 := MState m' p (<[INDEX p := 0]> (ref_count s)) h' in
  free_inv s1 (p :: l) ->
  let ρ' := <[p := RFree]> ρ in
  cinv ρ' (p :: l) (<[p := []]> own) (set_leaf a 0 s1) /\ delta ρ s ρ' (set_leaf a 0 s1) r (eq v) /\
  upd_pt ρ (pt s) r v 0 (pt (set_leaf a 0 s1)) /\ drops r ρ s ρ' (set_leaf a 0 s1).
Proof.
  intros Hi Hm Ha p H1 Hse s1 Hf ρ'. pose proof Hi as [Ht Hb]. pose proof Hm as (Hr & Hv & HV).
  assert (ρ p = RData) as Hp by (by apply (bi_leaf _ _ _ _ Hb)).
  assert (managed p) as Hmp by (apply (ti_managed _ _ _ Ht); congruence).
  assert (aligned p) as Hal by apply Hmp.
  assert (forall x, <[p := RFree]> ρ x = RFree <-> x ∈ p :: l) as Hfr.
  { intros x. rewrite fn_insert_spec, elem_of_cons. case_decide; [subst; by split; auto|].
    rewrite (ti_role_free _ _ _ Ht). split; [by right|by intros [->|]]. }
  destruct (tinv_page ρ l s p RFree (p :: l) s1) as [Ht1 Hpt]; try done.
  { congruence. }
  { intros x Hx Hne. unfold s1. cbn [ref_count]. rewrite fn_lookup_insert_ne; [done|].
    intros E%INDEX_inj; done. }
  assert (forall q, uroot ρ' q <-> uroot ρ q) as Hur.
  { intros q. unfold uroot, ρ'. rewrite fn_insert_spec. case_decide as E; [by rewrite <-E, Hp|done]. }
  assert (leaf_addr (mem s1) r (v * PGSIZE) = Some a) as Ha1 by (rewrite <-Ha; by apply (Hpt false)).
  assert (uroot ρ' r) as Hr' by by apply Hur.
  assert (upd_pt ρ (pt s) r v 0 (pt (set_leaf a 0 s1))) as Hu.
  { intros q w Hq Hw. rewrite (upd_leaf ρ' (p :: l) s1 r v a 0) by (done || by apply Hur || by apply user_vpn).
    case_decide; [done|]. unfold pt. by apply (Hpt false). }
  pose proof (own_single ρ own (pt s) (ref_count s) r v Hb p Hm eq_refl H1) as Ho.
  split; [split|split; [|split; [done|]]].
  4:{ eapply drops_thin; [exact Hi|exact Hr|]. eapply thin_leaf; eauto.
      - intros x k lv Hx. apply (same_except_page p); [done|done|congruence].
      - intros y. unfold ρ'. rewrite fn_insert_spec. case_decide as Ey; [subst y; right|by left]. split; [done|].
        intros r' v' Hne Hm' E. assert ((r', v') ∈ own p) as Hin by (by apply (bi_own _ _ _ _ Hb)).
        rewrite Ho in Hin. apply list_elem_of_singleton in Hin. congruence. }
  - by apply (tinv_set_leaf ρ' _ s1 r false (v * PGSIZE)).
  - eapply binv_unmap_last; [exact Hb|done|done|exact Hu|done|done|apply has_0|done|done|done|].
    intros q Hq Hne. unfold set_leaf, set_mem, s1. cbn [ref_count]. rewrite fn_lookup_insert_ne; [done|].
    eapply other_index; [exact Ht|congruence..].
  - assert (forall x, solid (ρ (PGROUNDDOWN x)) = true -> PGROUNDDOWN x <> p ->
      mem (set_leaf a 0 s1) x = mem s x) as Hk.
    { intros x Hx Hne. rewrite (set_leaf_keeps ρ' (p :: l) s1 r false (v * PGSIZE) a 0); try done.
      - by apply (same_except_page p).
      - unfold ρ'. by rewrite fn_lookup_insert_ne. }
    assert (forall q w, uroot ρ q -> 0 <= w < TOPVPN -> ~ (q = r /\ v = w) ->
      pt (set_leaf a 0 s1) q w = pt s q w) as Hpo.
    { intros q w Hq Hw Hn. rewrite Hu by done. rewrite decide_False; [done|].
      intros [-> ->]. by apply Hn. }
    split; auto.
    + intros q va Hq Hva Hn. pose proof (vpn_range va Hva) as Hvv.
      unfold ubyte. rewrite !pte_at_pt, Hpo by done.
      destruct (user (pt s q (vpn va))) eqn:E; [|done]. f_equal. rewrite <-pte_at_pt in E.
      destruct (user_mapped _ _ _ _ _ _ Hi Hq Hva E) as [Hm' Hd]. rewrite pte_at_pt in Hd.
      assert (aligned (PTE2PA (pt s q (vpn va)))) as Hal'.
      { apply PTE2PA_bounds. by apply (bi_leaf _ _ _ _ Hb). }
      apply Hk; rewrite page_offset by done; [by rewrite Hd|]. intros E'. apply Hn.
      assert ((q, vpn va) ∈ own p) as Hin by (by apply (bi_own _ _ _ _ Hb)).
      rewrite Ho in Hin. apply list_elem_of_singleton in Hin. by injection Hin.
    + intros q w Hq Hw Hn. by rewrite Hpo.
    + intros q w Hq Hw Hn. rewrite Hpo; [done|done| |done]. pose proof NVPN_eq. lia.
    + intros q Hq. unfold ρ'. rewrite fn_lookup_insert_ne; [done|]. intros <-. destruct Hq; congruence.
    + intros x Hx. apply Hk; [by destruct Hx as [->| ->]|]. intros <-. destruct Hx; congruence.
Qed.

(** [kfree] of a mapped page followed by clearing the entry. *)
Lemma wp_kfree_mapped ρ l own s n hl r v a (Q : unit -> mstate H -> Prop) :
  (0 < n)%nat -> cinv ρ l own s -> hrep (hart s) hl -> Lkmem ∉ hl ->
  mapped ρ (pt s) r v -> leaf_addr (mem s) r (v * PGSIZE) = Some a ->
  (forall s1 ρ' l' own', cinv ρ' l' own' (set_leaf a 0 s1) -> delta ρ s ρ' (set_leaf a 0 s1) r (eq v) ->
    upd_pt ρ (pt s) r v 0 (pt (set_leaf a 0 s1)) -> drops r ρ s ρ' (set_leaf a 0 s1) -> hrep (hart s1) hl -> Q tt s1) ->
  wp (kfree (PTE2PA (pt s r v))) n s Q.
Proof.
  intros Hn Hi Hh Hl Hm Ha HQ. pose proof Hi as [Ht Hb].
  assert (ρ (PTE2PA (pt s r v)) = RData) as Hp by (by apply (bi_leaf _ _ _ _ Hb)).
  pose proof (ref_bounds _ _ _ _ _ Hi Hp).
  eapply wp_kfree; [done|apply Ht|exact Hh|done|apply (ti_managed _ _ _ Ht); congruence| |lia| |].
  - intros Hin%(ti_role_free _ _ _ Ht). congruence.
  - intros h' Hgt Hf Hr'. destruct (drop_shared ρ l own s r v a h') as (own' & ? & ? & _ & ? & ?); try done.
    by eapply HQ.
  - intros h' m' H1 Hse Hf Hr'. destruct (drop_last ρ l own s r v a h' m') as (? & ? & ? & ?); try done.
    by eapply HQ.
Qed.

(** ** Copying a shared page *)

Lemma delta_role ρ0 s0 ρ s r V p x :
  delta ρ0 s0 ρ s r V -> ρ0 p = RFree -> (forall k lv, ρ p <> RPT k lv) -> (forall k lv, x <> RPT k lv) ->
  delta ρ0 s0 (<[p := x]> ρ) s r V.
Proof.
  intros [A1 A2 A3 A4 A5 A6] H0 Hp Hx. split; auto.
  - intros r'. rewrite <-A1. unfold uroot. rewrite fn_insert_spec. case_decide as E; [subst|done].
    split; [by intros ?%Hx|by intros ?%Hp].
  - intros q Hq. rewrite fn_lookup_insert_ne; [auto|]. intros <-. destruct Hq; congruence.
Qed.

Lemma delta_copied ρ l own s r v a e p2 V :
  cinv ρ l own s -> mapped ρ (pt s) r v -> leaf_addr (mem s) r (v * PGSIZE) = Some a -> canon e ->
  PTE2PA e = p2 -> solid (ρ p2) = true -> has e PTE_V = true ->
  has e PTE_U = has (pt s r v) PTE_U ->
  (forall i, 0 <= i < PGSIZE -> mem s (p2 + i) = mem s (PTE2PA (pt s r v) + i)) ->
  delta ρ s ρ (set_leaf a e s) r V.
Proof.
  intros Hi Hm Ha He Hpa Hs HV HU Hcp. pose proof Hi as [Ht Hb]. pose proof Hm as (Hr & Hv & HV0).
  pose proof (upd_leaf ρ l s r v a e Ht Hr (user_vpn _ Hv) Ha He) as Hu.
  assert (forall x, solid (ρ (PGROUNDDOWN x)) = true -> mem (set_leaf a e s) x = mem s x) as Hk.
  { intros x Hx. by apply (set_leaf_keeps ρ l s r false (v * PGSIZE)). }
  split; auto.
  - intros q va Hq Hva _. pose proof (vpn_range va Hva) as Hvv.
    destruct (decide (q = r /\ vpn va = v)) as [[-> Hvp]|Hn].
    + unfold ubyte. rewrite !pte_at_pt, Hvp, !Hu by auto using user_vpn. rewrite decide_True by done.
      replace (user e) with (user (pt s r v)) by (unfold user; congruence).
      destruct (user (pt s r v)); [|done]. apply (f_equal Some). rewrite Hpa.
      rewrite <-Hcp by (by apply Z.mod_pos_bound). apply Hk. rewrite page_offset; [done|].
      rewrite <-Hpa. by apply PTE2PA_bounds.
    + eapply ubyte_frame; [exact Hi|exact Hq|done| | |intros x Hx; apply Hk; by rewrite Hx];
        rewrite !pte_at_pt, Hu by done; by rewrite decide_False.
  - intros q w Hq Hw _. rewrite Hu by done. case_decide as E; [|done]. destruct E as [-> ->]. congruence.
  - intros q w Hq Hw _. rewrite Hu; [|done|pose proof NVPN_eq; lia]. rewrite decide_False by lia. done.
  - intros x Hx. apply Hk. by destruct Hx as [->| ->].
Qed.

Lemma replace_copy ρ l own s r v a p2 perm h' :
  cinv ρ l own s -> ρ p2 = RKern -> mapped ρ (pt s) r v -> leaf_addr (mem s) r (v * PGSIZE) = Some a ->
  let p := PTE2PA (pt s r v) in
  1 < ref_count s (INDEX p) ->
  (forall i, 0 <= i < PGSIZE -> mem s (p2 + i) = mem s (p + i)) ->
  0 <= perm < 1024 -> Z.testbit perm 1 = true -> Z.testbit perm 4 = has (pt s r v) PTE_U ->
  let s2 := MState (mem (set_leaf a (mkpte p2 perm) s)) (freelist s)
      (<[INDEX p := ref_count s (INDEX p) - 1]> (ref_count s)) h' in
  exists own', cinv (<[p2 := RData]> ρ) l own' s2 /\ own' p2 = [(r, v)] /\
    (forall ρ0 s0 V, delta ρ0 s0 ρ s r V -> ρ0 p2 = RFree -> delta ρ0 s0 (<[p2 := RData]> ρ) s2 r V) /\
    upd_pt ρ (pt s) r v (mkpte p2 perm) (pt s2).
Proof.
  intros Hi Hp2 Hm Ha p Hgt Hcp Hpe HR HU s2. pose proof Hi as [Ht Hb]. pose proof Hm as (Hr & Hv & HV).
  assert (ρ p = RData) as Hp by (by apply (bi_leaf _ _ _ _ Hb)).
  assert (managed p2) as Hm2 by (apply (ti_managed _ _ _ Ht); congruence).
  pose proof (managed_nonzero p2 Hm2). assert (aligned p2) as Hal by apply Hm2.
  set (e := mkpte p2 perm) in *. assert (canon e) as Hc by (apply canon_mkpte; lia).
  assert (PTE2PA e = p2) as Hpa by (apply PTE2PA_mkpte; [done|lia|done]).
  assert (has e PTE_V = true) as HVe.
  { unfold e. rewrite V_testbit, mkpte_flag, Z.lor_spec by lia. apply orb_true_r. }
  assert (has e PTE_R = true) as HRe.
  { unfold e. rewrite R_testbit, mkpte_flag, Z.lor_spec by lia. by rewrite HR. }
  assert (has e PTE_U = has (pt s r v) PTE_U) as HUe.
  { unfold e. rewrite U_testbit, mkpte_flag, Z.lor_spec, HU by lia. apply orb_false_r. }
  pose proof (upd_leaf ρ l s r v a e Ht Hr (user_vpn _ Hv) Ha Hc) as Hu.
  assert (tinv ρ l s2) as Ht2.
  { apply (tinv_hart ρ l (set_ref (INDEX p) _ (set_leaf a e s))), tinv_ref; [|done].
    by apply (tinv_set_leaf ρ l s r false (v * PGSIZE)). }
  set (pt1 := fun r' v' => if decide (r' = r /\ v' = v) then 0 else pt s r' v').
  destruct (binv_unmap_shared ρ own (pt s) (ref_count s) pt1 r v 0 Hb Hr Hv ltac:(done)
    (ref_count s2) p) as (own1 & Hb1 & Hsub); [done|done|apply has_0|done| | |].
  { apply fn_lookup_insert. }
  { intros q Hq Hne. unfold s2. cbn [ref_count]. rewrite fn_lookup_insert_ne; [done|].
    eapply other_index; [exact Ht|congruence..]. }
  exists (<[p2 := [(r, v)]]> own1). split; [split|split; [apply fn_lookup_insert|split; [|done]]].
  - destruct (tinv_page ρ l s2 p2 RData l s2) as [Ht3 _]; try done; try apply Ht2; [congruence|].
    intros x. rewrite fn_insert_spec. case_decide as E; [rewrite <-E|apply Ht2].
    split; [done|]. intros Hx%(ti_role_free _ _ _ Ht). congruence.
  - eapply (binv_map ρ own1 pt1 (ref_count s2) (pt s2) r v e); try done; [|unfold mapped, pt1| | |].
    + intros r' v' Hr' Hv'. unfold pt1. change (pt s2) with (pt (set_leaf a e s)). rewrite Hu by done.
      by case_decide.
    + rewrite decide_True by done. rewrite has_0. by intros (_ & _ & ?).
    + congruence.
    + congruence.
    + apply (ti_one _ _ _ Ht2). by right.
  - intros ρ0 s0 V Hd Hf0. apply delta_role; [|done|congruence|done].
    eapply (delta_mem _ _ _ (set_leaf a e s)); [|done]. eapply delta_trans; [exact Hd|].
    eapply delta_copied; eauto. by rewrite Hp2.
Qed.

End steps.
