(* ===== verification/UserMem.v ===== *)
(** * User memory: what the operations of [vm.c] do

    Specifications of the operations on user page tables against the
    invariant of [Cow], in terms of what user code sees. *)

From S2P Require Import Prelude Riscv Spinlock Str Kalloc Vm PageTable Cow Pages.

(** The number of pages of a user memory of [sz] bytes. *)
Definition pgs (sz : Z) : Z := PGROUNDUP sz / PGSIZE.

Lemma pgs_bounds sz : 0 <= sz < 2 ^ 63 ->
  PGROUNDUP sz = pgs sz * PGSIZE /\ 0 <= pgs sz /\ sz <= pgs sz * PGSIZE < sz + PGSIZE.
Proof.
  intros Hs. unfold pgs. rewrite PGROUNDUP_eq by (pages; lia). pages. Z.div_mod_to_equations. lia.
Qed.

Lemma pgs_mono a b : 0 <= a <= b -> b < 2 ^ 63 -> pgs a <= pgs b.
Proof.
  intros Ha Hb. destruct (pgs_bounds a ltac:(lia)) as (_ & ? & ?), (pgs_bounds b ltac:(lia)) as (_ & ? & ?).
  pages. lia.
Qed.

Lemma pgs_pages k : 0 <= k < 2 ^ 51 -> pgs (k * PGSIZE) = k.
Proof. intros Hk. destruct (pgs_bounds (k * PGSIZE) ltac:(pages; lia)) as (_ & ? & ?). pages. lia. Qed.

Section specs.
Context {H : Type} {SP : Spin H} {LY : Layout} {LO : LayoutOk}.
Implicit Types (s : mstate H) (ρ : Z -> role) (own : Z -> list (Z * Z)).

(** The user memory of page table [r] is [0, sz): exactly its pages are
    mapped below the trapframe. *)
Record aspace ρ s (r sz : Z) : Prop := {
  as_root : uroot ρ r;
  as_size : 0 <= sz < 2 ^ 63 /\ pgs sz <= NVPN;
  as_valid : forall v, 0 <= v < NVPN -> has (pt s r v) PTE_V = bool_decide (v < pgs sz)
}.

Lemma aspace_mapped ρ s r sz v : aspace ρ s r sz -> 0 <= v < pgs sz -> mapped ρ (pt s) r v.
Proof.
  intros [Hr [Hs Hn] Hv] Hlt. split; [done|]. split; [lia|].
  rewrite Hv by lia. by rewrite bool_decide_true by lia.
Qed.

Lemma aspace_bound ρ l own s r sz : cinv ρ l own s -> aspace ρ s r sz -> pgs sz <= 32768.
Proof.
  intros [Ht Hb] Ha. eapply (mapped_bound _ _ _ _ r); [exact Hb|apply Ht|].
  intros v. by eapply aspace_mapped.
Qed.

Lemma aspace_delta ρ s ρ' s' r V r' sz :
  delta ρ s ρ' s' r V -> aspace ρ s r' sz -> (forall v, 0 <= v < NVPN -> V v -> r' <> r) -> aspace ρ' s' r' sz.
Proof.
  intros Hd [Hr Hs Hv] Hne. split; [by apply (d_roots _ _ _ _ _ _ Hd)|done|].
  intros v Hlt. rewrite (d_valid _ _ _ _ _ _ Hd); [auto|done|by apply user_vpn|].
  intros [E ?]. by eapply Hne.
Qed.

Definition range (a b : Z) (v : Z) : Prop := a <= v < b.

Lemma user_va v : 0 <= v < NVPN -> 0 <= v * PGSIZE < MAXVA /\ aligned (v * PGSIZE) /\ vpn (v * PGSIZE) = v.
Proof. intros ?%user_vpn. by apply va_of_vpn. Qed.

(** Reading the entry of a page. *)
Lemma walk_pt s r v n : 0 <= v < TOPVPN ->
  exists a, walk r (v * PGSIZE) false n s = Ret a s /\
    ((a = 0 /\ pt s r v = 0) \/ (leaf_addr (mem s) r (v * PGSIZE) = Some a /\ load64 (mem s) a = pt s r v)).
Proof.
  intros (? & ? & ?)%va_of_vpn. rewrite walk_read by lia. unfold pt, pte_at.
  destruct (leaf_addr _ _ _) as [a|]; eauto.
Qed.

Lemma leaf_nonzero ρ l s r v a :
  tinv ρ l s -> uroot ρ r -> leaf_addr (mem s) r (v * PGSIZE) = Some a -> a <> 0.
Proof.
  intros Ht Hr Ha. destruct (leaf_table _ _ _ _ _ _ _ Ht Hr Ha) as (q & Hq & ->).
  assert (managed q) as Hm%managed_nonzero by (apply (ti_managed _ _ _ Ht); congruence).
  pose proof (PX_range 0 (v * PGSIZE)). lia.
Qed.

Lemma leaf_flags e : has e PTE_R = true -> (PTE_FLAGS e =? PTE_V) = false.
Proof.
  rewrite R_testbit. intros HR. apply Z.eqb_neq. intros E.
  rewrite <-(FLAGS_testbit e 1), E in HR by lia. done.
Qed.

(** Reading the entry of a mapped page. *)
Lemma wp_walk_mapped ρ l own s r v n (Q : Z -> mstate H -> Prop) :
  cinv ρ l own s -> mapped ρ (pt s) r v ->
  (forall a, a <> 0 -> leaf_addr (mem s) r (v * PGSIZE) = Some a -> load64 (mem s) a = pt s r v -> Q a s) ->
  wp (walk r (v * PGSIZE) false) n s Q.
Proof.
  intros Hi (Hr & Hv & HV) HQ. destruct (walk_pt s r v n (user_vpn _ Hv)) as (a & E & [[-> E']|[Ha E']]).
  - rewrite E', has_0 in HV. done.
  - unfold wp. rewrite E. apply HQ; [|done..]. eapply leaf_nonzero; eauto. apply Hi.
Qed.

(** ** uvmunmap *)

Lemma wp_uvmunmap ρ l own s r v0 np n hl :
  np < Z.of_nat n -> cinv ρ l own s -> hrep (hart s) hl -> Lkmem ∉ hl ->
  0 <= v0 -> 0 <= np -> v0 + np <= NVPN ->
  (forall v, v0 <= v < v0 + np -> mapped ρ (pt s) r v) ->
  wp (uvmunmap r (v0 * PGSIZE) np true) n s (fun _ s' => exists ρ' l' own',
    cinv ρ' l' own' s' /\ hrep (hart s') hl /\ delta ρ s ρ' s' r (range v0 (v0 + np)) /\
    (forall v, v0 <= v < v0 + np -> has (pt s' r v) PTE_V = false) /\ drops r ρ s ρ' s').
Proof.
  intros Hn Hi Hh Hl Hv0 Hnp Hhi Hm. pose proof NVPN_eq as HN. unfold uvmunmap.
  replace (v0 * PGSIZE mod PGSIZE =? 0) with true by (pages; by rewrite Z_mod_mult).
  rewrite (u64_small (np * PGSIZE)) by (pages; lia).
  rewrite (u64_small (v0 * PGSIZE + _)) by (pages; lia).
  apply (wp_loop _ (fun k a s1 => exists i ρ1 l1 own1, a = (v0 + i) * PGSIZE /\ 0 <= i <= np /\
      k = Z.to_nat (np - i) /\ cinv ρ1 l1 own1 s1 /\ hrep (hart s1) hl /\
      delta ρ s ρ1 s1 r (range v0 (v0 + np)) /\
      (forall v, v0 <= v < v0 + i -> has (pt s1 r v) PTE_V = false) /\
      (forall v, v0 + i <= v < v0 + np -> mapped ρ1 (pt s1) r v) /\ drops r ρ s ρ1 s1))
    with (k := Z.to_nat np); [|lia|].
  2:{ exists 0, ρ, l, own. rewrite !Z.add_0_r, Z.sub_0_r.
      split_and!; try done; [lia..|apply drops_refl]. }
  intros k a s1 (i & ρ1 & l1 & own1 & -> & Hib & -> & Hi1 & Hh1 & Hd1 & Hz & Hm1 & Hs1).
  destruct (Z.ltb_spec ((v0 + i) * PGSIZE) (v0 * PGSIZE + np * PGSIZE)) as [Hlt|Hge]; simpl.
  2:{ assert (i = np) as -> by (pages; lia). wp_steps. exists ρ1, l1, own1. done. }
  assert (i < np) as Hlt' by (pages; lia). assert (mapped ρ1 (pt s1) r (v0 + i)) as Hmi by (apply Hm1; lia).
  pose proof Hmi as (Hr1 & Hvr & HV).
  wp_step. eapply wp_walk_mapped; [done|done|]. intros a Ha0 Ha Hla.
  rewrite (proj2 (Z.eqb_neq a 0)) by done. unfold get_pte. wp_steps. rewrite Hla, HV. cbn [negb].
  rewrite leaf_flags by (by apply (bi_leaf _ _ _ _ (ci_b _ _ _ _ Hi1))). wp_step. cbn [when].
  eapply wp_kfree_mapped; [lia|done|exact Hh1|done|done|exact Ha|].
  intros s2 ρ2 l2 own2 Hi2 Hd2 Hu2 Hs2 Hh2. unfold set_pte, modify_mem. wp_steps. fold (set_leaf a 0 s2).
  exists (Z.to_nat (np - (i + 1))). split; [lia|]. exists (i + 1), ρ2, l2, own2.
  assert (forall v, 0 <= v < NVPN -> v <> v0 + i -> pt (set_leaf a 0 s2) r v = pt s1 r v) as Hpo.
  { intros v Hv Hne. rewrite Hu2 by (done || by apply user_vpn). rewrite decide_False; [done|]. by intros [_ ?]. }
  split_and!; try done; try lia.
  - rewrite u64_small by (pages; lia). pages. lia.
  - eapply delta_trans; [exact Hd1|]. eapply delta_mono; [|exact Hd2]. intros v <-. unfold range. lia.
  - intros v Hv. destruct (decide (v = v0 + i)) as [->|].
    + rewrite Hu2 by (done || by apply user_vpn). rewrite decide_True by done. apply has_0.
    + rewrite Hpo by lia. apply Hz. lia.
  - intros v Hv. destruct (Hm1 v) as (? & ? & ?); [lia|]. split; [by apply (d_roots _ _ _ _ _ _ Hd2)|].
    rewrite Hpo by lia. done.
  - by eapply drops_trans.
Qed.

(** ** uvmdealloc *)

Lemma wp_uvmdealloc ρ l own s r oldsz newsz n hl :
  32770 < Z.of_nat n -> cinv ρ l own s -> hrep (hart s) hl -> Lkmem ∉ hl ->
  aspace ρ s r oldsz -> 0 <= newsz ->
  wp (uvmdealloc r oldsz newsz) n s (fun sz s' => exists ρ' l' own',
    cinv ρ' l' own' s' /\ hrep (hart s') hl /\ sz = Z.min oldsz newsz /\ aspace ρ' s' r sz /\
    delta ρ s ρ' s' r (range (pgs newsz) (pgs oldsz))).
Proof.
  intros Hn Hi Hh Hl Ha Hnew. pose proof (aspace_bound _ _ _ _ _ _ Hi Ha) as Hb.
  pose proof NVPN_eq as HN. pose proof (as_size _ _ _ _ Ha) as [Hs Hs'].
  unfold uvmdealloc. destruct (Z.leb_spec oldsz newsz) as [Hle|Hgt].
  { wp_steps. exists ρ, l, own. rewrite Z.min_l by done. by split_and!. }
  rewrite Z.min_r by lia.
  destruct (pgs_bounds oldsz ltac:(lia)) as (Eo & ? & ?), (pgs_bounds newsz ltac:(lia)) as (En & ? & ?).
  pose proof (pgs_mono newsz oldsz ltac:(lia) ltac:(lia)).
  assert (forall ρ' s', delta ρ s ρ' s' r (range (pgs newsz) (pgs oldsz)) ->
    (forall v, pgs newsz <= v < pgs oldsz -> has (pt s' r v) PTE_V = false) -> aspace ρ' s' r newsz) as Hfin.
  { intros ρ' s' Hd Hz. split; [by apply (d_roots _ _ _ _ _ _ Hd), Ha|lia|].
    intros v Hv. destruct (decide (pgs newsz <= v < pgs oldsz)) as [Hin|Hout].
    - rewrite Hz by done. by rewrite bool_decide_false by lia.
    - rewrite (d_valid _ _ _ _ _ _ Hd), (as_valid _ _ _ _ Ha); [|done|apply Ha|by apply user_vpn|by intros [_ ?]].
      unfold range in Hout. by apply bool_decide_ext; lia. }
  wp_step. wp_step.
  - intros E. zbool. rewrite Eo, En in *.
    replace ((pgs oldsz * PGSIZE - pgs newsz * PGSIZE) / PGSIZE) with (pgs oldsz - pgs newsz)
      by (pages; Z.div_mod_to_equations; lia).
    rewrite s32_small, u64_small by lia.
    eapply wp_mono; [apply (wp_uvmunmap ρ l own s r (pgs newsz) (pgs oldsz - pgs newsz) n hl); try done; try lia|].
    { intros v Hv. eapply aspace_mapped; [done|lia]. }
    intros [] s' (ρ' & l' & own' & Hi' & Hh' & Hd' & Hz & _).
    replace (pgs newsz + (pgs oldsz - pgs newsz)) with (pgs oldsz) in * by lia.
    wp_steps. exists ρ', l', own'. split_and!; auto.
  - intros E. zbool. rewrite Eo, En in *. wp_steps. exists ρ, l, own.
    split_and!; try done. apply Hfin; [apply delta_id|]. pages. lia.
Qed.

(** ** uvmalloc *)

Lemma aspace_sz ρ s r sz sz' :
  aspace ρ s r sz -> pgs sz' = pgs sz -> 0 <= sz' < 2 ^ 63 -> aspace ρ s r sz'.
Proof. intros [? [? ?] ?] E ?. split; rewrite ?E; auto. Qed.

Lemma ubyte_invalid s r va : has (pt s r (vpn va)) PTE_V = false -> ubyte s r va = None.
Proof. intros E. unfold ubyte, user. by rewrite pte_at_pt, E. Qed.

(** Pages that were not mapped and are not mapped again have not changed. *)
Lemma delta_unmapped ρ s ρ' s' r a b :
  delta ρ s ρ' s' r (range a b) -> b <= NVPN ->
  (forall v, a <= v < b -> has (pt s r v) PTE_V = false) ->
  (forall v, a <= v < b -> has (pt s' r v) PTE_V = false) ->
  forall r' V, delta ρ s ρ' s' r' V.
Proof.
  intros [A1 A2 A3 A4 A5 A6] Hb Hz Hz' r' V. split; auto.
  - intros q va Hq Hva _. destruct (decide (q = r /\ a <= vpn va < b)) as [[-> ?]|Hn]; [|auto].
    by rewrite !ubyte_invalid by auto.
  - intros q v Hq Hv _. destruct (decide (q = r /\ a <= v < b)) as [[-> ?]|Hn]; [|auto].
    by rewrite Hz, Hz' by done.
  - intros q v Hq Hv _. apply A4; [done|done|]. unfold range. lia.
Qed.

(** The permissions of fresh user memory. *)
Definition perm_uwxr : Z := Z.lor PTE_W (Z.lor PTE_X (Z.lor PTE_R PTE_U)).

(** Mapping a fresh page that has been filled. *)
Lemma wp_map_fresh ρ0 s0 ρ l own s r v p perm n hl (Q : Z -> mstate H -> Prop) :
  (0 < n)%nat -> cinv ρ l own s -> hrep (hart s) hl -> Lkmem ∉ hl -> ρ p = RKern ->
  uroot ρ r -> 0 <= v < NVPN -> has (pt s r v) PTE_V = false ->
  0 <= perm < 1024 -> Z.testbit perm 1 = true -> Z.testbit perm 4 = true ->
  (forall V, delta ρ0 s0 ρ s r V) -> ρ0 p = RFree ->
  (forall s1 ρ1, cinv ρ1 [] own s1 -> hrep (hart s1) hl -> ρ1 p = RKern ->
     (forall V, delta ρ0 s0 ρ1 s1 r V) -> (length l < 2)%nat -> Q (-1) s1) ->
  (forall s1 ρ1 l1 own1, (length l <= length l1 + 2)%nat -> cinv ρ1 l1 own1 s1 -> hrep (hart s1) hl -> delta ρ0 s0 ρ1 s1 r (eq v) ->
     (forall v', 0 <= v' < NVPN -> has (pt s1 r v') PTE_V = if decide (v' = v) then true else has (pt s r v') PTE_V) ->
     (forall va, 0 <= va < MAXVA -> vpn va = v -> ubyte s1 r va = Some (mem s (p + va mod PGSIZE))) ->
     Q 0 s1) ->
  wp (mappages r (v * PGSIZE) PGSIZE p perm) n s Q.
Proof.
  intros Hn Hi Hh Hl Hp Hr Hv Hz Hpe HR HU Hd Hp0 HQ1 HQ0.
  destruct (user_va v Hv) as (Hva & Hal & Hvp). pose proof (ci_t _ _ _ _ Hi) as Ht.
  eapply wp_mappages1; [done|exact Ht|exact Hh|done|exact Hr|done|done| |].
  - intros s1 ρ1 Ht1 He1 _ Hh1 Hlen. eapply HQ1; [by eapply cinv_ext|done|by eapply ext_role| |done].
    intros V. by eapply delta_ext.
  - intros s1 ρ1 l1 a Ht1 He1 _ Hh1 Ha Hlen.
    assert (cinv ρ1 l1 own s1) as Hi1 by by eapply cinv_ext.
    assert (ρ1 p = RKern) as Hp1 by by eapply ext_role.
    assert (ρ1 r = RPT false 2) as Hr1 by by eapply ext_role.
    assert (managed p) as Hm by (apply (ti_managed _ _ _ Ht); congruence).
    pose proof (managed_nonzero p Hm). assert (aligned p) as Halp by apply Hm.
    assert (canon (mkpte p perm)) as Hc by (apply canon_mkpte; lia).
    assert (forall v', pt s1 r v' = pt s r v') as Hpt by (intros; unfold pt; by apply (ex_maps _ _ _ _ _ He1 false)).
    pose proof (upd_leaf ρ1 l1 s1 r v a _ Ht1 Hr1 (user_vpn _ Hv) Ha Hc) as Hu.
    eapply (HQ0 _ _ l1); [done| | | | |].
    + eapply cinv_map; eauto. by rewrite Hpt.
    + done.
    + apply delta_role; [|done|congruence|done].
      eapply delta_leaf; [by eapply delta_ext|exact Hi1|done|by apply user_vpn|exact Ha|done|by left].
    + intros v' Hv'. rewrite Hu by (done || by apply user_vpn). case_decide as E.
      * destruct E as [_ ->]. rewrite decide_True by done. pte_bits. done.
      * rewrite decide_False by (intros ->; by apply E). by rewrite Hpt.
    + intros va Hva' Hvp'. unfold ubyte. rewrite !pte_at_pt, Hvp', !Hu by auto using user_vpn.
      rewrite decide_True by done. rewrite PTE2PA_mkpte by (done || lia).
      assert (user (mkpte p perm) = true) as ->.
      { unfold user. rewrite V_testbit, U_testbit, !mkpte_flag, !Z.lor_spec by lia. rewrite HU. by rewrite orb_true_r. }
      apply (f_equal Some). rewrite (set_leaf_keeps ρ1 l1 s1 r false (v * PGSIZE)) by
        (done || rewrite page_offset, Hp1 by done; done).
      apply (ex_keeps _ _ _ _ _ He1). by rewrite page_offset, Hp.
Qed.

(** Fresh pages read as zero. *)
Definition zero_pages s (r a b : Z) : Prop :=
  forall va, a * PGSIZE <= va < b * PGSIZE -> ubyte s r va = Some 0.

(** The failing paths of [uvmalloc] undo what it has mapped. *)
Lemma wp_uvmalloc_fail ρ0 s0 ρ l own s r oldsz v n hl :
  32770 < Z.of_nat n -> cinv ρ l own s -> hrep (hart s) hl -> Lkmem ∉ hl ->
  aspace ρ0 s0 r oldsz -> pgs oldsz <= v -> aspace ρ s r (v * PGSIZE) ->
  delta ρ0 s0 ρ s r (range (pgs oldsz) (v + 1)) -> v < NVPN ->
  wp (uvmdealloc r (v * PGSIZE) (PGROUNDUP oldsz)) n s (fun _ s' => exists ρ' l' own',
    cinv ρ' l' own' s' /\ hrep (hart s') hl /\ aspace ρ' s' r oldsz /\
    forall r' V, delta ρ0 s0 ρ' s' r' V).
Proof.
  intros Hn Hi Hh Hl Ha0 Hv Ha Hd HvN. pose proof (as_size _ _ _ _ Ha0) as [Hs Hs'].
  destruct (pgs_bounds oldsz Hs) as (E & ? & ?). rewrite E.
  pose proof (as_size _ _ _ _ Ha) as [Hvs _]. pose proof NVPN_eq as HN.
  assert (pgs (v * PGSIZE) = v) as Ev by (apply pgs_pages; lia).
  assert (pgs (pgs oldsz * PGSIZE) = pgs oldsz) as Eo by (apply pgs_pages; lia).
  eapply wp_mono; [eapply wp_uvmdealloc; eauto; pages; lia|].
  intros sz s' (ρ' & l' & own' & Hi' & Hh' & -> & Ha' & Hd'). rewrite Ev, Eo in Hd'.
  assert (aspace ρ' s' r oldsz) as Ha1 by (eapply aspace_sz; [exact Ha'|rewrite Z.min_r by (pages; lia); done|done]).
  exists ρ', l', own'. split_and!; try done.
  eapply (delta_unmapped ρ0 s0 ρ' s' r (pgs oldsz) (v + 1)); [|lia| |].
  - eapply delta_trans; [exact Hd|]. eapply delta_mono; [|exact Hd']. unfold range. lia.
  - intros w Hw. rewrite (as_valid _ _ _ _ Ha0) by lia. by rewrite bool_decide_false by lia.
  - intros w Hw. rewrite (as_valid _ _ _ _ Ha1) by lia. by rewrite bool_decide_false by lia.
Qed.

(** The loop of [uvmalloc], which started with the free list [l0], has mapped
    the pages below [v]; each page has cost at most one page of data and two
    of tables. *)
Record grew ρ0 s0 (l0 : list Z) ρ l own s (r oldsz v : Z) (hl : list lockid) : Prop := {
  gr_inv : cinv ρ l own s;
  gr_hart : hrep (hart s) hl;
  gr_space : aspace ρ s r (v * PGSIZE);
  gr_delta : delta ρ0 s0 ρ s r (range (pgs oldsz) v);
  gr_zero : zero_pages s r (pgs oldsz) v;
  gr_cost : Z.of_nat (length l0) <= Z.of_nat (length l) + 3 * (v - pgs oldsz)
}.

(** A page has been mapped. *)
Lemma grew_step ρ0 s0 l0 ρ l own s r oldsz v hl ρ' l' own' s' :
  grew ρ0 s0 l0 ρ l own s r oldsz v hl -> 0 <= v < NVPN -> aspace ρ0 s0 r oldsz ->
  cinv ρ' l' own' s' -> hrep (hart s') hl -> delta ρ s ρ' s' r (eq v) ->
  (forall w, 0 <= w < NVPN -> has (pt s' r w) PTE_V = if decide (w = v) then true else has (pt s r w) PTE_V) ->
  (forall va, 0 <= va < MAXVA -> vpn va = v -> ubyte s' r va = Some 0) ->
  (length l <= length l' + 3)%nat -> pgs oldsz <= v ->
  grew ρ0 s0 l0 ρ' l' own' s' r oldsz (v + 1) hl.
Proof.
  intros [A1 A2 A3 A4 A5 A6] Hv Ha0 Hi Hh Hd Hpt Hz Hlen Hle. pose proof NVPN_eq as HN.
  destruct (pgs_bounds oldsz (proj1 (as_size _ _ _ _ Ha0))) as (_ & ? & _).
  split; [done|done| | | |lia].
  - split; [by apply (d_roots _ _ _ _ _ _ Hd), A3|rewrite pgs_pages by lia; pages; lia|].
    intros w Hw. rewrite Hpt, (as_valid _ _ _ _ A3), !pgs_pages by lia.
    case_decide; [by rewrite bool_decide_true by lia|]. apply bool_decide_ext. lia.
  - eapply delta_trans; [eapply delta_mono; [|exact A4]|eapply delta_mono; [|exact Hd]]; unfold range; lia.
  - intros va Hva. destruct (decide (v * PGSIZE <= va)).
    + apply Hz; [pages; lia|pages; Z.div_mod_to_equations; lia].
    + rewrite (d_view _ _ _ _ _ _ Hd); [apply A5; lia|apply A3|pages; lia|].
      intros [_ Hv']. pages. Z.div_mod_to_equations. lia.
Qed.

(** The outcome of the allocation of one page of [uvmalloc]. *)
Definition grown_page ρ0 s0 l0 (r oldsz v : Z) hl (c : ctl Z Z) s' : Prop :=
  match c with
  | Next a => a = (v + 1) * PGSIZE /\ exists ρ' l' own', grew ρ0 s0 l0 ρ' l' own' s' r oldsz (v + 1) hl
  | Done sz => sz = 0 /\ Z.of_nat (length l0) < 3 * (v + 1 - pgs oldsz) /\
      exists ρ' l' own', cinv ρ' l' own' s' /\ hrep (hart s') hl /\ aspace ρ' s' r oldsz /\ quiet ρ0 s0 ρ' s'
  end.

(** The fresh page [p] is zeroed and mapped. *)
Lemma wp_uvmalloc_map ρ0 s0 l0 ρ l own s r oldsz v p ρ1 s1 n hl :
  32770 < Z.of_nat n -> aspace ρ0 s0 r oldsz -> grew ρ0 s0 l0 ρ (p :: l) own s r oldsz v hl ->
  pgs oldsz <= v < NVPN -> (v + 1) * PGSIZE < 2 ^ 64 -> Lkmem ∉ hl -> ρ p = RFree -> managed p ->
  ρ1 = <[p := RKern]> ρ -> cinv ρ1 l own s1 -> hrep (hart s1) hl -> quiet ρ s ρ1 s1 ->
  wp (modify_mem (fun m => memset m p 0 PGSIZE);;
      x ← mappages r (v * PGSIZE) PGSIZE p perm_uwxr;
      if negb (x =? 0) then
        kfree p;;
        uvmdealloc r (v * PGSIZE) (PGROUNDUP oldsz);;
        mret (Done 0)
      else mret (Next (u64 (v * PGSIZE + PGSIZE)))) n s1 (grown_page ρ0 s0 l0 r oldsz v hl).
Proof.
  intros Hn Ha0 Hg Hv Hov Hl Hpf Hmp Hρ1 Hi1 Hh1 Hd1. pose proof Hg as [A1 A2 A3 A4 A5 A6].
  pose proof (pgs_bounds oldsz (proj1 (as_size _ _ _ _ Ha0))) as (_ & Hp0 & _).
  pose proof (as_size _ _ _ _ A3) as [Hvs _]. pose proof NVPN_eq as HN.
  unfold modify_mem. wp_steps. set (m2 := memset (mem s1) p 0 PGSIZE).
  assert (ρ1 p = RKern) as Hp1 by (rewrite Hρ1; apply fn_lookup_insert).
  destruct (cinv_fill _ _ _ s1 p m2 Hi1) as (Hi2 & Hd2 & _); [done|apply same_except_memset|].
  set (s2 := set_mem m2 s1) in *.
  assert (forall V, delta ρ s ρ1 s2 r V) as Hd by (intros V; apply Hd2; [apply Hd1|done]).
  assert (forall w, 0 <= w < TOPVPN -> has (pt s2 r w) PTE_V = has (pt s r w) PTE_V) as Hpt.
  { intros w Hw. apply (d_valid _ _ _ _ _ _ (Hd (fun _ => False))); [apply A3|done|by intros [_ ?]]. }
  eapply (wp_map_fresh ρ s ρ1 l own s2 r v p perm_uwxr n hl); try done.
  { lia. } { apply (d_roots _ _ _ _ _ _ (Hd (eq v))), A3. } { lia. }
  { rewrite Hpt by (apply user_vpn; lia). rewrite (as_valid _ _ _ _ A3), pgs_pages by lia.
    by rewrite bool_decide_false by lia. }
  - intros s3 ρ3 Hi3 Hh3 Hp3 Hd3 Hlen. simpl. wp_step.
    eapply wp_kfree_page; [lia|exact Hi3|exact Hh3|done|done|]. intros s4 Hi4 Hd4 _ Hh4. wp_step.
    assert (forall V, delta ρ s (<[p := RFree]> ρ3) s4 r V) as Hd5 by auto.
    eapply wp_mono; [eapply wp_uvmalloc_fail; [done|exact Hi4|exact Hh4|done|exact Ha0|lia| | |lia]|].
    + eapply aspace_delta; [exact (Hd5 (fun _ => False))|done|done].
    + eapply delta_trans; [eapply delta_mono; [|exact A4]|apply Hd5]. unfold range. lia.
    + intros ? s6 (ρ6 & l6 & own6 & ? & ? & ? & ?). wp_steps. split; [done|]. simpl in A6.
      split; [lia|]. exists ρ6, l6, own6. by split_and!.
  - intros s3 ρ3 l3 own3 Hlen Hi3 Hh3 Hd3 Hpt3 Hub3. simpl. wp_steps. split.
    { rewrite u64_small by (pages; lia). pages. lia. }
    exists ρ3, l3, own3. eapply grew_step; [exact Hg|lia|done..| | |simpl; lia|lia].
    + intros w Hw. rewrite Hpt3, Hpt by (done || by apply user_vpn). done.
    + intros va Hva Hvp. rewrite Hub3 by done. unfold s2, m2. cbn [mem set_mem]. rewrite memset_spec by done.
      rewrite decide_True; [done|]. pose proof (Z.mod_pos_bound va PGSIZE). pages. lia.
Qed.

(** [uvmalloc] gives zeroed pages up to [newsz] and changes nothing else; or
    it fails, which it does only when fewer than three pages per page asked
    for are free, and then nothing has changed. *)
Lemma wp_uvmalloc ρ l own s r oldsz newsz n hl :
  32770 < Z.of_nat n -> cinv ρ l own s -> hrep (hart s) hl -> Lkmem ∉ hl ->
  aspace ρ s r oldsz -> oldsz <= newsz < 2 ^ 64 ->
  wp (uvmalloc r oldsz newsz) n s (fun sz s' => exists ρ' l' own',
    cinv ρ' l' own' s' /\ hrep (hart s') hl /\
    ((sz = newsz /\ aspace ρ' s' r newsz /\ delta ρ s ρ' s' r (range (pgs oldsz) (pgs newsz)) /\
      zero_pages s' r (pgs oldsz) (pgs newsz) /\
      Z.of_nat (length l) <= Z.of_nat (length l') + 3 * (pgs newsz - pgs oldsz)) \/
     (sz = 0 /\ aspace ρ' s' r oldsz /\ quiet ρ s ρ' s' /\
      (newsz < 2 ^ 63 -> Z.of_nat (length l) < 3 * (pgs newsz - pgs oldsz))))).
Proof.
  intros Hn Hi Hh Hl Ha Hsz. pose proof NVPN_eq as HN.
  pose proof (as_size _ _ _ _ Ha) as [Hs Hs']. destruct (pgs_bounds oldsz Hs) as (E & Hp0 & Hpb).
  unfold uvmalloc. destruct (Z.ltb_spec newsz oldsz); [lia|].
  apply (wp_loop _ (fun k a s1 => exists v ρ1 l1 own1, a = v * PGSIZE /\ pgs oldsz <= v /\
      (v = pgs oldsz \/ (v - 1) * PGSIZE < newsz) /\
      k = Z.to_nat (32769 - v) /\ grew ρ s l ρ1 l1 own1 s1 r oldsz v hl))
    with (k := Z.to_nat (32769 - pgs oldsz)); [|lia|].
  2:{ exists (pgs oldsz), ρ, l, own. rewrite E. split_and!; try done; [by left|].
      split; try done; [|by intros va; lia|lia].
      eapply aspace_sz; [exact Ha|apply pgs_pages; lia|pages; lia]. }
  intros k a s1 (v & ρ1 & l1 & own1 & -> & Hv & Hvn & -> & Hg). pose proof Hg as [A1 A2 A3 A4 A5 A6].
  pose proof (aspace_bound _ _ _ _ _ _ A1 A3) as Hb1. pose proof (as_size _ _ _ _ A3) as [Hvs _].
  rewrite pgs_pages in Hb1 by (pages; lia).
  destruct (Z.ltb_spec (v * PGSIZE) newsz) as [Hlt|Hge]; simpl.
  2:{ wp_steps. exists ρ1, l1, own1. assert (pgs newsz = v) as Ev.
      { destruct (pgs_bounds newsz) as (_ & ? & ?); [pages; lia|]. pages. lia. }
      rewrite Ev. split_and!; try done. left. split_and!; try done.
      eapply aspace_sz; [exact A3|rewrite pgs_pages by lia; done|pages; lia]. }
  assert (newsz < 2 ^ 63 -> v + 1 <= pgs newsz) as Hvq.
  { intros ?. destruct (pgs_bounds newsz) as (_ & ? & ?); pages; lia. }
  apply (wp_mono _ _ _ (grown_page ρ s l r oldsz v hl)).
  - wp_step. eapply wp_kalloc_page; [lia|exact A1|exact A2|done| |].
    + intros s2 -> Hi2 Hd2 Hh2. simpl. wp_step.
      eapply wp_mono; [eapply wp_uvmalloc_fail; [done|exact Hi2|exact Hh2|done|exact Ha|lia| | |lia]|].
      * eapply aspace_delta; [exact (Hd2 r (fun _ => False))|done|done].
      * eapply delta_trans; [eapply delta_mono; [|exact A4]|apply Hd2]. unfold range. lia.
      * intros ? s3 (ρ3 & l3 & own3 & ? & ? & ? & ?). wp_steps. split; [done|]. simpl in A6.
        split; [lia|]. exists ρ3, l3, own3. by split_and!.
    + intros p l2 s2 -> Hpf Hmp Hi2 Hd2 _ _ _ Hh2. pose proof (managed_nonzero p Hmp).
      rewrite (proj2 (Z.eqb_neq p 0)) by lia.
      by eapply wp_uvmalloc_map; [exact Hn|exact Ha|exact Hg|lia|pages; lia|..].
  - intros [a|sz] s2; simpl.
    + intros (-> & ρ2 & l2 & own2 & Hg2). pose proof (aspace_bound _ _ _ _ _ _ (gr_inv _ _ _ _ _ _ _ _ _ _ _ Hg2) (gr_space _ _ _ _ _ _ _ _ _ _ _ Hg2)) as Hb2.
      rewrite pgs_pages in Hb2 by (pages; lia).
      exists (Z.to_nat (32769 - (v + 1))). split; [lia|]. exists (v + 1), ρ2, l2, own2. split_and!; try done; lia.
    + intros (-> & Hlen & ρ2 & l2 & own2 & ? & ? & ? & ?). exists ρ2, l2, own2. split_and!; try done.
      right. split_and!; try done. intros ?%Hvq. lia.
Qed.

(** ** uvmcreate *)

(** A zeroed page becomes the root of an empty address space. *)
Lemma born_root ρ s l own p s1 :
  cinv (<[p := RKern]> ρ) l own s1 -> quiet ρ s (<[p := RKern]> ρ) s1 -> ρ p = RFree ->
  (forall x, p <= x < p + PGSIZE -> mem s1 x = 0) ->
  let ρ' := <[p := RPT false 2]> ρ in
  cinv ρ' l own s1 /\ born ρ s ρ' s1 p /\ aspace ρ' s1 p 0 /\ (forall v, pt s1 p v = 0) /\
  (leaves ρ s s1 -> under p ρ s ρ' s1).
Proof.
  intros [Ht Hb] Hq Hpf H0 ρ'.
  destruct (tinv_new_root _ _ s1 p false Ht) as [Ht' Hz]; [apply fn_lookup_insert|done|].
  rewrite fn_insert_insert in Ht'. assert (forall v, pt s1 p v = 0) as Hz' by (intros; apply Hz).
  split_and!; [split; [done|]| | |done|].
  - unfold ρ'. rewrite <-(fn_insert_insert ρ p (RPT false 2) RKern).
    eapply binv_role; [exact Hb| |done| | |auto|auto].
    + by rewrite fn_lookup_insert.
    + intros v (Hu & _). unfold uroot in Hu. by rewrite fn_lookup_insert in Hu.
    + intros _ v _. by rewrite Hz', has_0.
  - destruct (Hq p (fun _ => False)) as [A1 A2 A3 A4 A5 A6]. split; auto.
    + intros r'. unfold uroot, ρ'. rewrite fn_insert_spec. case_decide; [subst; tauto|]. split; [by left|]. intros [?|?]; congruence.
    + intros r' va Hr Hva. apply A2; [done|done|nope].
    + intros r' v Hr Hva. apply A3; [done|done|nope].
    + intros r' v Hr Hva. apply A4; [done|done|nope].
    + intros q Hq'. unfold ρ'. rewrite fn_lookup_insert_ne; [done|]. intros <-. destruct Hq'; congruence.
  - split; [apply fn_lookup_insert|split; [lia|by vm_compute]|].
    intros v Hv. rewrite Hz', has_0. rewrite bool_decide_false; [done|]. change (pgs 0) with 0. lia.
  - intros Hlv. assert (tree (mem s1) 2 p = [p]) as Et.
    { apply (tree_zero _ 1). intros i Hi. apply load64_zero. intros x ?. apply H0. pages. lia. }
    split; rewrite ?Et.
    + by intros q ->%list_elem_of_singleton.
    + intros q Hq'. apply fn_insert_ne. intros ->. apply Hq'. by left.
    + intros r' v Hr' Hv. by rewrite (leaves_pt ρ s s1).
Qed.

(** A fresh page table is a new, empty address space. *)
Lemma wp_uvmcreate ρ l own s n hl :
  (0 < n)%nat -> cinv ρ l own s -> hrep (hart s) hl -> Lkmem ∉ hl ->
  wp uvmcreate n s (fun r s' => exists ρ' l', cinv ρ' l' own s' /\ hrep (hart s') hl /\
    ((r = 0 /\ l = [] /\ quiet ρ s ρ' s' /\ ρ' = ρ) \/
     (r <> 0 /\ l = r :: l' /\ born ρ s ρ' s' r /\ aspace ρ' s' r 0 /\ (forall v, pt s' r v = 0) /\ under r ρ s ρ' s'))).
Proof.
  intros Hn Hi Hh Hl. unfold uvmcreate. wp_step.
  eapply wp_kalloc_page; [done|exact Hi|exact Hh|done| |].
  { intros s1 -> Hi1 Hd1 Hh1. simpl. wp_steps. exists ρ, []. split; [done|]. split; [done|]. by left. }
  intros p l1 s1 -> Hpf Hmp Hi1 Hd1 Hlv1 _ _ Hh1. pose proof (managed_nonzero p Hmp).
  rewrite (proj2 (Z.eqb_neq p 0)) by lia. unfold modify_mem. wp_steps.
  set (m2 := memset (mem s1) p 0 PGSIZE).
  destruct (cinv_fill _ _ _ s1 p m2 Hi1) as (Hi2 & Hd2 & Hlv2);
    [apply fn_lookup_insert|apply same_except_memset|].
  destruct (born_root ρ s l1 own p (set_mem m2 s1)) as (Hi3 & Hb3 & Ha3 & Hz3 & Hu3); [done| |done| |].
  { intros r V. by apply Hd2. }
  { intros x Hx. unfold m2, set_mem. cbn [mem]. rewrite memset_spec by done. by rewrite decide_True. }
  exists (<[p := RPT false 2]> ρ), l1. split; [done|]. split; [done|]. right. split_and!; try done; [lia|].
  apply Hu3. intros q va Hq. destruct (Hlv1 q va Hq) as [<- <-]. apply Hlv2. unfold uroot. rewrite fn_insert_ne; [done|].
  intros <-. unfold uroot in Hq. congruence.
Qed.

(** ** uvmclear *)

(** [uvmclear] takes one page away from the user and changes nothing else. *)
Lemma wp_uvmclear ρ l own s r v n :
  cinv ρ l own s -> mapped ρ (pt s) r v ->
  wp (uvmclear r (v * PGSIZE)) n s (fun _ s' =>
    cinv ρ l own s' /\ hart s' = hart s /\ delta ρ s ρ s' r (eq v) /\
    (forall w, 0 <= w < TOPVPN -> has (pt s' r w) PTE_V = has (pt s r w) PTE_V) /\
    forall va, vpn va = v -> ubyte s' r va = None).
Proof.
  intros Hi Hm. pose proof Hm as (Hr & Hv & HV). pose proof Hi as [Ht Hb].
  destruct (bi_leaf _ _ _ _ Hb _ _ Hm) as (Hc & HR & HD).
  unfold uvmclear. wp_step. eapply wp_walk_mapped; [done|done|]. intros a Ha0 Ha Hla.
  rewrite (proj2 (Z.eqb_neq a 0)) by done. unfold get_pte, set_pte, modify_mem. wp_steps. rewrite Hla.
  set (e := Z.land (pt s r v) (Z.lnot PTE_U)). fold (set_leaf a e s).
  assert (canon e) as He by by apply canon_clear.
  assert (PTE2PA e = PTE2PA (pt s r v)) as Hpe by by apply PTE2PA_clear.
  assert (has e PTE_V = has (pt s r v) PTE_V /\ has e PTE_R = has (pt s r v) PTE_R /\
    has e PTE_U = false /\ cow e = cow (pt s r v)) as (EV & ER & EU & EC) by (unfold e; split_and!; by pte_bits).
  pose proof (upd_leaf ρ l s r v a e Ht Hr (user_vpn _ Hv) Ha He) as Hu.
  split_and!.
  - eapply cinv_flags; eauto; try congruence. intros Hn. rewrite Hpe. apply (bi_cow _ _ _ _ Hb); congruence.
  - done.
  - eapply delta_leaf; [apply delta_id|exact Hi|exact Hr|by apply user_vpn|exact Ha|done|by left].
  - intros w Hw. rewrite Hu by done. case_decide as E; [|done]. destruct E as [_ ->]. done.
  - intros va Hva. unfold ubyte. rewrite pte_at_pt, Hva, Hu by auto using user_vpn.
    rewrite decide_True by done. unfold user. by rewrite EU, andb_false_r.
Qed.

End specs.
