(* ===== verification/Fork.v ===== *)
(** * Copy-on-write fork: [uvmcopy] *)

From S2P Require Import Prelude Riscv Spinlock Str Kalloc Vm PageTable Cow Pages UserMem.

(** The entry [uvmcopy] leaves in both tables. *)
Definition mark_cow (e : Z) : Z := Z.lor (Z.land e (Z.lnot PTE_W)) PTE_RSW.

Lemma mark_cow_facts e : canon e ->
  canon (mark_cow e) /\ PTE2PA (mark_cow e) = PTE2PA e /\ cow (mark_cow e) = true /\
  has (mark_cow e) PTE_V = has e PTE_V /\ has (mark_cow e) PTE_R = has e PTE_R /\
  has (mark_cow e) PTE_U = has e PTE_U.
Proof.
  intros Hc. unfold mark_cow. split_and!.
  - apply canon_lor; [by apply canon_clear|done].
  - rewrite PTE2PA_lor by done. by apply PTE2PA_clear.
  - by pte_bits.
  - by pte_bits.
  - by pte_bits.
  - by pte_bits.
Qed.

Section fork.
Context {H : Type} {SP : Spin H} {LY : Layout} {LO : LayoutOk}.
Implicit Types (s : mstate H) (ρ : Z -> role) (own : Z -> list (Z * Z)).

(** The first [k] pages of [new] are those of [old], shared copy-on-write. *)
Definition shared s (old new k : Z) : Prop :=
  forall v, 0 <= v < k -> pt s new v = pt s old v /\ cow (pt s old v) = true.

(** One page: marking it, then mapping it in the new table and counting. *)
Lemma mark_page ρ0 s0 ρ l own s r V old v a :
  cinv ρ l own s -> delta ρ0 s0 ρ s r V -> mapped ρ (pt s) old v -> leaf_addr (mem s) old (v * PGSIZE) = Some a ->
  let s1 := set_leaf a (mark_cow (pt s old v)) s in
  cinv ρ l own s1 /\ delta ρ0 s0 ρ s1 r V /\ load64 (mem s1) a = mark_cow (pt s old v) /\
  upd_pt ρ (pt s) old v (mark_cow (pt s old v)) (pt s1).
Proof.
  intros Hi Hd Hm Ha s1. pose proof Hi as [Ht Hb]. pose proof Hm as (Hr & Hv & HV).
  destruct (bi_leaf _ _ _ _ Hb _ _ Hm) as (Hc & HR & HD).
  destruct (mark_cow_facts _ Hc) as (Mc & Mp & Mw & MV & MR & MU).
  split_and!.
  - eapply cinv_flags; eauto; congruence.
  - eapply delta_leaf; [exact Hd|exact Hi|exact Hr|by apply user_vpn|exact Ha|done|].
    right. split_and!; [apply Hv|done|unfold user; congruence|done].
  - unfold s1, set_leaf, set_mem. cbn [mem]. rewrite load64_store64. by apply canon_u64.
  - by eapply upd_leaf; [exact Ht|..]; auto using user_vpn.
Qed.

(** The loop of [uvmcopy] has copied [v] pages. *)
Record copied ρ0 s0 ρ l own s (old new sz v : Z) (hl : list lockid) : Prop := {
  cp_inv : cinv ρ l own s;
  cp_hart : hrep (hart s) hl;
  cp_old : aspace ρ s old sz;
  cp_new : aspace ρ s new (v * PGSIZE);
  cp_delta : delta ρ0 s0 ρ s new (range 0 v);
  cp_shared : shared s old new v;
  cp_view : forall va, 0 <= va < v * PGSIZE -> ubyte s new va = ubyte s0 old va
}.

(** The failing path of [uvmcopy] gives back what it has mapped. *)
Lemma wp_uvmcopy_fail ρ0 s0 ρ l own s old new sz v n hl :
  32770 < Z.of_nat n -> cinv ρ l own s -> hrep (hart s) hl -> Lkmem ∉ hl ->
  aspace ρ s old sz -> aspace ρ s new (v * PGSIZE) -> delta ρ0 s0 ρ s new (range 0 v) ->
  0 <= v <= pgs sz -> aspace ρ0 s0 new 0 -> old <> new ->
  wp (uvmunmap new 0 v true) n s (fun _ s' => exists ρ' l' own',
    cinv ρ' l' own' s' /\ hrep (hart s') hl /\ aspace ρ' s' new 0 /\ aspace ρ' s' old sz /\
    quiet ρ0 s0 ρ' s' /\ stays new ρ s ρ' s').
Proof.
  intros Hn Hi Hh Hl Ho Hw Hd Hv Hn0 Hne. pose proof (as_size _ _ _ _ Ho) as [Hs Hs'].
  pose proof (aspace_bound _ _ _ _ _ _ Hi Ho) as Hb.
  assert (pgs (v * PGSIZE) = v) as Ev by (apply pgs_pages; lia).
  change 0 with (0 * PGSIZE) at 1.
  eapply wp_mono; [apply (wp_uvmunmap ρ l own s new 0 v n hl); try done; try lia|].
  { intros w Hw'. eapply aspace_mapped; [exact Hw|]. lia. }
  intros [] s' (ρ' & l' & own' & Hi' & Hh' & Hd' & Hz & Hs1). rewrite Z.add_0_l in *.
  assert (forall w, 0 <= w < v -> has (pt s0 new w) PTE_V = false) as Hz0.
  { intros w Hw'. rewrite (as_valid _ _ _ _ Hn0) by lia. rewrite bool_decide_false; [done|].
    change (pgs 0) with 0. lia. }
  assert (forall r V, delta ρ0 s0 ρ' s' r V) as Hdd.
  { apply (delta_unmapped ρ0 s0 ρ' s' new 0 v); [|lia|done|done]. eapply delta_trans; [exact Hd|exact Hd']. }
  exists ρ', l', own'. split_and!; try done; [| |apply Hs1].
  - eapply aspace_delta; [apply (Hdd new (fun _ => False))|done|done].
  - eapply aspace_delta; [exact Hd'|done|]. intros; done.
Qed.

(** One round of the loop, when the new table could be extended. *)
Lemma copied_step ρ0 s0 ρ l own s old new sz v hl a ρ2 l2 s2 a2 :
  copied ρ0 s0 ρ l own s old new sz v hl -> uroot ρ0 old -> old <> new -> 0 <= v < pgs sz ->
  leaf_addr (mem s) old (v * PGSIZE) = Some a ->
  let e := mark_cow (pt s old v) in
  let s1 := set_leaf a e s in
  tinv ρ2 l2 s2 -> ext false ρ s1 ρ2 s2 -> hrep (hart s2) hl ->
  leaf_addr (mem s2) new (v * PGSIZE) = Some a2 ->
  let s3 := set_leaf a2 e s2 in
  exists own', copied ρ0 s0 ρ2 l2 own'
    (set_ref (INDEX (PTE2PA e)) (u32 (ref_count s3 (INDEX (PTE2PA e)) + 1)) s3) old new sz (v + 1) hl.
Proof.
  intros [Hi Hh Ho Hw Hd Hsh Hvw] Hr0 Hne Hv Ha e s1 Ht2 He2 Hh2 Ha2 s3.
  pose proof (as_size _ _ _ _ Ho) as [Hs Hs'].
  pose proof (aspace_bound _ _ _ _ _ _ Hi Ho) as Hb. pose proof NVPN_eq as HN.
  assert (mapped ρ (pt s) old v) as Hm by (eapply aspace_mapped; eauto).
  destruct (mark_page ρ s ρ l own s new (fun _ => False) old v a) as (Hi1 & Hd1 & _ & Hu1); try done.
  fold e s1 in Hi1, Hd1, Hu1.
  assert (cinv ρ2 l2 own s2) as Hi2 by by eapply cinv_ext.
  assert (delta ρ s ρ2 s2 new (fun _ => False)) as Hd2 by by eapply delta_ext.
  assert (uroot ρ2 old) as Hro by apply (d_roots _ _ _ _ _ _ Hd2), Ho.
  assert (uroot ρ2 new) as Hrn2 by apply (d_roots _ _ _ _ _ _ Hd2), Hw.
  destruct (bi_leaf _ _ _ _ (ci_b _ _ _ _ Hi) _ _ Hm) as (Hc & HR & HD).
  destruct (mark_cow_facts _ Hc) as (Mc & Mp & Mw & MV & MR & MU). fold e in Mc, Mp, Mw, MV, MR, MU.
  assert (forall r w, uroot ρ r -> 0 <= w < TOPVPN ->
    pt s2 r w = if decide (r = old /\ w = v) then e else pt s r w) as Hpt2.
  { intros r w Hr Hw'. rewrite <-Hu1 by done. unfold pt. by apply (ex_maps _ _ _ _ _ He2 false). }
  assert (0 <= v < TOPVPN) as HvT by (apply user_vpn; lia).
  assert (pt s2 old v = e) as He by (rewrite Hpt2 by (done || apply Ho); by rewrite decide_True).
  assert (has (pt s2 new v) PTE_V = false) as Hnew.
  { rewrite Hpt2, decide_False by (done || apply Hw || nope).
    rewrite (as_valid _ _ _ _ Hw), pgs_pages by lia. by rewrite bool_decide_false by lia. }
  destruct (cinv_share ρ2 l2 own s2 old new v a2 e) as (Hi4 & _ & Hv4); try done.
  { split; [done|]. split; [lia|]. rewrite He, MV. apply Hm. }
  fold s3 in Hi4, Hv4. set (s4 := set_ref _ _ s3) in *.
  assert (delta ρ s ρ2 s4 new (eq v)) as Hd4.
  { apply (delta_mem _ _ _ s3); [|done].
    eapply delta_leaf; [eapply delta_mono; [|exact Hd2]; done|exact Hi2|exact Hrn2|done|exact Ha2|done|by left]. }
  pose proof (upd_leaf ρ2 l2 s2 new v a2 e Ht2 Hrn2 HvT Ha2 Mc) as Hu3.
  assert (forall r w, uroot ρ r -> 0 <= w < TOPVPN ->
    pt s4 r w = if decide ((r = old \/ r = new) /\ w = v) then e else pt s r w) as Hpt4.
  { intros r w Hr Hw'. change (pt s4) with (pt s3). unfold s3. rewrite Hu3, Hpt2 by
      (done || by apply (d_roots _ _ _ _ _ _ Hd2)). repeat case_decide; try done; nope. }
  eexists. split; [exact Hi4|done| | | | |].
  - eapply aspace_delta; [exact Hd4|done|done].
  - split; [done|rewrite pgs_pages by lia; pages; lia|]. intros w Hw'.
    rewrite Hpt4 by (apply Hw || by apply user_vpn). rewrite pgs_pages by lia. case_decide as Hq.
    + rewrite MV. destruct Hm as (_ & _ & ->). by rewrite bool_decide_true by lia.
    + rewrite (as_valid _ _ _ _ Hw), pgs_pages by lia. apply bool_decide_ext.
      assert (w <> v) by (intros ->; apply Hq; auto). lia.
  - eapply delta_trans; [eapply delta_mono; [|exact Hd]|eapply delta_mono; [|exact Hd4]]; unfold range; lia.
  - intros w Hw'. rewrite !Hpt4 by (apply Hw || apply Ho || apply user_vpn; lia).
    destruct (decide (w = v)) as [->|Hwv].
    + rewrite !decide_True by auto. done.
    + rewrite !decide_False by nope. apply Hsh. lia.
  - intros va Hva. destruct (decide (v * PGSIZE <= va)).
    + rewrite Hv4; [|pages; lia|pages; Z.div_mod_to_equations; lia].
      rewrite (d_view _ _ _ _ _ _ Hd2); [|apply Ho|pages; lia|nope].
      apply (d_view _ _ _ _ _ _ Hd); [done|pages; lia|nope].
    + rewrite (d_view _ _ _ _ _ _ Hd4); [apply Hvw; lia|apply Hw|pages; lia|].
      intros [_ Hq]. pages. Z.div_mod_to_equations. lia.
Qed.

(** [uvmcopy] into an empty table succeeds, or fails when fewer than two pages
    per page to copy are free; a failure has no effect on user memory. *)
Lemma wp_uvmcopy ρ l own s old new sz n hl :
  32770 < Z.of_nat n -> cinv ρ l own s -> hrep (hart s) hl -> Lkmem ∉ hl ->
  aspace ρ s old sz -> aspace ρ s new 0 -> old <> new ->
  wp (uvmcopy old new sz) n s (fun res s' => exists ρ' l' own',
    (res = 0 /\ copied ρ s ρ' l' own' s' old new sz (pgs sz) hl) \/
    (res = -1 /\ cinv ρ' l' own' s' /\ hrep (hart s') hl /\ aspace ρ' s' new 0 /\ aspace ρ' s' old sz /\
     quiet ρ s ρ' s' /\ Z.of_nat (length l) < 2 * pgs sz /\ stays new ρ s ρ' s')).
Proof.
  intros Hn Hi Hh Hl Ho Hw Hne. pose proof (as_size _ _ _ _ Ho) as [Hs Hs'].
  pose proof (aspace_bound _ _ _ _ _ _ Hi Ho) as Hb. pose proof NVPN_eq as HN.
  destruct (pgs_bounds sz Hs) as (_ & ? & Hpb).
  unfold uvmcopy. apply (wp_loop _ (fun k i s1 => exists v ρ1 l1 own1, i = v * PGSIZE /\ 0 <= v <= pgs sz /\
      k = Z.to_nat (pgs sz - v) /\ Z.of_nat (length l) <= Z.of_nat (length l1) + 2 * v /\
      copied ρ s ρ1 l1 own1 s1 old new sz v hl /\ stays new ρ s ρ1 s1))
    with (k := Z.to_nat (pgs sz)); [|lia|].
  2:{ exists 0, ρ, l, own. rewrite Z.sub_0_r. split_and!; try done; [lia| |apply stays_refl]. split; try done; intros ?; lia. }
  intros k i s1 (v & ρ1 & l1 & own1 & -> & Hv & -> & Hlen & Hc & Hs1).
  destruct (Z.ltb_spec (v * PGSIZE) sz) as [Hlt|Hge]; simpl.
  2:{ wp_steps. exists ρ1, l1, own1. left. split; [done|].
      replace (pgs sz) with v by (pages; lia). done. }
  assert (v < pgs sz) as Hlt' by (pages; lia). pose proof Hc as [Hi1 Hh1 Ho1 Hw1 Hd1 Hsh1 Hvw1].
  assert (mapped ρ1 (pt s1) old v) as Hm by (eapply aspace_mapped; [exact Ho1|lia]).
  wp_step. eapply wp_walk_mapped; [done|done|]. intros a Ha0 Ha Hla.
  rewrite (proj2 (Z.eqb_neq a 0)) by done. unfold get_pte. wp_steps.
  rewrite Hla. pose proof Hm as (Hr1 & Hvr & HV). rewrite HV. simpl.
  destruct (mark_page ρ1 s1 ρ1 l1 own1 s1 new (fun _ => False) old v a) as (Hi2 & Hd2 & Hla2 & Hup2); try done.
  unfold set_pte, modify_mem. wp_steps. fold (mark_cow (pt s1 old v)).
  fold (set_leaf a (mark_cow (pt s1 old v)) s1). set (s2 := set_leaf a _ s1) in *. rewrite Hla2.
  destruct (bi_leaf _ _ _ _ (ci_b _ _ _ _ Hi1) _ _ Hm) as (Hca & HR & HD).
  destruct (mark_cow_facts _ Hca) as (Mc & Mp & Mw & MV & MR & MU).
  set (e := mark_cow (pt s1 old v)) in *.
  assert (mkpte (PTE2PA e) (PTE_FLAGS e) = e) as Hmk.
  { apply mkpte_of; [done|]. rewrite <-V_testbit. congruence. }
  destruct (user_va v Hvr) as (Hva & Hal & _).
  assert (stays new ρ1 s1 ρ1 s2) as Hs2.
  { eapply stays_thin; [exact Hi1|apply Hw1|]. eapply thin_leaf; eauto; [apply Hi1|]. right. split; congruence. }
  eapply wp_mappages1; [lia|apply Hi2|exact Hh1|done|apply Hw1|done|done| |].
  - intros s3 ρ3 Ht3 He3 Hu3 Hh3 Hlen3. simpl. wp_step.
    replace (v * PGSIZE / PGSIZE) with v by (pages; by rewrite Z.div_mul).
    assert (delta ρ1 s1 ρ3 s3 new (fun _ => False)) as Hd3 by by eapply delta_ext.
    eapply wp_mono; [eapply (wp_uvmcopy_fail ρ s ρ3 [] own1 s3 old new sz v n hl); try done|].
    + by eapply cinv_ext.
    + eapply aspace_delta; [exact Hd3|done|done].
    + eapply aspace_delta; [exact Hd3|done|done].
    + eapply delta_trans; [exact Hd1|]. eapply delta_mono; [|exact Hd3]. done.
    + intros [] s4 (ρ4 & l4 & own4 & ? & ? & ? & ? & ? & Hs4). wp_steps. exists ρ4, l4, own4. right.
      split_and!; try done; [lia|]. eapply stays_trans; [exact Hs1|]. eapply stays_trans; [exact Hs2|].
      eapply stays_trans; [eapply stays_ext; [apply Hi2|exact Ht3|apply Hw1|done|done]|exact Hs4].
  - intros s3 ρ3 l3 a3 Ht3 He3 Hu3 Hh3 Ha3 Hlen3. rewrite Hmk. simpl. unfold add_kmem_ref. wp_steps.
    destruct (copied_step ρ s ρ1 l1 own1 s1 old new sz v hl a ρ3 l3 s3 a3) as (own4 & Hc4);
      try done; [apply Ho|lia|].
    exists (Z.to_nat (pgs sz - (v + 1))). split; [lia|]. exists (v + 1), ρ3, l3, own4.
    assert (uroot ρ3 new) as Hr3 by (eapply ext_role; [exact He3|apply Hw1|done]).
    split_and!; try done; try lia.
    + rewrite u64_small by (pages; lia). pages. lia.
    + eapply stays_trans; [exact Hs1|]. eapply stays_trans; [exact Hs2|].
      eapply stays_trans; [eapply stays_ext; [apply Hi2|exact Ht3|apply Hw1|done|done]|].
      eapply stays_thin; [eapply cinv_ext; [exact Hi2|done|done]|done|].
      apply (thin_same _ _ _ _ (set_leaf a3 e s3)), (thin_leaf new ρ3 l3 s3 new v a3 e s3 ρ3); auto.
      apply (upd_leaf ρ3 l3 s3); [done|done|by apply user_vpn|done|done].
Qed.

End fork.
