(* ===== verification/FreeVm.v ===== *)
(** * Freeing page tables: [freewalk] and [uvmfree] *)

From Stdlib Require Import FunctionalExtensionality.
From S2P Require Import Prelude Riscv Spinlock Str Kalloc Vm PageTable Cow Pages UserMem.

(** ** freewalk *)

(** The pages of [T] are free. *)
Definition mark (T : list Z) (ρ : Z -> role) (p : Z) : role :=
  if decide (p ∈ T) then RFree else ρ p.

Lemma mark_app T T' ρ : mark (T ++ T') ρ = mark T' (mark T ρ).
Proof.
  apply functional_extensionality. intros p. unfold mark.
  pose proof (elem_of_app T T' p). repeat case_decide; tauto.
Qed.

Lemma mark_cons q T ρ : mark (q :: T) ρ = <[q := RFree]> (mark T ρ).
Proof.
  apply functional_extensionality. intros p. rewrite fn_insert_spec. unfold mark.
  assert (p ∈ q :: T <-> q = p \/ p ∈ T) by (rewrite elem_of_cons; split; intros [->|]; auto).
  repeat case_decide; subst; try done; exfalso; tauto.
Qed.

Lemma mark_nil ρ : mark [] ρ = ρ.
Proof. apply functional_extensionality. intros p. unfold mark. by rewrite decide_False by apply not_elem_of_nil. Qed.

Lemma mark_out T ρ p : p ∉ T -> mark T ρ p = ρ p.
Proof. intros. unfold mark. by rewrite decide_False. Qed.

Section freewalk.
Context {H : Type} {SP : Spin H} {LY : Layout} {LO : LayoutOk}.
Implicit Types (s : mstate H) (ρ : Z -> role) (own : Z -> list (Z * Z)).

(** Freed so far, in the loop of [freewalk] on the table [q] of [m]. *)
Record walked ρ own s (lv : nat) (q j : Z) (hl : list lockid) s1 : Prop := {
  wk_inv : exists l1, cinv (mark (kids (mem s) (tree (mem s) lv) q j) ρ) l1 own s1;
  wk_hart : hrep (hart s1) hl;
  wk_mem : forall x, PGROUNDDOWN x ∉ kids (mem s) (tree (mem s) lv) q j -> PGROUNDDOWN x <> q ->
    mem s1 x = mem s x;
  wk_rest : forall i, j <= i < 512 -> entry (mem s1) q i = entry (mem s) q i
}.

Lemma kern_aligned ρ l own s p : cinv ρ l own s -> ρ p = RKern -> aligned p.
Proof. intros Hi Hp. eapply tinv_aligned; [apply Hi|congruence]. Qed.

Lemma wp_freewalk_n n hl (Hn : (0 < n)%nat) (Hl : Lkmem ∉ hl) lv : forall d q ρ l own s,
  (lv < d)%nat -> cinv ρ l own s -> hrep (hart s) hl ->
  (forall p, p ∈ tree (mem s) lv q -> ρ p = RKern) -> NoDup (tree (mem s) lv q) -> bare (mem s) lv q ->
  wp (freewalk_n d q) n s (fun _ s' => exists l', cinv (mark (tree (mem s) lv q) ρ) l' own s' /\
    hrep (hart s') hl /\ forall x, PGROUNDDOWN x ∉ tree (mem s) lv q -> mem s' x = mem s x).
Proof.
  induction lv as [|lv IH]; intros [|d] q ρ l own s Hd Hi Hh Hk Hnd Hb; try lia; cbn [freewalk_n].
  - wp_step. apply (wp_for (fun _ s1 => s1 = s)); [done| |].
    + intros j s1 Hj ->. unfold get_pte. wp_steps. fold (entry (mem s) q j).
      rewrite !Hb by lia. simpl. wp_steps. done.
    + intros s1 ->. eapply wp_kfree_page; [done|exact Hi|exact Hh|done|apply Hk, list_elem_of_here|].
      intros s1 Hi1 _ Hm1 Hh1. exists (q :: l). simpl. rewrite mark_cons, mark_nil.
      split_and!; try done. intros x Hx. apply Hm1. set_solver.
  - cbn [tree] in *. set (m := mem s) in *. set (tr := tree m lv) in *.
    apply NoDup_cons in Hnd as [Hq Hnd].
    assert (ρ q = RKern) as Hqk by (apply Hk, list_elem_of_here).
    assert (aligned q) as Hal by by eapply kern_aligned.
    wp_step. apply (wp_for (fun j s1 => walked ρ own s lv q j hl s1)).
    + split; try done. exists l. unfold kids. simpl. by rewrite mark_nil.
    + intros j s1 Hj [[l1 Hi1] Hh1 Hm1 Hr1]. fold m tr in Hi1, Hm1, Hr1.
      unfold get_pte. wp_steps. fold (entry (mem s1) q j). rewrite Hr1 by lia. fold m.
      pose proof (kids_S m tr q j) as HS.
      destruct (has (entry m q j) PTE_V) eqn:HV.
      2:{ simpl. wp_steps. split; fold m tr; rewrite ?HS, ?app_nil_r by lia; try done; [by exists l1|].
          intros i Hi'. apply Hr1. lia. }
      destruct (Hb j ltac:(lia) HV) as [Hrwx Hbc]. rewrite Hrwx. simpl.
      set (c := PTE2PA (entry m q j)) in *.
      destruct (kids_prefix m tr q (j + 1)) as [rest Hrest]; [lia|].
      rewrite HS, <-app_assoc in Hrest by lia. rewrite Hrest in Hnd, Hq.
      apply NoDup_app in Hnd as (_ & Hdisj & Hnd'). apply NoDup_app in Hnd' as (Hndc & _ & _).
      assert (forall p, p ∈ tr c -> (p ∉ kids m tr q j) /\ p <> q /\ ρ p = RKern) as Hpc.
      { intros p Hp. split; [intros Hin; by apply (Hdisj p Hin), elem_of_app; left|].
        split; [intros ->; apply Hq; rewrite !elem_of_app; auto|].
        apply Hk. right. rewrite Hrest, !elem_of_app. auto. }
      destruct (tree_frame m (mem s1) lv c) as [Etr Ebare].
      { intros p i Hp Hi'. destruct (Hpc p Hp) as (? & ? & ?). apply entry_page; [by apply (kern_aligned ρ l own s)|done|].
        intros x <-. by apply Hm1. }
      wp_step. eapply wp_mono; [apply (IH d c (mark (kids m tr q j) ρ) l1 own s1); rewrite ?Etr; auto; [lia|]|].
      { intros p Hp. destruct (Hpc p Hp) as (? & _ & ?). by rewrite mark_out. }
      intros [] s2 (l2 & Hi2 & Hh2 & Hm2). rewrite Etr in Hi2, Hm2. fold tr in Hi2, Hm2.
      rewrite <-mark_app in Hi2. unfold set_pte, modify_mem. wp_steps.
      assert (q ∉ kids m tr q j ++ tr c) as Hqn by (rewrite !not_elem_of_app in *; tauto).
      destruct (cinv_fill _ _ _ s2 q (store64 (mem s2) (q + 8 * j) 0) Hi2) as (Hi3 & _ & _).
      { by rewrite mark_out. } { apply same_except_store64; pages; lia. }
      split; fold m tr; rewrite ?HS by lia.
      * by exists l2.
      * done.
      * intros x Hx Hxq. rewrite not_elem_of_app in Hx. unfold set_mem. cbn [mem].
        rewrite store64_out; [rewrite Hm2, Hm1; tauto|].
        destruct (aligned_disjoint (PGROUNDDOWN x) q); auto using PGROUNDDOWN_is_aligned;
          pose proof (PGROUNDDOWN_bounds x); pages; lia.
      * intros i Hi'. unfold set_mem. cbn [mem]. rewrite entry_store_ne by (done || lia).
        rewrite <-(Hr1 i) by lia. apply entry_page; [done|lia|]. intros x Hx. apply Hm2.
        rewrite Hx. rewrite !not_elem_of_app in *. tauto.
    + intros s1 [[l1 Hi1] Hh1 Hm1 _]. fold m tr in Hi1, Hm1. simpl in Hi1.
      eapply wp_kfree_page; [done|exact Hi1|exact Hh1|done|by rewrite mark_out|].
      intros s2 Hi2 _ Hm2 Hh2. exists (q :: l1). rewrite mark_cons. split_and!; try done.
      intros x Hx. rewrite not_elem_of_cons in Hx. rewrite Hm2, Hm1; tauto.
Qed.

(** ** Detaching a page table *)

(** The pages of [T] are plain kernel pages. *)
Definition detach (T : list Z) ρ (p : Z) : role := if decide (p ∈ T) then RKern else ρ p.

Lemma land_rwx e : Z.testbit e 1 = false -> Z.testbit e 2 = false -> Z.testbit e 3 = false ->
  Z.land e (Z.lor PTE_R (Z.lor PTE_W PTE_X)) = 0.
Proof.
  intros H1 H2 H3. apply Z.bits_inj'. intros i Hi. rewrite Z.land_spec, Z.bits_0.
  rewrite !Z.lor_spec. unfold PTE_R, PTE_W, PTE_X. rewrite !Z.shiftl_1_l, !Z.pow2_bits_eqb by lia.
  destruct (Z.eqb_spec 1 i) as [<-|]; [by rewrite H1|].
  destruct (Z.eqb_spec 2 i) as [<-|]; [by rewrite H2|].
  destruct (Z.eqb_spec 3 i) as [<-|]; [by rewrite H3|]. apply andb_false_r.
Qed.

Lemma table_entry_rwx ρ l s q k lv i :
  tinv ρ l s -> ρ q = RPT k (S lv) -> 0 <= i < 512 -> has (entry (mem s) q i) PTE_V = true ->
  Z.land (entry (mem s) q i) (Z.lor PTE_R (Z.lor PTE_W PTE_X)) = 0.
Proof.
  intros Ht Hq Hi HV. destruct (pw_child _ _ (ti_pt _ _ _ Ht) q k lv i) as [Hc E]; try done.
  assert (managed (PTE2PA (entry (mem s) q i))) as Hm%managed_nonzero
    by (apply (ti_managed _ _ _ Ht); congruence).
  rewrite E. set (p := PTE2PA _) in *.
  replace (Z.lor (PA2PTE p) PTE_V) with (mkpte p 0) by (unfold mkpte; by rewrite Z.lor_0_r).
  apply land_rwx; rewrite mkpte_flag by lia; done.
Qed.

Lemma PX_of i2 i1 i0 : 0 <= i2 < 256 -> 0 <= i1 < 512 -> 0 <= i0 < 512 ->
  let va := ((i2 * 512 + i1) * 512 + i0) * PGSIZE in
  PX 2 va = i2 /\ PX 1 va = i1 /\ PX 0 va = i0 /\ 0 <= (i2 * 512 + i1) * 512 + i0 < TOPVPN.
Proof.
  intros H2 H1 H0 va. unfold va. rewrite !PX_digit by lia. rewrite TOPVPN_eq. pages.
  rewrite Z.div_mul by lia. change (512 ^ 2) with 262144. change (512 ^ 1) with 512. change (512 ^ 0) with 1.
  set (v := (i2 * 512 + i1) * 512 + i0).
  assert (v / 262144 = i2) as -> by (symmetry; apply (Z.div_unique _ _ _ (i1 * 512 + i0)); unfold v; lia).
  assert (v / 512 = i2 * 512 + i1) as -> by (symmetry; apply (Z.div_unique _ _ _ i0); unfold v; lia).
  rewrite Z.div_1_r, (Z.mod_small i2) by lia. split; [done|].
  split; [symmetry; apply (Z.mod_unique _ _ i2); lia|].
  split; [symmetry; apply (Z.mod_unique _ _ (i2 * 512 + i1)); unfold v; lia|unfold v; lia].
Qed.

(** Without valid leaves the tables are what [freewalk] expects. *)
Lemma bare_root ρ l s r k :
  tinv ρ l s -> ρ r = RPT k 2 -> (forall v, 0 <= v < TOPVPN -> has (pt s r v) PTE_V = false) ->
  bare (mem s) 2 r.
Proof.
  intros Ht Hr Hz. cbn [bare]. intros i2 Hi2 HV2. split; [by eapply table_entry_rwx|].
  assert (i2 < 256) as Hhalf.
  { destruct (Z.ltb_spec i2 256); [done|]. rewrite (pw_half _ _ (ti_pt _ _ _ Ht) r k i2) in HV2 by (done || lia). done. }
  destruct (pw_child _ _ (ti_pt _ _ _ Ht) r k 1 i2) as [Hc2 _]; try done.
  intros i1 Hi1 HV1. split; [by eapply table_entry_rwx|]. intros i0 Hi0.
  destruct (PX_of i2 i1 i0) as (E2 & E1 & E0 & Hv); try done; [lia|].
  specialize (Hz _ Hv). unfold pt, pte_at, leaf_addr in Hz. cbn [path] in Hz.
  change (Z.of_nat 2) with 2 in Hz. change (Z.of_nat 1) with 1 in Hz.
  rewrite E2, HV2, E1, HV1 in Hz. unfold pte_addr in Hz. by rewrite E0 in Hz.
Qed.

Lemma cinv_detach ρ l own s r :
  cinv ρ l own s -> uroot ρ r -> (forall v, ~ mapped ρ (pt s) r v) ->
  let T := tree (mem s) 2 r in
  cinv (detach T ρ) l own s /\ NoDup T /\ (forall p, p ∈ T -> exists lv, ρ p = RPT false lv).
Proof.
  intros [Ht Hb] Hr Hz T. destruct Ht as [A1 A2 A3 A4 A5].
  assert (forall p, p ∈ T -> exists lv, ρ p = RPT false lv /\ (lv = 2%nat -> p = r)) as HT.
  { intros p Hp. destruct (tree_role _ _ A4 _ _ _ _ Hr Hp) as (lv & _ & ? & ?). eauto. }
  assert (forall p x, detach T ρ p = x -> x <> RKern -> (p ∉ T) /\ ρ p = x) as Hold.
  { intros p x. unfold detach. case_decide; [|auto]. congruence. }
  split; [split; [split|]|split; [by eapply tree_nodup|]].
  - done.
  - intros p. rewrite <-A2. split.
    + intros E. by apply Hold in E as [_ E].
    + intros E. unfold detach. case_decide as Hp; [|done]. destruct (HT p Hp) as (? & ? & _). congruence.
  - intros p. unfold detach. case_decide as Hp; [|apply A3].
    intros _. destruct (HT p Hp) as (? & ? & _). apply A3. congruence.
  - destruct A4 as [W0 Wh W1 W2]. split.
    + intros q k lv E. apply Hold in E as [_ E]; [|done]. by eapply W0.
    + intros q k i E. apply Hold in E as [_ E]; [|done]. by eapply Wh.
    + intros q k lv i E Hib HV. apply Hold in E as [Hq E]; [|done].
      destruct (W1 q k lv i E Hib HV) as [Hc Hc']. split; [|done].
      unfold detach. case_decide as Hp; [|done]. exfalso. apply Hq.
      eapply (tree_parent ρ (mem s) (Build_pt_wf _ _ W0 Wh W1 W2) false 2 r _ q k lv i); try done.
      intros Er. rewrite Er in Hc. unfold uroot in Hr. rewrite Hr in Hc. injection Hc as <- <-.
      apply W0 in E. lia.
    + intros q k lv i q' k' lv' i' E E'. apply Hold in E as [_ E]; [|done]. apply Hold in E' as [_ E']; [|done].
      by apply (W2 q k lv i q' k' lv' i').
  - intros p. unfold detach. case_decide as Hp; [|apply A5]. intros _. apply A5. left.
    destruct (HT p Hp) as (? & ? & _). eauto.
  - eapply binv_sub; [exact Hb| | |].
    + intros p. unfold detach. case_decide as Hp; [|done]. destruct (HT p Hp) as (? & E & _). by rewrite E.
    + intros q E. by apply Hold in E as [_ E].
    + intros q v Hm. unfold uroot, detach. pose proof Hm as (Hu & _). rewrite decide_False; [done|].
      intros Hp. destruct (HT q Hp) as (lv & E & Hlv). unfold uroot in Hu. rewrite Hu in E. injection E as <-.
      rewrite (Hlv eq_refl) in Hm. by apply Hz in Hm.
  - intros p Hp. destruct (HT p Hp) as (lv & ? & _). eauto.
Qed.

(** ** uvmfree *)

Lemma wp_freewalk ρ l own s r n hl :
  (2 < n)%nat -> cinv ρ l own s -> hrep (hart s) hl -> Lkmem ∉ hl -> uroot ρ r ->
  (forall v, 0 <= v < TOPVPN -> has (pt s r v) PTE_V = false) ->
  wp (freewalk r) n s (fun _ s' => exists ρ' l',
    cinv ρ' l' own s' /\ hrep (hart s') hl /\ gone ρ s ρ' s' r /\ forall p, ρ' p = mark (tree (mem s) 2 r) ρ p).
Proof.
  intros Hn Hi Hh Hl Hr Hz. set (T := tree (mem s) 2 r).
  assert (forall v, ~ mapped ρ (pt s) r v) as Hnm.
  { intros v (_ & Hv & HV). rewrite Hz in HV by by apply user_vpn. done. }
  destruct (cinv_detach ρ l own s r Hi Hr Hnm) as (Hi1 & Hnd & HT). fold T in Hi1, Hnd, HT.
  change (wp (freewalk_n n r) n s (fun _ s' => exists ρ' l',
    cinv ρ' l' own s' /\ hrep (hart s') hl /\ gone ρ s ρ' s' r /\ forall p, ρ' p = mark T ρ p)).
  eapply wp_mono; [eapply (wp_freewalk_n n hl ltac:(lia) Hl 2 n r); [lia|exact Hi1|exact Hh| |exact Hnd|]|].
  { intros p Hp. unfold detach. by rewrite decide_True. }
  { eapply bare_root; [apply Hi|exact Hr|done]. }
  fold T. intros [] s' (l' & Hi' & Hh' & Hm').
  assert (forall p, ρ p = RData \/ ρ p = RKern \/ ρ p = RNone -> p ∉ T) as HnT.
  { intros p Hp Hin. destruct (HT p Hin) as [lv E]. rewrite E in Hp. by destruct Hp as [|[|]]. }
  assert (forall q, mark T (detach T ρ) q = mark T ρ q) as Emd.
  { intros q. unfold mark, detach. by case_decide. }
  assert (forall r', uroot ρ r' -> r' <> r -> r' ∉ T) as HrT.
  { intros r' Hr' Hne Hin. destruct (tree_role ρ (mem s) (ti_pt _ _ _ (ci_t _ _ _ _ Hi)) _ _ _ _ Hr Hin) as (lv & _ & E & Hlv).
    apply Hne, Hlv. unfold uroot in Hr'. rewrite Hr' in E. by injection E. }
  assert (forall r' va, uroot ρ r' -> r' <> r -> pte_at (mem s') r' va = pte_at (mem s) r' va) as Hpt.
  { intros r' va Hr' Hne.
    apply (pte_at_frame (detach T ρ) (mem s) (ti_pt _ _ _ (ci_t _ _ _ _ Hi1)) (mem s')) with (k := false).
    - intros q k lv i Hq Hib. assert (q ∉ T) as Hq'. { intros Hin. unfold detach in Hq. by rewrite decide_True in Hq. }
      apply entry_page; [eapply tinv_aligned; [apply Hi1|congruence]|done|]. intros x <-. by apply Hm'.
    - unfold detach. rewrite decide_False by auto. done. }
  exists (mark T (detach T ρ)), l'. split_and!; [done|done| |exact Emd].
  split.
  - intros r'. unfold uroot. rewrite Emd. unfold mark. case_decide as Hin.
    + split; [done|]. intros [Hr' Hne]. by destruct (HrT r').
    + split; [|by intros []]. intros E. split; [done|]. intros ->. by apply Hin, tree_here.
  - intros r' va Hr' Hne Hva. eapply ubyte_frame; [exact Hi|exact Hr'|done|by rewrite Hpt..|].
    intros x Hx. apply Hm', HnT. auto.
  - intros r' v Hr' Hne _. unfold pt. by rewrite Hpt.
  - intros r' v Hr' Hne _. unfold pt. by rewrite Hpt.
  - intros p Hp. rewrite Emd. apply mark_out, HnT. tauto.
  - intros x Hx. apply Hm', HnT. tauto.
Qed.

(** The page table [r] is freed: when it has been built since [s0], all pages
    have their roles of [s0] again. *)
Definition undone (r : Z) ρ s ρ' : Prop :=
  (forall ρ0 l0 own0 s0, cinv ρ0 l0 own0 s0 -> under r ρ0 s0 ρ s -> forall p, ρ' p = ρ0 p) /\
  forall p, ρ p = RFree -> ρ' p = RFree.

Lemma undone_drops r ρ s ρ1 s1 ρ' : drops r ρ s ρ1 s1 -> undone r ρ1 s1 ρ' -> undone r ρ s ρ'.
Proof. intros [A1 A2] [B1 B2]. split; [intros ρ0 l0 own0 s0 Hi Hu; eauto|auto]. Qed.

Lemma undone_mark r ρ s ρ' : (forall p, ρ' p = mark (tree (mem s) 2 r) ρ p) -> undone r ρ s ρ'.
Proof.
  intros E. split.
  - intros ρ0 l0 own0 s0 _ [A1 A2 _] p. rewrite E. unfold mark. case_decide; [symmetry|]; auto.
  - intros p Hp. rewrite E. unfold mark. by case_decide.
Qed.

Lemma wp_uvmfree ρ l own s r sz n hl :
  32770 < Z.of_nat n -> cinv ρ l own s -> hrep (hart s) hl -> Lkmem ∉ hl ->
  aspace ρ s r sz -> (forall v, NVPN <= v < TOPVPN -> has (pt s r v) PTE_V = false) ->
  wp (uvmfree r sz) n s (fun _ s' => exists ρ' l' own',
    cinv ρ' l' own' s' /\ hrep (hart s') hl /\ gone ρ s ρ' s' r /\ ρ' r = RFree /\ undone r ρ s ρ').
Proof.
  intros Hn Hi Hh Hl Ha Htop. pose proof (aspace_bound _ _ _ _ _ _ Hi Ha) as Hb.
  pose proof (as_size _ _ _ _ Ha) as [Hs Hs']. destruct (pgs_bounds sz Hs) as (_ & Hp0 & Hpb).
  unfold uvmfree. wp_step.
  apply (wp_mono _ _ _ (fun _ s1 => exists ρ1 l1 own1, cinv ρ1 l1 own1 s1 /\ hrep (hart s1) hl /\
    delta ρ s ρ1 s1 r (range 0 (pgs sz)) /\ (forall v, 0 <= v < pgs sz -> has (pt s1 r v) PTE_V = false) /\ drops r ρ s ρ1 s1)).
  - wp_step; intros E; zbool.
    + change 0 with (0 * PGSIZE) at 1. fold (pgs sz).
      apply (wp_uvmunmap ρ l own s r 0 (pgs sz) n hl); try done; try lia.
      intros v Hv. by eapply aspace_mapped.
    + exists ρ, l, own. split_and!; try done; [|apply drops_refl]. intros v Hv. pages. lia.
  - intros [] s1 (ρ1 & l1 & own1 & Hi1 & Hh1 & Hd1 & Hz1 & Hs1).
    eapply wp_mono; [eapply (wp_freewalk ρ1 l1 own1 s1 r n hl); try done; [lia|by apply (d_roots _ _ _ _ _ _ Hd1), Ha|]|].
    + intros v Hv. destruct (decide (v < pgs sz)); [apply Hz1; lia|].
      rewrite (d_valid _ _ _ _ _ _ Hd1); [|apply Ha|done|unfold range; lia].
      destruct (decide (v < NVPN)); [|apply Htop; lia].
      rewrite (as_valid _ _ _ _ Ha) by lia. by rewrite bool_decide_false by lia.
    + intros [] s2 (ρ2 & l2 & Hi2 & Hh2 & Hg2 & Hr2). exists ρ2, l2, own1. split_and!; try done.
      * by eapply delta_gone.
      * rewrite Hr2. unfold mark. by rewrite decide_True by apply tree_here.
      * eapply undone_drops; [exact Hs1|by apply undone_mark].
Qed.

End freewalk.
