(* ===== verification/CopyUser.v ===== *)
(** * Copying to and from user memory

    [walkaddr], [copyout] with its copy-on-write part, [copyin] and
    [copyinstr]. *)

From S2P Require Import Prelude Riscv Spinlock Str Kalloc Vm PageTable Cow Pages UserMem.

Section copy.
Context {H : Type} {SP : Spin H} {LY : Layout} {LO : LayoutOk}.
Implicit Types (s : mstate H) (ρ : Z -> role) (own : Z -> list (Z * Z)).

Lemma cinv_hart ρ l own s (h' : H) : cinv ρ l own s -> cinv ρ l own (set_hart h' s).
Proof. intros [Ht Hb]. split; [by apply tinv_hart|done]. Qed.

Lemma page_va va : 0 <= va < MAXVA -> PGROUNDDOWN va = vpn va * PGSIZE.
Proof. intros. rewrite PGROUNDDOWN_eq. pages. Z.div_mod_to_equations. lia. Qed.

(** ** walkaddr *)

Lemma walkaddr_eq ρ l own s r v n :
  cinv ρ l own s -> uroot ρ r -> 0 <= v < TOPVPN ->
  walkaddr r (v * PGSIZE) n s = Ret (if user (pt s r v) then PTE2PA (pt s r v) else 0) s.
Proof.
  intros Hi Hr Hv. destruct (va_of_vpn v Hv) as (Hva & _ & _). unfold walkaddr.
  destruct (Z.leb_spec MAXVA (v * PGSIZE)); [lia|]. munfold.
  destruct (walk_pt s r v n Hv) as (a & -> & [[-> E]|[Ha E]]); simpl.
  { rewrite E. done. }
  assert (a <> 0) by (eapply leaf_nonzero; [apply Hi|done..]).
  rewrite (proj2 (Z.eqb_neq a 0)) by done. unfold get_pte, gets, user. simpl. rewrite E.
  destruct (has (pt s r v) PTE_V), (has (pt s r v) PTE_U); done.
Qed.

Lemma walkaddr_high s r va n : MAXVA <= va -> walkaddr r va n s = Ret 0 s.
Proof. intros ?. unfold walkaddr. by destruct (Z.leb_spec MAXVA va); [|lia]. Qed.

(** ** Breaking the sharing of a page *)

(** Afterwards the page of [(r, v)] is mapped there and nowhere else. *)
Definition private ρ own s (r v : Z) : Prop :=
  mapped ρ (pt s) r v /\ own (PTE2PA (pt s r v)) = [(r, v)].

Lemma quiet_of_one ρ s ρ' s' r : delta ρ s ρ' s' r (fun _ => False) -> quiet ρ s ρ' s'.
Proof.
  intros [A1 A2 A3 A4 A5 A6] r' V. split; auto; intros.
  - apply A2; [done|done|by intros [_ ?]].
  - apply A3; [done|done|by intros [_ ?]].
  - apply A4; [done|done|by intros [_ ?]].
Qed.

(** The copying branch of [copyout] and of the page-fault handler: take a
    page, copy the shared one, map it instead with flags [flags], and drop
    the reference to the shared one. *)
Lemma wp_cow_copy {A} ρ l own s r v a n hl (flags : Z -> Z) (k1 k2 k3 : M (mstate H) A) Q :
  (0 < n)%nat -> cinv ρ l own s -> hrep (hart s) hl -> Lkmem ∉ hl ->
  mapped ρ (pt s) r v -> leaf_addr (mem s) r (v * PGSIZE) = Some a ->
  1 < ref_count s (INDEX (PTE2PA (pt s r v))) ->
  (forall e, 0 <= flags e < 1024 /\ Z.testbit (flags e) 1 = has e PTE_R /\
     Z.testbit (flags e) 4 = has e PTE_U) ->
  (forall s', cinv ρ [] own s' -> quiet ρ s ρ s' -> hrep (hart s') hl -> wp k1 n s' Q) ->
  (forall s' ρ' l' own', cinv ρ' l' own' s' -> quiet ρ s ρ' s' -> hrep (hart s') hl ->
     length l' = 1%nat -> wp k2 n s' Q) ->
  (forall s' ρ' l' own' p, cinv ρ' l' own' s' -> quiet ρ s ρ' s' -> hrep (hart s') hl ->
     private ρ' own' s' r v -> aligned p -> 0 <= p < 2 ^ 56 ->
     pt s' r v = mkpte p (flags (pt s r v)) -> wp k3 n s' Q) ->
  wp (m ← kalloc;
      if m =? 0 then k1 else
      modify_mem (fun mm => memmove mm m (PTE2PA (pt s r v)) PGSIZE);;
      e ← get_pte a;
      x ← mappages r (v * PGSIZE) PGSIZE m (flags e);
      if negb (x =? 0) then kfree m;; k2 else
      kfree (PTE2PA (pt s r v));; k3) n s Q.
Proof.
  intros Hn Hi Hh Hl Hm Ha Hgt Hfl HQ1 HQ2 HQ3. pose proof Hm as (Hr & Hv & HV).
  set (p0 := PTE2PA (pt s r v)) in *.
  assert (ρ p0 = RData) as Hp0 by (by apply (bi_leaf _ _ _ _ (ci_b _ _ _ _ Hi))).
  wp_step. eapply wp_kalloc_page; [done|exact Hi|exact Hh|done| |].
  { intros s1 -> Hi1 Hd1 Hh1. simpl. by apply HQ1. }
  intros p l1 s1 -> Hpf Hmp Hi1 Hd1 Hlv1 Hrc1 Hme1 Hh1. pose proof (managed_nonzero p Hmp).
  assert (aligned p) as Halp by apply Hmp.
  rewrite (proj2 (Z.eqb_neq p 0)) by lia. unfold modify_mem, get_pte. wp_steps.
  set (ρ2 := <[p := RKern]> ρ) in *. set (m2 := memmove (mem s1) p p0 PGSIZE).
  destruct (cinv_fill ρ2 l1 own s1 p m2 Hi1) as (Hi2 & Hd2 & Hlv2);
    [apply fn_lookup_insert|apply same_except_memmove|].
  set (s2 := set_mem m2 s1) in *.
  assert (quiet ρ s ρ2 s2) as Hq2 by (intros r' V; apply Hd2; [apply Hd1|done]).
  assert (uroot ρ2 r) as Hr2 by by apply (d_roots _ _ _ _ _ _ (Hq2 r (fun _ => False))).
  assert (pt s2 r v = pt s r v) as Hpt2 by (rewrite (leaves_pt _ _ _ _ _ Hlv2), (leaves_pt _ _ _ _ _ Hlv1); done).
  assert (leaf_addr (mem s2) r (v * PGSIZE) = Some a) as Ha2.
  { rewrite <-Ha. etransitivity; [by apply Hlv2|by apply Hlv1]. }
  rewrite (leaf_load s2 r v a Ha2), Hpt2.
  assert (p <> p0) as Hne by congruence. assert (aligned p0) as Hal0.
  { apply (tinv_aligned ρ (p :: l1) s); [apply Hi|congruence]. }
  assert (forall i, 0 <= i < PGSIZE -> mem s2 (p + i) = mem s2 (p0 + i)) as Hcp2.
  { intros i Hib. unfold s2, m2, set_mem. cbn [mem]. rewrite !memmove_byte by done. rewrite decide_True by lia.
    replace (p0 + (p + i - p)) with (p0 + i) by lia.
    rewrite decide_False; [done|]. destruct (aligned_disjoint p p0); auto; pages; lia. }
  destruct (Hfl (pt s r v)) as (Hf1 & Hf2 & Hf3). destruct (user_va v Hv) as (Hva & Hal & _).
  eapply wp_mappages1; [done|apply Hi2|exact Hh1|done|exact Hr2|done|done| |].
  - intros s3 ρ3 Ht3 He3 _ Hh3 _. change (-1 =? 0) with false. cbn [negb]. assert (cinv ρ3 [] own s3) as Hi3 by by eapply cinv_ext.
    assert (ρ3 p = RKern) as Hp3 by (eapply ext_role; [exact He3|apply fn_lookup_insert|done]).
    wp_step. eapply wp_kfree_page; [done|exact Hi3|exact Hh3|done|done|].
    intros s4 Hi4 Hd4 _ Hh4. eapply HQ2; [exact Hi4| |done|done].
    intros r' V. apply Hd4; [|done]. eapply delta_ext; [apply Hq2|exact Hi2|exact He3].
  - intros s3 ρ3 l3 a3 Ht3 He3 _ Hh3 Ha3 _. change (0 =? 0) with true. cbn [negb]. assert (cinv ρ3 l3 own s3) as Hi3 by by eapply cinv_ext.
    assert (ρ3 p = RKern) as Hp3 by (eapply ext_role; [exact He3|apply fn_lookup_insert|done]).
    assert (ρ2 p0 = RData) as Hp02 by (unfold ρ2; by rewrite fn_lookup_insert_ne).
    assert (pt s3 r v = pt s r v) as Hpt3 by (rewrite <-Hpt2; by apply (ex_maps _ _ _ _ _ He3 false)).
    assert (mapped ρ3 (pt s3) r v) as Hm3.
    { split; [by eapply ext_role|]. by rewrite Hpt3. }
    assert (ref_count s3 (INDEX p0) = ref_count s (INDEX p0)) as Hrc3.
    { rewrite (ex_refs _ _ _ _ _ He3 p0) by congruence. by apply Hrc1. }
    set (s3' := set_leaf a3 (mkpte p (flags (pt s r v))) s3).
    assert (tinv ρ3 l3 s3') as Ht3' by (eapply tinv_set_leaf; [exact Ht3|apply Hm3|exact Ha3]).
    assert (ρ3 p0 = RData) as Hp03 by (by eapply ext_role).
    pose proof (ref_bounds _ _ _ _ _ Hi3 Hp03) as Hrb.
    wp_step. eapply (wp_kfree n s3' l3 hl p0); [done|apply Ht3'|exact Hh3|done|
      apply (ti_managed _ _ _ Ht3'); congruence| |change (ref_count s3') with (ref_count s3); lia| |
      change (ref_count s3') with (ref_count s3); lia].
    { intros Hin%(ti_role_free _ _ _ Ht3'). congruence. }
    intros h' _ Hf' Hh'. change (ref_count s3') with (ref_count s3).
    destruct (replace_copy ρ3 l3 own s3 r v a3 p (flags (pt s r v)) h') as (own4 & Hi4 & Ho4 & Hd4 & Hu4);
      rewrite ?Hpt3; try done.
    + fold p0. lia.
    + intros i Hib. fold p0. rewrite !(ex_keeps _ _ _ _ _ He3); [by apply Hcp2| |].
      * replace (p0 + i) with (p0 + i mod PGSIZE) by (rewrite Z.mod_small; done).
        by rewrite page_offset, Hp02 by done.
      * replace (p + i) with (p + i mod PGSIZE) by (rewrite Z.mod_small; done).
        rewrite page_offset by done. unfold ρ2. by rewrite fn_lookup_insert.
    + rewrite Hf2. by apply (bi_leaf _ _ _ _ (ci_b _ _ _ _ Hi)).
    + rewrite Hpt3 in Hi4, Hd4, Hu4. fold p0 in Hi4, Hd4, Hu4.
      set (s4 := MState _ _ _ _) in Hi4, Hd4, Hu4.
      assert (pt s4 r v = mkpte p (flags (pt s r v))) as Hpt4.
      { rewrite Hu4 by (apply Hm3 || by apply user_vpn). by rewrite decide_True. }
      assert (quiet ρ s (<[p := RData]> ρ3) s4) as Hq4.
      { apply quiet_of_one with r. apply Hd4; [|done]. eapply delta_ext; [apply Hq2|exact Hi2|exact He3]. }
      eapply (HQ3 s4); [exact Hi4|exact Hq4|done| |exact Halp|lia|exact Hpt4].
      split.
      * split; [by apply (d_roots _ _ _ _ _ _ (Hq4 r (fun _ => False)))|]. split; [done|]. rewrite Hpt4.
        rewrite V_testbit, mkpte_flag, Z.lor_spec by lia. apply orb_true_r.
      * rewrite Hpt4, PTE2PA_mkpte by (done || lia). done.
Qed.

(** Between [acquire_ref_lock] and [release_ref_lock]. *)
Lemma quiet_unlock ρ s h1 ρ1 l1 own1 s1 h2 :
  cinv ρ1 l1 own1 s1 -> quiet ρ (set_hart h1 s) ρ1 s1 ->
  cinv ρ1 l1 own1 (set_hart h2 s1) /\ quiet ρ s ρ1 (set_hart h2 s1).
Proof.
  intros Hi' Hq'. split; [by apply cinv_hart|]. intros r' V.
  eapply (delta_mem _ _ _ s1); [|done]. eapply delta_trans; [|apply Hq'].
  eapply (delta_mem _ _ _ s); [apply delta_id|done].
Qed.

(** The last reference: the entry gets other flags in place. *)
Lemma reuse_page ρ l own s r v a e :
  cinv ρ l own s -> mapped ρ (pt s) r v -> leaf_addr (mem s) r (v * PGSIZE) = Some a ->
  ref_count s (INDEX (PTE2PA (pt s r v))) = 1 -> canon e -> PTE2PA e = PTE2PA (pt s r v) ->
  has e PTE_V = has (pt s r v) PTE_V -> has e PTE_R = has (pt s r v) PTE_R ->
  has e PTE_U = has (pt s r v) PTE_U ->
  let s' := set_leaf a e s in
  cinv ρ l own s' /\ quiet ρ s ρ s' /\ private ρ own s' r v /\ pt s' r v = e.
Proof.
  intros Hi Hm Ha E1 He Hpe EV ER EU s'. pose proof Hi as [Ht Hb]. pose proof Hm as (Hr & Hv & HV).
  destruct (bi_leaf _ _ _ _ Hb _ _ Hm) as (Hc & HR & HD).
  pose proof (own_single ρ own (pt s) (ref_count s) r v Hb _ Hm eq_refl E1) as Ho.
  assert (pt s' r v = e) as Hpt.
  { unfold s'. rewrite (upd_leaf ρ l s r v a e) by (done || by apply user_vpn). by rewrite decide_True. }
  split_and!; [| | |done].
  - eapply (cinv_flags ρ l own s r v a e); try done; congruence.
  - intros r' V. eapply (delta_leaf _ _ _ _ own s); [apply delta_id|done|exact Hr|by apply user_vpn|exact Ha|done|].
    right. split_and!; [apply Hv|done|unfold user; congruence|done].
  - split; [split; [done|]|]; rewrite Hpt; [|congruence]. split; [done|congruence].
Qed.

(** The flags [copyout] gives the copy: still marked copy-on-write. *)
Definition copyout_flags (e : Z) : Z := Z.land (Z.lor (PTE_FLAGS e) PTE_RSW) (Z.lnot PTE_W).

Lemma flags_range e c d : 0 <= c < 1024 -> 0 <= Z.land (Z.lor (PTE_FLAGS e) c) (Z.lnot d) < 1024.
Proof.
  intros Hc. set (x := Z.land _ _).
  assert (x = x mod 2 ^ 10) as ->; [|by apply Z.mod_pos_bound].
  apply Z.bits_inj'. intros i Hi. destruct (Z.ltb_spec i 10).
  - by rewrite Z.mod_pow2_bits_low by lia.
  - rewrite Z.mod_pow2_bits_high by lia. unfold x. rewrite Z.land_spec, Z.lor_spec.
    rewrite PTE_FLAGS_mod. change 1024 with (2 ^ 10) in *. rewrite Z.mod_pow2_bits_high by lia.
    rewrite <-(Z.mod_small c (2 ^ 10)), Z.mod_pow2_bits_high by lia. done.
Qed.

Lemma copyout_flags_ok e : 0 <= copyout_flags e < 1024 /\
  Z.testbit (copyout_flags e) 1 = has e PTE_R /\ Z.testbit (copyout_flags e) 4 = has e PTE_U.
Proof.
  split; [by apply flags_range|]. unfold copyout_flags. split; by pte_bits.
Qed.

Lemma wp_copyout_cow ρ l own s r v a n hl :
  (0 < n)%nat -> cinv ρ l own s -> hrep (hart s) hl -> Lkmem ∉ hl -> Lref ∉ hl ->
  mapped ρ (pt s) r v -> user (pt s r v) = true -> leaf_addr (mem s) r (v * PGSIZE) = Some a ->
  wp (copyout_cow r (v * PGSIZE) a) n s (fun res s' => exists ρ' l' own',
    cinv ρ' l' own' s' /\ hrep (hart s') hl /\ quiet ρ s ρ' s' /\
    match res with
    | None => private ρ' own' s' r v /\ user (pt s' r v) = true
    | Some e => e = -1 /\ (length l' <= 1)%nat
    end).
Proof.
  intros Hn Hi Hh Hl Hlr Hm Hu Ha. pose proof Hi as [Ht Hb].
  pose proof Hm as (Hr & Hv & HV). destruct (bi_leaf _ _ _ _ Hb _ _ Hm) as (Hc & HR & HD).
  unfold copyout_cow, get_pte. wp_steps. rewrite (leaf_load _ _ _ _ Ha).
  rewrite andb_comm. fold (cow (pt s r v)). destruct (cow (pt s r v)) eqn:Ecow; cbn [negb].
  2:{ wp_steps. exists ρ, l, own. split_and!; try done. split; [done|]. by apply (bi_cow _ _ _ _ Hb). }
  unfold acquire_ref_lock, release_ref_lock, get_kmem_ref. wp_steps.
  eapply wp_acquire; [done|exact Hh|done|]. intros h1 Hh1. wp_steps.
  change (ref_count (lset h1 s)) with (ref_count s).
  pose proof (ref_bounds _ _ _ _ _ Hi HD) as Hrb. rewrite s32_small by lia.
  assert (cinv ρ l own (set_hart h1 s)) as Hi1 by by apply cinv_hart.
  destruct (Z.eqb_spec (ref_count s (INDEX (PTE2PA (pt s r v)))) 1) as [E1|E1].
  - unfold set_pte, modify_mem. wp_steps. eapply wp_release; [exact Hh1|]. intros h2 Hh2. wp_steps.
    set (e := Z.land (Z.lor (pt s r v) PTE_W) (Z.lnot PTE_RSW)).
    destruct (reuse_page ρ l own (set_hart h1 s) r v a e) as (Hi2 & Hq2 & Hpr & Hpt); try done.
    { by apply canon_clear, canon_lor. } { unfold e. by rewrite PTE2PA_clear, PTE2PA_lor. }
    1-3: change (pt (set_hart h1 s)) with (pt s); unfold e; by pte_bits.
    change (lset h2 _) with (set_hart h2 (set_leaf a e (set_hart h1 s))).
    destruct (quiet_unlock _ _ _ _ _ _ _ h2 Hi2 Hq2) as [Hi3 Hq3].
    exists ρ, l, own. split_and!; try done.
    change (pt (set_hart h2 ?x)) with (pt x). rewrite Hpt. rewrite <-Hu. unfold e. by pte_bits.
  - assert (Lkmem ∉ Lref :: hl) as Hl1 by (rewrite not_elem_of_cons; done).
    apply (wp_cow_copy ρ l own (set_hart h1 s) r v a n (Lref :: hl) copyout_flags); try done.
    + change (pt (set_hart h1 s)) with (pt s). change (ref_count (set_hart h1 s)) with (ref_count s). lia.
    + apply copyout_flags_ok.
    + intros s2 Hi2 Hq2 Hh2. wp_steps. eapply wp_release; [exact Hh2|]. intros h2 Hh3. wp_steps.
      destruct (quiet_unlock _ _ _ _ _ _ _ h2 Hi2 Hq2). exists ρ, [], own. split_and!; try done. simpl. lia.
    + intros s2 ρ2 l2 own2 Hi2 Hq2 Hh2 Hlen. wp_steps. eapply wp_release; [exact Hh2|]. intros h2 Hh3. wp_steps.
      destruct (quiet_unlock _ _ _ _ _ _ _ h2 Hi2 Hq2). exists ρ2, l2, own2. split_and!; try done. lia.
    + intros s2 ρ2 l2 own2 p Hi2 Hq2 Hh2 Hpr Hal Hp Hpt. wp_steps.
      eapply wp_release; [exact Hh2|]. intros h2 Hh3. wp_steps.
      destruct (quiet_unlock _ _ _ _ _ _ _ h2 Hi2 Hq2). exists ρ2, l2, own2. split_and!; try done.
      change (pt (lset h2 s2)) with (pt s2). rewrite Hpt.
      change (pt (set_hart h1 s)) with (pt s). unfold user in *. apply andb_true_iff in Hu as [_ HU].
      rewrite V_testbit, U_testbit, !mkpte_flag, !Z.lor_spec by lia.
      destruct (copyout_flags_ok (pt s r v)) as (_ & _ & ->). rewrite HU. by rewrite orb_true_r.
Qed.

(** ** Writing to a page that is not shared *)

(** From [s] to [s'], user memory changes only in that [bs] has been written
    at [dst] in the address space of [r]. *)
Record wrote ρ s ρ' s' (r dst : Z) (bs : list Z) : Prop := {
  wr_roots : forall r', uroot ρ' r' <-> uroot ρ r';
  wr_view : forall r' va, uroot ρ r' -> 0 <= va < MAXVA ->
    ubyte s' r' va =
      if decide (r' = r /\ dst <= va < dst + Z.of_nat (length bs))
      then Some (bs !!! Z.to_nat (va - dst)) else ubyte s r' va;
  wr_valid : forall r' v, uroot ρ r' -> 0 <= v < TOPVPN ->
    has (pt s' r' v) PTE_V = has (pt s r' v) PTE_V;
  wr_top : forall r' v, uroot ρ r' -> NVPN <= v < TOPVPN -> pt s' r' v = pt s r' v;
  wr_kern : forall p, ρ p = RKern \/ ρ p = RNone -> ρ' p = ρ p;
  wr_mem : forall x, ρ (PGROUNDDOWN x) = RKern \/ ρ (PGROUNDDOWN x) = RNone -> mem s' x = mem s x
}.

Lemma wrote_nil ρ s ρ' s' r dst : quiet ρ s ρ' s' -> wrote ρ s ρ' s' r dst [].
Proof.
  intros Hq. destruct (Hq r (fun _ => False)) as [A1 A2 A3 A4 A5 A6]. split; auto; intros.
  - rewrite decide_False by (simpl; lia). apply A2; [done|done|nope].
  - apply A3; [done|done|nope].
  - apply A4; [done|done|nope].
Qed.

Lemma wrote_app ρ s ρ1 s1 ρ2 s2 r dst bs1 bs2 :
  wrote ρ s ρ1 s1 r dst bs1 -> wrote ρ1 s1 ρ2 s2 r (dst + Z.of_nat (length bs1)) bs2 ->
  wrote ρ s ρ2 s2 r dst (bs1 ++ bs2).
Proof.
  intros [A1 A2 A3 A4 A5 A6] [B1 B2 B3 B4 B5 B6]. split.
  - intros r'. by rewrite B1, A1.
  - intros r' va Hr Hva. rewrite B2, A2 by (done || by apply A1). rewrite length_app.
    destruct (decide (r' = r)) as [->|]; [|by rewrite !decide_False by nope].
    destruct (decide (dst <= va < dst + Z.of_nat (length bs1))) as [H1|H1].
    + rewrite decide_False, !decide_True by lia. rewrite lookup_total_app_l by lia. done.
    + destruct (decide (dst + Z.of_nat (length bs1) <= va < dst + Z.of_nat (length bs1) + Z.of_nat (length bs2))) as [H2|H2].
      * rewrite !decide_True by lia. rewrite lookup_total_app_r by lia. do 2 f_equal. lia.
      * rewrite !decide_False by lia. done.
  - intros. rewrite B3, A3 by (done || by apply A1). done.
  - intros. rewrite B4, A4 by (done || by apply A1). done.
  - intros p Hp. rewrite B5; [by apply A5|]. by rewrite A5.
  - intros x Hx. rewrite B6, A6; [done|done|]. by rewrite A5.
Qed.

Lemma quiet_wrote ρ s ρ1 s1 ρ2 s2 r dst bs :
  quiet ρ s ρ1 s1 -> wrote ρ1 s1 ρ2 s2 r dst bs -> wrote ρ s ρ2 s2 r dst bs.
Proof.
  intros Hq Hw. change bs with ([] ++ bs). eapply wrote_app; [by apply wrote_nil|].
  simpl. by rewrite Z.add_0_r.
Qed.

(** Writing through the physical address of a private page. *)
Lemma private_write ρ l own s r v off bs :
  cinv ρ l own s -> private ρ own s r v -> user (pt s r v) = true ->
  0 <= off -> off + Z.of_nat (length bs) <= PGSIZE ->
  let s' := set_mem (wr_bytes (mem s) (PTE2PA (pt s r v) + off) bs) s in
  cinv ρ l own s' /\ wrote ρ s ρ s' r (v * PGSIZE + off) bs.
Proof.
  intros Hi [Hm Ho] Hu Hoff Hlen s'. pose proof Hi as [Ht Hb]. pose proof Hm as (Hr & Hv & HV).
  destruct (bi_leaf _ _ _ _ Hb _ _ Hm) as (Hc & HR & HD). set (p := PTE2PA (pt s r v)) in *.
  assert (aligned p) as Hal by by apply PTE2PA_bounds.
  assert (same_except p (mem s) (mem s')) as Hse.
  { intros x Hx. unfold s', set_mem. cbn [mem]. rewrite wr_bytes_spec. by rewrite decide_False by lia. }
  assert (<[p := RData]> ρ = ρ) as Hid by (rewrite <-HD; apply fn_insert_id).
  assert (p ∉ l) as Hpl. { intros Hin%(ti_role_free _ _ _ Ht). congruence. }
  assert (managed p) as Hmp by (apply (ti_managed _ _ _ Ht); congruence).
  destruct (tinv_page ρ l s p RData l s') as [Ht' Hlv]; try done.
  { congruence. } { by eapply free_inv_mem; [apply Ht|..]. } { rewrite Hid. apply Ht. }
  rewrite Hid in Ht'.
  assert (forall q w, uroot ρ q -> pt s' q w = pt s q w) as Hpt by (intros q w Hq; by apply (Hlv false)).
  split; [split; [done|]|split].
  - eapply binv_ext; [exact Hb|done|done|auto|done].
  - done.
  - intros q va Hq Hva. pose proof (vpn_range va Hva) as Hvv. unfold ubyte. rewrite !pte_at_pt, Hpt by done.
    destruct (user (pt s q (vpn va))) eqn:E.
    2:{ rewrite decide_False; [done|]. intros [-> Hb']. assert (vpn va = v) as Hvp by (pages; Z.div_mod_to_equations; lia).
        rewrite Hvp in E. congruence. }
    rewrite <-pte_at_pt in E. destruct (user_mapped _ _ _ _ _ _ Hi Hq Hva E) as [Hm' Hd']. rewrite pte_at_pt in *.
    assert (aligned (PTE2PA (pt s q (vpn va)))) as Hal' by (apply PTE2PA_bounds; by apply (bi_leaf _ _ _ _ Hb)).
    destruct (decide (PTE2PA (pt s q (vpn va)) = p)) as [Ep|Ep].
    + assert ((q, vpn va) ∈ own p) as Hin by by apply (bi_own _ _ _ _ Hb).
      rewrite Ho in Hin. apply list_elem_of_singleton in Hin. injection Hin as -> Hvp.
      rewrite Ep. unfold s', set_mem. cbn [mem]. rewrite wr_bytes_spec.
      assert (va = v * PGSIZE + va mod PGSIZE) as Hva' by (pages; Z.div_mod_to_equations; lia).
      destruct (decide (v * PGSIZE + off <= va < v * PGSIZE + off + Z.of_nat (length bs))) as [Hin|Hin].
      * rewrite !decide_True by lia. do 3 f_equal. lia.
      * rewrite !decide_False by lia. done.
    + rewrite decide_False; [|intros [-> Hb']; apply Ep; unfold p; do 2 f_equal; pages; Z.div_mod_to_equations; lia].
      apply (f_equal Some), Hse. pose proof (Z.mod_pos_bound va PGSIZE).
      destruct (aligned_disjoint (PTE2PA (pt s q (vpn va))) p); auto; pages; lia.
  - intros q w Hq Hw. by rewrite Hpt.
  - intros q w Hq Hw. by rewrite Hpt.
  - done.
  - intros x Hx. apply (same_except_page p); [done|done|].
    intros E. rewrite E in Hx. destruct Hx; congruence.
Qed.

(** ** copyout *)

(** User code faults at [va]. *)
Definition faults s (r va : Z) : Prop := MAXVA <= va \/ ubyte s r va = None.

(** The pages that [len] bytes from [dst] touch. *)
Definition touches (dst len : Z) : Z :=
  if decide (len <= 0) then 0 else (dst mod PGSIZE + len - 1) / PGSIZE + 1.

Lemma touches_step dst len c :
  0 < len -> c = Z.min len (PGSIZE - dst mod PGSIZE) ->
  0 <= touches (PGROUNDDOWN dst + PGSIZE) (len - c) < touches dst len.
Proof.
  intros Hl ->. unfold touches. rewrite (decide_False (P := len <= 0)) by lia.
  rewrite PGROUNDDOWN_eq. pages. case_decide; Z.div_mod_to_equations; lia.
Qed.

Lemma page_split dst : 0 <= dst -> dst = vpn dst * PGSIZE + dst mod PGSIZE /\ 0 <= dst mod PGSIZE < PGSIZE /\ dst - PGROUNDDOWN dst = dst mod PGSIZE /\ PGROUNDDOWN dst = vpn dst * PGSIZE.
Proof. rewrite PGROUNDDOWN_eq. pages. intros. split_and!; Z.div_mod_to_equations; lia. Qed.

(** One page of [copyout]: the page is writable and the bytes are written, or
    user code faults there, or memory has run out. *)
Lemma wp_copyout_page ρ l own s r dst src len n hl (Q : ctl (Z * list Z * Z) Z -> mstate H -> Prop) :
  (0 < n)%nat -> cinv ρ l own s -> hrep (hart s) hl -> Lkmem ∉ hl -> Lref ∉ hl ->
  uroot ρ r -> 0 <= dst < 2 ^ 64 -> 0 < len -> len <= Z.of_nat (length src) ->
  let c := Z.min len (PGSIZE - dst mod PGSIZE) in
  (forall s' ρ' l' own', cinv ρ' l' own' s' -> hrep (hart s') hl -> quiet ρ s ρ' s' ->
     (length l' <= 1)%nat \/ faults s r dst -> Q (Done (-1)) s') ->
  (forall s' ρ' l' own', cinv ρ' l' own' s' -> hrep (hart s') hl -> dst < MAXVA ->
     wrote ρ s ρ' s' r dst (take (Z.to_nat c) src) ->
     Q (Next (PGROUNDDOWN dst + PGSIZE, drop (Z.to_nat c) src, len - c)) s') ->
  wp (let va0 := PGROUNDDOWN dst in
    if MAXVA <=? va0 then mret (Done (-1)) else
    pte ← walk r va0 false;
    if pte =? 0 then mret (Done (-1)) else
    v ← get_pte pte;
    if negb (has v PTE_V) || negb (has v PTE_U) then mret (Done (-1)) else
    x ← copyout_cow r va0 pte;
    match x with
    | Some e => mret (Done e)
    | None =>
        pa0 ← walkaddr r va0;
        if pa0 =? 0 then mret (Done (-1)) else
        let n := PGSIZE - (dst - va0) in
        let n := if len <? n then len else n in
        modify_mem (fun m => wr_bytes m (pa0 + (dst - va0)) (take (Z.to_nat n) src));;
        mret (Next (u64 (va0 + PGSIZE), drop (Z.to_nat n) src, len - n))
    end) n s Q.
Proof.
  intros Hn Hi Hh Hl Hlr Hr Hd Hlen Hsrc c HQ1 HQ2.
  destruct (page_split dst) as (Hsp & Hoff & Hsub & Hpd); [lia|]. cbv zeta. rewrite Hsub, Hpd.
  assert ((if len <? PGSIZE - dst mod PGSIZE then len else PGSIZE - dst mod PGSIZE) = c) as ->.
  { unfold c. destruct (Z.ltb_spec len (PGSIZE - dst mod PGSIZE)); lia. }
  set (v := vpn dst) in *.
  destruct (Z.leb_spec MAXVA (v * PGSIZE)) as [Hhi|Hlo].
  { wp_steps. eapply (HQ1 s); [done|done|by intros ??; apply delta_id|]. right. left. lia. }
  assert (0 <= v < TOPVPN) as Hv by (rewrite TOPVPN_eq; pages; Z.div_mod_to_equations; lia).
  assert (dst < MAXVA) as Hlt by (rewrite TOPVPN_eq in Hv; pages; Z.div_mod_to_equations; lia).
  assert (user (pt s r v) = false -> faults s r dst) as Hfault.
  { intros E. right. unfold ubyte. rewrite pte_at_pt. fold v. by rewrite E. }
  assert (quiet ρ s ρ s) as Hq0 by (intros ??; apply delta_id).
  destruct (walk_pt s r v n Hv) as (a & Ew & Hwa). wp_step. unfold wp at 1. rewrite Ew.
  destruct Hwa as [[-> E]|[Ha E]].
  { wp_steps. eapply (HQ1 s); [done|done|done|]. right. apply Hfault. by rewrite E. }
  assert (a <> 0) by (eapply leaf_nonzero; [apply Hi|done..]).
  rewrite (proj2 (Z.eqb_neq a 0)) by done. unfold get_pte. wp_steps. rewrite E, <-negb_andb.
  fold (user (pt s r v)). destruct (user (pt s r v)) eqn:Hu; cbn [negb].
  2:{ wp_steps. eapply (HQ1 s); [done|done|done|]. right. by apply Hfault. }
  destruct (user_mapped ρ l own s r dst Hi Hr) as [Hm _]; [lia|by rewrite pte_at_pt|]. fold v in Hm.
  wp_step. eapply wp_mono; [by eapply wp_copyout_cow|].
  intros [e|] s1 (ρ1 & l1 & own1 & Hi1 & Hh1 & Hq1 & Hres).
  { destruct Hres as [-> Hlen1]. wp_steps. eapply HQ1; eauto. }
  destruct Hres as [Hpr Hu1]. pose proof Hpr as [Hm1 Ho1].
  wp_step. unfold wp at 1. rewrite (walkaddr_eq ρ1 l1 own1 s1 r v) by (done || apply Hm1). rewrite Hu1.
  destruct (bi_leaf _ _ _ _ (ci_b _ _ _ _ Hi1) _ _ Hm1) as (_ & _ & HD1).
  assert (managed (PTE2PA (pt s1 r v))) as Hmp%managed_nonzero
    by (apply (ti_managed _ _ _ (ci_t _ _ _ _ Hi1)); congruence).
  rewrite (proj2 (Z.eqb_neq (PTE2PA (pt s1 r v)) 0)) by lia. unfold modify_mem. wp_steps.
  destruct (private_write ρ1 l1 own1 s1 r v (dst mod PGSIZE) (take (Z.to_nat c) src)) as [Hi2 Hw2]; try done.
  { lia. } { rewrite length_take. lia. }
  rewrite <-Hsp in Hw2. rewrite u64_small by (rewrite TOPVPN_eq in Hv; pages; lia).
  rewrite <-Hpd. eapply HQ2; [exact Hi2|exact Hh1|done|]. by eapply quiet_wrote.
Qed.

(** [copyout] writes a prefix of [src] and nothing else; all of it when it
    returns 0, and it fails only where user code would fault or when memory
    has run out. *)
Lemma wp_copyout ρ l own s r dst src n hl :
  Z.of_nat (length src) / PGSIZE + 2 < Z.of_nat n ->
  cinv ρ l own s -> hrep (hart s) hl -> Lkmem ∉ hl -> Lref ∉ hl -> uroot ρ r -> 0 <= dst < 2 ^ 64 ->
  wp (copyout r dst src (Z.of_nat (length src))) n s (fun res s' => exists ρ' l' own' k,
    cinv ρ' l' own' s' /\ hrep (hart s') hl /\ wrote ρ s ρ' s' r dst (take k src) /\
    ((res = 0 /\ k = length src) \/
     (res = -1 /\ (k < length src)%nat /\ ((length l' <= 1)%nat \/ faults s r (dst + Z.of_nat k))))).
Proof.
  intros Hn Hi Hh Hl Hlr Hr Hd. unfold copyout.
  assert (0 < n)%nat as Hn0 by (pages; Z.div_mod_to_equations; lia).
  apply (wp_loop _ (fun k '(dst', src', len') s1 => exists i ρ1 l1 own1,
      (i <= length src)%nat /\ src' = drop i src /\ len' = Z.of_nat (length src) - Z.of_nat i /\
      (0 < len' -> dst' = dst + Z.of_nat i) /\ 0 <= dst' < 2 ^ 64 /\ k = Z.to_nat (touches dst' len') /\
      cinv ρ1 l1 own1 s1 /\ hrep (hart s1) hl /\ uroot ρ1 r /\ wrote ρ s ρ1 s1 r dst (take i src)))
    with (k := Z.to_nat (touches dst (Z.of_nat (length src)))).
  2:{ unfold touches. pages. case_decide; Z.div_mod_to_equations; lia. }
  2:{ exists 0%nat, ρ, l, own. split_and!; try done; try lia. apply wrote_nil. intros ??; apply delta_id. }
  intros k [[dst' src'] len'] s1 (i & ρ1 & l1 & own1 & Hib & -> & -> & Hdst & Hd' & -> & Hi1 & Hh1 & Hr1 & Hw1).
  set (len' := Z.of_nat (length src) - Z.of_nat i) in *.
  destruct (Z.ltb_spec 0 len') as [Hlt|Hge]; cbn [negb].
  2:{ wp_steps. exists ρ1, l1, own1, i. split_and!; try done. left. split; [done|]. lia. }
  assert (length (take i src) = i) as Hti by (rewrite length_take; lia).
  specialize (Hdst Hlt). subst dst'.
  apply (wp_copyout_page ρ1 l1 own1 s1 r (dst + Z.of_nat i) (drop i src) len' n hl); try done.
  { rewrite length_drop. lia. }
  - intros s2 ρ2 l2 own2 Hi2 Hh2 Hq2 Hf. exists ρ2, l2, own2, i. split_and!; try done.
    + rewrite <-(app_nil_r (take i src)). eapply wrote_app; [exact Hw1|]. rewrite Hti. by apply wrote_nil.
    + right. split; [done|]. split; [lia|]. destruct Hf as [?|[?|Hf]]; [by left|by right; left|].
      destruct (decide (MAXVA <= dst + Z.of_nat i)); [by right; left|]. right. right.
      rewrite (wr_view _ _ _ _ _ _ _ Hw1) in Hf by (done || lia).
      rewrite decide_False in Hf by (rewrite Hti; lia). done.
  - set (c := Z.min len' _). intros s2 ρ2 l2 own2 Hi2 Hh2 Hmax Hw2.
    pose proof (touches_step (dst + Z.of_nat i) len' c Hlt eq_refl) as Ht.
    destruct (page_split (dst + Z.of_nat i)) as (Hsp & Hoff & _ & Hpd); [lia|].
    exists (Z.to_nat (touches (PGROUNDDOWN (dst + Z.of_nat i) + PGSIZE) (len' - c))). split; [lia|].
    exists (i + Z.to_nat c)%nat, ρ2, l2, own2.
    assert (0 < c <= len') as Hc by lia.
    assert (uroot ρ2 r) as Hr2 by by apply (wr_roots _ _ _ _ _ _ _ Hw2).
    split_and!; try done; try lia.
    + by rewrite drop_drop.
    + rewrite Hpd. pages. lia.
    + assert (take (i + Z.to_nat c) src = take i src ++ take (Z.to_nat c) (drop i src)) as ->
        by (symmetry; apply take_take_drop).
      eapply wrote_app; [exact Hw1|]. by rewrite Hti.
Qed.

(** ** copyin and copyinstr *)

(** [bs] is what user code reads from [src] on. *)
Definition reads s (r src : Z) (bs : list Z) : Prop :=
  forall i b, bs !! i = Some b -> src + Z.of_nat i < MAXVA /\ ubyte s r (src + Z.of_nat i) = Some b.

Lemma reads_app s r src bs bs' :
  reads s r src bs -> reads s r (src + Z.of_nat (length bs)) bs' -> reads s r src (bs ++ bs').
Proof.
  intros H1 H2 i b Hi. apply lookup_app_Some in Hi as [Hi|[Hge Hi]]; [by apply H1|].
  apply H2 in Hi. by replace (src + Z.of_nat i) with (src + Z.of_nat (length bs) + Z.of_nat (i - length bs)) by lia.
Qed.

(** What [walkaddr] tells about the page of [va]. *)
Lemma walkaddr_page ρ l own s r va n :
  cinv ρ l own s -> uroot ρ r -> 0 <= va ->
  exists pa, walkaddr r (PGROUNDDOWN va) n s = Ret pa s /\
    ((pa = 0 /\ faults s r va) \/
     (pa <> 0 /\ va < MAXVA /\ forall i, 0 <= va mod PGSIZE + i < PGSIZE -> va + i < MAXVA /\
        ubyte s r (va + i) = Some (mem s (pa + va mod PGSIZE + i)))).
Proof.
  intros Hi Hr Hva. destruct (page_split va Hva) as (Hsp & Hoff & _ & Hpd). rewrite Hpd.
  set (v := vpn va) in *. destruct (decide (MAXVA <= v * PGSIZE)) as [Hge|Hlt].
  { exists 0. rewrite walkaddr_high by done. split; [done|]. left. split; [done|]. left. lia. }
  assert (0 <= v < TOPVPN) as Hv by (rewrite TOPVPN_eq; pages; Z.div_mod_to_equations; lia).
  assert (va < MAXVA) as Hmax by (rewrite TOPVPN_eq in Hv; pages; Z.div_mod_to_equations; lia).
  rewrite (walkaddr_eq ρ l own s r v n) by done. destruct (user (pt s r v)) eqn:Hu.
  - eexists. split; [done|]. right.
    destruct (user_mapped ρ l own s r va Hi Hr) as [Hm Hd]; [lia|by rewrite pte_at_pt|]. rewrite pte_at_pt in Hd. fold v in Hd.
    assert (managed (PTE2PA (pt s r v))) as Hmp%managed_nonzero
      by (apply (ti_managed _ _ _ (ci_t _ _ _ _ Hi)); congruence).
    split; [lia|]. split; [done|]. intros i Hib.
    assert (vpn (va + i) = v) as Hvi by (pages; Z.div_mod_to_equations; lia).
    assert (va + i < MAXVA) by (rewrite TOPVPN_eq in Hv; pages; Z.div_mod_to_equations; lia).
    split; [done|]. unfold ubyte. rewrite pte_at_pt, Hvi, Hu. do 2 f_equal.
    pages; Z.div_mod_to_equations; lia.
  - eexists. split; [done|]. left. split; [done|]. right. unfold ubyte. rewrite pte_at_pt. fold v. by rewrite Hu.
Qed.

Lemma wp_copyin ρ l own s r src len n :
  len / PGSIZE + 2 < Z.of_nat n -> cinv ρ l own s -> uroot ρ r -> 0 <= src < 2 ^ 64 -> 0 <= len ->
  wp (copyin r src len) n s (fun '(res, bs) s' => s' = s /\ reads s r src bs /\
    ((res = 0 /\ Z.of_nat (length bs) = len) \/
     (res = -1 /\ Z.of_nat (length bs) < len /\ faults s r (src + Z.of_nat (length bs))))).
Proof.
  intros Hn Hi Hr Hs Hlen. unfold copyin.
  apply (wp_loop _ (fun k '(dst, src', len') s1 => s1 = s /\ reads s r src dst /\
      len' = len - Z.of_nat (length dst) /\ 0 <= len' /\ (0 < len' -> src' = src + Z.of_nat (length dst)) /\
      0 <= src' < 2 ^ 64 /\ k = Z.to_nat (touches src' len')))
    with (k := Z.to_nat (touches src len)).
  2:{ unfold touches. pages. case_decide; Z.div_mod_to_equations; lia. }
  2:{ split_and!; try done; simpl; lia. }
  intros k [[dst src'] len'] s1 (-> & Hrd & -> & Hge & Hsrc & Hb & ->).
  set (len' := len - Z.of_nat (length dst)) in *.
  destruct (Z.ltb_spec 0 len') as [Hlt|]; cbn [negb].
  2:{ wp_steps. split_and!; try done. left. split; [done|]. lia. }
  specialize (Hsrc Hlt). subst src'. set (va := src + Z.of_nat (length dst)) in *.
  destruct (page_split va) as (Hsp & Hoff & Hsub & Hpd); [lia|].
  wp_step. destruct (walkaddr_page ρ l own s r va n Hi Hr) as (pa & E & Hpa); [lia|].
  unfold wp at 1. rewrite E. destruct Hpa as [[-> Hf]|(Hne & Hmax & Hby)].
  { wp_steps. split_and!; try done. right. split_and!; try done. lia. }
  rewrite (proj2 (Z.eqb_neq pa 0)) by done. rewrite Hsub.
  set (c := Z.min len' (PGSIZE - va mod PGSIZE)).
  assert ((if len' <? PGSIZE - va mod PGSIZE then len' else PGSIZE - va mod PGSIZE) = c) as ->.
  { unfold c. destruct (Z.ltb_spec len' (PGSIZE - va mod PGSIZE)); lia. }
  wp_steps. pose proof (touches_step va len' c Hlt eq_refl) as Ht.
  rewrite u64_small by (rewrite Hpd; pages; lia).
  exists (Z.to_nat (touches (PGROUNDDOWN va + PGSIZE) (len' - c))). split; [lia|].
  rewrite length_app, length_rd_bytes.
  split_and!; try done; try lia.
  - apply reads_app; [done|]. intros i b Hib.
    assert (i < Z.to_nat c)%nat as Hlc by (apply lookup_lt_Some in Hib; by rewrite length_rd_bytes in Hib).
    rewrite rd_bytes_lookup in Hib by done. injection Hib as <-. apply Hby. lia.
  - rewrite Hpd. pages. lia.
Qed.

Lemma copyinstr_page_spec m n : forall p dst,
  exists bs, Forall (fun b => b <> 0) bs /\ (forall i b, bs !! i = Some b -> b = m (p + Z.of_nat i)) /\
    ((copyinstr_page m p n dst = (dst ++ bs ++ [0], true, Z.of_nat (length bs)) /\
      (length bs < n)%nat /\ m (p + Z.of_nat (length bs)) = 0) \/
     (copyinstr_page m p n dst = (dst ++ bs, false, Z.of_nat (length bs)) /\ length bs = n)).
Proof.
  induction n as [|n IH]; intros p dst; cbn [copyinstr_page].
  { exists []. split; [constructor|]. split; [done|]. right. by rewrite app_nil_r. }
  destruct (Z.eqb_spec (m p) 0) as [E|E].
  { exists []. split; [constructor|]. split; [done|]. left. rewrite Z.add_0_r. split_and!; simpl; [done|lia|done]. }
  destruct (IH (p + 1) (dst ++ [m p])) as (bs & Hnz & Hbs & Hc). exists (m p :: bs).
  split; [by constructor|]. split.
  { intros [|i] b Hi; [injection Hi as <-; by rewrite Z.add_0_r|]. simpl in Hi. apply Hbs in Hi as ->. f_equal. lia. }
  destruct Hc as [(-> & Hlt & H0)|[-> Hl]]; [left|right]; simpl; rewrite <-app_assoc; simpl.
  - split_and!; [do 2 f_equal; lia|lia|]. rewrite <-H0. f_equal. lia.
  - split; [do 2 f_equal; lia|lia].
Qed.

Lemma wp_copyinstr ρ l own s r src max n :
  max / PGSIZE + 3 < Z.of_nat n -> cinv ρ l own s -> uroot ρ r -> 0 <= src < 2 ^ 64 -> 0 <= max ->
  wp (copyinstr r src max) n s (fun '(res, dst) s' => s' = s /\ exists bs,
    Forall (fun b => b <> 0) bs /\ reads s r src dst /\
    ((res = 0 /\ dst = bs ++ [0] /\ Z.of_nat (length dst) <= max) \/
     (res = -1 /\ dst = bs /\ Z.of_nat (length bs) <= max /\
      (Z.of_nat (length bs) = max \/ faults s r (src + Z.of_nat (length bs)))))).
Proof.
  intros Hn Hi Hr Hs Hmax. unfold copyinstr.
  apply (wp_loop _ (fun k '(dst, src', max', got) s1 => s1 = s /\ reads s r src dst /\ exists bs,
      Forall (fun b => b <> 0) bs /\ dst = bs ++ (if (got : bool) then [0] else []) /\
      max' = max - Z.of_nat (length bs) /\ (if got then 0 < max' else 0 <= max') /\
      (got = false -> 0 < max' -> src' = src + Z.of_nat (length bs)) /\ 0 <= src' < 2 ^ 64 /\
      k = if got then 0%nat else Z.to_nat (1 + touches src' max')))
    with (k := Z.to_nat (1 + touches src max)).
  2:{ unfold touches. pages. case_decide; Z.div_mod_to_equations; lia. }
  2:{ split; [done|]. split; [done|]. exists []. split_and!; try done; simpl; lia. }
  intros k [[[dst src'] max'] got] s1 (-> & Hrd & bs & Hnz & -> & -> & Hge & Hsrc & Hb & ->).
  set (max' := max - Z.of_nat (length bs)) in *. destruct got; cbn [negb andb].
  { wp_steps. split; [done|]. exists bs. split_and!; try done. left. split_and!; try done.
    rewrite length_app. simpl. lia. }
  rewrite app_nil_r in *.
  destruct (Z.ltb_spec 0 max') as [Hlt|]; cbn [negb].
  2:{ wp_steps. split; [done|]. exists bs. split_and!; try done. right. split_and!; try done; [lia|left; lia]. }
  specialize (Hsrc eq_refl Hlt). subst src'. set (va := src + Z.of_nat (length bs)) in *.
  destruct (page_split va) as (Hsp & Hoff & Hsub & Hpd); [lia|].
  wp_step. destruct (walkaddr_page ρ l own s r va n Hi Hr) as (pa & E & Hpa); [lia|].
  unfold wp at 1. rewrite E. destruct Hpa as [[-> Hf]|(Hne & Hmaxva & Hby)].
  { wp_steps. split; [done|]. exists bs. split_and!; try done. right. split_and!; try done; [lia|by right]. }
  rewrite (proj2 (Z.eqb_neq pa 0)) by done. rewrite Hsub.
  set (c := Z.min max' (PGSIZE - va mod PGSIZE)).
  assert ((if max' <? PGSIZE - va mod PGSIZE then max' else PGSIZE - va mod PGSIZE) = c) as ->.
  { unfold c. destruct (Z.ltb_spec max' (PGSIZE - va mod PGSIZE)); lia. }
  wp_steps. pose proof (touches_step va max' c Hlt eq_refl) as Ht.
  destruct (copyinstr_page_spec (mem s) (Z.to_nat c) (pa + va mod PGSIZE) bs) as (bs' & Hnz' & Hbs' & Hc).
  assert (reads s r va bs') as Hrd'.
  { intros i b Hib. rewrite (Hbs' _ _ Hib). apply Hby. apply lookup_lt_Some in Hib.
    destruct Hc as [(_ & ? & _)|[_ ?]]; lia. }
  rewrite u64_small by (rewrite Hpd; pages; lia).
  assert (Forall (fun b => b <> 0) (bs ++ bs')) as Hnz2 by by apply Forall_app.
  destruct Hc as [(-> & Hl & H0)|[-> Hl]].
  - wp_steps. exists 0%nat. split; [lia|]. split; [done|]. split.
    + apply reads_app; [done|]. apply reads_app; [done|]. intros [|i] b Hib; [|done]. injection Hib as <-.
      rewrite Z.add_0_r, <-H0. apply Hby. lia.
    + exists (bs ++ bs'). rewrite <-app_assoc, length_app. split_and!; try done; try lia. rewrite Hpd. pages. lia.
  - wp_steps. exists (Z.to_nat (1 + touches (PGROUNDDOWN va + PGSIZE) (max' - c))). split; [lia|]. split; [done|].
    split; [by apply reads_app|]. exists (bs ++ bs'). rewrite app_nil_r, length_app.
    split_and!; try done; try lia.
    + rewrite Hpd. pages. lia.
    + do 3 f_equal. lia.
Qed.

End copy.
