(* ===== verification/PageFault.v ===== *)
(** * The copy-on-write page fault: the [r_scause() == 15] branch of
    [usertrap] in [src/kernel/trap.c], and stores of user code. *)

From S2P Require Import Prelude Riscv Spinlock Str Kalloc Vm PageTable Cow Pages UserMem CopyUser.

Section code.
Context {H : Type} {SP : Spin H} {LY : Layout}.

(** A write page fault at [stval] in a process with page table [pagetable]
    and memory size [sz]. The result says whether the branch has set
    [p->killed]. *)
Definition write_fault (pagetable sz stval : Z) : M (mstate H) bool :=
  let va := PGROUNDDOWN stval in
  if sz <? va then mret true else
  pte ← walk pagetable va false;
  if pte =? 0 then mret true else
  v ← get_pte pte;
  if negb (has v PTE_RSW) || negb (has v PTE_V) || negb (has v PTE_U) then mret true else
  let pa := PTE2PA v in
  acquire_ref_lock;;
  ref ← get_kmem_ref pa;
  if u32 ref =? 1 then
    set_pte pte (Z.lor (Z.land v (Z.lnot PTE_RSW)) PTE_W);;
    release_ref_lock;;
    mret false
  else
  m ← kalloc;
  if m =? 0 then release_ref_lock;; mret true else
  modify_mem (fun mm => memmove mm m pa PGSIZE);;
  v ← get_pte pte;
  let flag := Z.land (Z.lor (PTE_FLAGS v) PTE_W) (Z.lnot PTE_RSW) in
  r ← mappages pagetable va PGSIZE m flag;
  if negb (r =? 0) then
    kfree m;;
    release_ref_lock;; mret true
  else
  kfree pa;;
  release_ref_lock;; mret false.

(** A store of user code: it faults unless the entry is valid and allows
    user writes. *)
Definition user_store (pagetable va b : Z) (s : mstate H) : option (mstate H) :=
  let e := pte_at (mem s) pagetable va in
  if user e && has e PTE_W
  then Some (set_mem (<[PTE2PA e + va mod PGSIZE := b]> (mem s)) s) else None.

End code.

Section specs.
Context {H : Type} {SP : Spin H} {LY : Layout} {LO : LayoutOk}.
Implicit Types (s : mstate H) (ρ : Z -> role) (own : Z -> list (Z * Z)).

Definition fault_flags (e : Z) : Z := Z.land (Z.lor (PTE_FLAGS e) PTE_W) (Z.lnot PTE_RSW).

Lemma fault_flags_ok e : 0 <= fault_flags e < 1024 /\
  Z.testbit (fault_flags e) 1 = has e PTE_R /\ Z.testbit (fault_flags e) 4 = has e PTE_U.
Proof. split; [by apply flags_range|]. unfold fault_flags. split; by pte_bits. Qed.

(** What the handler promises: afterwards user memory reads the same
    everywhere, and the process is killed or its page is private and
    writable. *)
Definition fault_done ρ s (r v : Z) (hl : list lockid) (killed : bool) s' : Prop :=
  exists ρ' l' own', cinv ρ' l' own' s' /\ hrep (hart s') hl /\ quiet ρ s ρ' s' /\
    if killed then (length l' <= 1)%nat \/ user (pt s r v) && has (pt s r v) PTE_RSW = false
    else private ρ' own' s' r v /\ user (pt s' r v) = true /\ has (pt s' r v) PTE_W = true.

Lemma wp_write_fault ρ l own s r sz stval n hl :
  (0 < n)%nat -> cinv ρ l own s -> hrep (hart s) hl -> Lkmem ∉ hl -> Lref ∉ hl ->
  aspace ρ s r sz -> 0 <= stval ->
  wp (write_fault r sz stval) n s (fun killed s' =>
    fault_done ρ s r (vpn stval) hl killed s' \/ (killed = true /\ s' = s /\ sz < PGROUNDDOWN stval)).
Proof.
  intros Hn Hi Hh Hl Hlr Ha Hst. pose proof Hi as [Ht Hb].
  pose proof (aspace_bound _ _ _ _ _ _ Hi Ha) as Hb'. pose proof (as_size _ _ _ _ Ha) as [Hs _].
  destruct (pgs_bounds sz Hs) as (_ & _ & Hpb). assert (uroot ρ r) as Hr by apply Ha.
  destruct (page_split stval Hst) as (_ & _ & _ & Hpd). unfold write_fault. cbv zeta. rewrite Hpd.
  set (v := vpn stval) in *.
  destruct (Z.ltb_spec sz (v * PGSIZE)) as [Hlt|Hge].
  { wp_steps. right. done. }
  assert (0 <= v < TOPVPN) as Hv.
  { rewrite TOPVPN_eq. split; [unfold v; pages; apply Z.div_pos; lia|]. pages. lia. }
  assert (forall b, b = true -> user (pt s r v) && has (pt s r v) PTE_RSW = false -> fault_done ρ s r v hl b s) as Hkill.
  { intros b -> E. exists ρ, l, own. split_and!; [done|done|intros ??; apply delta_id|by right]. }
  destruct (walk_pt s r v n Hv) as (a & Ew & Hwa). wp_step. unfold wp at 1. rewrite Ew.
  destruct Hwa as [[-> E]|[Hla E]].
  { wp_steps. left. apply Hkill; [done|]. by rewrite E. }
  assert (a <> 0) by (eapply leaf_nonzero; [exact Ht|done..]).
  rewrite (proj2 (Z.eqb_neq a 0)) by done. unfold get_pte. wp_steps. rewrite E.
  destruct (negb (has (pt s r v) PTE_RSW) || negb (has (pt s r v) PTE_V) || negb (has (pt s r v) PTE_U)) eqn:Eb.
  { wp_steps. left. apply Hkill; [done|]. unfold user.
    destruct (has (pt s r v) PTE_RSW), (has (pt s r v) PTE_V), (has (pt s r v) PTE_U); done. }
  apply orb_false_iff in Eb as [[EW EV]%orb_false_iff EU]. zbool.
  assert (user (pt s r v) = true) as Hu by (unfold user; by rewrite EV, EU).
  destruct (user_mapped ρ l own s r (v * PGSIZE) Hi Hr) as [Hm _].
  { by apply va_of_vpn. } { by rewrite pte_at_pt, (proj2 (proj2 (va_of_vpn v Hv))). }
  rewrite (proj2 (proj2 (va_of_vpn v Hv))) in Hm.
  destruct (bi_leaf _ _ _ _ Hb _ _ Hm) as (Hc & HR & HD).
  unfold acquire_ref_lock, release_ref_lock, get_kmem_ref. wp_steps.
  eapply wp_acquire; [done|exact Hh|done|]. intros h1 Hh1. wp_steps.
  change (ref_count (lset h1 s)) with (ref_count s).
  pose proof (ref_bounds _ _ _ _ _ Hi HD) as Hrb. rewrite s32_small, u32_small by lia.
  assert (cinv ρ l own (set_hart h1 s)) as Hi1 by by apply cinv_hart.
  destruct (Z.eqb_spec (ref_count s (INDEX (PTE2PA (pt s r v)))) 1) as [E1|E1].
  - unfold set_pte, modify_mem. wp_steps. eapply wp_release; [exact Hh1|]. intros h2 Hh2. wp_steps.
    set (e := Z.lor (Z.land (pt s r v) (Z.lnot PTE_RSW)) PTE_W).
    destruct (reuse_page ρ l own (set_hart h1 s) r v a e) as (Hi2 & Hq2 & Hpr & Hpt); try done.
    { apply canon_lor; [by apply canon_clear|done]. } { unfold e. by rewrite PTE2PA_lor, PTE2PA_clear. }
    1-3: change (pt (set_hart h1 s)) with (pt s); unfold e; by pte_bits.
    change (lset h2 _) with (set_hart h2 (set_leaf a e (set_hart h1 s))).
    destruct (quiet_unlock _ _ _ _ _ _ _ h2 Hi2 Hq2) as [Hi3 Hq3]. left.
    exists ρ, l, own. split_and!; try done; change (pt (set_hart h2 ?x)) with (pt x); rewrite Hpt.
    + rewrite <-Hu. unfold e. by pte_bits.
    + unfold e. by pte_bits.
  - assert (Lkmem ∉ Lref :: hl) as Hl1 by (rewrite not_elem_of_cons; done).
    apply (wp_cow_copy ρ l own (set_hart h1 s) r v a n (Lref :: hl) fault_flags); try done.
    + change (pt (set_hart h1 s)) with (pt s). change (ref_count (set_hart h1 s)) with (ref_count s). lia.
    + apply fault_flags_ok.
    + intros s2 Hi2 Hq2 Hh2. wp_steps. eapply wp_release; [exact Hh2|]. intros h2 Hh3. wp_steps.
      destruct (quiet_unlock _ _ _ _ _ _ _ h2 Hi2 Hq2). left. exists ρ, [], own. split_and!; try done.
      left. simpl. lia.
    + intros s2 ρ2 l2 own2 Hi2 Hq2 Hh2 Hlen. wp_steps. eapply wp_release; [exact Hh2|]. intros h2 Hh3. wp_steps.
      destruct (quiet_unlock _ _ _ _ _ _ _ h2 Hi2 Hq2). left. exists ρ2, l2, own2. split_and!; try done.
      left. lia.
    + intros s2 ρ2 l2 own2 p Hi2 Hq2 Hh2 Hpr Hal Hp Hpt. wp_steps.
      eapply wp_release; [exact Hh2|]. intros h2 Hh3. wp_steps.
      destruct (quiet_unlock _ _ _ _ _ _ _ h2 Hi2 Hq2). left. exists ρ2, l2, own2. split_and!; try done;
        change (pt (lset h2 s2)) with (pt s2); rewrite Hpt; change (pt (set_hart h1 s)) with (pt s).
      * rewrite U_testbit in EU. unfold fault_flags. pte_bits. by rewrite EU.
      * unfold fault_flags. by pte_bits.
Qed.

(** A store goes to a page no other address space maps. *)
Lemma user_store_private ρ l own s r va b s' :
  cinv ρ l own s -> uroot ρ r -> 0 <= va < MAXVA -> user_store r va b s = Some s' ->
  cinv ρ l own s' /\ wrote ρ s ρ s' r va [b].
Proof.
  intros Hi Hr Hva Hst. unfold user_store in Hst.
  destruct (user (pte_at (mem s) r va)) eqn:Hu; [|done]. simpl in Hst.
  destruct (has (pte_at (mem s) r va) PTE_W) eqn:HW; [|done]. injection Hst as <-.
  destruct (user_mapped ρ l own s r va Hi Hr Hva Hu) as [Hm _]. rewrite !pte_at_pt in *.
  set (v := vpn va) in *. destruct (page_split va ltac:(lia)) as (Hsp & Hoff & _ & _). fold v in Hsp.
  assert (private ρ own s r v) as Hp.
  { split; [done|]. apply (bi_cow _ _ _ _ (ci_b _ _ _ _ Hi)); [done|]. unfold cow. by rewrite HW, andb_false_r. }
  destruct (private_write ρ l own s r v (va mod PGSIZE) [b] Hi Hp Hu) as [Hi' Hw]; [lia|simpl; lia|].
  rewrite <-Hsp in Hw. done.
Qed.

End specs.
