(* ===== verification/ProcVm.v ===== *)
(** * Page tables of processes: [proc_pagetable] and [proc_freepagetable] of
    [src/kernel/proc.c]. *)

From S2P Require Import Prelude Riscv Spinlock Str Kalloc Vm PageTable Cow Pages UserMem FreeVm.

Section code.
Context {H : Type} {SP : Spin H} {LY : Layout}.

(** The argument is [p->trapframe]. *)
Definition proc_pagetable (trapframe : Z) : M (mstate H) Z :=
  pagetable ← uvmcreate;
  if pagetable =? 0 then mret 0 else
  r ← mappages pagetable TRAMPOLINE PGSIZE trampoline (Z.lor PTE_R PTE_X);
  if r <? 0 then uvmfree pagetable 0;; mret 0 else
  r ← mappages pagetable TRAPFRAME PGSIZE trapframe (Z.lor PTE_R PTE_W);
  if r <? 0 then
    uvmunmap pagetable TRAMPOLINE 1 false;;
    uvmfree pagetable 0;;
    mret 0
  else
  mret pagetable.

Definition proc_freepagetable (pagetable sz : Z) : M (mstate H) unit :=
  uvmunmap pagetable TRAMPOLINE 1 false;;
  uvmunmap pagetable TRAPFRAME 1 false;;
  uvmfree pagetable sz.

End code.

Section specs.
Context {H : Type} {SP : Spin H} {LY : Layout} {LO : LayoutOk}.
Implicit Types (s : mstate H) (ρ : Z -> role) (own : Z -> list (Z * Z)).

(** ** Entries above user memory *)

Lemma cinv_top ρ l own s r v a e :
  cinv ρ l own s -> uroot ρ r -> NVPN <= v < TOPVPN -> leaf_addr (mem s) r (v * PGSIZE) = Some a ->
  canon e -> user e = false ->
  cinv ρ l own (set_leaf a e s) /\ upd_pt ρ (pt s) r v e (pt (set_leaf a e s)) /\
  delta ρ s ρ (set_leaf a e s) r (eq v) /\ drops r ρ s ρ (set_leaf a e s).
Proof.
  intros Hi Hr Hv Ha He Hu. pose proof Hi as [Ht Hb]. pose proof NVPN_eq as HN.
  assert (0 <= v < TOPVPN) as Hv' by lia.
  pose proof (upd_leaf ρ l s r v a e Ht Hr Hv' Ha He) as Hup. split_and!; [split| | |].
  - by eapply tinv_set_leaf.
  - by eapply binv_top_entry.
  - done.
  - eapply delta_leaf; [apply delta_id|exact Hi|exact Hr|exact Hv'|exact Ha|exact He|by left].
  - eapply drops_thin; [exact Hi|exact Hr|]. eapply thin_leaf; eauto.
Qed.

Lemma canon_top pa perm : aligned pa -> 0 <= pa < 2 ^ 56 -> perm = Z.lor PTE_R PTE_X \/ perm = Z.lor PTE_R PTE_W ->
  canon (mkpte pa perm) /\ user (mkpte pa perm) = false /\ has (mkpte pa perm) PTE_V = true /\
  (PTE_FLAGS (mkpte pa perm) =? PTE_V) = false.
Proof.
  intros Hal Hpa Hpe. assert (0 <= perm < 1024 /\ Z.testbit perm 1 = true /\ Z.testbit perm 4 = false) as (Hb & HR & HU)
    by (destruct Hpe as [->| ->]; by vm_compute).
  assert (has (mkpte pa perm) PTE_R = true) as HR'.
  { rewrite R_testbit, mkpte_flag, Z.lor_spec, HR by lia. done. }
  split_and!.
  - by apply canon_mkpte.
  - unfold user. rewrite V_testbit, U_testbit, !mkpte_flag, !Z.lor_spec, HU by lia. by rewrite andb_false_r.
  - rewrite V_testbit, mkpte_flag, Z.lor_spec by lia. by rewrite orb_true_r.
  - by apply leaf_flags.
Qed.

Lemma wp_map_top ρ l own s r v pa perm n hl (Q : Z -> mstate H -> Prop) :
  (0 < n)%nat -> cinv ρ l own s -> hrep (hart s) hl -> Lkmem ∉ hl -> uroot ρ r -> NVPN <= v < TOPVPN ->
  canon (mkpte pa perm) -> user (mkpte pa perm) = false ->
  (forall s' ρ', cinv ρ' [] own s' -> hrep (hart s') hl -> quiet ρ s ρ' s' -> stays r ρ s ρ' s' -> (length l < 2)%nat -> Q (-1) s') ->
  (forall s' ρ' l', cinv ρ' l' own s' -> hrep (hart s') hl -> delta ρ s ρ' s' r (eq v) -> stays r ρ s ρ' s' ->
     pt s' r v = mkpte pa perm -> (length l <= length l' + 2)%nat -> Q 0 s') ->
  wp (mappages r (v * PGSIZE) PGSIZE pa perm) n s Q.
Proof.
  intros Hn Hi Hh Hl Hr Hv Hc Hu HQ1 HQ0. pose proof (ci_t _ _ _ _ Hi) as Ht. pose proof NVPN_eq as HN.
  destruct (va_of_vpn v ltac:(lia)) as (Hva & Hal & _).
  assert (forall ρ' s', ext false ρ s ρ' s' -> quiet ρ s ρ' s') as Hq.
  { intros ρ' s' He r' V. eapply delta_ext; [apply delta_id|exact Hi|exact He]. }
  eapply wp_mappages1; [done|exact Ht|exact Hh|done|exact Hr|done|done| |].
  - intros s1 ρ1 Ht1 He1 Hu1 Hh1 Hlen. eapply HQ1; [by eapply cinv_ext|done|by apply Hq|by eapply stays_ext|done].
  - intros s1 ρ1 l1 a Ht1 He1 Hu1 Hh1 Ha Hlen.
    assert (cinv ρ1 l1 own s1) as Hi1 by by eapply cinv_ext.
    assert (uroot ρ1 r) as Hr1 by by eapply ext_role.
    destruct (cinv_top ρ1 l1 own s1 r v a _ Hi1 Hr1 Hv Ha Hc Hu) as (Hi2 & Hu2 & Hd2 & Hs2).
    eapply HQ0; [exact Hi2|done| | | |done].
    + eapply delta_trans; [by apply Hq|done].
    + eapply stays_trans; [by eapply stays_ext|apply Hs2].
    + rewrite Hu2 by (done || lia). by rewrite decide_True.
Qed.

Lemma wp_unmap_top ρ l own s r v n :
  (1 < n)%nat -> cinv ρ l own s -> uroot ρ r -> NVPN <= v < TOPVPN ->
  has (pt s r v) PTE_V = true -> (PTE_FLAGS (pt s r v) =? PTE_V) = false ->
  wp (uvmunmap r (v * PGSIZE) 1 false) n s (fun _ s' =>
    cinv ρ l own s' /\ hart s' = hart s /\ delta ρ s ρ s' r (eq v) /\ pt s' r v = 0 /\ drops r ρ s ρ s').
Proof.
  intros Hn Hi Hr Hv HV Hfl. pose proof NVPN_eq as HN. assert (0 <= v < TOPVPN) as Hv' by lia.
  assert (0 <= v * PGSIZE < 2 ^ 62) as Hva by (rewrite TOPVPN_eq in Hv'; pages; lia).
  unfold uvmunmap. replace (v * PGSIZE mod PGSIZE =? 0) with true by (pages; by rewrite Z_mod_mult).
  cbn [negb]. rewrite Z.mul_1_l, (u64_small PGSIZE) by (pages; lia). rewrite u64_small by (pages; lia).
  apply (wp_loop _ (fun k a s1 => (k = 1%nat /\ a = v * PGSIZE /\ s1 = s) \/
      (k = 0%nat /\ a = v * PGSIZE + PGSIZE /\ cinv ρ l own s1 /\ hart s1 = hart s /\
       delta ρ s ρ s1 r (eq v) /\ pt s1 r v = 0 /\ drops r ρ s ρ s1))) with (k := 1%nat); [|lia|by left].
  intros k a s1 [(-> & -> & ->)|(-> & -> & Hp)].
  2:{ rewrite Z.ltb_irrefl. cbn [negb]. wp_steps. done. }
  rewrite (proj2 (Z.ltb_lt (v * PGSIZE) _)) by (pages; lia). cbn [negb].
  wp_step. destruct (walk_pt s r v n Hv') as (a & E & [[-> E']|[Ha E']]).
  { by rewrite E', has_0 in HV. }
  unfold wp at 1. rewrite E. assert (a <> 0) by (eapply leaf_nonzero; eauto; apply Hi).
  rewrite (proj2 (Z.eqb_neq a 0)) by done. unfold get_pte, set_pte, modify_mem. wp_steps.
  rewrite E', HV, Hfl. cbn [negb when]. wp_steps. fold (set_leaf a 0 s).
  exists 0%nat. split; [lia|]. right.
  destruct (cinv_top ρ l own s r v a 0 Hi Hr Hv Ha) as (Hi2 & Hu2 & Hd2 & Hs2); [done|done|].
  split_and!; try done.
  - rewrite u64_small by (pages; lia). done.
  - rewrite Hu2 by (done || lia). by rewrite decide_True.
Qed.

(** ** The page table of a process *)

Lemma TRAMPOLINE_vpn : TRAMPOLINE = (NVPN + 1) * PGSIZE.
Proof. done. Qed.

Lemma TRAPFRAME_vpn : TRAPFRAME = NVPN * PGSIZE.
Proof. done. Qed.

Lemma top_vpns : NVPN <= NVPN < TOPVPN /\ NVPN <= NVPN + 1 < TOPVPN.
Proof. rewrite NVPN_eq, TOPVPN_eq. lia. Qed.

Lemma top_cases v : NVPN <= v < TOPVPN -> v = NVPN \/ v = NVPN + 1.
Proof. rewrite NVPN_eq, TOPVPN_eq. lia. Qed.

Lemma trampoline_phys : aligned trampoline /\ 0 <= trampoline < 2 ^ 56.
Proof.
  pose proof kend_lo. pose proof kend_hi. pose proof etext_lo. pose proof etext_aligned.
  pose proof trampoline_page. unfold aligned. pages. Z.div_mod_to_equations. lia.
Qed.

Definition tramp_pte : Z := mkpte trampoline (Z.lor PTE_R PTE_X).
Definition frame_pte (tf : Z) : Z := mkpte tf (Z.lor PTE_R PTE_W).

#[local] Opaque tramp_pte frame_pte pt.

(** The page table of a process with [sz] bytes of memory: the trampoline and
    the trapframe are at their places. *)
Record procpt ρ s (r sz tf : Z) : Prop := {
  pp_space : aspace ρ s r sz;
  pp_tramp : pt s r (NVPN + 1) = tramp_pte;
  pp_frame : pt s r NVPN = frame_pte tf;
  pp_tf : aligned tf /\ 0 <= tf < 2 ^ 56
}.

Lemma procpt_delta ρ s ρ' s' r V r' sz tf :
  delta ρ s ρ' s' r V -> procpt ρ s r' sz tf -> (forall v, V v -> r' <> r) -> procpt ρ' s' r' sz tf.
Proof.
  intros Hd [A1 A2 A3 A4] Hne. destruct top_vpns as [T1 T2].
  assert (forall v, NVPN <= v < TOPVPN -> pt s' r' v = pt s r' v) as Ht.
  { intros v Hv. apply (d_top _ _ _ _ _ _ Hd); [apply A1|done|]. intros [E HV]. by apply (Hne v). }
  split; [|rewrite Ht by exact T2; exact A2|rewrite Ht by exact T1; exact A3|exact A4]. eapply aspace_delta; [exact Hd|done|]. eauto.
Qed.

(** The memory of the process itself may change below the trapframe. *)
Lemma procpt_space ρ s ρ' s' r a b sz sz' tf :
  delta ρ s ρ' s' r (range a b) -> b <= NVPN -> procpt ρ s r sz tf -> aspace ρ' s' r sz' -> procpt ρ' s' r sz' tf.
Proof.
  intros Hd Hb [A1 A2 A3 A4] Ha. destruct top_vpns as [T1 T2].
  assert (forall v, NVPN <= v < TOPVPN -> pt s' r v = pt s r v) as Ht.
  { intros v Hv. apply (d_top _ _ _ _ _ _ Hd); [apply A1|done|]. unfold range. lia. }
  split; [exact Ha|rewrite Ht by exact T2; exact A2|rewrite Ht by exact T1; exact A3|exact A4].
Qed.

Lemma aspace_top ρ s ρ' s' r sz v : aspace ρ s r sz -> delta ρ s ρ' s' r (eq v) -> NVPN <= v -> aspace ρ' s' r sz.
Proof. intros Ha Hd Hv. eapply aspace_delta; [exact Hd|done|]. lia. Qed.

Lemma wp_proc_freepagetable ρ l own s r sz tf n hl :
  32770 < Z.of_nat n -> cinv ρ l own s -> hrep (hart s) hl -> Lkmem ∉ hl -> procpt ρ s r sz tf ->
  wp (proc_freepagetable r sz) n s (fun _ s' => exists ρ' l' own',
    cinv ρ' l' own' s' /\ hrep (hart s') hl /\ gone ρ s ρ' s' r /\ ρ' r = RFree /\ undone r ρ s ρ').
Proof.
  intros Hn Hi Hh Hl [A1 A2 A3 [A4 A5]]. destruct top_vpns as [T1 T2]. destruct trampoline_phys as [P1 P2].
  destruct (canon_top trampoline (Z.lor PTE_R PTE_X) P1 P2 (or_introl eq_refl)) as (_ & _ & C1 & C2).
  destruct (canon_top tf (Z.lor PTE_R PTE_W) A4 A5 (or_intror eq_refl)) as (_ & _ & C3 & C4).
  unfold proc_freepagetable. wp_step. rewrite TRAMPOLINE_vpn.
  eapply wp_mono; [apply (wp_unmap_top ρ l own s); [lia|exact Hi|apply A1|exact T2|rewrite A2; assumption..]|].
  intros [] s1 (Hi1 & Hh1 & Hd1 & Hz1 & Hs1). wp_step. rewrite TRAPFRAME_vpn.
  assert (pt s1 r NVPN = frame_pte tf) as E1.
  { rewrite (d_top _ _ _ _ _ _ Hd1); [exact A3|apply A1|exact T1|]. intros [_ ?]. lia. }
  eapply wp_mono; [apply (wp_unmap_top ρ l own s1); [lia|exact Hi1|apply A1|exact T1|rewrite E1; assumption..]|].
  intros [] s2 (Hi2 & Hh2 & Hd2 & Hz2 & Hs2).
  eapply wp_mono; [apply (wp_uvmfree ρ l own s2 r sz n hl); try done|].
  - by rewrite Hh2, Hh1.
  - eapply aspace_top; [eapply aspace_top; [exact A1|exact Hd1|lia]|exact Hd2|lia].
  - intros v [->| ->]%top_cases; [rewrite Hz2; exact (has_0 _)|].
    rewrite (d_top _ _ _ _ _ _ Hd2); [rewrite Hz1; exact (has_0 _)|apply A1|exact T2|]. intros [_ ?]. lia.
  - intros [] s3 (ρ3 & l3 & own3 & ? & ? & Hg & ? & Hun). exists ρ3, l3, own3. split_and!; try done.
    + eapply delta_gone; [exact Hd1|]. by eapply delta_gone.
    + eapply undone_drops; [exact Hs1|]. by eapply undone_drops.
Qed.

(** [proc_pagetable] makes a page table without user memory, or fails when
    fewer than five pages are free. *)
Lemma wp_proc_pagetable ρ l own s tf n hl :
  32770 < Z.of_nat n -> cinv ρ l own s -> hrep (hart s) hl -> Lkmem ∉ hl -> aligned tf -> 0 <= tf < 2 ^ 56 ->
  wp (proc_pagetable tf) n s (fun r s' => exists ρ' l' own', cinv ρ' l' own' s' /\ hrep (hart s') hl /\
    ((r = 0 /\ quiet ρ s ρ' s' /\ (length l < 5)%nat /\ forall p, ρ' p = ρ p) \/
     (r <> 0 /\ r ∈ l /\ born ρ s ρ' s' r /\ procpt ρ' s' r 0 tf /\ (length l <= length l' + 5)%nat /\ under r ρ s ρ' s'))).
Proof.
  intros Hn Hi Hh Hl A4 A5. destruct top_vpns as [T1 T2]. destruct trampoline_phys as [P1 P2].
  destruct (canon_top trampoline (Z.lor PTE_R PTE_X) P1 P2 (or_introl eq_refl)) as (K1 & K2 & C1 & C2).
  destruct (canon_top tf (Z.lor PTE_R PTE_W) A4 A5 (or_intror eq_refl)) as (K3 & K4 & C3 & C4).
  unfold proc_pagetable. wp_step. eapply wp_mono; [apply (wp_uvmcreate ρ l own s n hl); done || lia|].
  intros r s1 (ρ1 & l1 & Hi1 & Hh1 & [(-> & -> & Hq1 & ->)|(Hr & -> & Hb1 & Ha1 & Hz1 & Hu1)]).
  { wp_steps. exists ρ, l1, own. split_and!; try done. left. split_and!; try done. simpl. lia. }
  rewrite (proj2 (Z.eqb_neq r 0)) by done. wp_step. rewrite TRAMPOLINE_vpn.
  eapply (wp_map_top ρ1 l1 own s1 r); [lia|exact Hi1|exact Hh1|exact Hl|apply Ha1|exact T2|exact K1|exact K2| |].
  - intros s2 ρ2 Hi2 Hh2 Hq2 Hs2 Hlen. change (-1 <? 0) with true. cbv iota. wp_step.
    pose proof (Hq2 r (fun _ => False)) as Hd2.
    eapply wp_mono; [apply (wp_uvmfree ρ2 [] own s2 r 0 n hl); try done|].
    + eapply aspace_delta; [exact Hd2|done|done].
    + intros v Hv. rewrite (d_top _ _ _ _ _ _ Hd2) by (apply Ha1 || assumption || nope). rewrite Hz1. exact (has_0 _).
    + intros [] s3 (ρ3 & l3 & own3 & ? & ? & Hg & _ & Hun). wp_steps. exists ρ3, l3, own3. split_and!; try done.
      left. split_and!; [done| |simpl; lia|]; [eapply born_gone; [by eapply born_delta|done]|].
      eapply Hun; [exact Hi|]. by eapply Hs2.
  - intros s2 ρ2 l2 Hi2 Hh2 Hd2 Hs2 Hp2 Hlen. change (0 <? 0) with false. cbv iota. wp_step. rewrite TRAPFRAME_vpn.
    assert (aspace ρ2 s2 r 0) as Ha2 by (eapply aspace_top; [exact Ha1|exact Hd2|lia]).
    assert (born ρ s ρ2 s2 r) as Hb2 by by eapply born_delta.
    eapply (wp_map_top ρ2 l2 own s2 r); [lia|exact Hi2|exact Hh2|exact Hl|apply Ha2|exact T1|exact K3|exact K4| |].
    + intros s3 ρ3 Hi3 Hh3 Hq3 Hs3 Hlen3. change (-1 <? 0) with true. cbv iota. wp_step.
      pose proof (Hq3 r (fun _ => False)) as Hd3.
      assert (aspace ρ3 s3 r 0) as Ha3 by (eapply aspace_delta; [exact Hd3|done|done]).
      assert (forall v, NVPN <= v < TOPVPN -> pt s3 r v = pt s2 r v) as Ht3.
      { intros v Hv. apply (d_top _ _ _ _ _ _ Hd3); [apply Ha2|exact Hv|nope]. }
      eapply wp_mono; [apply (wp_unmap_top ρ3 [] own s3); [lia|exact Hi3|apply Ha3|exact T2|rewrite Ht3 by exact T2; rewrite Hp2; assumption..]|].
      intros [] s4 (Hi4 & Hh4 & Hd4 & Hz4 & Hs4). wp_step.
      eapply wp_mono; [apply (wp_uvmfree ρ3 [] own s4 r 0 n hl); try done|].
      * by rewrite Hh4.
      * eapply aspace_top; [exact Ha3|exact Hd4|lia].
      * intros v [->| ->]%top_cases; [|rewrite Hz4; exact (has_0 _)].
        rewrite (d_top _ _ _ _ _ _ Hd4) by (apply Ha3 || exact T1 || lia).
        rewrite Ht3, (d_top _ _ _ _ _ _ Hd2) by (apply Ha1 || exact T1 || lia). rewrite Hz1. exact (has_0 _).
      * intros [] s5 (ρ5 & l5 & own5 & ? & ? & Hg & _ & Hun). wp_steps. exists ρ5, l5, own5. split_and!; try done.
        left. split_and!; [done| |simpl; lia|].
        -- eapply born_gone; [eapply born_delta; [by eapply born_delta|exact Hd4]|done].
        -- eapply Hun; [exact Hi|]. eapply (proj1 Hs4); [exact Hi|]. eapply Hs3; [exact Hi|]. by eapply Hs2.
    + intros s3 ρ3 l3 Hi3 Hh3 Hd3 Hs3 Hp3 Hlen3. change (0 <? 0) with false. cbv iota. wp_steps.
      exists ρ3, l3, own. split_and!; try done. right. split_and!; [done|by left|by eapply born_delta| |simpl; lia|eapply Hs3; [exact Hi|by eapply Hs2]].
      split; [eapply aspace_top; [exact Ha2|exact Hd3|lia]| |exact Hp3|by split].
      rewrite (d_top _ _ _ _ _ _ Hd3) by (apply Ha2 || exact T2 || lia). exact Hp2.
Qed.

End specs.
