(* ===== verification/VmHistory.v ===== *)
(** * Histories of user memory

    Every sequence of the operations on the memory of processes, starting from
    the allocator alone: the page tables of processes come and go, grow,
    shrink, are copied for fork, are written by the kernel on their behalf and
    by their own stores and page faults. *)

From stdpp Require Import gmap.
From S2P Require Import Prelude Riscv Spinlock Str Kalloc Vm PageTable Cow Pages UserMem Fork FreeVm CopyUser PageFault ProcVm.

Section history.
Context {H : Type} {SP : Spin H} {LY : Layout} {LO : LayoutOk}.
Implicit Types (s : mstate H) (ρ : Z -> role) (own : Z -> list (Z * Z)).

(** The live page tables, with the memory size and the trapframe page of
    their process. *)
Abbreviation spaces := (gmap Z (Z * Z)) (only parsing).
Implicit Types G : spaces.

Definition set_sz (r sz : Z) G : spaces := alter (fun '(_, tf) => (sz, tf)) r G.

(** One operation, run with loop bound [n]. *)
Inductive vstep (n : nat) : mstate H * spaces -> mstate H * spaces -> Prop :=
| V_create s G tf r s' :
    aligned tf -> 0 <= tf < 2 ^ 56 -> proc_pagetable tf n s = Ret r s' ->
    vstep n (s, G) (s', if r =? 0 then G else <[r := (0, tf)]> G)
| V_free s G r sz tf s' :
    G !! r = Some (sz, tf) -> proc_freepagetable r sz n s = Ret tt s' ->
    vstep n (s, G) (s', delete r G)
| V_grow s G r sz tf newsz res s' :
    G !! r = Some (sz, tf) -> sz <= newsz < 2 ^ 64 -> uvmalloc r sz newsz n s = Ret res s' ->
    vstep n (s, G) (s', if res =? 0 then G else set_sz r res G)
| V_shrink s G r sz tf newsz res s' :
    G !! r = Some (sz, tf) -> 0 <= newsz -> uvmdealloc r sz newsz n s = Ret res s' ->
    vstep n (s, G) (s', set_sz r res G)
| V_fork s G r sz tf r' tf' res s' :
    G !! r = Some (sz, tf) -> G !! r' = Some (0, tf') -> r <> r' -> uvmcopy r r' sz n s = Ret res s' ->
    vstep n (s, G) (s', if res =? 0 then set_sz r' sz G else G)
| V_clear s G r sz tf v s' :
    G !! r = Some (sz, tf) -> 0 <= v < pgs sz -> uvmclear r (v * PGSIZE) n s = Ret tt s' ->
    vstep n (s, G) (s', G)
| V_copyout s G r sz tf dst src res s' :
    G !! r = Some (sz, tf) -> 0 <= dst < 2 ^ 64 -> Z.of_nat (length src) / PGSIZE + 2 < Z.of_nat n ->
    copyout r dst src (Z.of_nat (length src)) n s = Ret res s' ->
    vstep n (s, G) (s', G)
| V_fault s G r sz tf stval killed s' :
    G !! r = Some (sz, tf) -> 0 <= stval -> write_fault r sz stval n s = Ret killed s' ->
    vstep n (s, G) (s', G)
| V_store s G r sz tf va b s' :
    G !! r = Some (sz, tf) -> 0 <= va < MAXVA -> user_store r va b s = Some s' ->
    vstep n (s, G) (s', G).

(** The state is well formed and its live page tables are those of [G]. *)
Record vinv s G ρ l own : Prop := {
  vi_cinv : cinv ρ l own s;
  vi_hart : hrep (hart s) [];
  vi_live : forall r sz tf, G !! r = Some (sz, tf) -> procpt ρ s r sz tf;
  vi_roots : forall r, uroot ρ r -> is_Some (G !! r)
}.

Definition good (c : mstate H * spaces) : Prop := exists ρ l own, vinv c.1 c.2 ρ l own.

Lemma wp_inv {A} (m : M (mstate H) A) n s Q a s' : wp m n s Q -> m n s = Ret a s' -> Q a s'.
Proof. unfold wp. intros Hwp E. by rewrite E in Hwp. Qed.

Lemma set_sz_lookup r sz sz0 tf0 G r' sz' tf' :
  G !! r = Some (sz0, tf0) -> set_sz r sz G !! r' = Some (sz', tf') ->
  (r' = r /\ sz' = sz /\ tf' = tf0) \/ (r' <> r /\ G !! r' = Some (sz', tf')).
Proof.
  intros E. unfold set_sz. destruct (decide (r' = r)) as [->|Hne].
  - rewrite lookup_alter_eq, E. intros [= <- <-]. by left.
  - rewrite lookup_alter_ne by done. by right.
Qed.

Lemma set_sz_some r sz G r' : is_Some (G !! r') -> is_Some (set_sz r sz G !! r').
Proof. unfold set_sz. by rewrite lookup_alter_is_Some. Qed.

(** No user memory changed. *)
Lemma vinv_quiet s G ρ l own ρ' l' own' s' :
  vinv s G ρ l own -> cinv ρ' l' own' s' -> hrep (hart s') [] -> quiet ρ s ρ' s' -> vinv s' G ρ' l' own'.
Proof.
  intros [A1 A2 A3 A4] Hi Hh Hq. split; [done|done| |].
  - intros r sz tf HG. eapply procpt_delta; [exact (Hq r (fun _ => False))|by apply A3|done].
  - intros r Hr. by apply A4, (d_roots _ _ _ _ _ _ (Hq r (fun _ => False))).
Qed.

(** The memory of [r] changed, and its size is now [sz]. *)
Lemma vinv_resize s G ρ l own r sz0 tf sz a b ρ' l' own' s' :
  vinv s G ρ l own -> G !! r = Some (sz0, tf) -> cinv ρ' l' own' s' -> hrep (hart s') [] ->
  delta ρ s ρ' s' r (range a b) -> b <= NVPN -> aspace ρ' s' r sz -> vinv s' (set_sz r sz G) ρ' l' own'.
Proof.
  intros [A1 A2 A3 A4] HG Hi Hh Hd Hb Ha. split; [done|done| |].
  - intros r' sz' tf' [(-> & -> & ->)|[Hne HG']]%(set_sz_lookup _ _ _ _ _ _ _ _ HG).
    + eapply procpt_space; [exact Hd|done|by apply A3|done].
    + eapply procpt_delta; [exact Hd|by apply A3|]. by intros _ _.
  - intros r' Hr. apply set_sz_some. by apply A4, (d_roots _ _ _ _ _ _ Hd).
Qed.

(** Bytes of [r] were written. *)
Lemma procpt_wrote ρ s ρ' s' r dst bs r' sz tf : wrote ρ s ρ' s' r dst bs -> procpt ρ s r' sz tf -> procpt ρ' s' r' sz tf.
Proof.
  intros [W1 W2 W3 W4 W5 W6] [[B1 B2 B3] B4 B5 B6]. destruct top_vpns as [T1 T2]. split; [split| | |done].
  - by apply W1.
  - done.
  - intros v Hv. rewrite W3 by (done || by apply user_vpn). by apply B3.
  - rewrite W4 by assumption. exact B4.
  - rewrite W4 by assumption. exact B5.
Qed.

Lemma vinv_wrote s G ρ l own r dst bs ρ' l' own' s' :
  vinv s G ρ l own -> cinv ρ' l' own' s' -> hrep (hart s') [] -> wrote ρ s ρ' s' r dst bs -> vinv s' G ρ' l' own'.
Proof.
  intros [A1 A2 A3 A4] Hi Hh Hw. split; [done|done| |].
  - intros r' sz tf HG. eapply procpt_wrote; [exact Hw|by apply A3].
  - intros r' Hr. by apply A4, Hw.
Qed.

Lemma vinv_born s G ρ l own r tf ρ' l' own' s' :
  vinv s G ρ l own -> cinv ρ' l' own' s' -> hrep (hart s') [] -> born ρ s ρ' s' r -> procpt ρ' s' r 0 tf ->
  vinv s' (<[r := (0, tf)]> G) ρ' l' own'.
Proof.
  intros [A1 A2 A3 A4] Hi Hh Hb Hp. destruct top_vpns as [T1 T2]. pose proof (fun q => born_other _ _ _ _ _ q Hb) as Hne.
  destruct Hb as [W0 W1 W2 W3 W4 W5 W6]. split; [done|done| |].
  - intros r' sz tf' [[<- [= <- <-]]|[Hne' HG]]%lookup_insert_Some; [done|].
    destruct (A3 _ _ _ HG) as [[B1 B2 B3] B4 B5 B6]. split; [split| | |done].
    + apply W1. by left.
    + done.
    + intros v Hv. rewrite W3 by (done || by apply user_vpn). by apply B3.
    + rewrite W4 by assumption. exact B4.
    + rewrite W4 by assumption. exact B5.
  - intros r' [Hr| ->]%W1; [|rewrite lookup_insert_eq; eauto]. apply lookup_insert_is_Some. right. split; [|by apply A4].
    intros <-. by apply (Hne r).
Qed.

Lemma vinv_gone s G ρ l own r ρ' l' own' s' :
  vinv s G ρ l own -> cinv ρ' l' own' s' -> hrep (hart s') [] -> gone ρ s ρ' s' r -> vinv s' (delete r G) ρ' l' own'.
Proof.
  intros [A1 A2 A3 A4] Hi Hh [W1 W2 W3 W4 W5 W6]. destruct top_vpns as [T1 T2]. split; [done|done| |].
  - intros r' sz tf [Hne HG]%lookup_delete_Some.
    destruct (A3 _ _ _ HG) as [[B1 B2 B3] B4 B5 B6]. split; [split| | |done].
    + apply W1. by split.
    + done.
    + intros v Hv. rewrite W3 by (done || by apply user_vpn). by apply B3.
    + rewrite W4 by (assumption || done). exact B4.
    + rewrite W4 by (assumption || done). exact B5.
  - intros r' [Hr Hne]%W1. rewrite lookup_delete_ne by done. by apply A4.
Qed.


(** ** Each operation keeps the state well formed *)

Section steps.
Context (n : nat) (Hn : 32770 < Z.of_nat n).
Context (s : mstate H) (G : spaces) (ρ : Z -> role) (l : list Z) (own : Z -> list (Z * Z)) (Hv : vinv s G ρ l own).

Lemma live_space r sz tf : G !! r = Some (sz, tf) -> aspace ρ s r sz.
Proof. intros HG. by eapply pp_space, (vi_live _ _ _ _ _ Hv). Qed.

Lemma good_create tf r s' : aligned tf -> 0 <= tf < 2 ^ 56 -> proc_pagetable tf n s = Ret r s' ->
  good (s', if r =? 0 then G else <[r := (0, tf)]> G).
Proof.
  intros T1 T2 E. pose proof Hv as [A1 A2 A3 A4].
  pose proof (wp_inv _ _ _ _ _ _ (wp_proc_pagetable ρ l own s tf n [] Hn A1 A2 (not_elem_of_nil _) T1 T2) E)
    as (ρ' & l' & own' & Hi & Hh & [(-> & Hq & _)|(Hr & _ & Hb & Hp & _)]); exists ρ', l', own'.
  - by eapply vinv_quiet.
  - rewrite (proj2 (Z.eqb_neq r 0)) by done. by eapply vinv_born.
Qed.

Lemma good_free r sz tf s' : G !! r = Some (sz, tf) -> proc_freepagetable r sz n s = Ret tt s' -> good (s', delete r G).
Proof.
  intros HG E. pose proof Hv as [A1 A2 A3 A4].
  pose proof (wp_inv _ _ _ _ _ _ (wp_proc_freepagetable ρ l own s r sz tf n [] Hn A1 A2 (not_elem_of_nil _) (A3 _ _ _ HG)) E)
    as (ρ' & l' & own' & Hi & Hh & Hg & _). exists ρ', l', own'. by eapply vinv_gone.
Qed.

Lemma set_sz_same r sz tf : G !! r = Some (sz, tf) -> set_sz r sz G = G.
Proof.
  intros HG. apply map_eq. intros q. unfold set_sz.
  destruct (decide (q = r)) as [->|]; [by rewrite lookup_alter_eq, HG|by rewrite lookup_alter_ne].
Qed.

Lemma good_grow r sz tf newsz res s' : G !! r = Some (sz, tf) -> sz <= newsz < 2 ^ 64 ->
  uvmalloc r sz newsz n s = Ret res s' -> good (s', if res =? 0 then G else set_sz r res G).
Proof.
  intros HG Hs E. pose proof Hv as [A1 A2 A3 A4]. pose proof (live_space _ _ _ HG) as Hp.
  pose proof (wp_inv _ _ _ _ _ _ (wp_uvmalloc ρ l own s r sz newsz n [] Hn A1 A2 (not_elem_of_nil _) Hp Hs) E)
    as (ρ' & l' & own' & Hi & Hh & [(-> & Ha & Hd & _)|(-> & _ & Hq & _)]); exists ρ', l', own'.
  - pose proof (vinv_resize _ _ _ _ _ _ _ _ _ _ _ _ _ _ _ Hv HG Hi Hh Hd (proj2 (as_size _ _ _ _ Ha)) Ha) as Hv'.
    destruct (Z.eqb_spec newsz 0) as [->|]; [|done].
    assert (sz = 0) as -> by (pose proof (as_size _ _ _ _ Hp); lia). by rewrite (set_sz_same _ _ _ HG) in Hv'.
  - by eapply vinv_quiet.
Qed.

Lemma good_shrink r sz tf newsz res s' : G !! r = Some (sz, tf) -> 0 <= newsz ->
  uvmdealloc r sz newsz n s = Ret res s' -> good (s', set_sz r res G).
Proof.
  intros HG Hs E. pose proof Hv as [A1 A2 A3 A4]. pose proof (live_space _ _ _ HG) as Hp.
  pose proof (wp_inv _ _ _ _ _ _ (wp_uvmdealloc ρ l own s r sz newsz n [] Hn A1 A2 (not_elem_of_nil _) Hp Hs) E)
    as (ρ' & l' & own' & Hi & Hh & -> & Ha & Hd).
  exists ρ', l', own'. eapply vinv_resize; [exact Hv|exact HG|done|done|exact Hd|apply (as_size _ _ _ _ Hp)|done].
Qed.

Lemma good_fork r sz tf r' tf' res s' : G !! r = Some (sz, tf) -> G !! r' = Some (0, tf') -> r <> r' ->
  uvmcopy r r' sz n s = Ret res s' -> good (s', if res =? 0 then set_sz r' sz G else G).
Proof.
  intros HG HG' Hne E. pose proof Hv as [A1 A2 A3 A4].
  pose proof (live_space _ _ _ HG) as Hp. pose proof (live_space _ _ _ HG') as Hp'.
  pose proof (wp_inv _ _ _ _ _ _ (wp_uvmcopy ρ l own s r r' sz n [] Hn A1 A2 (not_elem_of_nil _) Hp Hp' Hne) E)
    as (ρ' & l' & own' & [(-> & [B1 B2 B3 B4 B5 B6 B7])|(-> & Hi & Hh & _ & _ & Hq & _)]); exists ρ', l', own'.
  - pose proof (as_size _ _ _ _ B3) as [Hs Hs']. pose proof NVPN_eq. destruct (pgs_bounds sz Hs) as (_ & ? & ?).
    eapply (vinv_resize _ _ _ _ _ r' 0 tf' sz 0 (pgs sz)); [exact Hv|exact HG'|done|done|exact B5|done|].
    eapply aspace_sz; [exact B4|symmetry; apply pgs_pages; lia|done].
  - by eapply vinv_quiet.
Qed.

Lemma good_clear r sz tf v s' : G !! r = Some (sz, tf) -> 0 <= v < pgs sz ->
  uvmclear r (v * PGSIZE) n s = Ret tt s' -> good (s', G).
Proof.
  intros HG Hb E. pose proof Hv as [A1 A2 A3 A4]. pose proof (live_space _ _ _ HG) as Hp.
  pose proof (as_size _ _ _ _ Hp) as [_ Hs'].
  pose proof (wp_inv _ _ _ _ _ _ (wp_uvmclear ρ l own s r v n A1 (aspace_mapped _ _ _ _ _ Hp Hb)) E)
    as (Hi & Hh & Hd & Hva & _).
  exists ρ, l, own. rewrite <-(set_sz_same _ _ _ HG). cbn [fst snd].
  eapply (vinv_resize _ _ _ _ _ r sz tf sz v (v + 1)); [exact Hv|done|done|by rewrite Hh| |lia|].
  - eapply delta_mono; [|exact Hd]. intros w <-. unfold range. lia.
  - destruct Hp as [C1 C2 C3]. split; [done|done|].
    intros w Hw. rewrite Hva by (by apply user_vpn). by apply C3.
Qed.

Lemma good_copyout r sz tf dst src res s' : G !! r = Some (sz, tf) -> 0 <= dst < 2 ^ 64 ->
  Z.of_nat (length src) / PGSIZE + 2 < Z.of_nat n ->
  copyout r dst src (Z.of_nat (length src)) n s = Ret res s' -> good (s', G).
Proof.
  intros HG Hd Hb E. pose proof Hv as [A1 A2 A3 A4]. pose proof (as_root _ _ _ _ (live_space _ _ _ HG)) as Hr.
  pose proof (wp_inv _ _ _ _ _ _ (wp_copyout ρ l own s r dst src n [] Hb A1 A2 (not_elem_of_nil _) (not_elem_of_nil _) Hr Hd) E)
    as (ρ' & l' & own' & k & Hi & Hh & Hw & _). exists ρ', l', own'. by eapply vinv_wrote.
Qed.

Lemma good_fault r sz tf stval killed s' : G !! r = Some (sz, tf) -> 0 <= stval ->
  write_fault r sz stval n s = Ret killed s' -> good (s', G).
Proof.
  intros HG Hs E. pose proof Hv as [A1 A2 A3 A4]. pose proof (live_space _ _ _ HG) as Ha.
  pose proof (wp_inv _ _ _ _ _ _ (wp_write_fault ρ l own s r sz stval n [] ltac:(lia) A1 A2 (not_elem_of_nil _) (not_elem_of_nil _) Ha Hs) E)
    as [(ρ' & l' & own' & Hi & Hh & Hq & _)|(_ & -> & _)]; [|by exists ρ, l, own].
  exists ρ', l', own'. by eapply vinv_quiet.
Qed.

Lemma good_store r sz tf va b s' : G !! r = Some (sz, tf) -> 0 <= va < MAXVA ->
  user_store r va b s = Some s' -> good (s', G).
Proof.
  intros HG Hva E. pose proof Hv as [A1 A2 A3 A4]. pose proof (as_root _ _ _ _ (live_space _ _ _ HG)) as Hr.
  destruct (user_store_private ρ l own s r va b s' A1 Hr Hva E) as [Hi Hw].
  exists ρ, l, own. eapply vinv_wrote; [exact Hv|done| |exact Hw]. cbn [fst].
  unfold user_store in E. destruct (_ && _) in E; [|done]. injection E as <-. done.
Qed.

End steps.

#[local] Hint Resolve good_create good_free good_grow good_shrink good_fork good_clear good_copyout good_fault good_store : core.

Lemma vstep_good n c c' : 32770 < Z.of_nat n -> vstep n c c' -> good c -> good c'.
Proof. intros Hn Hst (ρ & l & own & Hv). destruct Hst; cbn [fst snd] in Hv; eauto. Qed.

(** ** Every history *)

(** At the start only the allocator has pages. *)
Definition free_role (l : list Z) (p : Z) : role := if decide (p ∈ l) then RFree else RNone.

Lemma cinv_start s l : free_inv s l -> cinv (free_role l) l (fun _ => []) s.
Proof.
  intros Hf.
  assert (forall p x, free_role l p = x -> x = RFree \/ x = RNone) as Hr.
  { intros p x <-. unfold free_role. case_decide; auto. }
  assert (forall p k lv, free_role l p <> RPT k lv) as Hn.
  { intros p k lv E. destruct (Hr _ _ E); done. }
  assert (forall p, free_role l p <> RData) as Hd. { intros p E. by destruct (Hr _ _ E). }
  assert (forall r v, ~ mapped (free_role l) (pt s) r v) as Hm. { intros r v (E & _). by apply Hn in E. }
  split; split.
  - done.
  - intros p. unfold free_role. by case_decide.
  - intros p. unfold free_role. case_decide; [|done]. intros _. by apply (fi_managed _ _ Hf).
  - split; intros; exfalso; by eapply Hn.
  - intros p [(k & lv & E)|E]; [by apply Hn in E|by destruct (Hr _ _ E)].
  - intros p r v. split; [by intros ?%elem_of_nil|]. by intros [?%Hm _].
  - intros p. constructor.
  - intros p ?%Hd. done.
  - intros r v ?%Hm. done.
  - intros r v ?%Hm. done.
  - intros p r v r' v' ?%elem_of_nil. done.
  - intros r v E. by apply Hn in E.
Qed.

Lemma start_good s l : free_inv s l -> hrep (hart s) [] -> good (s, ∅).
Proof.
  intros Hf Hh. exists (free_role l), l, (fun _ => []). split; cbn [fst snd]; [by apply cinv_start|done|done|].
  intros r E. unfold uroot, free_role in E. by case_decide.
Qed.

Lemma reach_good n s l c : 32770 < Z.of_nat n -> free_inv s l -> hrep (hart s) [] -> rtc (vstep n) (s, ∅) c -> good c.
Proof.
  intros Hn Hf Hh Hst. pose proof (start_good s l Hf Hh) as Hg. induction Hst; [done|]. eauto using vstep_good.
Qed.

End history.
