(* ===== verification/Sample.v ===== *)
(** * A small machine

    A concrete state of the memory of the kernel, used to instantiate the
    theorems about it: two empty user page tables and ten free pages above a
    small kernel. *)

From S2P Require Import Prelude Riscv Spinlock Str Kalloc Vm PageTable Cow Pages UserMem Fork.

#[local] Existing Instance small_kernel.
#[local] Existing Instance small_kernel_ok.

(** The [i]-th page of the allocator. *)
Definition page (i : Z) : Z := page0 + i * PGSIZE.

Definition tabA : Z := page 0.
Definition tabB : Z := page 1.
Definition free_pages : list Z := page <$> [2; 3; 4; 5; 6; 7; 8; 9; 10; 11].

(** The free list is threaded through the free pages. *)
Definition sample_mem : memory :=
  foldr (fun i m => store64 m (page i) (page (i + 1))) (fun _ => 0) [2; 3; 4; 5; 6; 7; 8; 9; 10].

Definition sample : mstate machine :=
  MState sample_mem (page 2) (fun i => if decide (i < INDEX (page 2)) then 1 else 0) idle_hart.

Definition sample_role (p : Z) : role :=
  if decide (p = tabA \/ p = tabB) then RPT false 2
  else if decide (p ∈ free_pages) then RFree else RNone.

Lemma page_managed i : 0 <= i < 12 -> managed (page i).
Proof.
  intros Hi. unfold managed, page. change kfirst with (page0 - PGSIZE). unfold page0. pages.
  split_and!; Z.div_mod_to_equations; lia.
Qed.

Lemma free_page p : p ∈ free_pages -> exists i, 2 <= i < 12 /\ p = page i.
Proof.
  intros (i & -> & Hi)%list_elem_of_fmap. exists i. split; [|done].
  repeat (apply elem_of_cons in Hi as [->|Hi]; [lia|]). by apply elem_of_nil in Hi.
Qed.

Lemma page_inj i j : page i = page j -> i = j.
Proof. unfold page. pages. lia. Qed.

Lemma sample_ref i : 0 <= i < 12 -> ref_count sample (INDEX (page i)) = if decide (i < 2) then 1 else 0.
Proof.
  intros Hi. unfold sample. cbn [ref_count]. rewrite !INDEX_eq. unfold page.
  change (PGROUNDUP kend) with (page0 - 33 * PGSIZE). pages.
  repeat case_decide; Z.div_mod_to_equations; lia.
Qed.

Lemma sample_zero x : page0 <= x < page 2 -> sample_mem x = 0.
Proof.
  intros Hx. unfold sample_mem. simpl.
  rewrite !store64_out by (unfold page in *; pages; lia). done.
Qed.

Lemma sample_free : free_inv sample free_pages.
Proof.
  split.
  - by vm_compute.
  - apply (bool_decide_unpack _). by vm_compute.
  - intros p (i & Hi & ->)%free_page. apply page_managed. lia.
  - intros p (i & Hi & ->)%free_page. rewrite sample_ref by lia. by rewrite decide_False by lia.
Qed.

Lemma sample_table p k lv : sample_role p = RPT k lv -> k = false /\ lv = 2%nat /\ exists i, 0 <= i < 2 /\ p = page i.
Proof.
  unfold sample_role. case_decide as E; [|by case_decide]. intros [= <- <-]. split_and!; try done.
  destruct E as [->| ->]; [by exists 0|by exists 1].
Qed.

Lemma sample_entry p k lv i : sample_role p = RPT k lv -> 0 <= i < 512 -> entry (mem sample) p i = 0.
Proof.
  intros (_ & _ & j & Hj & ->)%sample_table Hi. apply load64_zero. intros x Hx. apply sample_zero.
  unfold page in *. pages. lia.
Qed.

Lemma sample_tinv : tinv sample_role free_pages sample.
Proof.
  split.
  - apply sample_free.
  - intros p. unfold sample_role. split.
    + case_decide; [done|]. by case_decide.
    + intros Hp. rewrite decide_False, decide_True; [done|done|].
      destruct (free_page p Hp) as (i & Hi & ->). intros [E|E]; apply page_inj in E; lia.
  - intros p Hp. unfold sample_role in Hp. case_decide as E.
    + destruct E as [->| ->]; apply page_managed; lia.
    + case_decide as E'; [|done]. destruct (free_page p E') as (i & Hi & ->). apply page_managed. lia.
  - split.
    + intros q k lv (_ & -> & _)%sample_table. done.
    + intros q k i Hq Hi. rewrite (sample_entry q k 2) by (done || lia). apply has_0.
    + intros q k lv i Hq Hi HV. by rewrite (sample_entry q k (S lv)), has_0 in HV.
    + intros q k lv i q' k' lv' i' Hq Hq' Hi Hi' HV. by rewrite (sample_entry q k (S lv)), has_0 in HV.
  - intros p [(k & lv & (_ & _ & i & Hi & ->)%sample_table)|E].
    + rewrite sample_ref by lia. by rewrite decide_True by lia.
    + unfold sample_role in E. case_decide; [done|]. by case_decide.
Qed.

Lemma sample_pt r v : uroot sample_role r -> pt sample r v = 0.
Proof.
  intros Hr. unfold pt, pte_at, leaf_addr. cbn [path].
  rewrite (sample_entry r false 2) by (done || apply PX_range; lia). by rewrite has_0.
Qed.

Lemma sample_cinv : cinv sample_role free_pages (fun _ => []) sample.
Proof.
  split; [apply sample_tinv|].
  assert (forall r v, ~ mapped sample_role (pt sample) r v) as Hn.
  { intros r v (Hr & _ & HV). by rewrite (sample_pt r v Hr), has_0 in HV. }
  assert (forall p, sample_role p <> RData) as Hd.
  { intros p. unfold sample_role. by repeat case_decide. }
  split.
  - intros p r v. split; [by intros ?%elem_of_nil|]. by intros [?%Hn _].
  - intros p. constructor.
  - intros p ?%Hd. done.
  - intros r v ?%Hn. done.
  - intros r v ?%Hn. done.
  - intros p r v r' v' ?%elem_of_nil. done.
  - intros r v Hr _. by rewrite sample_pt.
Qed.

Lemma sample_aspace r : r = tabA \/ r = tabB -> aspace sample_role sample r 0.
Proof.
  intros Hr. assert (uroot sample_role r) as Hu by (unfold uroot, sample_role; by rewrite decide_True).
  split; [done|split; [lia|by vm_compute]|].
  intros v Hv. rewrite sample_pt, has_0 by done. rewrite bool_decide_false; [done|].
  change (pgs 0) with 0. lia.
Qed.

(** Bounds that are enough for every theorem. *)
Definition fuel : nat := Z.to_nat 40000.

Lemma fuel_big : 32770 < Z.of_nat fuel.
Proof. unfold fuel. lia. Qed.

(** ** A process with two pages, and its fork *)

Definition result {A} (o : out (mstate machine) A) : option A :=
  match o with Ret a _ => Some a | _ => None end.
Definition after {A} (o : out (mstate machine) A) : mstate machine :=
  match o with Ret _ s => s | _ => sample end.

Lemma result_after {A} (o : out (mstate machine) A) a : result o = Some a -> o = Ret a (after o).
Proof. destruct o; simpl; congruence. Qed.

(** [tabA] grown to two pages. *)
Definition grown : mstate machine := after (uvmalloc tabA 0 8192 fuel sample).

(** [tabB] made a copy of [tabA]. *)
Definition forked : mstate machine := after (uvmcopy tabA tabB 8192 fuel grown).

Lemma grown_run : uvmalloc tabA 0 8192 fuel sample = Ret 8192 grown.
Proof. unfold grown. apply (result_after (uvmalloc tabA 0 8192 fuel sample) 8192). by vm_compute. Qed.

Lemma forked_run : uvmcopy tabA tabB 8192 fuel grown = Ret 0 forked.
Proof. unfold forked. apply (result_after (uvmcopy tabA tabB 8192 fuel grown) 0). by vm_compute. Qed.

#[global] Opaque grown forked fuel.

Lemma tabs_differ : tabA <> tabB.
Proof. by vm_compute. Qed.

Lemma grown_facts : exists ρ l own,
  cinv ρ l own grown /\ hrep (hart grown) [] /\ aspace ρ grown tabA 8192 /\ aspace ρ grown tabB 0 /\
  zero_pages grown tabA 0 2 /\ (forall v, NVPN <= v < TOPVPN -> has (pt grown tabA v) PTE_V = false).
Proof.
  pose proof (wp_uvmalloc sample_role free_pages (fun _ => []) sample tabA 0 8192 fuel [] fuel_big
    sample_cinv idle_hart_mrep (not_elem_of_nil _) (sample_aspace _ (or_introl eq_refl)) ltac:(lia)) as Hwp.
  unfold wp in Hwp. rewrite grown_run in Hwp.
  destruct Hwp as (ρ & l & own & Hi & Hh & [(_ & Ha & Hd & Hz & _)|[? _]]); [|done].
  exists ρ, l, own. split; [exact Hi|]. split; [exact Hh|]. split; [exact Ha|]. split; [|split; [exact Hz|]].
  - eapply aspace_delta; [exact Hd|by apply sample_aspace; right|]. intros v _ _ E. by apply tabs_differ.
  - intros v Hv. rewrite (d_valid _ _ _ _ _ _ Hd), sample_pt; [by rewrite has_0|apply sample_aspace; by left..|
      pose proof NVPN_eq; lia|]. intros [_ Hr]. revert Hr. change (pgs 8192) with 2. unfold range.
    pose proof NVPN_eq. lia.
Qed.

Lemma forked_facts : exists ρ l own,
  cinv ρ l own forked /\ hrep (hart forked) [] /\ aspace ρ forked tabA 8192 /\ aspace ρ forked tabB 8192 /\
  shared forked tabA tabB 2.
Proof.
  destruct grown_facts as (ρ & l & own & Hi & Hh & Ha & Hb & _).
  pose proof (wp_uvmcopy ρ l own grown tabA tabB 8192 fuel [] fuel_big Hi Hh (not_elem_of_nil _) Ha Hb tabs_differ) as Hwp.
  unfold wp in Hwp. rewrite forked_run in Hwp.
  destruct Hwp as (ρ' & l' & own' & [(_ & [A1 A2 A3 A4 A5 A6 A7])|[? _]]); [|done].
  exists ρ', l', own'. exact (conj A1 (conj A2 (conj A3 (conj A4 A6)))).
Qed.
