(* ===== verification/UserVm.v ===== *)
(** * User memory: the theorems

    What the virtual memory system promises, for single calls and for every
    history of calls. *)

From stdpp Require Import gmap.
From S2P Require Import Prelude Riscv Spinlock Str Kalloc Vm PageTable Cow Pages UserMem Fork FreeVm CopyUser PageFault ProcVm VmHistory Sample.

Section theorems.
Context {H : Type} {SP : Spin H} {LY : Layout} {LO : LayoutOk}.
Implicit Types (s : mstate H) (ρ : Z -> role) (own : Z -> list (Z * Z)).

(** ** Histories *)

(** C1: Isolation of address spaces, whatever has happened since boot. After
    any sequence of page-table creations and deletions, growing, shrinking,
    copy-on-write forks, kernel writes, page faults and stores, a store that
    user code makes without faulting changes exactly the byte at its own
    virtual address in its own address space: every other byte of every
    address space reads as before. *)
Theorem store_isolation n s0 l0 s G r va b s' r' va' :
  32770 < Z.of_nat n -> free_inv s0 l0 -> hrep (hart s0) [] -> rtc (vstep n) (s0, ∅) (s, G) ->
  is_Some (G !! r) -> is_Some (G !! r') -> 0 <= va < MAXVA -> 0 <= va' < MAXVA ->
  user_store r va b s = Some s' ->
  ubyte s' r' va' = if decide (r' = r /\ va' = va) then Some b else ubyte s r' va'.
Proof.
  intros Hn Hf Hh Hst [[sz tf] HG] [[sz' tf'] HG'] Hva Hva' E.
  destruct (reach_good n s0 l0 _ Hn Hf Hh Hst) as (ρ & l & own & Hv). cbn [fst snd] in Hv.
  pose proof (as_root _ _ _ _ (live_space _ _ _ _ _ Hv _ _ _ HG)) as Hr.
  pose proof (as_root _ _ _ _ (live_space _ _ _ _ _ Hv _ _ _ HG')) as Hr'.
  destruct (user_store_private ρ l own s r va b s' (vi_cinv _ _ _ _ _ Hv) Hr Hva E) as [_ Hw].
  rewrite (wr_view _ _ _ _ _ _ _ Hw) by done. cbn [length]. destruct (decide (r' = r /\ va' = va)) as [[-> ->]|Hne].
  - rewrite decide_True by lia. by rewrite Z.sub_diag.
  - rewrite decide_False; [done|]. intros [-> ?]. apply Hne. split; [done|lia].
Qed.

(** C3: Reference counts are exact, whatever has happened since boot: the
    count of a page that user memory maps is the number of the mappings of
    the page, over all live page tables, and at most 32768, so that it never
    overflows; and a page mapped more than once is write-protected in all of
    them. *)
Theorem counts_exact n s0 l0 s G r v :
  32770 < Z.of_nat n -> free_inv s0 l0 -> hrep (hart s0) [] -> rtc (vstep n) (s0, ∅) (s, G) ->
  is_Some (G !! r) -> 0 <= v < NVPN -> has (pt s r v) PTE_V = true ->
  exists L : list (Z * Z), NoDup L /\
    (forall q w, (q, w) ∈ L <-> is_Some (G !! q) /\ 0 <= w < NVPN /\ has (pt s q w) PTE_V = true /\
       PTE2PA (pt s q w) = PTE2PA (pt s r v)) /\
    ref_count s (INDEX (PTE2PA (pt s r v))) = Z.of_nat (length L) /\ 1 <= Z.of_nat (length L) <= 32768 /\
    (forall q w, (q, w) ∈ L -> L = [(q, w)] \/ has (pt s q w) PTE_W = false).
Proof.
  intros Hn Hf Hh Hst [[sz tf] HG] Hvr HV.
  destruct (reach_good n s0 l0 _ Hn Hf Hh Hst) as (ρ & l & own & Hv). cbn [fst snd] in Hv.
  pose proof (vi_cinv _ _ _ _ _ Hv) as Hi. pose proof Hi as [Ht Hb].
  assert (forall q, is_Some (G !! q) <-> uroot ρ q) as Hroot.
  { intros q. split; [intros [[sz' tf'] E]|apply (vi_roots _ _ _ _ _ Hv)]. by eapply as_root, live_space. }
  assert (mapped ρ (pt s) r v) as Hm by (split; [apply Hroot; eauto|done]).
  set (p := PTE2PA (pt s r v)). assert (ρ p = RData) as HD by apply (bi_leaf _ _ _ _ Hb _ _ Hm).
  exists (own p). split; [apply (bi_nodup _ _ _ _ Hb)|]. split; [|split; [|split]].
  - intros q w. rewrite (bi_own _ _ _ _ Hb), Hroot. unfold mapped. tauto.
  - apply (bi_ref _ _ _ _ Hb p HD).
  - destruct (bi_ref _ _ _ _ Hb p HD) as [<- _]. pose proof (ref_bounds _ _ _ _ _ Hi HD). lia.
  - intros q w Hq. pose proof (proj1 (bi_own _ _ _ _ Hb p q w) Hq) as [Hm' E].
    destruct (has (pt s q w) PTE_W) eqn:HW; [left|by right]. rewrite <-E.
    apply (bi_cow _ _ _ _ Hb); [done|]. unfold cow. by rewrite HW, andb_false_r.
Qed.

(** C35: No panic: in every reachable state the operations on live page
    tables return, for every bound above the number of pages. *)
Theorem operations_return n s0 l0 s G r sz tf :
  32770 < Z.of_nat n -> free_inv s0 l0 -> hrep (hart s0) [] -> rtc (vstep n) (s0, ∅) (s, G) ->
  G !! r = Some (sz, tf) ->
  (forall newsz, sz <= newsz < 2 ^ 64 -> exists res s', uvmalloc r sz newsz n s = Ret res s') /\
  (forall newsz, 0 <= newsz -> exists res s', uvmdealloc r sz newsz n s = Ret res s') /\
  (forall r' tf', G !! r' = Some (0, tf') -> r <> r' -> exists res s', uvmcopy r r' sz n s = Ret res s') /\
  (forall stval, 0 <= stval -> exists killed s', write_fault r sz stval n s = Ret killed s') /\
  (exists s', proc_freepagetable r sz n s = Ret tt s').
Proof.
  intros Hn Hf Hh Hst HG. destruct (reach_good n s0 l0 _ Hn Hf Hh Hst) as (ρ & l & own & Hv). cbn [fst snd] in Hv.
  pose proof Hv as [Hi Hh' Hl _]. pose proof (live_space _ _ _ _ _ Hv) as Hs. pose proof (Hs _ _ _ HG) as Ha.
  pose proof (not_elem_of_nil Lkmem) as N1. pose proof (not_elem_of_nil Lref) as N2. split_and!.
  - intros newsz Hb. destruct (wp_elim _ _ _ _ (wp_uvmalloc ρ l own s r sz newsz n [] Hn Hi Hh' N1 Ha Hb)) as (? & ? & ? & _). eauto.
  - intros newsz Hb. destruct (wp_elim _ _ _ _ (wp_uvmdealloc ρ l own s r sz newsz n [] Hn Hi Hh' N1 Ha Hb)) as (? & ? & ? & _). eauto.
  - intros r' tf' HG' Hne.
    destruct (wp_elim _ _ _ _ (wp_uvmcopy ρ l own s r r' sz n [] Hn Hi Hh' N1 Ha (Hs _ _ _ HG') Hne)) as (? & ? & ? & _). eauto.
  - intros stval Hb.
    destruct (wp_elim _ _ _ _ (wp_write_fault ρ l own s r sz stval n [] ltac:(lia) Hi Hh' N1 N2 Ha Hb)) as (? & ? & ? & _). eauto.
  - destruct (wp_elim_unit _ _ _ _ (wp_proc_freepagetable ρ l own s r sz tf n [] Hn Hi Hh' N1 (Hl _ _ _ HG))) as (? & ? & _). eauto.
Qed.

(** ** Single calls *)

(** C6: Copy-on-write fork. [uvmcopy] into an empty page table either makes
    it read byte for byte like the old one, shares every page read-only
    between the two, and changes no byte of any address space that existed;
    or it returns -1, which it does only when fewer than two pages per page
    of the process are free, and then no user memory has changed. *)
Theorem uvmcopy_correct ρ l own s old new sz n hl :
  32770 < Z.of_nat n -> cinv ρ l own s -> hrep (hart s) hl -> Lkmem ∉ hl ->
  aspace ρ s old sz -> aspace ρ s new 0 -> old <> new ->
  exists res s' ρ' l' own', uvmcopy old new sz n s = Ret res s' /\ cinv ρ' l' own' s' /\ hrep (hart s') hl /\
    ((res = 0 /\ aspace ρ' s' new (pgs sz * PGSIZE) /\
      (forall va, 0 <= va < pgs sz * PGSIZE -> ubyte s' new va = ubyte s old va) /\
      (forall r va, uroot ρ r -> r <> new -> 0 <= va < MAXVA -> ubyte s' r va = ubyte s r va) /\
      (forall v, 0 <= v < pgs sz -> pt s' new v = pt s' old v /\ has (pt s' old v) PTE_W = false)) \/
     (res = -1 /\ quiet ρ s ρ' s' /\ Z.of_nat (length l) < 2 * pgs sz)).
Proof.
  intros Hn Hi Hh Hl Ho Hw Hne.
  destruct (wp_elim _ _ _ _ (wp_uvmcopy ρ l own s old new sz n hl Hn Hi Hh Hl Ho Hw Hne))
    as (res & s' & E & ρ' & l' & own' & [(-> & [B1 B2 B3 B4 B5 B6 B7])|(-> & ? & ? & _ & _ & ? & ? & _)]);
    eexists _, s', ρ', l', own'; split_and!; try done; [left|right; by split_and!].
  split_and!; try done.
  - intros r va Hr Hr' Hva. apply (d_view _ _ _ _ _ _ B5); [done|done|]. by intros [? _].
  - intros v Hv. destruct (B6 v Hv) as [-> Hc]. split; [done|]. unfold cow in Hc.
    by apply andb_true_iff in Hc as [_ ?%negb_true_iff].
Qed.

(** C7: The page-fault handler never changes what any process reads. It
    either leaves the faulting page mapped by this process alone, user
    accessible and writable, so that the store is retried successfully; or it
    marks the process killed, which it does only for an address outside the
    process, a page that is not a copy-on-write page, or when at most one
    page is free. *)
Theorem write_fault_correct ρ l own s r sz stval n hl :
  (0 < n)%nat -> cinv ρ l own s -> hrep (hart s) hl -> Lkmem ∉ hl -> Lref ∉ hl ->
  aspace ρ s r sz -> 0 <= stval ->
  exists killed s' ρ' l' own', write_fault r sz stval n s = Ret killed s' /\
    cinv ρ' l' own' s' /\ hrep (hart s') hl /\ quiet ρ s ρ' s' /\
    if killed
    then (length l' <= 1)%nat \/ user (pt s r (vpn stval)) && has (pt s r (vpn stval)) PTE_RSW = false \/
         sz < PGROUNDDOWN stval
    else own' (PTE2PA (pt s' r (vpn stval))) = [(r, vpn stval)] /\
         user (pt s' r (vpn stval)) = true /\ has (pt s' r (vpn stval)) PTE_W = true.
Proof.
  intros Hn Hi Hh Hl Hl' Ha Hs.
  destruct (wp_elim _ _ _ _ (wp_write_fault ρ l own s r sz stval n hl Hn Hi Hh Hl Hl' Ha Hs))
    as (killed & s' & E & [(ρ' & l' & own' & Hi' & Hh' & Hq & Hk)|(-> & -> & Hlt)]).
  - exists killed, s', ρ', l', own'. split_and!; try done. destruct killed; [tauto|].
    destruct Hk as ([_ ?] & ? & ?). done.
  - exists true, s, ρ, l, own. split_and!; try done; auto.
Qed.

(** C34: [copyout] writes a prefix of the kernel's bytes at [dst] and nothing
    else in any address space, breaking copy-on-write sharing as needed; it
    returns 0 exactly when the prefix is everything, and -1 only where user
    code itself could not read or when at most one page is free. *)
Theorem copyout_correct ρ l own s r dst src n hl :
  Z.of_nat (length src) / PGSIZE + 2 < Z.of_nat n ->
  cinv ρ l own s -> hrep (hart s) hl -> Lkmem ∉ hl -> Lref ∉ hl -> uroot ρ r -> 0 <= dst < 2 ^ 64 ->
  exists res s' ρ' l' own' k, copyout r dst src (Z.of_nat (length src)) n s = Ret res s' /\
    cinv ρ' l' own' s' /\ hrep (hart s') hl /\
    (forall r' va, uroot ρ r' -> 0 <= va < MAXVA -> ubyte s' r' va =
       if decide (r' = r /\ dst <= va < dst + Z.of_nat (length (take k src)))
       then Some (take k src !!! Z.to_nat (va - dst)) else ubyte s r' va) /\
    ((res = 0 /\ k = length src) \/
     (res = -1 /\ (k < length src)%nat /\ ((length l' <= 1)%nat \/ faults s r (dst + Z.of_nat k)))).
Proof.
  intros Hn Hi Hh Hl Hl' Hr Hd.
  destruct (wp_elim _ _ _ _ (wp_copyout ρ l own s r dst src n hl Hn Hi Hh Hl Hl' Hr Hd))
    as (res & s' & E & ρ' & l' & own' & k & ? & ? & Hw & ?).
  exists res, s', ρ', l', own', k. split_and!; try done. apply (wr_view _ _ _ _ _ _ _ Hw).
Qed.

(** [copyin] changes nothing and returns 0 with the [len] bytes at [src]
    of the address space, or -1 when user code would fault on one of them. *)
Theorem copyin_correct ρ l own s r src len n :
  len / PGSIZE + 2 < Z.of_nat n -> cinv ρ l own s -> uroot ρ r -> 0 <= src < 2 ^ 64 -> 0 <= len ->
  exists res bs, copyin r src len n s = Ret (res, bs) s /\
    (forall i b, bs !! i = Some b -> src + Z.of_nat i < MAXVA /\ ubyte s r (src + Z.of_nat i) = Some b) /\
    ((res = 0 /\ Z.of_nat (length bs) = len) \/
     (res = -1 /\ Z.of_nat (length bs) < len /\ faults s r (src + Z.of_nat (length bs)))).
Proof.
  intros Hn Hi Hr Hs Hl.
  destruct (wp_elim _ _ _ _ (wp_copyin ρ l own s r src len n Hn Hi Hr Hs Hl)) as ([res bs] & s' & E & -> & ? & ?).
  by exists res, bs.
Qed.

(** [copyinstr] changes nothing and returns 0 with the null-terminated
    string at [src] when it ends within [max] bytes, and otherwise -1,
    because [max] bytes came without a null or user code would fault. *)
Theorem copyinstr_correct ρ l own s r src max n :
  max / PGSIZE + 3 < Z.of_nat n -> cinv ρ l own s -> uroot ρ r -> 0 <= src < 2 ^ 64 -> 0 <= max ->
  exists res dst bs, copyinstr r src max n s = Ret (res, dst) s /\ Forall (fun b => b <> 0) bs /\ reads s r src dst /\
    ((res = 0 /\ dst = bs ++ [0] /\ Z.of_nat (length dst) <= max) \/
     (res = -1 /\ dst = bs /\ Z.of_nat (length bs) <= max /\
      (Z.of_nat (length bs) = max \/ faults s r (src + Z.of_nat (length bs))))).
Proof.
  intros Hn Hi Hr Hs Hl.
  destruct (wp_elim _ _ _ _ (wp_copyinstr ρ l own s r src max n Hn Hi Hr Hs Hl)) as ([res dst] & s' & E & -> & bs & ?).
  by exists res, dst, bs.
Qed.

(** [uvmalloc] extends the address space to [newsz] with zeroed pages and
    changes no other byte of user memory; or it returns 0 with nothing
    changed, which for sizes below [2^63] happens only when fewer than three
    pages per page asked for are free. *)
Theorem uvmalloc_correct ρ l own s r oldsz newsz n hl :
  32770 < Z.of_nat n -> cinv ρ l own s -> hrep (hart s) hl -> Lkmem ∉ hl ->
  aspace ρ s r oldsz -> oldsz <= newsz < 2 ^ 64 ->
  exists sz s' ρ' l' own', uvmalloc r oldsz newsz n s = Ret sz s' /\ cinv ρ' l' own' s' /\ hrep (hart s') hl /\
    ((sz = newsz /\ aspace ρ' s' r newsz /\ zero_pages s' r (pgs oldsz) (pgs newsz) /\
      (forall r' va, uroot ρ r' -> 0 <= va < MAXVA -> ~ (r' = r /\ pgs oldsz <= vpn va < pgs newsz) ->
         ubyte s' r' va = ubyte s r' va)) \/
     (sz = 0 /\ aspace ρ' s' r oldsz /\ quiet ρ s ρ' s' /\
      (newsz < 2 ^ 63 -> Z.of_nat (length l) < 3 * (pgs newsz - pgs oldsz)))).
Proof.
  intros Hn Hi Hh Hl Ha Hs.
  destruct (wp_elim _ _ _ _ (wp_uvmalloc ρ l own s r oldsz newsz n hl Hn Hi Hh Hl Ha Hs))
    as (sz & s' & E & ρ' & l' & own' & ? & ? & [(? & ? & Hd & ? & _)|?]); exists sz, s', ρ', l', own'; split_and!; try done; [left|by right].
  split_and!; try done. apply (d_view _ _ _ _ _ _ Hd).
Qed.

(** Deleting the page table of a process returns every page of it: the
    address space is gone, its page-table pages are free again, all others
    read as before and the pages that others still share survive. *)
Theorem proc_freepagetable_correct ρ l own s r sz tf n hl :
  32770 < Z.of_nat n -> cinv ρ l own s -> hrep (hart s) hl -> Lkmem ∉ hl -> procpt ρ s r sz tf ->
  exists s' ρ' l' own', proc_freepagetable r sz n s = Ret tt s' /\ cinv ρ' l' own' s' /\ hrep (hart s') hl /\
    (r ∈ l') /\ (forall r', uroot ρ' r' <-> uroot ρ r' /\ r' <> r) /\
    (forall r' va, uroot ρ r' -> r' <> r -> 0 <= va < MAXVA -> ubyte s' r' va = ubyte s r' va).
Proof.
  intros Hn Hi Hh Hl Hp.
  destruct (wp_elim_unit _ _ _ _ (wp_proc_freepagetable ρ l own s r sz tf n hl Hn Hi Hh Hl Hp))
    as (s' & E & ρ' & l' & own' & Hi' & ? & Hg & Hf & _).
  exists s', ρ', l', own'. split_and!; try done; [|apply (g_roots _ _ _ _ _ Hg)|apply (g_view _ _ _ _ _ Hg)].
  by apply (ti_role_free _ _ _ (ci_t _ _ _ _ Hi')).
Qed.

End theorems.

(** ** Instances on the small machine *)

Section instances.
#[local] Existing Instance small_kernel.
#[local] Existing Instance small_kernel_ok.

(** A process is created and given one page. *)
Definition proc_tab : Z := page 2.
Definition created : mstate machine := after (proc_pagetable (page 20) fuel sample).
Definition loaded : mstate machine := after (uvmalloc proc_tab 0 4096 fuel created).
Definition stored : option (mstate machine) := user_store proc_tab 5 77 loaded.

Lemma created_run : proc_pagetable (page 20) fuel sample = Ret proc_tab created.
Proof. unfold created. apply (result_after (proc_pagetable (page 20) fuel sample) proc_tab). by vm_compute. Qed.

Lemma loaded_run : uvmalloc proc_tab 0 4096 fuel created = Ret 4096 loaded.
Proof. unfold loaded. apply (result_after (uvmalloc proc_tab 0 4096 fuel created) 4096). by vm_compute. Qed.

Lemma stored_run : exists s', stored = Some s'.
Proof.
  assert (match stored with Some _ => true | None => false end = true) as E by (vm_compute; reflexivity).
  destruct stored; [by eexists|done].
Qed.

Lemma loaded_valid : has (pt loaded proc_tab 0) PTE_V = true.
Proof. vm_compute. reflexivity. Qed.

#[local] Opaque created loaded.

Definition loaded_spaces : gmap Z (Z * Z) := set_sz proc_tab 4096 (<[proc_tab := (0, page 20)]> ∅).

Lemma loaded_lookup : loaded_spaces !! proc_tab = Some (4096, page 20).
Proof. unfold loaded_spaces, set_sz. by rewrite lookup_alter_eq, lookup_insert_eq. Qed.

Lemma loaded_reach : rtc (vstep fuel) (sample, ∅) (loaded, loaded_spaces).
Proof.
  eapply rtc_l.
  - eapply (V_create _ _ _ (page 20)); [by vm_compute|by vm_compute|apply created_run].
  - change (proc_tab =? 0) with false. cbv iota. apply rtc_once.
    eapply (V_grow _ _ _ proc_tab 0 (page 20) 4096 4096); [apply lookup_insert_eq|lia|apply loaded_run].
Qed.

End instances.

Lemma small_va va : 0 <= va < 4096 -> 0 <= va < MAXVA.
Proof. rewrite MAXVA_eq. lia. Qed.

Lemma store_isolation_witness : exists s',
  stored = Some s' /\ ubyte s' proc_tab 6 = ubyte loaded proc_tab 6.
Proof.
  destruct stored_run as [s' E]. exists s'. split; [exact E|].
  pose proof (@store_isolation machine machine_spin small_kernel small_kernel_ok fuel sample free_pages loaded
    loaded_spaces proc_tab 5 77 s' proc_tab 6 fuel_big sample_free idle_hart_mrep loaded_reach
    (mk_is_Some _ _ loaded_lookup) (mk_is_Some _ _ loaded_lookup) (small_va 5 ltac:(lia)) (small_va 6 ltac:(lia)) E) as Hx.
  rewrite decide_False in Hx by lia. exact Hx.
Defined.

Lemma counts_exact_witness : exists L : list (Z * Z), NoDup L /\ (proc_tab, 0) ∈ L /\
  ref_count loaded (INDEX (LY := small_kernel) (PTE2PA (pt loaded proc_tab 0))) = Z.of_nat (length L).
Proof.
  destruct (@counts_exact machine machine_spin small_kernel small_kernel_ok fuel sample free_pages loaded
    loaded_spaces proc_tab 0 fuel_big sample_free idle_hart_mrep loaded_reach
    (mk_is_Some _ _ loaded_lookup) ltac:(rewrite NVPN_eq; lia) loaded_valid) as (L & Hn & HL & Hc & _).
  exists L. split; [exact Hn|]. split; [|exact Hc]. apply HL. split; [exact (mk_is_Some _ _ loaded_lookup)|].
  split; [rewrite NVPN_eq; lia|]. split; [exact loaded_valid|reflexivity].
Defined.

Lemma operations_return_witness : exists s', @proc_freepagetable machine machine_spin small_kernel proc_tab 4096 fuel loaded = Ret tt s'.
Proof.
  destruct (@operations_return machine machine_spin small_kernel small_kernel_ok fuel sample free_pages loaded
    loaded_spaces proc_tab 4096 (page 20) fuel_big sample_free idle_hart_mrep loaded_reach loaded_lookup) as (_ & _ & _ & _ & Hx).
  exact Hx.
Defined.

Lemma uvmcopy_correct_witness : exists ρ l own res s',
  cinv (LY := small_kernel) ρ l own grown /\ aspace ρ grown tabA 8192 /\
  @uvmcopy machine machine_spin small_kernel tabA tabB 8192 fuel grown = Ret res s'.
Proof.
  destruct grown_facts as (ρ & l & own & Hi & Hh & Ha & Hb & _).
  destruct (@uvmcopy_correct machine machine_spin small_kernel small_kernel_ok ρ l own grown tabA tabB 8192 fuel []
    fuel_big Hi Hh (not_elem_of_nil _) Ha Hb tabs_differ) as (res & s' & _ & _ & _ & E & _).
  exists ρ, l, own, res, s'. split; [exact Hi|]. split; [exact Ha|exact E].
Defined.

Lemma write_fault_correct_witness : exists ρ l own killed s',
  cinv (LY := small_kernel) ρ l own forked /\
  @write_fault machine machine_spin small_kernel tabB 8192 5000 fuel forked = Ret killed s'.
Proof.
  destruct forked_facts as (ρ & l & own & Hi & Hh & Ha & Hb & _).
  destruct (@write_fault_correct machine machine_spin small_kernel small_kernel_ok ρ l own forked tabB 8192 5000 fuel []
    ltac:(pose proof fuel_big; lia) Hi Hh (not_elem_of_nil _) (not_elem_of_nil _) Hb ltac:(lia)) as (killed & s' & _ & _ & _ & E & _).
  exists ρ, l, own, killed, s'. split; [exact Hi|exact E].
Defined.

Lemma copyout_correct_witness : exists ρ l own res s',
  cinv (LY := small_kernel) ρ l own forked /\
  @copyout machine machine_spin small_kernel tabB 4094 [1; 2; 3; 4] 4 fuel forked = Ret res s'.
Proof.
  destruct forked_facts as (ρ & l & own & Hi & Hh & Ha & Hb & _).
  destruct (@copyout_correct machine machine_spin small_kernel small_kernel_ok ρ l own forked tabB 4094 [1; 2; 3; 4] fuel []
    ltac:(pose proof fuel_big; change (Z.of_nat (length [1; 2; 3; 4]) / PGSIZE) with 0; lia)
    Hi Hh (not_elem_of_nil _) (not_elem_of_nil _) (as_root _ _ _ _ Hb) ltac:(lia)) as (res & s' & _ & _ & _ & _ & E & _).
  exists ρ, l, own, res, s'. split; [exact Hi|exact E].
Defined.

Lemma copyin_correct_witness : exists ρ l own res bs,
  cinv (LY := small_kernel) ρ l own grown /\ @copyin machine machine_spin small_kernel tabA 4094 4 fuel grown = Ret (res, bs) grown.
Proof.
  destruct grown_facts as (ρ & l & own & Hi & Hh & Ha & _).
  destruct (@copyin_correct machine machine_spin small_kernel small_kernel_ok ρ l own grown tabA 4094 4 fuel
    ltac:(pose proof fuel_big; change (4 / PGSIZE) with 0; lia) Hi (as_root _ _ _ _ Ha) ltac:(lia) ltac:(lia)) as (res & bs & E & _).
  exists ρ, l, own, res, bs. split; [exact Hi|exact E].
Defined.

Lemma copyinstr_correct_witness : exists ρ l own res dst,
  cinv (LY := small_kernel) ρ l own grown /\ @copyinstr machine machine_spin small_kernel tabA 4094 16 fuel grown = Ret (res, dst) grown.
Proof.
  destruct grown_facts as (ρ & l & own & Hi & Hh & Ha & _).
  destruct (@copyinstr_correct machine machine_spin small_kernel small_kernel_ok ρ l own grown tabA 4094 16 fuel
    ltac:(pose proof fuel_big; change (16 / PGSIZE) with 0; lia) Hi (as_root _ _ _ _ Ha) ltac:(lia) ltac:(lia)) as (res & dst & bs & E & _).
  exists ρ, l, own, res, dst. split; [exact Hi|exact E].
Defined.

Lemma uvmalloc_correct_witness : exists sz s',
  @uvmalloc machine machine_spin small_kernel tabA 0 5000 fuel sample = Ret sz s'.
Proof.
  destruct (@uvmalloc_correct machine machine_spin small_kernel small_kernel_ok sample_role free_pages (fun _ => []) sample
    tabA 0 5000 fuel [] fuel_big sample_cinv idle_hart_mrep (not_elem_of_nil _) (sample_aspace _ (or_introl eq_refl)) ltac:(lia))
    as (sz & s' & _ & _ & _ & E & _).
  exists sz, s'. exact E.
Defined.

Lemma proc_freepagetable_correct_witness : exists ρ s',
  procpt (LY := small_kernel) ρ loaded proc_tab 4096 (page 20) /\
  @proc_freepagetable machine machine_spin small_kernel proc_tab 4096 fuel loaded = Ret tt s'.
Proof.
  destruct (@reach_good machine machine_spin small_kernel small_kernel_ok fuel sample free_pages _ fuel_big sample_free
    idle_hart_mrep loaded_reach) as (ρ & l & own & [Hi Hh Hl _]). cbn [fst snd] in *.
  destruct (@proc_freepagetable_correct machine machine_spin small_kernel small_kernel_ok ρ l own loaded proc_tab 4096
    (page 20) fuel [] fuel_big Hi Hh (not_elem_of_nil _) (Hl _ _ _ loaded_lookup)) as (s' & _ & _ & _ & E & _).
  exists ρ, s'. split; [exact (Hl _ _ _ loaded_lookup)|exact E].
Defined.
