(* ===== verification/Kernel.v ===== *)
(** * The state of the kernel

    The C structures of the kernel as records, and all of its global variables
    in one record [kernel]. A pointer into one of the static tables ([proc],
    [bcache.buf], [itable.inode], [ftable.file]) is the index of the entry,
    [None] for the null pointer. The contents of a disk block, and of every
    [char] array, is the function from the offset to the byte there. *)

From S2P Require Import Prelude Riscv Spinlock Str Kalloc.

(** ** Processes: [src/kernel/proc.h] *)

(** [enum procstate] *)
Inductive procstate : Type := UNUSED | USED | SLEEPING | RUNNABLE | RUNNING | ZOMBIE.

#[global] Instance procstate_eq_dec : EqDecision procstate.
Proof. solve_decision. Defined.

(** [struct context]: the registers [swtch] saves. *)
Record context := mkContext {
  ctx_ra : Z;
  ctx_sp : Z;
  ctx_s : Z -> Z               (* s0 to s11 *)
}.

Abbreviation bytes := (Z -> Z).

(** [struct proc]; the lock is [Lproc i]. *)
Record proc := mkProc {
  p_state : procstate;
  p_chan : chan;                (* [Cnone] for the null pointer *)
  p_killed : Z;
  p_xstate : Z;
  p_pid : Z;
  p_parent : option Z;
  p_kstack : Z;
  p_sz : Z;
  p_pagetable : Z;
  p_trapframe : Z;              (* the address of the page *)
  p_context : context;
  p_ofile : Z -> option Z;
  p_cwd : option Z;
  p_name : bytes
}.

Definition set_p_state (v : procstate) (x : proc) : proc :=
  mkProc v (p_chan x) (p_killed x) (p_xstate x) (p_pid x) (p_parent x) (p_kstack x) (p_sz x) (p_pagetable x) (p_trapframe x) (p_context x) (p_ofile x) (p_cwd x) (p_name x).
Definition set_p_chan (v : chan) (x : proc) : proc :=
  mkProc (p_state x) v (p_killed x) (p_xstate x) (p_pid x) (p_parent x) (p_kstack x) (p_sz x) (p_pagetable x) (p_trapframe x) (p_context x) (p_ofile x) (p_cwd x) (p_name x).
Definition set_p_killed (v : Z) (x : proc) : proc :=
  mkProc (p_state x) (p_chan x) v (p_xstate x) (p_pid x) (p_parent x) (p_kstack x) (p_sz x) (p_pagetable x) (p_trapframe x) (p_context x) (p_ofile x) (p_cwd x) (p_name x).
Definition set_p_xstate (v : Z) (x : proc) : proc :=
  mkProc (p_state x) (p_chan x) (p_killed x) v (p_pid x) (p_parent x) (p_kstack x) (p_sz x) (p_pagetable x) (p_trapframe x) (p_context x) (p_ofile x) (p_cwd x) (p_name x).
Definition set_p_pid (v : Z) (x : proc) : proc :=
  mkProc (p_state x) (p_chan x) (p_killed x) (p_xstate x) v (p_parent x) (p_kstack x) (p_sz x) (p_pagetable x) (p_trapframe x) (p_context x) (p_ofile x) (p_cwd x) (p_name x).
Definition set_p_parent (v : option Z) (x : proc) : proc :=
  mkProc (p_state x) (p_chan x) (p_killed x) (p_xstate x) (p_pid x) v (p_kstack x) (p_sz x) (p_pagetable x) (p_trapframe x) (p_context x) (p_ofile x) (p_cwd x) (p_name x).
Definition set_p_kstack (v : Z) (x : proc) : proc :=
  mkProc (p_state x) (p_chan x) (p_killed x) (p_xstate x) (p_pid x) (p_parent x) v (p_sz x) (p_pagetable x) (p_trapframe x) (p_context x) (p_ofile x) (p_cwd x) (p_name x).
Definition set_p_sz (v : Z) (x : proc) : proc :=
  mkProc (p_state x) (p_chan x) (p_killed x) (p_xstate x) (p_pid x) (p_parent x) (p_kstack x) v (p_pagetable x) (p_trapframe x) (p_context x) (p_ofile x) (p_cwd x) (p_name x).
Definition set_p_pagetable (v : Z) (x : proc) : proc :=
  mkProc (p_state x) (p_chan x) (p_killed x) (p_xstate x) (p_pid x) (p_parent x) (p_kstack x) (p_sz x) v (p_trapframe x) (p_context x) (p_ofile x) (p_cwd x) (p_name x).
Definition set_p_trapframe (v : Z) (x : proc) : proc :=
  mkProc (p_state x) (p_chan x) (p_killed x) (p_xstate x) (p_pid x) (p_parent x) (p_kstack x) (p_sz x) (p_pagetable x) v (p_context x) (p_ofile x) (p_cwd x) (p_name x).
Definition set_p_context (v : context) (x : proc) : proc :=
  mkProc (p_state x) (p_chan x) (p_killed x) (p_xstate x) (p_pid x) (p_parent x) (p_kstack x) (p_sz x) (p_pagetable x) (p_trapframe x) v (p_ofile x) (p_cwd x) (p_name x).
Definition set_p_ofile (v : Z -> option Z) (x : proc) : proc :=
  mkProc (p_state x) (p_chan x) (p_killed x) (p_xstate x) (p_pid x) (p_parent x) (p_kstack x) (p_sz x) (p_pagetable x) (p_trapframe x) (p_context x) v (p_cwd x) (p_name x).
Definition set_p_cwd (v : option Z) (x : proc) : proc :=
  mkProc (p_state x) (p_chan x) (p_killed x) (p_xstate x) (p_pid x) (p_parent x) (p_kstack x) (p_sz x) (p_pagetable x) (p_trapframe x) (p_context x) (p_ofile x) v (p_name x).
Definition set_p_name (v : bytes) (x : proc) : proc :=
  mkProc (p_state x) (p_chan x) (p_killed x) (p_xstate x) (p_pid x) (p_parent x) (p_kstack x) (p_sz x) (p_pagetable x) (p_trapframe x) (p_context x) (p_ofile x) (p_cwd x) v.

(** ** Sleep locks, buffers and the log *)

(** [struct sleeplock] without its spin lock, which is [Lbuf i] or [Linode i]. *)
Record sleeplock := mkSleep {
  sl_locked : Z;
  sl_name : string;
  sl_pid : Z
}.

(** [struct buf] of [src/kernel/buf.h]. *)
Record buf := mkBuf {
  b_valid : Z;
  b_disk : Z;                   (* does the disk own the buffer? *)
  b_dev : Z;
  b_blockno : Z;
  b_lock : sleeplock;
  b_refcnt : Z;
  b_prev : Z;                   (* index in bcache.buf, [NBUF] for &bcache.head *)
  b_next : Z;
  b_data : bytes
}.

Definition set_b_valid (v : Z) (x : buf) : buf :=
  mkBuf v (b_disk x) (b_dev x) (b_blockno x) (b_lock x) (b_refcnt x) (b_prev x) (b_next x) (b_data x).
Definition set_b_disk (v : Z) (x : buf) : buf :=
  mkBuf (b_valid x) v (b_dev x) (b_blockno x) (b_lock x) (b_refcnt x) (b_prev x) (b_next x) (b_data x).
Definition set_b_dev (v : Z) (x : buf) : buf :=
  mkBuf (b_valid x) (b_disk x) v (b_blockno x) (b_lock x) (b_refcnt x) (b_prev x) (b_next x) (b_data x).
Definition set_b_blockno (v : Z) (x : buf) : buf :=
  mkBuf (b_valid x) (b_disk x) (b_dev x) v (b_lock x) (b_refcnt x) (b_prev x) (b_next x) (b_data x).
Definition set_b_lock (v : sleeplock) (x : buf) : buf :=
  mkBuf (b_valid x) (b_disk x) (b_dev x) (b_blockno x) v (b_refcnt x) (b_prev x) (b_next x) (b_data x).
Definition set_b_refcnt (v : Z) (x : buf) : buf :=
  mkBuf (b_valid x) (b_disk x) (b_dev x) (b_blockno x) (b_lock x) v (b_prev x) (b_next x) (b_data x).
Definition set_b_prev (v : Z) (x : buf) : buf :=
  mkBuf (b_valid x) (b_disk x) (b_dev x) (b_blockno x) (b_lock x) (b_refcnt x) v (b_next x) (b_data x).
Definition set_b_next (v : Z) (x : buf) : buf :=
  mkBuf (b_valid x) (b_disk x) (b_dev x) (b_blockno x) (b_lock x) (b_refcnt x) (b_prev x) v (b_data x).
Definition set_b_data (v : bytes) (x : buf) : buf :=
  mkBuf (b_valid x) (b_disk x) (b_dev x) (b_blockno x) (b_lock x) (b_refcnt x) (b_prev x) (b_next x) v.

(** [struct log] with its [struct logheader]. *)
Record log := mkLog {
  lg_start : Z;
  lg_size : Z;
  lg_outstanding : Z;
  lg_committing : Z;
  lg_dev : Z;
  lh_n : Z;                     (* log.lh.n *)
  lh_block : Z -> Z            (* log.lh.block *)
}.

Definition set_lg_start (v : Z) (x : log) : log :=
  mkLog v (lg_size x) (lg_outstanding x) (lg_committing x) (lg_dev x) (lh_n x) (lh_block x).
Definition set_lg_size (v : Z) (x : log) : log :=
  mkLog (lg_start x) v (lg_outstanding x) (lg_committing x) (lg_dev x) (lh_n x) (lh_block x).
Definition set_lg_outstanding (v : Z) (x : log) : log :=
  mkLog (lg_start x) (lg_size x) v (lg_committing x) (lg_dev x) (lh_n x) (lh_block x).
Definition set_lg_committing (v : Z) (x : log) : log :=
  mkLog (lg_start x) (lg_size x) (lg_outstanding x) v (lg_dev x) (lh_n x) (lh_block x).
Definition set_lg_dev (v : Z) (x : log) : log :=
  mkLog (lg_start x) (lg_size x) (lg_outstanding x) (lg_committing x) v (lh_n x) (lh_block x).
Definition set_lh_n (v : Z) (x : log) : log :=
  mkLog (lg_start x) (lg_size x) (lg_outstanding x) (lg_committing x) (lg_dev x) v (lh_block x).
Definition set_lh_block (v : Z -> Z) (x : log) : log :=
  mkLog (lg_start x) (lg_size x) (lg_outstanding x) (lg_committing x) (lg_dev x) (lh_n x) v.

(** ** The file system: [src/kernel/fs.h] and [src/kernel/file.h] *)

Definition ROOTINO : Z := 1.
Definition FSMAGIC : Z := 0x10203040.
Definition sizeof_dinode : Z := 64.
Definition IPB : Z := BSIZE / sizeof_dinode.
Definition BPB : Z := BSIZE * 8.
Definition DIRSIZ : Z := 14.
Definition sizeof_dirent : Z := 16.
Definition T_DIR : Z := 1.
Definition T_FILE : Z := 2.
Definition T_DEVICE : Z := 3.

(** [struct superblock] *)
Record superblock := mkSuper {
  sb_magic : Z;
  sb_size : Z;
  sb_nblocks : Z;
  sb_ninodes : Z;
  sb_nlog : Z;
  sb_logstart : Z;
  sb_inodestart : Z;
  sb_bmapstart : Z
}.

(** [struct inode], the copy of an inode in memory. *)
Record inode := mkInode {
  i_dev : Z;
  i_inum : Z;
  i_ref : Z;
  i_lock : sleeplock;
  i_valid : Z;
  i_type : Z;
  i_major : Z;
  i_minor : Z;
  i_nlink : Z;
  i_size : Z;
  i_addrs : Z -> Z
}.

Definition set_i_dev (v : Z) (x : inode) : inode :=
  mkInode v (i_inum x) (i_ref x) (i_lock x) (i_valid x) (i_type x) (i_major x) (i_minor x) (i_nlink x) (i_size x) (i_addrs x).
Definition set_i_inum (v : Z) (x : inode) : inode :=
  mkInode (i_dev x) v (i_ref x) (i_lock x) (i_valid x) (i_type x) (i_major x) (i_minor x) (i_nlink x) (i_size x) (i_addrs x).
Definition set_i_ref (v : Z) (x : inode) : inode :=
  mkInode (i_dev x) (i_inum x) v (i_lock x) (i_valid x) (i_type x) (i_major x) (i_minor x) (i_nlink x) (i_size x) (i_addrs x).
Definition set_i_lock (v : sleeplock) (x : inode) : inode :=
  mkInode (i_dev x) (i_inum x) (i_ref x) v (i_valid x) (i_type x) (i_major x) (i_minor x) (i_nlink x) (i_size x) (i_addrs x).
Definition set_i_valid (v : Z) (x : inode) : inode :=
  mkInode (i_dev x) (i_inum x) (i_ref x) (i_lock x) v (i_type x) (i_major x) (i_minor x) (i_nlink x) (i_size x) (i_addrs x).
Definition set_i_type (v : Z) (x : inode) : inode :=
  mkInode (i_dev x) (i_inum x) (i_ref x) (i_lock x) (i_valid x) v (i_major x) (i_minor x) (i_nlink x) (i_size x) (i_addrs x).
Definition set_i_major (v : Z) (x : inode) : inode :=
  mkInode (i_dev x) (i_inum x) (i_ref x) (i_lock x) (i_valid x) (i_type x) v (i_minor x) (i_nlink x) (i_size x) (i_addrs x).
Definition set_i_minor (v : Z) (x : inode) : inode :=
  mkInode (i_dev x) (i_inum x) (i_ref x) (i_lock x) (i_valid x) (i_type x) (i_major x) v (i_nlink x) (i_size x) (i_addrs x).
Definition set_i_nlink (v : Z) (x : inode) : inode :=
  mkInode (i_dev x) (i_inum x) (i_ref x) (i_lock x) (i_valid x) (i_type x) (i_major x) (i_minor x) v (i_size x) (i_addrs x).
Definition set_i_size (v : Z) (x : inode) : inode :=
  mkInode (i_dev x) (i_inum x) (i_ref x) (i_lock x) (i_valid x) (i_type x) (i_major x) (i_minor x) (i_nlink x) v (i_addrs x).
Definition set_i_addrs (v : Z -> Z) (x : inode) : inode :=
  mkInode (i_dev x) (i_inum x) (i_ref x) (i_lock x) (i_valid x) (i_type x) (i_major x) (i_minor x) (i_nlink x) (i_size x) v.

(** The type of an open file. *)
Inductive fdtype : Type := FD_NONE | FD_PIPE | FD_INODE | FD_DEVICE.

#[global] Instance fdtype_eq_dec : EqDecision fdtype.
Proof. solve_decision. Defined.

(** [struct file] *)
Record file := mkFile {
  f_type : fdtype;
  f_ref : Z;
  f_readable : Z;
  f_writable : Z;
  f_pipe : Z;                   (* the address of the pipe *)
  f_ip : option Z;
  f_off : Z;
  f_major : Z
}.

Definition set_f_type (v : fdtype) (x : file) : file :=
  mkFile v (f_ref x) (f_readable x) (f_writable x) (f_pipe x) (f_ip x) (f_off x) (f_major x).
Definition set_f_ref (v : Z) (x : file) : file :=
  mkFile (f_type x) v (f_readable x) (f_writable x) (f_pipe x) (f_ip x) (f_off x) (f_major x).
Definition set_f_readable (v : Z) (x : file) : file :=
  mkFile (f_type x) (f_ref x) v (f_writable x) (f_pipe x) (f_ip x) (f_off x) (f_major x).
Definition set_f_writable (v : Z) (x : file) : file :=
  mkFile (f_type x) (f_ref x) (f_readable x) v (f_pipe x) (f_ip x) (f_off x) (f_major x).
Definition set_f_pipe (v : Z) (x : file) : file :=
  mkFile (f_type x) (f_ref x) (f_readable x) (f_writable x) v (f_ip x) (f_off x) (f_major x).
Definition set_f_ip (v : option Z) (x : file) : file :=
  mkFile (f_type x) (f_ref x) (f_readable x) (f_writable x) (f_pipe x) v (f_off x) (f_major x).
Definition set_f_off (v : Z) (x : file) : file :=
  mkFile (f_type x) (f_ref x) (f_readable x) (f_writable x) (f_pipe x) (f_ip x) v (f_major x).
Definition set_f_major (v : Z) (x : file) : file :=
  mkFile (f_type x) (f_ref x) (f_readable x) (f_writable x) (f_pipe x) (f_ip x) (f_off x) v.

(** The function a pointer of [struct devsw] points to: only the console has
    device functions. *)
Inductive devfn : Type := Dev_console.

(** [struct devsw] *)
Record devsw := mkDevsw {
  dev_read : option devfn;
  dev_write : option devfn
}.

(** [struct pipe] of [src/kernel/pipe.c]; the lock is [Lpipe pi]. *)
Record pipe := mkPipe {
  pi_data : bytes;
  pi_nread : Z;
  pi_nwrite : Z;
  pi_readopen : Z;
  pi_writeopen : Z
}.

Definition set_pi_data (v : bytes) (x : pipe) : pipe :=
  mkPipe v (pi_nread x) (pi_nwrite x) (pi_readopen x) (pi_writeopen x).
Definition set_pi_nread (v : Z) (x : pipe) : pipe :=
  mkPipe (pi_data x) v (pi_nwrite x) (pi_readopen x) (pi_writeopen x).
Definition set_pi_nwrite (v : Z) (x : pipe) : pipe :=
  mkPipe (pi_data x) (pi_nread x) v (pi_readopen x) (pi_writeopen x).
Definition set_pi_readopen (v : Z) (x : pipe) : pipe :=
  mkPipe (pi_data x) (pi_nread x) (pi_nwrite x) v (pi_writeopen x).
Definition set_pi_writeopen (v : Z) (x : pipe) : pipe :=
  mkPipe (pi_data x) (pi_nread x) (pi_nwrite x) (pi_readopen x) v.

(** ** Devices *)

(** The [cons] structure of [src/kernel/console.c]. *)
Record console := mkCons {
  cons_buf : bytes;
  cons_r : Z;
  cons_w : Z;
  cons_e : Z
}.

Definition set_cons_buf (v : bytes) (x : console) : console :=
  mkCons v (cons_r x) (cons_w x) (cons_e x).
Definition set_cons_r (v : Z) (x : console) : console :=
  mkCons (cons_buf x) v (cons_w x) (cons_e x).
Definition set_cons_w (v : Z) (x : console) : console :=
  mkCons (cons_buf x) (cons_r x) v (cons_e x).
Definition set_cons_e (v : Z) (x : console) : console :=
  mkCons (cons_buf x) (cons_r x) (cons_w x) v.

(** The transmit buffer of [src/kernel/uart.c] and the UART itself: a stream of
    answers for each register that is read, and the bytes written. *)
Record uart := mkUart {
  tx_buf : bytes;               (* uart_tx_buf *)
  tx_w : Z;                     (* uart_tx_w *)
  tx_r : Z;                     (* uart_tx_r *)
  lsr_in : nat -> Z;            (* what the next reads of LSR return *)
  rhr_in : nat -> Z;            (* what the next reads of RHR return *)
  thr_out : list Z;             (* what has been written to THR *)
  uart_regs : list (Z * Z)     (* the other register writes, in order *)
}.

Definition set_tx_buf (v : bytes) (x : uart) : uart :=
  mkUart v (tx_w x) (tx_r x) (lsr_in x) (rhr_in x) (thr_out x) (uart_regs x).
Definition set_tx_w (v : Z) (x : uart) : uart :=
  mkUart (tx_buf x) v (tx_r x) (lsr_in x) (rhr_in x) (thr_out x) (uart_regs x).
Definition set_tx_r (v : Z) (x : uart) : uart :=
  mkUart (tx_buf x) (tx_w x) v (lsr_in x) (rhr_in x) (thr_out x) (uart_regs x).
Definition set_lsr_in (v : nat -> Z) (x : uart) : uart :=
  mkUart (tx_buf x) (tx_w x) (tx_r x) v (rhr_in x) (thr_out x) (uart_regs x).
Definition set_rhr_in (v : nat -> Z) (x : uart) : uart :=
  mkUart (tx_buf x) (tx_w x) (tx_r x) (lsr_in x) v (thr_out x) (uart_regs x).
Definition set_thr_out (v : list Z) (x : uart) : uart :=
  mkUart (tx_buf x) (tx_w x) (tx_r x) (lsr_in x) (rhr_in x) v (uart_regs x).
Definition set_uart_regs (v : list (Z * Z)) (x : uart) : uart :=
  mkUart (tx_buf x) (tx_w x) (tx_r x) (lsr_in x) (rhr_in x) (thr_out x) v.

(** Where the [addr] of a virtio descriptor points: into the kernel's own
    structures. *)
Inductive dma : Type :=
| DmaOps (i : Z)      (* &disk.ops[i] *)
| DmaData (b : Z)     (* bcache.buf[b].data *)
| DmaStatus (i : Z)   (* &disk.info[i].status *)
| DmaNull.

(** [struct virtq_desc] *)
Record vdesc := mkDesc {
  d_addr : dma;
  d_len : Z;
  d_flags : Z;
  d_next : Z
}.

Definition set_d_addr (v : dma) (x : vdesc) : vdesc :=
  mkDesc v (d_len x) (d_flags x) (d_next x).
Definition set_d_len (v : Z) (x : vdesc) : vdesc :=
  mkDesc (d_addr x) v (d_flags x) (d_next x).
Definition set_d_flags (v : Z) (x : vdesc) : vdesc :=
  mkDesc (d_addr x) (d_len x) v (d_next x).
Definition set_d_next (v : Z) (x : vdesc) : vdesc :=
  mkDesc (d_addr x) (d_len x) (d_flags x) v.

(** [struct virtio_blk_req] *)
Record vreq := mkReq {
  vr_type : Z;
  vr_reserved : Z;
  vr_sector : Z
}.

(** The [disk] structure of [src/kernel/virtio_disk.c]. *)
Record vdisk := mkVdisk {
  vd_desc : Z -> vdesc;
  vd_avail_idx : Z;             (* disk.avail->idx *)
  vd_avail_ring : Z -> Z;       (* disk.avail->ring *)
  vd_used_idx : Z;              (* disk.used->idx, written by the device *)
  vd_used_ring : Z -> Z;        (* disk.used->ring[i].id *)
  vd_free : Z -> Z;             (* disk.free *)
  vd_seen : Z;                  (* disk.used_idx *)
  vd_info_b : Z -> option Z;    (* disk.info[i].b *)
  vd_info_status : Z -> Z;
  vd_ops : Z -> vreq;           (* disk.ops *)
  vd_notified : Z;              (* avail->idx when QUEUE_NOTIFY was last written *)
  vd_regs : list (Z * Z)       (* the other register writes, in order *)
}.

Definition set_vd_desc (v : Z -> vdesc) (x : vdisk) : vdisk :=
  mkVdisk v (vd_avail_idx x) (vd_avail_ring x) (vd_used_idx x) (vd_used_ring x) (vd_free x) (vd_seen x) (vd_info_b x) (vd_info_status x) (vd_ops x) (vd_notified x) (vd_regs x).
Definition set_vd_avail_idx (v : Z) (x : vdisk) : vdisk :=
  mkVdisk (vd_desc x) v (vd_avail_ring x) (vd_used_idx x) (vd_used_ring x) (vd_free x) (vd_seen x) (vd_info_b x) (vd_info_status x) (vd_ops x) (vd_notified x) (vd_regs x).
Definition set_vd_avail_ring (v : Z -> Z) (x : vdisk) : vdisk :=
  mkVdisk (vd_desc x) (vd_avail_idx x) v (vd_used_idx x) (vd_used_ring x) (vd_free x) (vd_seen x) (vd_info_b x) (vd_info_status x) (vd_ops x) (vd_notified x) (vd_regs x).
Definition set_vd_used_idx (v : Z) (x : vdisk) : vdisk :=
  mkVdisk (vd_desc x) (vd_avail_idx x) (vd_avail_ring x) v (vd_used_ring x) (vd_free x) (vd_seen x) (vd_info_b x) (vd_info_status x) (vd_ops x) (vd_notified x) (vd_regs x).
Definition set_vd_used_ring (v : Z -> Z) (x : vdisk) : vdisk :=
  mkVdisk (vd_desc x) (vd_avail_idx x) (vd_avail_ring x) (vd_used_idx x) v (vd_free x) (vd_seen x) (vd_info_b x) (vd_info_status x) (vd_ops x) (vd_notified x) (vd_regs x).
Definition set_vd_free (v : Z -> Z) (x : vdisk) : vdisk :=
  mkVdisk (vd_desc x) (vd_avail_idx x) (vd_avail_ring x) (vd_used_idx x) (vd_used_ring x) v (vd_seen x) (vd_info_b x) (vd_info_status x) (vd_ops x) (vd_notified x) (vd_regs x).
Definition set_vd_seen (v : Z) (x : vdisk) : vdisk :=
  mkVdisk (vd_desc x) (vd_avail_idx x) (vd_avail_ring x) (vd_used_idx x) (vd_used_ring x) (vd_free x) v (vd_info_b x) (vd_info_status x) (vd_ops x) (vd_notified x) (vd_regs x).
Definition set_vd_info_b (v : Z -> option Z) (x : vdisk) : vdisk :=
  mkVdisk (vd_desc x) (vd_avail_idx x) (vd_avail_ring x) (vd_used_idx x) (vd_used_ring x) (vd_free x) (vd_seen x) v (vd_info_status x) (vd_ops x) (vd_notified x) (vd_regs x).
Definition set_vd_info_status (v : Z -> Z) (x : vdisk) : vdisk :=
  mkVdisk (vd_desc x) (vd_avail_idx x) (vd_avail_ring x) (vd_used_idx x) (vd_used_ring x) (vd_free x) (vd_seen x) (vd_info_b x) v (vd_ops x) (vd_notified x) (vd_regs x).
Definition set_vd_ops (v : Z -> vreq) (x : vdisk) : vdisk :=
  mkVdisk (vd_desc x) (vd_avail_idx x) (vd_avail_ring x) (vd_used_idx x) (vd_used_ring x) (vd_free x) (vd_seen x) (vd_info_b x) (vd_info_status x) v (vd_notified x) (vd_regs x).
Definition set_vd_notified (v : Z) (x : vdisk) : vdisk :=
  mkVdisk (vd_desc x) (vd_avail_idx x) (vd_avail_ring x) (vd_used_idx x) (vd_used_ring x) (vd_free x) (vd_seen x) (vd_info_b x) (vd_info_status x) (vd_ops x) v (vd_regs x).
Definition set_vd_regs (v : list (Z * Z)) (x : vdisk) : vdisk :=
  mkVdisk (vd_desc x) (vd_avail_idx x) (vd_avail_ring x) (vd_used_idx x) (vd_used_ring x) (vd_free x) (vd_seen x) (vd_info_b x) (vd_info_status x) (vd_ops x) (vd_notified x) v.

(** ** The global variables *)

(** Everything the kernel keeps between calls. *)
Record kernel := Kernel {
  ms : mstate machine;          (* memory, kalloc.c, the hart and all spin locks *)
  cpu_proc : Z -> option Z;     (* cpus[i].proc *)
  procs : Z -> proc;            (* proc[] *)
  nextpid : Z;
  initproc : option Z;
  first : Z;                    (* the static variable of forkret() *)
  ticks : Z;
  bufs : Z -> buf;              (* bcache.buf, and bcache.head at index NBUF *)
  klog : log;
  medium : list (Z * bytes);    (* the writes the disk has done, newest first *)
  image0 : Z -> bytes;          (* the disk before them *)
  vd : vdisk;
  sb : superblock;
  inodes : Z -> inode;          (* itable.inode *)
  files : Z -> file;            (* ftable.file *)
  devs : Z -> devsw;
  pipes : Z -> pipe;            (* by address *)
  cons : console;
  ua : uart;
  panicked : Z;
  pr_locking : Z;
  trap_csr : csrfile;           (* sepc, scause, stval, stvec, satp, sip *)
  started : Z;                  (* the static variable of main() *)
  kernel_pagetable : Z;
  plic_in : nat -> Z;           (* what the next plic_claim() calls return *)
  plic_out : list (Z * Z)      (* writes to the PLIC, in order *)
}.

Definition set_ms (v : mstate machine) (x : kernel) : kernel :=
  Kernel v (cpu_proc x) (procs x) (nextpid x) (initproc x) (first x) (ticks x) (bufs x) (klog x) (medium x) (image0 x) (vd x) (sb x) (inodes x) (files x) (devs x) (pipes x) (cons x) (ua x) (panicked x) (pr_locking x) (trap_csr x) (started x) (kernel_pagetable x) (plic_in x) (plic_out x).
Definition set_cpu_proc (v : Z -> option Z) (x : kernel) : kernel :=
  Kernel (ms x) v (procs x) (nextpid x) (initproc x) (first x) (ticks x) (bufs x) (klog x) (medium x) (image0 x) (vd x) (sb x) (inodes x) (files x) (devs x) (pipes x) (cons x) (ua x) (panicked x) (pr_locking x) (trap_csr x) (started x) (kernel_pagetable x) (plic_in x) (plic_out x).
Definition set_procs (v : Z -> proc) (x : kernel) : kernel :=
  Kernel (ms x) (cpu_proc x) v (nextpid x) (initproc x) (first x) (ticks x) (bufs x) (klog x) (medium x) (image0 x) (vd x) (sb x) (inodes x) (files x) (devs x) (pipes x) (cons x) (ua x) (panicked x) (pr_locking x) (trap_csr x) (started x) (kernel_pagetable x) (plic_in x) (plic_out x).
Definition set_nextpid (v : Z) (x : kernel) : kernel :=
  Kernel (ms x) (cpu_proc x) (procs x) v (initproc x) (first x) (ticks x) (bufs x) (klog x) (medium x) (image0 x) (vd x) (sb x) (inodes x) (files x) (devs x) (pipes x) (cons x) (ua x) (panicked x) (pr_locking x) (trap_csr x) (started x) (kernel_pagetable x) (plic_in x) (plic_out x).
Definition set_initproc (v : option Z) (x : kernel) : kernel :=
  Kernel (ms x) (cpu_proc x) (procs x) (nextpid x) v (first x) (ticks x) (bufs x) (klog x) (medium x) (image0 x) (vd x) (sb x) (inodes x) (files x) (devs x) (pipes x) (cons x) (ua x) (panicked x) (pr_locking x) (trap_csr x) (started x) (kernel_pagetable x) (plic_in x) (plic_out x).
Definition set_first (v : Z) (x : kernel) : kernel :=
  Kernel (ms x) (cpu_proc x) (procs x) (nextpid x) (initproc x) v (ticks x) (bufs x) (klog x) (medium x) (image0 x) (vd x) (sb x) (inodes x) (files x) (devs x) (pipes x) (cons x) (ua x) (panicked x) (pr_locking x) (trap_csr x) (started x) (kernel_pagetable x) (plic_in x) (plic_out x).
Definition set_ticks (v : Z) (x : kernel) : kernel :=
  Kernel (ms x) (cpu_proc x) (procs x) (nextpid x) (initproc x) (first x) v (bufs x) (klog x) (medium x) (image0 x) (vd x) (sb x) (inodes x) (files x) (devs x) (pipes x) (cons x) (ua x) (panicked x) (pr_locking x) (trap_csr x) (started x) (kernel_pagetable x) (plic_in x) (plic_out x).
Definition set_bufs (v : Z -> buf) (x : kernel) : kernel :=
  Kernel (ms x) (cpu_proc x) (procs x) (nextpid x) (initproc x) (first x) (ticks x) v (klog x) (medium x) (image0 x) (vd x) (sb x) (inodes x) (files x) (devs x) (pipes x) (cons x) (ua x) (panicked x) (pr_locking x) (trap_csr x) (started x) (kernel_pagetable x) (plic_in x) (plic_out x).
Definition set_klog (v : log) (x : kernel) : kernel :=
  Kernel (ms x) (cpu_proc x) (procs x) (nextpid x) (initproc x) (first x) (ticks x) (bufs x) v (medium x) (image0 x) (vd x) (sb x) (inodes x) (files x) (devs x) (pipes x) (cons x) (ua x) (panicked x) (pr_locking x) (trap_csr x) (started x) (kernel_pagetable x) (plic_in x) (plic_out x).
Definition set_medium (v : list (Z * bytes)) (x : kernel) : kernel :=
  Kernel (ms x) (cpu_proc x) (procs x) (nextpid x) (initproc x) (first x) (ticks x) (bufs x) (klog x) v (image0 x) (vd x) (sb x) (inodes x) (files x) (devs x) (pipes x) (cons x) (ua x) (panicked x) (pr_locking x) (trap_csr x) (started x) (kernel_pagetable x) (plic_in x) (plic_out x).
Definition set_image0 (v : Z -> bytes) (x : kernel) : kernel :=
  Kernel (ms x) (cpu_proc x) (procs x) (nextpid x) (initproc x) (first x) (ticks x) (bufs x) (klog x) (medium x) v (vd x) (sb x) (inodes x) (files x) (devs x) (pipes x) (cons x) (ua x) (panicked x) (pr_locking x) (trap_csr x) (started x) (kernel_pagetable x) (plic_in x) (plic_out x).
Definition set_vd (v : vdisk) (x : kernel) : kernel :=
  Kernel (ms x) (cpu_proc x) (procs x) (nextpid x) (initproc x) (first x) (ticks x) (bufs x) (klog x) (medium x) (image0 x) v (sb x) (inodes x) (files x) (devs x) (pipes x) (cons x) (ua x) (panicked x) (pr_locking x) (trap_csr x) (started x) (kernel_pagetable x) (plic_in x) (plic_out x).
Definition set_sb (v : superblock) (x : kernel) : kernel :=
  Kernel (ms x) (cpu_proc x) (procs x) (nextpid x) (initproc x) (first x) (ticks x) (bufs x) (klog x) (medium x) (image0 x) (vd x) v (inodes x) (files x) (devs x) (pipes x) (cons x) (ua x) (panicked x) (pr_locking x) (trap_csr x) (started x) (kernel_pagetable x) (plic_in x) (plic_out x).
Definition set_inodes (v : Z -> inode) (x : kernel) : kernel :=
  Kernel (ms x) (cpu_proc x) (procs x) (nextpid x) (initproc x) (first x) (ticks x) (bufs x) (klog x) (medium x) (image0 x) (vd x) (sb x) v (files x) (devs x) (pipes x) (cons x) (ua x) (panicked x) (pr_locking x) (trap_csr x) (started x) (kernel_pagetable x) (plic_in x) (plic_out x).
Definition set_files (v : Z -> file) (x : kernel) : kernel :=
  Kernel (ms x) (cpu_proc x) (procs x) (nextpid x) (initproc x) (first x) (ticks x) (bufs x) (klog x) (medium x) (image0 x) (vd x) (sb x) (inodes x) v (devs x) (pipes x) (cons x) (ua x) (panicked x) (pr_locking x) (trap_csr x) (started x) (kernel_pagetable x) (plic_in x) (plic_out x).
Definition set_devs (v : Z -> devsw) (x : kernel) : kernel :=
  Kernel (ms x) (cpu_proc x) (procs x) (nextpid x) (initproc x) (first x) (ticks x) (bufs x) (klog x) (medium x) (image0 x) (vd x) (sb x) (inodes x) (files x) v (pipes x) (cons x) (ua x) (panicked x) (pr_locking x) (trap_csr x) (started x) (kernel_pagetable x) (plic_in x) (plic_out x).
Definition set_pipes (v : Z -> pipe) (x : kernel) : kernel :=
  Kernel (ms x) (cpu_proc x) (procs x) (nextpid x) (initproc x) (first x) (ticks x) (bufs x) (klog x) (medium x) (image0 x) (vd x) (sb x) (inodes x) (files x) (devs x) v (cons x) (ua x) (panicked x) (pr_locking x) (trap_csr x) (started x) (kernel_pagetable x) (plic_in x) (plic_out x).
Definition set_cons (v : console) (x : kernel) : kernel :=
  Kernel (ms x) (cpu_proc x) (procs x) (nextpid x) (initproc x) (first x) (ticks x) (bufs x) (klog x) (medium x) (image0 x) (vd x) (sb x) (inodes x) (files x) (devs x) (pipes x) v (ua x) (panicked x) (pr_locking x) (trap_csr x) (started x) (kernel_pagetable x) (plic_in x) (plic_out x).
Definition set_ua (v : uart) (x : kernel) : kernel :=
  Kernel (ms x) (cpu_proc x) (procs x) (nextpid x) (initproc x) (first x) (ticks x) (bufs x) (klog x) (medium x) (image0 x) (vd x) (sb x) (inodes x) (files x) (devs x) (pipes x) (cons x) v (panicked x) (pr_locking x) (trap_csr x) (started x) (kernel_pagetable x) (plic_in x) (plic_out x).
Definition set_panicked (v : Z) (x : kernel) : kernel :=
  Kernel (ms x) (cpu_proc x) (procs x) (nextpid x) (initproc x) (first x) (ticks x) (bufs x) (klog x) (medium x) (image0 x) (vd x) (sb x) (inodes x) (files x) (devs x) (pipes x) (cons x) (ua x) v (pr_locking x) (trap_csr x) (started x) (kernel_pagetable x) (plic_in x) (plic_out x).
Definition set_pr_locking (v : Z) (x : kernel) : kernel :=
  Kernel (ms x) (cpu_proc x) (procs x) (nextpid x) (initproc x) (first x) (ticks x) (bufs x) (klog x) (medium x) (image0 x) (vd x) (sb x) (inodes x) (files x) (devs x) (pipes x) (cons x) (ua x) (panicked x) v (trap_csr x) (started x) (kernel_pagetable x) (plic_in x) (plic_out x).
Definition set_trap_csr (v : csrfile) (x : kernel) : kernel :=
  Kernel (ms x) (cpu_proc x) (procs x) (nextpid x) (initproc x) (first x) (ticks x) (bufs x) (klog x) (medium x) (image0 x) (vd x) (sb x) (inodes x) (files x) (devs x) (pipes x) (cons x) (ua x) (panicked x) (pr_locking x) v (started x) (kernel_pagetable x) (plic_in x) (plic_out x).
Definition set_started (v : Z) (x : kernel) : kernel :=
  Kernel (ms x) (cpu_proc x) (procs x) (nextpid x) (initproc x) (first x) (ticks x) (bufs x) (klog x) (medium x) (image0 x) (vd x) (sb x) (inodes x) (files x) (devs x) (pipes x) (cons x) (ua x) (panicked x) (pr_locking x) (trap_csr x) v (kernel_pagetable x) (plic_in x) (plic_out x).
Definition set_kernel_pagetable (v : Z) (x : kernel) : kernel :=
  Kernel (ms x) (cpu_proc x) (procs x) (nextpid x) (initproc x) (first x) (ticks x) (bufs x) (klog x) (medium x) (image0 x) (vd x) (sb x) (inodes x) (files x) (devs x) (pipes x) (cons x) (ua x) (panicked x) (pr_locking x) (trap_csr x) (started x) v (plic_in x) (plic_out x).
Definition set_plic_in (v : nat -> Z) (x : kernel) : kernel :=
  Kernel (ms x) (cpu_proc x) (procs x) (nextpid x) (initproc x) (first x) (ticks x) (bufs x) (klog x) (medium x) (image0 x) (vd x) (sb x) (inodes x) (files x) (devs x) (pipes x) (cons x) (ua x) (panicked x) (pr_locking x) (trap_csr x) (started x) (kernel_pagetable x) v (plic_out x).
Definition set_plic_out (v : list (Z * Z)) (x : kernel) : kernel :=
  Kernel (ms x) (cpu_proc x) (procs x) (nextpid x) (initproc x) (first x) (ticks x) (bufs x) (klog x) (medium x) (image0 x) (vd x) (sb x) (inodes x) (files x) (devs x) (pipes x) (cons x) (ua x) (panicked x) (pr_locking x) (trap_csr x) (started x) (kernel_pagetable x) (plic_in x) v.


(** ** Access to the parts *)

#[global] Program Instance kernel_ms : Lens kernel (mstate machine) :=
  {| lget := ms; lset := set_ms |}.
Next Obligation. done. Qed.
Next Obligation. by intros []. Qed.
Next Obligation. done. Qed.

#[global] Program Instance kernel_hart : Lens kernel machine :=
  {| lget s := hart (ms s); lset h s := set_ms (set_hart h (ms s)) s |}.
Next Obligation. done. Qed.
Next Obligation. by intros [[]]. Qed.
Next Obligation. done. Qed.

#[global] Program Instance kernel_csr : Lens kernel csrfile :=
  {| lget := trap_csr; lset := set_trap_csr |}.
Next Obligation. done. Qed.
Next Obligation. by intros []. Qed.
Next Obligation. done. Qed.

Abbreviation K := (M kernel).

Definition upd_proc (i : Z) (f : proc -> proc) (s : kernel) : kernel :=
  set_procs (<[i := f (procs s i)]> (procs s)) s.
Definition upd_buf (i : Z) (f : buf -> buf) (s : kernel) : kernel :=
  set_bufs (<[i := f (bufs s i)]> (bufs s)) s.
Definition upd_inode (i : Z) (f : inode -> inode) (s : kernel) : kernel :=
  set_inodes (<[i := f (inodes s i)]> (inodes s)) s.
Definition upd_file (i : Z) (f : file -> file) (s : kernel) : kernel :=
  set_files (<[i := f (files s i)]> (files s)) s.
Definition upd_pipe (i : Z) (f : pipe -> pipe) (s : kernel) : kernel :=
  set_pipes (<[i := f (pipes s i)]> (pipes s)) s.

(** [proc[i].f], [proc[i].f = v] and likewise for the other tables. *)
Definition pget {A} (i : Z) (f : proc -> A) : K A := gets (fun s => f (procs s i)).
Definition pset (i : Z) (f : proc -> proc) : K unit := modify (upd_proc i f).
Definition bget_ {A} (i : Z) (f : buf -> A) : K A := gets (fun s => f (bufs s i)).
Definition bset (i : Z) (f : buf -> buf) : K unit := modify (upd_buf i f).
Definition iget_ {A} (i : Z) (f : inode -> A) : K A := gets (fun s => f (inodes s i)).
Definition iset (i : Z) (f : inode -> inode) : K unit := modify (upd_inode i f).
Definition fget {A} (i : Z) (f : file -> A) : K A := gets (fun s => f (files s i)).
Definition fset (i : Z) (f : file -> file) : K unit := modify (upd_file i f).
Definition piget {A} (i : Z) (f : pipe -> A) : K A := gets (fun s => f (pipes s i)).
Definition piset (i : Z) (f : pipe -> pipe) : K unit := modify (upd_pipe i f).
Definition lgget {A} (f : log -> A) : K A := gets (fun s => f (klog s)).
Definition lgset (f : log -> log) : K unit := modify (fun s => set_klog (f (klog s)) s).
Definition cget {A} (f : console -> A) : K A := gets (fun s => f (cons s)).
Definition cset (f : console -> console) : K unit := modify (fun s => set_cons (f (cons s)) s).
Definition uget {A} (f : uart -> A) : K A := gets (fun s => f (ua s)).
Definition uset (f : uart -> uart) : K unit := modify (fun s => set_ua (f (ua s)) s).
Definition vget {A} (f : vdisk -> A) : K A := gets (fun s => f (vd s)).
Definition vset (f : vdisk -> vdisk) : K unit := modify (fun s => set_vd (f (vd s)) s).

(** Spin locks in the kernel's state. *)
Definition lock (lk : lockid) : K unit := lift (acquire lk : M machine unit).
Definition unlock (lk : lockid) : K unit := lift (release lk : M machine unit).

(** Memory, and the fields of a trapframe in it. *)
Definition kmem_get {A} (f : memory -> A) : K A := gets (fun s => f (mem (ms s))).
Definition kmem_set (f : memory -> memory) : K unit := modify (fun s => set_ms (set_mem (f (mem (ms s))) (ms s)) s).
Definition tf_get (tf off : Z) : K Z := kmem_get (fun m => load64 m (tf + off)).
Definition tf_set (tf off v : Z) : K unit := kmem_set (fun m => store64 m (tf + off) v).

(** The disk block [b]: the newest write to it. *)
Fixpoint find_write (w : list (Z * bytes)) (b : Z) : option bytes :=
  match w with
  | [] => None
  | (b', d) :: w' => if b' =? b then Some d else find_write w' b
  end.
Definition image (s : kernel) (b : Z) : bytes :=
  match find_write (medium s) b with Some d => d | None => image0 s b end.
