(* ===== verification/Proc.v ===== *)
(** * Processes: the code of [src/kernel/proc.c]

    All of it but [userinit], [fork], [exit] and [forkret], which call the
    file system and are in [ProcLife.v], and [procdump], which prints and is in
    [Console.v]. *)

From S2P Require Import Prelude Riscv Spinlock Str Kalloc Vm ProcVm Kernel.

(** Offsets in [struct trapframe]. *)
Definition TF_kernel_satp : Z := 0.
Definition TF_kernel_sp : Z := 8.
Definition TF_kernel_trap : Z := 16.
Definition TF_epc : Z := 24.
Definition TF_kernel_hartid : Z := 32.
Definition TF_sp : Z := 48.
Definition TF_a0 : Z := 112.
Definition TF_a1 : Z := 120.
Definition TF_a2 : Z := 128.
Definition TF_a3 : Z := 136.
Definition TF_a4 : Z := 144.
Definition TF_a5 : Z := 152.
Definition TF_a7 : Z := 168.
Definition sizeof_trapframe : Z := 288.

(** Where [either_copyout] copies to: a user address, a physical address, or
    a local variable of the caller, which then uses the bytes returned. *)
Inductive kdst : Type :=
| Duser (va : Z)
| Dphys (pa : Z)
| Dlocal.

(** Where [either_copyin] copies from: a user address or bytes of the kernel. *)
Inductive ksrc : Type :=
| Suser (va : Z)
| Skernel (bs : list Z).

(** Using a null pointer is a page fault in the kernel, on which
    [kerneltrap] panics. *)
Definition deref (p : option Z) : K Z :=
  match p with Some i => mret i | None => panic "kerneltrap" end.

Section code.
Context {LY : Layout}.

Definition proc_mapstacks (kpgtbl : Z) : M (mstate machine) unit :=
  for_ (Z.to_nat NPROC) 0 (fun p =>
    pa ← kalloc;
    if pa =? 0 then panic "kalloc" else
    let va := KSTACK p in
    kvmmap kpgtbl va pa PGSIZE (Z.lor PTE_R PTE_W);;
    mret (Next tt : ctl unit unit));;
  mret tt.

Definition procinit : K unit :=
  lift (initlock Lpid "nextpid");;
  lift (initlock Lwait "wait_lock");;
  for_ (Z.to_nat NPROC) 0 (fun p =>
    lift (initlock (Lproc p) "proc");;
    pset p (set_p_kstack (KSTACK p));;
    mret (Next tt : ctl unit unit));;
  mret tt.

Definition myproc : K (option Z) :=
  lift push_off;;
  c ← lift cpuid;
  p ← gets (fun s => cpu_proc s c);
  lift pop_off;;
  mret p.

Definition allocpid : K Z :=
  lock Lpid;;
  pid ← gets nextpid;
  modify (set_nextpid (s32 (pid + 1)));;
  unlock Lpid;;
  mret pid.

Definition freeproc (p : Z) : K unit :=
  tf ← pget p p_trapframe;
  when (negb (tf =? 0)) (lift (kfree tf : M (mstate machine) unit));;
  pset p (set_p_trapframe 0);;
  pt ← pget p p_pagetable;
  sz ← pget p p_sz;
  when (negb (pt =? 0)) (lift (proc_freepagetable pt sz : M (mstate machine) unit));;
  pset p (set_p_pagetable 0);;
  pset p (set_p_sz 0);;
  pset p (set_p_pid 0);;
  pset p (set_p_parent None);;
  pset p (fun x => set_p_name (<[0 := 0]> (p_name x)) x);;
  pset p (set_p_chan Cnone);;
  pset p (set_p_killed 0);;
  pset p (set_p_xstate 0);;
  pset p (set_p_state UNUSED).

Definition allocproc : K (option Z) :=
  found ← for_ (Z.to_nat NPROC) 0 (fun p =>
    lock (Lproc p);;
    st ← pget p p_state;
    if decide (st = UNUSED) then mret (Done p) else
    unlock (Lproc p);;
    mret (Next tt));
  match found with
  | None => mret None
  | Some p =>
      pid ← allocpid;
      pset p (set_p_pid pid);;
      pset p (set_p_state USED);;
      tf ← lift (kalloc : M (mstate machine) Z);
      pset p (set_p_trapframe tf);;
      if tf =? 0 then
        freeproc p;;
        unlock (Lproc p);;
        mret None
      else
      pt ← lift (proc_pagetable tf : M (mstate machine) Z);
      pset p (set_p_pagetable pt);;
      if pt =? 0 then
        freeproc p;;
        unlock (Lproc p);;
        mret None
      else
      kstack ← pget p p_kstack;
      pset p (set_p_context (mkContext forkret_addr (u64 (kstack + PGSIZE)) (fun _ => 0)));;
      mret (Some p)
  end.

(** [uint sz]: the size is cut to 32 bits. *)
Definition growproc (n : Z) : K Z :=
  p ← myproc;
  p ← deref p;
  sz ← pget p p_sz;
  let sz := u32 sz in
  pt ← pget p p_pagetable;
  if 0 <? n then
    r ← lift (uvmalloc pt sz (u32 (sz + n)) : M (mstate machine) Z);
    let sz := u32 r in
    if sz =? 0 then mret (-1) else
    pset p (set_p_sz sz);;
    mret 0
  else if n <? 0 then
    r ← lift (uvmdealloc pt sz (u32 (sz + n)) : M (mstate machine) Z);
    pset p (set_p_sz (u32 r));;
    mret 0
  else
    pset p (set_p_sz sz);;
    mret 0.

(** ** Switching and sleeping *)

(** [swtch(&p->context, &mycpu()->context)]: the process leaves the CPU and
    goes on in the state it is scheduled again in. *)
Definition swtch (ch : chan) : K unit := fun _ s => Sleep ch s (fun s' => Ret tt s').

Definition sched : K unit :=
  p ← myproc;
  p ← deref p;
  h ← lift (holding (Lproc p));
  if negb h then panic "sched p->lock" else
  c ← lift mycpu;
  if negb (noff c =? 1) then panic "sched locks" else
  st ← pget p p_state;
  if decide (st = RUNNING) then panic "sched running" else
  i ← lift intr_get;
  if (i : bool) then panic "sched interruptible" else
  c ← lift mycpu;
  ch ← pget p p_chan;
  swtch ch;;
  lift (c' ← mycpu; modify (set_cpu (mkCpu (noff c') (intena c)))).

Definition yield : K unit :=
  p ← myproc;
  p ← deref p;
  lock (Lproc p);;
  pset p (set_p_state RUNNABLE);;
  sched;;
  unlock (Lproc p).

(** Statements in sequence. *)
Fixpoint seqs (l : list (K unit)) : K unit :=
  match l with
  | [] => mret tt
  | m :: l' => m;; seqs l'
  end.

(** The statements of [sleep] in process [p]; other harts run between any two
    of them. *)
Definition sleep_steps (p : Z) (ch : chan) (lk : lockid) : list (K unit) :=
  [lock (Lproc p);
   unlock lk;
   pset p (set_p_chan ch);
   pset p (set_p_state SLEEPING);
   sched;
   pset p (set_p_chan Cnone);
   unlock (Lproc p);
   lock lk].

Definition sleep (ch : chan) (lk : lockid) : K unit :=
  p ← myproc;
  p ← deref p;
  seqs (sleep_steps p ch lk).

Definition wake (ch : chan) (p : Z) : K unit :=
  st ← pget p p_state;
  pch ← pget p p_chan;
  when (bool_decide (st = SLEEPING) && bool_decide (pch = ch)) (pset p (set_p_state RUNNABLE)).

(** The loop body of [wakeup] by process [me] for process [p], by statements. *)
Definition wake_steps (ch : chan) (me : option Z) (p : Z) : list (K unit) :=
  if decide (me = Some p) then [mret tt] else [lock (Lproc p); wake ch p; unlock (Lproc p)].

Definition wakeup (ch : chan) : K unit :=
  for_ (Z.to_nat NPROC) 0 (fun p =>
    me ← myproc;
    seqs (wake_steps ch me p);;
    mret (Next tt : ctl unit unit));;
  mret tt.

Definition kill (pid : Z) : K Z :=
  r ← for_ (Z.to_nat NPROC) 0 (fun p =>
    lock (Lproc p);;
    id ← pget p p_pid;
    if id =? pid then
      pset p (set_p_killed 1);;
      st ← pget p p_state;
      when (bool_decide (st = SLEEPING)) (pset p (set_p_state RUNNABLE));;
      unlock (Lproc p);;
      mret (Done 0)
    else
    unlock (Lproc p);;
    mret (Next tt));
  mret (match r with Some v => v | None => -1 end).

(** One round of the [for(;;)] of [scheduler]; [run p] is what happens
    between the [swtch] to process [p] and the [swtch] back. *)
Definition scheduler_round (run : Z -> K unit) : K unit :=
  c ← lift cpuid;
  lift intr_on;;
  for_ (Z.to_nat NPROC) 0 (fun p =>
    lock (Lproc p);;
    st ← pget p p_state;
    when (bool_decide (st = RUNNABLE))
      (pset p (set_p_state RUNNING);;
       modify (fun s => set_cpu_proc (<[c := Some p]> (cpu_proc s)) s);;
       run p;;
       modify (fun s => set_cpu_proc (<[c := None]> (cpu_proc s)) s));;
    unlock (Lproc p);;
    mret (Next tt : ctl unit unit));;
  mret tt.

Definition scheduler (run : Z -> K unit) : K unit :=
  c ← lift cpuid;
  modify (fun s => set_cpu_proc (<[c := None]> (cpu_proc s)) s);;
  loop (fun _ : unit => scheduler_round run;; mret (Next tt : ctl unit unit)) tt.

(** ** Waiting for children *)

(** Caller holds [wait_lock]. *)
Definition reparent (p : Z) : K unit :=
  for_ (Z.to_nat NPROC) 0 (fun pp =>
    par ← pget pp p_parent;
    when (bool_decide (par = Some p))
      (ip ← gets initproc;
       pset pp (set_p_parent ip);;
       match ip with Some i => wakeup (Cproc i) | None => wakeup Cnone end);;
    mret (Next tt : ctl unit unit));;
  mret tt.

(** The four bytes of an [int]. *)
Definition int_bytes (v : Z) : list Z := rd_bytes (st 4 (fun _ => 0) 0 v) 0 4.

(** The scan of [wait] for an exited child: [Done r] when [wait] returns [r],
    otherwise whether there are children. *)
Definition wait_scan (p addr : Z) : K (ctl bool Z) :=
  forl (Z.to_nat NPROC) 0 false (fun np havekids =>
    par ← pget np p_parent;
    if negb (bool_decide (par = Some p)) then mret (Next havekids) else
    lock (Lproc np);;
    st ← pget np p_state;
    if decide (st = ZOMBIE) then
      pid ← pget np p_pid;
      xst ← pget np p_xstate;
      pt ← pget p p_pagetable;
      r ← (if negb (addr =? 0) then lift (copyout pt addr (int_bytes xst) 4 : M (mstate machine) Z) else mret 0);
      if r <? 0 then
        unlock (Lproc np);;
        unlock Lwait;;
        mret (Done (-1))
      else
      freeproc np;;
      unlock (Lproc np);;
      unlock Lwait;;
      mret (Done pid)
    else
    unlock (Lproc np);;
    mret (Next true)).

Definition wait (addr : Z) : K Z :=
  p ← myproc;
  p ← deref p;
  lock Lwait;;
  loop (fun _ : unit =>
    r ← wait_scan p addr;
    match r with
    | Done v => mret (Done v)
    | Next havekids =>
        k ← pget p p_killed;
        if negb havekids || negb (k =? 0) then
          unlock Lwait;;
          mret (Done (-1))
        else
        sleep (Cproc p) Lwait;;
        mret (Next tt)
    end) tt.

(** ** Copies to and from either kind of address *)

Definition either_copyout (dst : kdst) (src : list Z) (len : Z) : K Z :=
  p ← myproc;
  match dst with
  | Duser va =>
      p ← deref p;
      pt ← pget p p_pagetable;
      lift (copyout pt va src len : M (mstate machine) Z)
  | Dphys pa =>
      kmem_set (fun m => wr_bytes m pa (take (Z.to_nat len) src));;
      mret 0
  | Dlocal => mret 0
  end.

(** The result with the bytes copied. *)
Definition either_copyin (src : ksrc) (len : Z) : K (Z * list Z) :=
  p ← myproc;
  match src with
  | Suser va =>
      p ← deref p;
      pt ← pget p p_pagetable;
      lift (copyin pt va len : M (mstate machine) (Z * list Z))
  | Skernel bs => mret (0, take (Z.to_nat len) bs)
  end.

End code.
