(* ===== verification/Sleeplock.v ===== *)
(** * Sleep locks: [src/kernel/sleeplock.c] *)

From S2P Require Import Prelude Riscv Spinlock Str Kalloc Kernel Proc.

(** The sleep locks of the kernel: one in each buffer and in each inode. *)
Inductive slref : Type :=
| SLbuf (i : Z)
| SLinode (i : Z).

#[global] Instance slref_eq_dec : EqDecision slref.
Proof. solve_decision. Defined.

(** [&lk->lk] *)
Definition sl_spin (lk : slref) : lockid :=
  match lk with SLbuf i => Lbuf i | SLinode i => Linode i end.

(** [lk] as the channel passed to [sleep] and [wakeup]. *)
Definition sl_chan (lk : slref) : chan :=
  match lk with SLbuf i => Cbuflock i | SLinode i => Cinode i end.

Definition sl_get (lk : slref) (s : kernel) : sleeplock :=
  match lk with SLbuf i => b_lock (bufs s i) | SLinode i => i_lock (inodes s i) end.

Definition sl_set (lk : slref) (v : sleeplock) (s : kernel) : kernel :=
  match lk with
  | SLbuf i => upd_buf i (set_b_lock v) s
  | SLinode i => upd_inode i (set_i_lock v) s
  end.

Definition initsleeplock (lk : slref) (name : string) : K unit :=
  lift (initlock (sl_spin lk) "sleep lock");;
  modify (sl_set lk (mkSleep 0 name 0)).

Definition acquiresleep (lk : slref) : K unit :=
  lock (sl_spin lk);;
  loop (fun _ : unit =>
    l ← gets (sl_get lk);
    if sl_locked l =? 0 then mret (Done tt) else
    sleep (sl_chan lk) (sl_spin lk);;
    mret (Next tt)) tt;;
  p ← myproc;
  p ← deref p;
  pid ← pget p p_pid;
  modify (fun s => sl_set lk (mkSleep 1 (sl_name (sl_get lk s)) pid) s);;
  unlock (sl_spin lk).

Definition releasesleep (lk : slref) : K unit :=
  lock (sl_spin lk);;
  modify (fun s => sl_set lk (mkSleep 0 (sl_name (sl_get lk s)) 0) s);;
  wakeup (sl_chan lk);;
  unlock (sl_spin lk).

Definition holdingsleep (lk : slref) : K bool :=
  lock (sl_spin lk);;
  l ← gets (sl_get lk);
  r ← (if sl_locked l =? 0 then mret false else
       p ← myproc;
       p ← deref p;
       pid ← pget p p_pid;
       mret (sl_pid l =? pid));
  unlock (sl_spin lk);;
  mret r.
