(* ===== verification/Virtio.v ===== *)
(** * The virtio disk driver: [src/kernel/virtio_disk.c]

    The descriptors, rings and book-keeping of the driver. The device is not
    part of the kernel: it reads the descriptors the driver publishes and
    answers through the used ring, while the process that asked sleeps. *)

From S2P Require Import Prelude Riscv Spinlock Str Kalloc Kernel Proc.

(** ** [src/kernel/virtio.h] *)

Definition NUM : Z := 8.
Definition VIRTIO_MMIO_MAGIC_VALUE : Z := 0x000.
Definition VIRTIO_MMIO_VERSION : Z := 0x004.
Definition VIRTIO_MMIO_DEVICE_ID : Z := 0x008.
Definition VIRTIO_MMIO_VENDOR_ID : Z := 0x00c.
Definition VIRTIO_MMIO_DEVICE_FEATURES : Z := 0x010.
Definition VIRTIO_MMIO_DRIVER_FEATURES : Z := 0x020.
Definition VIRTIO_MMIO_GUEST_PAGE_SIZE : Z := 0x028.
Definition VIRTIO_MMIO_QUEUE_SEL : Z := 0x030.
Definition VIRTIO_MMIO_QUEUE_NUM_MAX : Z := 0x034.
Definition VIRTIO_MMIO_QUEUE_NUM : Z := 0x038.
Definition VIRTIO_MMIO_QUEUE_PFN : Z := 0x040.
Definition VIRTIO_MMIO_QUEUE_NOTIFY : Z := 0x050.
Definition VIRTIO_MMIO_INTERRUPT_STATUS : Z := 0x060.
Definition VIRTIO_MMIO_INTERRUPT_ACK : Z := 0x064.
Definition VIRTIO_MMIO_STATUS : Z := 0x070.
Definition VIRTIO_CONFIG_S_ACKNOWLEDGE : Z := 1.
Definition VIRTIO_CONFIG_S_DRIVER : Z := 2.
Definition VIRTIO_CONFIG_S_DRIVER_OK : Z := 4.
Definition VIRTIO_CONFIG_S_FEATURES_OK : Z := 8.
Definition VIRTIO_BLK_F_RO : Z := 5.
Definition VIRTIO_BLK_F_SCSI : Z := 7.
Definition VIRTIO_BLK_F_CONFIG_WCE : Z := 11.
Definition VIRTIO_BLK_F_MQ : Z := 12.
Definition VIRTIO_F_ANY_LAYOUT : Z := 27.
Definition VIRTIO_RING_F_INDIRECT_DESC : Z := 28.
Definition VIRTIO_RING_F_EVENT_IDX : Z := 29.
Definition VRING_DESC_F_NEXT : Z := 1.
Definition VRING_DESC_F_WRITE : Z := 2.
Definition VIRTIO_BLK_T_IN : Z := 0.
Definition VIRTIO_BLK_T_OUT : Z := 1.

(** ** Code *)

(** [*R(r) = v], recorded in order. *)
Definition mmio_write (r v : Z) : K unit := vset (fun d => set_vd_regs (vd_regs d ++ [(r, v)]) d).

(** [*R(VIRTIO_MMIO_QUEUE_NOTIFY) = v]: a register write on which the device
    looks at the available ring of queue [v]; of that of queue 0, [vd_notified]
    records how far it was filled. *)
Definition queue_notify (v : Z) : K unit :=
  vset (fun d => set_vd_notified (if v =? 0 then vd_avail_idx d else vd_notified d) (set_vd_regs (vd_regs d ++ [(VIRTIO_MMIO_QUEUE_NOTIFY, v)]) d)).

(** [mmio] is what reads of the registers return, [pages] the address of
    [disk.pages]. *)
Definition virtio_disk_init (mmio : Z -> Z) (pages : Z) : K unit :=
  lift (initlock Lvdisk "virtio_disk");;
  if negb (mmio VIRTIO_MMIO_MAGIC_VALUE =? 0x74726976) || negb (mmio VIRTIO_MMIO_VERSION =? 1) ||
     negb (mmio VIRTIO_MMIO_DEVICE_ID =? 2) || negb (mmio VIRTIO_MMIO_VENDOR_ID =? 0x554d4551)
  then panic "could not find virtio disk" else
  let status := Z.lor 0 VIRTIO_CONFIG_S_ACKNOWLEDGE in
  mmio_write VIRTIO_MMIO_STATUS status;;
  let status := Z.lor status VIRTIO_CONFIG_S_DRIVER in
  mmio_write VIRTIO_MMIO_STATUS status;;
  let off f x := Z.land x (Z.lnot (Z.shiftl 1 f)) in
  let features :=
    off VIRTIO_RING_F_INDIRECT_DESC (off VIRTIO_RING_F_EVENT_IDX (off VIRTIO_F_ANY_LAYOUT (off VIRTIO_BLK_F_MQ
      (off VIRTIO_BLK_F_CONFIG_WCE (off VIRTIO_BLK_F_SCSI (off VIRTIO_BLK_F_RO (mmio VIRTIO_MMIO_DEVICE_FEATURES))))))) in
  mmio_write VIRTIO_MMIO_DRIVER_FEATURES (u32 features);;
  let status := Z.lor status VIRTIO_CONFIG_S_FEATURES_OK in
  mmio_write VIRTIO_MMIO_STATUS status;;
  let status := Z.lor status VIRTIO_CONFIG_S_DRIVER_OK in
  mmio_write VIRTIO_MMIO_STATUS status;;
  mmio_write VIRTIO_MMIO_GUEST_PAGE_SIZE PGSIZE;;
  mmio_write VIRTIO_MMIO_QUEUE_SEL 0;;
  let max := mmio VIRTIO_MMIO_QUEUE_NUM_MAX in
  if max =? 0 then panic "virtio disk has no queue 0" else
  if max <? NUM then panic "virtio disk max queue too short" else
  mmio_write VIRTIO_MMIO_QUEUE_NUM NUM;;
  vset (fun d => mkVdisk (fun _ => mkDesc DmaNull 0 0 0) 0 (fun _ => 0) 0 (fun _ => 0)
    (vd_free d) (vd_seen d) (vd_info_b d) (vd_info_status d) (vd_ops d) (vd_notified d) (vd_regs d));;
  mmio_write VIRTIO_MMIO_QUEUE_PFN (u32 (Z.shiftr pages PGSHIFT));;
  for_ (Z.to_nat NUM) 0 (fun i =>
    vset (fun d => set_vd_free (<[i := 1]> (vd_free d)) d);;
    mret (Next tt : ctl unit unit));;
  mret tt.

Definition alloc_desc : K Z :=
  r ← for_ (Z.to_nat NUM) 0 (fun i =>
    f ← vget (fun d => vd_free d i);
    if f =? 0 then mret (Next tt) else
    vset (fun d => set_vd_free (<[i := 0]> (vd_free d)) d);;
    mret (Done i));
  mret (match r with Some i => i | None => -1 end).

Definition set_desc (i : Z) (v : vdesc) : K unit := vset (fun d => set_vd_desc (<[i := v]> (vd_desc d)) d).

Definition free_desc (i : Z) : K unit :=
  if NUM <=? i then panic "free_desc 1" else
  f ← vget (fun d => vd_free d i);
  if negb (f =? 0) then panic "free_desc 2" else
  set_desc i (mkDesc DmaNull 0 0 0);;
  vset (fun d => set_vd_free (<[i := 1]> (vd_free d)) d);;
  wakeup Cdiskfree.

Definition free_chain (i : Z) : K unit :=
  loop (fun i =>
    flag ← vget (fun d => d_flags (vd_desc d i));
    nxt ← vget (fun d => d_next (vd_desc d i));
    free_desc i;;
    if has flag VRING_DESC_F_NEXT then mret (Next nxt) else mret (Done tt)) i.

(** [Some (idx[0], idx[1], idx[2])] when it returns 0. *)
Definition alloc3_desc : K (option (Z * Z * Z)) :=
  i0 ← alloc_desc;
  if i0 <? 0 then mret None else
  i1 ← alloc_desc;
  if i1 <? 0 then free_desc i0;; mret None else
  i2 ← alloc_desc;
  if i2 <? 0 then free_desc i0;; free_desc i1;; mret None else
  mret (Some (i0, i1, i2)).

Definition virtio_disk_rw (b : Z) (write : bool) : K unit :=
  bno ← bget_ b b_blockno;
  let sector := u32 (bno * (BSIZE / 512)) in
  lock Lvdisk;;
  '(i0, i1, i2) ← loop (fun _ : unit =>
    r ← alloc3_desc;
    match r with
    | Some idx => mret (Done idx)
    | None => sleep Cdiskfree Lvdisk;; mret (Next tt)
    end) tt;
  vset (fun d => set_vd_ops (<[i0 := mkReq (if write then VIRTIO_BLK_T_OUT else VIRTIO_BLK_T_IN) 0 sector]> (vd_ops d)) d);;
  set_desc i0 (mkDesc (DmaOps i0) 16 VRING_DESC_F_NEXT i1);;
  set_desc i1 (mkDesc (DmaData b) BSIZE (Z.lor (if write then 0 else VRING_DESC_F_WRITE) VRING_DESC_F_NEXT) i2);;
  vset (fun d => set_vd_info_status (<[i0 := 0xff]> (vd_info_status d)) d);;
  set_desc i2 (mkDesc (DmaStatus i0) 1 VRING_DESC_F_WRITE 0);;
  bset b (set_b_disk 1);;
  vset (fun d => set_vd_info_b (<[i0 := Some b]> (vd_info_b d)) d);;
  vset (fun d => set_vd_avail_ring (<[vd_avail_idx d mod NUM := i0]> (vd_avail_ring d)) d);;
  vset (fun d => set_vd_avail_idx (u16 (vd_avail_idx d + 1)) d);;
  queue_notify 0;;
  loop (fun _ : unit =>
    dk ← bget_ b b_disk;
    if negb (dk =? 1) then mret (Done tt) else
    sleep (Cbuf b) Lvdisk;;
    mret (Next tt)) tt;;
  vset (fun d => set_vd_info_b (<[i0 := None]> (vd_info_b d)) d);;
  free_chain i0;;
  unlock Lvdisk.

(** [isr] is what the read of INTERRUPT_STATUS returns. *)
Definition virtio_disk_intr (isr : Z) : K unit :=
  lock Lvdisk;;
  mmio_write VIRTIO_MMIO_INTERRUPT_ACK (Z.land isr 0x3);;
  loop (fun _ : unit =>
    seen ← vget vd_seen;
    used ← vget vd_used_idx;
    if seen =? used then mret (Done tt) else
    id ← vget (fun d => vd_used_ring d (seen mod NUM));
    st ← vget (fun d => vd_info_status d id);
    if negb (st =? 0) then panic "virtio_disk_intr status" else
    b ← vget (fun d => vd_info_b d id);
    b ← deref b;
    bset b (set_b_disk 0);;
    wakeup (Cbuf b);;
    vset (fun d => set_vd_seen (u16 (vd_seen d + 1)) d);;
    mret (Next tt)) tt;;
  unlock Lvdisk.
