(* ===== verification/Bio.v ===== *)
(** * The buffer cache: the code of [src/kernel/bio.c]

    The buffers are kept in a ring through [b_prev] and [b_next], whose head
    is entry [NBUF] of the table. *)

From S2P Require Import Prelude Riscv Spinlock Str Kalloc Kernel Proc Sleeplock.

(** [&bcache.head] *)
Definition HEAD : Z := NBUF.

(** The disk driver below the cache: [disk_rw b write] transfers the data of
    buffer [b] from or to its block, as [virtio_disk_rw] does. *)
Class BlockDev := disk_rw : Z -> bool -> K unit.

(** [lk->refcnt++] and [lk->refcnt--] of a [uint] *)
Definition ref_inc (b : buf) : buf := set_b_refcnt (u32 (b_refcnt b + 1)) b.
Definition ref_dec (b : buf) : buf := set_b_refcnt (u32 (b_refcnt b - 1)) b.

(** Put the unlinked buffer [b] right after the head of the ring. *)
Definition ring_push (b : Z) : K unit :=
  nxt ← bget_ HEAD b_next;
  bset b (set_b_next nxt);;
  bset b (set_b_prev HEAD);;
  bset nxt (set_b_prev b);;
  bset HEAD (set_b_next b).

Definition binit : K unit :=
  lift (initlock Lbcache "bcache");;
  bset HEAD (set_b_prev HEAD);;
  bset HEAD (set_b_next HEAD);;
  for_ (Z.to_nat NBUF) 0 (fun b =>
    nxt ← bget_ HEAD b_next;
    bset b (set_b_next nxt);;
    bset b (set_b_prev HEAD);;
    initsleeplock (SLbuf b) "buffer";;
    nxt ← bget_ HEAD b_next;
    bset nxt (set_b_prev b);;
    bset HEAD (set_b_next b);;
    mret (Next tt : ctl unit unit));;
  mret tt.

(** The loop over the ring from [b] on, through [step], to the first buffer
    that satisfies [test]. *)
Definition ring_find (step : buf -> Z) (test : buf -> bool) (b : Z) : K (option Z) :=
  loop (fun b =>
    if b =? HEAD then mret (Done None) else
    x ← bget_ b (fun x => x);
    if test x then mret (Done (Some b)) else mret (Next (step x))) b.

Definition bget (dev blockno : Z) : K Z :=
  lock Lbcache;;
  b ← bget_ HEAD b_next;
  r ← ring_find b_next (fun x => (b_dev x =? dev) && (b_blockno x =? blockno)) b;
  match r with
  | Some b =>
      bset b ref_inc;;
      unlock Lbcache;;
      acquiresleep (SLbuf b);;
      mret b
  | None =>
      b ← bget_ HEAD b_prev;
      r ← ring_find b_prev (fun x => b_refcnt x =? 0) b;
      match r with
      | Some b =>
          bset b (set_b_dev dev);;
          bset b (set_b_blockno blockno);;
          bset b (set_b_valid 0);;
          bset b (set_b_refcnt 1);;
          unlock Lbcache;;
          acquiresleep (SLbuf b);;
          mret b
      | None => panic "bget: no buffers"
      end
  end.

Definition bpin (b : Z) : K unit :=
  lock Lbcache;;
  bset b ref_inc;;
  unlock Lbcache.

Definition bunpin (b : Z) : K unit :=
  lock Lbcache;;
  bset b ref_dec;;
  unlock Lbcache.

Definition brelse (b : Z) : K unit :=
  h ← holdingsleep (SLbuf b);
  if negb h then panic "brelse" else
  releasesleep (SLbuf b);;
  lock Lbcache;;
  bset b ref_dec;;
  c ← bget_ b b_refcnt;
  when (c =? 0)
    (nxt ← bget_ b b_next;
     prv ← bget_ b b_prev;
     bset nxt (set_b_prev prv);;
     bset prv (set_b_next nxt);;
     ring_push b);;
  unlock Lbcache.

Section code.
Context {DEV : BlockDev}.

Definition bread (dev blockno : Z) : K Z :=
  b ← bget dev blockno;
  v ← bget_ b b_valid;
  when (v =? 0)
    (disk_rw b false;;
     bset b (set_b_valid 1));;
  mret b.

Definition bwrite (b : Z) : K unit :=
  h ← holdingsleep (SLbuf b);
  if negb h then panic "bwrite" else
  disk_rw b true.

End code.
