(* ===== verification/Log.v ===== *)
(** * The write-ahead log: the code of [src/kernel/log.c] *)

From S2P Require Import Prelude Riscv Spinlock Str Kalloc Kernel Proc Sleeplock Virtio Bio.

(** [lh->n] and [lh->block[i]] of a log header stored in a block, as the
    signed [int]s they are. *)
Definition hd_n (d : bytes) : Z := s32 (ld 4 d 0).
Definition hd_block (d : bytes) (i : Z) : Z := s32 (ld 4 d (4 + 4 * i)).

(** [sizeof(struct logheader)] *)
Definition sizeof_logheader : Z := 4 + 4 * LOGSIZE.

Section code.
Context {DEV : BlockDev}.

Definition install_trans (recovering : bool) : K unit :=
  loop (fun tail =>
    n ← lgget lh_n;
    if negb (tail <? n) then mret (Done tt) else
    dev ← lgget lg_dev;
    start ← lgget lg_start;
    lbuf ← bread (u32 dev) (u32 (start + tail + 1));
    blk ← lgget (fun l => lh_block l tail);
    dbuf ← bread (u32 dev) (u32 blk);
    d ← bget_ lbuf b_data;
    bset dbuf (set_b_data d);;
    bwrite dbuf;;
    when (negb recovering) (bunpin dbuf);;
    brelse lbuf;;
    brelse dbuf;;
    mret (Next (tail + 1))) 0.

Definition read_head : K unit :=
  dev ← lgget lg_dev;
  start ← lgget lg_start;
  b ← bread (u32 dev) (u32 start);
  d ← bget_ b b_data;
  lgset (set_lh_n (hd_n d));;
  loop (fun i =>
    n ← lgget lh_n;
    if negb (i <? n) then mret (Done tt) else
    lgset (fun l => set_lh_block (<[i := hd_block d i]> (lh_block l)) l);;
    mret (Next (i + 1))) 0;;
  brelse b.

Definition write_head : K unit :=
  dev ← lgget lg_dev;
  start ← lgget lg_start;
  b ← bread (u32 dev) (u32 start);
  n ← lgget lh_n;
  bset b (fun x => set_b_data (Str.st 4 (b_data x) 0 n) x);;
  loop (fun i =>
    n ← lgget lh_n;
    if negb (i <? n) then mret (Done tt) else
    blk ← lgget (fun l => lh_block l i);
    bset b (fun x => set_b_data (Str.st 4 (b_data x) (4 + 4 * i) blk) x);;
    mret (Next (i + 1))) 0;;
  bwrite b;;
  brelse b.

Definition recover_from_log : K unit :=
  read_head;;
  install_trans true;;
  lgset (set_lh_n 0);;
  write_head.

Definition initlog (dev : Z) (sb : superblock) : K unit :=
  if BSIZE <=? sizeof_logheader then panic "initlog: too big logheader" else
  lift (initlock Llog "log");;
  lgset (set_lg_start (s32 (sb_logstart sb)));;
  lgset (set_lg_size (s32 (sb_nlog sb)));;
  lgset (set_lg_dev dev);;
  recover_from_log.

Definition begin_op : K unit :=
  lock Llog;;
  loop (fun _ : unit =>
    c ← lgget lg_committing;
    if negb (c =? 0) then
      sleep Clog Llog;; mret (Next tt)
    else
    n ← lgget lh_n;
    o ← lgget lg_outstanding;
    if LOGSIZE <? n + (o + 1) * MAXOPBLOCKS then
      sleep Clog Llog;; mret (Next tt)
    else
    lgset (set_lg_outstanding (o + 1));;
    unlock Llog;;
    mret (Done tt)) tt.

Definition write_log : K unit :=
  loop (fun tail =>
    n ← lgget lh_n;
    if negb (tail <? n) then mret (Done tt) else
    dev ← lgget lg_dev;
    start ← lgget lg_start;
    to ← bread (u32 dev) (u32 (start + tail + 1));
    blk ← lgget (fun l => lh_block l tail);
    from ← bread (u32 dev) (u32 blk);
    d ← bget_ from b_data;
    bset to (set_b_data d);;
    bwrite to;;
    brelse from;;
    brelse to;;
    mret (Next (tail + 1))) 0.

Definition commit : K unit :=
  n ← lgget lh_n;
  when (0 <? n)
    (write_log;;
     write_head;;
     install_trans false;;
     lgset (set_lh_n 0);;
     write_head).

Definition end_op : K unit :=
  lock Llog;;
  o ← lgget lg_outstanding;
  lgset (set_lg_outstanding (o - 1));;
  c ← lgget lg_committing;
  if negb (c =? 0) then panic "log.committing" else
  o ← lgget lg_outstanding;
  let do_commit := o =? 0 in
  (if do_commit then lgset (set_lg_committing 1) else wakeup Clog);;
  unlock Llog;;
  when do_commit
    (commit;;
     lock Llog;;
     lgset (set_lg_committing 0);;
     wakeup Clog;;
     unlock Llog).

(** [log.lh.block[i] == b->blockno] compares an [int] with a [uint]. *)
Definition log_write (b : Z) : K unit :=
  lock Llog;;
  n ← lgget lh_n;
  size ← lgget lg_size;
  if (LOGSIZE <=? n) || (size - 1 <=? n) then panic "too big a transaction" else
  o ← lgget lg_outstanding;
  if o <? 1 then panic "log_write outside of trans" else
  bno ← bget_ b b_blockno;
  i ← loop (fun i =>
    n ← lgget lh_n;
    if negb (i <? n) then mret (Done i) else
    blk ← lgget (fun l => lh_block l i);
    if u32 blk =? bno then mret (Done i) else mret (Next (i + 1))) 0;
  lgset (fun l => set_lh_block (<[i := s32 bno]> (lh_block l)) l);;
  n ← lgget lh_n;
  when (i =? n)
    (bpin b;;
     lgset (set_lh_n (n + 1)));;
  unlock Llog.

End code.
