(* ===== verification/Fs.v ===== *)
(** * The file system: the code of [src/kernel/fs.c]

    Blocks, inodes, directories and path names. A [char *] string of the
    kernel is the list of its bytes before the terminating NUL; [name] buffers
    are functions from the offset to the byte. *)

From S2P Require Import Prelude Riscv Spinlock Str Kalloc Kernel Proc Sleeplock Bio Log.

(** ** Layout on the disk *)

Definition IBLOCK (i : Z) (sb : superblock) : Z := u32 (i / IPB + sb_inodestart sb).
Definition BBLOCK (b : Z) (sb : superblock) : Z := u32 (b / BPB + sb_bmapstart sb).

(** [struct superblock] at the start of a block *)
Definition superblock_of (d : bytes) : superblock :=
  mkSuper (ld 4 d 0) (ld 4 d 4) (ld 4 d 8) (ld 4 d 12) (ld 4 d 16) (ld 4 d 20) (ld 4 d 24) (ld 4 d 28).

(** [(struct dinode * )bp->data + inum % IPB] as an offset, and its fields. *)
Definition dinode_off (inum : Z) : Z := sizeof_dinode * (inum mod IPB).
Definition di_type (d : bytes) (o : Z) : Z := s16 (ld 2 d o).
Definition di_major (d : bytes) (o : Z) : Z := s16 (ld 2 d (o + 2)).
Definition di_minor (d : bytes) (o : Z) : Z := s16 (ld 2 d (o + 4)).
Definition di_nlink (d : bytes) (o : Z) : Z := s16 (ld 2 d (o + 6)).
Definition di_size (d : bytes) (o : Z) : Z := ld 4 d (o + 8).
Definition di_addr (d : bytes) (o i : Z) : Z := ld 4 d (o + 12 + 4 * i).

(** [memmove(dip->addrs, ip->addrs, sizeof(ip->addrs))] *)
Fixpoint put_addrs (d : bytes) (o : Z) (addrs : Z -> Z) (i : Z) (k : nat) : bytes :=
  match k with
  | O => d
  | S k' => put_addrs (Str.st 4 d (o + 12 + 4 * i) (addrs i)) o addrs (i + 1) k'
  end.

(** [struct stat] *)
Record stat := mkStat {
  st_dev : Z;
  st_ino : Z;
  st_type : Z;
  st_nlink : Z;
  st_size : Z
}.

Section code.
Context {LY : Layout} {DEV : BlockDev}.

(** ** Super block and blocks *)

Definition readsb (dev : Z) : K unit :=
  bp ← bread (u32 dev) 1;
  d ← bget_ bp b_data;
  modify (set_sb (superblock_of d));;
  brelse bp.

Definition fsinit (dev : Z) : K unit :=
  readsb dev;;
  sb ← gets sb;
  if negb (sb_magic sb =? FSMAGIC) then panic "invalid file system" else
  initlog dev sb.

Definition bzero (dev bno : Z) : K unit :=
  bp ← bread (u32 dev) (u32 bno);
  bset bp (fun x => set_b_data (memset (b_data x) 0 0 BSIZE) x);;
  log_write bp;;
  brelse bp.

Definition balloc (dev : Z) : K Z :=
  loop (fun b =>
    sb ← gets sb;
    if negb (b <? sb_size sb) then panic "balloc: out of blocks" else
    bp ← bread dev (BBLOCK b sb);
    r ← loop (fun bi =>
      if negb ((bi <? BPB) && (b + bi <? sb_size sb)) then mret (Done None) else
      let m := Z.shiftl 1 (bi mod 8) in
      d ← bget_ bp b_data;
      if Z.land (d (bi / 8)) m =? 0 then
        bset bp (fun x => set_b_data (<[bi / 8 := Z.lor (b_data x (bi / 8)) m]> (b_data x)) x);;
        log_write bp;;
        brelse bp;;
        bzero dev (b + bi);;
        mret (Done (Some (b + bi)))
      else mret (Next (bi + 1))) 0;
    match r with
    | Some a => mret (Done a)
    | None => brelse bp;; mret (Next (b + BPB))
    end) 0.

Definition bfree (dev b : Z) : K unit :=
  sb ← gets sb;
  bp ← bread (u32 dev) (BBLOCK b sb);
  let bi := b mod BPB in
  let m := Z.shiftl 1 (bi mod 8) in
  d ← bget_ bp b_data;
  if Z.land (d (bi / 8)) m =? 0 then panic "freeing free block" else
  bset bp (fun x => set_b_data (<[bi / 8 := Z.land (b_data x (bi / 8)) (Z.lnot m)]> (b_data x)) x);;
  log_write bp;;
  brelse bp.

(** ** Inodes *)

Definition iinit : K unit :=
  lift (initlock Litable "itable");;
  for_ (Z.to_nat NINODE) 0 (fun i =>
    initsleeplock (SLinode i) "inode";;
    mret (Next tt : ctl unit unit));;
  mret tt.

Definition iget (dev inum : Z) : K Z :=
  lock Litable;;
  r ← forl (Z.to_nat NINODE) 0 None (fun ip empty =>
    x ← iget_ ip (fun x => x);
    if (0 <? i_ref x) && (i_dev x =? dev) && (i_inum x =? inum) then
      iset ip (fun x => set_i_ref (i_ref x + 1) x);;
      unlock Litable;;
      mret (Done ip)
    else mret (Next (match empty with None => if i_ref x =? 0 then Some ip else None | e => e end)));
  match r with
  | Done ip => mret ip
  | Next None => panic "iget: no inodes"
  | Next (Some ip) =>
      iset ip (set_i_dev dev);;
      iset ip (set_i_inum inum);;
      iset ip (set_i_ref 1);;
      iset ip (set_i_valid 0);;
      unlock Litable;;
      mret ip
  end.

Definition ialloc (dev type : Z) : K Z :=
  loop (fun inum =>
    sb ← gets sb;
    if negb (inum <? sb_ninodes sb) then panic "ialloc: no inodes" else
    bp ← bread dev (IBLOCK inum sb);
    d ← bget_ bp b_data;
    let o := dinode_off inum in
    if di_type d o =? 0 then
      bset bp (fun x => set_b_data (memset (b_data x) o 0 sizeof_dinode) x);;
      bset bp (fun x => set_b_data (Str.st 2 (b_data x) o type) x);;
      log_write bp;;
      brelse bp;;
      ip ← iget dev inum;
      mret (Done ip)
    else
    brelse bp;;
    mret (Next (inum + 1))) 1.

Definition iupdate (ip : Z) : K unit :=
  x ← iget_ ip (fun x => x);
  sb ← gets sb;
  bp ← bread (i_dev x) (IBLOCK (i_inum x) sb);
  let o := dinode_off (i_inum x) in
  let put k f v := bset bp (fun b => set_b_data (Str.st k (b_data b) (o + f) v) b) in
  put 2%nat 0 (i_type x);;
  put 2%nat 2 (i_major x);;
  put 2%nat 4 (i_minor x);;
  put 2%nat 6 (i_nlink x);;
  put 4%nat 8 (i_size x);;
  bset bp (fun b => set_b_data (put_addrs (b_data b) o (i_addrs x) 0 (Z.to_nat (NDIRECT + 1))) b);;
  log_write bp;;
  brelse bp.

Definition idup (ip : Z) : K Z :=
  lock Litable;;
  iset ip (fun x => set_i_ref (i_ref x + 1) x);;
  unlock Litable;;
  mret ip.

Definition ilock (ip : option Z) : K unit :=
  match ip with
  | None => panic "ilock"
  | Some ip =>
      ref ← iget_ ip i_ref;
      if ref <? 1 then panic "ilock" else
      acquiresleep (SLinode ip);;
      v ← iget_ ip i_valid;
      when (v =? 0)
        (x ← iget_ ip (fun x => x);
         sb ← gets sb;
         bp ← bread (i_dev x) (IBLOCK (i_inum x) sb);
         d ← bget_ bp b_data;
         let o := dinode_off (i_inum x) in
         iset ip (set_i_type (di_type d o));;
         iset ip (set_i_major (di_major d o));;
         iset ip (set_i_minor (di_minor d o));;
         iset ip (set_i_nlink (di_nlink d o));;
         iset ip (set_i_size (di_size d o));;
         iset ip (set_i_addrs (di_addr d o));;
         brelse bp;;
         iset ip (set_i_valid 1);;
         t ← iget_ ip i_type;
         when (t =? 0) (panic "ilock: no type"))
  end.

Definition iunlock (ip : option Z) : K unit :=
  match ip with
  | None => panic "iunlock"
  | Some ip =>
      h ← holdingsleep (SLinode ip);
      if negb h then panic "iunlock" else
      ref ← iget_ ip i_ref;
      if ref <? 1 then panic "iunlock" else
      releasesleep (SLinode ip)
  end.

(** ** Inode content *)

(** Entry [bn] of the indirect block [addr], allocated if necessary. *)
Definition bmap_indirect (dev addr bn : Z) : K Z :=
  bp ← bread dev addr;
  d ← bget_ bp b_data;
  let addr := ld 4 d (4 * bn) in
  addr ← (if negb (addr =? 0) then mret addr else
          addr ← balloc dev;
          bset bp (fun x => set_b_data (Str.st 4 (b_data x) (4 * bn) addr) x);;
          log_write bp;;
          mret addr);
  brelse bp;;
  mret addr.

Definition bmap (ip bn : Z) : K Z :=
  if bn <? NDIRECT then
    addr ← iget_ ip (fun x => i_addrs x bn);
    if negb (addr =? 0) then mret addr else
    dev ← iget_ ip i_dev;
    addr ← balloc dev;
    iset ip (fun x => set_i_addrs (<[bn := addr]> (i_addrs x)) x);;
    mret addr
  else
  let bn := bn - NDIRECT in
  if bn <? NINDIRECT then
    dev ← iget_ ip i_dev;
    addr ← iget_ ip (fun x => i_addrs x NDIRECT);
    addr ← (if negb (addr =? 0) then mret addr else
            addr ← balloc dev;
            iset ip (fun x => set_i_addrs (<[NDIRECT := addr]> (i_addrs x)) x);;
            mret addr);
    bmap_indirect dev addr bn
  else panic "bmap: out of range".

Definition itrunc (ip : Z) : K unit :=
  dev ← iget_ ip i_dev;
  for_ (Z.to_nat NDIRECT) 0 (fun i =>
    a ← iget_ ip (fun x => i_addrs x i);
    when (negb (a =? 0))
      (bfree (s32 dev) a;;
       iset ip (fun x => set_i_addrs (<[i := 0]> (i_addrs x)) x));;
    mret (Next tt : ctl unit unit));;
  ind ← iget_ ip (fun x => i_addrs x NDIRECT);
  when (negb (ind =? 0))
    (bp ← bread dev ind;
     for_ (Z.to_nat NINDIRECT) 0 (fun j =>
       a ← bget_ bp (fun x => ld 4 (b_data x) (4 * j));
       when (negb (a =? 0)) (bfree (s32 dev) a);;
       mret (Next tt : ctl unit unit));;
     brelse bp;;
     bfree (s32 dev) ind;;
     iset ip (fun x => set_i_addrs (<[NDIRECT := 0]> (i_addrs x)) x));;
  iset ip (set_i_size 0);;
  iupdate ip.

Definition iput (ip : Z) : K unit :=
  lock Litable;;
  x ← iget_ ip (fun x => x);
  when ((i_ref x =? 1) && negb (i_valid x =? 0) && (i_nlink x =? 0))
    (acquiresleep (SLinode ip);;
     unlock Litable;;
     itrunc ip;;
     iset ip (set_i_type 0);;
     iupdate ip;;
     iset ip (set_i_valid 0);;
     releasesleep (SLinode ip);;
     lock Litable);;
  iset ip (fun x => set_i_ref (i_ref x - 1) x);;
  unlock Litable.

Definition iunlockput (ip : Z) : K unit :=
  iunlock (Some ip);;
  iput ip.

Definition stati (ip : Z) : K stat :=
  x ← iget_ ip (fun x => x);
  mret (mkStat (s32 (i_dev x)) (i_inum x) (i_type x) (i_nlink x) (i_size x)).

(** The pointer after [m] bytes. *)
Definition dst_add (dst : kdst) (m : Z) : kdst :=
  match dst with
  | Duser va => Duser (u64 (va + m))
  | Dphys pa => Dphys (u64 (pa + m))
  | Dlocal => Dlocal
  end.
Definition src_add (src : ksrc) (m : Z) : ksrc :=
  match src with
  | Suser va => Suser (u64 (va + m))
  | Skernel bs => Skernel (drop (Z.to_nat m) bs)
  end.

(** One round of the loop of [readi]: [m] bytes at [off], which lie in one
    block. The result with the bytes read, which are what a [Dlocal]
    destination holds afterwards. *)
Definition readi_block (ip : Z) (dst : kdst) (off m : Z) : K (Z * list Z) :=
  dev ← iget_ ip i_dev;
  addr ← bmap ip (off / BSIZE);
  bp ← bread dev addr;
  d ← bget_ bp b_data;
  let bs := rd_bytes d (off mod BSIZE) (Z.to_nat m) in
  r ← either_copyout dst bs m;
  brelse bp;;
  mret (r, bs).

Definition readi (ip : Z) (dst : kdst) (off n : Z) : K (Z * list Z) :=
  size ← iget_ ip i_size;
  if (size <? off) || (u32 (off + n) <? off) then mret (0, []) else
  let n := if size <? u32 (off + n) then u32 (size - off) else n in
  loop (fun '(tot, off, dst, acc) =>
    if negb (tot <? n) then mret (Done (s32 tot, acc)) else
    let m := Z.min (n - tot) (BSIZE - off mod BSIZE) in
    '(r, bs) ← readi_block ip dst off m;
    if r =? -1 then mret (Done (-1, acc)) else
    mret (Next (u32 (tot + m), u32 (off + m), dst_add dst m, acc ++ bs))) (0, off, dst, []).

(** One round of the loop of [writei]. *)
Definition writei_block (ip : Z) (src : ksrc) (off m : Z) : K Z :=
  dev ← iget_ ip i_dev;
  addr ← bmap ip (off / BSIZE);
  bp ← bread dev addr;
  '(r, bs) ← either_copyin src m;
  bset bp (fun x => set_b_data (wr_bytes (b_data x) (off mod BSIZE) bs) x);;
  if r =? -1 then
    brelse bp;;
    mret r
  else
    log_write bp;;
    brelse bp;;
    mret r.

Definition writei (ip : Z) (src : ksrc) (off n : Z) : K Z :=
  size ← iget_ ip i_size;
  if (size <? off) || (u32 (off + n) <? off) then mret (-1) else
  if MAXFILE * BSIZE <? u32 (off + n) then mret (-1) else
  '(tot, off) ← loop (fun '(tot, off, src) =>
    if negb (tot <? n) then mret (Done (tot, off)) else
    let m := Z.min (n - tot) (BSIZE - off mod BSIZE) in
    r ← writei_block ip src off m;
    if r =? -1 then mret (Done (tot, off)) else
    mret (Next (u32 (tot + m), u32 (off + m), src_add src m))) (0, off, src);
  size ← iget_ ip i_size;
  when (size <? off) (iset ip (set_i_size off));;
  iupdate ip;;
  mret (s32 tot).

(** ** Directories *)

Definition namecmp (s t : bytes) : Z := strncmp s t DIRSIZ.

(** The fields of a [struct dirent] read into a local variable. *)
Definition de_inum (de : list Z) : Z := ld 2 (fun i => de !!! Z.to_nat i) 0.
Definition de_name (de : list Z) : bytes := fun i => de !!! Z.to_nat (2 + i).

(** The entry with its offset. *)
Definition dirlookup (dp : Z) (name : bytes) : K (option (Z * Z)) :=
  type ← iget_ dp i_type;
  if negb (type =? T_DIR) then panic "dirlookup not DIR" else
  loop (fun off =>
    size ← iget_ dp i_size;
    if negb (off <? size) then mret (Done None) else
    '(r, de) ← readi dp Dlocal off sizeof_dirent;
    if negb (r =? sizeof_dirent) then panic "dirlookup read" else
    if de_inum de =? 0 then mret (Next (u32 (off + sizeof_dirent))) else
    if namecmp name (de_name de) =? 0 then
      dev ← iget_ dp i_dev;
      ip ← iget dev (de_inum de);
      mret (Done (Some (ip, off)))
    else mret (Next (u32 (off + sizeof_dirent)))) 0.

(** The bytes of a [struct dirent] with the given name and number. *)
Definition dirent_bytes (name : bytes) (inum : Z) : list Z :=
  rd_bytes (Str.st 2 (strncpy (fun _ => 0) 2 name DIRSIZ) 0 inum) 0 16.

Definition dirlink (dp : Z) (name : bytes) (inum : Z) : K Z :=
  r ← dirlookup dp name;
  match r with
  | Some (ip, _) => iput ip;; mret (-1)
  | None =>
      off ← loop (fun off =>
        size ← iget_ dp i_size;
        if negb (u32 off <? size) then mret (Done off) else
        '(r, de) ← readi dp Dlocal (u32 off) sizeof_dirent;
        if negb (r =? sizeof_dirent) then panic "dirlink read" else
        if de_inum de =? 0 then mret (Done off) else
        mret (Next (off + sizeof_dirent))) 0;
      r ← writei dp (Skernel (dirent_bytes name inum)) (u32 off) sizeof_dirent;
      if negb (r =? sizeof_dirent) then panic "dirlink" else
      mret 0
  end.

End code.

(** ** Paths *)

Definition slash : Z := 47.

(** [while( *path == '/') path++;] *)
Fixpoint skip_slashes (path : list Z) : list Z :=
  match path with
  | c :: path' => if c =? slash then skip_slashes path' else path
  | [] => []
  end.

(** [while( *path != '/' && *path != 0) path++;]: what is skipped and the rest. *)
Fixpoint span_elem (path : list Z) : list Z * list Z :=
  match path with
  | c :: path' => if c =? slash then ([], path) else let '(s, r) := span_elem path' in (c :: s, r)
  | [] => ([], [])
  end.

(** The rest of the path and the name buffer; [None] for a null pointer. *)
Definition skipelem (path : list Z) (name : bytes) : option (list Z * bytes) :=
  match skip_slashes path with
  | [] => None
  | path =>
      let '(s, path) := span_elem path in
      let len := Z.of_nat (length s) in
      let name := if DIRSIZ <=? len then wr_bytes name 0 (take (Z.to_nat DIRSIZ) s)
                  else <[len := 0]> (wr_bytes name 0 s) in
      Some (skip_slashes path, name)
  end.

Section paths.
Context {LY : Layout} {DEV : BlockDev}.

(** The inode, or [None] for a null pointer, with the name buffer. *)
Definition namex (path : list Z) (nameiparent : bool) (name : bytes) : K (option Z * bytes) :=
  ip ← (if bool_decide (head path = Some slash) then iget ROOTDEV ROOTINO
        else p ← myproc; p ← deref p; cwd ← pget p p_cwd; cwd ← deref cwd; idup cwd);
  loop (fun '(ip, path, name) =>
    match skipelem path name with
    | None =>
        if (nameiparent : bool) then iput ip;; mret (Done (None, name))
        else mret (Done (Some ip, name))
    | Some (path, name) =>
        ilock (Some ip);;
        type ← iget_ ip i_type;
        if negb (type =? T_DIR) then
          iunlockput ip;;
          mret (Done (None, name))
        else if nameiparent && bool_decide (path = []) then
          iunlock (Some ip);;
          mret (Done (Some ip, name))
        else
        next ← dirlookup ip name;
        match next with
        | None => iunlockput ip;; mret (Done (None, name))
        | Some (next, _) =>
            iunlockput ip;;
            mret (Next (next, path, name))
        end
    end) (ip, path, name).

Definition namei (path : list Z) : K (option Z) :=
  '(ip, _) ← namex path false (fun _ => 0);
  mret ip.

Definition nameiparent (path : list Z) : K (option Z * bytes) := namex path true (fun _ => 0).

End paths.
