(* ===== verification/Uart.v ===== *)
(** * The UART driver: [src/kernel/uart.c], but for [uartintr], which calls the
    console and is in [Console.v]. *)

From S2P Require Import Prelude Riscv Spinlock Str Kalloc Kernel Proc.

Definition THR : Z := 0.
Definition IER : Z := 1.
Definition IER_RX_ENABLE : Z := Z.shiftl 1 0.
Definition IER_TX_ENABLE : Z := Z.shiftl 1 1.
Definition FCR : Z := 2.
Definition FCR_FIFO_ENABLE : Z := Z.shiftl 1 0.
Definition FCR_FIFO_CLEAR : Z := Z.shiftl 3 1.
Definition LCR : Z := 3.
Definition LCR_EIGHT_BITS : Z := Z.shiftl 3 0.
Definition LCR_BAUD_LATCH : Z := Z.shiftl 1 7.
Definition LSR_TX_IDLE : Z := Z.shiftl 1 5.
Definition UART_TX_BUF_SIZE : Z := 32.

(** [ReadReg(LSR)] and [ReadReg(RHR)]: the next answer of the device. *)
Definition read_lsr : K Z :=
  v ← uget (fun u => lsr_in u 0%nat);
  uset (fun u => set_lsr_in (fun i => lsr_in u (S i)) u);;
  mret v.
Definition read_rhr : K Z :=
  v ← uget (fun u => rhr_in u 0%nat);
  uset (fun u => set_rhr_in (fun i => rhr_in u (S i)) u);;
  mret v.

(** [WriteReg(THR, c)]: a byte is sent; [WriteReg] of the other registers. *)
Definition write_thr (c : Z) : K unit := uset (fun u => set_thr_out (thr_out u ++ [u8 c]) u).
Definition write_reg (reg v : Z) : K unit := uset (fun u => set_uart_regs (uart_regs u ++ [(reg, v)]) u).

(** [for(;;) ;] *)
Definition spin {A} : K A := fun _ _ => NoFuel.

Definition uartinit : K unit :=
  write_reg IER 0x00;;
  write_reg LCR LCR_BAUD_LATCH;;
  write_reg 0 0x03;;
  write_reg 1 0x00;;
  write_reg LCR LCR_EIGHT_BITS;;
  write_reg FCR (Z.lor FCR_FIFO_ENABLE FCR_FIFO_CLEAR);;
  write_reg IER (Z.lor IER_TX_ENABLE IER_RX_ENABLE);;
  lift (initlock Luart "uart").

Definition uartstart : K unit :=
  loop (fun _ : unit =>
    w ← uget tx_w;
    r ← uget tx_r;
    if w =? r then mret (Done tt) else
    lsr ← read_lsr;
    if negb (has lsr LSR_TX_IDLE) then mret (Done tt) else
    c ← uget (fun u => tx_buf u (r mod UART_TX_BUF_SIZE));
    uset (set_tx_r (u64 (r + 1)));;
    wakeup Cuart;;
    write_thr c;;
    mret (Next tt)) tt.

Definition uartputc (c : Z) : K unit :=
  lock Luart;;
  pk ← gets panicked;
  if negb (pk =? 0) then spin else
  loop (fun _ : unit =>
    w ← uget tx_w;
    r ← uget tx_r;
    if w =? u64 (r + UART_TX_BUF_SIZE) then
      sleep Cuart Luart;; mret (Next tt)
    else
    uset (fun u => set_tx_buf (<[w mod UART_TX_BUF_SIZE := u8 c]> (tx_buf u)) u);;
    uset (set_tx_w (u64 (w + 1)));;
    uartstart;;
    unlock Luart;;
    mret (Done tt)) tt.

Definition uartputc_sync (c : Z) : K unit :=
  lift push_off;;
  pk ← gets panicked;
  if negb (pk =? 0) then spin else
  loop (fun _ : unit =>
    lsr ← read_lsr;
    if negb (has lsr LSR_TX_IDLE) then mret (Next tt) else mret (Done tt)) tt;;
  write_thr c;;
  lift pop_off.

Definition uartgetc : K Z :=
  lsr ← read_lsr;
  if has lsr 0x01 then read_rhr else mret (-1).
