(* ===== verification/Printf.v ===== *)
(** * Formatted output of the kernel: [src/kernel/printf.c] *)

From S2P Require Import Prelude Riscv Spinlock Str Kalloc Kernel Proc Uart.

Definition BACKSPACE : Z := 0x100.

(** console.c: one character to the UART *)
Definition consputc (c : Z) : K unit :=
  if c =? BACKSPACE then
    uartputc_sync 8;; uartputc_sync 32;; uartputc_sync 8
  else uartputc_sync c.

(** [digits[i]] *)
Definition digit (i : Z) : Z := if i <? 10 then 48 + i else 87 + i.

(** The [do]-loop of [printint]: the digits of [x] from the last one on. At
    most 32 rounds, since [x] has 32 bits and [base] is at least 2. *)
Fixpoint int_digits (fuel : nat) (x base : Z) : list Z :=
  match fuel with
  | O => []
  | S f => digit (x mod base) :: if x / base =? 0 then [] else int_digits f (x / base) base
  end.

(** What [printint] leaves in [buf]. *)
Definition printint_buf (xx base : Z) (sign : bool) : list Z :=
  let sign := sign && (xx <? 0) in
  let x := if sign then u32 (- xx) else u32 xx in
  int_digits 32 x base ++ if sign then [45] else [].

(** [while(--i >= 0) consputc(buf[i]);] and other strings of characters. *)
Fixpoint consputs (cs : list Z) : K unit :=
  match cs with
  | [] => mret tt
  | c :: cs' => consputc c;; consputs cs'
  end.

Definition printint (xx base : Z) (sign : bool) : K unit := consputs (rev (printint_buf xx base sign)).

Fixpoint printptr_loop (k : nat) (x : Z) : K unit :=
  match k with
  | O => mret tt
  | S k' => consputc (digit (Z.shiftr x 60));; printptr_loop k' (u64 (Z.shiftl x 4))
  end.

Definition printptr (x : Z) : K unit :=
  consputc 48;;
  consputc 120;;
  printptr_loop 16 x.

(** The variable arguments. *)
Inductive parg : Type :=
| Aint (v : Z)
| Aptr (v : Z)
| Astr (s : list Z)
| Anull.

(** [va_arg] of each type: what the next argument is when read as that type. *)
Definition arg_int (a : parg) : Z := match a with Aint v | Aptr v => s32 v | _ => 0 end.
Definition arg_ptr (a : parg) : Z := match a with Aint v | Aptr v => u64 v | _ => 0 end.
Definition arg_str (a : parg) : list Z :=
  match a with Astr s => s | _ => [40; 110; 117; 108; 108; 41] end.

(** The loop over the format. *)
Fixpoint printf_loop (fmt : list Z) (args : list parg) : K unit :=
  match fmt with
  | [] => mret tt
  | c :: fmt =>
      if negb (c =? 37) then consputc c;; printf_loop fmt args else
      match fmt with
      | [] => mret tt
      | c :: fmt =>
          let a := hd Anull args in
          if c =? 100 then printint (arg_int a) 10 true;; printf_loop fmt (tl args) else
          if c =? 120 then printint (arg_int a) 16 true;; printf_loop fmt (tl args) else
          if c =? 112 then printptr (arg_ptr a);; printf_loop fmt (tl args) else
          if c =? 115 then consputs (arg_str a);; printf_loop fmt (tl args) else
          if c =? 37 then consputc 37;; printf_loop fmt args else
          consputc 37;; consputc c;; printf_loop fmt args
      end
  end.

(** The bytes of a string constant. *)
Definition chars (s : string) : list Z := (fun c => Z.of_nat (Ascii.nat_of_ascii c)) <$> String.list_ascii_of_string s.

Definition printf (fmt : list Z) (args : list parg) : K unit :=
  locking ← gets pr_locking;
  when (negb (locking =? 0)) (lock Lpr);;
  printf_loop fmt args;;
  when (negb (locking =? 0)) (unlock Lpr).

(** What [panic] does before it spins. *)
Definition panic_print (s : list Z) : K unit :=
  modify (set_pr_locking 0);;
  printf (chars "panic: ") [];;
  printf s [];;
  printf [10] [];;
  modify (set_panicked 1).

Definition printfinit : K unit :=
  lift (initlock Lpr "pr");;
  modify (set_pr_locking 1).
