(* ===== verification/Console.v ===== *)
(** * The console: [src/kernel/console.c], [uartintr] of [src/kernel/uart.c]
    and [procdump] of [src/kernel/proc.c] *)

From S2P Require Import Prelude Riscv Spinlock Str Kalloc Kernel Proc Uart Printf.

Definition INPUT_BUF : Z := 128.

(** [C('P')] and so on *)
Definition Ctrl (x : Z) : Z := x - 64.

Section code.
Context {LY : Layout}.

Definition consolewrite (src : ksrc) (n : Z) : K Z :=
  loop (fun '(i, src) =>
    if negb (i <? n) then mret (Done i) else
    '(r, bs) ← either_copyin src 1;
    if r =? -1 then mret (Done i) else
    uartputc (hd 0 bs);;
    mret (Next (i + 1, match src with Suser va => Suser (u64 (va + 1)) | Skernel l => Skernel (drop 1 l) end))) (0, src).

(** The inner loop of [consoleread]: whether there is input, or the process
    was killed. *)
Definition cons_wait : K bool :=
  loop (fun _ : unit =>
    r ← cget cons_r;
    w ← cget cons_w;
    if negb (r =? w) then mret (Done true) else
    p ← myproc;
    p ← deref p;
    k ← pget p p_killed;
    if negb (k =? 0) then mret (Done false) else
    sleep Ccons Lcons;;
    mret (Next tt)) tt.

Definition consoleread (dst : kdst) (n : Z) : K Z :=
  let target := n in
  lock Lcons;;
  r ← loop (fun '(n, dst) =>
    if negb (0 <? n) then mret (Done (Some n)) else
    ok ← cons_wait;
    if negb ok then mret (Done None) else
    r ← cget cons_r;
    c ← cget (fun x => cons_buf x (r mod INPUT_BUF));
    cset (set_cons_r (u32 (r + 1)));;
    if c =? Ctrl 68 then
      when (n <? target) (cset (fun x => set_cons_r (u32 (cons_r x - 1)) x));;
      mret (Done (Some n))
    else
    e ← either_copyout dst [c] 1;
    if e =? -1 then mret (Done (Some n)) else
    let dst := match dst with Duser va => Duser (u64 (va + 1)) | Dphys pa => Dphys (u64 (pa + 1)) | Dlocal => Dlocal end in
    if c =? 10 then mret (Done (Some (n - 1))) else
    mret (Next (n - 1, dst))) (n, dst);
  unlock Lcons;;
  mret (match r with Some n => target - n | None => -1 end).

Definition state_name (st : procstate) : list Z :=
  match st with
  | UNUSED => chars "unused"
  | USED => chars "???"
  | SLEEPING => chars "sleep "
  | RUNNABLE => chars "runble"
  | RUNNING => chars "run   "
  | ZOMBIE => chars "zombie"
  end.

(** The string in a [char] array of [n] bytes. *)
Definition cstr (b : bytes) (n : nat) : list Z := strn b 0 n.

Definition procdump : K unit :=
  printf [10] [];;
  for_ (Z.to_nat NPROC) 0 (fun p =>
    st ← pget p p_state;
    if decide (st = UNUSED) then mret (Next tt : ctl unit unit) else
    pid ← pget p p_pid;
    name ← pget p p_name;
    printf (chars "%d %s %s") [Aint pid; Astr (state_name st); Astr (cstr name 16)];;
    printf [10] [];;
    mret (Next tt));;
  mret tt.

(** The [C('U')] case: erase back to the start of the line. *)
Definition kill_line : K unit :=
  loop (fun _ : unit =>
    e ← cget cons_e;
    w ← cget cons_w;
    c ← cget (fun x => cons_buf x (u32 (e - 1) mod INPUT_BUF));
    if (e =? w) || (c =? 10) then mret (Done tt) else
    cset (set_cons_e (u32 (e - 1)));;
    consputc BACKSPACE;;
    mret (Next tt)) tt.

(** The default case: echo and store one character. *)
Definition cons_store (c : Z) : K unit :=
  e ← cget cons_e;
  r ← cget cons_r;
  if negb (negb (c =? 0) && (u32 (e - r) <? INPUT_BUF)) then mret tt else
  let c := if c =? 13 then 10 else c in
  consputc c;;
  cset (fun x => set_cons_buf (<[e mod INPUT_BUF := u8 c]> (cons_buf x)) x);;
  cset (set_cons_e (u32 (e + 1)));;
  when ((c =? 10) || (c =? Ctrl 68) || (u32 (e + 1) =? u32 (r + INPUT_BUF)))
    (cset (set_cons_w (u32 (e + 1)));;
     wakeup Ccons).

Definition consoleintr (c : Z) : K unit :=
  lock Lcons;;
  (if c =? Ctrl 80 then procdump
   else if c =? Ctrl 85 then kill_line
   else if (c =? Ctrl 72) || (c =? 127) then
     e ← cget cons_e;
     w ← cget cons_w;
     when (negb (e =? w))
       (cset (set_cons_e (u32 (e - 1)));;
        consputc BACKSPACE)
   else cons_store c);;
  unlock Lcons.

Definition uartintr : K unit :=
  loop (fun _ : unit =>
    c ← uartgetc;
    if c =? -1 then mret (Done tt) else
    consoleintr c;;
    mret (Next tt)) tt;;
  lock Luart;;
  uartstart;;
  unlock Luart.

(** [devsw[CONSOLE]] *)
Definition CONSOLE : Z := 1.

Definition consoleinit : K unit :=
  lift (initlock Lcons "cons");;
  uartinit;;
  modify (fun s => set_devs (<[CONSOLE := mkDevsw (Some Dev_console) (Some Dev_console)]> (devs s)) s).

End code.
