(* ===== verification/Pipe.v ===== *)
(** * Pipes: [src/kernel/pipe.c], but for [pipealloc], which calls the file
    layer and is in [File.v]

    A pipe lives in a page of its own and is named by its address. *)

From S2P Require Import Prelude Riscv Spinlock Str Kalloc Vm PageFault Kernel Proc.

Definition PIPESIZE : Z := 512.

Section code.
Context {LY : Layout}.

Definition pipeclose (pi : Z) (writable : bool) : K unit :=
  lock (Lpipe pi);;
  (if writable then
     piset pi (set_pi_writeopen 0);;
     wakeup (Cnread pi)
   else
     piset pi (set_pi_readopen 0);;
     wakeup (Cnwrite pi));;
  r ← piget pi pi_readopen;
  w ← piget pi pi_writeopen;
  if (r =? 0) && (w =? 0) then
    unlock (Lpipe pi);;
    lift (kfree pi : M (mstate machine) unit)
  else
    unlock (Lpipe pi).

(** The loop of [pipewrite]: the bytes written, or [None] when the reading
    side is closed or the process was killed. *)
Definition pipewrite_loop (pi pr addr n : Z) : K (option Z) :=
  loop (fun i =>
    if negb (i <? n) then mret (Done (Some i)) else
    ro ← piget pi pi_readopen;
    k ← pget pr p_killed;
    if (ro =? 0) || negb (k =? 0) then mret (Done None) else
    w ← piget pi pi_nwrite;
    r ← piget pi pi_nread;
    if w =? u32 (r + PIPESIZE) then
      wakeup (Cnread pi);;
      sleep (Cnwrite pi) (Lpipe pi);;
      mret (Next i)
    else
    pt ← pget pr p_pagetable;
    '(e, bs) ← lift (copyin pt (u64 (addr + i)) 1 : M (mstate machine) (Z * list Z));
    if e =? -1 then mret (Done (Some i)) else
    piset pi (fun x => set_pi_data (<[w mod PIPESIZE := hd 0 bs]> (pi_data x)) x);;
    piset pi (set_pi_nwrite (u32 (w + 1)));;
    mret (Next (i + 1))) 0.

Definition pipewrite (pi addr n : Z) : K Z :=
  pr ← myproc;
  pr ← deref pr;
  lock (Lpipe pi);;
  r ← pipewrite_loop pi pr addr n;
  match r with
  | None => unlock (Lpipe pi);; mret (-1)
  | Some i =>
      wakeup (Cnread pi);;
      unlock (Lpipe pi);;
      mret i
  end.

(** The first loop of [piperead]: whether to go on, or the process was killed. *)
Definition piperead_wait (pi pr : Z) : K bool :=
  loop (fun _ : unit =>
    r ← piget pi pi_nread;
    w ← piget pi pi_nwrite;
    wo ← piget pi pi_writeopen;
    if negb ((r =? w) && negb (wo =? 0)) then mret (Done true) else
    k ← pget pr p_killed;
    if negb (k =? 0) then mret (Done false) else
    sleep (Cnread pi) (Lpipe pi);;
    mret (Next tt)) tt.

(** The second loop. *)
Definition piperead_copy (pi pr addr n : Z) : K Z :=
  loop (fun i =>
    if negb (i <? n) then mret (Done i) else
    r ← piget pi pi_nread;
    w ← piget pi pi_nwrite;
    if r =? w then mret (Done i) else
    ch ← piget pi (fun x => pi_data x (r mod PIPESIZE));
    piset pi (set_pi_nread (u32 (r + 1)));;
    pt ← pget pr p_pagetable;
    e ← lift (copyout pt (u64 (addr + i)) [ch] 1 : M (mstate machine) Z);
    if e =? -1 then mret (Done i) else
    mret (Next (i + 1))) 0.

Definition piperead (pi addr n : Z) : K Z :=
  pr ← myproc;
  pr ← deref pr;
  lock (Lpipe pi);;
  ok ← piperead_wait pi pr;
  if negb ok then
    unlock (Lpipe pi);;
    mret (-1)
  else
  i ← piperead_copy pi pr addr n;
  wakeup (Cnwrite pi);;
  unlock (Lpipe pi);;
  mret i.

End code.
