(* ===== verification/File.v ===== *)
(** * Open files: [src/kernel/file.c] and [pipealloc] of [src/kernel/pipe.c] *)

From S2P Require Import Prelude Riscv Spinlock Str Kalloc Vm Kernel Proc Sleeplock Bio Log Fs Uart Printf Console Pipe.

Definition fileinit : K unit := lift (initlock Lftable "ftable").

Definition filealloc : K (option Z) :=
  lock Lftable;;
  r ← for_ (Z.to_nat NFILE) 0 (fun f =>
    ref ← fget f f_ref;
    if ref =? 0 then
      fset f (set_f_ref 1);;
      unlock Lftable;;
      mret (Done f)
    else mret (Next tt));
  match r with
  | Some f => mret (Some f)
  | None => unlock Lftable;; mret None
  end.

Definition filedup (f : Z) : K Z :=
  lock Lftable;;
  ref ← fget f f_ref;
  if ref <? 1 then panic "filedup" else
  fset f (set_f_ref (s32 (ref + 1)));;
  unlock Lftable;;
  mret f.

(** The bytes of a [struct stat]: [dev], [ino], [type], [nlink], padding and
    [size]. *)
Definition stat_bytes (x : stat) : list Z :=
  rd_bytes (Str.st 8 (Str.st 2 (Str.st 2 (Str.st 4 (Str.st 4 (fun _ => 0) 0 (st_dev x)) 4 (st_ino x))
    8 (st_type x)) 10 (st_nlink x)) 16 (st_size x)) 0 24.

Section code.
Context {LY : Layout} {DEV : BlockDev}.

Definition fileclose (f : Z) : K unit :=
  lock Lftable;;
  ref ← fget f f_ref;
  if ref <? 1 then panic "fileclose" else
  fset f (set_f_ref (ref - 1));;
  if 0 <? ref - 1 then unlock Lftable else
  ff ← fget f (fun x => x);
  fset f (set_f_ref 0);;
  fset f (set_f_type FD_NONE);;
  unlock Lftable;;
  match f_type ff with
  | FD_PIPE => pipeclose (f_pipe ff) (negb (f_writable ff =? 0))
  | FD_INODE | FD_DEVICE =>
      begin_op;;
      ip ← deref (f_ip ff);
      iput ip;;
      end_op
  | FD_NONE => mret tt
  end.

Definition filestat (f addr : Z) : K Z :=
  p ← myproc;
  t ← fget f f_type;
  match t with
  | FD_INODE | FD_DEVICE =>
      ip ← fget f f_ip;
      ilock ip;;
      ip' ← deref ip;
      x ← stati ip';
      iunlock ip;;
      p ← deref p;
      pt ← pget p p_pagetable;
      r ← lift (copyout pt addr (stat_bytes x) 24 : M (mstate machine) Z);
      mret (if r <? 0 then -1 else 0)
  | _ => mret (-1)
  end.

Definition fileread (f addr n : Z) : K Z :=
  rd ← fget f f_readable;
  if rd =? 0 then mret (-1) else
  t ← fget f f_type;
  match t with
  | FD_PIPE => pi ← fget f f_pipe; piperead pi addr n
  | FD_DEVICE =>
      m ← fget f f_major;
      if (m <? 0) || (NDEV <=? m) then mret (-1) else
      d ← gets (fun s => dev_read (devs s m));
      match d with
      | None => mret (-1)
      | Some Dev_console => consoleread (Duser addr) n
      end
  | FD_INODE =>
      ip ← fget f f_ip;
      ilock ip;;
      ip' ← deref ip;
      off ← fget f f_off;
      '(r, _) ← readi ip' (Duser addr) off (u32 n);
      when (0 <? r) (fset f (fun x => set_f_off (u32 (f_off x + r)) x));;
      iunlock ip;;
      mret r
  | FD_NONE => panic "fileread"
  end.

(** The largest number of bytes [filewrite] writes in one transaction. *)
Definition write_max : Z := ((MAXOPBLOCKS - 1 - 1 - 2) / 2) * BSIZE.

(** One transaction: [n1] bytes from user address [addr]. *)
Definition filewrite_chunk (f addr n1 : Z) : K Z :=
  begin_op;;
  ip ← fget f f_ip;
  ilock ip;;
  ip' ← deref ip;
  off ← fget f f_off;
  r ← writei ip' (Suser addr) off n1;
  when (0 <? r) (fset f (fun x => set_f_off (u32 (f_off x + r)) x));;
  iunlock ip;;
  end_op;;
  mret r.

Definition filewrite (f addr n : Z) : K Z :=
  wr ← fget f f_writable;
  if wr =? 0 then mret (-1) else
  t ← fget f f_type;
  match t with
  | FD_PIPE => pi ← fget f f_pipe; pipewrite pi addr n
  | FD_DEVICE =>
      m ← fget f f_major;
      if (m <? 0) || (NDEV <=? m) then mret (-1) else
      d ← gets (fun s => dev_write (devs s m));
      match d with
      | None => mret (-1)
      | Some Dev_console => consolewrite (Suser addr) n
      end
  | FD_INODE =>
      i ← loop (fun i =>
        if negb (i <? n) then mret (Done i) else
        let n1 := if write_max <? n - i then write_max else n - i in
        r ← filewrite_chunk f (u64 (addr + i)) n1;
        if negb (r =? n1) then mret (Done i) else
        mret (Next (i + r))) 0;
      mret (if i =? n then n else -1)
  | FD_NONE => panic "filewrite"
  end.

(** The label [bad] of [pipealloc]. *)
Definition pipealloc_bad (pi : Z) (f0 f1 : option Z) : K (option (Z * Z)) :=
  when (negb (pi =? 0)) (lift (kfree pi : M (mstate machine) unit));;
  match f0 with Some f => fileclose f | None => mret tt end;;
  match f1 with Some f => fileclose f | None => mret tt end;;
  mret None.

(** The two files, or [None] where the code returns -1. *)
Definition pipealloc : K (option (Z * Z)) :=
  f0 ← filealloc;
  match f0 with
  | None => pipealloc_bad 0 None None
  | Some a =>
      f1 ← filealloc;
      match f1 with
      | None => pipealloc_bad 0 f0 None
      | Some b =>
          pi ← lift (kalloc : M (mstate machine) Z);
          if pi =? 0 then pipealloc_bad 0 f0 f1 else
          piset pi (set_pi_readopen 1);;
          piset pi (set_pi_writeopen 1);;
          piset pi (set_pi_nwrite 0);;
          piset pi (set_pi_nread 0);;
          lift (initlock (Lpipe pi) "pipe");;
          fset a (set_f_type FD_PIPE);;
          fset a (set_f_readable 1);;
          fset a (set_f_writable 0);;
          fset a (set_f_pipe pi);;
          fset b (set_f_type FD_PIPE);;
          fset b (set_f_readable 0);;
          fset b (set_f_writable 1);;
          fset b (set_f_pipe pi);;
          mret (Some (a, b))
      end
  end.

End code.
