(* ===== verification/ProcLife.v ===== *)
(** * The life of a process: [userinit], [fork] and [exit] of
    [src/kernel/proc.c] *)

From S2P Require Import Prelude Riscv Spinlock Str Kalloc Vm ProcVm Kernel Proc Sleeplock Bio Log Fs Uart Printf Pipe File.

(** The machine code of [src/user/initcode.S] *)
Definition initcode : list Z :=
  [0x17; 0x05; 0x00; 0x00; 0x13; 0x05; 0x45; 0x02;
   0x97; 0x05; 0x00; 0x00; 0x93; 0x85; 0x35; 0x02;
   0x93; 0x08; 0x70; 0x00; 0x73; 0x00; 0x00; 0x00;
   0x93; 0x08; 0x20; 0x00; 0x73; 0x00; 0x00; 0x00;
   0xef; 0xf0; 0x9f; 0xff; 0x2f; 0x69; 0x6e; 0x69;
   0x74; 0x00; 0x00; 0x24; 0x00; 0x00; 0x00; 0x00;
   0x00; 0x00; 0x00; 0x00].

(** The bytes of a string, and NULs after it. *)
Definition buf_of (cs : list Z) : bytes := fun i => nth (Z.to_nat i) cs 0.

Section code.
Context {LY : Layout} {DEV : BlockDev}.

Definition userinit : K unit :=
  p ← allocproc;
  modify (set_initproc p);;
  p ← deref p;
  pt ← pget p p_pagetable;
  lift (uvminit pt initcode (Z.of_nat (length initcode)) : M (mstate machine) unit);;
  pset p (set_p_sz PGSIZE);;
  tf ← pget p p_trapframe;
  tf_set tf TF_epc 0;;
  tf_set tf TF_sp PGSIZE;;
  pset p (fun x => set_p_name (safestrcpy (p_name x) 0 (buf_of (chars "initcode")) 16) x);;
  cwd ← namei [slash];
  pset p (set_p_cwd cwd);;
  pset p (set_p_state RUNNABLE);;
  unlock (Lproc p).

Definition fork : K Z :=
  p ← myproc;
  np ← allocproc;
  match np with
  | None => mret (-1)
  | Some np =>
      p ← deref p;
      pt ← pget p p_pagetable;
      npt ← pget np p_pagetable;
      sz ← pget p p_sz;
      r ← lift (uvmcopy pt npt sz : M (mstate machine) Z);
      if r <? 0 then
        freeproc np;;
        unlock (Lproc np);;
        mret (-1)
      else
      pset np (set_p_sz sz);;
      tf ← pget p p_trapframe;
      ntf ← pget np p_trapframe;
      kmem_set (fun m => wr_bytes m ntf (rd_bytes m tf (Z.to_nat sizeof_trapframe)));;
      tf_set ntf TF_a0 0;;
      for_ (Z.to_nat NOFILE) 0 (fun i =>
        f ← pget p (fun x => p_ofile x i);
        match f with
        | Some f =>
            f' ← filedup f;
            pset np (fun x => set_p_ofile (<[i := Some f']> (p_ofile x)) x)
        | None => mret tt
        end;;
        mret (Next tt : ctl unit unit));;
      cwd ← pget p p_cwd;
      cwd ← deref cwd;
      cwd' ← idup cwd;
      pset np (set_p_cwd (Some cwd'));;
      name ← pget p p_name;
      pset np (fun x => set_p_name (safestrcpy (p_name x) 0 name 16) x);;
      pid ← pget np p_pid;
      unlock (Lproc np);;
      lock Lwait;;
      pset np (set_p_parent (Some p));;
      unlock Lwait;;
      lock (Lproc np);;
      pset np (set_p_state RUNNABLE);;
      unlock (Lproc np);;
      mret pid
  end.

(** A process as the argument of [wakeup]. *)
Definition proc_chan (p : option Z) : chan := match p with Some i => Cproc i | None => Cnone end.

(** The part of [exit] that closes the files. *)
Definition exit_files (p : Z) : K unit :=
  for_ (Z.to_nat NOFILE) 0 (fun fd =>
    f ← pget p (fun x => p_ofile x fd);
    match f with
    | Some f =>
        fileclose f;;
        pset p (fun x => set_p_ofile (<[fd := None]> (p_ofile x)) x)
    | None => mret tt
    end;;
    mret (Next tt : ctl unit unit));;
  mret tt.

Definition exit {A} (status : Z) : K A :=
  p ← myproc;
  ini ← gets initproc;
  if decide (p = ini) then panic "init exiting" else
  p ← deref p;
  exit_files p;;
  begin_op;;
  cwd ← pget p p_cwd;
  cwd ← deref cwd;
  iput cwd;;
  end_op;;
  pset p (set_p_cwd None);;
  lock Lwait;;
  reparent p;;
  par ← pget p p_parent;
  wakeup (proc_chan par);;
  lock (Lproc p);;
  pset p (set_p_xstate status);;
  pset p (set_p_state ZOMBIE);;
  unlock Lwait;;
  sched;;
  panic "zombie exit".

End code.
