(* ===== verification/Exec.v ===== *)
(** * Running a program: [src/kernel/exec.c] and the formats of [src/kernel/elf.h] *)

From S2P Require Import Prelude Riscv Spinlock Str Kalloc Vm ProcVm Kernel Proc Sleeplock Bio Log Fs ProcLife.

Definition ELF_MAGIC : Z := 0x464C457F.
Definition ELF_PROG_LOAD : Z := 1.

(** The fields of [struct elfhdr] that are used, in the bytes of the header. *)
Definition sizeof_elfhdr : Z := 64.
Definition elf_magic (h : bytes) : Z := ld 4 h 0.
Definition elf_entry (h : bytes) : Z := ld 8 h 24.
Definition elf_phoff (h : bytes) : Z := ld 8 h 32.
Definition elf_phnum (h : bytes) : Z := ld 2 h 56.

(** The same for [struct proghdr]. *)
Definition sizeof_proghdr : Z := 56.
Definition ph_type (h : bytes) : Z := ld 4 h 0.
Definition ph_off (h : bytes) : Z := ld 8 h 8.
Definition ph_vaddr (h : bytes) : Z := ld 8 h 16.
Definition ph_filesz (h : bytes) : Z := ld 8 h 32.
Definition ph_memsz (h : bytes) : Z := ld 8 h 40.

(** [strlen] of a string in the memory of the kernel. *)
Definition kstrlen (a : Z) : K Z := fun n s =>
  match strlen n (fun i => mem (ms s) (a + i)) with
  | Some l => Ret l s
  | None => NoFuel
  end.

(** The last element of a path: [for(last=s=path; *s; s++) if( *s == '/') last = s+1;] *)
Fixpoint last_elem (s last : list Z) : list Z :=
  match s with
  | [] => last
  | c :: s' => last_elem s' (if c =? slash then s' else last)
  end.

Section code.
Context {LY : Layout} {DEV : BlockDev}.

(** [readi(...) != n] compares an [int] with a [uint]. *)
Definition loadseg (pagetable va ip offset sz : Z) : K Z :=
  loop (fun i =>
    if negb (i <? sz) then mret (Done 0) else
    pa ← lift (walkaddr pagetable (u64 (va + i)) : M (mstate machine) Z);
    if pa =? 0 then panic "loadseg: address should exist" else
    let n := if u32 (sz - i) <? PGSIZE then u32 (sz - i) else PGSIZE in
    '(r, _) ← readi ip (Dphys pa) (u32 (offset + i)) n;
    if negb (u32 r =? n) then mret (Done (-1)) else
    mret (Next (u32 (i + PGSIZE)))) 0.

(** The loop over the program headers: the size, and whether all went well. *)
Definition exec_load (ip pagetable : Z) (elf : bytes) : K (bool * Z) :=
  loop (fun '(i, off, sz) =>
    if negb (i <? elf_phnum elf) then mret (Done (true, sz)) else
    '(r, bs) ← readi ip Dlocal (u32 off) sizeof_proghdr;
    if negb (r =? sizeof_proghdr) then mret (Done (false, sz)) else
    let ph := buf_of bs in
    let next sz := mret (Next (i + 1, s32 (off + sizeof_proghdr), sz)) in
    if negb (ph_type ph =? ELF_PROG_LOAD) then next sz else
    if ph_memsz ph <? ph_filesz ph then mret (Done (false, sz)) else
    if u64 (ph_vaddr ph + ph_memsz ph) <? ph_vaddr ph then mret (Done (false, sz)) else
    sz1 ← lift (uvmalloc pagetable sz (u64 (ph_vaddr ph + ph_memsz ph)) : M (mstate machine) Z);
    if sz1 =? 0 then mret (Done (false, sz)) else
    if negb (ph_vaddr ph mod PGSIZE =? 0) then mret (Done (false, sz1)) else
    r ← loadseg pagetable (ph_vaddr ph) ip (u32 (ph_off ph)) (u32 (ph_filesz ph));
    if r <? 0 then mret (Done (false, sz1)) else
    next sz1) (0, s32 (elf_phoff elf), 0).

(** Push the argument strings: the stack pointer and the addresses of the
    strings, or [None] for [goto bad]. *)
Definition push_args (pagetable stackbase : Z) (argv : list Z) (sp : Z) : K (option (Z * list Z)) :=
  loop (fun '(argc, argv, sp, ustack) =>
    match argv with
    | [] => mret (Done (Some (sp, ustack)))
    | a :: argv =>
        if MAXARG <=? argc then mret (Done None) else
        len ← kstrlen a;
        let sp := u64 (sp - (len + 1)) in
        let sp := sp - sp mod 16 in
        if sp <? stackbase then mret (Done None) else
        bs ← kmem_get (fun m => rd_bytes m a (Z.to_nat (len + 1)));
        r ← lift (copyout pagetable sp bs (len + 1) : M (mstate machine) Z);
        if r <? 0 then mret (Done None) else
        mret (Next (argc + 1, argv, sp, ustack ++ [sp]))
    end) (0, argv, sp, []).

(** The bytes of an array of [uint64]s. *)
Definition words_bytes (ws : list Z) : list Z := ws ≫= (fun w => rd_bytes (store64 (fun _ => 0) 0 w) 0 8).

(** From the first page boundary after the program on: the stack, and the
    commit. The number of arguments, or the size to free for [goto bad]. *)
Definition exec_commit (p pagetable : Z) (elf : bytes) (path : list Z) (argv : list Z) (oldsz sz : Z) : K (Z + Z) :=
  let sz := PGROUNDUP sz in
  sz1 ← lift (uvmalloc pagetable sz (u64 (sz + 2 * PGSIZE)) : M (mstate machine) Z);
  if sz1 =? 0 then mret (inr sz) else
  let sz := sz1 in
  lift (uvmclear pagetable (u64 (sz - 2 * PGSIZE)) : M (mstate machine) unit);;
  let stackbase := u64 (sz - PGSIZE) in
  r ← push_args pagetable stackbase argv sz;
  match r with
  | None => mret (inr sz)
  | Some (sp, ustack) =>
      let argc := Z.of_nat (length ustack) in
      let sp := u64 (sp - (argc + 1) * 8) in
      let sp := sp - sp mod 16 in
      if sp <? stackbase then mret (inr sz) else
      r ← lift (copyout pagetable sp (words_bytes (ustack ++ [0])) ((argc + 1) * 8) : M (mstate machine) Z);
      if r <? 0 then mret (inr sz) else
      tf ← pget p p_trapframe;
      tf_set tf TF_a1 sp;;
      pset p (fun x => set_p_name (safestrcpy (p_name x) 0 (buf_of (last_elem path path)) 16) x);;
      oldpagetable ← pget p p_pagetable;
      pset p (set_p_pagetable pagetable);;
      pset p (set_p_sz sz);;
      tf_set tf TF_epc (elf_entry elf);;
      tf_set tf TF_sp sp;;
      lift (proc_freepagetable oldpagetable oldsz : M (mstate machine) unit);;
      mret (inl argc)
  end.

(** The label [bad]: [pt] is 0 before the page table is made, and [ip] is
    [None] after the inode is released. *)
Definition exec_bad (pt sz : Z) (ip : option Z) : K Z :=
  when (negb (pt =? 0)) (lift (proc_freepagetable pt sz : M (mstate machine) unit));;
  match ip with
  | Some ip => iunlockput ip;; end_op
  | None => mret tt
  end;;
  mret (-1).

(** [argv] holds the addresses of the strings, without the null pointer at
    its end. *)
Definition exec (path : list Z) (argv : list Z) : K Z :=
  p ← myproc;
  begin_op;;
  ip ← namei path;
  match ip with
  | None => end_op;; mret (-1)
  | Some ip =>
      ilock (Some ip);;
      '(r, bs) ← readi ip Dlocal 0 sizeof_elfhdr;
      if negb (r =? sizeof_elfhdr) then exec_bad 0 0 (Some ip) else
      let elf := buf_of bs in
      if negb (elf_magic elf =? ELF_MAGIC) then exec_bad 0 0 (Some ip) else
      p ← deref p;
      tf ← pget p p_trapframe;
      pagetable ← lift (proc_pagetable tf : M (mstate machine) Z);
      if pagetable =? 0 then exec_bad 0 0 (Some ip) else
      '(ok, sz) ← exec_load ip pagetable elf;
      if negb ok then exec_bad pagetable sz (Some ip) else
      iunlockput ip;;
      end_op;;
      p ← myproc;
      p ← deref p;
      oldsz ← pget p p_sz;
      r ← exec_commit p pagetable elf path argv oldsz sz;
      match r with
      | inl argc => mret (s32 argc)
      | inr sz => exec_bad pagetable sz None
      end
  end.

End code.
