(* ===== verification/Syscall.v ===== *)
(** * System call arguments: [src/kernel/syscall.c], but for [syscall]
    itself, which is in [Trap.v] *)

From S2P Require Import Prelude Riscv Spinlock Str Kalloc Vm Kernel Proc ProcLife.

(** The string in a buffer: the bytes before the first NUL. *)
Fixpoint cstring (bs : list Z) : list Z :=
  match bs with
  | [] => []
  | b :: bs' => if b =? 0 then [] else b :: cstring bs'
  end.

Section code.
Context {LY : Layout}.

(** The result and the word fetched. *)
Definition fetchaddr (addr : Z) : K (Z * Z) :=
  p ← myproc;
  p ← deref p;
  sz ← pget p p_sz;
  if (sz <=? addr) || (sz <? u64 (addr + 8)) then mret (-1, 0) else
  pt ← pget p p_pagetable;
  '(r, bs) ← lift (copyin pt addr 8 : M (mstate machine) (Z * list Z));
  if negb (r =? 0) then mret (-1, 0) else
  mret (0, ld 8 (buf_of bs) 0).

(** The result and the bytes stored in [buf]. *)
Definition fetchstr (addr max : Z) : K (Z * list Z) :=
  p ← myproc;
  p ← deref p;
  pt ← pget p p_pagetable;
  '(err, bs) ← lift (copyinstr pt addr (u64 max) : M (mstate machine) (Z * list Z));
  if err <? 0 then mret (err, bs) else
  mret (Z.of_nat (length (cstring bs)), bs).

Definition argraw (n : Z) : K Z :=
  p ← myproc;
  p ← deref p;
  tf ← pget p p_trapframe;
  match n with
  | 0 => tf_get tf TF_a0
  | 1 => tf_get tf TF_a1
  | 2 => tf_get tf TF_a2
  | 3 => tf_get tf TF_a3
  | 4 => tf_get tf TF_a4
  | 5 => tf_get tf TF_a5
  | _ => panic "argraw"
  end.

(** [argint] and [argaddr] always return 0; this is what they store. *)
Definition argint (n : Z) : K Z :=
  v ← argraw n;
  mret (s32 v).

Definition argaddr (n : Z) : K Z := argraw n.

(** The result and the string. *)
Definition argstr (n max : Z) : K (Z * list Z) :=
  addr ← argaddr n;
  '(r, bs) ← fetchstr addr max;
  mret (r, cstring bs).

End code.
