(* ===== verification/Sysproc.v ===== *)
(** * System calls on processes: [src/kernel/sysproc.c]

    A system call returns the [uint64] that is stored in [a0]. *)

From S2P Require Import Prelude Riscv Spinlock Str Kalloc Kernel Proc Sleeplock Bio Log Fs File ProcLife Syscall.

Section code.
Context {LY : Layout} {DEV : BlockDev}.

Definition sys_exit : K Z :=
  n ← argint 0;
  exit n.

Definition sys_getpid : K Z :=
  p ← myproc;
  p ← deref p;
  pid ← pget p p_pid;
  mret (u64 pid).

Definition sys_fork : K Z :=
  r ← fork;
  mret (u64 r).

Definition sys_wait : K Z :=
  p ← argaddr 0;
  r ← wait p;
  mret (u64 r).

Definition sys_sbrk : K Z :=
  n ← argint 0;
  p ← myproc;
  p ← deref p;
  sz ← pget p p_sz;
  let addr := s32 sz in
  r ← growproc n;
  mret (if r <? 0 then u64 (-1) else u64 addr).

(** [ticks - ticks0 < n] compares as [uint]. *)
Definition sys_sleep : K Z :=
  n ← argint 0;
  lock Lticks;;
  ticks0 ← gets ticks;
  loop (fun _ : unit =>
    t ← gets ticks;
    if negb (u32 (t - ticks0) <? u32 n) then
      unlock Lticks;;
      mret (Done 0)
    else
    p ← myproc;
    p ← deref p;
    k ← pget p p_killed;
    if negb (k =? 0) then
      unlock Lticks;;
      mret (Done (u64 (-1)))
    else
    sleep Cticks Lticks;;
    mret (Next tt)) tt.

Definition sys_kill : K Z :=
  pid ← argint 0;
  r ← kill pid;
  mret (u64 r).

Definition sys_uptime : K Z :=
  lock Lticks;;
  xticks ← gets ticks;
  unlock Lticks;;
  mret xticks.

End code.
