(* ===== verification/Sysfile.v ===== *)
(** * System calls on files: [src/kernel/sysfile.c] *)

From S2P Require Import Prelude Riscv Spinlock Str Kalloc Vm ProcVm Kernel Proc Sleeplock Bio Log Fs Printf File ProcLife Exec Syscall.

(** [return -1;] as a [uint64] *)
Definition minus1 : Z := u64 (-1).

Section code.
Context {LY : Layout} {DEV : BlockDev}.

(** The descriptor and the file; [None] where the code returns -1. *)
Definition argfd (n : Z) : K (option (Z * Z)) :=
  fd ← argint n;
  if (fd <? 0) || (NOFILE <=? fd) then mret None else
  p ← myproc;
  p ← deref p;
  f ← pget p (fun x => p_ofile x fd);
  mret (match f with Some f => Some (fd, f) | None => None end).

Definition fdalloc (f : Z) : K Z :=
  p ← myproc;
  p ← deref p;
  r ← for_ (Z.to_nat NOFILE) 0 (fun fd =>
    o ← pget p (fun x => p_ofile x fd);
    match o with
    | None =>
        pset p (fun x => set_p_ofile (<[fd := Some f]> (p_ofile x)) x);;
        mret (Done fd)
    | Some _ => mret (Next tt)
    end);
  mret (match r with Some fd => fd | None => -1 end).

Definition sys_dup : K Z :=
  a ← argfd 0;
  match a with
  | None => mret minus1
  | Some (_, f) =>
      fd ← fdalloc f;
      if fd <? 0 then mret minus1 else
      filedup f;;
      mret fd
  end.

Definition sys_read : K Z :=
  a ← argfd 0;
  match a with
  | None => mret minus1
  | Some (_, f) =>
      n ← argint 2;
      p ← argaddr 1;
      r ← fileread f p n;
      mret (u64 r)
  end.

Definition sys_write : K Z :=
  a ← argfd 0;
  match a with
  | None => mret minus1
  | Some (_, f) =>
      n ← argint 2;
      p ← argaddr 1;
      r ← filewrite f p n;
      mret (u64 r)
  end.

Definition sys_close : K Z :=
  a ← argfd 0;
  match a with
  | None => mret minus1
  | Some (fd, f) =>
      p ← myproc;
      p ← deref p;
      pset p (fun x => set_p_ofile (<[fd := None]> (p_ofile x)) x);;
      fileclose f;;
      mret 0
  end.

Definition sys_fstat : K Z :=
  a ← argfd 0;
  match a with
  | None => mret minus1
  | Some (_, f) =>
      st ← argaddr 1;
      r ← filestat f st;
      mret (u64 r)
  end.

(** [ip->nlink++] and [ip->nlink--] of a [short] *)
Definition nlink_add (ip d : Z) : K unit :=
  iset ip (fun x => set_i_nlink (s16 (i_nlink x + d)) x).

(** The label [bad] of [sys_link]. *)
Definition link_bad (ip : Z) : K Z :=
  ilock (Some ip);;
  nlink_add ip (-1);;
  iupdate ip;;
  iunlockput ip;;
  end_op;;
  mret minus1.

Definition sys_link : K Z :=
  '(r, old) ← argstr 0 MAXPATH;
  if r <? 0 then mret minus1 else
  '(r, new) ← argstr 1 MAXPATH;
  if r <? 0 then mret minus1 else
  begin_op;;
  ip ← namei old;
  match ip with
  | None => end_op;; mret minus1
  | Some ip =>
      ilock (Some ip);;
      type ← iget_ ip i_type;
      if type =? T_DIR then
        iunlockput ip;;
        end_op;;
        mret minus1
      else
      nlink_add ip 1;;
      iupdate ip;;
      iunlock (Some ip);;
      '(dp, name) ← nameiparent new;
      match dp with
      | None => link_bad ip
      | Some dp =>
          ilock (Some dp);;
          ddev ← iget_ dp i_dev;
          idev ← iget_ ip i_dev;
          inum ← iget_ ip i_inum;
          r ← (if negb (ddev =? idev) then mret (-1) else dirlink dp name inum);
          if r <? 0 then
            iunlockput dp;;
            link_bad ip
          else
          iunlockput dp;;
          iput ip;;
          end_op;;
          mret 0
      end
  end.

(** [off] is an [int] that is compared with the [uint] size. *)
Definition isdirempty (dp : Z) : K bool :=
  loop (fun off =>
    size ← iget_ dp i_size;
    if negb (u32 off <? size) then mret (Done true) else
    '(r, de) ← readi dp Dlocal (u32 off) sizeof_dirent;
    if negb (r =? sizeof_dirent) then panic "isdirempty: readi" else
    if negb (de_inum de =? 0) then mret (Done false) else
    mret (Next (off + sizeof_dirent))) (2 * sizeof_dirent).

(** The label [bad] of [sys_unlink]. *)
Definition unlink_bad (dp : Z) : K Z :=
  iunlockput dp;;
  end_op;;
  mret minus1.

Definition sys_unlink : K Z :=
  '(r, path) ← argstr 0 MAXPATH;
  if r <? 0 then mret minus1 else
  begin_op;;
  '(dp, name) ← nameiparent path;
  match dp with
  | None => end_op;; mret minus1
  | Some dp =>
      ilock (Some dp);;
      if (namecmp name (buf_of (chars ".")) =? 0) || (namecmp name (buf_of (chars "..")) =? 0) then unlink_bad dp else
      r ← dirlookup dp name;
      match r with
      | None => unlink_bad dp
      | Some (ip, off) =>
          ilock (Some ip);;
          nlink ← iget_ ip i_nlink;
          if nlink <? 1 then panic "unlink: nlink < 1" else
          type ← iget_ ip i_type;
          empty ← (if type =? T_DIR then isdirempty ip else mret true);
          if negb empty then
            iunlockput ip;;
            unlink_bad dp
          else
          r ← writei dp (Skernel (replicate 16 0)) off sizeof_dirent;
          if negb (r =? sizeof_dirent) then panic "unlink: writei" else
          type ← iget_ ip i_type;
          when (type =? T_DIR)
            (nlink_add dp (-1);;
             iupdate dp);;
          iunlockput dp;;
          nlink_add ip (-1);;
          iupdate ip;;
          iunlockput ip;;
          end_op;;
          mret 0
      end
  end.

Definition create (path : list Z) (type major minor : Z) : K (option Z) :=
  '(dp, name) ← nameiparent path;
  match dp with
  | None => mret None
  | Some dp =>
      ilock (Some dp);;
      r ← dirlookup dp name;
      match r with
      | Some (ip, _) =>
          iunlockput dp;;
          ilock (Some ip);;
          t ← iget_ ip i_type;
          if (type =? T_FILE) && ((t =? T_FILE) || (t =? T_DEVICE)) then mret (Some ip) else
          iunlockput ip;;
          mret None
      | None =>
          dev ← iget_ dp i_dev;
          ip ← ialloc dev type;
          ilock (Some ip);;
          iset ip (set_i_major major);;
          iset ip (set_i_minor minor);;
          iset ip (set_i_nlink 1);;
          iupdate ip;;
          inum ← iget_ ip i_inum;
          when (type =? T_DIR)
            (nlink_add dp 1;;
             iupdate dp;;
             r ← dirlink ip (buf_of (chars ".")) inum;
             if r <? 0 then panic "create dots" else
             dinum ← iget_ dp i_inum;
             r ← dirlink ip (buf_of (chars "..")) dinum;
             if r <? 0 then panic "create dots" else mret tt);;
          r ← dirlink dp name inum;
          if r <? 0 then panic "create: dirlink" else
          iunlockput dp;;
          mret (Some ip)
      end
  end.

(** The part of [sys_open] after the inode is found and locked. *)
Definition open_inode (ip omode : Z) : K Z :=
  x ← iget_ ip (fun x => x);
  if (i_type x =? T_DEVICE) && ((i_major x <? 0) || (NDEV <=? i_major x)) then
    iunlockput ip;;
    end_op;;
    mret minus1
  else
  f ← filealloc;
  match f with
  | None =>
      iunlockput ip;;
      end_op;;
      mret minus1
  | Some f =>
      fd ← fdalloc f;
      if fd <? 0 then
        fileclose f;;
        iunlockput ip;;
        end_op;;
        mret minus1
      else
      x ← iget_ ip (fun x => x);
      (if i_type x =? T_DEVICE then
         fset f (set_f_type FD_DEVICE);;
         fset f (set_f_major (i_major x))
       else
         fset f (set_f_type FD_INODE);;
         fset f (set_f_off 0));;
      fset f (set_f_ip (Some ip));;
      fset f (set_f_readable (if has omode O_WRONLY then 0 else 1));;
      fset f (set_f_writable (if has omode O_WRONLY || has omode O_RDWR then 1 else 0));;
      when (has omode O_TRUNC && (i_type x =? T_FILE)) (itrunc ip);;
      iunlock (Some ip);;
      end_op;;
      mret fd
  end.

Definition sys_open : K Z :=
  '(n, path) ← argstr 0 MAXPATH;
  if n <? 0 then mret minus1 else
  omode ← argint 1;
  begin_op;;
  if has omode O_CREATE then
    ip ← create path T_FILE 0 0;
    match ip with
    | None => end_op;; mret minus1
    | Some ip => open_inode ip omode
    end
  else
  ip ← namei path;
  match ip with
  | None => end_op;; mret minus1
  | Some ip =>
      ilock (Some ip);;
      type ← iget_ ip i_type;
      if (type =? T_DIR) && negb (omode =? O_RDONLY) then
        iunlockput ip;;
        end_op;;
        mret minus1
      else open_inode ip omode
  end.

Definition sys_mkdir : K Z :=
  begin_op;;
  '(r, path) ← argstr 0 MAXPATH;
  if r <? 0 then end_op;; mret minus1 else
  ip ← create path T_DIR 0 0;
  match ip with
  | None => end_op;; mret minus1
  | Some ip =>
      iunlockput ip;;
      end_op;;
      mret 0
  end.

Definition sys_mknod : K Z :=
  begin_op;;
  '(r, path) ← argstr 0 MAXPATH;
  if r <? 0 then end_op;; mret minus1 else
  major ← argint 1;
  minor ← argint 2;
  ip ← create path T_DEVICE (s16 major) (s16 minor);
  match ip with
  | None => end_op;; mret minus1
  | Some ip =>
      iunlockput ip;;
      end_op;;
      mret 0
  end.

Definition sys_chdir : K Z :=
  p ← myproc;
  begin_op;;
  '(r, path) ← argstr 0 MAXPATH;
  if r <? 0 then end_op;; mret minus1 else
  ip ← namei path;
  match ip with
  | None => end_op;; mret minus1
  | Some ip =>
      ilock (Some ip);;
      type ← iget_ ip i_type;
      if negb (type =? T_DIR) then
        iunlockput ip;;
        end_op;;
        mret minus1
      else
      iunlock (Some ip);;
      p ← deref p;
      cwd ← pget p p_cwd;
      cwd ← deref cwd;
      iput cwd;;
      end_op;;
      pset p (set_p_cwd (Some ip));;
      mret 0
  end.

(** Free the pages of the arguments. *)
Fixpoint free_args (argv : list Z) : K unit :=
  match argv with
  | [] => mret tt
  | a :: argv' => lift (kfree a : M (mstate machine) unit);; free_args argv'
  end.

(** The loop that fetches the arguments: the pages allocated, and whether
    all went well. *)
Definition fetch_args (uargv : Z) : K (bool * list Z) :=
  loop (fun '(i, argv) =>
    if MAXARG <=? i then mret (Done (false, argv)) else
    '(r, uarg) ← fetchaddr (u64 (uargv + 8 * i));
    if r <? 0 then mret (Done (false, argv)) else
    if uarg =? 0 then mret (Done (true, argv)) else
    a ← lift (kalloc : M (mstate machine) Z);
    if a =? 0 then mret (Done (false, argv)) else
    '(r, bs) ← fetchstr uarg PGSIZE;
    kmem_set (fun m => wr_bytes m a bs);;
    if r <? 0 then mret (Done (false, argv ++ [a])) else
    mret (Next (i + 1, argv ++ [a]))) (0, []).

Definition sys_exec : K Z :=
  '(r, path) ← argstr 0 MAXPATH;
  if r <? 0 then mret minus1 else
  uargv ← argaddr 1;
  '(ok, argv) ← fetch_args uargv;
  if negb ok then
    free_args argv;;
    mret minus1
  else
  ret ← exec path argv;
  free_args argv;;
  mret (u64 ret).

(** The error paths of [sys_pipe]: clear descriptors and close both files. *)
Definition pipe_bad (p : Z) (fds : list Z) (rf wf : Z) : K Z :=
  pset p (fun x => set_p_ofile (foldr (fun fd o => <[fd := None]> o) (p_ofile x) fds) x);;
  fileclose rf;;
  fileclose wf;;
  mret minus1.

Definition sys_pipe : K Z :=
  p ← myproc;
  p ← deref p;
  fdarray ← argaddr 0;
  r ← pipealloc;
  match r with
  | None => mret minus1
  | Some (rf, wf) =>
      fd0 ← fdalloc rf;
      if fd0 <? 0 then pipe_bad p [] rf wf else
      fd1 ← fdalloc wf;
      if fd1 <? 0 then pipe_bad p [fd0] rf wf else
      pt ← pget p p_pagetable;
      r ← lift (copyout pt fdarray (int_bytes fd0) 4 : M (mstate machine) Z);
      if r <? 0 then pipe_bad p [fd0; fd1] rf wf else
      r ← lift (copyout pt (u64 (fdarray + 4)) (int_bytes fd1) 4 : M (mstate machine) Z);
      if r <? 0 then pipe_bad p [fd0; fd1] rf wf else
      mret 0
  end.

End code.
