(* ===== verification/Trap.v ===== *)
(** * Traps: [src/kernel/trap.c], [src/kernel/plic.c], [syscall] of
    [src/kernel/syscall.c] and [forkret] of [src/kernel/proc.c] *)

From S2P Require Import Prelude Riscv Spinlock Str Kalloc Vm PageFault ProcVm Kernel Proc Sleeplock Virtio Bio Log Fs Uart Printf Console Pipe File ProcLife Exec Syscall Sysproc Sysfile.

(** ** The interrupt controller *)

Definition UART0_IRQ : Z := 10.
Definition VIRTIO0_IRQ : Z := 1.
Definition PLIC_SENABLE (hart : Z) : Z := PLIC + 0x2080 + hart * 0x100.
Definition PLIC_SPRIORITY (hart : Z) : Z := PLIC + 0x201000 + hart * 0x2000.
Definition PLIC_SCLAIM (hart : Z) : Z := PLIC + 0x201004 + hart * 0x2000.

Definition plic_write (a v : Z) : K unit := modify (fun s => set_plic_out (plic_out s ++ [(a, v)]) s).

Definition plicinit : K unit :=
  plic_write (PLIC + UART0_IRQ * 4) 1;;
  plic_write (PLIC + VIRTIO0_IRQ * 4) 1.

Definition plicinithart : K unit :=
  hart ← lift cpuid;
  plic_write (PLIC_SENABLE hart) (Z.lor (Z.shiftl 1 UART0_IRQ) (Z.shiftl 1 VIRTIO0_IRQ));;
  plic_write (PLIC_SPRIORITY hart) 0.

Definition plic_claim : K Z :=
  irq ← gets (fun s => plic_in s 0%nat);
  modify (fun s => set_plic_in (fun i => plic_in s (S i)) s);;
  mret (s32 irq).

Definition plic_complete (irq : Z) : K unit :=
  hart ← lift cpuid;
  plic_write (PLIC_SCLAIM hart) (u32 irq).

Section code.
Context {LY : Layout} {DEV : BlockDev}.

(** ** System calls *)

(** The table [syscalls]; the numbers are those of [src/kernel/syscall.h]. *)
Definition syscalls (num : Z) : option (K Z) :=
  match num with
  | 1 => Some sys_fork
  | 2 => Some sys_exit
  | 3 => Some sys_wait
  | 4 => Some sys_pipe
  | 5 => Some sys_read
  | 6 => Some sys_kill
  | 7 => Some sys_exec
  | 8 => Some sys_fstat
  | 9 => Some sys_chdir
  | 10 => Some sys_dup
  | 11 => Some sys_getpid
  | 12 => Some sys_sbrk
  | 13 => Some sys_sleep
  | 14 => Some sys_uptime
  | 15 => Some sys_open
  | 16 => Some sys_write
  | 17 => Some sys_mknod
  | 18 => Some sys_unlink
  | 19 => Some sys_link
  | 20 => Some sys_mkdir
  | 21 => Some sys_close
  | _ => None
  end.

Definition syscall : K unit :=
  p ← myproc;
  p ← deref p;
  tf ← pget p p_trapframe;
  num ← tf_get tf TF_a7;
  let num := s32 num in
  match syscalls num with
  | Some f =>
      r ← f;
      tf ← pget p p_trapframe;
      tf_set tf TF_a0 r
  | None =>
      pid ← pget p p_pid;
      name ← pget p p_name;
      printf (chars "%d %s: unknown sys call %d" ++ [10]) [Aint pid; Astr (cstr name 16); Aint num];;
      tf_set tf TF_a0 (u64 (-1))
  end.

(** ** Traps *)

Definition trapinit : K unit := lift (initlock Lticks "time").

Definition trapinithart : K unit := lift (w_stvec kernelvec_addr).

Definition clockintr : K unit :=
  lock Lticks;;
  t ← gets ticks;
  modify (set_ticks (u32 (t + 1)));;
  wakeup Cticks;;
  unlock Lticks.

(** [isr] is what the disk's interrupt status register holds. *)
Definition devintr (isr : Z) : K Z :=
  scause ← lift r_scause;
  if has scause 0x8000000000000000 && (Z.land scause 0xff =? 9) then
    irq ← plic_claim;
    (if irq =? UART0_IRQ then uartintr
     else if irq =? VIRTIO0_IRQ then virtio_disk_intr isr
     else when (negb (irq =? 0)) (printf (chars "unexpected interrupt irq=%d" ++ [10]) [Aint irq]));;
    when (negb (irq =? 0)) (plic_complete irq);;
    mret 1
  else if scause =? 0x8000000000000001 then
    c ← lift cpuid;
    when (c =? 0) clockintr;;
    sip ← lift r_sip;
    lift (w_sip (Z.land sip (Z.lnot 2)));;
    mret 2
  else mret 0.

(** The address jumped to in the trampoline, and its two arguments: the
    trapframe and the value of [satp] for user space. *)
Definition usertrapret : K (Z * Z * Z) :=
  p ← myproc;
  p ← deref p;
  lift (intr_off : M machine unit);;
  lift (w_stvec (TRAMPOLINE + (uservec_addr - trampoline)));;
  satp ← lift r_satp;
  tf ← pget p p_trapframe;
  tf_set tf TF_kernel_satp satp;;
  kstack ← pget p p_kstack;
  tf_set tf TF_kernel_sp (u64 (kstack + PGSIZE));;
  tf_set tf TF_kernel_trap usertrap_addr;;
  hart ← lift cpuid;
  tf_set tf TF_kernel_hartid hart;;
  x ← lift r_sstatus;
  let x := Z.land x (Z.lnot SSTATUS_SPP) in
  let x := Z.lor x SSTATUS_SPIE in
  lift (w_sstatus x);;
  epc ← tf_get tf TF_epc;
  lift (w_sepc epc);;
  pt ← pget p p_pagetable;
  mret (TRAMPOLINE + (userret_addr - trampoline), TRAPFRAME, MAKE_SATP pt).

Definition forkret : K (Z * Z * Z) :=
  p ← myproc;
  p ← deref p;
  unlock (Lproc p);;
  f ← gets first;
  when (negb (f =? 0))
    (modify (set_first 0);;
     fsinit ROOTDEV);;
  usertrapret.

(** The branches of [usertrap] on the cause of the trap: what [devintr]
    returned, 0 where it is not called. *)
Definition usertrap_cause (isr p : Z) : K Z :=
  scause ← lift r_scause;
  if scause =? 8 then
    k ← pget p p_killed;
    when (negb (k =? 0)) (exit (-1));;
    tf ← pget p p_trapframe;
    epc ← tf_get tf TF_epc;
    tf_set tf TF_epc (u64 (epc + 4));;
    lift (intr_on : M machine unit);;
    syscall;;
    mret 0
  else if scause =? 15 then
    stval ← lift r_stval;
    pt ← pget p p_pagetable;
    sz ← pget p p_sz;
    killed ← lift (write_fault pt sz stval : M (mstate machine) bool);
    when killed (pset p (set_p_killed 1));;
    mret 0
  else
    which_dev ← devintr isr;
    if negb (which_dev =? 0) then mret which_dev else
    pid ← pget p p_pid;
    printf (chars "usertrap(): unexpected scause %p pid=%d" ++ [10]) [Aptr scause; Aint pid];;
    sepc ← lift r_sepc;
    stval ← lift r_stval;
    printf (chars "            sepc=%p stval=%p" ++ [10]) [Aptr sepc; Aptr stval];;
    pset p (set_p_killed 1);;
    mret 0.

Definition usertrap (isr : Z) : K (Z * Z * Z) :=
  x ← lift r_sstatus;
  if has x SSTATUS_SPP then panic "usertrap: not from user mode" else
  lift (w_stvec kernelvec_addr);;
  p ← myproc;
  p ← deref p;
  tf ← pget p p_trapframe;
  sepc ← lift r_sepc;
  tf_set tf TF_epc sepc;;
  which_dev ← usertrap_cause isr p;
  k ← pget p p_killed;
  when (negb (k =? 0)) (exit (-1));;
  when (which_dev =? 2) yield;;
  usertrapret.

Definition kerneltrap (isr : Z) : K unit :=
  sepc ← lift r_sepc;
  sst ← lift r_sstatus;
  scause ← lift r_scause;
  if negb (has sst SSTATUS_SPP) then panic "kerneltrap: not from supervisor mode" else
  i ← lift intr_get;
  if (i : bool) then panic "kerneltrap: interrupts enabled" else
  which_dev ← devintr isr;
  if which_dev =? 0 then
    printf (chars "scause %p" ++ [10]) [Aptr scause];;
    sepc ← lift r_sepc;
    stval ← lift r_stval;
    printf (chars "sepc=%p stval=%p" ++ [10]) [Aptr sepc; Aptr stval];;
    panic "kerneltrap"
  else
  p ← myproc;
  (if which_dev =? 2 then
     match p with
     | Some i =>
         st ← pget i p_state;
         when (bool_decide (st = RUNNING)) yield
     | None => mret tt
     end
   else mret tt);;
  lift (w_sepc sepc);;
  lift (w_sstatus sst).

End code.
