(* ===== verification/Boot.v ===== *)
(** * Booting: [src/kernel/start.c], [src/kernel/main.c] and the kernel's own page
    table of [src/kernel/vm.c] *)

From S2P Require Import Prelude Riscv Spinlock Str Kalloc Vm ProcVm Kernel Proc Sleeplock Virtio Bio Log Fs Uart Printf Console File ProcLife Trap.

(** ** Machine mode *)

Definition CLINT : Z := 0x2000000.
Definition CLINT_MTIMECMP (hartid : Z) : Z := CLINT + 0x4000 + 8 * hartid.
Definition CLINT_MTIME : Z := CLINT + 0xBFF8.

(** The control registers of a hart in machine mode, its thread pointer, the
    registers of the CLINT by address, and [timer_scratch]. *)
Record mmode := mkMmode {
  m_csr : csrfile;
  m_tp : Z;
  m_clint : Z -> Z;
  m_scratch : Z -> Z -> Z
}.

#[global] Program Instance mmode_csr : Lens mmode csrfile :=
  {| lget := m_csr; lset f x := mkMmode f (m_tp x) (m_clint x) (m_scratch x) |}.
Next Obligation. done. Qed.
Next Obligation. by intros []. Qed.
Next Obligation. done. Qed.

Definition w_tp (v : Z) : M mmode unit := modify (fun x => mkMmode (m_csr x) (u64 v) (m_clint x) (m_scratch x)).
Definition r_clint (a : Z) : M mmode Z := gets (fun x => m_clint x a).
Definition w_clint (a v : Z) : M mmode unit := modify (fun x => mkMmode (m_csr x) (m_tp x) (<[a := u64 v]> (m_clint x)) (m_scratch x)).
Definition set_scratch (id i v : Z) : M mmode unit :=
  modify (fun x => mkMmode (m_csr x) (m_tp x) (m_clint x) (<[id := <[i := v]> (m_scratch x id)]> (m_scratch x))).

(** [timer_scratch] is at address [scratch]; its rows have five words. *)
Definition timerinit `{Layout} (scratch : Z) : M mmode unit :=
  hartid ← lift r_mhartid;
  let id := s32 hartid in
  let interval := 1000000 in
  t ← r_clint CLINT_MTIME;
  w_clint (CLINT_MTIMECMP id) (t + interval);;
  set_scratch id 3 (CLINT_MTIMECMP id);;
  set_scratch id 4 interval;;
  lift (w_mscratch (scratch + 40 * id));;
  lift (w_mtvec timervec_addr);;
  mstatus ← lift r_mstatus;
  lift (w_mstatus (Z.lor mstatus MSTATUS_MIE));;
  mie ← lift r_mie;
  lift (w_mie (Z.lor mie MIE_MTIE)).

(** Up to the [mret] at its end. *)
Definition start `{Layout} (scratch : Z) : M mmode unit :=
  x ← lift r_mstatus;
  let x := Z.land x (Z.lnot MSTATUS_MPP_MASK) in
  let x := Z.lor x MSTATUS_MPP_S in
  lift (w_mstatus x);;
  lift (w_mepc main_addr);;
  lift (w_satp 0);;
  lift (w_medeleg 0xffff);;
  lift (w_mideleg 0xffff);;
  sie ← lift r_sie;
  lift (w_sie (Z.lor (Z.lor (Z.lor sie SIE_SEIE) SIE_STIE) SIE_SSIE));;
  lift (w_pmpaddr0 0x3fffffffffffff);;
  lift (w_pmpcfg0 0xf);;
  timerinit scratch;;
  hartid ← lift r_mhartid;
  w_tp (s32 hartid).

(** ** The kernel's page table *)

Section code.
Context {LY : Layout} {DEV : BlockDev}.

Definition kvmmake : M (mstate machine) Z :=
  kpgtbl ← kalloc;
  modify_mem (fun m => memset m kpgtbl 0 PGSIZE);;
  kvmmap kpgtbl UART0 UART0 PGSIZE (Z.lor PTE_R PTE_W);;
  kvmmap kpgtbl VIRTIO0 VIRTIO0 PGSIZE (Z.lor PTE_R PTE_W);;
  kvmmap kpgtbl PLIC PLIC 0x400000 (Z.lor PTE_R PTE_W);;
  kvmmap kpgtbl KERNBASE KERNBASE (u64 (etext - KERNBASE)) (Z.lor PTE_R PTE_X);;
  kvmmap kpgtbl etext etext (u64 (PHYSTOP - etext)) (Z.lor PTE_R PTE_W);;
  kvmmap kpgtbl TRAMPOLINE trampoline PGSIZE (Z.lor PTE_R PTE_X);;
  proc_mapstacks kpgtbl;;
  mret kpgtbl.

Definition kvminit : K unit :=
  pt ← lift kvmmake;
  modify (set_kernel_pagetable pt).

(** Translations are not cached in this model, so there is nothing to flush. *)
Definition sfence_vma : K unit := mret tt.

Definition kvminithart : K unit :=
  pt ← gets kernel_pagetable;
  lift (w_satp (MAKE_SATP pt));;
  sfence_vma.

(** [mmio] and [pages] as for [virtio_disk_init], [run] as for [scheduler]. *)
Definition main (mmio : Z -> Z) (pages : Z) (run : Z -> K unit) : K unit :=
  c ← lift cpuid;
  (if c =? 0 then
     consoleinit;;
     printfinit;;
     printf [10] [];;
     printf (chars "xv6 kernel is booting" ++ [10]) [];;
     printf [10] [];;
     lift (kinit : M (mstate machine) unit);;
     kvminit;;
     kvminithart;;
     procinit;;
     trapinit;;
     trapinithart;;
     plicinit;;
     plicinithart;;
     binit;;
     iinit;;
     fileinit;;
     virtio_disk_init mmio pages;;
     userinit;;
     modify (set_started 1)
   else
     loop (fun _ : unit =>
       st ← gets started;
       if st =? 0 then mret (Next tt) else mret (Done tt)) tt;;
     printf (chars "hart %d starting" ++ [10]) [Aint c];;
     kvminithart;;
     trapinithart;;
     plicinithart);;
  scheduler run.

End code.
