(* ===== verification/Asm.v ===== *)
(** * Assembly: [src/kernel/trampoline.S], [src/kernel/kernelvec.S], [src/kernel/swtch.S] and
    [src/kernel/entry.S]

    The instructions these files use, and what they do to the registers of a
    hart. Memory is reached through the address translation in force, which
    [satp] selects. *)

From S2P Require Import Prelude Str.

Module Reg.
Definition ra : Z := 1.
Definition sp : Z := 2.
Definition gp : Z := 3.
Definition tp : Z := 4.
Definition t0 : Z := 5.
Definition t1 : Z := 6.
Definition t2 : Z := 7.
Definition s0 : Z := 8.
Definition s1 : Z := 9.
Definition a0 : Z := 10.
Definition a1 : Z := 11.
Definition a2 : Z := 12.
Definition a3 : Z := 13.
Definition a4 : Z := 14.
Definition a5 : Z := 15.
Definition a6 : Z := 16.
Definition a7 : Z := 17.
Definition s2 : Z := 18.
Definition s3 : Z := 19.
Definition s4 : Z := 20.
Definition s5 : Z := 21.
Definition s6 : Z := 22.
Definition s7 : Z := 23.
Definition s8 : Z := 24.
Definition s9 : Z := 25.
Definition s10 : Z := 26.
Definition s11 : Z := 27.
Definition t3 : Z := 28.
Definition t4 : Z := 29.
Definition t5 : Z := 30.
Definition t6 : Z := 31.
End Reg.

(** The control registers used. *)
Inductive csr : Type := satp | sscratch | mscratch | mhartid | sip.

#[global] Instance csr_eq_dec : EqDecision csr.
Proof. solve_decision. Defined.

Inductive instr : Type :=
| Sd (rs off base : Z)              (* sd rs, off(base) *)
| Ld (rd off base : Z)              (* ld rd, off(base) *)
| Addi (rd rs imm : Z)
| Add (rd rs rt : Z)
| Mul (rd rs rt : Z)
| Li (rd imm : Z)                   (* li, and la with the address *)
| Csrrw (rd : Z) (c : csr) (rs : Z)
| Csrr (rd : Z) (c : csr)
| Csrw (c : csr) (rs : Z)
| Sfence.                           (* sfence.vma: no effect on this state *)

Record regs := mkRegs {
  gpr : Z -> Z;
  csrs : csr -> Z;
  ram : memory
}.

(** riscv.h: the stack pointer and the return address *)
Definition r_sp (s : regs) : Z := gpr s Reg.sp.
Definition r_ra (s : regs) : Z := gpr s Reg.ra.

Section run.
(** Address translation: the physical address of a virtual one under a value
    of [satp]. *)
Variable tr : Z -> Z -> Z.

(** The physical address of [off(base)]. *)
Definition phys (s : regs) (off base : Z) : Z := tr (csrs s satp) (u64 (gpr s base + off)).

Definition set_gpr (r v : Z) (s : regs) : regs := mkRegs (<[r := v]> (gpr s)) (csrs s) (ram s).
Definition set_csr (c : csr) (v : Z) (s : regs) : regs := mkRegs (gpr s) (<[c := v]> (csrs s)) (ram s).

Definition step (i : instr) (s : regs) : regs :=
  match i with
  | Sd rs off base => mkRegs (gpr s) (csrs s) (store64 (ram s) (phys s off base) (gpr s rs))
  | Ld rd off base => set_gpr rd (load64 (ram s) (phys s off base)) s
  | Addi rd rs imm => set_gpr rd (u64 (gpr s rs + imm)) s
  | Add rd rs rt => set_gpr rd (u64 (gpr s rs + gpr s rt)) s
  | Mul rd rs rt => set_gpr rd (u64 (gpr s rs * gpr s rt)) s
  | Li rd imm => set_gpr rd (u64 imm) s
  | Csrrw rd c rs => set_gpr rd (csrs s c) (set_csr c (gpr s rs) s)
  | Csrr rd c => set_gpr rd (csrs s c) s
  | Csrw c rs => set_csr c (gpr s rs) s
  | Sfence => s
  end.

Fixpoint run (l : list instr) (s : regs) : regs :=
  match l with
  | [] => s
  | i :: l' => run l' (step i s)
  end.
End run.

(** [sd] or [ld] of each register of a table to its offset. *)
Definition saves (frame : list (Z * Z)) (base : Z) : list instr := (fun '(r, off) => Sd r off base) <$> frame.
Definition loads (frame : list (Z * Z)) (base : Z) : list instr := (fun '(r, off) => Ld r off base) <$> frame.

Section code.
Import Reg.

(** ** [src/kernel/trampoline.S] *)

(** Where the user registers are in [struct trapframe], [a0] apart. *)
Definition user_frame : list (Z * Z) :=
  [(ra, 40); (sp, 48); (gp, 56); (tp, 64); (t0, 72); (t1, 80); (t2, 88); (s0, 96); (s1, 104);
   (a1, 120); (a2, 128); (a3, 136); (a4, 144); (a5, 152); (a6, 160); (a7, 168);
   (s2, 176); (s3, 184); (s4, 192); (s5, 200); (s6, 208); (s7, 216); (s8, 224); (s9, 232);
   (s10, 240); (s11, 248); (t3, 256); (t4, 264); (t5, 272); (t6, 280)].

(** Up to the final [jr t0]. *)
Definition uservec : list instr :=
  [Csrrw a0 sscratch a0] ++
  saves user_frame a0 ++
  [Csrr t0 sscratch;
   Sd t0 112 a0;
   Ld sp 8 a0;
   Ld tp 32 a0;
   Ld t0 16 a0;
   Ld t1 0 a0;
   Csrw satp t1;
   Sfence].

(** Up to the final [sret]. *)
Definition userret : list instr :=
  [Csrw satp a1;
   Sfence;
   Ld t0 112 a0;
   Csrw sscratch t0] ++
  loads user_frame a0 ++
  [Csrrw a0 sscratch a0].

(** ** [src/kernel/kernelvec.S] *)

Definition kernel_frame : list (Z * Z) :=
  [(ra, 0); (sp, 8); (gp, 16); (tp, 24); (t0, 32); (t1, 40); (t2, 48); (s0, 56); (s1, 64);
   (a0, 72); (a1, 80); (a2, 88); (a3, 96); (a4, 104); (a5, 112); (a6, 120); (a7, 128);
   (s2, 136); (s3, 144); (s4, 152); (s5, 160); (s6, 168); (s7, 176); (s8, 184); (s9, 192);
   (s10, 200); (s11, 208); (t3, 216); (t4, 224); (t5, 232); (t6, 240)].

(** Before and after [call kerneltrap]; [tp] is not restored. *)
Definition kernelvec_enter : list instr :=
  [Addi sp sp (-256)] ++ saves kernel_frame sp.

Definition kernelvec_leave : list instr :=
  loads (filter (fun p => fst p <> tp) kernel_frame) sp ++ [Addi sp sp 256].

(** Up to the final [mret]. *)
Definition timervec : list instr :=
  [Csrrw a0 mscratch a0;
   Sd a1 0 a0;
   Sd a2 8 a0;
   Sd a3 16 a0;
   Ld a1 24 a0;
   Ld a2 32 a0;
   Ld a3 0 a1;
   Add a3 a3 a2;
   Sd a3 0 a1;
   Li a1 2;
   Csrw sip a1;
   Ld a3 16 a0;
   Ld a2 8 a0;
   Ld a1 0 a0;
   Csrrw a0 mscratch a0].

(** ** [src/kernel/swtch.S] *)

(** [struct context] *)
Definition context_frame : list (Z * Z) :=
  [(ra, 0); (sp, 8); (s0, 16); (s1, 24); (s2, 32); (s3, 40); (s4, 48); (s5, 56); (s6, 64);
   (s7, 72); (s8, 80); (s9, 88); (s10, 96); (s11, 104)].

(** Up to the final [ret]. *)
Definition swtch_code : list instr := saves context_frame a0 ++ loads context_frame a1.

(** ** [src/kernel/entry.S] *)

(** Up to [call start]; [stack0] is the address of the stacks. *)
Definition entry (stack0 : Z) : list instr :=
  [Li sp stack0;
   Li a0 (1024 * 4);
   Csrr a1 mhartid;
   Addi a1 a1 1;
   Mul a0 a0 a1;
   Add sp sp a0].
End code.
