(* ===== verification/KernelWp.v ===== *)
(** * Rules for kernel code that does not sleep

    Total-correctness rules for the locks, [myproc], [wakeup] and the sleep
    locks in the state of the whole kernel. Each rule names the state that is
    left as the state before with some fields replaced, so that everything
    else is unchanged by computation. *)

From Stdlib Require Import FunctionalExtensionality.
From S2P Require Import Prelude Riscv Spinlock Str Kalloc Kernel Proc Sleeplock.

(** The state with another hart. *)
Definition hk (h : machine) (s : kernel) : kernel := set_ms (set_hart h (ms s)) s.

(** Hart [c] holds exactly the spin locks [hl], and no other hart holds one. *)
Definition hon (c : Z) (hl : list lockid) (h : machine) : Prop := mrep h hl /\ tp h = c.

Abbreviation khart s := (hart (ms s)).

Create HintDb kernel.

(** [lk ∉ hl] for a list with known elements. *)
Ltac notin :=
  repeat first
    [ assumption
    | apply not_elem_of_nil
    | apply not_elem_of_cons; split; [congruence|] ].
#[export] Hint Extern 1 (_ ∉ _) => notin : kernel.

Section rules.
Context {n : nat} {c : Z}.

Lemma wp_lock lk s hl Q :
  (0 < n)%nat -> hon c hl (khart s) -> lk ∉ hl ->
  (forall h, hon c (lk :: hl) h -> Q tt (hk h s)) -> wp (lock lk) n s Q.
Proof.
  intros Hn [Hr Ht] Hl HQ. apply wp_lift. cbn [lget kernel_hart].
  destruct (acquire_mrep lk n _ hl Hn Hr Hl) as (h' & E & Hr' & Ht').
  unfold wp, acquire. cbn. rewrite E. apply HQ. split; [done|congruence].
Qed.

Lemma wp_unlock lk s hl Q :
  hon c (lk :: hl) (khart s) ->
  (forall h, hon c hl h -> Q tt (hk h s)) -> wp (unlock lk) n s Q.
Proof.
  intros [Hr Ht] HQ. apply wp_lift. cbn [lget kernel_hart].
  destruct (release_mrep lk n _ hl Hr) as (h' & E & Hr' & Ht').
  unfold wp, release. cbn. rewrite E. apply HQ. split; [done|congruence].
Qed.

Lemma hon_perm hl hl' h : hl ≡ₚ hl' -> hon c hl h -> hon c hl' h.
Proof. intros Hp [Hr Ht]. split; [|done]. by eapply mrep_perm. Qed.

Lemma wp_initlock lk name s hl Q :
  hon c hl (khart s) -> lk ∉ hl ->
  (forall h, hon c hl h -> Q tt (hk h s)) -> wp (lift (initlock lk name) : K unit) n s Q.
Proof.
  intros [Hr Ht] Hl HQ. apply wp_lift. cbn [lget kernel_hart].
  destruct (initlock_mrep lk name n _ hl Hr Hl) as (h' & E & Hr' & Ht').
  unfold wp. rewrite E. apply HQ. split; [done|congruence].
Qed.

Lemma wp_cpuid s hl Q :
  hon c hl (khart s) -> Q c s -> wp (lift cpuid : K Z) n s Q.
Proof.
  intros [_ <-] HQ. apply wp_lift, wp_gets. cbn [lget lset kernel_hart].
  change (set_ms (set_hart (khart s) (ms s)) s) with (lset (T := machine) (lget s) s). by rewrite lset_lget.
Qed.

(** [push_off] and [pop_off] around code that leaves the hart alone: after
    the [push_off] there is a hart from which [pop_off] gives back [hl]. *)
Definition pushed (hl : list lockid) (h : machine) : Prop :=
  tp h = c /\ exists h', pop_off n h = Ret tt h' /\ hon c hl h'.

Lemma wp_push_off s hl Q :
  hon c hl (khart s) ->
  (forall h, pushed hl h -> Q tt (hk h s)) -> wp (lift push_off : K unit) n s Q.
Proof.
  intros [Hr Ht] HQ. destruct (push_pop_mrep n _ _ Hr) as (h1 & h2 & E1 & E2 & T1 & T2 & R2).
  apply wp_lift. unfold wp. cbn [lget kernel_hart]. rewrite E1. apply HQ.
  split; [congruence|]. exists h2. split; [done|]. split; [done|congruence].
Qed.

Lemma wp_pop_off s hl Q :
  pushed hl (khart s) ->
  (forall h, hon c hl h -> Q tt (hk h s)) -> wp (lift pop_off : K unit) n s Q.
Proof.
  intros [_ (h' & E & Hh)] HQ. apply wp_lift. unfold wp. cbn [lget kernel_hart]. rewrite E. by apply HQ.
Qed.

Lemma wp_myproc s hl Q :
  hon c hl (khart s) ->
  (forall h, hon c hl h -> Q (cpu_proc s c) (hk h s)) -> wp myproc n s Q.
Proof.
  intros Hh HQ. unfold myproc. apply wp_bind. eapply wp_push_off; [done|]. intros h1 H1.
  apply wp_bind, wp_lift, wp_gets. cbn [lget lset kernel_hart].
  apply wp_bind, wp_gets, wp_bind. eapply wp_pop_off; [done|]. intros h2 H2.
  cbn [ms hart set_ms set_hart hk]. rewrite (proj1 H1). by apply (HQ h2).
Qed.

(** ** wakeup *)

(** What [wakeup(ch)] by process [me] does to the table, up to entry [k]. *)
Definition woken (ch : chan) (me : option Z) (k : Z) (ps : Z -> proc) (p : Z) : proc :=
  if bool_decide (0 <= p < k) && bool_decide (me <> Some p) &&
     (bool_decide (p_state (ps p) = SLEEPING) && bool_decide (p_chan (ps p) = ch))
  then set_p_state RUNNABLE (ps p) else ps p.

Lemma woken_0 ch me ps : woken ch me 0 ps = ps.
Proof.
  apply functional_extensionality. intros p. unfold woken. by rewrite bool_decide_false by lia.
Qed.

Lemma woken_skip ch me k ps :
  (bool_decide (me <> Some k) && (bool_decide (p_state (ps k) = SLEEPING) && bool_decide (p_chan (ps k) = ch))) = false ->
  woken ch me (k + 1) ps = woken ch me k ps.
Proof.
  intros Hf. apply functional_extensionality. intros p. unfold woken.
  destruct (decide (p = k)) as [->|].
  - rewrite <-!andb_assoc, Hf, !andb_false_r. done.
  - by rewrite (bool_decide_ext (0 <= p < k + 1) (0 <= p < k)) by lia.
Qed.

Lemma woken_wake ch me k ps :
  0 <= k -> me <> Some k -> p_state (ps k) = SLEEPING -> p_chan (ps k) = ch ->
  woken ch me (k + 1) ps = <[k := set_p_state RUNNABLE (woken ch me k ps k)]> (woken ch me k ps).
Proof.
  intros H0 Hme Hst Hch. apply functional_extensionality. intros p. rewrite fn_insert_spec.
  destruct (decide (k = p)) as [<-|].
  - unfold woken. rewrite Hst, Hch, !bool_decide_true by first [lia|done].
    by rewrite (bool_decide_false (0 <= k < k)) by lia.
  - unfold woken. by rewrite (bool_decide_ext (0 <= p < k + 1) (0 <= p < k)) by lia.
Qed.

Lemma woken_at ch me k ps : woken ch me k ps k = ps k.
Proof. unfold woken. by rewrite bool_decide_false by lia. Qed.

Lemma wp_wakeup ch s hl Q :
  (0 < n)%nat -> hon c hl (khart s) ->
  (forall p, cpu_proc s c <> Some p -> Lproc p ∉ hl) ->
  (forall h, hon c hl h -> Q tt (set_procs (woken ch (cpu_proc s c) NPROC (procs s)) (hk h s))) ->
  wp (wakeup ch) n s Q.
Proof.
  intros Hn Hh Hl HQ. unfold wakeup. apply wp_bind.
  apply (wp_for (fun k s' => exists h, hon c hl h /\
    s' = set_procs (woken ch (cpu_proc s c) k (procs s)) (hk h s))).
  - exists (khart s). split; [done|]. rewrite woken_0. by destruct s as [[]].
  - intros p s' Hp (h & Hh' & ->). apply wp_bind. eapply wp_myproc; [done|]. intros h1 H1.
    cbn [cpu_proc set_procs hk set_ms]. apply wp_bind. unfold wake_steps. case_decide as Hme; cbn [seqs].
    { apply wp_bind, wp_ret, wp_ret, wp_ret. exists h1. split; [done|]. rewrite woken_skip; [done|].
      by rewrite bool_decide_false by (intros Hne; by apply Hne). }
    apply wp_bind. eapply wp_lock; [done|done|by apply Hl|]. intros h2 H2. apply wp_bind.
    unfold wake, pget, pset. wp_steps; cbn [procs set_procs hk set_ms]; rewrite woken_at; intros Hb.
    + apply wp_modify, wp_bind. eapply wp_unlock; [done|]. intros h3 H3. apply wp_ret, wp_ret.
      exists h3. split; [done|]. apply andb_true_iff in Hb as [Hs Hc].
      apply bool_decide_eq_true in Hs, Hc. rewrite (woken_wake ch _ p) by (done || lia).
      reflexivity.
    + apply wp_bind. eapply wp_unlock; [done|]. intros h3 H3. apply wp_ret, wp_ret. exists h3. split; [done|].
      rewrite woken_skip; [done|]. by rewrite Hb, andb_false_r.
  - intros s' (h & Hh' & ->). apply wp_ret. by apply HQ.
Qed.

(** All that callers that only look at processes' identities need: some
    sleeping processes became runnable. *)
Definition woke (ps ps' : Z -> proc) : Prop :=
  forall p, ps' p = ps p \/ (p_state (ps p) = SLEEPING /\ ps' p = set_p_state RUNNABLE (ps p)).

End rules.

Lemma woken_woke ch me k ps : woke ps (woken ch me k ps).
Proof.
  intros p. unfold woken. destruct (_ && _) eqn:E; [|by left]. right. split; [|done].
  apply andb_true_iff in E as [_ E]. apply andb_true_iff in E as [E _]. by apply bool_decide_eq_true in E.
Qed.

#[global] Instance woke_preorder : PreOrder woke.
Proof.
  split; [by left|]. intros ps1 ps2 ps3 H1 H2 p.
  destruct (H1 p) as [E1|[S1 E1]], (H2 p) as [E2|[S2 E2]]; rewrite E2.
  - by left.
  - right. rewrite E1 in *. done.
  - right. by rewrite E1.
  - rewrite E1 in S2. done.
Qed.

Lemma woke_pid ps ps' p : woke ps ps' -> p_pid (ps' p) = p_pid (ps p).
Proof. intros Hw. destruct (Hw p) as [->|[_ ->]]; done. Qed.

(** ** Sleep locks that are free *)

Lemma sl_get_hk lk h s : sl_get lk (hk h s) = sl_get lk s.
Proof. by destruct lk. Qed.

Lemma sl_set_hk lk v h s : sl_set lk v (hk h s) = hk h (sl_set lk v s).
Proof. by destruct lk. Qed.

Lemma sl_set_khart lk v s : khart (sl_set lk v s) = khart s.
Proof. by destruct lk. Qed.

Lemma sl_set_cpu_proc lk v s : cpu_proc (sl_set lk v s) = cpu_proc s.
Proof. by destruct lk. Qed.

Lemma sl_set_procs lk v s : procs (sl_set lk v s) = procs s.
Proof. by destruct lk. Qed.

Lemma hk_hk h h' s : hk h (hk h' s) = hk h s.
Proof. done. Qed.

Section sleeplocks.
Context {n : nat} {c me : Z}.

Lemma wp_acquiresleep lk s hl Q :
  (0 < n)%nat -> hon c hl (khart s) -> sl_spin lk ∉ hl -> cpu_proc s c = Some me ->
  sl_locked (sl_get lk s) = 0 ->
  (forall h, hon c hl h ->
     Q tt (hk h (sl_set lk (mkSleep 1 (sl_name (sl_get lk s)) (p_pid (procs s me))) s))) ->
  wp (acquiresleep lk) n s Q.
Proof.
  intros Hn Hh Hl Hme Hfree HQ. unfold acquiresleep.
  apply wp_bind. eapply wp_lock; [done..|]. intros h1 H1.
  apply wp_bind, wp_loop_once; [done|]. apply wp_bind, wp_gets. rewrite sl_get_hk, Hfree.
  cbn [Z.eqb]. apply wp_ret.
  apply wp_bind. eapply wp_myproc; [done|]. intros h2 H2. cbn [cpu_proc hk set_ms]. rewrite Hme.
  unfold deref, pget. wp_steps. rewrite !hk_hk, sl_get_hk, sl_set_hk.
  eapply wp_unlock; [rewrite ?sl_set_khart; exact H2|]. intros h3 H3. rewrite hk_hk. by apply HQ.
Qed.

Lemma wp_releasesleep lk s hl Q :
  (0 < n)%nat -> hon c hl (khart s) -> sl_spin lk ∉ hl -> (forall p, Lproc p ∉ hl) ->
  (forall h ps, hon c hl h -> woke (procs s) ps ->
     Q tt (set_procs ps (hk h (sl_set lk (mkSleep 0 (sl_name (sl_get lk s)) 0) s)))) ->
  wp (releasesleep lk) n s Q.
Proof.
  intros Hn Hh Hl Hp HQ. unfold releasesleep.
  apply wp_bind. eapply wp_lock; [done..|]. intros h1 H1.
  wp_steps. rewrite sl_get_hk, sl_set_hk.
  eapply wp_wakeup; [done|rewrite ?sl_set_khart; exact H1| |].
  { intros p _. apply not_elem_of_cons. split; [by destruct lk|apply Hp]. }
  intros h2 H2. eapply wp_unlock; [exact H2|]. intros h3 H3.
  apply HQ; [done|]. cbn [hk procs set_ms cpu_proc]. rewrite sl_set_procs. apply woken_woke.
Qed.

Lemma wp_holdingsleep lk s hl Q :
  (0 < n)%nat -> hon c hl (khart s) -> sl_spin lk ∉ hl -> cpu_proc s c = Some me ->
  (forall h, hon c hl h ->
     Q (negb (sl_locked (sl_get lk s) =? 0) && (sl_pid (sl_get lk s) =? p_pid (procs s me))) (hk h s)) ->
  wp (holdingsleep lk) n s Q.
Proof.
  intros Hn Hh Hl Hme HQ. unfold holdingsleep.
  apply wp_bind. eapply wp_lock; [done..|]. intros h1 H1.
  apply wp_bind, wp_gets. rewrite sl_get_hk. apply wp_bind.
  destruct (sl_locked (sl_get lk s) =? 0); cbn [negb andb] in HQ.
  - apply wp_ret. wp_steps. eapply wp_unlock; [done|]. intros h2 H2. by apply HQ.
  - apply wp_bind. eapply wp_myproc; [done|]. intros h2 H2. cbn [cpu_proc hk set_ms]. rewrite Hme.
    unfold deref, pget. wp_steps. eapply wp_unlock; [done|]. intros h3 H3. by apply HQ.
Qed.

End sleeplocks.

(** ** The running process *)

(** Process [me] runs on hart [c], which holds the spin locks [hl]. *)
Record runs (c me : Z) (hl : list lockid) (s : kernel) : Prop := {
  r_hart : hon c hl (khart s);
  r_me : cpu_proc s c = Some me;
  r_state : p_state (procs s me) = RUNNING;
  r_chan : p_chan (procs s me) = Cnone
}.

Lemma woke_running ps ps' p : woke ps ps' -> p_state (ps p) = RUNNING -> ps' p = ps p.
Proof. intros Hw Hr. destruct (Hw p) as [?|[Hs _]]; [done|congruence]. Qed.

Lemma woke_me ps ps' p : woke ps ps' -> p_pid (ps' p) = p_pid (ps p).
Proof. apply woke_pid. Qed.

(** Reading a variable of the log. *)
Lemma wp_lgget {A} (f : log -> A) n s Q : Q (f (klog s)) s -> wp (lgget f) n s Q.
Proof. done. Qed.
