(* ===== verification/Ring.v ===== *)
(** * The ring of buffers

    The doubly linked ring through [b_next] and [b_prev] that [src/kernel/bio.c]
    keeps, as the list of the buffers in it, most recently used first. *)

From Stdlib Require Import FunctionalExtensionality.
From S2P Require Import Prelude Riscv Spinlock Str Kalloc Kernel Proc Sleeplock Bio.

Definition isbuf (b : Z) : Prop := 0 <= b < NBUF.

(** [x] comes right before [y] in [l]. *)
Definition adj (l : list Z) (x y : Z) : Prop := exists l1 l2, l = l1 ++ x :: y :: l2.

(** The two pointers of each entry, as functions. *)
Definition linked (nx pv : Z -> Z) (l : list Z) : Prop :=
  forall x y, adj (HEAD :: l ++ [HEAD]) x y -> nx x = y /\ pv y = x.

Definition nexts (B : Z -> buf) : Z -> Z := fun b => b_next (B b).
Definition prevs (B : Z -> buf) : Z -> Z := fun b => b_prev (B b).

(** The ring of all the buffers, in the order of [l]. *)
Record ring (B : Z -> buf) (l : list Z) : Prop := {
  ring_linked : linked (nexts B) (prevs B) l;
  ring_nodup : NoDup l;
  ring_all : forall b, b ∈ l <-> isbuf b
}.

(** ** Adjacent elements *)

Lemma adj_cons a l x y : adj (a :: l) x y <-> (a = x /\ head l = Some y) \/ adj l x y.
Proof.
  split.
  - intros (l1 & l2 & E). destruct l1 as [|z l1]; simplify_eq/=; [by left|].
    right. by exists l1, l2.
  - intros [[-> Hh]|(l1 & l2 & ->)].
    + destruct l as [|z l]; simplify_eq/=. by exists [], l.
    + by exists (a :: l1), l2.
Qed.

Lemma adj_app l l' x y :
  adj (l ++ l') x y <-> adj l x y \/ adj l' x y \/ (last l = Some x /\ head l' = Some y).
Proof.
  induction l as [|a l IH]; simpl.
  - split; [by right; left|]. intros [(l1 & l2 & E)|[?|[? _]]]; [by destruct l1|done|done].
  - rewrite !adj_cons, IH. destruct l as [|b l]; simpl.
    + split.
      * intros [[-> ?]|[?|[?|[? ?]]]]; try done; [by right; right|by left; right|by right; left].
      * intros [[[? ?]|?]|[?|[? ?]]]; simplify_eq; [by right; left|by right; right; left|by left].
    + tauto.
Qed.

Lemma adj_elem l x y : adj l x y -> x ∈ l /\ y ∈ l.
Proof.
  intros (l1 & l2 & ->). rewrite !elem_of_app, !elem_of_cons. split; [by right; left|by right; right; left].
Qed.

Lemma adj_not_last l x y : NoDup l -> adj l x y -> last l <> Some x.
Proof.
  intros Hnd (l1 & l2 & ->) Hx. apply last_Some in Hx as [l' E].
  rewrite NoDup_app, NoDup_cons in Hnd. destruct Hnd as (_ & _ & Hn & _). apply Hn.
  destruct (exists_last (l := y :: l2)) as (l3 & z & E3); [done|]. rewrite E3 in *.
  rewrite app_comm_cons, app_assoc in E. apply app_inj_tail in E as [_ ->].
  apply elem_of_app. right. apply list_elem_of_here.
Qed.

Lemma adj_not_head l x y : NoDup l -> adj l x y -> head l <> Some y.
Proof.
  intros Hnd (l1 & l2 & ->) Hy. destruct l1 as [|z l1]; simplify_eq/=.
  - apply NoDup_cons in Hnd as [Hn _]. apply Hn, list_elem_of_here.
  - apply NoDup_cons in Hnd as [Hn _]. apply Hn. apply elem_of_app. right. right. apply list_elem_of_here.
Qed.

(** ** Walking the ring *)

Section walk.
Context (nx pv : Z -> Z).

Lemma linked_next l l1 x l2 :
  linked nx pv l -> HEAD :: l = l1 ++ x :: l2 -> nx x = default HEAD (head l2).
Proof.
  intros Hl E. apply (Hl x). change (HEAD :: l ++ [HEAD]) with ((HEAD :: l) ++ [HEAD]). rewrite E.
  destruct l2 as [|y l2]; simpl.
  - exists l1, []. by rewrite <-app_assoc.
  - exists l1, (l2 ++ [HEAD]). by rewrite <-app_assoc.
Qed.

Lemma linked_prev l l1 x l2 :
  linked nx pv l -> l ++ [HEAD] = l1 ++ x :: l2 -> pv x = default HEAD (last l1).
Proof.
  intros Hl E. apply (Hl _ x). rewrite E.
  destruct (last l1) as [y|] eqn:Hy; simpl.
  - apply last_Some in Hy as [l1' ->]. exists (HEAD :: l1'), l2. simpl. by rewrite <-app_assoc.
  - apply last_None in Hy as ->. by exists [], l2.
Qed.

(** ** Changing the ring *)

Lemma linked_ext nx' pv' l :
  (forall x, x ∈ HEAD :: l -> nx' x = nx x) -> (forall x, x ∈ HEAD :: l -> pv' x = pv x) ->
  linked nx pv l -> linked nx' pv' l.
Proof.
  intros Hn Hp Hl x y Ha. destruct (Hl x y Ha) as [E1 E2]. apply adj_elem in Ha as [Hx Hy].
  assert (forall z, z ∈ HEAD :: l ++ [HEAD] -> z ∈ HEAD :: l) as Hin.
  { intros z. rewrite !elem_of_cons, elem_of_app, list_elem_of_singleton. tauto. }
  by rewrite Hn, Hp by (by apply Hin).
Qed.

(** Unlinking [b] takes it out of the list. *)
Lemma linked_unlink l1 b l2 :
  linked nx pv (l1 ++ b :: l2) -> NoDup (HEAD :: l1 ++ b :: l2) ->
  linked (<[pv b := nx b]> nx) (<[nx b := pv b]> pv) (l1 ++ l2).
Proof.
  intros Hl Hnd.
  assert (nx b = default HEAD (head l2)) as En by by eapply (linked_next _ (HEAD :: l1)).
  assert (pv b = default HEAD (last l1)) as Ep.
  { eapply (linked_prev _ l1 b (l2 ++ [HEAD])); [done|]. by rewrite <-app_assoc. }
  assert (last (HEAD :: l1) = Some (pv b)) as Hlast by (rewrite Ep, last_cons; by destruct (last l1)).
  assert (head (l2 ++ [HEAD]) = Some (nx b)) as Hhead by (rewrite En; by destruct l2).
  apply NoDup_cons in Hnd as [Hd Hnd]. rewrite NoDup_app, NoDup_cons in Hnd.
  destruct Hnd as (N1 & Hdis & Hb & N2).
  assert ((HEAD ∉ l1) /\ (HEAD ∉ l2)) as [D1 D2].
  { rewrite elem_of_app, elem_of_cons in Hd. tauto. }
  assert (NoDup (HEAD :: l1)) as N1' by by constructor.
  assert (NoDup (l2 ++ [HEAD])) as N2'.
  { apply NoDup_app. split; [done|]. split; [|apply NoDup_singleton]. by intros z Hz ->%list_elem_of_singleton. }
  intros x y. rewrite <-app_assoc.
  change (HEAD :: l1 ++ l2 ++ [HEAD]) with ((HEAD :: l1) ++ (l2 ++ [HEAD])).
  rewrite adj_app. rewrite !fn_insert_spec. intros Ha.
  assert (adj (HEAD :: l1) x y \/ adj (l2 ++ [HEAD]) x y -> nx x = y /\ pv y = x) as Hold.
  { intros Ha'. apply Hl. rewrite <-app_assoc. simpl.
    change (HEAD :: l1 ++ b :: l2 ++ [HEAD]) with ((HEAD :: l1) ++ (b :: l2 ++ [HEAD])).
    apply adj_app. destruct Ha' as [?|?]; [by left|right; left]. apply adj_cons. by right. }
  destruct Ha as [Ha|[Ha|[Hx Hy]]].
  - destruct Hold as [<- E2]; [by left|].
    pose proof (adj_not_last _ _ _ N1' Ha). pose proof (adj_not_head _ _ _ N1' Ha) as Hyh.
    case_decide as E1; [congruence|]. case_decide as E; [exfalso|done].
    apply adj_elem in Ha as [_ Hy]. rewrite <-E in Hy, Hyh.
    rewrite En in Hy, Hyh. destruct l2 as [|z l2]; cbn in Hy, Hyh; [done|].
    apply elem_of_cons in Hy as [->|Hy]; [apply D2, list_elem_of_here|].
    apply (Hdis z Hy). right. apply list_elem_of_here.
  - destruct Hold as [<- E2]; [by right|].
    pose proof (adj_not_head _ _ _ N2' Ha). pose proof (adj_not_last _ _ _ N2' Ha) as Hxl.
    rewrite last_snoc in Hxl.
    case_decide as E; [exfalso|case_decide as E1; [congruence|done]].
    apply adj_elem in Ha as [Hx _]. apply last_Some in Hlast as [l' El].
    assert (pv b ∈ HEAD :: l1) as Hp by (rewrite El; apply elem_of_app; right; apply list_elem_of_here).
    rewrite E in Hp. rewrite elem_of_app, list_elem_of_singleton in Hx.
    assert (x <> HEAD) by congruence. apply elem_of_cons in Hp as [?|Hp]; [done|].
    destruct Hx as [Hx|?]; [|done]. apply (Hdis x Hp). by right.
  - rewrite Hlast in Hx. rewrite Hhead in Hy. simplify_eq. by rewrite !decide_True.
Qed.

(** Linking [b] in after the head. *)
Lemma linked_push b l :
  linked nx pv l -> NoDup (HEAD :: b :: l) ->
  linked (<[HEAD := b]> (<[b := nx HEAD]> nx)) (<[nx HEAD := b]> (<[b := HEAD]> pv)) (b :: l).
Proof.
  intros Hl Hnd.
  assert (nx HEAD = default HEAD (head l)) as En by by eapply (linked_next _ []).
  apply NoDup_cons in Hnd as [Hd Hnd]. apply NoDup_cons in Hnd as [Hb Hnd].
  assert (b <> HEAD /\ (HEAD ∉ l)) as [Hbh D].
  { rewrite elem_of_cons in Hd. split; [intros ->|]; tauto. }
  assert (head (l ++ [HEAD]) = Some (nx HEAD)) as Hhead by (rewrite En; by destruct l).
  assert (NoDup (l ++ [HEAD])) as N2.
  { apply NoDup_app. split; [done|]. split; [|apply NoDup_singleton]. by intros z Hz ->%list_elem_of_singleton. }
  intros x y. simpl. rewrite !adj_cons. simpl. rewrite !fn_insert_spec.
  intros [[<- [=<-]]|[[<- Hy]|Ha]].
  - rewrite decide_True by done. split; [done|].
    destruct (decide (nx HEAD = b)) as [E|]; [|by rewrite decide_True].
    exfalso. rewrite En in E. destruct l as [|z l]; cbn in E; [done|]. subst z. apply Hb, list_elem_of_here.
  - rewrite decide_False, decide_True by done. rewrite Hhead in Hy. simplify_eq. by rewrite decide_True.
  - pose proof (adj_not_head _ _ _ N2 Ha) as H1. pose proof (adj_not_last _ _ _ N2 Ha) as H2.
    rewrite last_snoc in H2. destruct (Hl x y) as [<- E2]; [apply adj_cons; by right|].
    apply adj_elem in Ha as [Hx Hy].
    assert (b ∉ l ++ [HEAD]) as Hbl.
    { rewrite elem_of_app, list_elem_of_singleton. tauto. }
    assert (x <> b) by congruence. assert (nx x <> b) by congruence.
    rewrite !decide_False by congruence. done.
Qed.
End walk.

(** ** The pointers after an assignment to one of them *)

Lemma nexts_set_next B a v : nexts (<[a := set_b_next v (B a)]> B) = <[a := v]> (nexts B).
Proof.
  apply functional_extensionality. intros x. unfold nexts. rewrite !fn_insert_spec. by case_decide.
Qed.
Lemma nexts_set_prev B a v : nexts (<[a := set_b_prev v (B a)]> B) = nexts B.
Proof.
  apply functional_extensionality. intros x. unfold nexts. rewrite !fn_insert_spec. case_decide; by subst.
Qed.
Lemma prevs_set_prev B a v : prevs (<[a := set_b_prev v (B a)]> B) = <[a := v]> (prevs B).
Proof.
  apply functional_extensionality. intros x. unfold prevs. rewrite !fn_insert_spec. by case_decide.
Qed.
Lemma prevs_set_next B a v : prevs (<[a := set_b_next v (B a)]> B) = prevs B.
Proof.
  apply functional_extensionality. intros x. unfold prevs. rewrite !fn_insert_spec. case_decide; by subst.
Qed.

Create Rewrite HintDb ring.
#[export] Hint Rewrite nexts_set_next nexts_set_prev prevs_set_prev prevs_set_next : ring.

(** Everything of a buffer but its place in the ring. *)
Definition same_body (x y : buf) : Prop :=
  b_valid x = b_valid y /\ b_disk x = b_disk y /\ b_dev x = b_dev y /\ b_blockno x = b_blockno y /\
  b_lock x = b_lock y /\ b_refcnt x = b_refcnt y /\ b_data x = b_data y.

#[global] Instance same_body_preorder : PreOrder same_body.
Proof. split; [done|]. intros x y z. unfold same_body. intuition congruence. Qed.

Lemma same_body_next (B : Z -> buf) a v x : same_body (<[a := set_b_next v (B a)]> B x) (B x).
Proof. rewrite fn_insert_spec. case_decide; by subst. Qed.
Lemma same_body_prev (B : Z -> buf) a v x : same_body (<[a := set_b_prev v (B a)]> B x) (B x).
Proof. rewrite fn_insert_spec. case_decide; by subst. Qed.

(** What [brelse] does to the table to move [b] to the front. *)
Definition moved (b : Z) (B : Z -> buf) : Z -> buf :=
  let nxt := nexts B b in
  let prv := prevs B b in
  let B := <[nxt := set_b_prev prv (B nxt)]> B in
  let B := <[prv := set_b_next nxt (B prv)]> B in
  let nx := nexts B HEAD in
  let B := <[b := set_b_next nx (B b)]> B in
  let B := <[b := set_b_prev HEAD (B b)]> B in
  let B := <[nx := set_b_prev b (B nx)]> B in
  <[HEAD := set_b_next b (B HEAD)]> B.

Lemma moved_body b B x : same_body (moved b B x) (B x).
Proof.
  unfold moved. repeat (etrans; [apply same_body_next || apply same_body_prev|]). done.
Qed.

(** The released buffer is now the most recently used one. *)
Lemma moved_ring b B l1 l2 : ring B (l1 ++ b :: l2) -> ring (moved b B) (b :: l1 ++ l2).
Proof.
  intros [Hl Hnd Hall].
  assert (HEAD ∉ l1 ++ b :: l2) as Hh by (intros Hin; apply Hall in Hin; unfold isbuf, HEAD in Hin; lia).
  assert (NoDup (HEAD :: l1 ++ b :: l2)) as Hnd' by by constructor.
  assert (b :: l1 ++ l2 ≡ₚ l1 ++ b :: l2) as Hp by apply Permutation_middle.
  split.
  - pose proof (linked_unlink _ _ l1 b l2 Hl Hnd') as H1.
    apply (linked_push _ _ b) in H1; [|by rewrite Hp].
    unfold moved. by autorewrite with ring.
  - by rewrite Hp.
  - intros x. by rewrite Hp.
Qed.
