(* ===== verification/BioProof.v ===== *)
(** * The buffer cache: correctness

    [src/kernel/bio.c] gives its callers one coherent copy of every disk block:
    what they see of block [blk] is [V blk], whether the block is cached or
    not. The routines are verified against an interface of the disk driver. *)

From Stdlib Require Import FunctionalExtensionality.
From S2P Require Import Prelude Riscv Spinlock Str Kalloc Kernel Proc Sleeplock Bio KernelWp Ring.

(** ** Searching the ring *)

Section find.
Context {n : nat}.

Lemma HEAD_not_in B l : ring B l -> HEAD ∉ l.
Proof. intros Hr Hin. apply (ring_all _ _ Hr) in Hin. unfold isbuf, HEAD in Hin. lia. Qed.

Lemma wp_ring_find_next s l test :
  ring (bufs s) l -> (length l < n)%nat ->
  wp (ring_find b_next test (b_next (bufs s HEAD))) n s
    (fun r s' => s' = s /\ r = find (fun b => test (bufs s b)) l).
Proof.
  intros Hr Hn. pose proof (HEAD_not_in _ _ Hr) as Hd. unfold ring_find.
  apply (wp_loop _ (fun k b s' => s' = s /\ exists l1 l2, l = l1 ++ l2 /\ k = length l2 /\
    b = default HEAD (head l2) /\ find (fun b => test (bufs s b)) l = find (fun b => test (bufs s b)) l2))
    with (k := length l); [|done|].
  - intros k b s' [-> (l1 & l2 & -> & -> & -> & Hf)]. destruct l2 as [|b l2]; cbn [head default].
    { rewrite Z.eqb_refl. by wp_steps. }
    cbn [default from_option id]. destruct (Z.eqb_spec b HEAD) as [->|Hb].
    { exfalso. apply Hd. rewrite elem_of_app. right. apply list_elem_of_here. }
    unfold bget_. wp_steps. cbn [find] in Hf. destruct (test (bufs s b)) eqn:Ht.
    { wp_steps. done. }
    wp_steps. exists (length l2). split; [cbn [length]; lia|]. split; [done|].
    exists (l1 ++ [b]), l2. split; [by rewrite <-app_assoc|]. split; [done|]. split; [|done].
    by apply (linked_next (nexts (bufs s)) (prevs (bufs s)) (l1 ++ b :: l2) (HEAD :: l1) b l2); [apply Hr|].
  - split; [done|]. exists [], l. split; [done|]. split; [done|]. split; [|done].
    by apply (linked_next (nexts (bufs s)) (prevs (bufs s)) l [] HEAD l); [apply Hr|].
Qed.

Lemma wp_ring_find_prev s l test :
  ring (bufs s) l -> (length l < n)%nat ->
  wp (ring_find b_prev test (b_prev (bufs s HEAD))) n s
    (fun r s' => s' = s /\ r = find (fun b => test (bufs s b)) (rev l)).
Proof.
  intros Hr Hn. pose proof (HEAD_not_in _ _ Hr) as Hd. unfold ring_find.
  apply (wp_loop _ (fun k b s' => s' = s /\ exists l1 l2, l = l1 ++ l2 /\ k = length l1 /\
    b = default HEAD (last l1) /\
    find (fun b => test (bufs s b)) (rev l) = find (fun b => test (bufs s b)) (rev l1)))
    with (k := length l); [|done|].
  - intros k b s' [-> (l1 & l2 & -> & -> & -> & Hf)].
    destruct l1 as [|b l1 _] using rev_ind; cbn [last default].
    { rewrite Z.eqb_refl. by wp_steps. }
    rewrite last_snoc. cbn [default from_option id]. destruct (Z.eqb_spec b HEAD) as [->|Hb].
    { exfalso. apply Hd. rewrite !elem_of_app. left. right. apply list_elem_of_here. }
    unfold bget_. wp_steps. rewrite (rev_unit l1 b) in Hf. cbn [find] in Hf.
    destruct (test (bufs s b)) eqn:Ht.
    { wp_steps. done. }
    wp_steps. exists (length l1). split; [rewrite length_app; cbn [length]; lia|]. split; [done|].
    exists l1, ([b] ++ l2). split; [by rewrite app_assoc|]. split; [done|]. split; [|done].
    apply (linked_prev (nexts (bufs s)) (prevs (bufs s)) ((l1 ++ [b]) ++ l2) l1 b (l2 ++ [HEAD])); [apply Hr|].
    by rewrite <-!app_assoc.
  - split; [done|]. exists l, []. split; [by rewrite app_nil_r|]. split; [done|]. split; [|done].
    by apply (linked_prev (nexts (bufs s)) (prevs (bufs s)) l l HEAD []); [apply Hr|].
Qed.
End find.

(** ** The disk driver's promise *)

(** For process [me] on hart [c]: a request returns, with the transfer done.
    Processes may have been woken meanwhile. [dok] is the invariant of the
    driver's own data, and [dfuel] bounds its loops. *)
Class BlockDevOk (c me : Z) {DEV : BlockDev} := {
  dok : vdisk -> Prop;
  dfuel : nat;
  disk_read n s b :
    (dfuel < n)%nat -> runs c me [] s -> dok (vd s) -> isbuf b -> b_disk (bufs s b) = 0 ->
    0 <= b_blockno (bufs s b) < 2 ^ 31 ->
    wp (disk_rw b false) n s (fun _ s' => exists h ps v,
      hon c [] h /\ woke (procs s) ps /\ dok v /\
      s' = set_vd v (set_procs ps (hk h
        (upd_buf b (fun x => set_b_data (image s (b_blockno (bufs s b))) x) s))));
  disk_write n s b :
    (dfuel < n)%nat -> runs c me [] s -> dok (vd s) -> isbuf b -> b_disk (bufs s b) = 0 ->
    0 <= b_blockno (bufs s b) < 2 ^ 31 ->
    wp (disk_rw b true) n s (fun _ s' => exists h ps v,
      hon c [] h /\ woke (procs s) ps /\ dok v /\
      s' = set_vd v (set_procs ps (hk h
        (set_medium ((b_blockno (bufs s b), b_data (bufs s b)) :: medium s) s))))
}.

(** What the routines of the cache may change. *)
Definition bframe (s s' : kernel) : Prop :=
  exists h ps B v W, woke (procs s) ps /\
    s' = set_medium W (set_vd v (set_bufs B (set_procs ps (hk h s)))).

#[global] Instance bframe_preorder : PreOrder bframe.
Proof.
  split.
  - intros s. exists (khart s), (procs s), (bufs s), (vd s), (medium s). split; [done|]. by destruct s as [[]].
  - intros s1 s2 s3 (h & ps & B & v & W & Hw & ->) (h' & ps' & B' & v' & W' & Hw' & ->).
    exists h', ps', B', v', W'. split; [by etrans|done].
Qed.

(** Compose the frames of a sequence of calls. *)
Ltac frames :=
  first [ reflexivity | assumption
        | match goal with F : bframe ?s _ |- bframe ?s _ => etrans; [exact F|]; clear F; frames end ].

Lemma bframe_upd_buf b f s : bframe s (upd_buf b f s).
Proof.
  exists (khart s), (procs s), (bufs (upd_buf b f s)), (vd s), (medium s). split; [reflexivity|]. by destruct s as [[]].
Qed.

Lemma bframe_klog s s' : bframe s s' -> klog s' = klog s.
Proof. by intros (h & ps & B & v & W & _ & ->). Qed.

(** ** The invariant *)

Section bio.
Context {c me dev : Z} {DEV : BlockDev} {DOK : BlockDevOk c me}.

(** Buffer [b] is for block [blk]. *)
Definition cached (B : Z -> buf) (blk b : Z) : Prop :=
  isbuf b /\ b_dev (B b) = dev /\ b_blockno (B b) = blk.

(** References the log has on the buffer [x], by its pins [P]. *)
Definition pins (P : Z -> Z) (x : buf) : Z := if decide (b_dev x = dev) then P (b_blockno x) else 0.

(** [V] is what the cache shows of each block, [P blk] how often [bpin] was
    called on the buffer of [blk] without [bunpin], [H] the buffers the process
    has locked. *)
Record binv (V : Z -> bytes) (P : Z -> Z) (H : list Z) (s : kernel) : Prop := {
  bi_runs : runs c me [] s;
  bi_dok : dok (vd s);
  bi_ring : exists l, ring (bufs s) l;
  bi_uniq : forall blk b b', cached (bufs s) blk b -> cached (bufs s) blk b' -> b = b';
  bi_seen : forall blk b, cached (bufs s) blk b -> b_valid (bufs s b) <> 0 -> b_data (bufs s b) = V blk;
  bi_disk : forall blk, image s blk = V blk \/
    exists b, cached (bufs s) blk b /\ b_valid (bufs s b) <> 0 /\ b_refcnt (bufs s b) <> 0;
  bi_nodup : NoDup H;
  bi_held : forall b, b ∈ H -> cached (bufs s) (b_blockno (bufs s b)) b /\ b_valid (bufs s b) <> 0 /\
    0 <= b_blockno (bufs s b) < 2 ^ 31 /\ sl_pid (b_lock (bufs s b)) = p_pid (procs s me);
  bi_ref : forall b, isbuf b ->
    b_refcnt (bufs s b) = pins P (bufs s b) + (if decide (b ∈ H) then 1 else 0);
  bi_lock : forall b, isbuf b -> sl_locked (b_lock (bufs s b)) = if decide (b ∈ H) then 1 else 0;
  bi_idle : forall b, isbuf b -> b_disk (bufs s b) = 0;
  bi_pin : forall blk, 0 <= P blk < 2 ^ 31 /\
    (P blk <> 0 -> exists b, cached (bufs s) blk b /\ b_valid (bufs s b) <> 0)
}.

Definition is_cached (s : kernel) (blk : Z) : Prop := exists b, cached (bufs s) blk b.
Definition room (s : kernel) : Prop := exists b, isbuf b /\ b_refcnt (bufs s b) = 0.

(** The buffer [x'] replaces buffer [b] in a state that differs in nothing
    else the invariant is about. *)
Lemma ring_replace B l b x' :
  b_next x' = b_next (B b) -> b_prev x' = b_prev (B b) -> ring B l -> ring (<[b := x']> B) l.
Proof.
  intros Hn Hp [Hl ? ?]. split; [|done..].
  assert (nexts (<[b := x']> B) = nexts B) as ->.
  { apply functional_extensionality. intros a. unfold nexts. rewrite fn_insert_spec. case_decide; congruence. }
  assert (prevs (<[b := x']> B) = prevs B) as ->; [|done].
  apply functional_extensionality. intros a. unfold prevs. rewrite fn_insert_spec. case_decide; congruence.
Qed.

(** [bread] on block [blk] takes buffer [b], which was the buffer of [blk] or
    is recycled. *)
Lemma binv_take V P H s b x' blk h ps v :
  binv V P H s -> hon c [] h -> woke (procs s) ps -> dok v ->
  isbuf b -> b ∉ H -> 0 <= blk < 2 ^ 31 ->
  cached (bufs s) blk b \/ (b_refcnt (bufs s b) = 0 /\ ~ is_cached s blk) ->
  b_next x' = b_next (bufs s b) -> b_prev x' = b_prev (bufs s b) -> b_disk x' = 0 ->
  b_dev x' = dev -> b_blockno x' = blk -> b_valid x' <> 0 -> b_data x' = V blk ->
  b_refcnt x' = P blk + 1 -> sl_locked (b_lock x') = 1 -> sl_pid (b_lock x') = p_pid (procs s me) ->
  binv V P (b :: H) (set_vd v (set_procs ps (set_bufs (<[b := x']> (bufs s)) (hk h s)))).
Proof.
  intros [Hrun Hdok [l Hring] Huniq Hseen Hdisk Hnd Hheld Href Hlock Hidle Hpin] Hh Hw Hv Hb Hbh Hblk Hwhy
    Hnx Hpv Hdk Hdv Hbn Hvl Hda Hrc Hlk Hpid.
  assert (forall blk' b', cached (<[b := x']> (bufs s)) blk' b' ->
    (b' = b /\ blk' = blk) \/ (b' <> b /\ blk' <> blk /\ cached (bufs s) blk' b')) as Hc.
  { intros blk' b' (H1 & H2 & H3). rewrite fn_insert_spec in H2, H3.
    destruct (decide (b = b')) as [<-|Hne]; [left; by rewrite Hbn in H3|right].
    split; [done|]. assert (cached (bufs s) blk' b') as Hc' by done. split; [|done].
    intros ->. destruct Hwhy as [Hc|[_ Hnc]]; [by apply Hne, (Huniq blk)|apply Hnc; by exists b']. }
  assert (forall blk' b', cached (bufs s) blk' b' -> b' <> b -> cached (<[b := x']> (bufs s)) blk' b') as Hc2.
  { intros blk' b' (H1 & H2 & H3) Hne. split; [done|]. by rewrite fn_insert_spec, decide_False. }
  assert (forall b', b' <> b -> <[b := x']> (bufs s) b' = bufs s b') as Hne.
  { intros b' ?. by rewrite fn_insert_spec, decide_False. }
  assert (cached (<[b := x']> (bufs s)) blk b) as Hcb by (split; [done|by rewrite fn_lookup_insert]).
  assert (procs s me = ps me) as Hme by (symmetry; eapply woke_running; [done|apply Hrun]).
  split; cbn [bufs vd procs set_vd set_procs set_bufs hk set_ms]; try done.
  - destruct Hrun as [_ ? ? ?]. split; cbn; rewrite <-?Hme; done.
  - exists l. by apply ring_replace.
  - intros blk' b1 b2 H1 H2. apply Hc in H1, H2.
    destruct H1 as [[-> ->]|(? & ? & ?)], H2 as [[-> ?]|(? & ? & ?)]; try done. by eapply Huniq.
  - intros blk' b' H1 H2. apply Hc in H1 as [[-> ->]|(? & ? & H1)].
    + by rewrite fn_lookup_insert.
    + rewrite Hne in * by done. by apply Hseen.
  - intros blk'. change (image _ blk') with (image s blk').
    destruct (decide (blk' = blk)) as [->|Hbb].
    { right. exists b. rewrite fn_lookup_insert. split; [done|]. split; [done|]. rewrite Hrc.
      destruct (Hpin blk). lia. }
    destruct (Hdisk blk') as [?|(b' & H1 & H2 & H3)]; [by left|].
    destruct (decide (b' = b)) as [->|Hbb'].
    + exfalso. destruct Hwhy as [(_ & _ & H4)|[H4 _]]; [|done]. destruct H1 as (_ & _ & H5). congruence.
    + right. exists b'. rewrite Hne by done. by split; [apply Hc2|].
  - by constructor.
  - intros b' [->|Hb']%elem_of_cons.
    + rewrite fn_lookup_insert, Hbn. rewrite <-?Hme. done.
    + assert (b' <> b) by congruence. rewrite Hne by done. destruct (Hheld b' Hb') as (H1 & ?).
      rewrite <-?Hme. split; [by apply Hc2|done].
  - intros b' Hb'. destruct (decide (b' = b)) as [->|Hbb].
    + rewrite fn_lookup_insert, (decide_True _ _ (list_elem_of_here _ _)), Hrc. unfold pins.
      by rewrite Hdv, decide_True, Hbn.
    + rewrite Hne, Href by done. f_equal. apply decide_ext. rewrite elem_of_cons. tauto.
  - intros b' Hb'. destruct (decide (b' = b)) as [->|Hbb].
    + by rewrite fn_lookup_insert, (decide_True _ _ (list_elem_of_here _ _)).
    + rewrite Hne, Hlock by done. apply decide_ext. rewrite elem_of_cons. tauto.
  - intros b' Hb'. destruct (decide (b' = b)) as [->|Hbb]; [by rewrite fn_lookup_insert|].
    by rewrite Hne, Hidle.
  - intros blk'. destruct (Hpin blk') as [H1 H2]. split; [done|]. intros H3.
    destruct (decide (blk' = blk)) as [->|Hbb]; [exists b; by rewrite fn_lookup_insert|].
    destruct (H2 H3) as (b' & H4 & H5). exists b'.
    destruct (decide (b' = b)) as [->|Hbb']; [|by rewrite Hne; [split; [apply Hc2|]|]].
    exfalso. destruct Hwhy as [(_ & _ & H6)|[H6 _]].
    + destruct H4 as (_ & _ & H7). congruence.
    + rewrite Href in H6 by done. destruct H4 as (_ & H7 & H8). unfold pins in H6.
      rewrite H7, decide_True, H8 in H6 by done. rewrite decide_False in H6 by done. lia.
Qed.

(** ** bread *)

(** What [bget] makes of the buffer it returns. *)
Record got (P : Z -> Z) (s : kernel) (blk b : Z) (x : buf) : Prop := {
  g_why : (cached (bufs s) blk b /\ b_valid x = b_valid (bufs s b) /\ b_data x = b_data (bufs s b)) \/
    (b_refcnt (bufs s b) = 0 /\ ~ is_cached s blk /\ b_valid x = 0);
  g_next : b_next x = b_next (bufs s b);
  g_prev : b_prev x = b_prev (bufs s b);
  g_disk : b_disk x = 0;
  g_dev : b_dev x = dev;
  g_blk : b_blockno x = blk;
  g_ref : b_refcnt x = P blk + 1;
  g_locked : sl_locked (b_lock x) = 1;
  g_pid : sl_pid (b_lock x) = p_pid (procs s me)
}.

Lemma upd_buf_twice b f g s : upd_buf b f (upd_buf b g s) = upd_buf b (fun x => f (g x)) s.
Proof. unfold upd_buf. cbn. by rewrite fn_lookup_insert, fn_insert_insert. Qed.

(** The end of [bget]: take the sleep lock of the buffer chosen. *)
Lemma wp_bget_lock n V P H s b f h (Q : Z -> kernel -> Prop) :
  (0 < n)%nat -> binv V P H s -> isbuf b -> b ∉ H -> hon c [Lbcache] h ->
  (forall x, b_lock (f x) = b_lock x) ->
  (forall h' x, hon c [] h' -> x = set_b_lock (mkSleep 1 (sl_name (b_lock (bufs s b))) (p_pid (procs s me))) (f (bufs s b)) ->
     Q b (set_bufs (<[b := x]> (bufs s)) (hk h' s))) ->
  wp (unlock Lbcache;; acquiresleep (SLbuf b);; mret b) n (upd_buf b f (hk h s)) Q.
Proof.
  intros Hn Hi Hb Hbh Hh Hf HQ. apply wp_bind. eapply wp_unlock; [exact Hh|]. intros h1 H1.
  apply wp_bind. eapply (wp_acquiresleep (me := me)); [done|exact H1|apply not_elem_of_nil|apply Hi| |].
  { cbn. rewrite fn_lookup_insert, Hf, (bi_lock _ _ _ _ Hi) by done. by rewrite decide_False. }
  intros h2 H2. apply wp_ret. cbn [sl_set sl_get]. unfold upd_buf. cbn. rewrite !fn_lookup_insert, fn_insert_insert, Hf.
  by apply HQ.
Qed.

Lemma find_cached_Some s l blk b :
  ring (bufs s) l -> find (fun b => (b_dev (bufs s b) =? dev) && (b_blockno (bufs s b) =? blk)) l = Some b ->
  cached (bufs s) blk b.
Proof.
  intros Hr Hf. apply find_some in Hf as [Hin Ht]. zbool. split; [|done].
  apply (ring_all _ _ Hr). by apply list_elem_of_In.
Qed.

Lemma find_cached_None s l blk :
  ring (bufs s) l -> find (fun b => (b_dev (bufs s b) =? dev) && (b_blockno (bufs s b) =? blk)) l = None ->
  ~ is_cached s blk.
Proof.
  intros Hr Hf (b & Hb & Hd & Hbk). apply (ring_all _ _ Hr), list_elem_of_In in Hb.
  pose proof (find_none _ _ Hf b Hb) as Ht. cbn in Ht.
  by rewrite Hd, Hbk, !Z.eqb_refl in Ht.
Qed.

Lemma ring_length B l : ring B l -> length l = Z.to_nat NBUF.
Proof.
  intros [_ Hnd Hall]. rewrite <-(length_seqZ 0 NBUF). apply Permutation_length.
  apply NoDup_Permutation; [done|apply NoDup_seqZ|]. intros b. rewrite Hall, elem_of_seqZ. unfold isbuf. lia.
Qed.

Lemma wp_bget V P H s blk n :
  (Z.to_nat NBUF < n)%nat -> binv V P H s -> 0 <= blk < 2 ^ 31 ->
  (forall b, b ∈ H -> b_blockno (bufs s b) <> blk) -> is_cached s blk \/ room s ->
  wp (bget dev blk) n s (fun b s' => exists h x, s' = set_bufs (<[b := x]> (bufs s)) (hk h s) /\
    hon c [] h /\ isbuf b /\ (b ∉ H) /\ got P s blk b x).
Proof.
  intros Hn Hi Hblk HH Hroom. destruct (bi_ring _ _ _ _ Hi) as [l Hl].
  pose proof (ring_length _ _ Hl) as Hlen. pose proof (bi_pin _ _ _ _ Hi blk) as [HP _].
  unfold bget. apply wp_bind. eapply wp_lock; [lia|apply Hi|apply not_elem_of_nil|]. intros h1 H1.
  unfold bget_, bset. apply wp_bind, wp_gets, wp_bind.
  eapply wp_mono; [apply (wp_ring_find_next (hk h1 s) l); [done|lia]|]. cbn beta.
  intros r s' [-> ->]. cbn [bufs hk set_ms]. destruct (find _ l) as [b|] eqn:Hf.
  - pose proof (find_cached_Some _ _ _ _ Hl Hf) as Hc. destruct Hc as (Hb & Hd & Hbk).
    assert (b ∉ H) as Hbh by (intros Hin; by apply (HH b Hin)).
    apply wp_bind, wp_modify. eapply wp_bget_lock with (h := h1); [lia|done|done|done|done|done|].
    intros h2 x H2 ->. exists h2, (set_b_lock (mkSleep 1 (sl_name (b_lock (bufs s b))) (p_pid (procs s me))) (ref_inc (bufs s b))).
    do 4 (split; [done|]). pose proof (bi_ref _ _ _ _ Hi b Hb) as Hr. unfold pins in Hr.
    rewrite Hd, Hbk, decide_True, (decide_False (P := b ∈ H)) in Hr by done.
    split; cbn; try done; [left; done|by apply Hi|]. rewrite Hr, u32_small; lia.
  - pose proof (find_cached_None _ _ _ Hl Hf) as Hnc. destruct Hroom as [?|(b0 & Hb0 & Hr0)]; [done|].
    apply wp_bind, wp_gets, wp_bind.
    eapply wp_mono; [apply (wp_ring_find_prev (hk h1 s) l); [done|lia]|]. cbn beta.
    intros r s' [-> ->]. cbn [bufs hk set_ms]. destruct (find _ (rev l)) as [b|] eqn:Hf2.
    + apply find_some in Hf2 as [Hin Hz]. zbool. apply in_rev, list_elem_of_In, (ring_all _ _ Hl) in Hin.
      assert (b ∉ H) as Hbh.
      { intros Hbh. pose proof (bi_ref _ _ _ _ Hi b Hin) as Hr. rewrite decide_True in Hr by done.
        unfold pins in Hr. case_decide; [destruct (bi_pin _ _ _ _ Hi (b_blockno (bufs s b)))|]; lia. }
      assert (P blk = 0) as HP0.
      { destruct (bi_pin _ _ _ _ Hi blk) as [_ Hpc]. destruct (decide (P blk = 0)); [done|].
        exfalso. destruct Hpc as (b' & ? & _); [done|]. apply Hnc. by exists b'. }
      do 4 apply wp_bind, wp_modify. rewrite !upd_buf_twice.
      eapply wp_bget_lock with (h := h1); [lia|done|done|done|done|done|].
      intros h2 x H2 ->. exists h2. eexists. do 4 (split; [done|]).
      split; cbn; try done; [right; done|by apply Hi|lia].
    + exfalso. pose proof (find_none _ _ Hf2 b0) as Ht. cbn in Ht. rewrite Hr0 in Ht.
      assert (In b0 (rev l)) as Hin0 by (apply in_rev; rewrite rev_involutive; by apply list_elem_of_In, (ring_all _ _ Hl)).
      by specialize (Ht Hin0).
Qed.

Lemma wp_bread V P H s blk n :
  (Z.to_nat NBUF < n)%nat -> (dfuel < n)%nat -> binv V P H s -> 0 <= blk < 2 ^ 31 ->
  (forall b, b ∈ H -> b_blockno (bufs s b) <> blk) -> is_cached s blk \/ room s ->
  wp (bread dev blk) n s (fun b s' => bframe s s' /\ medium s' = medium s /\ binv V P (b :: H) s' /\
    b_blockno (bufs s' b) = blk /\ b_data (bufs s' b) = V blk /\ (b ∉ H) /\
    (forall b', b' <> b -> bufs s' b' = bufs s b')).
Proof.
  intros Hn Hdn Hi Hblk HH Hroom. unfold bread. apply wp_bind.
  eapply wp_mono; [by apply (wp_bget V P H)|]. cbn beta.
  intros b s' (h & x & -> & Hh & Hb & Hbh & Hg). destruct (bi_runs _ _ _ _ Hi) as [_ Hme Hst Hch].
  assert (forall h' ps v x', hon c [] h' -> woke (procs s) ps -> dok v ->
    b_valid x' <> 0 -> b_data x' = V blk ->
    b_next x' = b_next x -> b_prev x' = b_prev x -> b_disk x' = 0 -> b_dev x' = dev ->
    b_blockno x' = blk -> b_refcnt x' = b_refcnt x -> b_lock x' = b_lock x ->
    let s' := set_vd v (set_procs ps (set_bufs (<[b := x']> (bufs s)) (hk h' s))) in
    bframe s s' /\ medium s' = medium s /\ binv V P (b :: H) s' /\
    b_blockno (bufs s' b) = blk /\ b_data (bufs s' b) = V blk /\ (b ∉ H) /\
    (forall b', b' <> b -> bufs s' b' = bufs s b')) as Hend.
  { intros h' ps v x' Hh' Hw Hv Hx1 Hx2 Hx3 Hx4 Hx5 Hx6 Hx7 Hx8 Hx9 s'. destruct Hg. split; [|split; [done|split]].
    - exists h', ps, (<[b := x']> (bufs s)), v, (medium s). done.
    - apply binv_take with (blk := blk); try done; try congruence.
      destruct g_why0 as [(? & _ & _)|(? & ? & _)]; [by left|by right].
    - cbn. rewrite fn_lookup_insert. do 3 (split; [done|]). intros b' ?. by rewrite fn_insert_spec, decide_False. }
  unfold bget_, bset. apply wp_bind, wp_gets. cbn [bufs set_bufs]. rewrite fn_lookup_insert.
  assert (b_valid x <> 0 -> b_data x = V blk) as Hdata.
  { intros Hv. destruct (g_why _ _ _ _ _ Hg) as [(Hc & E1 & ->)|(_ & _ & ?)]; [|done].
    apply (bi_seen _ _ _ _ Hi _ _ Hc). congruence. }
  apply wp_bind, wp_when; intros Hv; zbool.
  - apply wp_bind. eapply wp_mono; [apply (disk_read (c := c) (me := me)); cbn; rewrite ?fn_lookup_insert|].
    + done.
    + split; cbn; done.
    + apply Hi.
    + done.
    + apply Hg.
    + by rewrite (g_blk _ _ _ _ _ Hg).
    + intros [] s1 (h1 & ps & v & Hh1 & Hw & Hv1 & E). apply wp_modify, wp_ret.
      assert (upd_buf b (set_b_valid 1) s1 = set_vd v (set_procs ps (set_bufs
        (<[b := set_b_valid 1 (set_b_data (image s blk) x)]> (bufs s)) (hk h1 s)))) as ->.
      { rewrite E. unfold upd_buf. cbn. rewrite !fn_lookup_insert, !fn_insert_insert, (g_blk _ _ _ _ _ Hg).
        by change (image (set_bufs (<[b := x]> (bufs s)) (hk h s)) blk) with (image s blk). }
      apply (Hend h1 ps v (set_b_valid 1 (set_b_data (image s blk) x))); cbn; try done; try apply Hg.
      destruct (bi_disk _ _ _ _ Hi blk) as [?|(b' & Hc' & Hv' & Hr')]; [done|].
      exfalso. destruct (g_why _ _ _ _ _ Hg) as [(Hc & E1 & _)|(_ & Hnc & _)].
      * by rewrite (bi_uniq _ _ _ _ Hi _ _ _ Hc' Hc) in Hv'; congruence.
      * apply Hnc. by exists b'.
  - apply wp_ret.
    assert (set_bufs (<[b := x]> (bufs s)) (hk h s) =
      set_vd (vd s) (set_procs (procs s) (set_bufs (<[b := x]> (bufs s)) (hk h s)))) as -> by done.
    apply (Hend h (procs s) (vd s) x); try done; try apply Hg; [apply Hi|by apply Hdata].
Qed.

(** ** Changes to a buffer that is held *)

(** One buffer changes, with what is seen of its block and who refers to it. *)
Record changes (V V' : Z -> bytes) (P P' : Z -> Z) (H H' : list Z) (s s' : kernel) (b : Z) : Prop := {
  ch_runs : runs c me [] s';
  ch_pid : p_pid (procs s' me) = p_pid (procs s me);
  ch_dok : dok (vd s');
  ch_ring : exists l, ring (bufs s') l;
  ch_bufs : forall b', b' <> b -> same_body (bufs s' b') (bufs s b');
  ch_V : forall blk, blk <> b_blockno (bufs s b) -> V' blk = V blk;
  ch_P : forall blk, blk <> b_blockno (bufs s b) -> P' blk = P blk;
  ch_image : forall blk, blk <> b_blockno (bufs s b) -> image s' blk = image s blk;
  ch_H : forall b', b' <> b -> b' ∈ H' <-> b' ∈ H;
  ch_nodup : NoDup H';
  ch_dev : b_dev (bufs s' b) = dev;
  ch_blk : b_blockno (bufs s' b) = b_blockno (bufs s b);
  ch_valid : b_valid (bufs s' b) <> 0;
  ch_seen : b_data (bufs s' b) = V' (b_blockno (bufs s b));
  ch_disk : image s' (b_blockno (bufs s b)) = V' (b_blockno (bufs s b)) \/ b_refcnt (bufs s' b) <> 0;
  ch_ref : b_refcnt (bufs s' b) = P' (b_blockno (bufs s b)) + (if decide (b ∈ H') then 1 else 0);
  ch_lock : sl_locked (b_lock (bufs s' b)) = if decide (b ∈ H') then 1 else 0;
  ch_lpid : b ∈ H' -> sl_pid (b_lock (bufs s' b)) = p_pid (procs s me);
  ch_idle : b_disk (bufs s' b) = 0;
  ch_pin : 0 <= P' (b_blockno (bufs s b)) < 2 ^ 31
}.

Lemma same_body_cached s s' blk b :
  same_body (bufs s' b) (bufs s b) -> cached (bufs s') blk b <-> cached (bufs s) blk b.
Proof. intros (_ & _ & Hd & Hb & _). unfold cached. by rewrite Hd, Hb. Qed.

Lemma binv_change V V' P P' H H' s s' b :
  binv V P H s -> b ∈ H -> changes V V' P P' H H' s s' b -> binv V' P' H' s'.
Proof.
  intros Hi Hb Hc. destruct Hc. destruct (bi_held _ _ _ _ Hi b Hb) as (Hcb & Hvb & Hrb & Hpb).
  set (blk0 := b_blockno (bufs s b)) in *.
  assert (forall blk b', cached (bufs s') blk b' -> cached (bufs s) blk b') as Hold.
  { intros blk b' Hc'. destruct (decide (b' = b)) as [->|Hne].
    - destruct Hc' as (? & ? & <-). by rewrite ch_blk0.
    - by apply (same_body_cached s s' blk b' (ch_bufs0 b' Hne)). }
  assert (cached (bufs s') blk0 b) as Hcb' by (split; [apply Hcb|done]).
  assert (forall blk b', cached (bufs s) blk b' -> b' <> b -> cached (bufs s') blk b' /\ blk <> blk0) as Hnew.
  { intros blk b' Hc' Hne. split; [by apply (same_body_cached s s' blk b' (ch_bufs0 b' Hne))|]. intros ->.
    by apply Hne, (bi_uniq _ _ _ _ Hi blk0). }
  split; try done.
  - intros blk b1 b2 H1 H2. eapply (bi_uniq _ _ _ _ Hi); eauto.
  - intros blk b' Hc' Hv'. destruct (decide (b' = b)) as [->|Hne].
    { destruct Hc' as (_ & _ & <-). by rewrite ch_blk0. }
    destruct (Hnew blk b' (Hold _ _ Hc') Hne) as [_ Hbl].
    destruct (ch_bufs0 b' Hne) as (E1 & _ & _ & _ & _ & _ & E7). rewrite E7, ch_V0 by done.
    apply (bi_seen _ _ _ _ Hi); [by apply Hold|congruence].
  - intros blk. destruct (decide (blk = blk0)) as [->|Hbl].
    { destruct ch_disk0; [by left|right; by exists b]. }
    rewrite ch_image0, ch_V0 by done.
    destruct (bi_disk _ _ _ _ Hi blk) as [?|(b' & Hc' & Hv' & Hr')]; [by left|right].
    assert (b' <> b) as Hne by (intros ->; by destruct Hc' as (_ & _ & <-)).
    exists b'. destruct (ch_bufs0 b' Hne) as (E1 & _ & _ & _ & _ & E6 & _). rewrite E1, E6.
    split; [by apply Hnew|done].
  - intros b' Hb'. destruct (decide (b' = b)) as [->|Hne].
    { rewrite ch_blk0, ch_pid0. split; [done|]. split; [done|]. split; [done|]. by apply ch_lpid0. }
    apply ch_H0 in Hb'; [|done]. destruct (bi_held _ _ _ _ Hi b' Hb') as (H1 & H2 & H3 & H4).
    destruct (ch_bufs0 b' Hne) as (E1 & _ & _ & E4 & E5 & _). rewrite E1, E4, E5, ch_pid0.
    split; [by apply Hnew|done].
  - intros b' Hb'. destruct (decide (b' = b)) as [->|Hne].
    { rewrite ch_ref0. unfold pins. rewrite ch_dev0, ch_blk0. by destruct (decide (dev = dev)). }
    destruct (ch_bufs0 b' Hne) as (_ & _ & E3 & E4 & _ & E6 & _). rewrite E6, (bi_ref _ _ _ _ Hi) by done.
    unfold pins. rewrite E3, E4. f_equal; [|apply decide_ext; symmetry; by apply ch_H0].
    destruct (decide (b_dev (bufs s b') = dev)) as [Hd|]; [|done]. rewrite ch_P0; [done|]. by apply (Hnew _ b').
  - intros b' Hb'. destruct (decide (b' = b)) as [->|Hne]; [done|].
    destruct (ch_bufs0 b' Hne) as (_ & _ & _ & _ & E5 & _). rewrite E5, (bi_lock _ _ _ _ Hi) by done.
    apply decide_ext. symmetry. by apply ch_H0.
  - intros b' Hb'. destruct (decide (b' = b)) as [->|Hne]; [done|].
    destruct (ch_bufs0 b' Hne) as (_ & E2 & _). rewrite E2. by apply Hi.
  - intros blk. destruct (decide (blk = blk0)) as [->|Hbl]; [split; [done|by exists b]|].
    rewrite ch_P0 by done. destruct (bi_pin _ _ _ _ Hi blk) as [? Hp]. split; [done|]. intros Hp0.
    destruct (Hp Hp0) as (b' & Hc' & Hv'). assert (b' <> b) as Hne by (intros ->; by destruct Hc' as (_ & _ & <-)).
    exists b'. destruct (ch_bufs0 b' Hne) as (E1 & _). rewrite E1. split; [by apply Hnew|done].
Qed.

(** The process writes to the data of a buffer it holds. *)
Lemma binv_data V P H s b d :
  binv V P H s -> b ∈ H ->
  binv (<[b_blockno (bufs s b) := d]> V) P H (upd_buf b (set_b_data d) s).
Proof.
  intros Hi Hb. destruct (bi_held _ _ _ _ Hi b Hb) as ((Hib & Hd & _) & Hv & Hr & Hp).
  destruct (bi_ring _ _ _ _ Hi) as [l Hl]. pose proof (bi_ref _ _ _ _ Hi b Hib) as Href.
  pose proof (bi_lock _ _ _ _ Hi b Hib) as Hlk. pose proof (proj1 (bi_pin _ _ _ _ Hi (b_blockno (bufs s b)))).
  unfold pins in Href. rewrite Hd, (decide_True (P := dev = dev)) in Href by done.
  apply (binv_change V _ P P H H s _ b Hi Hb).
  split; cbn; try done; rewrite ?fn_lookup_insert; cbn; try done; try apply Hi; try done.
  - by destruct Hi as [[]].
  - exists l. by apply ring_replace.
  - intros b' Hne. by rewrite fn_insert_spec, decide_False.
  - intros blk Hne. by rewrite fn_insert_spec, decide_False.
  - right. rewrite Href, decide_True by done. lia.
Qed.

Lemma wp_bwrite V P H s b n :
  (dfuel < n)%nat -> binv V P H s -> b ∈ H ->
  wp (bwrite b) n s (fun _ s' => bframe s s' /\ binv V P H s' /\ bufs s' = bufs s /\
    medium s' = (b_blockno (bufs s b), V (b_blockno (bufs s b))) :: medium s).
Proof.
  intros Hn Hi Hb. destruct (bi_held _ _ _ _ Hi b Hb) as (Hc & Hv & Hr & Hp). destruct Hc as (Hib & Hd & _).
  pose proof (bi_ref _ _ _ _ Hi b Hib) as Href. pose proof (bi_lock _ _ _ _ Hi b Hib) as Hlk.
  pose proof (proj1 (bi_pin _ _ _ _ Hi (b_blockno (bufs s b)))). destruct (bi_runs _ _ _ _ Hi) as [Hh Hme Hst Hch].
  unfold pins in Href. rewrite Hd, (decide_True (P := dev = dev)) in Href by done.
  unfold bwrite. apply wp_bind. eapply (wp_holdingsleep (me := me)); [lia|done|apply not_elem_of_nil|done|].
  intros h1 H1. cbn [sl_get]. rewrite Hlk, Hp, decide_True, Z.eqb_refl by done. cbn [negb andb Z.eqb].
  eapply wp_mono; [apply (disk_write (c := c) (me := me)); cbn; [done|by split|apply Hi|done|by apply Hi|done]|].
  cbn beta. intros [] s' (h & ps & v & Hh' & Hw & Hv' & ->). cbn [bufs hk set_ms].
  assert (b_data (bufs s b) = V (b_blockno (bufs s b))) as Hda by (by apply Hi).
  rewrite <-Hda. split; [|split; [|done]].
  { exists h, ps, (bufs s), v, ((b_blockno (bufs s b), b_data (bufs s b)) :: medium s). done. }
  assert (procs s me = ps me) as Hps by (symmetry; by eapply woke_running).
  apply (binv_change V V P P H H s _ b Hi Hb).
  split; cbn; try done; rewrite <-?Hps; try done; try apply Hi; try done.
  - split; cbn; rewrite <-?Hps; done.
  - intros blk Hne. unfold image. cbn. by rewrite (proj2 (Z.eqb_neq _ _)) by congruence.
  - left. unfold image. cbn. by rewrite Z.eqb_refl.
Qed.

(** [bpin] and [bunpin] change the references by one, whatever other spin
    locks are held, *)
Lemma wp_refcnt b f hl n s Q :
  (0 < n)%nat -> hon c hl (khart s) -> Lbcache ∉ hl ->
  (forall h, hon c hl h -> Q tt (hk h (upd_buf b f s))) ->
  wp (lock Lbcache;; bset b f;; unlock Lbcache) n s Q.
Proof.
  intros Hn Hh Hl HQ. apply wp_bind. eapply wp_lock; [done..|]. intros h1 H1. unfold bset.
  wp_steps. eapply wp_unlock; [exact H1|]. intros h2 H2. by apply (HQ h2).
Qed.

(** and so they change the pins of the block by one. *)
Lemma binv_pin V P H s b d :
  binv V P H s -> b ∈ H -> 0 <= P (b_blockno (bufs s b)) + d < 2 ^ 31 ->
  binv V (<[b_blockno (bufs s b) := P (b_blockno (bufs s b)) + d]> P) H
    (upd_buf b (fun x => set_b_refcnt (u32 (b_refcnt x + d)) x) s).
Proof.
  intros Hi Hb Hrange. destruct (bi_held _ _ _ _ Hi b Hb) as (Hc & Hv & Hr & Hp). destruct Hc as (Hib & Hd & _).
  pose proof (bi_ref _ _ _ _ Hi b Hib) as Href. pose proof (bi_lock _ _ _ _ Hi b Hib) as Hlk.
  destruct (bi_runs _ _ _ _ Hi) as [Hh Hme Hst Hch]. destruct (bi_ring _ _ _ _ Hi) as [l Hl].
  unfold pins in Href. rewrite Hd, (decide_True (P := dev = dev)), decide_True in Href by done.
  apply (binv_change V V P _ H H s _ b Hi Hb).
  split; cbn; try done; rewrite ?fn_lookup_insert; cbn; try done; try apply Hi; try done.
  + exists l. by apply ring_replace.
  + intros b' Hne. by rewrite fn_insert_spec, decide_False.
  + intros blk Hne. by rewrite fn_insert_spec, decide_False.
  + right. rewrite Href, u32_small; lia.
  + rewrite Href, u32_small, decide_True by (done || lia). lia.
Qed.

(** Only that the process holds no spin lock depends on the hart. *)
Lemma binv_hart V P H h s : hon c [] h -> binv V P H s -> binv V P H (hk h s).
Proof. intros Hh []. split; try done. by destruct bi_runs0. Qed.

Lemma wp_bunpin V P H s b n :
  (0 < n)%nat -> binv V P H s -> b ∈ H -> 0 < P (b_blockno (bufs s b)) ->
  wp (bunpin b) n s (fun _ s' => bframe s s' /\ medium s' = medium s /\
    binv V (<[b_blockno (bufs s b) := P (b_blockno (bufs s b)) - 1]> P) H s' /\
    (forall b', b_blockno (bufs s' b') = b_blockno (bufs s b') /\ b_data (bufs s' b') = b_data (bufs s b'))).
Proof.
  intros Hn Hi Hb ?. destruct (bi_pin _ _ _ _ Hi (b_blockno (bufs s b))).
  unfold bunpin. eapply wp_refcnt; [done|apply Hi|apply not_elem_of_nil|]. intros h Hh.
  split; [|split; [done|split]].
  - exists h, (procs s), (bufs (upd_buf b ref_dec s)), (vd s), (medium s). split; reflexivity.
  - apply binv_hart; [done|]. by apply (binv_pin V P H s b (-1)); try lia.
  - intros b'. cbn. rewrite fn_insert_spec. by destruct (decide (b = b')) as [<-|].
Qed.

(** ** brelse *)

(** The last part of [brelse], under [bcache.lock]. *)
Lemma wp_move_front b n s hl Q :
  (forall B, (B = bufs s /\ b_refcnt (bufs s b) <> 0) \/ (B = moved b (bufs s) /\ b_refcnt (bufs s b) = 0) ->
     forall h, hon c hl h -> Q tt (set_bufs B (hk h s))) ->
  hon c (Lbcache :: hl) (khart s) ->
  wp (cnt ← bget_ b b_refcnt;
      when (cnt =? 0)
        (nxt ← bget_ b b_next;
         prv ← bget_ b b_prev;
         bset nxt (set_b_prev prv);;
         bset prv (set_b_next nxt);;
         ring_push b);;
      unlock Lbcache) n s Q.
Proof.
  intros HQ Hh. unfold bget_, bset, ring_push, bget_, bset. wp_steps; intros Hz; zbool.
  - wp_steps. eapply wp_unlock; [exact Hh|]. intros h H1. apply (HQ (moved b (bufs s))); [by right|done].
  - eapply wp_unlock; [exact Hh|]. intros h H1.
    replace (hk h s) with (set_bufs (bufs s) (hk h s)) by by destruct s as [[]].
    apply HQ; [by left|done].
Qed.

Lemma wp_brelse V P H H' s b n :
  (0 < n)%nat -> binv V P H s -> H ≡ₚ b :: H' ->
  (P (b_blockno (bufs s b)) = 0 -> image s (b_blockno (bufs s b)) = V (b_blockno (bufs s b))) ->
  wp (brelse b) n s (fun _ s' => bframe s s' /\ medium s' = medium s /\ binv V P H' s' /\
    (forall b', b_blockno (bufs s' b') = b_blockno (bufs s b') /\ b_data (bufs s' b') = b_data (bufs s b'))).
Proof.
  intros Hn Hi Hperm Hclean. assert (b ∈ H) as Hb by (rewrite Hperm; apply list_elem_of_here).
  destruct (bi_held _ _ _ _ Hi b Hb) as (Hc & Hv & Hr & Hp). destruct Hc as (Hib & Hd & _).
  pose proof (bi_ref _ _ _ _ Hi b Hib) as Href. pose proof (bi_lock _ _ _ _ Hi b Hib) as Hlk.
  destruct (bi_runs _ _ _ _ Hi) as [Hh Hme Hst Hch]. destruct (bi_ring _ _ _ _ Hi) as [l Hl].
  pose proof (proj1 (bi_pin _ _ _ _ Hi (b_blockno (bufs s b)))).
  unfold pins in Href. rewrite Hd, (decide_True (P := dev = dev)), decide_True in Href by done.
  pose proof (bi_nodup _ _ _ _ Hi) as Hnd. rewrite Hperm, NoDup_cons in Hnd. destruct Hnd as [Hbh Hnd].
  unfold brelse. apply wp_bind. eapply (wp_holdingsleep (me := me)); [lia|done|apply not_elem_of_nil|done|].
  intros h1 H1. cbn [sl_get bufs hk set_ms procs]. rewrite Hlk, Hp, decide_True, Z.eqb_refl by done. cbn [negb andb Z.eqb].
  apply wp_bind. eapply wp_releasesleep; [done|exact H1|apply not_elem_of_nil|intros; apply not_elem_of_nil|].
  intros h2 ps H2 Hw. cbn [procs hk set_ms] in Hw.
  apply wp_bind. eapply wp_lock; [done|exact H2|apply not_elem_of_nil|]. intros h3 H3.
  apply wp_bind. unfold bset at 1. apply wp_modify.
  assert (procs s me = ps me) as Hps by (symmetry; by eapply woke_running).
  set (x' := ref_dec (set_b_lock (mkSleep 0 (sl_name (b_lock (bufs s b))) 0) (bufs s b))).
  eapply wp_move_front with (hl := []); [|exact H3].
  intros B HB h4 H4. unfold upd_buf, sl_set, upd_buf in HB. cbn in HB.
  rewrite !fn_lookup_insert, !fn_insert_insert in HB. fold x' in HB.
  assert (b_refcnt x' = P (b_blockno (bufs s b))) as Hx'.
  { subst x'. unfold ref_dec. cbn. rewrite Href, u32_small; lia. }
  assert (forall b', same_body (B b') (<[b := x']> (bufs s) b')) as Hbody.
  { intros b'. destruct HB as [[-> _]|[-> _]]; [done|apply moved_body]. }
  assert (same_body (B b) x') as Hbb by (pose proof (Hbody b) as Hbb; by rewrite fn_lookup_insert in Hbb).
  assert (exists l', ring B l') as Hring.
  { assert (ring (<[b := x']> (bufs s)) l) as Hl' by by apply ring_replace.
    destruct HB as [[-> _]|[-> _]]; [by exists l|].
    apply (ring_all _ _ Hl) in Hib. apply list_elem_of_split in Hib as (l1 & l2 & ->).
    exists (b :: l1 ++ l2). by apply moved_ring. }
  split; [|split; [done|split]].
  - exists h4, ps, B, (vd s), (medium s). done.
  - destruct Hbb as (E1 & E2 & E3 & E4 & E5 & E6 & E7).
    apply (binv_change V V P P H H' s _ b Hi Hb).
    split; cbn; rewrite <-?Hps, ?E1, ?E2, ?E3, ?E4, ?E5, ?E6, ?E7; try done; try (apply Hi; done).
    + split; cbn; rewrite <-?Hps; done.
    + intros b' Hne. etrans; [apply Hbody|]. by rewrite fn_insert_spec, decide_False.
    + intros b' Hne. rewrite Hperm, elem_of_cons. split; [by right|by intros [?|?]].
    + rewrite Hx'. destruct (decide (P (b_blockno (bufs s b)) = 0)); [left; by apply Hclean|by right].
    + rewrite Hx', decide_False by done. lia.
    + by rewrite decide_False.
  - intros b'. cbn. destruct (Hbody b') as (_ & _ & _ & E4 & _ & _ & E7). rewrite E4, E7, fn_insert_spec.
    by destruct (decide (b = b')) as [<-|].
Qed.

(** ** Free buffers *)

(** While fewer than [NBUF] blocks are pinned or held, some buffer is free. *)
Lemma binv_room V P H s (L : list Z) :
  binv V P H s -> (forall blk, P blk <> 0 -> blk ∈ L) -> Z.of_nat (length L + length H) < NBUF -> room s.
Proof.
  intros Hi HL Hlen. destruct (decide (Exists (fun b => b_refcnt (bufs s b) = 0) (seqZ 0 NBUF))) as [He|Hno].
  { apply Exists_exists in He as (b & Hb & Hz). apply elem_of_seqZ in Hb. exists b. split; [split|]; lia || done. }
  exfalso. rewrite Exists_exists in Hno.
  assert (forall b, isbuf b -> b_refcnt (bufs s b) <> 0) as Hbusy.
  { intros b Hb Hz. apply Hno. exists b. split; [apply elem_of_seqZ; unfold isbuf in Hb; lia|done]. }
  set (F := filter (fun b => b ∉ H) (seqZ 0 NBUF)).
  assert (forall b, b ∈ F -> isbuf b /\ (b ∉ H) /\ b_dev (bufs s b) = dev /\ P (b_blockno (bufs s b)) <> 0) as HF.
  { intros b [Hbh Hb]%list_elem_of_filter. apply elem_of_seqZ in Hb.
    assert (isbuf b) as Hib by (unfold isbuf; lia). split; [done|]. split; [done|].
    pose proof (bi_ref _ _ _ _ Hi b Hib) as Hr. rewrite (decide_False (P := b ∈ H)) in Hr by done.
    specialize (Hbusy b Hib). unfold pins in Hr. destruct (decide _); [split; [done|]|]; lia. }
  assert (NoDup ((fun b => b_blockno (bufs s b)) <$> F)) as HnF.
  { apply NoDup_fmap_2_strong; [|apply NoDup_filter, NoDup_seqZ].
    intros x y Hx Hy E. apply HF in Hx as (? & _ & ? & _), Hy as (? & _ & ? & _).
    by apply (bi_uniq _ _ _ _ Hi (b_blockno (bufs s x))). }
  assert (((fun b => b_blockno (bufs s b)) <$> F) ⊆ L) as Hsub.
  { intros blk (b & -> & Hb)%list_elem_of_fmap. apply HL. by apply HF. }
  assert (length F <= length L)%nat as HlF.
  { rewrite <-(length_fmap (fun b => b_blockno (bufs s b)) F). apply submseteq_length, NoDup_submseteq; [done|].
    intros blk Hb. by apply Hsub. }
  assert (length (seqZ 0 NBUF) <= length F + length H)%nat as Hall.
  { rewrite <-length_app. apply submseteq_length, NoDup_submseteq; [apply NoDup_seqZ|].
    intros b Hb. apply elem_of_app. destruct (decide (b ∈ H)); [by right|left].
    by apply list_elem_of_filter. }
  rewrite length_seqZ in Hall. unfold NBUF in *. lia.
Qed.

(** A block that is neither pinned nor held is up to date on the disk. *)
Lemma binv_clean V P H s blk :
  binv V P H s -> P blk = 0 -> (forall b, b ∈ H -> b_blockno (bufs s b) <> blk) -> image s blk = V blk.
Proof.
  intros Hi HP HH. destruct (bi_disk _ _ _ _ Hi blk) as [?|(b & Hc & _ & Hr)]; [done|]. exfalso.
  destruct Hc as (Hb & Hd & Hbk). rewrite (bi_ref _ _ _ _ Hi b Hb) in Hr. unfold pins in Hr.
  rewrite Hd, Hbk, (decide_True (P := dev = dev)), HP in Hr by done.
  destruct (decide (b ∈ H)) as [Hin|]; [|done]. by apply (HH b Hin).
Qed.

Lemma binv_pinned V P H s blk : binv V P H s -> P blk <> 0 -> is_cached s blk.
Proof. intros Hi HP. destruct (bi_pin _ _ _ _ Hi blk) as [_ Hp]. destruct (Hp HP) as (b & ? & _). by exists b. Qed.

(** The cache does not depend on the variables of the log. *)
Lemma binv_klog V P H kl s : binv V P H s -> binv V P H (set_klog kl s).
Proof. intros []. split; try done. by destruct bi_runs0. Qed.

Lemma binv_procs V P H ps s : woke (procs s) ps -> binv V P H s -> binv V P H (set_procs ps s).
Proof.
  intros Hw []. assert (ps me = procs s me) as E by (eapply woke_running; [done|apply bi_runs0]).
  split; try done.
  - destruct bi_runs0. by split; cbn; rewrite ?E.
  - intros b Hb. destruct (bi_held0 b Hb) as (? & ? & ? & ?). cbn. by rewrite E.
Qed.

End bio.
