(* ===== verification/BioBoot.v ===== *)
(** * The buffer cache at boot

    [binit] of [src/kernel/bio.c] links all the buffers into the ring, and
    leaves a cache that holds no block. *)

From Stdlib Require Import FunctionalExtensionality.
From S2P Require Import Prelude Riscv Spinlock Str Kalloc Kernel Proc Sleeplock Bio KernelWp Ring BioProof.

(** What one round of the loop of [binit] does to the table. *)
Definition linkbuf (B : Z -> buf) (b : Z) : Z -> buf :=
  let nx := nexts B HEAD in
  let B := <[b := set_b_next nx (B b)]> B in
  let B := <[b := set_b_prev HEAD (B b)]> B in
  let B := <[b := set_b_lock (mkSleep 0 "buffer" 0) (B b)]> B in
  let nx := nexts B HEAD in
  let B := <[nx := set_b_prev b (B nx)]> B in
  <[HEAD := set_b_next b (B HEAD)]> B.

Lemma nexts_set_lock B a v : nexts (<[a := set_b_lock v (B a)]> B) = nexts B.
Proof.
  apply functional_extensionality. intros x. unfold nexts. rewrite !fn_insert_spec. case_decide; by subst.
Qed.
Lemma prevs_set_lock B a v : prevs (<[a := set_b_lock v (B a)]> B) = prevs B.
Proof.
  apply functional_extensionality. intros x. unfold prevs. rewrite !fn_insert_spec. case_decide; by subst.
Qed.
#[export] Hint Rewrite nexts_set_lock prevs_set_lock : ring.

Lemma linkbuf_linked B b l :
  linked (nexts B) (prevs B) l -> NoDup (HEAD :: b :: l) ->
  linked (nexts (linkbuf B b)) (prevs (linkbuf B b)) (b :: l).
Proof.
  intros Hl Hnd. unfold linkbuf. autorewrite with ring.
  rewrite (fn_insert_ne (nexts B)); [by apply linked_push|].
  apply NoDup_cons in Hnd as [Hnd _]. intros ->. apply Hnd, list_elem_of_here.
Qed.

(** Nothing but its place and its lock changes in a buffer. *)
Definition same_block (x y : buf) : Prop :=
  b_valid x = b_valid y /\ b_disk x = b_disk y /\ b_dev x = b_dev y /\ b_blockno x = b_blockno y /\
  b_refcnt x = b_refcnt y /\ b_data x = b_data y.

#[global] Instance same_block_preorder : PreOrder same_block.
Proof. split; [done|]. intros x y z. unfold same_block. intuition congruence. Qed.

Lemma same_block_upd (B : Z -> buf) a x' x : same_block x' (B a) -> same_block (<[a := x']> B x) (B x).
Proof. rewrite fn_insert_spec. by case_decide; subst. Qed.

Lemma linkbuf_block B b x : same_block (linkbuf B b x) (B x).
Proof. unfold linkbuf. repeat (etrans; [by apply same_block_upd|]). done. Qed.

Lemma lock_upd (B : Z -> buf) a x' x : b_lock x' = b_lock (B a) -> b_lock (<[a := x']> B x) = b_lock (B x).
Proof. rewrite fn_insert_spec. by case_decide; subst. Qed.

Lemma linkbuf_lock B b x :
  b_lock (linkbuf B b x) = if decide (b = x) then mkSleep 0 "buffer" 0 else b_lock (B x).
Proof.
  unfold linkbuf. rewrite lock_upd by done. rewrite lock_upd by done. rewrite fn_insert_spec.
  destruct (decide (b = x)); [done|]. by rewrite !lock_upd.
Qed.

(** No buffer holds a block or is in use. *)
Record unused (dev : Z) (B : Z -> buf) : Prop := {
  un_dev : forall b, isbuf b -> b_dev (B b) <> dev;
  un_ref : forall b, isbuf b -> b_refcnt (B b) = 0;
  un_disk : forall b, isbuf b -> b_disk (B b) = 0
}.

(** The cache [binit] makes: all the buffers in the ring, unused and unlocked. *)
Record empty_cache (dev : Z) (B : Z -> buf) : Prop := {
  ec_ring : exists l, ring B l;
  ec_lock : forall b, isbuf b -> sl_locked (b_lock (B b)) = 0;
  ec_unused : unused dev B
}.

Lemma unused_same dev B B' : (forall x, same_block (B' x) (B x)) -> unused dev B -> unused dev B'.
Proof.
  intros Hs []. split; intros b Hb; destruct (Hs b) as (_ & E1 & E2 & _ & E3 & _);
    rewrite ?E1, ?E2, ?E3; eauto.
Qed.

(** The table in round [j] of [binit]. *)
Record linking (dev j : Z) (B : Z -> buf) : Prop := {
  lk_linked : linked (nexts B) (prevs B) (rev (seqZ 0 j));
  lk_lock : forall b, 0 <= b < j -> sl_locked (b_lock (B b)) = 0;
  lk_unused : unused dev B
}.

Lemma seqZ_snoc j : 0 <= j -> seqZ 0 (j + 1) = seqZ 0 j ++ [j].
Proof. intros. rewrite seqZ_app by lia. done. Qed.

Lemma elem_of_rev_seqZ b j : b ∈ rev (seqZ 0 j) <-> 0 <= b < j.
Proof. rewrite list_elem_of_In, <-in_rev, <-list_elem_of_In, elem_of_seqZ. lia. Qed.

Lemma linking_step dev j B : 0 <= j < NBUF -> linking dev j B -> linking dev (j + 1) (linkbuf B j).
Proof.
  intros Hj [Hl Hk Hu]. assert (NoDup (HEAD :: j :: rev (seqZ 0 j))) as Hnd.
  { rewrite !NoDup_cons, elem_of_cons, !elem_of_rev_seqZ. unfold HEAD. split; [lia|]. split; [lia|].
    apply NoDup_ListNoDup, NoDup_rev, NoDup_ListNoDup, NoDup_seqZ. }
  split.
  - rewrite seqZ_snoc, rev_unit by lia. by apply linkbuf_linked.
  - intros b Hb. rewrite linkbuf_lock. case_decide; [done|]. apply Hk. lia.
  - eapply unused_same; [|done]. intros x. apply linkbuf_block.
Qed.

Lemma linking_all dev B : linking dev NBUF B -> empty_cache dev B.
Proof.
  intros [Hl Hk Hu]. split; [|done|done]. exists (rev (seqZ 0 NBUF)). split; [done| |].
  - apply NoDup_ListNoDup, NoDup_rev, NoDup_ListNoDup, NoDup_seqZ.
  - intros b. apply elem_of_rev_seqZ.
Qed.

Lemma wp_binit c dev s n (Q : unit -> kernel -> Prop) :
  hon c [] (khart s) -> unused dev (bufs s) ->
  (forall h B, hon c [] h -> empty_cache dev B -> Q tt (set_bufs B (hk h s))) ->
  wp binit n s Q.
Proof.
  intros Hh Hu HQ. unfold binit. apply wp_bind. eapply wp_initlock; [exact Hh|notin|]. intros h0 H0.
  unfold bset at 1 2. apply wp_bind, wp_modify, wp_bind, wp_modify, wp_bind.
  apply (wp_for (fun j s' => exists h B, s' = set_bufs B (hk h s) /\ hon c [] h /\ linking dev j B)).
  - eexists h0, _. split; [by destruct s|]. split; [done|]. split.
    + intros x y. change (rev (seqZ 0 0)) with (@nil Z). intros Ha. cbn [app] in Ha. rewrite !adj_cons in Ha. cbn [head] in Ha.
      destruct Ha as [[<- [=<-]]|[[_ ?]|Ha]]; [|done|by destruct Ha as ([] & ? & ?)].
      cbn [bufs upd_buf set_bufs hk set_ms]. autorewrite with ring. by rewrite !fn_lookup_insert.
    + intros b Hb. lia.
    + eapply unused_same; [|exact Hu]. intros x. cbn [bufs upd_buf set_bufs hk set_ms].
      repeat (etrans; [by apply same_block_upd|]). done.
  - intros j s' Hj (h & B & -> & Hh' & HB). unfold bget_, bset, initsleeplock.
    apply wp_bind, wp_gets, wp_bind, wp_modify, wp_bind, wp_modify, wp_bind, wp_bind.
    eapply wp_initlock; [exact Hh'|notin|]. intros h1 H1. apply wp_modify.
    apply wp_bind, wp_gets, wp_bind, wp_modify, wp_bind, wp_modify, wp_ret.
    exists h1, (linkbuf B j). split; [by destruct s|]. split; [done|]. apply linking_step; [lia|done].
  - intros s' (h & B & -> & Hh' & HB). apply wp_ret. apply HQ; [done|]. apply linking_all, HB.
Qed.

(** An empty cache shows the disk. *)
Lemma empty_cache_binv {c me dev : Z} {DEV : BlockDev} {DOK : BlockDevOk c me} s P :
  runs c me [] s -> dok (vd s) -> empty_cache dev (bufs s) -> (forall blk, P blk = 0) ->
  binv (c := c) (me := me) (dev := dev) (image s) P [] s.
Proof.
  intros Hr Hd [Hring Hk [Hdev Href Hdisk]] HP.
  assert (forall blk b, ~ cached (dev := dev) (bufs s) blk b) as Hno.
  { intros blk b (Hb & E & _). by apply (Hdev b). }
  split; try done; try apply NoDup_nil_2.
  - intros blk b b' Hc. by apply Hno in Hc.
  - intros blk b Hc. by apply Hno in Hc.
  - intros blk. by left.
  - intros b Hb. by apply not_elem_of_nil in Hb.
  - intros b Hb. unfold pins. rewrite decide_False by by apply Hdev.
    rewrite decide_False by apply not_elem_of_nil. by apply Href.
  - intros blk. rewrite HP. split; [lia|done].
Qed.

(** ** The cache's contract *)

(** [binit] makes an empty cache: with buffers that hold no block of the
    device, it returns with all of them in the ring, unlocked, and the
    cache then shows every block as it is on disk. *)
Theorem binit_empty {c me dev : Z} {DEV : BlockDev} {DOK : BlockDevOk c me} s n :
  runs c me [] s -> dok (vd s) -> unused dev (bufs s) ->
  exists s', binit n s = Ret tt s' /\ empty_cache dev (bufs s') /\
    binv (c := c) (me := me) (dev := dev) (image s) (fun _ => 0) [] s'.
Proof.
  intros [Hh Hcpu Hst Hch] Hd Hu. apply wp_elim_unit, (wp_binit c dev); [done..|]. intros h B Hh' HB. split; [done|].
  by apply (empty_cache_binv (set_bufs B (hk h s))).
Qed.

Section contract.
Context {c me dev : Z} {DEV : BlockDev} {DOK : BlockDevOk c me}.
Abbreviation inv := (binv (c := c) (me := me) (dev := dev)).

(** C19: the cache is coherent. In a cache that shows the blocks [V], with the
    process holding the buffers [H] and none of block [blk], [bread] returns a
    locked buffer with the contents [V blk], whether the block was cached, or
    read from the disk into a buffer nobody refers to; the cache goes on showing
    [V], no block is in two buffers, and nothing is written. A write of
    new contents [d] to the buffer then shows in [V] for that block alone. *)
Theorem bread_coherent V P H s blk n d :
  (Z.to_nat NBUF < n)%nat -> (dfuel < n)%nat -> inv V P H s -> 0 <= blk < 2 ^ 31 ->
  (forall b, b ∈ H -> b_blockno (bufs s b) <> blk) -> is_cached (dev := dev) s blk \/ room s ->
  exists b s', bread dev blk n s = Ret b s' /\ (b ∉ H) /\ b_blockno (bufs s' b) = blk /\
    b_data (bufs s' b) = V blk /\ medium s' = medium s /\ inv V P (b :: H) s' /\
    inv (<[blk := d]> V) P (b :: H) (upd_buf b (set_b_data d) s').
Proof.
  intros Hn Hdn Hi Hblk HH Hr. destruct (wp_elim _ _ _ _ (wp_bread V P H s blk n Hn Hdn Hi Hblk HH Hr))
    as (b & s' & E & _ & Hm & Hi' & Hb & Hd & Hnin & _).
  exists b, s'. split_and!; try done. rewrite <-Hb. apply binv_data; [done|]. apply list_elem_of_here.
Qed.

(** [bwrite] puts a held buffer on disk: it returns with exactly one more
    write, of the contents the cache shows for the block. [brelse] then
    gives the buffer up, which the cache may recycle since the disk has its
    contents, and still shows the same blocks. *)
Theorem bwrite_durable V P H s b n :
  (dfuel < n)%nat -> inv V P (b :: H) s ->
  let blk := b_blockno (bufs s b) in
  exists s1 s2, bwrite b n s = Ret tt s1 /\ image s1 blk = V blk /\ (forall x, x <> blk -> image s1 x = image s x) /\
    brelse b n s1 = Ret tt s2 /\ inv V P H s2 /\ image s2 = image s1.
Proof.
  intros Hdn Hi blk. destruct (wp_elim _ _ _ _ (wp_bwrite V P (b :: H) s b n Hdn Hi (list_elem_of_here _ _)))
    as ([] & s1 & E1 & F1 & I1 & B1 & M1). fold blk in M1.
  assert (image0 s1 = image0 s) as I0 by by destruct F1 as (? & ? & ? & ? & ? & _ & ->).
  assert (image s1 blk = V blk) as Im by (unfold image; rewrite M1; cbn; by rewrite Z.eqb_refl).
  assert (0 < n)%nat as Hn by lia.
  destruct (wp_elim _ _ _ _ (wp_brelse V P (b :: H) H s1 b n Hn I1 (reflexivity _) ltac:(rewrite B1; done)))
    as ([] & s2 & E2 & F2 & M2 & I2 & _).
  exists s1, s2. split_and!; try done.
  - intros x Hx. unfold image. rewrite M1, I0. cbn. by rewrite (proj2 (Z.eqb_neq _ _)) by done.
  - unfold image. rewrite M2. by destruct F2 as (? & ? & ? & ? & ? & _ & ->).
Qed.

End contract.
