(* ===== verification/LogProof.v ===== *)
(** * The log: correctness of commit and recovery

    [src/kernel/log.c] on top of the buffer cache: the exact sequence of disk
    writes of a commit and of a recovery, and what they do to the contents of
    the disk. *)

From Stdlib Require Import FunctionalExtensionality.
From S2P Require Import Prelude Riscv Spinlock Str Kalloc Kernel Proc Sleeplock Bio Log KernelWp Ring BioProof.

(** ** Sequences of writes *)

(** The disk contents after the writes [ws], oldest first. *)
Definition applyw (ws : list (Z * bytes)) (im : Z -> bytes) : Z -> bytes :=
  foldl (fun im '(b, d) => <[b := d]> im) im ws.

Lemma applyw_app ws ws' im : applyw (ws ++ ws') im = applyw ws' (applyw ws im).
Proof. apply foldl_app. Qed.

Lemma applyw_snoc ws b d im : applyw (ws ++ [(b, d)]) im = <[b := d]> (applyw ws im).
Proof. by rewrite applyw_app. Qed.

Lemma applyw_out ws im b : b ∉ ws.*1 -> applyw ws im b = im b.
Proof.
  revert im. induction ws as [|[b' d] ws IH]; intros im Hb; [done|]. cbn in *.
  apply not_elem_of_cons in Hb as [? ?]. change (applyw ws (<[b' := d]> im) b = im b).
  rewrite IH by done. by rewrite fn_insert_spec, decide_False.
Qed.

Lemma applyw_in ws im b d : NoDup ws.*1 -> (b, d) ∈ ws -> applyw ws im b = d.
Proof.
  intros Hnd (ws1 & ws2 & ->)%list_elem_of_split. rewrite applyw_app.
  rewrite fmap_app, NoDup_app in Hnd. cbn in Hnd. destruct Hnd as (_ & _ & Hnd).
  apply NoDup_cons in Hnd as [Hb _].
  change (applyw ws2 (<[b := d]> (applyw ws1 im)) b = d).
  rewrite applyw_out by done. by rewrite fn_lookup_insert.
Qed.

Lemma find_write_app ws W im b :
  default (im b) (find_write (rev ws ++ W) b) = applyw ws (fun b => default (im b) (find_write W b)) b.
Proof.
  induction ws as [|[b' d] ws IH] using rev_ind; [done|].
  rewrite rev_unit, applyw_snoc. cbn. rewrite fn_insert_spec.
  destruct (Z.eqb_spec b' b) as [->|]; [by rewrite decide_True|]. by rewrite decide_False, IH.
Qed.

(** A state whose disk has done [ws] more writes. *)
Lemma image_writes s s' ws :
  image0 s' = image0 s -> medium s' = rev ws ++ medium s -> image s' = applyw ws (image s).
Proof.
  intros E0 Em. apply functional_extensionality. intros b. unfold image. rewrite Em, E0.
  pose proof (find_write_app ws (medium s) (image0 s) b) as Hf.
  destruct (find_write (rev ws ++ medium s) b) eqn:E; cbn in Hf; rewrite Hf;
    (f_equal; apply functional_extensionality; intros b'; by destruct (find_write (medium s) b')).
Qed.

Lemma bframe_image0 s s' : bframe s s' -> image0 s' = image0 s.
Proof. by intros (h & ps & B & v & W & _ & ->). Qed.

(** ** The log header *)

Fixpoint put_blocks (d : bytes) (i : Z) (L : list Z) : bytes :=
  match L with
  | [] => d
  | b :: L' => put_blocks (Str.st 4 d (4 + 4 * i) b) (i + 1) L'
  end.

(** The header block with the blocks [L], over its old contents [d]. *)
Definition hdr (d : bytes) (L : list Z) : bytes :=
  put_blocks (Str.st 4 d 0 (Z.of_nat (length L))) 0 L.

Lemma put_blocks_snoc d i L b :
  put_blocks d i (L ++ [b]) = Str.st 4 (put_blocks d i L) (4 + 4 * (i + Z.of_nat (length L))) b.
Proof.
  revert d i. induction L as [|a L IH]; intros d i; cbn -[Z.of_nat Str.st].
  - f_equal. lia.
  - rewrite IH. f_equal. lia.
Qed.

Lemma ld_st_ne k m a b v :
  a + 4 <= b \/ b + Z.of_nat k <= a -> ld k (Str.st 4 m a v) b = ld k m b.
Proof.
  intros Hab. apply ld_ext. intros x Hx. apply st_out. lia.
Qed.

Lemma put_blocks_out d i L a : a <= 4 * i -> ld 4 (put_blocks d i L) a = ld 4 d a.
Proof.
  revert d i. induction L as [|b L IH]; intros d i Ha; [done|]. cbn [put_blocks].
  rewrite IH by lia. apply ld_st_ne. lia.
Qed.

Lemma hd_n_hdr d L : Z.of_nat (length L) < 2 ^ 31 -> hd_n (hdr d L) = Z.of_nat (length L).
Proof.
  intros Hl. unfold hd_n, hdr. rewrite put_blocks_out by lia. rewrite ld_st.
  rewrite Z.mod_small by lia. apply s32_small. lia.
Qed.

Lemma hd_block_hdr d L i b :
  L !! i = Some b -> 0 <= b < 2 ^ 31 -> hd_block (hdr d L) (Z.of_nat i) = b.
Proof.
  intros Hi Hb. unfold hd_block, hdr. set (d0 := Str.st 4 d 0 _). clearbody d0.
  assert (forall L d k i, L !! i = Some b -> ld 4 (put_blocks d k L) (4 + 4 * (k + Z.of_nat i)) = b) as Hp.
  { clear -Hb. induction L as [|a L IH]; intros d k i Hi; [done|]. destruct i as [|i]; cbn in Hi; simplify_eq.
    - cbn [put_blocks]. rewrite Z.add_0_r, put_blocks_out by lia. rewrite ld_st, Z.mod_small by lia. done.
    - cbn [put_blocks]. rewrite <-(IH (Str.st 4 d (4 + 4 * k) a) (k + 1) i Hi). f_equal. lia. }
  pose proof (Hp L d0 0 i Hi) as E. rewrite Z.add_0_l in E. rewrite E. apply s32_small. lia.
Qed.

(** ** The log in use *)

(** The pins of a transaction on the blocks [L]. *)
Definition pinsL (L : list Z) (blk : Z) : Z := if decide (blk ∈ L) then 1 else 0.

Lemma pinsL_in L blk : blk ∈ L -> pinsL L blk = 1.
Proof. intros. unfold pinsL. by rewrite decide_True. Qed.

Lemma pinsL_out L blk : blk ∉ L -> pinsL L blk = 0.
Proof. intros. unfold pinsL. by rewrite decide_False. Qed.

Section log.
Context {c me dev : Z} {DEV : BlockDev} {DOK : BlockDevOk c me}.
(** The first block of the log, which holds the header. *)
Context (S0 : Z).
Context (Hdev : 0 <= dev < 2 ^ 31) (HS0 : 0 <= S0 /\ S0 + LOGSIZE < 2 ^ 31).

(** A block outside the log. *)
Definition isdata (blk : Z) : Prop := 0 <= blk < 2 ^ 31 /\ ~ (S0 <= blk < S0 + LOGSIZE).

(** The log's variables in memory hold the blocks [L]. *)
Record logs (s : kernel) (L : list Z) : Prop := {
  lo_start : lg_start (klog s) = S0;
  lo_dev : lg_dev (klog s) = dev;
  lo_n : lh_n (klog s) = Z.of_nat (length L);
  lo_block : forall i b, L !! i = Some b -> lh_block (klog s) (Z.of_nat i) = b
}.

(** The blocks of a transaction: no duplicates, none in the log, and few
    enough for the cache to hold them all with a buffer to spare. *)
Record trans (L : list Z) : Prop := {
  tr_nodup : NoDup L;
  tr_data : Forall isdata L;
  tr_len : Z.of_nat (length L) < LOGSIZE
}.

Lemma logs_bframe s s' L : bframe s s' -> logs s L -> logs s' L.
Proof. intros Hf [? ? ? ?]. rewrite <-(bframe_klog _ _ Hf) in *. by split. Qed.

(** The writes of [write_log] and [install_trans], in order. *)
Definition logw (V : Z -> bytes) (L : list Z) : list (Z * bytes) :=
  imap (fun i blk => (S0 + Z.of_nat i + 1, V blk)) L.
Definition instw (V : Z -> bytes) (L : list Z) : list (Z * bytes) := (fun blk => (blk, V blk)) <$> L.

Lemma logw_blocks V L blk : blk ∈ (logw V L).*1 -> S0 < blk <= S0 + Z.of_nat (length L).
Proof.
  unfold logw. intros ([b d] & -> & Hin)%list_elem_of_fmap.
  apply elem_of_lookup_imap in Hin as (i & x & [= -> ->] & Hi). apply lookup_lt_Some in Hi. cbn. lia.
Qed.

Lemma logw_data V L im blk : Z.of_nat (length L) < LOGSIZE -> isdata blk -> applyw (logw V L) im blk = im blk.
Proof.
  intros Hl Hd. apply applyw_out. intros Hin. apply logw_blocks in Hin. unfold isdata in Hd. lia.
Qed.

Lemma logw_nodup V L : NoDup (logw V L).*1.
Proof.
  unfold logw. rewrite fmap_imap. apply NoDup_alt. intros i j x.
  rewrite !list_lookup_imap. destruct (L !! i), (L !! j); cbn; intros; simplify_eq. lia.
Qed.

Lemma take_S_lookup {A} (l : list A) i x : l !! i = Some x -> take (S i) l = take i l ++ [x].
Proof. apply take_S_r. Qed.

Lemma trans_room V L H s : trans L -> (length H = 0)%nat -> binv (c := c) (me := me) (dev := dev) V (pinsL L) H s -> room s.
Proof.
  intros Ht Hl Hi. apply (binv_room V (pinsL L) H s L Hi).
  - intros blk Hp. unfold pinsL in Hp. by destruct (decide _).
  - destruct Ht. unfold NBUF, LOGSIZE in *. lia.
Qed.

(** ** Copying one block to another *)

Abbreviation inv := (binv (c := c) (me := me) (dev := dev)).

Context (n : nat) (Hn : (Z.to_nat NBUF < n)%nat) (Hdn : (dfuel < n)%nat).

(** Read block [x] with no buffer held. *)
Lemma wp_read1 V P s x (LP : list Z) (Q : Z -> kernel -> Prop) :
  inv V P [] s -> 0 <= x < 2 ^ 31 -> (forall blk, P blk <> 0 -> blk ∈ LP) -> Z.of_nat (length LP) < NBUF ->
  (forall b s', bframe s s' -> medium s' = medium s -> inv V P [b] s' ->
     b_blockno (bufs s' b) = x -> b_data (bufs s' b) = V x -> Q b s') ->
  wp (bread dev x) n s Q.
Proof.
  intros Hi Hx HLP Hlen HQ. eapply wp_mono.
  - apply (wp_bread V P [] s x n); [done..| |].
    + intros b Hb. by apply not_elem_of_nil in Hb.
    + right. eapply binv_room; [done|done|]. cbn. lia.
  - cbn beta. intros b s' (Hf & Hm & Hi' & Hbk & Hda & _ & _). by apply HQ.
Qed.

(** Read block [y] while the buffer of block [x] is held. *)
Lemma wp_read2 V P s b1 y (LP : list Z) (Q : Z -> kernel -> Prop) :
  inv V P [b1] s -> b_blockno (bufs s b1) <> y -> 0 <= y < 2 ^ 31 ->
  (forall blk, P blk <> 0 -> blk ∈ LP) -> P y <> 0 \/ Z.of_nat (length LP) + 1 < NBUF ->
  (forall b s', bframe s s' -> medium s' = medium s -> inv V P [b; b1] s' -> b <> b1 ->
     b_blockno (bufs s' b) = y -> b_data (bufs s' b) = V y -> bufs s' b1 = bufs s b1 -> Q b s') ->
  wp (bread dev y) n s Q.
Proof.
  intros Hi Hne Hy HLP Hlen HQ. eapply wp_mono.
  - apply (wp_bread V P [b1] s y n); [done..| |].
    + by intros b ->%list_elem_of_singleton.
    + destruct Hlen as [HP|Hlen]; [left; by eapply binv_pinned|right].
      eapply binv_room; [done|done|]. cbn. lia.
  - cbn beta. intros b s' (Hf & Hm & Hi' & Hbk & Hda & Hbn & Hoth).
    assert (b <> b1) by (intros ->; apply Hbn, list_elem_of_here). apply HQ; try done. by apply Hoth.
Qed.

(** One round of [write_log]. *)
Lemma wp_log_block {A} V P s x y tail (LP : list Z) (r : A) (Q : A -> kernel -> Prop) :
  inv V P [] s -> 0 <= x < 2 ^ 31 -> 0 <= y < 2 ^ 31 -> x <> y -> P y <> 0 ->
  (forall blk, P blk <> 0 -> blk ∈ LP) -> Z.of_nat (length LP) < NBUF -> lh_block (klog s) tail = y ->
  (forall s', bframe s s' -> medium s' = (x, V y) :: medium s -> inv (<[x := V y]> V) P [] s' -> Q r s') ->
  wp (to ← bread dev x; blk ← lgget (fun l => lh_block l tail); from ← bread dev (u32 blk);
      d ← bget_ from b_data; bset to (set_b_data d);; bwrite to;; brelse from;; brelse to;; mret r) n s Q.
Proof.
  intros Hi Hx Hy Hne HPy HLP Hlen Hblk HQ.
  apply wp_bind. eapply wp_read1; [done..|]. intros b1 s1 F1 M1 I1 B1 D1.
  apply wp_bind, wp_lgget. rewrite (bframe_klog _ _ F1), Hblk, u32_small by lia.
  apply wp_bind. eapply wp_read2; [done|by rewrite B1|done|done|by left|].
  intros b2 s2 F2 M2 I2 N2 B2 D2 O2. unfold bget_, bset. wp_steps.
  assert (b_blockno (bufs s2 b1) = x) as B1' by by rewrite O2.
  pose proof (binv_data _ _ _ _ b1 (b_data (bufs s2 b2)) I2) as I3.
  rewrite D2, B1' in *. specialize (I3 (list_elem_of_further _ _ _ (list_elem_of_here _ _))).
  set (s3 := upd_buf b1 (set_b_data (V y)) s2) in *.
  eapply wp_mono; [apply (wp_bwrite _ _ _ _ b1 n Hdn I3); right; apply list_elem_of_here|].
  intros [] s4 (F4 & I4 & B4 & M4).
  assert (b_blockno (bufs s4 b1) = x) as E1 by (rewrite B4; cbn; by rewrite fn_lookup_insert).
  assert (b_blockno (bufs s4 b2) = y) as E2 by (rewrite B4; cbn; by rewrite fn_insert_spec, decide_False).
  rewrite <-B4, E1, fn_lookup_insert in M4.
  apply wp_bind. eapply wp_mono; [eapply (wp_brelse _ _ [b2; b1] [b1]); [lia|exact I4|done|]|].
  { rewrite E2. intros ?. done. }
  intros [] s5 (F5 & M5 & I5 & D5).
  apply wp_bind. eapply wp_mono; [eapply (wp_brelse _ _ [b1] []); [lia|exact I5|done|]|].
  { destruct (D5 b1) as [-> _]. rewrite E1. intros _. unfold image.
    rewrite M5, M4. cbn. by rewrite Z.eqb_refl, fn_lookup_insert. }
  intros [] s6 (F6 & M6 & I6 & _). apply wp_ret, HQ; [| |done].
  - assert (bframe s2 s3) as F3 by apply bframe_upd_buf. frames.
  - rewrite M6, M5, M4. subst s3. cbn. by rewrite M2, M1.
Qed.

(** One round of [install_trans]. *)
Lemma wp_install_block {A} V P s x y tail (LP : list Z) (recovering : bool) (r : A) (Q : A -> kernel -> Prop) :
  inv V P [] s -> 0 <= x < 2 ^ 31 -> 0 <= y < 2 ^ 31 -> x <> y -> P x = 0 ->
  (forall blk, P blk <> 0 -> blk ∈ LP) -> Z.of_nat (length LP) < NBUF ->
  (if recovering then Z.of_nat (length LP) + 1 < NBUF else 0 < P y) -> lh_block (klog s) tail = y ->
  (forall s', bframe s s' -> medium s' = (y, V x) :: medium s ->
     inv (<[y := V x]> V) (if recovering then P else <[y := P y - 1]> P) [] s' -> Q r s') ->
  wp (lbuf ← bread dev x; blk ← lgget (fun l => lh_block l tail); dbuf ← bread dev (u32 blk);
      d ← bget_ lbuf b_data; bset dbuf (set_b_data d);; bwrite dbuf;;
      when (negb recovering) (bunpin dbuf);; brelse lbuf;; brelse dbuf;; mret r) n s Q.
Proof.
  intros Hi Hx Hy Hne HPx HLP Hlen Hrec Hblk HQ.
  assert (image s x = V x) as Hclean.
  { eapply binv_clean; [done|done|]. intros b Hb. by apply not_elem_of_nil in Hb. }
  apply wp_bind. eapply wp_read1; [done..|]. intros b1 s1 F1 M1 I1 B1 D1.
  apply wp_bind, wp_lgget. rewrite (bframe_klog _ _ F1), Hblk, u32_small by lia.
  apply wp_bind. eapply wp_read2; [done|by rewrite B1|done|done|destruct recovering; [by right|left; lia]|].
  intros b2 s2 F2 M2 I2 N2 B2 D2 O2. unfold bget_, bset. wp_steps. rewrite O2, D1.
  pose proof (binv_data _ _ _ _ b2 (V x) I2 (list_elem_of_here _ _)) as I3. rewrite B2 in I3.
  set (s3 := upd_buf b2 (set_b_data (V x)) s2) in *. assert (bframe s2 s3) as F3 by apply bframe_upd_buf.
  eapply wp_mono; [apply (wp_bwrite _ _ _ _ b2 n Hdn I3); apply list_elem_of_here|].
  intros [] s4 (F4 & I4 & B4 & M4).
  assert (b_blockno (bufs s4 b1) = x) as E1.
  { rewrite B4. cbn. rewrite fn_insert_spec, decide_False by done. by rewrite O2. }
  assert (b_blockno (bufs s4 b2) = y) as E2 by (rewrite B4; cbn; by rewrite fn_lookup_insert).
  rewrite <-B4, E2, fn_lookup_insert in M4.
  apply wp_bind. set (P' := if recovering then P else <[y := P y - 1]> P).
  apply wp_mono with (fun _ s5 => bframe s4 s5 /\ medium s5 = medium s4 /\ inv (<[y := V x]> V) P' [b2; b1] s5 /\
    (forall b', b_blockno (bufs s5 b') = b_blockno (bufs s4 b') /\ b_data (bufs s5 b') = b_data (bufs s4 b'))).
  { subst P'. destruct recovering; cbn [negb when]; [by apply wp_ret|].
    pose proof (wp_bunpin _ _ _ _ b2 n ltac:(lia) I4 (list_elem_of_here _ _)) as Hp. rewrite E2 in Hp. by apply Hp. }
  intros [] s5 (F5 & M5 & I5 & D5).
  assert (P' x = 0) as HP'x.
  { subst P'. destruct recovering; [done|]. by rewrite fn_insert_spec, decide_False. }
  assert (forall t, image0 t = image0 s4 -> medium t = medium s4 ->
    image t x = (<[y := V x]> V) x /\ image t y = (<[y := V x]> V) y) as Him.
  { intros t T0 Tm. unfold image. rewrite T0, Tm, M4. cbn. rewrite Z.eqb_refl, (proj2 (Z.eqb_neq y x)) by done.
    rewrite fn_lookup_insert, fn_insert_spec, decide_False by done. split; [|done].
    subst s3. cbn. rewrite M2, M1, <-Hclean. unfold image.
    by rewrite (bframe_image0 _ _ F4); cbn; rewrite (bframe_image0 _ _ F2), (bframe_image0 _ _ F1). }
  apply wp_bind. eapply wp_mono; [eapply (wp_brelse _ _ [b2; b1] [b2]); [lia|exact I5|apply Permutation_swap|]|].
  { destruct (D5 b1) as [-> _]. rewrite E1. intros _. apply (Him s5); [apply (bframe_image0 _ _ F5)|done]. }
  intros [] s6 (F6 & M6 & I6 & D6).
  apply wp_bind. eapply wp_mono; [eapply (wp_brelse _ _ [b2] []); [lia|exact I6|done|]|].
  { destruct (D6 b2) as [-> _], (D5 b2) as [-> _]. rewrite E2. intros _. apply (Him s6); [|congruence].
    by rewrite (bframe_image0 _ _ F6), (bframe_image0 _ _ F5). }
  intros [] s7 (F7 & M7 & I7 & _). apply wp_ret, HQ; [frames| |done].
  rewrite M7, M6, M5, M4. subst s3. cbn. by rewrite M2, M1.
Qed.

(** ** The loops *)

Lemma u32_dev : u32 dev = dev.
Proof. apply u32_small. lia. Qed.

Lemma wp_write_log V L s :
  inv V (pinsL L) [] s -> logs s L -> trans L ->
  wp write_log n s (fun _ s' => bframe s s' /\ medium s' = rev (logw V L) ++ medium s /\
    inv (applyw (logw V L) V) (pinsL L) [] s').
Proof.
  intros Hi Hl Ht. pose proof (tr_len _ Ht) as Hlen. unfold write_log.
  assert (length (logw V L) = length L) as Hlw by (unfold logw; apply length_imap).
  apply (wp_loop _ (fun k tail s' => exists i, tail = Z.of_nat i /\ (i <= length L)%nat /\ k = (length L - i)%nat /\
    bframe s s' /\ medium s' = rev (take i (logw V L)) ++ medium s /\
    inv (applyw (take i (logw V L)) V) (pinsL L) [] s')) with (k := length L).
  - intros k tail s' (i & -> & Hi1 & -> & F & M & I). pose proof (logs_bframe _ _ _ F Hl) as Hl'.
    apply wp_bind, wp_lgget. rewrite (lo_n _ _ Hl').
    destruct (Z.ltb_spec (Z.of_nat i) (Z.of_nat (length L))) as [Hlt|]; cbn [negb].
    2: { apply wp_ret. replace i with (length (logw V L)) in * by lia. rewrite take_ge in * by lia. done. }
    destruct (lookup_lt_is_Some_2 L i) as [y Hy]; [lia|].
    assert (logw V L !! i = Some (S0 + Z.of_nat i + 1, V y)) as Hw by (unfold logw; by rewrite list_lookup_imap, Hy).
    pose proof (proj1 (Forall_lookup _ _) (tr_data _ Ht) _ _ Hy) as Hdy.
    assert (applyw (take i (logw V L)) V y = V y) as HVy.
    { apply applyw_out. intros Hin. destruct (logw_blocks V L y).
      - rewrite <-(take_drop i (logw V L)), fmap_app. apply elem_of_app. by left.
      - unfold isdata in Hdy. unfold LOGSIZE, MAXOPBLOCKS in *. lia. }
    apply wp_bind, wp_lgget. apply wp_bind, wp_lgget.
    rewrite (lo_dev _ _ Hl'), (lo_start _ _ Hl'), u32_dev, (u32_small (S0 + Z.of_nat i + 1))
      by (unfold LOGSIZE, MAXOPBLOCKS in *; lia).
    apply (wp_log_block _ _ _ _ y _ L _ _ I).
    + unfold LOGSIZE, MAXOPBLOCKS in *. lia.
    + apply Hdy.
    + unfold isdata, LOGSIZE, MAXOPBLOCKS in *. lia.
    + rewrite pinsL_in; [done|]. by eapply list_elem_of_lookup_2.
    + intros blk Hp. unfold pinsL in Hp. by destruct (decide _).
    + unfold NBUF, LOGSIZE in *. lia.
    + by apply Hl'.
    + rewrite HVy. intros s'' F' M' I'. exists (length L - S i)%nat. split; [lia|]. exists (S i).
      split; [lia|]. split; [lia|]. split; [done|]. split; [frames|].
      rewrite (take_S_lookup _ _ _ Hw), applyw_snoc, rev_unit. split; [|done].
      by rewrite M', M.
  - unfold NBUF, LOGSIZE in *. lia.
  - exists 0%nat. split; [done|]. split; [lia|]. split; [lia|]. split; [reflexivity|]. done.
Qed.

Lemma elem_of_dropped {A} (x : A) i l : x ∈ drop i l -> x ∈ l.
Proof. intros Hx. rewrite <-(take_drop i l). apply elem_of_app. by right. Qed.

(** The writes of [install_trans], in order, when block [S0 + i + 1] is seen
    as [V] says. *)
Definition recw (V : Z -> bytes) (L : list Z) : list (Z * bytes) :=
  imap (fun i blk => (blk, V (S0 + Z.of_nat i + 1))) L.

Lemma recw_blocks V L : (recw V L).*1 = L.
Proof.
  apply list_eq. intros i. unfold recw. rewrite list_lookup_fmap, list_lookup_imap. by destruct (L !! i).
Qed.

Lemma pinsL_drop L i y :
  NoDup L -> L !! i = Some y ->
  <[y := pinsL (drop i L) y - 1]> (pinsL (drop i L)) = pinsL (drop (S i) L).
Proof.
  intros Hnd Hy. rewrite (drop_S _ _ _ Hy).
  assert (NoDup (y :: drop (S i) L)) as Hnd'.
  { rewrite <-(drop_S _ _ _ Hy). rewrite <-(take_drop i L) in Hnd. by apply NoDup_app in Hnd as (_ & _ & ?). }
  apply NoDup_cons in Hnd' as [Hyn _].
  apply functional_extensionality. intros blk. rewrite fn_insert_spec. unfold pinsL.
  rewrite (decide_True (P := y ∈ y :: _)) by apply list_elem_of_here.
  destruct (decide (y = blk)) as [<-|Hne]; [by rewrite decide_False|].
  apply decide_ext. rewrite elem_of_cons. split; [by intros [?|?]|by right].
Qed.

Lemma wp_install_trans V L s (recovering : bool) :
  inv V (if recovering then pinsL [] else pinsL L) [] s -> logs s L -> trans L ->
  wp (install_trans recovering) n s (fun _ s' => bframe s s' /\ medium s' = rev (recw V L) ++ medium s /\
    inv (applyw (recw V L) V) (pinsL []) [] s').
Proof.
  intros Hi Hl Ht. pose proof (tr_len _ Ht) as Hlen. unfold install_trans.
  assert (length (recw V L) = length L) as Hlw by (unfold recw; apply length_imap).
  apply (wp_loop _ (fun k tail s' => exists i, tail = Z.of_nat i /\ (i <= length L)%nat /\ k = (length L - i)%nat /\
    bframe s s' /\ medium s' = rev (take i (recw V L)) ++ medium s /\
    inv (applyw (take i (recw V L)) V) (if recovering then pinsL [] else pinsL (drop i L)) [] s')) with (k := length L).
  - intros k tail s' (i & -> & Hi1 & -> & F & M & I). pose proof (logs_bframe _ _ _ F Hl) as Hl'.
    apply wp_bind, wp_lgget. rewrite (lo_n _ _ Hl').
    destruct (Z.ltb_spec (Z.of_nat i) (Z.of_nat (length L))) as [Hlt|]; cbn [negb].
    2: { apply wp_ret. replace i with (length (recw V L)) in * by lia. rewrite take_ge in * by lia.
         rewrite Hlw, drop_ge in I by lia. by destruct recovering. }
    destruct (lookup_lt_is_Some_2 L i) as [y Hy]; [lia|].
    assert (recw V L !! i = Some (y, V (S0 + Z.of_nat i + 1))) as Hw by (unfold recw; by rewrite list_lookup_imap, Hy).
    pose proof (proj1 (Forall_lookup _ _) (tr_data _ Ht) _ _ Hy) as Hdy.
    assert (forall LL, LL ⊆ L -> pinsL LL (S0 + Z.of_nat i + 1) = 0) as Hnolog.
    { intros LL Hsub. apply pinsL_out. intros Hin%Hsub. pose proof (proj1 (Forall_forall _ _) (tr_data _ Ht) _ Hin) as Hd.
      unfold isdata, LOGSIZE, MAXOPBLOCKS in *. lia. }
    assert (applyw (take i (recw V L)) V (S0 + Z.of_nat i + 1) = V (S0 + Z.of_nat i + 1)) as HVx.
    { apply applyw_out. rewrite fmap_take, recw_blocks. intros Hin%elem_of_take. destruct Hin as (j & Hj & _).
      pose proof (proj1 (Forall_lookup _ _) (tr_data _ Ht) _ _ Hj) as Hd.
      unfold isdata, LOGSIZE, MAXOPBLOCKS in *. lia. }
    do 2 apply wp_bind, wp_lgget.
    rewrite (lo_dev _ _ Hl'), (lo_start _ _ Hl'), u32_dev, (u32_small (S0 + Z.of_nat i + 1))
      by (unfold LOGSIZE, MAXOPBLOCKS in *; lia).
    apply (wp_install_block _ _ _ _ y _ (if recovering then [] else L) recovering _ _ I).
    + unfold LOGSIZE, MAXOPBLOCKS in *. lia.
    + apply Hdy.
    + unfold isdata, LOGSIZE, MAXOPBLOCKS in *. lia.
    + destruct recovering; apply Hnolog; [apply list_subseteq_nil|].
      intros z Hz. by apply elem_of_dropped in Hz.
    + intros blk Hp. destruct recovering; unfold pinsL in Hp; destruct (decide _) as [Hin|]; try done.
      by apply elem_of_dropped in Hin.
    + destruct recovering; unfold NBUF, LOGSIZE, MAXOPBLOCKS in *; cbn [length]; lia.
    + destruct recovering; [unfold NBUF, LOGSIZE, MAXOPBLOCKS in *; cbn [length]; lia|].
      rewrite pinsL_in; [lia|]. rewrite (drop_S _ _ _ Hy). apply list_elem_of_here.
    + by apply Hl'.
    + rewrite HVx. intros s'' F' M' I'. exists (length L - S i)%nat. split; [lia|]. exists (S i).
      split; [lia|]. split; [lia|]. split; [done|]. split; [frames|].
      rewrite (take_S_lookup _ _ _ Hw), applyw_snoc, rev_unit. split; [by rewrite M', M|].
      destruct recovering; [done|]. by rewrite <-(pinsL_drop L i y) by first [apply Ht|done].
  - unfold NBUF, LOGSIZE in *. lia.
  - exists 0%nat. split; [done|]. split; [lia|]. split; [lia|]. split; [reflexivity|]. done.
Qed.

(** ** The header block *)

Lemma wp_write_head V P L s (LP : list Z) :
  inv V P [] s -> logs s L -> Z.of_nat (length L) <= LOGSIZE -> P S0 = 0 ->
  (forall blk, P blk <> 0 -> blk ∈ LP) -> Z.of_nat (length LP) < NBUF ->
  wp write_head n s (fun _ s' => bframe s s' /\ medium s' = (S0, hdr (V S0) L) :: medium s /\
    inv (<[S0 := hdr (V S0) L]> V) P [] s').
Proof.
  intros Hi Hl Hlen HP HLP HLPn. unfold write_head. do 2 apply wp_bind, wp_lgget.
  rewrite (lo_dev _ _ Hl), (lo_start _ _ Hl), u32_dev, u32_small by (unfold LOGSIZE, MAXOPBLOCKS in *; lia).
  apply wp_bind. eapply wp_read1; [done|unfold LOGSIZE, MAXOPBLOCKS in *; lia|done|done|].
  intros b s1 F1 M1 I1 B1 D1. apply wp_bind, wp_lgget.
  rewrite (lo_n _ _ (logs_bframe _ _ _ F1 Hl)).
  set (d0 := Str.st 4 (V S0) 0 (Z.of_nat (length L))).
  apply wp_bind. unfold bset at 1. apply wp_modify.
  assert (upd_buf b (fun x => set_b_data (Str.st 4 (b_data x) 0 (Z.of_nat (length L))) x) s1 =
    upd_buf b (set_b_data d0) s1) as -> by (unfold upd_buf; by rewrite D1).
  apply wp_bind.
  eapply wp_mono with (Q := fun _ s' => s' = upd_buf b (set_b_data (hdr (V S0) L)) s1).
  { apply (wp_loop _ (fun k i s' => exists j, i = Z.of_nat j /\ (j <= length L)%nat /\
      k = (length L - j)%nat /\ s' = upd_buf b (set_b_data (put_blocks d0 0 (take j L))) s1)) with (k := length L).
    - intros k i s' (j & -> & Hj & -> & ->). apply wp_bind, wp_lgget. cbn [klog upd_buf set_bufs].
      pose proof (logs_bframe _ _ _ F1 Hl) as Hl1. rewrite (lo_n _ _ Hl1).
      destruct (Z.ltb_spec (Z.of_nat j) (Z.of_nat (length L))) as [Hlt|]; cbn [negb].
      2: { apply wp_ret. replace j with (length L) by lia. by rewrite take_ge by lia. }
      destruct (lookup_lt_is_Some_2 L j) as [y Hy]; [lia|].
      apply wp_bind, wp_lgget. cbn [klog upd_buf set_bufs]. rewrite (lo_block _ _ Hl1 _ _ Hy).
      apply wp_bind. unfold bset. apply wp_modify, wp_ret. exists (length L - S j)%nat. split; [lia|].
      exists (S j). split; [lia|]. split; [lia|]. split; [done|].
      rewrite upd_buf_twice, (take_S_lookup _ _ _ Hy), put_blocks_snoc, length_take, Nat.min_l by lia.
      unfold upd_buf. f_equal.
    - unfold NBUF, LOGSIZE, MAXOPBLOCKS in *. lia.
    - exists 0%nat. split; [done|]. split; [lia|]. split; [lia|]. done. }
  intros [] s2 ->. pose proof (binv_data _ _ _ _ b (hdr (V S0) L) I1 (list_elem_of_here _ _)) as I2.
  rewrite B1 in I2. set (s2 := upd_buf b (set_b_data (hdr (V S0) L)) s1) in *.
  assert (bframe s1 s2) as F2 by apply bframe_upd_buf.
  apply wp_bind. eapply wp_mono; [apply (wp_bwrite _ _ _ _ b n Hdn I2); apply list_elem_of_here|].
  intros [] s3 (F3 & I3 & B3 & M3).
  assert (b_blockno (bufs s3 b) = S0) as E3 by (rewrite B3; cbn; by rewrite fn_lookup_insert).
  rewrite <-B3, E3, fn_lookup_insert in M3.
  eapply wp_mono; [eapply (wp_brelse _ _ [b] []); [lia|exact I3|done|]|].
  { rewrite E3. intros _. unfold image. rewrite M3. cbn. by rewrite Z.eqb_refl, fn_lookup_insert. }
  intros [] s4 (F4 & M4 & I4 & _). split; [frames|]. split; [|done].
  rewrite M4, M3. subst s2. cbn. by rewrite M1.
Qed.

(** A header block that lists the blocks [L]. *)
Definition lists (d : bytes) (L : list Z) : Prop :=
  hd_n d = Z.of_nat (length L) /\ forall i b, L !! i = Some b -> hd_block d (Z.of_nat i) = b.

(** What [read_head] makes of the log's variables. *)
Definition read_log (kl : log) (d : bytes) (L : list Z) : log :=
  set_lh_block (foldl (fun f i => <[i := hd_block d i]> f) (lh_block kl) (seqZ 0 (Z.of_nat (length L))))
    (set_lh_n (Z.of_nat (length L)) kl).

Lemma wp_read_head V L s :
  inv V (pinsL []) [] s -> lg_start (klog s) = S0 -> lg_dev (klog s) = dev -> lists (V S0) L ->
  Z.of_nat (length L) <= LOGSIZE ->
  wp read_head n s (fun _ s' => bframe (set_klog (read_log (klog s) (V S0) L) s) s' /\ medium s' = medium s /\
    inv V (pinsL []) [] s').
Proof.
  intros Hi Hst Hde [Hln Hlb] Hlen. unfold read_head. do 2 apply wp_bind, wp_lgget.
  rewrite Hst, Hde, u32_dev, u32_small by (unfold LOGSIZE, MAXOPBLOCKS in *; lia).
  apply wp_bind. eapply (wp_read1 _ _ _ _ []); [done|unfold LOGSIZE, MAXOPBLOCKS in *; lia| |unfold NBUF, MAXOPBLOCKS; cbn; lia|].
  { intros blk Hp. unfold pinsL in Hp. by destruct (decide _). }
  intros b s1 F1 M1 I1 B1 D1. unfold bget_. apply wp_bind, wp_gets. rewrite D1, Hln.
  apply wp_bind. unfold lgset at 1. apply wp_modify, wp_bind.
  set (kl j := set_lh_block (foldl (fun f i => <[i := hd_block (V S0) i]> f) (lh_block (klog s)) (seqZ 0 j))
    (set_lh_n (Z.of_nat (length L)) (klog s))).
  eapply wp_mono with (Q := fun _ s' => s' = set_klog (read_log (klog s) (V S0) L) s1).
  { apply (wp_loop _ (fun k i s' => 0 <= i <= Z.of_nat (length L) /\ k = Z.to_nat (Z.of_nat (length L) - i) /\
      s' = set_klog (kl i) s1)) with (k := length L).
    - intros k i s' (Hi0 & -> & ->). apply wp_bind, wp_lgget. cbn [klog set_klog kl lh_n set_lh_n set_lh_block].
      destruct (Z.ltb_spec i (Z.of_nat (length L))) as [Hlt|]; cbn [negb].
      2: { apply wp_ret. by replace i with (Z.of_nat (length L)) by lia. }
      apply wp_bind. unfold lgset. apply wp_modify, wp_ret. eexists. split; [|split; [|split; [done|]]]; [lia|lia|].
      unfold kl. rewrite seqZ_app by lia. rewrite foldl_app. replace (seqZ (0 + i) 1) with [i]; [done|].
      rewrite seqZ_cons by lia. by rewrite seqZ_nil by lia.
    - unfold NBUF, LOGSIZE, MAXOPBLOCKS in *. lia.
    - split; [lia|]. split; [lia|]. unfold kl. rewrite seqZ_nil by lia. cbn.
      by rewrite (bframe_klog _ _ F1). }
  intros [] s2 ->.
  apply (binv_klog _ _ _ (read_log (klog s) (V S0) L)) in I1.
  eapply wp_mono; [eapply (wp_brelse _ _ [b] []); [lia|exact I1|done|]|].
  { cbn [bufs set_klog]. rewrite B1. intros _. change (image (set_klog _ s1) S0) with (image s1 S0).
    unfold image. rewrite M1, (bframe_image0 _ _ F1). apply (binv_clean _ _ _ _ S0 Hi); [done|].
    intros b' Hb'. by apply not_elem_of_nil in Hb'. }
  intros [] s3 (F3 & M3 & I3 & _). split; [|split; [|done]].
  - destruct F1 as (h & ps & B & v & W & Hw & ->), F3 as (h' & ps' & B' & v' & W' & Hw' & ->).
    exists h', ps', B', v', W'. split; [by etrans|done].
  - by rewrite M3.
Qed.

Lemma foldl_insert (g f : Z -> Z) l j :
  foldl (fun f i => <[i := g i]> f) f l j = if decide (j ∈ l) then g j else f j.
Proof.
  induction l as [|a l IH] using rev_ind; cbn [foldl].
  { rewrite decide_False; [done|apply not_elem_of_nil]. }
  rewrite foldl_app. cbn [foldl]. rewrite fn_insert_spec, IH.
  destruct (decide (a = j)) as [<-|Hne].
  - rewrite decide_True; [done|]. apply elem_of_app. right. apply list_elem_of_here.
  - apply decide_ext. rewrite elem_of_app, list_elem_of_singleton. split; [by left|by intros [?|?]].
Qed.

Lemma read_log_logs s d L :
  lg_start (klog s) = S0 -> lg_dev (klog s) = dev -> lists d L -> logs (set_klog (read_log (klog s) d L) s) L.
Proof.
  intros H1 H2 [_ Hb]. split; cbn [klog set_klog read_log lg_start lg_dev lh_n lh_block set_lh_block set_lh_n]; [done..|].
  intros i b Hi. rewrite <-(Hb i b Hi), foldl_insert. apply lookup_lt_Some in Hi.
  rewrite decide_True; [done|]. apply elem_of_seqZ. lia.
Qed.

(** ** commit *)

(** The writes of [commit], in order. *)
Definition commitw (V : Z -> bytes) (L : list Z) : list (Z * bytes) :=
  match L with
  | [] => []
  | _ => logw V L ++ [(S0, hdr (V S0) L)] ++ instw V L ++ [(S0, hdr (hdr (V S0) L) [])]
  end.

Lemma logw_lookup V L im i y :
  L !! i = Some y -> applyw (logw V L) im (S0 + Z.of_nat i + 1) = V y.
Proof.
  intros Hy. apply applyw_in; [apply logw_nodup|]. apply (list_elem_of_lookup_2 _ i).
  unfold logw. by rewrite list_lookup_imap, Hy.
Qed.

Lemma recw_instw V V' L :
  (forall i y, L !! i = Some y -> V' (S0 + Z.of_nat i + 1) = V y) -> recw V' L = instw V L.
Proof.
  intros HV. apply list_eq. intros i. unfold recw, instw. rewrite list_lookup_imap, list_lookup_fmap.
  destruct (L !! i) as [y|] eqn:Hy; [|done]. cbn. by rewrite (HV _ _ Hy).
Qed.

Lemma instw_blocks V L : (instw V L).*1 = L.
Proof. unfold instw. rewrite <-list_fmap_compose. apply list_fmap_id. Qed.

Lemma instw_same V V' L blk :
  NoDup L -> (forall y, y ∈ L -> V' y = V y) -> applyw (instw V L) V' blk = V' blk.
Proof.
  intros Hnd HV. destruct (decide (blk ∈ L)) as [Hin|Hout].
  - rewrite (applyw_in _ _ blk (V blk)); [by rewrite HV|by rewrite instw_blocks|].
    unfold instw. apply list_elem_of_fmap. by exists blk.
  - apply applyw_out. by rewrite instw_blocks.
Qed.

Lemma trans_S0 L : trans L -> S0 ∉ L.
Proof.
  intros Ht Hin. pose proof (proj1 (Forall_forall _ _) (tr_data _ Ht) _ Hin) as [_ Hd]. apply Hd.
  unfold LOGSIZE, MAXOPBLOCKS. lia.
Qed.

Lemma wp_commit V L s :
  inv V (pinsL L) [] s -> logs s L -> trans L ->
  wp commit n s (fun _ s' => bframe (set_klog (set_lh_n 0 (klog s)) s) s' /\
    medium s' = rev (commitw V L) ++ medium s /\
    exists V', inv V' (pinsL []) [] s' /\ forall blk, isdata blk -> V' blk = V blk).
Proof.
  intros Hi Hl Ht. unfold commit. apply wp_bind, wp_lgget. rewrite (lo_n _ _ Hl).
  destruct L as [|y0 L0] eqn:EL.
  { cbn [length Z.of_nat Z.ltb Z.compare when]. apply wp_ret.
    split; [|split; [done|exists V; done]].
    replace (set_klog (set_lh_n 0 (klog s)) s) with s; [reflexivity|].
    assert (set_lh_n 0 (klog s) = klog s) as ->; [|by destruct s as [[]]].
    pose proof (lo_n _ _ Hl) as Hz. destruct (klog s). cbn in *. by subst. }
  rewrite <-EL in *. assert (0 < Z.of_nat (length L)) as Hpos by (rewrite EL; cbn; lia).
  rewrite (proj2 (Z.ltb_lt _ _)) by lia. cbn [when]. pose proof (tr_len _ Ht) as Hlen.
  assert (pinsL L S0 = 0) as HP0 by (by apply pinsL_out, trans_S0).
  assert (forall LL blk, pinsL LL blk <> 0 -> blk ∈ LL) as Hpin.
  { intros LL blk Hp. unfold pinsL in Hp. by destruct (decide _). }
  apply wp_bind. eapply wp_mono; [by apply (wp_write_log V L)|]. intros [] s1 (F1 & M1 & I1).
  set (V1 := applyw (logw V L) V) in *.
  assert (V1 S0 = V S0) as HV1.
  { apply applyw_out. intros Hin. apply logw_blocks in Hin. lia. }
  apply wp_bind. eapply wp_mono.
  { eapply (wp_write_head V1 _ L s1 L I1); [by eapply logs_bframe|lia|done|apply Hpin|unfold NBUF, LOGSIZE in *; lia]. }
  intros [] s2 (F2 & M2 & I2). rewrite HV1 in *. set (V2 := <[S0 := hdr (V S0) L]> V1) in *.
  assert (forall i y, L !! i = Some y -> V2 (S0 + Z.of_nat i + 1) = V y) as HV2.
  { intros i y Hy. subst V2. rewrite fn_insert_spec, decide_False by lia. by apply logw_lookup. }
  assert (forall blk, isdata blk -> V2 blk = V blk) as HV2d.
  { intros blk Hd. subst V2. rewrite fn_insert_spec, decide_False; [by apply logw_data|].
    intros <-. destruct Hd as [_ Hd]. apply Hd. unfold LOGSIZE, MAXOPBLOCKS. lia. }
  apply wp_bind. eapply wp_mono.
  { apply (wp_install_trans V2 L s2 false I2); [|done]. eapply logs_bframe; [exact F2|]. by eapply logs_bframe. }
  rewrite (recw_instw V V2 L HV2). intros [] s3 (F3 & M3 & I3).
  set (V3 := applyw (instw V L) V2) in *.
  assert (forall blk, V3 blk = V2 blk) as HV3.
  { intros blk. apply instw_same; [apply Ht|]. intros y Hy. apply HV2d.
    by apply (proj1 (Forall_forall _ _) (tr_data _ Ht)). }
  apply wp_bind. unfold lgset. apply wp_modify. set (s3' := set_klog (set_lh_n 0 (klog s3)) s3).
  assert (bframe s s3) as F03 by frames.
  eapply wp_mono.
  { eapply (wp_write_head V3 (pinsL []) [] s3' []); [by apply binv_klog|..].
    - pose proof (logs_bframe _ _ _ F03 Hl) as []. by split; cbn.
    - unfold LOGSIZE, MAXOPBLOCKS. cbn. lia.
    - done.
    - apply Hpin.
    - unfold NBUF, MAXOPBLOCKS. cbn. lia. }
  assert (V3 S0 = hdr (V S0) L) as HV3S by (rewrite HV3; subst V2; by rewrite fn_lookup_insert).
  rewrite HV3S. intros [] s4 (F4 & M4 & I4). split; [|split].
  - destruct F03 as (h & ps & B & v & W & Hw & ->), F4 as (h' & ps' & B' & v' & W' & Hw' & ->).
    exists h', ps', B', v', W'. split; [by etrans|done].
  - rewrite M4. subst s3'. cbn [medium set_klog]. rewrite M3, M2, M1. unfold commitw. rewrite EL.
    rewrite <-EL. rewrite !rev_app_distr. cbn [rev app]. by rewrite <-!app_assoc.
  - eexists. split; [exact I4|]. intros blk Hd. rewrite fn_insert_spec, decide_False.
    + by rewrite HV3, HV2d.
    + intros <-. destruct Hd as [_ Hd]. apply Hd. unfold LOGSIZE, MAXOPBLOCKS. lia.
Qed.

(** ** Recovery *)

(** The writes of [recover_from_log], in order. *)
Definition recoverw (V : Z -> bytes) (L : list Z) : list (Z * bytes) := recw V L ++ [(S0, hdr (V S0) [])].

Lemma wp_recover V L s :
  inv V (pinsL []) [] s -> lg_start (klog s) = S0 -> lg_dev (klog s) = dev -> lists (V S0) L -> trans L ->
  wp recover_from_log n s (fun _ s' => bframe (set_klog (set_lh_n 0 (read_log (klog s) (V S0) L)) s) s' /\
    medium s' = rev (recoverw V L) ++ medium s /\
    inv (applyw (recoverw V L) V) (pinsL []) [] s').
Proof.
  intros Hi Hst Hde HL Ht. pose proof (tr_len _ Ht) as Hlen. unfold recover_from_log.
  apply wp_bind. eapply wp_mono; [by apply (wp_read_head V L); [..|lia]|]. intros [] s1 (F1 & M1 & I1).
  pose proof (read_log_logs s (V S0) L Hst Hde HL) as Hl0.
  assert (logs s1 L) as Hl1 by by eapply logs_bframe.
  apply wp_bind. eapply wp_mono; [by apply (wp_install_trans V L s1 true)|]. intros [] s2 (F2 & M2 & I2).
  assert (bframe (set_klog (read_log (klog s) (V S0) L) s) s2) as F02 by frames.
  assert (logs s2 L) as Hl2 by by eapply logs_bframe.
  apply wp_bind. unfold lgset. apply wp_modify. set (s2' := set_klog (set_lh_n 0 (klog s2)) s2).
  assert (applyw (recw V L) V S0 = V S0) as HVS.
  { apply applyw_out. rewrite recw_blocks. by apply trans_S0. }
  eapply wp_mono.
  { eapply (wp_write_head (applyw (recw V L) V) (pinsL []) [] s2' []); [by apply binv_klog|..].
    - destruct Hl2. by split; cbn.
    - unfold LOGSIZE, MAXOPBLOCKS. cbn. lia.
    - done.
    - intros blk Hp. unfold pinsL in Hp. by destruct (decide _).
    - unfold NBUF, MAXOPBLOCKS. cbn. lia. }
  rewrite HVS. intros [] s3 (F3 & M3 & I3). split; [|split].
  - destruct F02 as (h & ps & B & v & W & Hw & ->), F3 as (h' & ps' & B' & v' & W' & Hw' & ->).
    exists h', ps', B', v', W'. split; [by etrans|done].
  - rewrite M3. subst s2'. cbn [medium set_klog]. rewrite M2, M1. unfold recoverw. by rewrite rev_unit.
  - unfold recoverw. by rewrite applyw_snoc.
Qed.

End log.
