(* ===== verification/LogOps.v ===== *)
(** * Transactions

    What [src/kernel/log.c] promises the file system: between [begin_op] and
    [end_op] the process reads and writes a logical disk [V]; the physical disk
    keeps the contents [D] of the last commit until [end_op] replaces them by
    [V]. *)

From Stdlib Require Import FunctionalExtensionality.
From S2P Require Import Prelude Riscv Spinlock Str Kalloc Kernel Proc Sleeplock Bio Log KernelWp Ring BioProof LogProof.

(** What the routines of the log may change. *)
Definition lframe (s s' : kernel) : Prop := exists kl, bframe (set_klog kl s) s'.

#[global] Instance lframe_preorder : PreOrder lframe.
Proof.
  split.
  - intros s. exists (klog s). replace (set_klog (klog s) s) with s by by destruct s as [[]]. reflexivity.
  - intros s1 s2 s3 (kl & h & ps & B & v & W & Hw & ->) (kl' & h' & ps' & B' & v' & W' & Hw' & ->).
    exists kl', h', ps', B', v', W'. split; [by etrans|done].
Qed.

Lemma bframe_lframe s s' : bframe s s' -> lframe s s'.
Proof. intros Hf. exists (klog s). by replace (set_klog (klog s) s) with s by by destruct s as [[]]. Qed.

Lemma lframe_klog kl s : lframe s (set_klog kl s).
Proof. exists kl. reflexivity. Qed.

Lemma lframe_hart h s : lframe s (hk h s).
Proof.
  apply bframe_lframe. exists h, (procs s), (bufs s), (vd s), (medium s). split; [reflexivity|]. by destruct s as [[]].
Qed.

Lemma lframe_image0 s s' : lframe s s' -> image0 s' = image0 s.
Proof. intros (kl & h & ps & B & v & W & _ & ->). done. Qed.

Lemma lframe_procs s s' : lframe s s' -> woke (procs s) (procs s').
Proof. intros (kl & h & ps & B & v & W & Hw & ->). done. Qed.

Section ops.
Context {c me dev : Z} {DEV : BlockDev} {DOK : BlockDevOk c me}.
Context (S0 : Z).
Context (Hdev : 0 <= dev < 2 ^ 31) (HS0 : 0 <= S0 /\ S0 + LOGSIZE < 2 ^ 31).
Context (n : nat) (Hn : (Z.to_nat NBUF < n)%nat) (Hdn : (dfuel < n)%nat).

Abbreviation inv := (binv (c := c) (me := me) (dev := dev)).
Abbreviation isdata := (isdata S0).

(** Blocks [L] are in the transaction, buffers [H] are locked by the process,
    [o] operations are under way. *)
Record linv (D V : Z -> bytes) (L H : list Z) (o : Z) (s : kernel) : Prop := {
  ln_inv : inv V (pinsL L) H s;
  ln_logs : logs (dev := dev) S0 s L;
  ln_trans : trans S0 L;
  ln_size : lg_size (klog s) = LOGSIZE;
  ln_idle : lg_committing (klog s) = 0;
  ln_out : lg_outstanding (klog s) = o;
  ln_hdr : lists (image s S0) [];
  ln_disk : forall blk, isdata blk -> image s blk = D blk;
  ln_same : forall blk, isdata blk -> blk ∉ L -> (forall b, b ∈ H -> b_blockno (bufs s b) <> blk) -> V blk = D blk
}.

Lemma linv_bframe D V V' L H H' o s s' :
  linv D V L H o s -> bframe s s' -> medium s' = medium s -> inv V' (pinsL L) H' s' ->
  (forall blk, isdata blk -> blk ∉ L -> (forall b, b ∈ H' -> b_blockno (bufs s' b) <> blk) -> V' blk = D blk) ->
  linv D V' L H' o s'.
Proof.
  intros [] Hf Hm Hi Hs.
  assert (image s' = image s) as E.
  { apply (image_writes s s' []); [by apply bframe_image0|done]. }
  pose proof (logs_bframe _ _ _ _ Hf ln_logs0). rewrite <-(bframe_klog _ _ Hf) in *.
  split; try done; by rewrite E.
Qed.

(** ** begin_op *)

Lemma wp_begin_op D V L H o s (Q : unit -> kernel -> Prop) :
  linv D V L H o s -> 0 <= o -> Z.of_nat (length L) + (o + 1) * MAXOPBLOCKS <= LOGSIZE ->
  (forall s', lframe s s' -> medium s' = medium s -> bufs s' = bufs s -> linv D V L H (o + 1) s' -> Q tt s') ->
  wp begin_op n s Q.
Proof.
  intros Hl Ho Hroom HQ. pose proof Hl as []. unfold begin_op.
  apply wp_bind. eapply wp_lock; [lia|apply ln_inv0|apply not_elem_of_nil|]. intros h1 H1.
  apply wp_loop_once; [lia|]. apply wp_bind, wp_lgget. cbn [klog hk set_ms]. rewrite ln_idle0.
  cbn [Z.eqb negb]. do 2 apply wp_bind, wp_lgget. cbn [klog hk set_ms].
  rewrite (lo_n _ _ _ ln_logs0), ln_out0, (proj2 (Z.ltb_ge _ _)) by lia.
  unfold lgset. wp_steps.
  eapply wp_unlock; [exact H1|]. intros h2 H2. apply wp_ret, HQ.
  - exists (set_lg_outstanding (o + 1) (klog s)), h2, (procs s), (bufs s), (vd s), (medium s). split; reflexivity.
  - done.
  - done.
  - split; try done.
    + by apply (binv_hart _ _ _ h2 (set_klog (set_lg_outstanding (o + 1) (klog s)) s)), binv_klog.
    + by destruct ln_logs0.
Qed.

(** ** Reading and writing blocks inside a transaction *)

Lemma linv_room D V L H o s :
  linv D V L H o s -> Z.of_nat (length L + length H) < NBUF -> room s.
Proof.
  intros [] Hl. apply (binv_room V (pinsL L) H s L ln_inv0); [|done].
  intros blk Hp. unfold pinsL in Hp. by destruct (decide _).
Qed.

Lemma wp_lread D V L H o s blk (Q : Z -> kernel -> Prop) :
  linv D V L H o s -> 0 <= blk < 2 ^ 31 -> (forall b, b ∈ H -> b_blockno (bufs s b) <> blk) ->
  Z.of_nat (length L + length H) < NBUF ->
  (forall b s', lframe s s' -> medium s' = medium s -> linv D V L (b :: H) o s' -> b ∉ H ->
     b_blockno (bufs s' b) = blk -> b_data (bufs s' b) = V blk ->
     (forall b', b' <> b -> bufs s' b' = bufs s b') -> klog s' = klog s -> Q b s') ->
  wp (bread dev blk) n s Q.
Proof.
  intros Hl Hblk HH Hlen HQ. eapply wp_mono.
  - apply (wp_bread V (pinsL L) H s blk n); [done|done|apply Hl|done|done|right].
    by eapply linv_room.
  - cbn beta. intros b s' (Hf & Hm & Hi & Hbk & Hda & Hbn & Hoth). apply HQ; try done.
    + by apply bframe_lframe.
    + eapply linv_bframe; [done|done|done|done|]. intros blk' Hd HL Hb'.
      apply (ln_same _ _ _ _ _ _ Hl); [done|done|]. intros b' Hin.
      assert (b' <> b) as Hne by congruence. rewrite <-(Hoth b' Hne). apply Hb'. by right.
    + by apply bframe_klog.
Qed.

Lemma linv_data D V L H o s b d :
  linv D V L H o s -> b ∈ H ->
  linv D (<[b_blockno (bufs s b) := d]> V) L H o (upd_buf b (set_b_data d) s).
Proof.
  intros Hl Hb. eapply linv_bframe; [exact Hl|apply bframe_upd_buf|done|apply binv_data; [apply Hl|done]|].
  intros blk Hd HL HH. assert (forall b', b_blockno (bufs (upd_buf b (set_b_data d) s) b') = b_blockno (bufs s b')) as E.
  { intros b'. cbn. rewrite fn_insert_spec. by destruct (decide (b = b')) as [<-|]. }
  rewrite fn_insert_spec, decide_False by (rewrite <-E; by apply HH).
  apply (ln_same _ _ _ _ _ _ Hl); [done|done|]. intros b' Hin. rewrite <-E. by apply HH.
Qed.

Lemma wp_lrelse D V L H H' o s b (Q : unit -> kernel -> Prop) :
  linv D V L H o s -> H ≡ₚ b :: H' ->
  (b_blockno (bufs s b) ∈ L \/ (isdata (b_blockno (bufs s b)) /\ V (b_blockno (bufs s b)) = D (b_blockno (bufs s b)))) ->
  (forall s', lframe s s' -> medium s' = medium s -> linv D V L H' o s' ->
    (forall b', b_blockno (bufs s' b') = b_blockno (bufs s b') /\ b_data (bufs s' b') = b_data (bufs s b')) ->
    klog s' = klog s -> Q tt s') ->
  wp (brelse b) n s Q.
Proof.
  intros Hl Hp Hc HQ. eapply wp_mono.
  - apply (wp_brelse (dev := dev) V (pinsL L) H H' s b n); [lia|apply Hl|done|]. intros Hz.
    destruct Hc as [Hin|[Hd ->]]; [by rewrite pinsL_in in Hz|]. by apply Hl.
  - cbn beta. intros [] s' (Hf & Hm & Hi & Hsame). apply HQ; try done.
    + by apply bframe_lframe.
    + eapply linv_bframe; [done|done|done|done|]. intros blk Hd HL Hb'.
      destruct (decide (blk = b_blockno (bufs s b))) as [->|Hne]; [by destruct Hc as [?|[_ ?]]|].
      apply (ln_same _ _ _ _ _ _ Hl); [done|done|]. intros b' Hin. rewrite Hp in Hin.
      apply elem_of_cons in Hin as [->|Hin]; [congruence|]. rewrite <-(proj1 (Hsame b')). by apply Hb'.
    + by apply bframe_klog.
Qed.

(** ** log_write *)

(** The search for the block in the log. *)
Lemma wp_log_find L blk s hl h :
  logs (dev := dev) S0 s L -> Forall (fun b => 0 <= b < 2 ^ 31) L -> (length L < n)%nat -> hon c hl h ->
  wp (loop (fun i =>
    nn ← lgget lh_n;
    if negb (i <? nn) then mret (Done i) else
    b ← lgget (fun l => lh_block l i);
    if u32 b =? blk then mret (Done i) else mret (Next (i + 1))) 0) n (hk h s)
    (fun i s' => s' = hk h s /\ exists j, i = Z.of_nat j /\
      (((blk ∉ L) /\ j = length L) \/ L !! j = Some blk)).
Proof.
  intros Hl HF Hlen Hh.
  apply (wp_loop _ (fun k i s' => s' = hk h s /\ exists j, i = Z.of_nat j /\ (j <= length L)%nat /\
    k = (length L - j)%nat /\ blk ∉ take j L)) with (k := length L); [|done|].
  - intros k i s' [-> (j & -> & Hj & -> & Hn')]. apply wp_bind, wp_lgget. cbn [klog hk set_ms].
    rewrite (lo_n _ _ _ Hl). destruct (Z.ltb_spec (Z.of_nat j) (Z.of_nat (length L))) as [Hlt|]; cbn [negb].
    2: { apply wp_ret. split; [done|]. exists j. split; [done|]. left. rewrite take_ge in Hn' by lia. split; [done|lia]. }
    destruct (lookup_lt_is_Some_2 L j) as [y Hy]; [lia|].
    apply wp_bind, wp_lgget. cbn [klog hk set_ms]. rewrite (lo_block _ _ _ Hl _ _ Hy).
    pose proof (proj1 (Forall_lookup _ _) HF _ _ Hy) as Hr. cbn in Hr. rewrite u32_small by lia.
    destruct (Z.eqb_spec y blk) as [->|Hne].
    { apply wp_ret. split; [done|]. exists j. split; [done|]. by right. }
    apply wp_ret. exists (length L - S j)%nat. split; [lia|]. split; [done|]. exists (S j).
    split; [lia|]. split; [lia|]. split; [done|].
    rewrite (take_S_lookup _ _ _ Hy), elem_of_app, list_elem_of_singleton. by intros [?|?].
  - split; [done|]. exists 0%nat. split; [done|]. split; [lia|]. split; [lia|]. apply not_elem_of_nil.
Qed.

(** The blocks of the transaction after [log_write] of [blk]. *)
Definition addL (L : list Z) (blk : Z) : list Z := if decide (blk ∈ L) then L else L ++ [blk].

Lemma addL_elem L blk x : x ∈ addL L blk <-> x ∈ L \/ x = blk.
Proof.
  unfold addL. destruct (decide (blk ∈ L)).
  - split; [by left|by intros [?| ->]].
  - by rewrite elem_of_app, list_elem_of_singleton.
Qed.

Lemma pinsL_add L blk :
  blk ∉ L -> <[blk := pinsL L blk + 1]> (pinsL L) = pinsL (L ++ [blk]).
Proof.
  intros Hb. apply functional_extensionality. intros x. rewrite fn_insert_spec, (pinsL_out L blk Hb). unfold pinsL.
  destruct (decide (blk = x)) as [<-|Hne].
  - rewrite decide_True; [done|]. apply elem_of_app. right. apply list_elem_of_here.
  - apply decide_ext. rewrite elem_of_app, list_elem_of_singleton. split; [by left|]. by intros [?| ->].
Qed.

Lemma trans_add L blk :
  trans S0 L -> isdata blk -> Z.of_nat (length L) < LOGSIZE - 1 -> trans S0 (addL L blk).
Proof.
  intros [Hnd Hd Hl] Hb Hlen. unfold addL. destruct (decide (blk ∈ L)) as [|Hnin]; [by split|]. split.
  - apply NoDup_app. split; [done|]. split; [|apply NoDup_singleton].
    intros x Hx ->%list_elem_of_singleton. done.
  - apply Forall_app. split; [done|]. by apply Forall_singleton.
  - rewrite length_app. cbn. lia.
Qed.

Lemma wp_log_write D V L H o s b (Q : unit -> kernel -> Prop) :
  linv D V L H o s -> b ∈ H -> isdata (b_blockno (bufs s b)) -> 1 <= o ->
  Z.of_nat (length L) < LOGSIZE - 1 ->
  (forall s', lframe s s' -> medium s' = medium s -> linv D V (addL L (b_blockno (bufs s b))) H o s' ->
    (forall b', b_blockno (bufs s' b') = b_blockno (bufs s b') /\ b_data (bufs s' b') = b_data (bufs s b')) ->
    Q tt s') ->
  wp (log_write b) n s Q.
Proof.
  intros Hl Hb Hd Ho Hlen HQ. pose proof Hl as []. set (blk := b_blockno (bufs s b)) in *.
  assert (Forall (fun x => 0 <= x < 2 ^ 31) L) as HF.
  { eapply Forall_impl; [apply ln_trans0|]. by intros x [? _]. }
  unfold log_write. apply wp_bind. eapply wp_lock; [lia|apply ln_inv0|apply not_elem_of_nil|]. intros h1 H1.
  do 2 apply wp_bind, wp_lgget. cbn [klog hk set_ms]. rewrite (lo_n _ _ _ ln_logs0), ln_size0.
  rewrite (proj2 (Z.leb_gt _ _)), (proj2 (Z.leb_gt _ _)) by lia. cbn [orb].
  apply wp_bind, wp_lgget. cbn [klog hk set_ms]. rewrite ln_out0, (proj2 (Z.ltb_ge _ _)) by lia.
  unfold bget_. apply wp_bind, wp_gets. cbn [bufs hk set_ms]. fold blk.
  apply wp_bind. eapply wp_mono.
  { apply (wp_log_find L blk s [Llog] h1); [done|done| |done]. unfold NBUF, LOGSIZE, MAXOPBLOCKS in *. lia. }
  cbn beta. intros i s1 [-> (j & -> & Hj)].
  apply wp_bind. unfold lgset at 1. apply wp_modify. cbn [klog hk set_ms].
  rewrite (s32_small blk) by (unfold isdata, LogProof.isdata in Hd; lia).
  apply wp_bind, wp_lgget. cbn [klog set_klog lh_n set_lh_block]. rewrite (lo_n _ _ _ ln_logs0).
  assert (forall h kl s', hon c [] h -> s' = hk h (set_klog kl s) -> blk ∈ L ->
    kl = set_lh_block (<[Z.of_nat j := blk]> (lh_block (klog s))) (klog s) -> L !! j = Some blk -> Q tt s') as Hold.
  { intros h kl s' Hh -> HinL -> HLj. apply HQ; [|done| |done].
    - exists (set_lh_block (<[Z.of_nat j := blk]> (lh_block (klog s))) (klog s)), h, (procs s), (bufs s), (vd s), (medium s).
      split; reflexivity.
    - unfold addL. rewrite decide_True by done. split; try done.
      + by apply binv_hart, binv_klog.
      + destruct ln_logs0. split; cbn; try done. intros k y Hy. rewrite fn_insert_spec.
        destruct (decide (Z.of_nat j = Z.of_nat k)) as [E|]; [|by apply lo_block].
        apply Nat2Z.inj in E as <-. congruence. }
  destruct (decide (blk ∈ L)) as [HinL|HninL].
  - destruct Hj as [[? _]|Hj]; [done|]. pose proof (lookup_lt_Some _ _ _ Hj) as Hlt.
    rewrite (proj2 (Z.eqb_neq _ _)) by lia. cbn [when]. apply wp_bind, wp_ret.
    eapply wp_unlock; [exact H1|]. intros h2 H2. eapply (Hold h2); done.
  - destruct Hj as [[_ ->]|Hj]; [|by apply list_elem_of_lookup_2 in Hj].
    rewrite Z.eqb_refl. cbn [when]. apply wp_bind, wp_bind. unfold bpin.
    eapply (wp_refcnt b ref_inc [Llog]); [lia|exact H1|notin|]. intros h2 H2.
    unfold lgset. apply wp_modify. cbn [klog hk set_ms set_klog upd_buf set_bufs].
    eapply wp_unlock; [exact H2|]. intros h3 H3. cbn [klog set_klog].
    set (kl := set_lh_n (Z.of_nat (length L) + 1)
      (set_lh_block (<[Z.of_nat (length L) := blk]> (lh_block (klog s))) (klog s))).
    assert (addL L blk = L ++ [blk]) as EL by (unfold addL; by rewrite decide_False).
    apply HQ; [|done| |].
    + exists kl, h3, (procs s), (bufs (upd_buf b ref_inc s)), (vd s), (medium s). split; reflexivity.
    + pose proof (trans_add L blk ln_trans0 Hd Hlen) as Ht. rewrite EL in *. split; try done.
      * apply (binv_hart _ _ _ h3 (set_klog kl (upd_buf b ref_inc s))); [done|]. apply binv_klog.
        rewrite <-pinsL_add by done. apply (binv_pin V (pinsL L) H s b 1); [done|done|].
        fold blk. rewrite pinsL_out by done. lia.
      * destruct ln_logs0. split; cbn; try done; [rewrite length_app; cbn; lia|].
        intros k y Hy. rewrite fn_insert_spec. destruct (decide (Z.of_nat (length L) = Z.of_nat k)) as [E|E].
        -- apply Nat2Z.inj in E as <-. rewrite lookup_app_r, Nat.sub_diag in Hy by lia. by simplify_eq/=.
        -- apply lo_block. rewrite lookup_app_Some in Hy. destruct Hy as [?|[? Hy]]; [done|].
           apply lookup_lt_Some in Hy. cbn in Hy. lia.
      * intros x Hx HxL HxH. rewrite elem_of_app in HxL. apply ln_same0; [done|tauto|].
        intros b' Hb' E. apply (HxH b' Hb'). cbn. rewrite fn_insert_spec. by destruct (decide (b = b')) as [<-|].
    + intros b'. cbn. rewrite fn_insert_spec. by destruct (decide (b = b')) as [<-|].
Qed.

(** ** end_op *)

(** The disk after all the writes of a commit. *)
Lemma commitw_data V L im blk :
  trans S0 L -> isdata blk ->
  applyw (commitw S0 V L) im blk = if decide (blk ∈ L) then V blk else im blk.
Proof.
  intros Ht Hd. unfold commitw. destruct L as [|y0 L0] eqn:EL.
  { rewrite decide_False; [done|apply not_elem_of_nil]. }
  rewrite <-EL in *. clear EL y0 L0.
  assert (S0 <> blk) as Hne.
  { intros <-. destruct Hd as [_ Hd]. apply Hd. unfold LOGSIZE, MAXOPBLOCKS. lia. }
  rewrite !applyw_app. cbn [applyw foldl]. rewrite fn_insert_spec, decide_False by done.
  fold (applyw (instw V L)). destruct (decide (blk ∈ L)) as [Hin|Hout].
  - apply applyw_in; [rewrite instw_blocks; apply Ht|]. unfold instw. apply list_elem_of_fmap. by exists blk.
  - rewrite applyw_out by by rewrite instw_blocks. cbn. rewrite fn_insert_spec, decide_False by done.
    apply logw_data; [apply Ht|done].
Qed.

Lemma lists_hdr d : lists (hdr d []) [].
Proof. split; [by apply hd_n_hdr|done]. Qed.

Lemma commitw_head V L im :
  lists (im S0) [] -> lists (applyw (commitw S0 V L) im S0) [].
Proof.
  intros H0. unfold commitw. destruct L as [|y0 L0]; [done|].
  rewrite !applyw_app. cbn [applyw foldl]. rewrite fn_lookup_insert. apply lists_hdr.
Qed.

(** The end of the last operation commits. *)
Lemma wp_end_op D V L s (Q : unit -> kernel -> Prop) :
  linv D V L [] 1 s ->
  (forall s' V', lframe s s' -> medium s' = rev (commitw S0 V L) ++ medium s ->
     linv V V' [] [] 0 s' -> (forall blk, isdata blk -> V' blk = V blk) -> Q tt s') ->
  wp end_op n s Q.
Proof.
  intros Hl HQ. pose proof Hl as []. unfold end_op.
  apply wp_bind. eapply wp_lock; [lia|apply ln_inv0|apply not_elem_of_nil|]. intros h1 H1.
  apply wp_bind, wp_lgget. cbn [klog hk set_ms]. rewrite ln_out0. cbn [Z.sub Z.add Z.opp Z.pos_sub].
  apply wp_bind. unfold lgset at 1. apply wp_modify. cbn [klog hk set_ms].
  apply wp_bind, wp_lgget. cbn [klog set_klog lg_committing set_lg_outstanding]. rewrite ln_idle0. cbn [Z.eqb negb].
  apply wp_bind, wp_lgget. cbn [klog set_klog lg_outstanding set_lg_outstanding Z.eqb].
  apply wp_bind. unfold lgset at 1. apply wp_modify. cbn [klog set_klog].
  apply wp_bind. eapply wp_unlock; [exact H1|]. intros h2 H2. cbn [when].
  set (kl := set_lg_committing 1 (set_lg_outstanding (1 - 1) (klog s))).
  set (s2 := hk h2 (set_klog kl s)).
  apply wp_bind. eapply wp_mono.
  { apply (wp_commit S0 Hdev HS0 n Hn Hdn V L s2); [by apply binv_hart, binv_klog| |done].
    destruct ln_logs0. by split. }
  intros [] s3 (F3 & M3 & V' & I3 & HV').
  apply wp_bind. eapply wp_lock; [lia|apply I3|apply not_elem_of_nil|]. intros h4 H4.
  apply wp_bind. unfold lgset. apply wp_modify. apply wp_bind.
  eapply wp_wakeup; [lia|exact H4|intros; notin|]. intros h5 H5.
  eapply wp_unlock; [exact H5|]. intros h6 H6. cbn [klog hk set_ms cpu_proc set_klog procs].
  set (ps := woken Clog (cpu_proc s3 c) NPROC (procs s3)). assert (woke (procs s3) ps) as Hw by apply woken_woke.
  set (s4 := hk h6 (set_klog (set_lg_committing 0 (klog s3)) (set_procs ps s3))).
  change (Q tt s4). assert (klog s3 = set_lh_n 0 kl) as K3 by apply (bframe_klog _ _ F3).
  assert (image s4 = applyw (commitw S0 V L) (image s)) as Him.
  { apply (image_writes s s4); [|exact M3]. apply (bframe_image0 _ _ F3). }
  apply (HQ s4 V'); [| |split|done].
  - etrans; [|exists (set_lg_committing 0 (klog s3)), h6, ps, (bufs s3), (vd s3), (medium s3); split; [exact Hw|reflexivity]].
    destruct F3 as (h' & ps' & B' & v' & W' & Hw' & ->). exists (set_lh_n 0 kl), h', ps', B', v', W'. done.
  - done.
  - by apply binv_hart, binv_klog, binv_procs.
  - destruct ln_logs0. split; cbn; rewrite K3; cbn; done.
  - split; [apply NoDup_nil_2|apply Forall_nil_2|unfold LOGSIZE, MAXOPBLOCKS; cbn; lia].
  - cbn. by rewrite K3.
  - done.
  - cbn. by rewrite K3.
  - rewrite Him. by apply commitw_head.
  - intros blk Hd. rewrite Him, commitw_data by done. destruct (decide (blk ∈ L)); [done|].
    rewrite ln_disk0 by done. symmetry. apply ln_same0; [done|done|]. intros b Hb. by apply not_elem_of_nil in Hb.
  - intros blk Hd _ _. by apply HV'.
Qed.

End ops.
