(* ===== verification/LogCrash.v ===== *)
(** * Crash safety

    Power can fail after any of the disk writes of a commit, and again after
    any of the writes of the recoveries that follow. *)

From Stdlib Require Import FunctionalExtensionality.
From S2P Require Import Prelude Riscv Spinlock Str Kalloc Kernel Proc Sleeplock Bio Log KernelWp Ring BioProof BioBoot LogProof LogOps.

Lemma lists_inj d L L' : lists d L -> lists d L' -> L = L'.
Proof.
  intros [Hn Hb] [Hn' Hb']. rewrite Hn in Hn'. apply Nat2Z.inj in Hn'.
  apply list_eq_same_length with (length L); [done|done|]. intros i x y _ Hx Hy.
  by rewrite <-(Hb _ _ Hx), (Hb' _ _ Hy).
Qed.

Section crash.
Context (S0 : Z) (HS0 : 0 <= S0 /\ S0 + LOGSIZE < 2 ^ 31).
Abbreviation isdata := (isdata S0).
Abbreviation trans := (trans S0).
Abbreviation recw := (recw S0).
Abbreviation recoverw := (recoverw S0).

(** Recovery from [d] gives the data blocks [X]. *)
Definition recovers (X d : Z -> bytes) : Prop :=
  exists L, lists (d S0) L /\ trans L /\ forall blk, isdata blk -> applyw (recw d L) d blk = X blk.

Lemma isdata_ne blk i : isdata blk -> 0 <= i < LOGSIZE -> blk <> S0 + i.
Proof. intros [_ Hd] Hi ->. apply Hd. lia. Qed.

Lemma trans_log L blk i : trans L -> 0 <= i < LOGSIZE -> blk ∈ L -> blk <> S0 + i.
Proof.
  intros Ht Hi Hin. apply isdata_ne; [|done]. by apply (proj1 (Forall_forall _ _) (tr_data _ _ Ht)).
Qed.

Lemma recw_ext d d' L :
  trans L -> (forall i, 0 <= i < LOGSIZE - 1 -> d' (S0 + i + 1) = d (S0 + i + 1)) -> recw d' L = recw d L.
Proof.
  intros Ht Hd. unfold LogProof.recw. apply imap_ext. intros i x Hx. rewrite Hd; [done|].
  apply lookup_lt_Some in Hx. pose proof (tr_len _ _ Ht). lia.
Qed.

Lemma recw_again d L k blk :
  NoDup L -> applyw (recw d L) (applyw (take k (recw d L)) d) blk = applyw (recw d L) d blk.
Proof.
  intros Hnd. assert ((recw d L).*1 = L) as E by apply recw_blocks.
  destruct (decide (blk ∈ L)) as [Hin|Hout].
  - rewrite <-E in Hin. apply list_elem_of_fmap in Hin as ([b v] & -> & Hin). cbn.
    rewrite !(applyw_in _ _ b v); try done; by rewrite E.
  - rewrite !applyw_out; try done; try by rewrite E.
    rewrite fmap_take, E. intros Hin. apply Hout. rewrite <-(take_drop k L). apply elem_of_app. by left.
Qed.

(** An interrupted recovery can be recovered from, to the same result. *)
Lemma recovers_again X d L k :
  recovers X d -> lists (d S0) L -> trans L -> recovers X (applyw (take k (recoverw d L)) d).
Proof.
  intros (L' & HL' & Ht' & HX) HL Ht. rewrite (lists_inj _ _ _ HL' HL) in *. clear L' HL'.
  assert ((recw d L).*1 = L) as E by apply recw_blocks.
  assert (length (recw d L) = length L) as El by (rewrite <-E at 2; by rewrite length_fmap).
  unfold LogProof.recoverw. destruct (decide (k <= length L)%nat) as [Hk|Hk].
  - rewrite take_app_le by lia.
    assert (forall i, 0 <= i < LOGSIZE -> applyw (take k (recw d L)) d (S0 + i) = d (S0 + i)) as Hlog.
    { intros i Hi. apply applyw_out. rewrite fmap_take, E. intros Hin.
      apply (trans_log L (S0 + i) i Ht Hi); [|done]. rewrite <-(take_drop k L). apply elem_of_app. by left. }
    exists L. split; [|split; [done|]].
    + pose proof (Hlog 0) as H0. rewrite Z.add_0_r in H0. rewrite H0; [done|unfold LOGSIZE, MAXOPBLOCKS; lia].
    + intros blk Hd. rewrite (recw_ext d) by (try done; intros i Hi; rewrite <-Z.add_assoc; apply Hlog; lia).
      rewrite recw_again by apply Ht. by apply HX.
  - rewrite take_ge by (rewrite length_app, El; cbn; lia). rewrite applyw_snoc. exists []. split; [|split].
    + rewrite fn_lookup_insert. apply lists_hdr.
    + split; [apply NoDup_nil_2|apply Forall_nil_2|unfold LOGSIZE, MAXOPBLOCKS; cbn; lia].
    + intros blk Hd. cbn. rewrite fn_insert_spec, decide_False; [by apply HX|].
      pose proof (isdata_ne blk 0 Hd) as Hne. rewrite Z.add_0_r in Hne. intros <-. apply Hne; [unfold LOGSIZE, MAXOPBLOCKS; lia|done].
Qed.

(** ** Power failure during a commit *)

Lemma recovers_empty X d : lists (d S0) [] -> (forall blk, isdata blk -> d blk = X blk) -> recovers X d.
Proof.
  intros H0 HX. exists []. split; [done|]. split; [|done].
  split; [apply NoDup_nil_2|apply Forall_nil_2|unfold LOGSIZE, MAXOPBLOCKS; cbn; lia].
Qed.

Lemma lists_full d L : trans L -> lists (hdr d L) L.
Proof.
  intros Ht. pose proof (tr_len _ _ Ht). unfold LOGSIZE, MAXOPBLOCKS in *. split; [apply hd_n_hdr; lia|].
  intros i b Hb. apply hd_block_hdr; [done|]. by destruct (proj1 (Forall_lookup _ _) (tr_data _ _ Ht) _ _ Hb).
Qed.

(** Before the header is written recovery gives the old contents, from then
    on the new ones. *)
Lemma commit_recovers (V im : Z -> bytes) L k :
  trans L -> lists (im S0) [] -> (forall blk, isdata blk -> blk ∉ L -> V blk = im blk) ->
  recovers (if decide (k <= length L)%nat then im else V) (applyw (take k (commitw S0 V L)) im).
Proof.
  intros Ht H0 Hsame. pose proof (tr_len _ _ Ht) as Hlen. assert (length (logw S0 V L) = length L) as El by apply length_imap.
  unfold commitw. destruct L as [|y0 L0] eqn:EL.
  { rewrite take_nil. apply recovers_empty; [done|]. intros blk Hd.
    destruct (decide _); [done|]. symmetry. apply Hsame; [done|apply not_elem_of_nil]. }
  rewrite <-EL in *. clear EL y0 L0.
  destruct (decide (k <= length L)%nat) as [Hk|Hk].
  { (* only log blocks were written *)
    rewrite take_app_le by lia.
    assert (forall blk, ~ (S0 < blk < S0 + LOGSIZE) -> applyw (take k (logw S0 V L)) im blk = im blk) as Hout.
    { intros blk Hb. apply applyw_out. rewrite fmap_take. intros Hin. apply Hb.
      assert (blk ∈ (logw S0 V L).*1) as Hin'.
      { rewrite <-(take_drop k ((logw S0 V L).*1)). apply elem_of_app. by left. }
      apply logw_blocks in Hin'. lia. }
    apply recovers_empty.
    - rewrite Hout; [done|lia].
    - intros blk [_ Hd]. apply Hout. lia. }
  rewrite take_app_ge by lia. rewrite applyw_app. set (d1 := applyw (logw S0 V L) im).
  rewrite El. destruct (k - length L)%nat as [|j] eqn:Ej; [lia|]. cbn [take app]. cbn [applyw foldl].
  set (d2 := <[S0 := hdr (V S0) L]> d1). fold (applyw (take j (instw V L ++ [(S0, hdr (hdr (V S0) L) [])])) d2).
  assert (length (instw V L) = length L) as El2 by apply length_fmap.
  assert (forall i y, L !! i = Some y -> d2 (S0 + Z.of_nat i + 1) = V y) as Hd2.
  { intros i y Hy. subst d2. rewrite fn_insert_spec, decide_False by lia. by apply logw_lookup. }
  assert (forall blk, isdata blk -> blk ∉ L -> d2 blk = V blk) as Hd2o.
  { intros blk Hd HL. subst d2. rewrite fn_insert_spec, decide_False.
    - subst d1. rewrite logw_data by done. symmetry. by apply Hsame.
    - intros <-. destruct Hd as [_ Hd]. apply Hd. unfold LOGSIZE, MAXOPBLOCKS. lia. }
  assert (recw d2 L = instw V L) as Hrec by by apply recw_instw.
  assert (recovers V d2) as Hr2.
  { exists L. split; [subst d2; rewrite fn_lookup_insert; by apply lists_full|]. split; [done|].
    intros blk Hd. rewrite Hrec. destruct (decide (blk ∈ L)) as [Hin|Hout].
    - apply applyw_in; [rewrite instw_blocks; apply Ht|]. unfold instw. apply list_elem_of_fmap. by exists blk.
    - rewrite applyw_out by by rewrite instw_blocks. by apply Hd2o. }
  (* what follows is what a recovery from [d2] does *)
  assert (instw V L ++ [(S0, hdr (hdr (V S0) L) [])] = recoverw d2 L) as ->.
  { unfold LogProof.recoverw. rewrite Hrec. subst d2. by rewrite fn_lookup_insert. }
  apply recovers_again; [done| |done]. subst d2. rewrite fn_lookup_insert. by apply lists_full.
Qed.

End crash.

(** ** Booting after the failure *)

Section boot.
Context {c me dev : Z} {DEV : BlockDev} {DOK : BlockDevOk c me}.
Context (S0 : Z).
Context (Hdev : 0 <= dev < 2 ^ 31) (HS0 : 0 <= S0 /\ S0 + LOGSIZE < 2 ^ 31).
Context (n : nat) (Hn : (Z.to_nat NBUF < n)%nat) (Hdn : (dfuel < n)%nat).
Abbreviation isdata := (isdata S0).
Abbreviation linv := (linv (c := c) (me := me) (dev := dev) S0).

(** The kernel booted from the disk contents [d], in the first process, before
    [initlog]: the cache as [binit] left it, and the log's variables zero. *)
Record booted (d : Z -> bytes) (s : kernel) : Prop := {
  bt_image : image s = d;
  bt_runs : runs c me [] s;
  bt_dok : dok (vd s);
  bt_cache : empty_cache dev (bufs s);
  bt_out : lg_outstanding (klog s) = 0;
  bt_comm : lg_committing (klog s) = 0
}.

(** The superblock has the log at [S0]. *)
Definition logsb (b : superblock) : Prop := sb_logstart b = S0 /\ sb_nlog b = LOGSIZE.

Lemma wp_initlog d L sb s (Q : unit -> kernel -> Prop) :
  booted d s -> logsb sb -> lists (d S0) L -> trans S0 L ->
  (forall s', medium s' = rev (recoverw S0 d L) ++ medium s -> image0 s' = image0 s ->
     linv (applyw (recw S0 d L) d) (applyw (recoverw S0 d L) d) [] [] 0 s' -> Q tt s') ->
  wp (initlog dev sb) n s Q.
Proof.
  intros [Him Hr Hd Hc Ho Hcm] [Hst Hsz] HL Ht HQ. unfold initlog. change (BSIZE <=? sizeof_logheader) with false.
  apply wp_bind. eapply wp_initlock; [apply Hr|notin|]. intros h1 H1. unfold lgset.
  apply wp_bind, wp_modify, wp_bind, wp_modify, wp_bind, wp_modify.
  rewrite Hst, Hsz, (s32_small S0) by (unfold LOGSIZE, MAXOPBLOCKS in *; lia). change (s32 LOGSIZE) with LOGSIZE.
  set (kl := set_lg_dev dev (set_lg_size LOGSIZE (set_lg_start S0 (klog s)))).
  change (wp recover_from_log n (set_klog kl (hk h1 s)) Q).
  eapply wp_mono; [apply (wp_recover S0 Hdev HS0 n Hn Hdn d L)|].
  - apply binv_klog, binv_hart; [done|]. rewrite <-Him. by apply empty_cache_binv.
  - done.
  - done.
  - done.
  - done.
  - intros [] s' (F & M & I). assert (image0 s' = image0 s) as E0 by apply (bframe_image0 _ _ F).
    pose proof (bframe_klog _ _ F) as Hk. cbn [klog set_klog] in Hk.
    assert (image s' = applyw (recoverw S0 d L) d) as Him'.
    { rewrite <-Him. apply image_writes; [done|]. by rewrite Him. }
    assert (forall blk, isdata blk -> applyw (recoverw S0 d L) d blk = applyw (recw S0 d L) d blk) as Hdata.
    { intros blk Hb. unfold recoverw. rewrite applyw_snoc, fn_insert_ne; [done|].
      intros <-. destruct Hb as [_ Hb]. apply Hb. unfold LOGSIZE, MAXOPBLOCKS. lia. }
    apply HQ; [done|done|]. split.
    + done.
    + split; by rewrite Hk.
    + split; [apply NoDup_nil_2|apply Forall_nil_2|unfold LOGSIZE, MAXOPBLOCKS; cbn; lia].
    + by rewrite Hk.
    + by rewrite Hk.
    + by rewrite Hk.
    + rewrite Him'. unfold recoverw. rewrite applyw_snoc, fn_lookup_insert. apply lists_hdr.
    + intros blk Hb. rewrite Him'. by apply Hdata.
    + intros blk Hb _ _. by apply Hdata.
Qed.

Lemma linv_ext D D' V L H o s :
  (forall blk, isdata blk -> D blk = D' blk) -> linv D V L H o s -> linv D' V L H o s.
Proof.
  intros E []. split; try done; intros blk Hb.
  - rewrite <-E by done. by apply ln_disk.
  - intros. rewrite <-E by done. by apply ln_same.
Qed.

(** Booting from a disk that recovers to [X] gives a working log over [X]. *)
Lemma recovers_boots X d sb s :
  recovers S0 X d -> booted d s -> logsb sb ->
  exists s' V, initlog dev sb n s = Ret tt s' /\ linv X V [] [] 0 s' /\ forall blk, isdata blk -> V blk = X blk.
Proof.
  intros (L & HL & Ht & HX) Hb Hsb.
  destruct (wp_elim _ _ _ _ (wp_initlog d L sb s (fun _ s' =>
    linv (applyw (recw S0 d L) d) (applyw (recoverw S0 d L) d) [] [] 0 s') Hb Hsb HL Ht (fun _ _ _ I => I))) as ([] & s' & E & Hl).
  exists s', (applyw (recoverw S0 d L) d). split; [done|]. apply (linv_ext _ X) in Hl; [|done].
  split; [done|]. intros blk Hd. apply Hl; [done|apply not_elem_of_nil|].
  intros b Hin. by apply not_elem_of_nil in Hin.
Qed.

(** The disk contents that can be found when power has failed with contents
    [d] on the disk: [d], or what is there when power fails again after any
    prefix of the writes a boot's [initlog] makes, and so on. *)
Inductive crashes (d : Z -> bytes) : (Z -> bytes) -> Prop :=
| crash_off : crashes d d
| crash_again sb s s' ws k d' :
    booted d s -> logsb sb -> initlog dev sb n s = Ret tt s' -> medium s' = rev ws ++ medium s ->
    crashes (applyw (take k ws) d) d' -> crashes d d'.

Lemma crashes_recovers X d d' : crashes d d' -> recovers S0 X d -> recovers S0 X d'.
Proof.
  induction 1 as [|d sb s s' ws k d' Hb Hsb E Hm _ IH]; [done|]. intros HX. apply IH.
  pose proof HX as (L & HL & Ht & _).
  destruct (wp_elim _ _ _ _ (wp_initlog d L sb s (fun _ s' => medium s' = rev (recoverw S0 d L) ++ medium s)
    Hb Hsb HL Ht (fun _ M _ _ => M))) as ([] & s1 & E1 & M1).
  rewrite E in E1. injection E1 as <-. rewrite Hm in M1. apply app_inv_tail in M1. apply (f_equal (@rev _)) in M1.
  rewrite !rev_involutive in M1. subst ws. by apply recovers_again.
Qed.

(** boot replays a committed transaction. When the header on disk lists the
    blocks [L], [initlog] returns having copied each of them from the log to its
    place, and nothing else, then having cleared the header; so a second
    recovery from what it leaves changes no data. *)
Theorem initlog_replays d L sb s :
  booted d s -> logsb sb -> lists (d S0) L -> trans S0 L ->
  exists s', initlog dev sb n s = Ret tt s' /\
    (forall i blk, L !! i = Some blk -> image s' blk = d (S0 + Z.of_nat i + 1)) /\
    (forall blk, blk ∉ S0 :: L -> image s' blk = d blk) /\
    lists (image s' S0) [] /\ linv (image s') (image s') [] [] 0 s'.
Proof.
  intros Hb Hsb HL Ht. apply wp_elim_unit, (wp_initlog d L); [done..|]. intros s' Hm H0 Hl.
  assert (image s' = applyw (recoverw S0 d L) d) as E.
  { rewrite <-(bt_image _ _ Hb). apply image_writes; [done|]. by rewrite (bt_image _ _ Hb). }
  assert (forall blk, blk <> S0 -> image s' blk = applyw (recw S0 d L) d blk) as Ed.
  { intros blk Hne. rewrite E. unfold recoverw. by rewrite applyw_snoc, fn_insert_ne by congruence. }
  split_and!.
  - intros i blk Hi. rewrite Ed.
    + apply applyw_in; [rewrite recw_blocks; apply Ht|]. apply (list_elem_of_lookup_2 _ i). unfold recw. by rewrite list_lookup_imap, Hi.
    + intros ->. apply (trans_log S0 L S0 0 Ht); [unfold LOGSIZE, MAXOPBLOCKS; lia| |lia]. by eapply list_elem_of_lookup_2.
  - intros blk [Hne Hnin]%not_elem_of_cons. rewrite Ed by done. apply applyw_out. by rewrite recw_blocks.
  - apply Hl.
  - rewrite <-E in Hl. eapply linv_ext; [|exact Hl]. intros blk Hd. symmetry. apply Ed.
    intros ->. destruct Hd as [_ Hd]. apply Hd. unfold LOGSIZE, MAXOPBLOCKS. lia.
Qed.

(** [log_write] records a block without writing it: in a transaction with
    room in the log, it returns with the buffer's block among the blocks of
    the transaction, once however often it is logged, the buffer pinned in the
    cache, and nothing written to disk until the commit. *)
Theorem log_write_absorbs D V L H o s b :
  linv D V L H o s -> b ∈ H -> isdata (b_blockno (bufs s b)) -> 1 <= o -> Z.of_nat (length L) < LOGSIZE - 1 ->
  exists s', log_write b n s = Ret tt s' /\ medium s' = medium s /\
    linv D V (addL L (b_blockno (bufs s b))) H o s' /\ b_data (bufs s' b) = b_data (bufs s b).
Proof.
  intros Hl Hb Hd Ho Hlen. apply wp_elim_unit, (wp_log_write S0 Hdev HS0 n Hn Hdn D V L H o s b); [done..|].
  intros s' _ Hm Hl' Hs. split; [done|]. split; [done|]. apply Hs.
Qed.

(** Logging the blocks [L] unchanged, one after the other. *)
Fixpoint log_blocks (L : list Z) : K unit :=
  match L with
  | [] => mret tt
  | blk :: L' => b ← bread dev blk; log_write b;; brelse b;; log_blocks L'
  end.

Lemma addL_new L blk : blk ∉ L -> addL L blk = L ++ [blk].
Proof. intros. unfold addL. by rewrite decide_False. Qed.

Lemma wp_log_blocks D V l : forall L o s (Q : unit -> kernel -> Prop),
  linv D V L [] o s -> 1 <= o -> trans S0 (L ++ l) ->
  (forall s', linv D V (L ++ l) [] o s' -> Q tt s') -> wp (log_blocks l) n s Q.
Proof.
  induction l as [|blk l IH]; intros L o s Q Hl Ho Ht HQ; cbn [log_blocks].
  { apply wp_ret, HQ. by rewrite app_nil_r. }
  pose proof (tr_len _ _ Ht) as Hlen. rewrite length_app in Hlen. cbn [length] in Hlen.
  pose proof (tr_data _ _ Ht) as [_ [Hd _]%Forall_cons]%Forall_app.
  pose proof (tr_nodup _ _ Ht) as (_ & Hnd & _)%NoDup_app.
  assert (blk ∉ L) as HnL by (intros HL; apply (Hnd blk HL), list_elem_of_here).
  apply wp_bind. eapply (wp_lread S0 n Hn Hdn _ _ _ _ _ _ blk _ Hl); [apply Hd|by intros b ?%elem_of_nil|unfold NBUF, LOGSIZE in *; cbn; lia|].
  intros b s1 _ _ L1 _ Hbn _ _ _. apply wp_bind.
  apply (wp_log_write S0 Hdev HS0 n Hn Hdn _ _ _ _ _ _ b _ L1); [apply list_elem_of_here|by rewrite Hbn|done|lia|].
  rewrite Hbn, addL_new by done. intros s2 _ _ L2 Hs2. apply wp_bind.
  apply (wp_lrelse S0 n Hn Hdn _ _ _ _ [] _ _ b _ L2); [done| |].
  { left. rewrite (proj1 (Hs2 b)), Hbn. apply elem_of_app. right. apply list_elem_of_here. }
  intros s3 _ _ L3 _ _. apply (IH _ _ _ _ L3 Ho); rewrite <-app_assoc; done.
Qed.

(** C40: [begin_op] admits as many operations as can fill the log's [LOGSIZE]
    blocks with [MAXOPBLOCKS] each, but [log_write] takes one block less. From
    an idle log, three [begin_op]s return although none has ended, and
    [LOGSIZE - 1] blocks can be logged; when the operations log a [LOGSIZE]th
    block, which they are allowed to, or one of the logged blocks again,
    [log_write] panics. *)
Theorem log_write_full D V L x s :
  linv D V [] [] 0 s -> trans S0 L -> Z.of_nat (length L) = LOGSIZE - 1 -> isdata x ->
  3 * MAXOPBLOCKS = LOGSIZE /\
  exists s1 b s2 s3,
    (begin_op;; begin_op;; begin_op;; log_blocks L) n s = Ret tt s1 /\
    bread dev x n s1 = Ret b s2 /\ log_write b n s2 = Panic "too big a transaction" s3.
Proof.
  intros Hl Ht Hlen Hx. split; [done|].
  assert (wp (begin_op;; begin_op;; begin_op;; log_blocks L) n s (fun _ s1 => linv D V L [] 3 s1)) as ([] & s1 & E1 & L1)%wp_elim.
  { apply wp_bind, (wp_begin_op S0 n Hn Hdn _ _ _ _ _ _ _ Hl); [lia|by vm_compute|]. intros a _ _ _ La.
    apply wp_bind, (wp_begin_op S0 n Hn Hdn _ _ _ _ _ _ _ La); [lia|by vm_compute|]. intros b _ _ _ Lb.
    apply wp_bind, (wp_begin_op S0 n Hn Hdn _ _ _ _ _ _ _ Lb); [lia|by vm_compute|]. intros e _ _ _ Le.
    by apply (wp_log_blocks D V L [] 3 e _ Le). }
  assert (wp (bread dev x) n s1 (fun b s2 => linv D V L [b] 3 s2)) as (b & s2 & E2 & L2)%wp_elim.
  { apply (wp_lread S0 n Hn Hdn _ _ _ _ _ _ x _ L1); [apply Hx|by intros b ?%elem_of_nil|unfold NBUF, LOGSIZE in *; cbn; lia|done]. }
  destruct L2 as [[[Hh]] [_ _ Hlh _] _ Hsz _ _ _ _ _].
  assert (wp (lock Llog) n s2 (fun _ s' => klog s' = klog s2)) as (s3 & E & Ek)%wp_elim_unit.
  { eapply wp_lock; [lia|exact Hh|apply not_elem_of_nil|done]. }
  exists s1, b, s2, s3. split; [done|]. split; [done|].
  unfold log_write, mbind, M_bind, lgget, gets. rewrite E. cbn. by rewrite Ek, Hlh, Hsz, Hlen.
Qed.

(** C2: ending the last operation of a transaction is atomic. [end_op] returns
    with the new contents [V] of every data block on disk and the log empty. If
    power fails after any prefix of its writes, and again after any prefix of
    the writes that [initlog] makes in each of the boots that follow, the next
    boot's [initlog] returns with a working log in which every data block has
    its old contents, when the header had not been written yet, or else its new
    contents: all or nothing. *)
Theorem end_op_atomic D V L s :
  linv D V L [] 1 s ->
  exists s' ws V', end_op n s = Ret tt s' /\ medium s' = rev ws ++ medium s /\
    linv V V' [] [] 0 s' /\ (forall blk, isdata blk -> V' blk = V blk) /\
    forall k d sb s1, crashes (applyw (take k ws) (image s)) d -> booted d s1 -> logsb sb ->
      exists s2 V2, initlog dev sb n s1 = Ret tt s2 /\
        linv (if decide (k <= length L)%nat then D else V) V2 [] [] 0 s2.
Proof.
  intros Hl. destruct (wp_elim _ _ _ _ (wp_end_op S0 Hdev HS0 n Hn Hdn D V L s (fun _ s' =>
    medium s' = rev (commitw S0 V L) ++ medium s /\
    exists V', linv V V' [] [] 0 s' /\ forall blk, isdata blk -> V' blk = V blk) Hl
    (fun _ V' _ M I HV => conj M (ex_intro _ V' (conj I HV)))))
    as ([] & s' & E & M & V' & I' & HV').
  exists s', (commitw S0 V L), V'. split; [done|]. split; [done|]. split; [done|]. split; [done|].
  intros k d sb s1 Hc Hb Hsb.
  assert (recovers S0 (if decide (k <= length L)%nat then D else V) d) as Hr.
  { eapply crashes_recovers; [exact Hc|]. destruct Hl.
    assert (recovers S0 (if decide (k <= length L)%nat then image s else V)
      (applyw (take k (commitw S0 V L)) (image s))) as (L' & HL' & Ht' & HX).
    { apply commit_recovers; [done|done|]. intros blk Hd HL. rewrite ln_disk by done. apply ln_same; [done|done|].
      intros b Hin. by apply not_elem_of_nil in Hin. }
    exists L'. split; [done|]. split; [done|]. intros blk Hd. rewrite HX by done.
    destruct (decide _); [by apply ln_disk|done]. }
  destruct (recovers_boots _ _ _ _ Hr Hb Hsb) as (s2 & V2 & E2 & I2 & _). by exists s2, V2.
Qed.

End boot.
