(* ===== verification/Await.v ===== *)
(** * Code that sleeps

    A process that sleeps leaves the CPU until the rest of the system lets it
    go on. [await E o] runs an outcome to its end when [E ch s] is what the
    rest of the system makes of the state [s] a process goes to sleep on [ch]
    in, [None] when it never wakes the process up. Module [Smp] has several harts
    that run the statements of [sleep] and [wakeup] interleaved. *)

From Stdlib Require Import FunctionalExtensionality.
From S2P Require Import Prelude Riscv Spinlock Str Kalloc Kernel Proc KernelWp.

Fixpoint await {A} (E : chan -> kernel -> option kernel) (o : out kernel A) : out kernel A :=
  match o with
  | Sleep ch s k => match E ch s with Some s' => await E (k s') | None => Sleep ch s k end
  | _ => o
  end.

(** The scheduler on hart [c] runs process [p] if it can run. *)
Definition dispatch (c p : Z) : K bool :=
  lock (Lproc p);;
  st ← pget p p_state;
  if decide (st = RUNNABLE) then
    pset p (set_p_state RUNNING);;
    modify (fun s => set_cpu_proc (<[c := Some p]> (cpu_proc s)) s);;
    mret true
  else mret false.

(** What happens on a hart from the moment process [me] leaves it: the
    scheduler releases the process, [m] is the rest of the system, and when it
    has made the process runnable the scheduler runs it again. *)
Definition turn (me : Z) (m : K unit) : K bool :=
  c ← lift cpuid;
  modify (fun s => set_cpu_proc (<[c := None]> (cpu_proc s)) s);;
  unlock (Lproc me);;
  m;;
  dispatch c me.

Definition turns (me : Z) (m : chan -> K unit) (n : nat) (ch : chan) (s : kernel) : option kernel :=
  match turn me (m ch) n s with Ret true s' => Some s' | _ => None end.

(** [m] returns, although it may sleep. *)
Definition wps {A} (E : chan -> kernel -> option kernel) (m : K A) (n : nat) (s : kernel) (Q : A -> kernel -> Prop) : Prop :=
  match await E (m n s) with Ret a s' => Q a s' | _ => False end.

Section rules.
Context (E : chan -> kernel -> option kernel) {n : nat} {c me : Z}.

Lemma await_bind {A B} (o : out kernel A) (f : A -> kernel -> out kernel B) (Q : B -> kernel -> Prop) :
  match await E o with
  | Ret a s => match await E (f a s) with Ret b s' => Q b s' | _ => False end
  | _ => False
  end ->
  match await E (obind o f) with Ret b s' => Q b s' | _ => False end.
Proof.
  induction o as [a s|msg s|ch s k IH|]; cbn; try done. destruct (E ch s); [apply IH|done].
Qed.

Lemma wps_bind {A B} (m : K A) (f : A -> K B) s Q :
  wps E m n s (fun a s' => wps E (f a) n s' Q) -> wps E (m ≫= f) n s Q.
Proof. apply await_bind. Qed.

Lemma wps_elim {A} (m : K A) s Q : wps E m n s Q -> exists a s', await E (m n s) = Ret a s' /\ Q a s'.
Proof. unfold wps. destruct (await E (m n s)) as [a s'| | |]; [|done..]. intros H. by exists a, s'. Qed.

(** Code that does not sleep. *)
Lemma wp_wps {A} (m : K A) s Q : wp m n s Q -> wps E m n s Q.
Proof. unfold wp, wps. destruct (m n s); done. Qed.

Lemma wps_loop {L A} (body : L -> K (ctl L A)) l s Q :
  wps E (loop_n body n l) n s Q -> wps E (loop body l) n s Q.
Proof. done. Qed.

Lemma wps_loop_rounds {L A} (body : L -> K (ctl L A)) i l s Q :
  n = i -> wps E (loop_n body i l) n s Q -> wps E (loop body l) n s Q.
Proof. by intros <-. Qed.

Lemma wps_loop_n {L A} (body : L -> K (ctl L A)) i l s Q :
  wps E (body l) n s (fun r s' => match r with Next l' => wps E (loop_n body i l') n s' Q | Done a => Q a s' end) ->
  wps E (loop_n body (S i) l) n s Q.
Proof.
  intros H. apply await_bind. unfold wps in H. destruct (await E (body l n s)) as [[]| | |]; done.
Qed.

(** The rule [wp_loop] for loops that sleep. *)
Lemma wps_loop_inv {L A} (body : L -> K (ctl L A)) (I : nat -> L -> kernel -> Prop) Q :
  (forall k l s, I k l s -> wps E (body l) n s (fun r s' =>
     match r with Next l' => exists k', (k' < k)%nat /\ I k' l' s' | Done a => Q a s' end)) ->
  forall k l s, (k < n)%nat -> I k l s -> wps E (loop body l) n s Q.
Proof.
  intros Hb k l s Hk HI. apply wps_loop.
  assert (forall i k l s, (k < i)%nat -> I k l s -> wps E (loop_n body i l) n s Q) as Hi; [|by eapply Hi].
  clear k l s Hk HI. induction i as [|i IH]; intros k l s Hk HI; [lia|]. apply wps_loop_n.
  pose proof (Hb k l s HI) as H. unfold wps in H |- *. destruct (await E (body l n s)) as [[l'|a] s'| | |]; try done.
  destruct H as (k' & Hk' & HI'). apply (IH k'); [lia|done].
Qed.

Lemma wps_mono {A} (m : K A) s (Q Q' : A -> kernel -> Prop) :
  wps E m n s Q -> (forall a s', Q a s' -> Q' a s') -> wps E m n s Q'.
Proof. unfold wps. destruct (await E (m n s)); eauto. Qed.

Lemma wp_mycpu s Q : Q (cpus (khart s) (tp (khart s))) s -> wp (lift mycpu : K cpu) n s Q.
Proof. intros H. unfold wp, lift. cbn. by destruct s as [[]]. Qed.

Lemma hon_set_cpu hl h i : hon c hl h -> hon c hl (set_cpu (mkCpu (noff (cpus h (tp h))) i) h).
Proof. intros [[] ?]. split; [|done]. split; try done. cbn. by rewrite fn_lookup_insert. Qed.

(** [sched] by a process that holds nothing but its own lock. *)
Lemma wps_sched s Q :
  hon c [Lproc me] (khart s) -> cpu_proc s c = Some me -> p_state (procs s me) <> RUNNING ->
  (forall h, hon c [Lproc me] h -> exists s', E (p_chan (procs s me)) (hk h s) = Some s' /\
    hon c [Lproc me] (khart s') /\ forall h', hon c [Lproc me] h' -> Q tt (hk h' s')) ->
  wps E sched n s Q.
Proof.
  intros Hh Hme Hst HE. unfold sched. apply wps_bind, wp_wps. eapply wp_myproc; [done|]. intros h1 H1. rewrite Hme.
  apply wps_bind, wp_wps, wp_ret, wps_bind, wp_wps. destruct H1 as [R1 T1].
  apply wp_lift. unfold wp. cbn [lget kernel_hart ms set_ms hk hart set_hart].
  rewrite (holding_mrep _ _ _ _ R1), bool_decide_true by apply list_elem_of_here. cbn [negb].
  apply wps_bind, wp_wps, wp_mycpu. cbn. rewrite (mrep_noff _ _ R1). cbn [length Z.of_nat Z.eqb negb Pos.of_succ_nat].
  apply wps_bind, wp_wps. unfold pget. apply wp_gets. cbn [procs set_ms hk]. rewrite decide_False by done.
  apply wps_bind, wp_wps, wp_lift. unfold intr_get. apply wp_gets. cbn [lget kernel_hart ms set_ms hk hart set_hart lset].
  rewrite (mrep_off _ _ R1) by done.
  apply wps_bind, wp_wps, wp_mycpu, wps_bind, wp_wps, wp_gets. cbn [procs set_ms hk].
  apply wps_bind. destruct (HE h1) as (s' & Es & Hs' & HQ); [done|].
  unfold wps at 1, swtch. cbn [await]. change (set_ms _ _) with (hk h1 s). rewrite Es.
  apply wp_wps, wp_lift, wp_bind. unfold mycpu at 1. apply wp_gets, wp_modify. apply HQ. by apply hon_set_cpu.
Qed.

Lemma wps_sleep ch lk s Q :
  (0 < n)%nat -> hon c [lk] (khart s) -> cpu_proc s c = Some me -> lk <> Lproc me ->
  (forall h, hon c [Lproc me] h ->
    exists s', E ch (upd_proc me (fun x => set_p_state SLEEPING (set_p_chan ch x)) (hk h s)) = Some s' /\
      hon c [Lproc me] (khart s') /\ forall h', hon c [lk] h' -> Q tt (upd_proc me (set_p_chan Cnone) (hk h' s'))) ->
  wps E (sleep ch lk) n s Q.
Proof.
  intros Hn Hh Hme Hlk HE. unfold sleep. apply wps_bind, wp_wps. eapply wp_myproc; [done|]. intros h1 H1. rewrite Hme.
  apply wps_bind, wp_wps, wp_ret. cbn [sleep_steps seqs]. apply wps_bind, wp_wps.
  eapply wp_lock; [done|exact H1|by apply not_elem_of_cons; split; [congruence|apply not_elem_of_nil]|]. intros h2 H2.
  apply wps_bind, wp_wps. eapply wp_unlock; [eapply hon_perm; [|exact H2]; apply Permutation_swap|]. intros h3 H3.
  unfold pset. apply wps_bind, wp_wps, wp_modify, wps_bind, wp_wps, wp_modify.
  set (s1 := upd_proc me (set_p_state SLEEPING) (upd_proc me (set_p_chan ch) (hk h3 s))).
  match goal with |- wps _ ?m _ _ ?Q => change (wps E m n s1 Q) end.
  assert (forall h, hk h s1 = upd_proc me (fun x => set_p_state SLEEPING (set_p_chan ch x)) (hk h s)) as Es1.
  { intros h. subst s1. unfold upd_proc, hk. cbn. by rewrite fn_lookup_insert, fn_insert_insert. }
  assert (procs s1 me = set_p_state SLEEPING (set_p_chan ch (procs s me))) as Ep.
  { subst s1. cbn. by rewrite !fn_lookup_insert. }
  apply wps_bind, wps_sched; [exact H3|done|by rewrite Ep|]. rewrite Ep. intros h Hh'. rewrite Es1.
  destruct (HE h Hh') as (s' & Es & Hs' & HQ). exists s'. split; [exact Es|]. split; [done|].
  intros h4 H4. apply wps_bind, wp_wps, wp_modify, wps_bind, wp_wps. eapply wp_unlock; [exact H4|]. intros h5 H5.
  apply wps_bind, wp_wps. eapply wp_lock; [done|exact H5|apply not_elem_of_nil|]. intros h6 H6. by apply wp_wps, wp_ret, HQ.
Qed.

Lemma wp_dispatch s (Q : bool -> kernel -> Prop) :
  (0 < n)%nat -> hon c [] (khart s) -> p_state (procs s me) = RUNNABLE ->
  (forall h, hon c [Lproc me] h -> Q true (set_cpu_proc (<[c := Some me]> (cpu_proc s)) (upd_proc me (set_p_state RUNNING) (hk h s)))) ->
  wp (dispatch c me) n s Q.
Proof.
  intros Hn Hh Hst HQ. unfold dispatch. apply wp_bind. eapply wp_lock; [done|exact Hh|apply not_elem_of_nil|]. intros h2 H2.
  unfold pget, pset. apply wp_bind, wp_gets. cbn [procs hk set_ms]. rewrite Hst, decide_True by done.
  apply wp_bind, wp_modify, wp_bind, wp_modify, wp_ret. by apply HQ.
Qed.

(** The rest of the system makes the process runnable. *)
Lemma wp_turn m s (Q : bool -> kernel -> Prop) :
  (0 < n)%nat -> hon c [Lproc me] (khart s) ->
  (forall h, hon c [] h -> wp m n (hk h (set_cpu_proc (<[c := None]> (cpu_proc s)) s)) (fun _ s' =>
    hon c [] (khart s') /\ p_state (procs s' me) = RUNNABLE /\
    forall h', hon c [Lproc me] h' -> Q true (set_cpu_proc (<[c := Some me]> (cpu_proc s')) (upd_proc me (set_p_state RUNNING) (hk h' s'))))) ->
  wp (turn me m) n s Q.
Proof.
  intros Hn Hh Hm. unfold turn. apply wp_bind. eapply wp_cpuid; [exact Hh|].
  apply wp_bind, wp_modify, wp_bind. eapply wp_unlock; [exact Hh|]. intros h1 H1.
  apply wp_bind. eapply wp_mono; [by apply Hm|]. intros [] s' (Hh' & Hst & HQ). by apply wp_dispatch.
Qed.

End rules.

(** ** Sleep and wakeup on several harts

    Harts run their statements one at a time, in any order. *)

Module Smp.

(** The kernel's memory, the [sstatus] of each hart, the statements each hart
    has left to run, and the process that has left a hart: how its [sched] goes
    on, and its statements after that. *)
Record smp := mkSmp {
  m_ker : kernel;
  m_sst : Z -> Z;
  m_code : Z -> list (K unit);
  m_away : option ((kernel -> out kernel unit) * list (K unit))
}.

(** The machine as hart [i] sees it. *)
Definition seen (h : machine) (sst : Z -> Z) (i : Z) : machine := mkMachine i (sst i) (cpus h) (locks h).

(** The scheduler on hart [i] when process [p] switches to it. *)
Definition leave (i p : Z) : list (K unit) :=
  [modify (fun s => set_cpu_proc (<[i := None]> (cpu_proc s)) s); unlock (Lproc p)].

(** Hart [i] runs one statement. A hart that spins for a lock another one holds,
    or has panicked, does not go on. *)
Definition advance (n : nat) (i : Z) (x : smp) : option smp :=
  match m_code x i with
  | [] => None
  | m :: l =>
      match m n (hk (seen (khart (m_ker x)) (m_sst x) i) (m_ker x)) with
      | Ret _ s => Some (mkSmp s (<[i := sstatus (khart s)]> (m_sst x)) (<[i := l]> (m_code x)) (m_away x))
      | Sleep _ s k =>
          match cpu_proc s i with
          | Some p => Some (mkSmp s (<[i := sstatus (khart s)]> (m_sst x)) (<[i := leave i p]> (m_code x)) (Some (k, l)))
          | None => None
          end
      | _ => None
      end
  end.

Definition step (n : nat) (x y : smp) : Prop := exists i, advance n i x = Some y.

(** ** Locks of several harts *)

(** [own lk] is the hart that holds [lk], [cnt i] how many hart [i] holds. *)
Record held (own : lockid -> option Z) (cnt : Z -> Z) (sst : Z -> Z) (h : machine) : Prop := {
  he_locked : forall lk, locked (locks h lk) = match own lk with Some _ => 1 | None => 0 end;
  he_cpu : forall lk, lcpu (locks h lk) = own lk;
  he_noff : forall i, noff (cpus h i) = cnt i;
  he_off : forall i, 0 < cnt i -> has (sst i) SSTATUS_SIE = false
}.

Section locks.
Context {n : nat} (Hn : (0 < n)%nat).
Context {own : lockid -> option Z} {cnt sst : Z -> Z} {h : machine} (i : Z).
Context (Hh : held own cnt sst h) (Hcnt : 0 <= cnt i).

Lemma acquire_free lk :
  own lk = None ->
  exists h', acquire_ lk n (seen h sst i) = Ret tt h' /\
    held (<[lk := Some i]> own) (<[i := cnt i + 1]> cnt) (<[i := sstatus h']> sst) h'.
Proof.
  intros Hl. destruct Hh as [Hlk Hcp Hno Hoff].
  unfold acquire_, acq_enter, acq_own, holding, test_and_set, cpuid. munfold. rewrite push_off_eq. simpl.
  rewrite Hlk, Hl. simpl. destruct n as [|n']; [lia|]. unfold loop. simpl. rewrite Hlk, Hl. simpl. rewrite fn_lookup_insert. simpl.
  eexists. split; [done|]. unfold set_lock; simpl. rewrite fn_insert_insert. split; simpl.
  - intros lk'. rewrite !fn_insert_spec. by destruct (decide (lk = lk')).
  - intros lk'. rewrite !fn_insert_spec. by destruct (decide (lk = lk')).
  - intros j. rewrite !fn_insert_spec. destruct (decide (i = j)); [|done]. simpl. by rewrite Hno.
  - intros j. rewrite !fn_insert_spec. destruct (decide (i = j)); [|apply Hoff]. intros _. apply SIE_off.
Qed.

(** A hart spins as long as another one holds the lock. *)
Lemma acquire_busy lk j : own lk = Some j -> j <> i -> acquire_ lk n (seen h sst i) = NoFuel.
Proof.
  intros Hl Hne. destruct Hh as [Hlk Hcp _ _].
  assert (forall k h, locked (locks h lk) = 1 -> loop_n (fun _ : unit => old ← test_and_set lk; mret (if old =? 0 then Done tt else Next tt)) k tt n h = NoFuel) as Hspin.
  { induction k as [|k IH]; intros h1 H1; [done|]. cbn [loop_n]. unfold test_and_set at 1. munfold. cbn [obind].
    rewrite H1. cbn [Z.eqb obind]. apply IH. cbn. by rewrite fn_lookup_insert. }
  unfold acquire_, acq_enter, holding, cpuid. munfold. rewrite push_off_eq. simpl.
  rewrite Hcp, Hl, bool_decide_false, andb_false_r by congruence. simpl. unfold loop. rewrite Hspin; [done|].
  simpl. by rewrite Hlk, Hl.
Qed.

Lemma release_own lk :
  own lk = Some i -> 1 <= cnt i ->
  exists h', release_ lk n (seen h sst i) = Ret tt h' /\
    held (<[lk := None]> own) (<[i := cnt i - 1]> cnt) (<[i := sstatus h']> sst) h'.
Proof.
  intros Hl Hc. destruct Hh as [Hlk Hcp Hno Hoff].
  unfold release_, rel_enter, rel_unlock, holding, cpuid. munfold. simpl. rewrite Hlk, Hcp, Hl, bool_decide_true by done.
  simpl. rewrite fn_lookup_insert. unfold set_lock at 1. simpl. rewrite fn_insert_insert.
  rewrite pop_off_eq; simpl; [|apply Hoff; lia|rewrite Hno; lia].
  eexists. split; [done|]. split; simpl.
  - intros lk'. rewrite !fn_insert_spec. by destruct (decide (lk = lk')).
  - intros lk'. rewrite !fn_insert_spec. by destruct (decide (lk = lk')).
  - intros j. rewrite !fn_insert_spec. destruct (decide (i = j)); [|done]. simpl. by rewrite Hno.
  - intros j. rewrite !fn_insert_spec. destruct (decide (i = j)); [|apply Hoff]. intros ?.
    rewrite Hno, (proj2 (Z.eqb_neq _ _)) by lia. simpl. apply Hoff. lia.
Qed.

Lemma myproc_held s :
  exists h', myproc n (hk (seen h sst i) s) = Ret (cpu_proc s i) (hk h' s) /\ tp h' = i /\
    held own cnt (<[i := sstatus h']> sst) h'.
Proof.
  destruct Hh as [Hlk Hcp Hno Hoff]. unfold myproc. munfold. cbn [lget kernel_hart hk set_ms ms set_hart hart].
  rewrite push_off_eq. cbn. rewrite pop_off_eq; simpl; [|apply SIE_off|rewrite fn_lookup_insert; simpl; rewrite Hno; lia].
  rewrite fn_lookup_insert, fn_insert_insert. simpl. eexists. split; [reflexivity|]. split; [done|]. split; simpl; [done..| |].
  - intros j. rewrite fn_insert_spec. destruct (decide (i = j)) as [<-|]; [|done]. simpl. rewrite Hno. lia.
  - intros j. rewrite fn_insert_spec. destruct (decide (i = j)) as [<-|]; [|apply Hoff]. intros Hj. rewrite Hno.
    rewrite (proj2 (Z.eqb_neq (cnt i + 1 - 1) 0)) by lia. simpl. apply SIE_off.
Qed.


Lemma lock_free lk s :
  own lk = None ->
  exists h', lock lk n (hk (seen h sst i) s) = Ret tt (hk h' s) /\
    held (<[lk := Some i]> own) (<[i := cnt i + 1]> cnt) (<[i := sstatus h']> sst) h'.
Proof.
  intros Hl. destruct (acquire_free lk Hl) as (h' & E & H'). exists h'. split; [|done].
  unfold lock, lift, acquire. cbn. by rewrite E.
Qed.

Lemma lock_busy lk j s : own lk = Some j -> j <> i -> lock lk n (hk (seen h sst i) s) = NoFuel.
Proof. intros Hl Hne. unfold lock, lift, acquire. cbn. by rewrite (acquire_busy lk j). Qed.

Lemma unlock_own lk s :
  own lk = Some i -> 1 <= cnt i ->
  exists h', unlock lk n (hk (seen h sst i) s) = Ret tt (hk h' s) /\
    held (<[lk := None]> own) (<[i := cnt i - 1]> cnt) (<[i := sstatus h']> sst) h'.
Proof.
  intros Hl Hc. destruct (release_own lk Hl Hc) as (h' & E & H'). exists h'. split; [|done].
  unfold unlock, lift, release. cbn. by rewrite E.
Qed.

(** The process that holds nothing but its own lock leaves the hart; when it is
    back, [sched] only restores [intena]. *)
Lemma sched_leaves p s :
  own (Lproc p) = Some i -> cnt i = 1 -> cpu_proc s i = Some p -> p_state (procs s p) <> RUNNING ->
  exists h' e, sched n (hk (seen h sst i) s) = Sleep (p_chan (procs s p)) (hk h' s)
      (fun s' => Ret tt (hk (set_cpu (mkCpu (noff (cpus (khart s') (tp (khart s')))) e) (khart s')) s')) /\
    held own cnt (<[i := sstatus h']> sst) h'.
Proof.
  intros Hl Hc Hp Hst. destruct (myproc_held s) as (h' & E & T & H'). pose proof H' as [Hlk Hcp Hno Hoff].
  exists h', (intena (cpus h' i)). split; [|done]. unfold sched, mbind, M_bind. rewrite E, Hp. cbn [obind deref].
  unfold lift, holding, cpuid, mycpu, intr_get, pget, swtch. munfold. cbn.
  rewrite Hlk, Hcp, Hl, T, bool_decide_true by done. cbn. rewrite Hno, T, Hc. cbn. rewrite decide_False by done. cbn.
  specialize (Hoff i). rewrite fn_lookup_insert in Hoff. rewrite Hoff by lia. cbn. by rewrite T.
Qed.

End locks.

Lemma held_ext own own' cnt cnt' sst h :
  held own cnt sst h -> (forall x, own x = own' x) -> (forall i, cnt i = cnt' i) -> held own' cnt' sst h.
Proof.
  intros [H1 H2 H3 H4] Ho Hc. split; intros x; rewrite <-?Ho, <-?Hc; auto.
Qed.

Lemma held_seen own cnt sst h i : held own cnt sst h -> held own cnt (<[i := sst i]> sst) (seen h sst i).
Proof. intros []. by rewrite fn_insert_id. Qed.

(** ** A sleeper and a waker *)

(** The statements of [acquire(lk); wakeup(ch); release(lk)] in process [q]. *)
Definition waker (ch : chan) (lk : lockid) (q : option Z) : list (K unit) :=
  lock lk :: concat (wake_steps ch q <$> seqZ 0 NPROC) ++ [unlock lk].

(** Process [me] is about to run [sleep(ch, lk)] on hart [a], hart [b] to run the waker. *)
Definition meet (a b me : Z) (ch : chan) (lk : lockid) (s : kernel) (sst : Z -> Z) : smp :=
  mkSmp s sst (<[a := sleep_steps me ch lk]> (<[b := waker ch lk (cpu_proc s b)]> (fun _ => []))) None.

Section meeting.
Context (n : nat) (a b me : Z) (ch : chan) (lk : lockid) (s : kernel) (sst : Z -> Z).
Context (Hn : (0 < n)%nat) (Hab : a <> b) (Hme : 0 <= me < NPROC) (Hlk : forall p, lk <> Lproc p).
Context (Hr : runs a me [lk] s) (Hst : sst a = sstatus (khart s)).
Context (Hidle : forall i, i <> a -> noff (cpus (khart s) i) = 0) (Hb : cpu_proc s b <> Some me).
Abbreviation q := (cpu_proc s b).

(** The places the sleeper can be at are numbered from 0 to 7, those of the
    waker are named. *)
Inductive wpos := W0 | Wscan (j : Z) | Wwake (j : Z) | Wfree (j : Z) | Wend.

#[local] Instance wpos_eq_dec : EqDecision wpos.
Proof. solve_decision. Defined.

Definition scan (j : Z) : list (K unit) := concat (wake_steps ch q <$> seqZ j (NPROC - j)) ++ [unlock lk].

Definition acode (i : nat) : list (K unit) :=
  match i with
  | 0 | 1 | 2 | 3 | 4 => drop i (sleep_steps me ch lk)
  | 5 => leave a me
  | 6 => drop 1 (leave a me)
  | _ => []
  end%nat.
Definition wcode (w : wpos) : list (K unit) :=
  match w with
  | W0 => lock lk :: scan 0
  | Wscan j => scan j
  | Wwake j => wake ch j :: unlock (Lproc j) :: scan (j + 1)
  | Wfree j => unlock (Lproc j) :: scan (j + 1)
  | Wend => []
  end.

(** What they hold there. *)
Definition aown (i : nat) : list lockid :=
  match i with 0 => [lk] | 1 => [Lproc me; lk] | 2 | 3 | 4 | 5 | 6 => [Lproc me] | _ => [] end%nat.
Definition wown (w : wpos) : list lockid :=
  match w with W0 | Wend => [] | Wscan _ => [lk] | Wwake j | Wfree j => [Lproc j; lk] end.
Definition own (i : nat) (w : wpos) (x : lockid) : option Z :=
  if decide (x ∈ aown i) then Some a else if decide (x ∈ wown w) then Some b else None.
Definition cnt (i : nat) (w : wpos) (c : Z) : Z :=
  if decide (c = a) then Z.of_nat (length (aown i)) else if decide (c = b) then Z.of_nat (length (wown w)) else 0.

(** What they have done to the processes. *)
Definition aproc (i : nat) (x : proc) : proc :=
  match i with 0 | 1 | 2 => x | 3 => set_p_chan ch x | _ => set_p_state SLEEPING (set_p_chan ch x) end%nat.
Definition wdone (w : wpos) : Z :=
  match w with W0 => 0 | Wscan j | Wwake j => j | Wfree j => j + 1 | Wend => NPROC end.
Definition table (i : nat) (w : wpos) : Z -> proc :=
  woken ch q (wdone w) (<[me := aproc i (procs s me)]> (procs s)).
Definition current (i : nat) : Z -> option Z := if decide (6 <= i)%nat then <[a := None]> (cpu_proc s) else cpu_proc s.

(** How [sched] goes on with [intena] [e]. *)
Definition back (e : Z) (s' : kernel) : out kernel unit :=
  Ret tt (hk (set_cpu (mkCpu (noff (cpus (khart s') (tp (khart s')))) e) (khart s')) s').

Record inv (i : nat) (w : wpos) (x : smp) : Prop := {
  in_ker : exists h, m_ker x = hk h (set_procs (table i w) (set_cpu_proc (current i) s)) /\ held (own i w) (cnt i w) (m_sst x) h;
  in_a : m_code x a = acode i;
  in_b : m_code x b = wcode w;
  in_rest : forall c, c <> a -> c <> b -> m_code x c = [];
  in_away : (5 <= i)%nat -> exists e, m_away x = Some (back e, drop 5 (sleep_steps me ch lk));
  in_i : (i <= 7)%nat;
  in_w : match w with Wscan j => 0 <= j <= NPROC | Wwake j | Wfree j => 0 <= j < NPROC /\ q <> Some j | _ => True end;
  in_lk : w <> W0 -> (2 <= i)%nat;
  in_me : me < wdone w \/ w = Wwake me -> i = 7%nat
}.

Lemma inv_start : inv 0 W0 (meet a b me ch lk s sst).
Proof.
  pose proof Hr as [[[Hnd Hlo Hcp Hno Hoff] Ht] Hcur _ _]. split; try done; try lia.
  - exists (khart s). split.
    + unfold table, current. cbn [wdone aproc]. rewrite woken_0, fn_insert_id, decide_False by lia. by destruct s as [[]].
    + unfold own, cnt. cbn [aown wown]. split.
      * intros x. rewrite Hlo. destruct (decide (x ∈ [lk])); [done|]. by rewrite decide_False by apply not_elem_of_nil.
      * intros x. rewrite Hcp, Ht. destruct (decide (x ∈ [lk])); [done|]. by rewrite decide_False by apply not_elem_of_nil.
      * intros i. destruct (decide (i = a)) as [->|]; [by rewrite <-Ht|]. rewrite Hidle by done. by destruct (decide _).
      * intros i. destruct (decide (i = a)) as [->|]; [|destruct (decide _); cbn; lia]. intros _. cbn. rewrite Hst. by apply Hoff.
  - cbn. by rewrite fn_lookup_insert.
  - cbn. rewrite fn_insert_ne, fn_lookup_insert by done. done.
  - intros c Hca Hcb. cbn. by rewrite !fn_insert_ne by done.
  - intros [H|H]; [cbn in H; lia|done].
Qed.


Lemma exec_ret c x m l h s1 s' :
  m_code x c = m :: l -> m_ker x = hk h s1 -> m n (hk (seen h (m_sst x) c) s1) = Ret tt s' ->
  advance n c x = Some (mkSmp s' (<[c := sstatus (khart s')]> (m_sst x)) (<[c := l]> (m_code x)) (m_away x)).
Proof. intros Hc Hk E. unfold advance. rewrite Hc, Hk. change (khart (hk h s1)) with h. change (hk ?h1 (hk h s1)) with (hk h1 s1). by rewrite E. Qed.

Lemma exec_spins c x m l h s1 :
  m_code x c = m :: l -> m_ker x = hk h s1 -> m n (hk (seen h (m_sst x) c) s1) = NoFuel -> advance n c x = None.
Proof. intros Hc Hk E. unfold advance. rewrite Hc, Hk. change (khart (hk h s1)) with h. change (hk ?h1 (hk h s1)) with (hk h1 s1). by rewrite E. Qed.

(** The sleeper goes on. *)
Lemma inv_a i w x h away :
  inv i w x -> (i < 7)%nat -> held (own (S i) w) (cnt (S i) w) (<[a := sstatus h]> (m_sst x)) h ->
  ((5 <= S i)%nat -> exists e, away = Some (back e, drop 5 (sleep_steps me ch lk))) ->
  inv (S i) w (mkSmp (hk h (set_procs (table (S i) w) (set_cpu_proc (current (S i)) s)))
    (<[a := sstatus h]> (m_sst x)) (<[a := acode (S i)]> (m_code x)) away).
Proof.
  intros [_ Ha Hb' Hrest _ _ Hw Hl Hm] Hi Hh Haw. split; cbn; try done; try lia.
  - eauto.
  - by rewrite fn_lookup_insert.
  - by rewrite fn_insert_ne.
  - intros c ? ?. rewrite fn_insert_ne by done. by apply Hrest.
  - intros H. apply Hl in H. lia.
  - intros H. apply Hm in H. lia.
Qed.

(** The waker goes on. *)
Lemma inv_b i w w' x h :
  inv i w x -> held (own i w') (cnt i w') (<[b := sstatus h]> (m_sst x)) h ->
  match w' with Wscan j => 0 <= j <= NPROC | Wwake j | Wfree j => 0 <= j < NPROC /\ q <> Some j | _ => True end ->
  (2 <= i)%nat -> (me < wdone w' \/ w' = Wwake me -> i = 7%nat) ->
  inv i w' (mkSmp (hk h (set_procs (table i w') (set_cpu_proc (current i) s)))
    (<[b := sstatus h]> (m_sst x)) (<[b := wcode w']> (m_code x)) (m_away x)).
Proof.
  intros [_ Ha Hb' Hrest Haw Hi Hw Hl Hm] Hh Hw' H2 Hm'. split; cbn; try done.
  - eauto.
  - by rewrite fn_insert_ne.
  - by rewrite fn_lookup_insert.
  - intros c ? ?. rewrite fn_insert_ne by done. by apply Hrest.
Qed.

(** What the sleeper does to its own entry does not meet the waker. *)
Lemma table_me i w : wdone w <= me -> table i w me = aproc i (procs s me).
Proof. intros Hw. unfold table, woken. rewrite (bool_decide_false (0 <= me < wdone w)) by lia. by rewrite fn_lookup_insert. Qed.

Lemma table_upd i i' w : wdone w <= me -> <[me := aproc i' (procs s me)]> (table i w) = table i' w.
Proof.
  intros Hw. apply functional_extensionality. intros p. rewrite fn_insert_spec.
  destruct (decide (me = p)) as [<-|Hne]; [by rewrite table_me|]. unfold table, woken. by rewrite !fn_insert_ne by done.
Qed.

Ltac own_ext :=
  intros ?x; rewrite ?fn_insert_spec; unfold own; cbn [aown wown];
  repeat case_decide; rewrite ?elem_of_cons, ?elem_of_nil in *; simplify_eq; intuition congruence.
Ltac cnt_ext := intros ?x; rewrite ?fn_insert_spec; unfold cnt; cbn [aown wown length]; repeat case_decide; simplify_eq; lia.

Lemma cnt_a i w : cnt i w a = Z.of_nat (length (aown i)).
Proof. unfold cnt. by rewrite decide_True. Qed.
Lemma cnt_b i w : cnt i w b = Z.of_nat (length (wown w)).
Proof. unfold cnt. rewrite decide_False, decide_True by done. done. Qed.

(** A statement that only changes the sleeper's entry. *)
Lemma a_sets i w x f :
  inv i w x -> (2 <= i < 4)%nat -> m_code x a = pset me f :: acode (S i) ->
  f (aproc i (procs s me)) = aproc (S i) (procs s me) -> exists y, advance n a x = Some y /\ inv (S i) w y.
Proof.
  intros Hi Hr2 Hc Hf. pose proof Hi as [(h & Ek & Hh) _ _ _ _ _ _ _ Hm].
  assert (wdone w <= me) as Hw by (destruct (decide (me < wdone w)) as [Hlt|]; [|lia]; specialize (Hm (or_introl Hlt)); lia).
  eexists. split; [eapply exec_ret; [exact Hc|exact Ek|reflexivity]|].
  assert (current (S i) = current i) as Ec by (unfold current; by rewrite !decide_False by lia).
  assert (inv (S i) w (mkSmp (hk (seen h (m_sst x) a) (set_procs (table (S i) w) (set_cpu_proc (current (S i)) s)))
    (<[a := sstatus (seen h (m_sst x) a)]> (m_sst x)) (<[a := acode (S i)]> (m_code x)) (m_away x))) as HI.
  { apply inv_a; [done|lia| |intros; lia]. cbn [sstatus seen]. apply held_seen. eapply held_ext; [exact Hh|..].
    - unfold own. by destruct i as [|[|[|[|]]]]; try lia.
    - unfold cnt. by destruct i as [|[|[|[|]]]]; try lia. }
  rewrite Ec, <-(table_upd i (S i) w Hw), <-Hf, <-(table_me i w Hw) in HI. exact HI.
Qed.


Lemma inv_low i w x : inv i w x -> (i < 7)%nat -> wdone w <= me.
Proof.
  intros Hi Hlt. destruct (decide (me < wdone w)) as [H|]; [|lia]. pose proof (in_me _ _ _ Hi (or_introl H)). lia.
Qed.

(** A statement that takes or gives back a lock. *)
Lemma a_locks i w x :
  inv i w x -> (i = 0 \/ i = 1 \/ i = 6)%nat -> exists y, advance n a x = Some y /\ inv (S i) w y.
Proof.
  intros Hi Hc. pose proof Hi as [(h & Ek & Hh) Ha _ _ Haw _ _ Hl _].
  set (s1 := set_procs (table i w) (set_cpu_proc (current i) s)) in *.
  assert (table (S i) w = table i w /\ current (S i) = current i) as [Et Ec].
  { unfold table, current. destruct Hc as [->|[->| ->]]; [by rewrite !decide_False by lia..|by rewrite !decide_True by lia]. }
  assert (0 <= cnt i w a) as H0 by (rewrite cnt_a; lia).
  assert (forall h', held (own (S i) w) (cnt (S i) w) (<[a := sstatus h']> (m_sst x)) h' ->
    inv (S i) w (mkSmp (hk h' s1) (<[a := sstatus h']> (m_sst x)) (<[a := acode (S i)]> (m_code x)) (m_away x))) as Hgo.
  { intros h' Hh'. assert (i < 7)%nat as H7 by lia. pose proof (inv_a i w x h' (m_away x) Hi H7 Hh') as G. rewrite Et, Ec in G.
    apply G. intros H5. apply Haw. lia. }
  destruct Hc as [->|[->| ->]].
  - assert (w = W0) as -> by (destruct w; try done; exfalso; assert (2 <= 0)%nat by (by apply Hl); lia).
    destruct (lock_free Hn a Hh (Lproc me) s1) as (h' & E & H').
    { unfold own. cbn [aown wown]. rewrite !decide_False; [done|notin|]. intros H%list_elem_of_singleton. by destruct (Hlk me). }
    eexists. split; [eapply exec_ret; [exact Ha|exact Ek|exact E]|]. apply Hgo. eapply held_ext; [exact H'|own_ext|cnt_ext].
  - assert (w = W0) as -> by (destruct w; try done; exfalso; assert (2 <= 1)%nat by (by apply Hl); lia).
    destruct (unlock_own Hn a Hh lk s1) as (h' & E & H').
    { unfold own. cbn [aown]. rewrite decide_True by repeat constructor; done. }
    { rewrite cnt_a. cbn. lia. }
    eexists. split; [eapply exec_ret; [exact Ha|exact Ek|exact E]|]. apply Hgo. eapply held_ext; [exact H'| |cnt_ext].
    pose proof (Hlk me). own_ext.
  - destruct (unlock_own Hn a Hh (Lproc me) s1) as (h' & E & H').
    { unfold own. cbn [aown]. rewrite decide_True by repeat constructor; done. }
    { rewrite cnt_a. cbn. lia. }
    eexists. split; [eapply exec_ret; [exact Ha|exact Ek|exact E]|]. apply Hgo. eapply held_ext; [exact H'| |cnt_ext].
    assert (Lproc me ∉ wown w) as Hw. 
    { pose proof (inv_low _ _ _ Hi ltac:(lia)) as Hlow. pose proof (in_me _ _ _ Hi) as Hm. pose proof (Hlk me).
      destruct w as [|j|j|j|]; cbn [wown wdone] in *; [apply not_elem_of_nil|notin|..|apply not_elem_of_nil].
      - intros [[= <-]|[?|?%elem_of_nil]%elem_of_cons]%elem_of_cons; [|done|done].
        enough (6 = 7)%nat by lia. apply Hm. by right.
      - intros [[= <-]|[?|?%elem_of_nil]%elem_of_cons]%elem_of_cons; [lia|done|done]. }
    intros y. rewrite fn_insert_spec. unfold own. cbn [aown]. rewrite (decide_False (P := y ∈ [])) by apply not_elem_of_nil.
    destruct (decide (Lproc me = y)) as [<-|Hne]; [by rewrite decide_False|]. rewrite (decide_False (P := y ∈ [Lproc me])); [done|].
    intros ?%list_elem_of_singleton. congruence.
Qed.

(** The sleeper is never held up. *)
Lemma a_step i w x : inv i w x -> (i < 7)%nat -> exists y, advance n a x = Some y /\ inv (S i) w y.
Proof.
  intros Hi Hlt. pose proof Hi as [(h & Ek & Hh) Ha _ _ Haw _ _ _ _].
  destruct (decide (i = 0 \/ i = 1 \/ i = 6)%nat) as [Hc|Hc]; [by apply a_locks|].
  destruct (decide (2 <= i < 4)%nat) as [Hs|Hs].
  { assert (i = 2 \/ i = 3)%nat as [->| ->] by lia; eapply a_sets; eauto; done. }
  assert (i = 4 \/ i = 5)%nat as [->| ->] by lia.
  - pose proof (inv_low _ _ _ Hi Hlt) as Hlow. set (s1 := set_procs (table 4 w) (set_cpu_proc (current 4) s)) in *.
    assert (cpu_proc s1 a = Some me) as Hcur by (subst s1; unfold current; rewrite decide_False by lia; apply Hr).
    destruct (sched_leaves Hn a Hh ltac:(rewrite cnt_a; lia) me s1) as (h' & e & E & H').
    { unfold own. cbn [aown]. rewrite decide_True by repeat constructor; done. }
    { by rewrite cnt_a. }
    { done. }
    { subst s1. cbn [procs set_procs]. rewrite table_me by done. done. }
    exists (mkSmp (hk h' s1) (<[a := sstatus h']> (m_sst x)) (<[a := leave a me]> (m_code x))
      (Some (back e, drop 5 (sleep_steps me ch lk)))). split.
    { unfold advance. rewrite Ha, Ek. change (khart (hk h s1)) with h. change (hk ?h1 (hk h s1)) with (hk h1 s1).
      cbn [acode drop sleep_steps]. rewrite E. change (cpu_proc (hk h' s1) a) with (cpu_proc s1 a). by rewrite Hcur. }
    apply (inv_a 4 w x h'); [done|lia|exact H'|]. intros _. by exists e.
  - set (s1 := set_procs (table 5 w) (set_cpu_proc (current 5) s)) in *.
    eexists. split; [eapply exec_ret; [exact Ha|exact Ek|reflexivity]|].
    apply (inv_a 5 w x (seen h (m_sst x) a)); [done|lia|by apply held_seen|]. intros _. by apply Haw.
Qed.


Lemma scan_cons j : 0 <= j < NPROC -> scan j = wake_steps ch q j ++ scan (j + 1).
Proof.
  intros Hj. unfold scan. rewrite seqZ_cons by lia. cbn [fmap list_fmap concat]. rewrite <-app_assoc.
  replace (Z.pred (NPROC - j)) with (NPROC - (j + 1)) by lia. by rewrite Z.add_1_r.
Qed.

(** The waker takes a lock, or spins while the sleeper has it. *)
Lemma b_locks i w w' x lk' :
  inv i w x -> m_code x b = lock lk' :: wcode w' -> table i w' = table i w -> wown w' = lk' :: wown w -> lk' ∉ wown w ->
  match w' with Wscan j => 0 <= j <= NPROC | Wwake j | Wfree j => 0 <= j < NPROC /\ q <> Some j | _ => True end ->
  (lk' ∉ aown i -> (2 <= i)%nat /\ (me < wdone w' \/ w' = Wwake me -> i = 7%nat)) ->
  if decide (lk' ∈ aown i) then advance n b x = None else exists y, advance n b x = Some y /\ inv i w' y.
Proof.
  intros Hi Hc Et Ew Hnw Hw' Hgo. pose proof Hi as [(h & Ek & Hh) _ _ _ _ _ _ _ _].
  set (s1 := set_procs (table i w) (set_cpu_proc (current i) s)) in *.
  assert (0 <= cnt i w b) as H0 by (rewrite cnt_b; lia).
  destruct (decide (lk' ∈ aown i)) as [Hin|Hout].
  - eapply exec_spins; [exact Hc|exact Ek|]. eapply (lock_busy b Hh); [|exact Hab]. unfold own. by rewrite decide_True.
  - destruct (lock_free Hn b Hh lk' s1) as (h' & E & H').
    { unfold own. by rewrite !decide_False. }
    eexists. split; [eapply exec_ret; [exact Hc|exact Ek|exact E]|]. destruct (Hgo Hout) as [H2 H7].
    assert (held (own i w') (cnt i w') (<[b := sstatus h']> (m_sst x)) h') as Hh'.
    { eapply held_ext; [exact H'|..]; intros y; rewrite fn_insert_spec.
      - unfold own. rewrite Ew. destruct (decide (lk' = y)) as [<-|Hne].
        + rewrite decide_False, decide_True by (done || apply list_elem_of_here). done.
        + destruct (decide (y ∈ aown i)); [done|]. apply decide_ext. rewrite elem_of_cons. intuition congruence.
      - rewrite cnt_b. unfold cnt. rewrite Ew. cbn [length]. repeat case_decide; simplify_eq; lia. }
    pose proof (inv_b i w w' x h' Hi Hh' Hw' H2 H7) as G. rewrite Et in G. exact G.
Qed.

(** It gives one back. *)
Lemma b_unlocks i w w' x lk' :
  inv i w x -> m_code x b = unlock lk' :: wcode w' -> table i w' = table i w -> wown w = lk' :: wown w' -> lk' ∉ wown w' -> lk' ∉ aown i ->
  match w' with Wscan j => 0 <= j <= NPROC | Wwake j | Wfree j => 0 <= j < NPROC /\ q <> Some j | _ => True end ->
  (2 <= i)%nat -> (me < wdone w' \/ w' = Wwake me -> i = 7%nat) ->
  exists y, advance n b x = Some y /\ inv i w' y.
Proof.
  intros Hi Hc Et Ew Hnw Hna Hw' H2 H7. pose proof Hi as [(h & Ek & Hh) _ _ _ _ _ _ _ _].
  set (s1 := set_procs (table i w) (set_cpu_proc (current i) s)) in *.
  destruct (unlock_own Hn b Hh lk' s1) as (h' & E & H').
  { unfold own. rewrite decide_False, decide_True by (done || rewrite Ew; apply list_elem_of_here). done. }
  { rewrite cnt_b, Ew. cbn [length]. lia. }
  eexists. split; [eapply exec_ret; [exact Hc|exact Ek|exact E]|].
  assert (held (own i w') (cnt i w') (<[b := sstatus h']> (m_sst x)) h') as Hh'.
  { eapply held_ext; [exact H'|..]; intros y; rewrite fn_insert_spec.
    - unfold own. rewrite Ew. destruct (decide (lk' = y)) as [<-|Hne]; [by rewrite !decide_False|].
      destruct (decide (y ∈ aown i)); [done|]. apply decide_ext. rewrite elem_of_cons. intuition congruence.
    - rewrite cnt_b. unfold cnt. rewrite Ew. cbn [length]. repeat case_decide; simplify_eq; lia. }
  pose proof (inv_b i w w' x h' Hi Hh' Hw' H2 H7) as G. rewrite Et in G. exact G.
Qed.

(** It looks at a process. *)
Lemma b_wakes i j x : inv i (Wwake j) x -> exists y, advance n b x = Some y /\ inv i (Wfree j) y.
Proof.
  intros Hi. pose proof Hi as [(h & Ek & Hh) _ Hb' _ _ _ [Hj Hq] Hl Hm]. cbn [wcode wdone] in *.
  set (s1 := set_procs (table i (Wwake j)) (set_cpu_proc (current i) s)) in *.
  assert (held (own i (Wfree j)) (cnt i (Wfree j)) (<[b := m_sst x b]> (m_sst x)) (seen h (m_sst x) b)) as Hh' by by apply held_seen.
  assert (inv i (Wfree j) (mkSmp (hk (seen h (m_sst x) b) (set_procs (table i (Wfree j)) (set_cpu_proc (current i) s)))
    (<[b := m_sst x b]> (m_sst x)) (<[b := wcode (Wfree j)]> (m_code x)) (m_away x))) as G.
  { apply (inv_b i (Wwake j) (Wfree j) x (seen h (m_sst x) b)); [done|done|done|by apply Hl|].
    intros [H|H]; [cbn in H|done]. destruct (decide (me = j)) as [<-|]; apply Hm; [by right|left; lia]. }
  eexists. split; [|exact G]. eapply exec_ret; [exact Hb'|exact Ek|].
  unfold wake, pget, pset. munfold. cbn [obind procs hk set_ms]. subst s1. cbn [procs set_procs].
  unfold table. cbn [wdone]. rewrite woken_at. set (P := <[me := aproc i (procs s me)]> (procs s)).
  destruct (_ && _) eqn:Hbd; cbn [when].
  - apply andb_true_iff in Hbd as [Hs Hc]. apply bool_decide_eq_true in Hs, Hc. rewrite (woken_wake ch q j P) by (done || lia). done.
  - rewrite woken_skip; [done|]. by rewrite Hbd, andb_false_r.
Qed.


(** The waker goes on, or spins while the sleeper is not off its hart. *)
Lemma b_step i w x :
  inv i w x -> w <> Wend ->
  (advance n b x = None /\ (i < 7)%nat) \/
  exists y w', advance n b x = Some y /\ inv i w' y /\ length (wcode w) = S (length (wcode w')).
Proof.
  intros Hi Hend. pose proof Hi as [_ _ Hb' _ _ Hi7 Hw Hl Hm].
  assert (forall j, Lproc j ∈ aown i -> j = me) as Hme'.
  { intros j Hj. pose proof (Hlk j). destruct i as [|[|[|[|[|[|[|]]]]]]]; cbn [aown] in Hj;
      rewrite ?elem_of_cons, ?elem_of_nil in Hj; intuition congruence. }
  assert (forall j, j = me -> (2 <= i < 7)%nat -> Lproc j ∈ aown i) as Hme''.
  { intros j -> H2. destruct i as [|[|[|[|[|[|[|]]]]]]]; try lia; apply list_elem_of_here. }
  destruct w as [|j|j|j|]; [| | | |done]; cbn [wcode wdone] in *.
  - pose proof (b_locks i W0 (Wscan 0) x lk Hi Hb' eq_refl eq_refl (not_elem_of_nil _) ltac:(unfold NPROC; lia)) as G.
    assert ((2 <= i)%nat -> lk ∉ aown i) as Hin.
    { intros H2. destruct i as [|[|[|[|[|[|[|]]]]]]]; try lia; cbn [aown]; pose proof (Hlk me); notin. }
    destruct (decide (lk ∈ aown i)) as [H|H].
    + left. split; [apply G; done|]. destruct (decide (i < 7)%nat); [done|]. exfalso. apply Hin; [lia|done].
    + right. destruct G as (y & E & Hy); [|by exists y, (Wscan 0)]. intros _. cbn.
      destruct i as [|[|i]]; cbn [aown] in H; [exfalso; apply H; apply list_elem_of_here|exfalso; apply H; right; apply list_elem_of_here|].
      split; [lia|]. intros [?|?]; [lia|done].
  - destruct (decide (j = NPROC)) as [->|Hj].
    { right. destruct (b_unlocks i (Wscan NPROC) Wend x lk Hi) as (y & E & Hy); [exact Hb'|done|done|apply not_elem_of_nil| |done|by apply Hl| |by exists y, Wend].
      - specialize (Hl ltac:(done)). pose proof (Hlk me). destruct i as [|[|[|[|[|[|[|]]]]]]]; try lia; cbn [aown]; notin.
      - intros [H|H]; [|done]. by apply Hm; left. }
    rewrite scan_cons in * by lia. unfold wake_steps in *. destruct (decide (q = Some j)) as [Hq|Hq]; cbn [app] in *.
    + right. pose proof Hi as [(h & Ek & Hh) _ _ _ _ _ _ _ _].
      assert (table i (Wscan (j + 1)) = table i (Wscan j)) as Et.
      { unfold table. cbn [wdone]. rewrite woken_skip; [done|]. rewrite bool_decide_false; [done|]. intros Hne. by apply Hne. }
      eexists _, (Wscan (j + 1)). split; [eapply exec_ret; [exact Hb'|exact Ek|reflexivity]|]. split; [|done].
      pose proof (inv_b i (Wscan j) (Wscan (j + 1)) x (seen h (m_sst x) b) Hi) as G. rewrite Et in G. apply G.
      * by apply held_seen.
      * lia.
      * by apply Hl.
      * cbn. intros [H|H]; [|done]. apply Hm. left. destruct (decide (me = j)) as [<-|]; [done|lia].
    + pose proof (b_locks i (Wscan j) (Wwake j) x (Lproc j) Hi Hb' eq_refl eq_refl) as G.
      specialize (G ltac:(pose proof (Hlk j); cbn [wown]; notin) ltac:(split; [lia|done])).
      destruct (decide (Lproc j ∈ aown i)) as [H|H].
      * left. split; [apply G; done|]. destruct i as [|[|[|[|[|[|[|i]]]]]]]; try lia. cbn [aown] in H. by apply elem_of_nil in H.
      * right. destruct G as (y & E & Hy); [|by exists y, (Wwake j)]. intros _. split; [by apply Hl|]. cbn.
        intros [Hlt|[= <-]]; [by apply Hm; left|]. specialize (Hl ltac:(done)).
        destruct (decide (i = 7%nat)); [done|]. exfalso. apply H, Hme''; [done|lia].
  - right. destruct (b_wakes i j x Hi) as (y & E & Hy). by exists y, (Wfree j).
  - right. destruct Hw as [Hj Hq].
    destruct (b_unlocks i (Wfree j) (Wscan (j + 1)) x (Lproc j) Hi) as (y & E & Hy); [exact Hb'|done|done|pose proof (Hlk j); cbn [wown]; notin| |lia|by apply Hl| |by exists y, (Wscan (j + 1))].
    + intros H. pose proof (Hme' _ H) as ->. assert (i = 7%nat) as -> by (apply Hm; left; lia). by apply elem_of_nil in H.
    + cbn. intros [H|H]; [|done]. apply Hm. left. lia.
Qed.

Lemma meet_step i w x y :
  inv i w x -> step n x y -> exists i' w', inv i' w' y /\ (7 - i + length (wcode w) = S (7 - i' + length (wcode w')))%nat.
Proof.
  intros Hi [c E]. destruct (decide (c = a)) as [->|Hca]; [|destruct (decide (c = b)) as [->|Hcb]].
  - destruct (decide (i < 7)%nat) as [Hlt|Hge].
    + destruct (a_step i w x Hi Hlt) as (z & Ez & Hz). rewrite E in Ez. injection Ez as <-. exists (S i), w. split; [done|lia].
    + exfalso. assert (i = 7%nat) as -> by (pose proof (in_i _ _ _ Hi); lia).
      unfold advance in E. by rewrite (in_a _ _ _ Hi) in E.
  - destruct w as [| | | |] eqn:Ew; try (destruct (b_step i w x) as [[E' _]|(z & w' & Ez & Hz & Hlen)]; [by subst|by subst|congruence|];
      rewrite E in Ez; injection Ez as <-; exists i, w'; split; [done|subst w; lia]).
    unfold advance in E. by rewrite (in_b _ _ _ Hi) in E.
  - unfold advance in E. by rewrite (in_rest _ _ _ Hi) in E.
Qed.


(** Both are done. *)
Lemma table_end : table 7 Wend me = set_p_state RUNNABLE (set_p_chan ch (procs s me)).
Proof. unfold table, woken. cbn [wdone]. rewrite fn_lookup_insert. cbn. rewrite !bool_decide_true by done. done. Qed.

Lemma table_back :
  <[me := set_p_chan Cnone (set_p_state RUNNING (table 7 Wend me))]> (table 7 Wend) = woken ch q NPROC (procs s).
Proof.
  pose proof Hr as [_ _ Hrun Hch]. rewrite table_end. apply functional_extensionality. intros p. rewrite fn_insert_spec.
  destruct (decide (me = p)) as [<-|Hne].
  - unfold woken. rewrite Hrun. rewrite (bool_decide_false (RUNNING = SLEEPING)), andb_false_r by done.
    destruct (procs s me). cbn in *. by subst.
  - unfold table, woken. by rewrite fn_insert_ne.
Qed.

Lemma inv_end x :
  inv 7 Wend x ->
  p_state (procs (m_ker x) me) = RUNNABLE /\
  exists k l s1 h, m_away x = Some (k, l) /\
    dispatch a me n (hk (seen (khart (m_ker x)) (m_sst x) a) (m_ker x)) = Ret true s1 /\
    hon a [lk] h /\ obind (k s1) (fun _ => seqs l n) = Ret tt (set_procs (woken ch q NPROC (procs s)) (hk h s)).
Proof.
  intros [(h & -> & [Hlo Hcp Hno Hoff]) _ _ _ Haw _ _ _ _]. destruct Haw as [e Haw]; [lia|].
  set (s2 := set_procs (table 7 Wend) (set_cpu_proc (current 7) s)) in *.
  assert (forall y, own 7 Wend y = None) as Ho by (intros y; unfold own; cbn; by rewrite !decide_False by apply not_elem_of_nil).
  assert (hon a [] (seen h (m_sst x) a)) as Hh.
  { split; [|done]. split; cbn; [apply NoDup_nil_2|..|done].
    - intros y. by rewrite Hlo, Ho, decide_False by apply not_elem_of_nil.
    - intros y. by rewrite Hcp, Ho, decide_False by apply not_elem_of_nil.
    - rewrite Hno. by rewrite cnt_a. }
  change (hk (seen (khart (hk h s2)) (m_sst x) a) (hk h s2)) with (hk (seen h (m_sst x) a) s2).
  assert (p_state (procs s2 me) = RUNNABLE) as Hrun by (subst s2; cbn; by rewrite table_end).
  split; [exact Hrun|].
  assert (wp (dispatch a me) n (hk (seen h (m_sst x) a) s2) (fun r s1 => r = true /\ exists h1, hon a [Lproc me] h1 /\
    s1 = set_cpu_proc (<[a := Some me]> (cpu_proc s2)) (upd_proc me (set_p_state RUNNING) (hk h1 s2)))) as (r & s3 & E & -> & h1 & H1 & Es3)%wp_elim.
  { apply (wp_dispatch (c := a)); [done|exact Hh|exact Hrun|]. intros h1 H1. split; [done|]. by exists h1. }
  set (h2 := set_cpu (mkCpu (noff (cpus h1 (tp h1))) e) h1). assert (hon a [Lproc me] h2) as H2 by by apply hon_set_cpu.
  assert (wp (seqs (drop 5 (sleep_steps me ch lk))) n (hk h2 s3) (fun _ s' => exists h', hon a [lk] h' /\
    s' = set_procs (woken ch q NPROC (procs s)) (hk h' s))) as ([] & s4 & E4 & h4 & H4 & ->)%wp_elim.
  { cbn [drop sleep_steps seqs]. unfold pset. apply wp_bind, wp_modify, wp_bind. eapply wp_unlock; [exact H2|]. intros h5 H5.
    apply wp_bind. eapply wp_lock; [done|exact H5|apply not_elem_of_nil|]. intros h6 H6. apply wp_ret. exists h6. split; [done|].
    rewrite <-table_back. subst s3 s2. unfold upd_proc. cbn [procs set_procs hk set_ms set_cpu_proc cpu_proc].
    rewrite !fn_lookup_insert, !fn_insert_insert. unfold current. rewrite decide_True by lia.
    assert (<[a := Some me]> (<[a := None]> (cpu_proc s)) = cpu_proc s) as ->
      by (rewrite fn_insert_insert, <-(r_me _ _ _ _ Hr); apply fn_insert_id). by destruct s. }
  exists (back e), (drop 5 (sleep_steps me ch lk)), s3, h4. split; [done|]. split; [done|]. split; [done|].
  unfold back. replace (khart s3) with h1 by by rewrite Es3. exact E4.
Qed.

Lemma runs_inv x : rtc (step n) (meet a b me ch lk s sst) x -> exists i w, inv i w x.
Proof.
  intros Hrt. cut (forall y, rtc (step n) y x -> (exists i w, inv i w y) -> exists i w, inv i w x).
  { intros H. apply (H _ Hrt). exists 0%nat, W0. apply inv_start. }
  clear Hrt. induction 1 as [|y z t Hs _ IH]; [done|]. intros (i & w & Hi). apply IH.
  destruct (meet_step i w y z Hi Hs) as (i' & w' & Hz & _). eauto.
Qed.

Lemma runs_short k i w x y : inv i w x -> nsteps (step n) k x y -> (k <= 7 - i + length (wcode w))%nat.
Proof.
  intros Hi Hk. revert i w Hi. induction Hk as [|k x y z Hs _ IH]; intros i w Hi; [lia|].
  destruct (meet_step i w x y Hi Hs) as (i' & w' & Hy & Hlen). specialize (IH i' w' Hy). lia.
Qed.

Lemma runs_bounded k y :
  nsteps (step n) k (meet a b me ch lk s sst) y -> (k <= 7 + length (waker ch lk q))%nat.
Proof. intros Hk. exact (runs_short k 0 W0 _ y inv_start Hk). Qed.

Lemma runs_end x :
  rtc (step n) (meet a b me ch lk s sst) x ->
  (exists y, step n x y) \/
  (m_code x a = [] /\ m_code x b = [] /\ p_state (procs (m_ker x) me) = RUNNABLE /\
   exists k l s1 h, m_away x = Some (k, l) /\
    dispatch a me n (hk (seen (khart (m_ker x)) (m_sst x) a) (m_ker x)) = Ret true s1 /\
    hon a [lk] h /\ obind (k s1) (fun _ => seqs l n) = Ret tt (set_procs (woken ch q NPROC (procs s)) (hk h s))).
Proof.
  intros (i & w & Hi)%runs_inv. pose proof (in_i _ _ _ Hi) as H7. destruct (decide (i < 7)%nat) as [Hlt|].
  { left. destruct (a_step i w x Hi Hlt) as (y & E & _). exists y. by exists a. }
  assert (i = 7%nat) as -> by lia. destruct (decide (w = Wend)) as [->|Hw].
  - right. split; [apply (in_a _ _ _ Hi)|]. split; [apply (in_b _ _ _ Hi)|]. by apply inv_end.
  - left. destruct (b_step 7 w x Hi Hw) as [[_ ?]|(y & w' & E & _)]; [lia|]. exists y. by exists b.
Qed.

End meeting.
End Smp.

(** C31: a wakeup is not lost. Process [me] holds [lk] on hart [a] and calls
    [sleep(ch, lk)] while another hart [b] calls [acquire(lk)], [wakeup(ch)] and
    [release(lk)]. However the statements of the two harts interleave, they come
    to their ends after a bounded number of steps, with no deadlock and no panic,
    and the process is then runnable; once the scheduler runs it again, [sleep]
    returns with [lk] held and the channel cleared, and nothing has changed but
    that other sleepers on [ch] are runnable as well. *)
Theorem sleep_wakeup a b me ch lk n s sst :
  (0 < n)%nat -> a <> b -> 0 <= me < NPROC -> (forall p, lk <> Lproc p) ->
  runs a me [lk] s -> sst a = sstatus (khart s) -> (forall i, i <> a -> noff (cpus (khart s) i) = 0) -> cpu_proc s b <> Some me ->
  let x := Smp.meet a b me ch lk s sst in
  (forall k y, nsteps (Smp.step n) k x y -> (k <= 7 + length (Smp.waker ch lk (cpu_proc s b)))%nat) /\
  forall y, rtc (Smp.step n) x y ->
    (exists z, Smp.step n y z) \/
    (Smp.m_code y a = [] /\ Smp.m_code y b = [] /\ p_state (procs (Smp.m_ker y) me) = RUNNABLE /\
     exists k l s1 h, Smp.m_away y = Some (k, l) /\
       dispatch a me n (hk (Smp.seen (khart (Smp.m_ker y)) (Smp.m_sst y) a) (Smp.m_ker y)) = Ret true s1 /\
       hon a [lk] h /\
       obind (k s1) (fun _ => seqs l n) = Ret tt (set_procs (woken ch (cpu_proc s b) NPROC (procs s)) (hk h s))).
Proof.
  intros Hn Hab Hme Hlk Hr Hst Hidle Hb x. split.
  - intros k y. by apply (Smp.runs_bounded n a b me ch lk s sst).
  - intros y. by apply (Smp.runs_end n a b me ch lk s sst).
Qed.
