(* ===== verification/Sched.v ===== *)
(** * The scheduler

    [scheduler] of [src/kernel/proc.c] gives every runnable process a turn in
    each round of its loop. *)

From S2P Require Import Prelude Riscv Spinlock Str Kalloc Vm ProcVm Kernel Proc KernelWp.

Section sched.
Context {LY : Layout} {c : Z} (n : nat) (Hn : (0 < n)%nat).

Lemma hon_intr_on h : hon c [] h -> exists h', intr_on n h = Ret tt h' /\ hon c [] h'.
Proof. intros [[] Ht]. eexists. split; [reflexivity|]. split; [|done]. split; try done. Qed.

(** What the scheduler may rely on when a process has been running and
    switches back: it still holds exactly its own lock on this hart, and other
    processes that were runnable still are. *)
Definition turn_ok (run : Z -> K unit) (P : Z -> kernel -> Prop) : Prop :=
  forall q s, 0 <= q < NPROC -> hon c [Lproc q] (khart s) -> cpu_proc s c = Some q -> p_state (procs s q) = RUNNING ->
    wp (run q) n s (fun _ s' => hon c [Lproc q] (khart s') /\
      (forall p, p <> q -> p_state (procs s p) = RUNNABLE -> p_state (procs s' p) = RUNNABLE) /\
      P q s' /\ forall p, P p s -> P p s').

(** [P p] holds for each process below [j] that was runnable at the start, the
    others are still runnable. *)
Record round (P : Z -> kernel -> Prop) (s0 : kernel) (j : Z) (s : kernel) : Prop := {
  ro_hart : hon c [] (khart s);
  ro_done : forall p, 0 <= p < j -> p_state (procs s0 p) = RUNNABLE -> P p s;
  ro_todo : forall p, j <= p < NPROC -> p_state (procs s0 p) = RUNNABLE -> p_state (procs s p) = RUNNABLE
}.

(** [P] does not depend on the states of processes, on the hart's spin locks or
    on [cpus[c].proc]. *)
Definition stable (P : Z -> kernel -> Prop) : Prop :=
  forall p s h v q st, P p s -> P p (hk h s) /\ P p (set_cpu_proc v s) /\ P p (upd_proc q (set_p_state st) s).

Lemma wp_scheduler_round run P s0 (Q : unit -> kernel -> Prop) :
  hon c [] (khart s0) -> turn_ok run P -> stable P -> (forall s', round P s0 NPROC s' -> Q tt s') ->
  wp (scheduler_round run) n s0 Q.
Proof.
  intros Hh Hrun HP HQ. unfold scheduler_round. apply wp_bind. eapply wp_cpuid; [exact Hh|].
  destruct (hon_intr_on _ Hh) as (h1 & E1 & H1). apply wp_bind, wp_lift. unfold wp. cbn [lget kernel_hart]. rewrite E1.
  apply wp_bind. apply (wp_for (round P s0)).
  - split; [done|intros p Hp; lia|done].
  - intros j s Hj [Hh' Hd Ht]. apply wp_bind. eapply wp_lock; [done|exact Hh'|apply not_elem_of_nil|]. intros h2 H2.
    unfold pget, pset. apply wp_bind, wp_gets. cbn [procs hk set_ms].
    assert (forall h, hon c [] h -> p_state (procs s j) <> RUNNABLE -> round P s0 (j + 1) (hk h s)) as Hskip.
    { intros h H Hst. split; [done| |].
      - intros p Hp Hs0. destruct (decide (p = j)) as [->|]; [by rewrite Ht in Hst by (done || lia)|].
        apply (HP p s h (cpu_proc s) 0 UNUSED), Hd; [lia|done].
      - intros p Hp. apply Ht. lia. }
    apply wp_bind. apply wp_when; intros Hb.
    2:{ apply wp_bind. eapply wp_unlock; [exact H2|]. intros h3 H3. apply wp_ret. apply Hskip; [done|]. by apply bool_decide_eq_false in Hb. }
    apply bool_decide_eq_true in Hb. apply wp_bind, wp_modify, wp_bind, wp_modify, wp_bind.
    set (s1 := set_cpu_proc _ _).
    eapply wp_mono; [apply Hrun; [unfold NPROC in *; lia|exact H2|subst s1; cbn; by rewrite fn_lookup_insert|subst s1; cbn; by rewrite fn_lookup_insert]|].
    intros [] s2 (Hh2 & Hoth & Hj2 & Hpres). apply wp_modify, wp_bind. eapply wp_unlock; [exact Hh2|]. intros h3 H3. apply wp_ret.
    assert (forall p, P p s2 -> P p (hk h3 (set_cpu_proc (<[c := None]> (cpu_proc s2)) s2))) as Hfin.
    { intros p Hp. apply (HP p _ h3 (cpu_proc s) 0 UNUSED). by apply (HP p s2 h3 (<[c := None]> (cpu_proc s2)) 0 UNUSED). }
    split; [done| |].
    + intros p Hp Hs0. apply Hfin. destruct (decide (p = j)) as [->|]; [done|]. apply Hpres. subst s1.
      assert (P p s) as Hps by (apply Hd; [lia|done]).
      apply (HP p _ h2 _ 0 UNUSED), (HP p (hk h2 s) h2 (cpu_proc s) j RUNNING), (HP p s h2 (cpu_proc s) 0 UNUSED), Hps.
    + intros p Hp Hs0. cbn. apply Hoth; [lia|]. subst s1. cbn. rewrite fn_insert_ne by lia. apply Ht; [lia|done].
  - intros s' Hr. apply wp_ret, HQ. exact Hr.
Qed.

(** C32: each round of the scheduler gives every runnable process a turn: one
    round returns, and afterwards every [P p] holds for which some turn of [p]
    suffices and that later turns keep, for every process [p] that was runnable
    when the round began. A process that got its turn ran with
    [cpu->proc] set to it, in state [RUNNING], and its lock was the only one held; at the end no lock is
    held. *)
Theorem scheduler_fair run P s0 :
  hon c [] (khart s0) -> turn_ok run P -> stable P ->
  exists s', scheduler_round run n s0 = Ret tt s' /\ hon c [] (khart s') /\
    forall p, 0 <= p < NPROC -> p_state (procs s0 p) = RUNNABLE -> P p s'.
Proof.
  intros Hh Hrun HP. apply wp_elim_unit, (wp_scheduler_round run P); [done..|]. intros s' [H1 H2 _]. by split.
Qed.

End sched.
