(* ===== verification/VirtioProof.v ===== *)
(** * The virtio driver implements the disk

    [virtio_disk_rw] and [virtio_disk_intr] of [src/kernel/virtio_disk.c], run
    against a device that follows the virtio protocol, implement the interface
    [BlockDevOk] the buffer cache is verified against. *)

From Stdlib Require Import FunctionalExtensionality.
From S2P Require Import Prelude Riscv Spinlock Str Kalloc Kernel Proc Sleeplock Virtio Bio KernelWp Ring BioProof BioBoot Await.

(** ** The device *)

(** One request is published and not yet answered, and the device was notified
    after it was put in the available ring: the chain of descriptors [i0], [i1],
    [i2] asks for a transfer between buffer [b] and the two sectors of block
    [blk]. *)
Record published (d : vdisk) (i0 i1 i2 b : Z) (write : bool) (blk : Z) : Prop := {
  pb_one : vd_avail_idx d = u16 (vd_used_idx d + 1);
  pb_notified : vd_notified d = vd_avail_idx d;
  pb_ring : vd_avail_ring d (vd_used_idx d mod NUM) = i0;
  pb_head : vd_desc d i0 = mkDesc (DmaOps i0) 16 VRING_DESC_F_NEXT i1;
  pb_data : vd_desc d i1 =
    mkDesc (DmaData b) BSIZE (Z.lor (if write then 0 else VRING_DESC_F_WRITE) VRING_DESC_F_NEXT) i2;
  pb_stat : vd_desc d i2 = mkDesc (DmaStatus i0) 1 VRING_DESC_F_WRITE 0;
  pb_ops : vd_ops d i0 = mkReq (if write then VIRTIO_BLK_T_OUT else VIRTIO_BLK_T_IN) 0 (blk * (BSIZE / 512))
}.

(** The answer: the chain is in the used ring, with status 0. *)
Definition completed (i0 : Z) (d : vdisk) : vdisk :=
  set_vd_info_status (<[i0 := 0]> (vd_info_status d))
    (set_vd_used_ring (<[vd_used_idx d mod NUM := i0]> (vd_used_ring d))
      (set_vd_used_idx (u16 (vd_used_idx d + 1)) d)).

Definition transfer (b : Z) (write : bool) (blk : Z) (s : kernel) : kernel :=
  if write then set_medium ((blk, b_data (bufs s b)) :: medium s) s
  else upd_buf b (set_b_data (image s blk)) s.

Class VirtioDevice := service : kernel -> kernel.

(** What the virtio specification says of a block device: it answers the
    requests it has been notified of. *)
Class VirtioDeviceOk {VD : VirtioDevice} : Prop :=
  service_ok s i0 i1 i2 b write blk :
    published (vd s) i0 i1 i2 b write blk ->
    service s = set_vd (completed i0 (vd s)) (transfer b write blk s).

(** What happens while process [me] sleeps for its transfer: the device answers
    and interrupts. *)
Definition irq {VD : VirtioDevice} (isr : Z) : K unit :=
  modify service;;
  virtio_disk_intr isr.

Definition world {VD : VirtioDevice} (me isr : Z) : nat -> chan -> kernel -> option kernel :=
  turns me (fun _ => irq isr).

(** The driver with the device. *)
Definition virtio_dev {VD : VirtioDevice} (me isr : Z) : BlockDev :=
  fun b write n s => await (world me isr n) (virtio_disk_rw b write n s).

(** ** Descriptors *)

Lemma vd_set_vd v s : vd (set_vd v s) = v.
Proof. done. Qed.
Lemma set_vd_vd v v' s : set_vd v (set_vd v' s) = set_vd v s.
Proof. done. Qed.

(** Compute the fields of a driver state that is given by its fields. *)
Ltac vfields :=
  cbn [vd_desc vd_avail_idx vd_avail_ring vd_used_idx vd_used_ring vd_free vd_seen vd_info_b vd_info_status
    vd_ops vd_notified vd_regs set_vd_desc set_vd_avail_idx set_vd_avail_ring set_vd_used_idx set_vd_used_ring
    set_vd_free set_vd_seen set_vd_info_b set_vd_info_status set_vd_ops set_vd_notified set_vd_regs].

Section rules.
Context {n : nat} {c : Z}.

Lemma wp_vset f v s (Q : unit -> kernel -> Prop) : Q tt (set_vd (f v) s) -> wp (vset f) n (set_vd v s) Q.
Proof. done. Qed.
Lemma wp_bset_vd b f v s (Q : unit -> kernel -> Prop) :
  Q tt (set_vd v (upd_buf b f s)) -> wp (bset b f) n (set_vd v s) Q.
Proof. done. Qed.

Lemma wp_alloc_desc s i (Q : Z -> kernel -> Prop) :
  0 <= i < NUM -> (forall j, 0 <= j < i -> vd_free (vd s) j = 0) -> vd_free (vd s) i <> 0 ->
  Q i (set_vd (set_vd_free (<[i := 0]> (vd_free (vd s))) (vd s)) s) -> wp alloc_desc n s Q.
Proof.
  intros Hi Hlow Hfree HQ. unfold alloc_desc. apply wp_bind.
  apply (wp_for (fun j s' => s' = s /\ 0 <= j <= i)).
  - split; [done|lia].
  - intros j s' Hj [-> Hji]. unfold vget, vset. apply wp_bind, wp_gets.
    destruct (decide (j = i)) as [->|].
    + rewrite (proj2 (Z.eqb_neq _ _) Hfree). by wp_steps.
    + rewrite Hlow by lia. cbn [Z.eqb]. apply wp_ret. split; [done|lia].
  - intros s' [_ ?]. unfold NUM in *. lia.
Qed.

Definition freed (i : Z) (d : vdisk) : vdisk :=
  set_vd_free (<[i := 1]> (vd_free d)) (set_vd_desc (<[i := mkDesc DmaNull 0 0 0]> (vd_desc d)) d).

Lemma wp_free_desc s hl i (Q : unit -> kernel -> Prop) :
  (0 < n)%nat -> hon c hl (khart s) -> (forall p, Lproc p ∉ hl) -> i < NUM -> vd_free (vd s) i = 0 ->
  (forall h ps, hon c hl h -> woke (procs s) ps -> Q tt (set_procs ps (hk h (set_vd (freed i (vd s)) s)))) ->
  wp (free_desc i) n s Q.
Proof.
  intros Hn Hh Hp Hi Hf HQ. unfold free_desc. rewrite (proj2 (Z.leb_gt _ _)) by lia.
  unfold vget, set_desc, vset. apply wp_bind, wp_gets. rewrite Hf. cbn [Z.eqb negb].
  apply wp_bind, wp_modify, wp_bind, wp_modify.
  eapply wp_wakeup; [done|exact Hh|intros; apply Hp|]. intros h Hh'.
  apply (HQ h (woken Cdiskfree (cpu_proc s c) NPROC (procs s))); [done|apply woken_woke].
Qed.

Lemma u16_succ x : 0 <= x < 2 ^ 16 -> u16 (x + 1) <> x.
Proof. unfold u16. intros. Z.div_mod_to_equations. lia. Qed.

(** The interrupt handler, with the answer for buffer [b] in the used ring. *)
Lemma wp_virtio_disk_intr isr s id b (Q : unit -> kernel -> Prop) :
  (1 < n)%nat -> hon c [] (khart s) -> 0 <= vd_seen (vd s) < 2 ^ 16 ->
  vd_used_idx (vd s) = u16 (vd_seen (vd s) + 1) -> vd_used_ring (vd s) (vd_seen (vd s) mod NUM) = id ->
  vd_info_status (vd s) id = 0 -> vd_info_b (vd s) id = Some b ->
  (forall h R, hon c [] h -> Q tt (set_vd (set_vd_seen (vd_used_idx (vd s)) (set_vd_regs R (vd s)))
    (set_procs (woken (Cbuf b) (cpu_proc s c) NPROC (procs s)) (hk h (upd_buf b (set_b_disk 0) s))))) ->
  wp (virtio_disk_intr isr) n s Q.
Proof.
  intros Hn Hh Hs Hu Hr Hst Hb HQ. unfold virtio_disk_intr.
  apply wp_bind. eapply wp_lock; [lia|done|apply not_elem_of_nil|]. intros h1 H1.
  unfold mmio_write, vset, vget, bset. apply wp_bind, wp_modify. apply wp_bind.
  assert (exists k, n = S (S k)) as [k Ek] by (exists (n - 2)%nat; lia).
  eapply wp_loop_rounds; [exact Ek|]. apply wp_loop_n. apply wp_bind, wp_gets, wp_bind, wp_gets. cbn [vd hk set_ms set_vd vd_seen vd_used_idx set_vd_regs].
  rewrite (proj2 (Z.eqb_neq _ _)) by (rewrite Hu; intros E; by apply (u16_succ (vd_seen (vd s)))).
  apply wp_bind, wp_gets. cbn [vd hk set_ms set_vd vd_used_ring set_vd_regs]. rewrite Hr.
  apply wp_bind, wp_gets. cbn [vd hk set_ms set_vd vd_info_status set_vd_regs]. rewrite Hst. cbn [Z.eqb negb].
  apply wp_bind, wp_gets. cbn [vd hk set_ms set_vd vd_info_b set_vd_regs]. rewrite Hb.
  apply wp_bind, wp_ret, wp_bind, wp_modify, wp_bind.
  eapply wp_wakeup; [lia|exact H1|intros; notin|]. intros h2 H2. apply wp_bind, wp_modify, wp_ret.
  apply wp_loop_n. apply wp_bind, wp_gets, wp_bind, wp_gets.
  cbn [vd hk set_ms set_vd vd_seen vd_used_idx set_vd_regs set_vd_seen set_procs upd_buf set_bufs].
  rewrite Hu, Z.eqb_refl. apply wp_ret. eapply wp_unlock; [exact H2|]. intros h3 H3.
  rewrite Hu in HQ. apply (HQ h3 _ H3).
Qed.

End rules.

(** ** A request *)

Section request.
Context {c me : Z} {VD : VirtioDevice} {VOK : VirtioDeviceOk}.
Context (Hme : 0 <= me < NPROC) (isr : Z) (n : nat) (Hn : (2 < n)%nat).

(** The state in which the process runs again. *)
Definition resumed (i0 b : Z) (write : bool) (blk : Z) (h : machine) (R : list (Z * Z)) (s : kernel) : kernel :=
  let W := woken (Cbuf b) None NPROC (procs s) in
  set_vd (set_vd_seen (u16 (vd_used_idx (vd s) + 1)) (set_vd_regs R (completed i0 (vd s))))
    (set_cpu_proc (<[c := Some me]> (cpu_proc s))
      (set_procs (<[me := set_p_state RUNNING (W me)]> W)
        (hk h (upd_buf b (set_b_disk 0) (transfer b write blk s))))).

Lemma wp_irq s i0 i1 i2 b write blk (Q : bool -> kernel -> Prop) :
  hon c [Lproc me] (khart s) -> published (vd s) i0 i1 i2 b write blk ->
  0 <= vd_seen (vd s) < 2 ^ 16 -> vd_used_idx (vd s) = vd_seen (vd s) -> vd_info_b (vd s) i0 = Some b ->
  p_state (procs s me) = SLEEPING -> p_chan (procs s me) = Cbuf b ->
  (forall h R, hon c [Lproc me] h -> Q true (resumed i0 b write blk h R s)) ->
  wp (turn me (irq isr)) n s Q.
Proof.
  intros Hh Hp Hs Hu Hb Hst Hch HQ. apply (wp_turn (c := c)); [lia|exact Hh|]. intros h1 H1.
  set (s1 := hk h1 (set_cpu_proc (<[c := None]> (cpu_proc s)) s)).
  unfold irq. apply wp_bind, wp_modify. rewrite (service_ok s1 i0 i1 i2 b write blk) by done.
  assert (W : woken (Cbuf b) None NPROC (procs s) me = set_p_state RUNNABLE (procs s me)).
  { unfold woken. rewrite Hst, Hch. rewrite !bool_decide_true by done. done. }
  eapply (wp_virtio_disk_intr isr _ i0 b).
  - lia.
  - by destruct write.
  - by destruct write.
  - destruct write; cbn; by rewrite Hu.
  - destruct write; cbn; rewrite Hu; by rewrite fn_lookup_insert.
  - destruct write; cbn; by rewrite fn_lookup_insert.
  - by destruct write.
  - intros h2 R H2. set (s2 := set_vd _ _).
    assert (procs s2 = woken (Cbuf b) None NPROC (procs s)) as Ep.
    { subst s2. destruct write; cbn; by rewrite fn_lookup_insert. }
    split; [by destruct write|]. split; [by rewrite Ep, W|]. intros h3 H3.
    pose proof (HQ h3 R H3) as HQ'. unfold resumed in HQ'. unfold upd_proc. change (procs (hk h3 s2)) with (procs s2). rewrite Ep.
    subst s2. destruct write; cbn in HQ' |- *; by rewrite fn_insert_insert.
Qed.

(** No request is under way. *)
Record idle_disk (v : vdisk) : Prop := {
  id_free : forall i, 0 <= i < NUM -> vd_free v i = 1;
  id_seen : 0 <= vd_seen v < 2 ^ 16;
  id_used : vd_used_idx v = vd_seen v;
  id_avail : vd_avail_idx v = vd_seen v
}.

(** The request of buffer [b] is in descriptors 0 to 2. *)
Record requested (b : Z) (write : bool) (blk : Z) (v : vdisk) : Prop := {
  rq_pub : published v 0 1 2 b write blk;
  rq_free : forall i, 0 <= i < NUM -> vd_free v i = if decide (i < 3) then 0 else 1;
  rq_seen : 0 <= vd_seen v < 2 ^ 16;
  rq_used : vd_used_idx v = vd_seen v;
  rq_info : vd_info_b v 0 = Some b
}.

Lemma wps_request E s b write (Q : unit -> kernel -> Prop) :
  runs c me [] s -> idle_disk (vd s) -> 0 <= b_blockno (bufs s b) < 2 ^ 31 ->
  (forall h v, hon c [Lvdisk] h -> requested b write (b_blockno (bufs s b)) v ->
    wps E (loop (fun _ : unit =>
        dk ← bget_ b b_disk;
        if negb (dk =? 1) then mret (Done tt) else
        sleep (Cbuf b) Lvdisk;;
        mret (Next tt)) tt;;
      vset (fun d => set_vd_info_b (<[0 := None]> (vd_info_b d)) d);;
      free_chain 0;;
      unlock Lvdisk) n (set_vd v (upd_buf b (set_b_disk 1) (hk h s))) Q) ->
  wps E (virtio_disk_rw b write) n s Q.
Proof.
  intros Hr [Hf Hs Hu Ha] Hblk HQ. unfold virtio_disk_rw. apply wps_bind, wp_wps. unfold bget_ at 1. apply wp_gets.
  apply wps_bind, wp_wps. eapply wp_lock; [lia|apply Hr|apply not_elem_of_nil|]. intros h1 H1.
  specialize (fun v => HQ h1 v H1).
  replace (hk h1 s) with (set_vd (vd s) (hk h1 s)) by by destruct s.
  set (blk := b_blockno (bufs s b)) in *. destruct (vd s) as [de ai ar ui ur fr se ib stt op no re]. cbn in Hf, Hs, Hu, Ha.
  apply wps_bind, wp_wps, wp_loop_once; [lia|]. apply wp_bind. unfold alloc3_desc.
  apply wp_bind, (wp_alloc_desc _ 0); [unfold NUM; lia|intros; lia|cbn; rewrite Hf; unfold NUM; lia|]. cbn [Z.ltb Z.compare].
  rewrite vd_set_vd, set_vd_vd. vfields.
  apply wp_bind, (wp_alloc_desc _ 1); [unfold NUM; lia|..].
  { intros j Hj. cbn. rewrite fn_insert_spec, decide_True by lia. done. }
  { cbn. rewrite fn_insert_spec, decide_False by lia. rewrite Hf; unfold NUM; lia. }
  cbn [Z.ltb Z.compare]. rewrite vd_set_vd, set_vd_vd. vfields. apply wp_bind, (wp_alloc_desc _ 2); [unfold NUM; lia|..].
  { intros j Hj. cbn. rewrite !fn_insert_spec. repeat case_decide; lia. }
  { cbn. rewrite !fn_insert_spec, !decide_False by lia. rewrite Hf; unfold NUM; lia. }
  cbn [Z.ltb Z.compare]. rewrite vd_set_vd, set_vd_vd. vfields. do 2 apply wp_ret. unfold set_desc, queue_notify.
  repeat (first [apply wps_bind, wp_wps, wp_vset; vfields|apply wps_bind, wp_wps, wp_bset_vd]).
  apply HQ. change (BSIZE / 512) with 2. rewrite u32_small by lia.
  subst ai ui. split; [split|..]; cbn; rewrite ?fn_lookup_insert; try done.
  intros i Hi. rewrite !fn_insert_spec. pose proof (Hf i Hi). repeat case_decide; lia.
Qed.

Lemma wp_free_chain s hl i0 i1 i2 (Q : unit -> kernel -> Prop) :
  hon c hl (khart s) -> (forall p, Lproc p ∉ hl) -> NoDup [i0; i1; i2] -> Forall (fun i => i < NUM /\ vd_free (vd s) i = 0) [i0; i1; i2] ->
  has (d_flags (vd_desc (vd s) i0)) VRING_DESC_F_NEXT = true -> d_next (vd_desc (vd s) i0) = i1 ->
  has (d_flags (vd_desc (vd s) i1)) VRING_DESC_F_NEXT = true -> d_next (vd_desc (vd s) i1) = i2 ->
  has (d_flags (vd_desc (vd s) i2)) VRING_DESC_F_NEXT = false ->
  (forall h ps, hon c hl h -> woke (procs s) ps ->
    Q tt (set_procs ps (hk h (set_vd (freed i2 (freed i1 (freed i0 (vd s)))) s)))) ->
  wp (free_chain i0) n s Q.
Proof.
  intros Hh Hp Hnd HF F0 N0 F1 N1 F2 HQ. unfold free_chain.
  apply Forall_cons in HF as [[L0 E0] HF]. apply Forall_cons in HF as [[L1 E1] HF]. apply Forall_cons in HF as [[L2 E2] _].
  rewrite !NoDup_cons, !elem_of_cons, elem_of_nil in Hnd.
  assert (i0 <> i1 /\ i0 <> i2 /\ i1 <> i2) as (D1 & D2 & D3) by tauto.
  assert (exists k, n = S (S (S k))) as [k Ek] by (exists (n - 3)%nat; lia).
  eapply wp_loop_rounds; [exact Ek|]. unfold vget.
  apply wp_loop_n, wp_bind, wp_gets, wp_bind, wp_gets, wp_bind. rewrite F0, N0.
  eapply wp_free_desc; [lia|exact Hh|done|done|done|]. intros h1 ps1 H1 W1. apply wp_ret.
  apply wp_loop_n, wp_bind, wp_gets, wp_bind, wp_gets, wp_bind. cbn [vd set_procs hk set_ms set_vd freed vd_desc set_vd_free set_vd_desc].
  rewrite (fn_insert_spec _ i0 i1), decide_False, F1, N1 by done.
  eapply wp_free_desc; [lia|exact H1|done|done|cbn; by rewrite fn_insert_spec, decide_False|]. intros h2 ps2 H2 W2. apply wp_ret.
  apply wp_loop_n, wp_bind, wp_gets, wp_bind, wp_gets, wp_bind. cbn [vd set_procs hk set_ms set_vd freed vd_desc set_vd_free set_vd_desc].
  rewrite (fn_insert_spec _ i1 i2), (decide_False (P := i1 = i2)), (fn_insert_spec _ i0 i2), (decide_False (P := i0 = i2)), F2 by done.
  eapply wp_free_desc; [lia|exact H2|done|done|cbn; by rewrite !fn_insert_spec, !decide_False|]. intros h3 ps3 H3 W3. apply wp_ret.
  apply (HQ h3 ps3 H3). etrans; [exact W1|]. etrans; [exact W2|exact W3].
Qed.

(** The processes when [me] is back. *)
Lemma resumed_woke ps ch P :
  p_state (ps me) = RUNNING -> p_chan (ps me) = Cnone ->
  P = <[me := set_p_state SLEEPING (set_p_chan ch (ps me))]> ps ->
  let W := woken ch None NPROC P in
  let P' := <[me := set_p_state RUNNING (W me)]> W in
  woke ps (<[me := set_p_chan Cnone (P' me)]> P').
Proof.
  intros Hst Hch -> W P' p. subst P'. rewrite fn_lookup_insert, fn_insert_insert, fn_insert_spec.
  destruct (decide (me = p)) as [<-|Hne].
  - left. subst W. unfold woken. rewrite fn_lookup_insert. destruct (ps me). cbn in *. subst. by destruct (_ && _).
  - assert (<[me := set_p_state SLEEPING (set_p_chan ch (ps me))]> ps p = ps p) as E by by apply fn_insert_ne.
    destruct (woken_woke ch None NPROC (<[me := set_p_state SLEEPING (set_p_chan ch (ps me))]> ps) p) as [Ew|[Es Ew]];
      fold W in Ew; rewrite E in *; [by left|by right].
Qed.

(** The whole effect of the request on the state, up to the descriptors. *)
Lemma resumed_state s b write v h h1 h2 R :
  runs c me [] s -> b_disk (bufs s b) = 0 ->
  let blk := b_blockno (bufs s b) in
  let s1 := set_vd v (upd_buf b (set_b_disk 1) (hk h s)) in
  let s2 := upd_proc me (fun x => set_p_state SLEEPING (set_p_chan (Cbuf b) x)) (hk h1 s1) in
  exists ps, woke (procs s) ps /\ forall h4,
    upd_proc me (set_p_chan Cnone) (hk h4 (resumed 0 b write blk h2 R s2)) =
    set_vd (set_vd_seen (u16 (vd_used_idx v + 1)) (set_vd_regs R (completed 0 v)))
      (set_procs ps (hk h4 (transfer b write blk s))).
Proof.
  intros [_ Hcp Hst Hch] Hbd blk s1 s2.
  assert (<[c := Some me]> (cpu_proc s) = cpu_proc s) as Ecp by (rewrite <-Hcp; apply fn_insert_id).
  eexists. split; [apply (resumed_woke _ (Cbuf b) _ Hst Hch eq_refl)|]. intros h4.
  unfold resumed. subst s2 s1.
  set (B := <[b := set_b_disk 1 (bufs s b)]> (bufs s)). cbn [procs upd_proc set_procs hk set_ms set_vd upd_buf set_bufs].
  set (W := woken _ _ _ _). set (P := <[me := set_p_state RUNNING (W me)]> W).
  set (V := set_vd_seen _ _). set (PS := <[me := set_p_chan Cnone (P me)]> P).
  set (s' := if write then set_medium ((blk, b_data (B b)) :: medium s) (set_bufs (<[b := set_b_disk 0 (B b)]> B) s)
    else let B' := <[b := set_b_data (image s blk) (B b)]> B in set_bufs (<[b := set_b_disk 0 (B' b)]> B') s).
  transitivity (set_vd V (set_procs PS (hk h4 (set_cpu_proc (<[c := Some me]> (cpu_proc s)) s')))).
  { subst s'. by destruct write. }
  rewrite Ecp. subst s' B. cbv zeta. rewrite !fn_lookup_insert, !fn_insert_insert. unfold transfer. destruct write.
  - replace (set_b_disk 0 (set_b_disk 1 (bufs s b))) with (bufs s b) by (destruct (bufs s b); cbn in *; by subst).
    rewrite fn_insert_id. reflexivity.
  - replace (set_b_disk 0 (set_b_data (image s blk) (set_b_disk 1 (bufs s b)))) with (set_b_data (image s blk) (bufs s b))
      by (destruct (bufs s b); cbn in *; by subst). reflexivity.
Qed.

Lemma wps_virtio_disk_rw s b write :
  runs c me [] s -> idle_disk (vd s) -> b_disk (bufs s b) = 0 -> 0 <= b_blockno (bufs s b) < 2 ^ 31 ->
  wps (world me isr n) (virtio_disk_rw b write) n s (fun _ s' => exists h ps v,
    hon c [] h /\ woke (procs s) ps /\ idle_disk v /\
    s' = set_vd v (set_procs ps (hk h (transfer b write (b_blockno (bufs s b)) s)))).
Proof.
  intros Hr Hid Hbd Hblk. apply wps_request; [done|done|done|].
  set (blk := b_blockno (bufs s b)). intros h v Hh [Hpub Hfree Hseen Hused Hinfo].
  set (s1 := set_vd v (upd_buf b (set_b_disk 1) (hk h s))).
  assert (exists k, n = S (S k)) as [k Ek] by (exists (n - 2)%nat; lia).
  apply wps_bind. eapply wps_loop_rounds; [exact Ek|]. apply wps_loop_n, wps_bind, wp_wps. unfold bget_ at 1. apply wp_gets.
  replace (b_disk (bufs s1 b)) with 1 by (subst s1; cbn; by rewrite fn_lookup_insert). cbn [Z.eqb Pos.eqb negb].
  apply wps_bind, (wps_sleep _ (c := c) (me := me)); [lia|exact Hh|apply Hr|done|]. intros h2 H2.
  set (s2 := upd_proc me _ (hk h2 s1)).
  assert (p_state (procs s2 me) = SLEEPING /\ p_chan (procs s2 me) = Cbuf b) as [P1 P2].
  { subst s2 s1. cbn. by rewrite fn_lookup_insert. }
  destruct (wp_elim _ _ _ _ (wp_irq s2 0 1 2 b write blk (fun r s' => r = true /\ exists h R, hon c [Lproc me] h /\
    s' = resumed 0 b write blk h R s2) H2 Hpub Hseen Hused Hinfo P1 P2
    (fun h R Hh => conj eq_refl (ex_intro _ h (ex_intro _ R (conj Hh eq_refl)))))) as (? & s3 & E3 & -> & h3 & R & H3 & ->).
  eexists. split; [unfold world, turns; by rewrite E3|]. split; [by destruct write|]. intros h4 H4.
  destruct (resumed_state s b write v h h2 h3 R Hr Hbd) as (ps & Hw & Es). specialize (Es h4).
  fold s1 in Es. fold s2 in Es. fold blk in Es. rewrite Es. clear Es E3 P1 P2 s2 s1.
  set (v4 := set_vd_seen _ _). set (s4 := transfer b write blk s).
  assert (b_disk (bufs s4 b) = 0) as Hb4.
  { subst s4. destruct write; cbn; [done|]. by rewrite fn_lookup_insert. }
  apply wp_wps, wp_ret. apply wps_loop_n, wp_wps. unfold bget_ at 1. apply wp_bind, wp_gets.
  cbn [bufs set_vd set_procs hk set_ms]. rewrite Hb4. cbn [Z.eqb negb]. apply wp_ret.
  apply wps_bind, wp_wps, wp_vset, wps_bind, wp_wps.
  destruct Hpub as [Pone Pnot Pring P0 P1 P2 Pops].
  eapply (wp_free_chain _ [Lvdisk] 0 1 2); cbn; rewrite ?P0, ?P1, ?P2.
  - exact H4.
  - intros p. notin.
  - repeat (apply NoDup_cons; split; [notin|]). apply NoDup_nil_2.
  - repeat (apply Forall_cons; split; [split; [unfold NUM; lia|rewrite Hfree; unfold NUM; [case_decide; lia|lia]]|]).
    apply Forall_nil_2.
  - done.
  - done.
  - by destruct write.
  - done.
  - done.
  - intros h5 ps5 H5 W5. apply wp_wps. eapply wp_unlock; [exact H5|]. intros h6 H6.
    eexists h6, ps5, _. split; [done|]. split; [by etrans|]. split; [|reflexivity].
    subst v4. split; cbn.
    + intros i Hi. rewrite !fn_insert_spec. pose proof (Hfree i Hi). repeat case_decide; lia.
    + rewrite Hused. unfold u16. split; [apply Z.mod_pos_bound|apply Z.mod_pos_bound]; lia.
    + done.
    + by rewrite Pone.
Qed.

(** C18: a request to the disk returns with the transfer done. With a device that
    follows the virtio protocol and answers only what it was notified of,
    [virtio_disk_rw] publishes its chain of three descriptors, notifies the
    device, sleeps, is woken up by [virtio_disk_intr], frees the chain and
    returns: a read has filled the buffer from its block, a write has written
    the block (nothing else on disk or in the cache has changed), all
    descriptors are free again, and no lock is held. *)
Theorem virtio_disk_rw_transfers s b write :
  runs c me [] s -> idle_disk (vd s) -> b_disk (bufs s b) = 0 -> 0 <= b_blockno (bufs s b) < 2 ^ 31 ->
  exists h ps v, hon c [] h /\ woke (procs s) ps /\ idle_disk v /\
    await (world me isr n) (virtio_disk_rw b write n s) =
      Ret tt (set_vd v (set_procs ps (hk h (transfer b write (b_blockno (bufs s b)) s)))).
Proof.
  intros Hr Hi Hb Hblk. pose proof (wps_virtio_disk_rw s b write Hr Hi Hb Hblk) as H. unfold wps in H.
  destruct (await _ _) as [[] s'| | |]; try done. destruct H as (h & ps & v & ? & ? & ? & ->). by exists h, ps, v.
Qed.

End request.

(** The interface of the buffer cache, from the driver. *)
#[refine] Definition virtio_dev_ok {VD : VirtioDevice} {VOK : VirtioDeviceOk} (c me isr : Z) (Hme : 0 <= me < NPROC) :
  @BlockDevOk c me (virtio_dev me isr) := {| dok := idle_disk; dfuel := 2 |}.
Proof.
  - intros n s b Hn Hr Hd _ Hb Hblk. apply (wps_virtio_disk_rw Hme isr n Hn s b false Hr Hd Hb Hblk).
  - intros n s b Hn Hr Hd _ Hb Hblk. apply (wps_virtio_disk_rw Hme isr n Hn s b true Hr Hd Hb Hblk).
Defined.

(** ** A device *)

(** It answers one request, and only when it was notified of it. *)
Definition simple_device : VirtioDevice := fun s =>
  let d := vd s in
  let i0 := vd_avail_ring d (vd_used_idx d mod NUM) in
  if negb (vd_notified d =? u16 (vd_used_idx d + 1)) then s else
  match d_addr (vd_desc d (d_next (vd_desc d i0))) with
  | DmaData b => set_vd (completed i0 d)
      (transfer b (vr_type (vd_ops d i0) =? VIRTIO_BLK_T_OUT) (vr_sector (vd_ops d i0) / (BSIZE / 512)) s)
  | _ => s
  end.

#[export] Instance simple_device_ok : @VirtioDeviceOk simple_device.
Proof.
  intros s i0 i1 i2 b write blk [H Hn Hr H0 H1 _ Ho]. unfold service, simple_device. rewrite Hn, H, Z.eqb_refl. cbn [negb].
  rewrite Hr, H0. cbn [d_next]. rewrite H1, Ho. cbn [d_addr vr_type vr_sector]. rewrite Z.div_mul by done. by destruct write.
Qed.
