(* ===== verification/SampleKernel.v ===== *)
(** * A small running kernel

    A concrete state of the whole kernel, with one process running on hart 0
    and a disk of zeros, used to instantiate the theorems about the kernel. *)

From S2P Require Import Prelude Riscv Spinlock Str Kalloc Kernel Proc Sleeplock Bio Log KernelWp Ring BioProof BioBoot LogProof LogOps LogCrash Await Virtio VirtioProof Sched.

Definition proc0 : proc :=
  mkProc RUNNING Cnone 0 0 1 None 0 0 0 0 (mkContext 0 0 (fun _ => 0)) (fun _ => None) None (fun _ => 0).
Definition buf0 : buf := mkBuf 0 0 0 0 (mkSleep 0 "" 0) 0 0 0 (fun _ => 0).
Definition log0 : log := mkLog 0 0 0 0 0 0 (fun _ => 0).
Definition vdisk0 : vdisk :=
  mkVdisk (fun _ => mkDesc DmaNull 0 0 0) 0 (fun _ => 0) 0 (fun _ => 0) (fun _ => 0) 0 (fun _ => None)
    (fun _ => 0) (fun _ => mkReq 0 0 0) 0 [].
Definition super0 : superblock := mkSuper FSMAGIC 2000 1954 200 LOGSIZE 2 32 45.
Definition inode0 : inode := mkInode 0 0 0 (mkSleep 0 "" 0) 0 0 0 0 0 0 (fun _ => 0).
Definition file0 : file := mkFile FD_NONE 0 0 0 0 None 0 0.
Definition pipe0 : pipe := mkPipe (fun _ => 0) 0 0 1 1.

Definition kernel0 : kernel :=
  Kernel (MState (fun _ => 0) 0 (fun _ => 0) idle_hart)
    (fun _ => Some 0) (fun p => if decide (p = 0) then proc0 else set_p_state UNUSED proc0)
    2 None 1 0 (fun _ => buf0) log0 [] (fun _ _ => 0) vdisk0 super0 (fun _ => inode0) (fun _ => file0)
    (fun _ => mkDevsw None None) (fun _ => pipe0) (mkCons (fun _ => 0) 0 0 0)
    (mkUart (fun _ => 0) 0 0 (fun _ => 0x20) (fun _ => 0) [] []) 0 1 (fun _ => 0) 0 0 (fun _ => 0) [].

Lemma kernel0_runs : runs 0 0 [] kernel0.
Proof. split; try done. split; [apply idle_hart_mrep|done]. Qed.

(** A disk that does each transfer at once. *)
Definition sync_disk : BlockDev := fun b write =>
  (if write then modify (fun s => set_medium ((b_blockno (bufs s b), b_data (bufs s b)) :: medium s) s)
   else modify (fun s => upd_buf b (set_b_data (image s (b_blockno (bufs s b)))) s)) : K unit.

#[local] Existing Instance sync_disk.

#[refine] Instance sync_disk_ok : BlockDevOk 0 0 := {| dok _ := True; dfuel := 0 |}.
Proof.
  - intros n s b _ [Hh _ _ _] _ _ _ _. apply wp_modify. exists (khart s), (procs s), (vd s).
    split; [done|]. split; [reflexivity|]. split; [done|]. by destruct s as [[]].
  - intros n s b _ [Hh _ _ _] _ _ _ _. apply wp_modify. exists (khart s), (procs s), (vd s).
    split; [done|]. split; [reflexivity|]. split; [done|]. by destruct s as [[]].
Defined.

Abbreviation fuel := 31%nat.

(** [binit] on this kernel makes the state [initlog] starts in. *)
Lemma sample_boot : exists s, binit fuel kernel0 = Ret tt s /\ booted (c := 0) (me := 0) (dev := 1) (fun _ _ => 0) s.
Proof.
  apply wp_elim_unit. apply (wp_binit 0 1); [apply kernel0_runs|by split|].
  intros h B Hh HB. destruct kernel0_runs. by split.
Qed.

Lemma lists0 : lists (fun _ => 0) [].
Proof. split; [by vm_compute|done]. Qed.

Definition zeros : Z -> bytes := fun _ _ => 0.
Definition block200 : bytes := fun _ => 7.
Abbreviation linv0 := (linv (c := 0) (me := 0) (dev := 1) 2).

(** A transaction that overwrites block 200. *)
Definition sample_tx : K unit :=
  binit;; initlog 1 super0;; begin_op;;
  b ← bread 1 200;
  bset b (set_b_data block200);; log_write b;; brelse b.

Lemma isdata200 : isdata 2 200.
Proof. unfold isdata, LOGSIZE, MAXOPBLOCKS. split; [lia|]. intros H. lia. Qed.

Lemma sample_commit : exists s V, sample_tx fuel kernel0 = Ret tt s /\ linv0 zeros V [200] [] 1 s /\ V 200 = block200.
Proof.
  cut (wp sample_tx fuel kernel0 (fun _ s => exists V, linv0 zeros V [200] [] 1 s /\ V 200 = block200)).
  { intros ([] & s & E & V & HV)%wp_elim. eauto. }
  assert (0 <= 1 < 2 ^ 31) as H1 by lia. assert (0 <= 2 /\ 2 + LOGSIZE < 2 ^ 31) as H2 by (unfold LOGSIZE, MAXOPBLOCKS; lia).
  assert (Z.to_nat NBUF < fuel)%nat as H3 by (by apply Nat.ltb_lt). assert (dfuel < fuel)%nat as H4 by (cbn; lia).
  unfold sample_tx. apply wp_bind. apply (wp_binit 0 1); [apply kernel0_runs|by split|]. intros h B Hh HB.
  assert (booted (c := 0) (me := 0) (dev := 1) zeros (set_bufs B (hk h kernel0))) as Hb by (destruct kernel0_runs; by split).
  apply wp_bind. apply (wp_initlog 2 H1 H2 fuel H3 H4 zeros []); [done|done|apply lists0|..].
  { split; [apply NoDup_nil_2|apply Forall_nil_2|by vm_compute]. }
  intros s1 _ _ L1. apply wp_bind. apply (wp_begin_op 2 fuel H3 H4 _ _ _ _ _ _ _ L1); [lia|by vm_compute|].
  intros s2 _ _ _ L2. apply wp_bind.
  apply (wp_lread 2 fuel H3 H4 _ _ _ _ _ _ 200 _ L2); [lia|intros b Hb'; by apply not_elem_of_nil in Hb'|by vm_compute|].
  intros b s3 _ _ L3 _ Hbn _ _ _. apply wp_bind. unfold bset. apply wp_modify.
  apply (linv_data 2 _ _ _ _ _ _ b block200) in L3; [|apply list_elem_of_here]. rewrite Hbn in L3.
  set (s4 := upd_buf b (set_b_data block200) s3) in *.
  assert (b_blockno (bufs s4 b) = 200) as Hb4 by (subst s4; cbn; by rewrite fn_lookup_insert).
  apply wp_bind. apply (wp_log_write 2 H1 H2 fuel H3 H4 _ _ _ _ _ _ b _ L3);
    [apply list_elem_of_here|rewrite Hb4; apply isdata200|lia|by vm_compute|].
  rewrite Hb4. intros s5 _ _ L5 Hs5. change (addL [] 200) with [200] in L5.
  apply (wp_lrelse 2 fuel H3 H4 _ _ _ _ [] _ _ b _ L5); [done|left; rewrite (proj1 (Hs5 b)), Hb4; apply list_elem_of_here|].
  intros s6 _ _ L6 _ _. eexists. split; [exact L6|]. by rewrite fn_lookup_insert.
Qed.

(** The atomicity of [end_op] for this transaction, wherever power fails. *)
Lemma end_op_atomic_witness : exists s s' V V' ws,
  sample_tx fuel kernel0 = Ret tt s /\ V 200 = block200 /\ end_op fuel s = Ret tt s' /\ linv0 V V' [] [] 0 s' /\
  forall k d sb s1, crashes (c := 0) (me := 0) (dev := 1) 2 fuel (applyw (take k ws) (image s)) d -> booted (c := 0) (me := 0) (dev := 1) d s1 -> logsb 2 sb ->
    exists s2 V2, initlog 1 sb fuel s1 = Ret tt s2 /\ linv0 (if decide (k <= 1)%nat then zeros else V) V2 [] [] 0 s2.
Proof.
  destruct sample_commit as (s & V & E & Hl & HV).
  destruct (end_op_atomic (c := 0) (me := 0) (dev := 1) 2 ltac:(lia) ltac:(unfold LOGSIZE, MAXOPBLOCKS; lia)
    fuel ltac:(by apply Nat.ltb_lt) ltac:(cbn; lia) zeros V [200] s Hl) as (s' & ws & V' & E' & _ & Hl' & _ & Hc).
  exists s, s', V, V', ws. repeat (split; [assumption|]). exact Hc.
Defined.

Lemma kernel0_unused : unused 1 (bufs kernel0).
Proof. by split. Qed.

Lemma binit_empty_witness : exists s, binit fuel kernel0 = Ret tt s /\ empty_cache 1 (bufs s).
Proof.
  destruct (binit_empty (c := 0) (me := 0) (dev := 1) (DOK := sync_disk_ok) kernel0 fuel kernel0_runs I kernel0_unused) as (s & E & H & _).
  exists s. split; [exact E|exact H].
Defined.

(** The cache of the booted kernel. *)
Lemma sample_cache : exists s, runs 0 0 [] s /\ binv (c := 0) (me := 0) (dev := 1) zeros (fun _ => 0) [] s /\ room s.
Proof.
  destruct sample_boot as (s & _ & [Him Hr Hd Hc _ _]). exists s. split; [done|]. split.
  - change zeros with (fun _ _ : Z => 0). rewrite <-Him. by apply empty_cache_binv.
  - exists 0. split; [unfold isbuf, NBUF, MAXOPBLOCKS; lia|]. apply Hc. unfold isbuf, NBUF, MAXOPBLOCKS. lia.
Qed.

Lemma bread_coherent_witness : exists s b s', bread 1 200 fuel s = Ret b s' /\ b_blockno (bufs s' b) = 200 /\
  b_data (bufs s' b) = zeros 200 /\
  binv (c := 0) (me := 0) (dev := 1) (<[200 := block200]> zeros) (fun _ => 0) [b] (upd_buf b (set_b_data block200) s').
Proof.
  destruct sample_cache as (s & Hr & Hi & Hroom).
  destruct (bread_coherent (c := 0) (me := 0) (dev := 1) (DOK := sync_disk_ok) zeros (fun _ => 0) [] s 200 fuel block200
    ltac:(by apply Nat.ltb_lt) ltac:(cbn; lia) Hi ltac:(lia) (fun b Hb => False_ind _ (proj1 (elem_of_nil b) Hb)) (or_intror Hroom))
    as (b & s' & E & _ & Hb & Hd & _ & _ & Hi').
  exists s, b, s'. split; [exact E|]. split; [exact Hb|]. split; [exact Hd|exact Hi'].
Defined.

(** A buffer with new contents, held by the process. *)
Lemma sample_held : exists s b V, binv (c := 0) (me := 0) (dev := 1) V (fun _ => 0) [b] s /\ b_blockno (bufs s b) = 200 /\ V 200 = block200.
Proof.
  destruct sample_cache as (s & Hr & Hi & Hroom).
  assert (wp (bread 1 200) fuel s (fun b s' => binv (c := 0) (me := 0) (dev := 1) zeros (fun _ => 0) [b] s' /\ b_blockno (bufs s' b) = 200))
    as (b & s' & _ & Hi' & Hb)%wp_elim.
  { eapply wp_mono; [apply (wp_bread (c := 0) (me := 0) (dev := 1) zeros (fun _ => 0) [] s 200 fuel)|]; try done.
    - by apply Nat.ltb_lt.
    - cbn. lia.
    - intros b Hb. by apply not_elem_of_nil in Hb.
    - by right.
    - cbn beta. intros b s' (_ & _ & ? & ? & _). done. }
  exists (upd_buf b (set_b_data block200) s'), b, (<[200 := block200]> zeros). split; [|split].
  - rewrite <-Hb. apply binv_data; [done|apply list_elem_of_here].
  - cbn. by rewrite fn_lookup_insert.
  - by rewrite fn_lookup_insert.
Qed.

Lemma bwrite_durable_witness : exists s b s1 s2, bwrite b fuel s = Ret tt s1 /\ image s1 200 = block200 /\ brelse b fuel s1 = Ret tt s2.
Proof.
  destruct sample_held as (s & b & V & Hi & Hb & HV).
  destruct (bwrite_durable (c := 0) (me := 0) (dev := 1) (DOK := sync_disk_ok) V (fun _ => 0) [] s b fuel ltac:(cbn; lia) Hi) as (s1 & s2 & E1 & Him & _ & E2 & _).
  exists s, b, s1, s2. split; [exact E1|]. split; [|exact E2]. rewrite Hb in Him. rewrite Him. exact HV.
Defined.

(** A disk with a committed transaction that writes block 200. *)
Definition crashed : Z -> bytes := <[2 := hdr (fun _ => 0) [200]]> (<[3 := block200]> zeros).

Lemma trans200 : trans 2 [200].
Proof.
  split; [apply NoDup_singleton|apply Forall_singleton, isdata200|by vm_compute].
Qed.

Lemma crashed_lists : lists (crashed 2) [200].
Proof. unfold crashed. rewrite fn_lookup_insert. apply (lists_full 2), trans200. Qed.

Lemma crashed_boot : exists s, booted (c := 0) (me := 0) (dev := 1) crashed s.
Proof.
  destruct sample_boot as (s & _ & [Him Hr Hd Hc Ho Hm]). exists (set_image0 crashed (set_medium [] s)).
  split; try done. by destruct Hr.
Qed.

Lemma initlog_replays_witness : exists s s', initlog 1 super0 fuel s = Ret tt s' /\ image s' 200 = block200.
Proof.
  destruct crashed_boot as (s & Hb).
  destruct (initlog_replays (c := 0) (me := 0) (dev := 1) (DOK := sync_disk_ok) 2 ltac:(lia) ltac:(unfold LOGSIZE, MAXOPBLOCKS; lia)
    fuel ltac:(by apply Nat.ltb_lt) ltac:(cbn; lia) crashed [200] super0 s Hb (conj eq_refl eq_refl) crashed_lists trans200)
    as (s' & E & H & _).
  exists s, s'. split; [exact E|]. rewrite (H 0%nat 200 eq_refl). reflexivity.
Defined.

(** The log after boot, and an open transaction. *)
Lemma zeros_idle : exists s V, linv0 zeros V [] [] 0 s.
Proof.
  assert (0 <= 1 < 2 ^ 31) as H1 by lia. assert (0 <= 2 /\ 2 + LOGSIZE < 2 ^ 31) as H2 by (unfold LOGSIZE, MAXOPBLOCKS; lia).
  assert (Z.to_nat NBUF < fuel)%nat as H3 by (by apply Nat.ltb_lt). assert (dfuel < fuel)%nat as H4 by (cbn; lia).
  destruct sample_boot as (s & _ & Hb).
  assert (wp (initlog 1 super0) fuel s (fun _ s' => exists V, linv0 zeros V [] [] 0 s')) as (_ & s' & _ & V & Hl)%wp_elim; [|by exists s', V].
  apply (wp_initlog 2 H1 H2 fuel H3 H4 zeros []); [done|done|apply lists0|..].
  { split; [apply NoDup_nil_2|apply Forall_nil_2|by vm_compute]. }
  intros s1 _ _ L1. by eexists.
Qed.

Lemma sample_begun : exists s V, linv0 zeros V [] [] 1 s.
Proof.
  assert (Z.to_nat NBUF < fuel)%nat as H3 by (by apply Nat.ltb_lt). assert (dfuel < fuel)%nat as H4 by (cbn; lia).
  destruct zeros_idle as (s & V & Hl).
  assert (wp begin_op fuel s (fun _ s' => linv0 zeros V [] [] 1 s')) as (_ & s' & _ & Hl')%wp_elim; [|by exists s', V].
  apply (wp_begin_op 2 fuel H3 H4 _ _ _ _ _ _ _ Hl); [lia|by vm_compute|]. intros s2 _ _ _ L2. exact L2.
Qed.

(** Block 200 held in a transaction. *)
Lemma sample_open : exists s b V, linv0 zeros V [] [b] 1 s /\ b_blockno (bufs s b) = 200.
Proof.
  assert (Z.to_nat NBUF < fuel)%nat as H3 by (by apply Nat.ltb_lt). assert (dfuel < fuel)%nat as H4 by (cbn; lia).
  destruct sample_begun as (s & V & L2).
  assert (wp (bread 1 200) fuel s (fun b s' => linv0 zeros V [] [b] 1 s' /\ b_blockno (bufs s' b) = 200)) as (b & s' & _ & Hl)%wp_elim; [|by exists s', b, V].
  apply (wp_lread 2 fuel H3 H4 _ _ _ _ _ _ 200 _ L2); [lia|intros b Hb'; by apply not_elem_of_nil in Hb'|by vm_compute|].
  intros b s3 _ _ L3 _ Hbn _ _ _. done.
Qed.

(** Blocks 100 to 128 fill the log. *)
Lemma trans29 : trans 2 (seqZ 100 29).
Proof.
  split; [apply NoDup_seqZ| |by vm_compute]. apply Forall_forall. intros x Hx%elem_of_seqZ.
  unfold isdata, LOGSIZE, MAXOPBLOCKS. lia.
Qed.

Lemma log_write_full_witness : exists s s1 b s2 s3,
  (begin_op;; begin_op;; begin_op;; log_blocks (dev := 1) (seqZ 100 29)) fuel s = Ret tt s1 /\
  bread 1 200 fuel s1 = Ret b s2 /\ log_write b fuel s2 = Panic "too big a transaction" s3.
Proof.
  destruct zeros_idle as (s & V & Hl).
  destruct (log_write_full (c := 0) (me := 0) (dev := 1) (DOK := sync_disk_ok) 2 ltac:(lia) ltac:(unfold LOGSIZE, MAXOPBLOCKS; lia)
    fuel ltac:(by apply Nat.ltb_lt) ltac:(cbn; lia) zeros V (seqZ 100 29) 200 s Hl trans29 eq_refl isdata200) as (_ & s1 & b & s2 & s3 & E).
  exists s, s1, b, s2, s3. exact E.
Defined.

Lemma log_write_absorbs_witness : exists s b s' V, log_write b fuel s = Ret tt s' /\ linv0 zeros V [200] [b] 1 s'.
Proof.
  destruct sample_open as (s & b & V & Hl & Hb).
  destruct (log_write_absorbs (c := 0) (me := 0) (dev := 1) (DOK := sync_disk_ok) 2 ltac:(lia) ltac:(unfold LOGSIZE, MAXOPBLOCKS; lia)
    fuel ltac:(by apply Nat.ltb_lt) ltac:(cbn; lia) zeros V [] [b] 1 s b Hl (list_elem_of_here _ _)
    ltac:(rewrite Hb; apply isdata200) ltac:(lia) ltac:(by vm_compute)) as (s' & E & _ & Hl' & _).
  exists s, b, s', V. split; [exact E|]. rewrite Hb in Hl'. exact Hl'.
Defined.

(** A disk driver that is idle, and a buffer to fill. *)
Definition kernel3 : kernel := set_vd (set_vd_free (fun _ => 1) vdisk0) kernel0.

Lemma kernel3_idle : idle_disk (vd kernel3).
Proof. split; by vm_compute. Qed.

Lemma virtio_disk_rw_transfers_witness : exists h ps v,
  await (world (VD := simple_device) 0 1 3%nat) (virtio_disk_rw 4 true 3%nat kernel3) =
    Ret tt (set_vd v (set_procs ps (hk h (set_medium [(0, fun _ => 0)] kernel3)))).
Proof.
  destruct (virtio_disk_rw_transfers (c := 0) (me := 0) (VD := simple_device) ltac:(unfold NPROC; lia) 1 3 ltac:(lia) kernel3 4 true)
    as (h & ps & v & _ & _ & _ & E).
  - destruct kernel0_runs as [H1 H2 H3 H4]. split; [exact H1|exact H2|exact H3|exact H4].
  - apply kernel3_idle.
  - reflexivity.
  - vm_compute. split; [discriminate|reflexivity].
  - exists h, ps, v. exact E.
Defined.

(** Process 0 holds the lock of the log on hart 0, the other harts are idle. *)
Definition kernel5 : kernel := set_cpu_proc (fun c => if c =? 0 then Some 0 else None) kernel0.

Lemma kernel5_locked : exists h, runs 0 0 [Llog] (hk h kernel5) /\ forall i, i <> 0 -> noff (cpus h i) = 0.
Proof.
  assert (wp (lock Llog) 1 kernel5 (fun _ s => exists h, hon 0 [Llog] h /\ s = hk h kernel5)) as (s & E & h & Hh & ->)%wp_elim_unit.
  { destruct kernel0_runs as [Hh _ _ _]. eapply wp_lock; [lia|exact Hh|apply not_elem_of_nil|]. intros h Hh'. by exists h. }
  assert (Smp.held (fun _ => None) (fun _ => 0) (fun _ => SSTATUS_SIE) idle_hart) as H0 by (split; [done..|lia]).
  destruct (Smp.lock_free (n := 1) ltac:(lia) 0 H0 Llog kernel5 eq_refl) as (h' & E' & [_ _ Hno _]).
  assert (h = h') as <-.
  { change (hk (Smp.seen idle_hart (fun _ => SSTATUS_SIE) 0) kernel5) with kernel5 in E'. rewrite E in E'.
    by injection E'. }
  exists h. split; [by split|]. intros i Hi. rewrite Hno. by apply fn_insert_ne.
Qed.

(** Process 0 sleeps on hart 0 while the scheduler of hart 1 takes an interrupt
    that wakes it up. *)
Lemma sleep_wakeup_witness : exists s, forall y,
  rtc (Smp.step 1) (Smp.meet 0 1 0 Clog Llog s (fun _ => sstatus (khart s))) y ->
  (exists z, Smp.step 1 y z) \/ p_state (procs (Smp.m_ker y) 0) = RUNNABLE.
Proof.
  destruct kernel5_locked as (h & Hr & Hno).
  destruct (sleep_wakeup 0 1 0 Clog Llog 1 (hk h kernel5) (fun _ => sstatus h) ltac:(lia) ltac:(lia) ltac:(unfold NPROC; lia)
    ltac:(done) Hr eq_refl Hno ltac:(done)) as [_ H].
  exists (hk h kernel5). intros y Hy. destruct (H y Hy) as [Hz|(_ & _ & Hp & _)]; [by left|by right].
Defined.

(** Process 5 is runnable on a hart that runs the scheduler; each process that
    gets a turn leaves a mark, and yields. *)
Definition kernel4 : kernel := upd_proc 5 (set_p_state RUNNABLE) kernel0.
Definition mark (p : Z) : K unit :=
  modify (fun s => set_plic_out (plic_out s ++ [(p, 0)]) s);;
  pset p (set_p_state RUNNABLE).

Lemma mark_ok c n : turn_ok (c := c) n mark (fun p s => (p, 0) ∈ plic_out s).
Proof.
  intros q s _ Hh _ _. unfold mark, pset. apply wp_bind, wp_modify, wp_modify. split; [done|]. split_and!.
  - intros p Hne Hp. cbn. by rewrite fn_insert_ne.
  - cbn. apply elem_of_app. right. apply list_elem_of_here.
  - intros p Hp. cbn. apply elem_of_app. by left.
Qed.

Lemma scheduler_fair_witness : exists s', scheduler_round mark 1%nat kernel4 = Ret tt s' /\ (5, 0) ∈ plic_out s'.
Proof.
  destruct (scheduler_fair (c := 0) 1 ltac:(lia) mark (fun p s => (p, 0) ∈ plic_out s) kernel4 (r_hart _ _ _ _ kernel0_runs)
    (mark_ok 0 1) ltac:(by intros p s h v q st Hp)) as (s' & E & _ & H).
  exists s'. split; [exact E|]. apply (H 5); [unfold NPROC; lia|reflexivity].
Defined.
