(* ===== verification/KernelVm.v ===== *)
(** * User memory in the kernel's state

    The routines of [src/kernel/vm.c] that copy to and from user memory, called
    from code that works on the state of the whole kernel. *)

From S2P Require Import Prelude Riscv Spinlock Str Kalloc Vm PageTable Cow Pages UserMem CopyUser PageFault Kernel Proc KernelWp.

(** The spin locks of hart [c]: [machine_spin], with a representation that says
    which hart it is. *)
#[refine] Definition hart_spin (c : Z) : Spin machine := {|
  init_lock := init_lock; acquire := acquire; release := release; hold := hold; depth := depth;
  hrep h l := hon c l h
|}.
Proof.
  - intros lk name n h l [Hr Ht] Hl. destruct (initlock_mrep lk name n h l Hr Hl) as (h' & E & R & T).
    exists h'. split; [exact E|]. split; [done|congruence].
  - intros lk n h l Hn [Hr Ht] Hl. destruct (acquire_mrep lk n h l Hn Hr Hl) as (h' & E & R & T).
    exists h'. split; [exact E|]. split; [done|congruence].
  - intros lk n h l [Hr Ht] Hl. by apply (acquire_again lk n h l).
  - intros lk n h l [Hr Ht] Hl. assert (exists l', l ≡ₚ lk :: l') as [l' Hp].
    { apply elem_of_Permutation in Hl as [k ?]. eauto. }
    destruct (release_mrep lk n h l') as (h' & E & R & T); [by eapply mrep_perm|].
    exists h', l'. split; [exact E|]. split; [|done]. split; [done|congruence].
  - intros lk n h l [Hr Ht] Hl. by apply (release_free lk n h l).
  - intros h l l' Hp. by apply hon_perm.
  - intros lk h l [Hr _]. by apply hold_iff.
  - intros h l [Hr _]. by apply depth_eq.
Defined.

Section copies.
Context {LY : Layout} {LO : LayoutOk} {c : Z}.

Lemma wp_kcopyin ρ l own s r src len n (Q : Z * list Z -> kernel -> Prop) :
  len / PGSIZE + 2 < Z.of_nat n -> cinv ρ l own (ms s) -> uroot ρ r -> 0 <= src < 2 ^ 64 -> 0 <= len ->
  (forall res bs, reads (ms s) r src bs ->
    (res = 0 /\ Z.of_nat (length bs) = len) \/
    (res = -1 /\ Z.of_nat (length bs) < len /\ faults (ms s) r (src + Z.of_nat (length bs))) -> Q (res, bs) s) ->
  wp (lift (copyin r src len : M (mstate machine) (Z * list Z)) : K (Z * list Z)) n s Q.
Proof.
  intros Hn Hi Hr Hs Hl HQ. apply wp_lift. eapply wp_mono; [by apply (wp_copyin ρ l own)|].
  intros [res bs] m (-> & Hrd & Hc). replace (lset (lget s) s) with s by by rewrite lset_lget. by apply HQ.
Qed.

Lemma wp_kcopyout ρ l own s r dst src n hl (Q : Z -> kernel -> Prop) :
  Z.of_nat (length src) / PGSIZE + 2 < Z.of_nat n ->
  cinv ρ l own (ms s) -> hon c hl (khart s) -> Lkmem ∉ hl -> Lref ∉ hl -> uroot ρ r -> 0 <= dst < 2 ^ 64 ->
  (forall res m ρ' l' own' k, cinv ρ' l' own' m -> hon c hl (hart m) -> wrote ρ (ms s) ρ' m r dst (take k src) ->
    (res = 0 /\ k = length src) \/
    (res = -1 /\ (k < length src)%nat /\ ((length l' <= 1)%nat \/ faults (ms s) r (dst + Z.of_nat k))) -> Q res (set_ms m s)) ->
  wp (lift (copyout r dst src (Z.of_nat (length src)) : M (mstate machine) Z) : K Z) n s Q.
Proof.
  intros Hn Hi Hh Hl Hlr Hr Hd HQ. apply wp_lift. eapply wp_mono.
  - exact (wp_copyout (SP := hart_spin c) ρ l own (ms s) r dst src n hl Hn Hi Hh Hl Hlr Hr Hd).
  - intros res m (ρ' & l' & own' & k & Hi' & Hh' & Hw & Hc). by eapply HQ.
Qed.

End copies.

(** ** The memory of a process *)

Section memory.
Context {LY : Layout} {LO : LayoutOk} (r : Z).

(** The memory of the process with page table [r] is the same. *)
Definition same_user (s s' : kernel) : Prop := forall va, ubyte (ms s') r va = ubyte (ms s) r va.

#[global] Instance same_user_preorder : PreOrder same_user.
Proof. split; [done|]. intros s1 s2 s3 H1 H2 va. by rewrite H2. Qed.

Lemma same_reads s s' a bs : same_user s s' -> reads (ms s') r a bs -> reads (ms s) r a bs.
Proof. intros Hs Hr i b Hi. rewrite <-Hs. by apply Hr. Qed.

Lemma same_faults s s' a : same_user s s' -> faults (ms s') r a -> faults (ms s) r a.
Proof. intros Hs. unfold faults. by rewrite Hs. Qed.

(** It has [bs] at [addr], and is the same elsewhere. *)
Definition updated (s s' : kernel) (addr : Z) (bs : list Z) : Prop :=
  forall va, 0 <= va < MAXVA -> ubyte (ms s') r va =
    if decide (addr <= va < addr + Z.of_nat (length bs)) then Some (bs !!! Z.to_nat (va - addr)) else ubyte (ms s) r va.

Lemma updated_nil s s' addr : same_user s s' -> updated s s' addr [].
Proof. intros Hs va _. rewrite decide_False by (cbn; lia). apply Hs. Qed.

(** Writing more bytes with [copyout]. *)
Lemma updated_app s s' addr bs m ρ ρ' bs' :
  updated s s' addr bs -> uroot ρ r ->
  wrote ρ (ms s') ρ' m r (addr + Z.of_nat (length bs)) bs' -> updated s (set_ms m s') addr (bs ++ bs').
Proof.
  intros Hu Hr Hw va Hva. cbn [ms set_ms]. rewrite (wr_view _ _ _ _ _ _ _ Hw r va Hr Hva), length_app.
  set (k := length bs) in *. set (k' := length bs').
  destruct (decide (r = r /\ addr + Z.of_nat k <= va < addr + Z.of_nat k + Z.of_nat k')) as [[_ E]|E].
  - rewrite decide_True by lia. f_equal. rewrite lookup_total_app_r by lia. f_equal. fold k. lia.
  - rewrite (Hu va Hva). fold k. destruct (decide (addr <= va < addr + Z.of_nat k)).
    + rewrite decide_True by lia. f_equal. symmetry. apply lookup_total_app_l. fold k. lia.
    + rewrite decide_False; [done|]. intros [H1 H2]. apply E. split; [done|]. lia.
Qed.

End memory.
