(* ===== verification/PipeProof.v ===== *)
(** * Pipes are queues

    [src/kernel/pipe.c] keeps a circular buffer with two counters that wrap at
    [2^32]. It implements a queue of bytes: [pipewrite] appends, [piperead]
    takes from the front. *)

From S2P Require Import Prelude Riscv Spinlock Str Kalloc Vm PageTable Cow Pages UserMem Fork CopyUser PageFault Sample Kernel Proc Pipe KernelWp KernelVm Await SampleKernel.

(** ** The abstract queue *)

Definition plen (x : pipe) : Z := u32 (pi_nwrite x - pi_nread x).

Record pok (x : pipe) : Prop := {
  po_r : 0 <= pi_nread x < 2 ^ 32;
  po_w : 0 <= pi_nwrite x < 2 ^ 32;
  po_len : plen x <= PIPESIZE
}.

(** The bytes in the pipe, oldest first. *)
Definition queue (x : pipe) : list Z := (fun i => pi_data x ((pi_nread x + i) mod PIPESIZE)) <$> seqZ 0 (plen x).

(** [pipewrite] puts a byte in, [piperead] takes one out. *)
Definition put (b : Z) (x : pipe) : pipe :=
  set_pi_nwrite (u32 (pi_nwrite x + 1)) (set_pi_data (<[pi_nwrite x mod PIPESIZE := b]> (pi_data x)) x).
Definition took (x : pipe) : pipe := set_pi_nread (u32 (pi_nread x + 1)) x.

Lemma plen_range x : 0 <= plen x < 2 ^ 32.
Proof. unfold plen, u32. apply Z.mod_pos_bound. lia. Qed.

Lemma length_queue x : Z.of_nat (length (queue x)) = plen x.
Proof. unfold queue. rewrite length_fmap, length_seqZ. pose proof (plen_range x). lia. Qed.

Lemma full_iff x : pok x -> pi_nwrite x = u32 (pi_nread x + PIPESIZE) <-> plen x = PIPESIZE.
Proof. intros [Hr Hw Hl]. unfold plen, u32, PIPESIZE in *. split; intros; Z.div_mod_to_equations; lia. Qed.

Lemma empty_iff x : pok x -> pi_nread x = pi_nwrite x <-> plen x = 0.
Proof. intros [Hr Hw Hl]. unfold plen, u32, PIPESIZE in *. split; intros; Z.div_mod_to_equations; lia. Qed.

(** The place of the [i]-th byte does not depend on the wrap-around of the
    counters. *)
Lemma slot_wrap a i : (u32 a + i) mod PIPESIZE = (a + i) mod PIPESIZE.
Proof. unfold u32, PIPESIZE. Z.div_mod_to_equations. lia. Qed.

Lemma put_len x b : pok x -> plen x < PIPESIZE -> plen (put b x) = plen x + 1.
Proof. intros [Hr Hw _] Hl. unfold plen, put, u32, PIPESIZE in *. cbn in *. Z.div_mod_to_equations. lia. Qed.

Lemma took_len x : pok x -> 0 < plen x -> plen (took x) = plen x - 1.
Proof. intros [Hr Hw _] Hl. unfold plen, took, u32, PIPESIZE in *. cbn in *. Z.div_mod_to_equations. lia. Qed.

Lemma u32_bound a : 0 <= u32 a < 2 ^ 32.
Proof. apply Z.mod_pos_bound. lia. Qed.

Lemma put_ok x b : pok x -> plen x < PIPESIZE -> pok (put b x).
Proof.
  intros Hx Hl. pose proof (put_len x b Hx Hl). destruct Hx. split; [done|apply u32_bound|lia].
Qed.

Lemma took_ok x : pok x -> 0 < plen x -> pok (took x).
Proof.
  intros Hx Hl. pose proof (took_len x Hx Hl). pose proof (po_len _ Hx). destruct Hx. split; [apply u32_bound|done|lia].
Qed.

Lemma queue_put x b : pok x -> plen x < PIPESIZE -> queue (put b x) = queue x ++ [b].
Proof.
  intros Hx Hl. unfold queue. rewrite put_len by done. rewrite seqZ_app by (pose proof (plen_range x); lia).
  rewrite fmap_app. cbn [fmap list_fmap seqZ]. f_equal.
  - apply list_fmap_ext. intros i j Hj. apply lookup_seqZ in Hj as [-> Hi]. cbn [pi_data put set_pi_nwrite set_pi_data pi_nread].
    rewrite fn_insert_ne; [done|]. unfold plen, u32, PIPESIZE in *. Z.div_mod_to_equations. lia.
  - change (seqZ (0 + plen x) 1) with [0 + plen x]. cbn. f_equal. rewrite fn_insert_spec, decide_True; [done|].
    destruct Hx. unfold plen, u32, PIPESIZE in *. Z.div_mod_to_equations. lia.
Qed.

Lemma queue_took x :
  pok x -> 0 < plen x -> queue x = pi_data x (pi_nread x mod PIPESIZE) :: queue (took x).
Proof.
  intros Hx Hl. unfold queue. rewrite took_len by done.
  rewrite (seqZ_cons 0 (plen x)) by lia. cbn [fmap list_fmap]. rewrite Z.add_0_r. f_equal.
  replace (Z.succ 0) with (0 + 1) by lia. replace (Z.pred (plen x)) with (plen x - 1) by lia.
  rewrite <-(fmap_add_seqZ 1 0), <-list_fmap_compose. apply list_fmap_ext. intros i j _. cbn.
  rewrite slot_wrap. do 2 f_equal. lia.
Qed.

(** ** Writing *)

Section pipes.
Context {LY : Layout} {LO : LayoutOk} {c me pi r : Z}.

(** Process [me], with page table [r], runs and its memory is well formed. *)
Record user_ready (hl : list lockid) (s : kernel) : Prop := {
  ur_hart : hon c hl (khart s);
  ur_cpu : cpu_proc s c = Some me;
  ur_pt : p_pagetable (procs s me) = r;
  ur_alive : p_killed (procs s me) = 0;
  ur_running : p_state (procs s me) = RUNNING;
  ur_vm : exists ρ l own, cinv ρ l own (ms s) /\ uroot ρ r
}.

Abbreviation same_user := (same_user r).
Abbreviation updated := (updated r).

(** The other side of the pipe, while the writer sleeps because the pipe is
    full: the reader takes at least one byte and the writer runs again, neither
    killed nor left alone by the reader, with its memory as it was. *)
Definition drained (s s' : kernel) : Prop :=
  hon c [Lproc me] (khart s') /\ cpu_proc s' c = Some me /\
  procs s' me = set_p_state RUNNING (procs s me) /\
  (exists ρ l own, cinv ρ l own (ms s') /\ uroot ρ r) /\ same_user s s' /\
  pok (pipes s' pi) /\ pi_readopen (pipes s' pi) <> 0 /\
  exists j, (0 < j <= length (queue (pipes s pi)))%nat /\ queue (pipes s' pi) = drop j (queue (pipes s pi)).

Definition drains (E : chan -> kernel -> option kernel) : Prop :=
  forall s, hon c [Lproc me] (khart s) -> p_chan (procs s me) = Cnwrite pi -> p_state (procs s me) = SLEEPING ->
    pok (pipes s pi) -> plen (pipes s pi) = PIPESIZE -> pi_readopen (pipes s pi) <> 0 ->
    (exists ρ l own, cinv ρ l own (ms s) /\ uroot ρ r) ->
    exists s', E (Cnwrite pi) s = Some s' /\ drained s s'.

(** The writer in its loop: it has written [bs], and the reader has taken
    [d] bytes. *)
Record writing (s0 : kernel) (addr : Z) (bs : list Z) (d : nat) (s : kernel) : Prop := {
  wg_user : user_ready [Lpipe pi] s;
  wg_same : same_user s0 s;
  wg_open : pi_readopen (pipes s pi) <> 0;
  wg_ok : pok (pipes s pi);
  wg_reads : reads (ms s0) r addr bs;
  wg_taken : (d <= length (queue (pipes s0 pi) ++ bs))%nat;
  wg_queue : queue (pipes s pi) = drop d (queue (pipes s0 pi) ++ bs)
}.

Lemma user_ready_upd hl hl' f ps h s :
  hon c hl' h -> ps me = procs s me -> user_ready hl s -> user_ready hl' (set_procs ps (hk h (upd_pipe pi f s))).
Proof.
  intros Hh Hps [? ? ? ? ? (ρ & l & own & Hi & Hr)].
  split; cbn; rewrite ?Hps; try done. exists ρ, l, own. split; [|done]. by apply cinv_hart.
Qed.

Lemma user_ready_pipe hl f s : user_ready hl s -> user_ready hl (upd_pipe pi f s).
Proof. intros []. by split. Qed.

Lemma woken_running ch m k ps p : p_state (ps p) = RUNNING -> woken ch m k ps p = ps p.
Proof. intros Hr. unfold woken. rewrite (bool_decide_false (p_state (ps p) = SLEEPING)) by congruence. by rewrite andb_false_r. Qed.

Lemma upd_pipe_id s : upd_pipe pi (fun x => x) s = s.
Proof. unfold upd_pipe. rewrite fn_insert_id. by destruct s. Qed.

Lemma user_ready_hart hl hl' ps h s :
  hon c hl' h -> ps me = procs s me -> user_ready hl s -> user_ready hl' (set_procs ps (hk h s)).
Proof. intros Hh Hp Hu. rewrite <-(upd_pipe_id s). by eapply user_ready_upd. Qed.

Section write.
Context (E : chan -> kernel -> option kernel) (HE : drains E) (n : nat) (s0 : kernel) (addr len : Z).
Context (Hlen : 0 <= len) (Haddr : 0 <= addr /\ addr + len <= 2 ^ 64) (Hn : (3 < n)%nat) (Hn' : 2 * len + 1 < Z.of_nat n).

Lemma wps_pipewrite_loop (s : kernel) (Q : option Z -> kernel -> Prop) :
  writing s0 addr [] 0 s ->
  (forall bs d s', writing s0 addr bs d s' ->
    Z.of_nat (length bs) = len \/ (Z.of_nat (length bs) < len /\ faults (ms s0) r (addr + Z.of_nat (length bs))) ->
    Q (Some (Z.of_nat (length bs))) s') ->
  wps E (pipewrite_loop pi me addr len) n s Q.
Proof.
  intros Hw HQ. unfold pipewrite_loop.
  apply (wps_loop_inv E _ (fun k i s' => exists bs d, i = Z.of_nat (length bs) /\ 0 <= i <= len /\ writing s0 addr bs d s' /\
      k = (2 * Z.to_nat (len - i) + if decide (plen (pipes s' pi) = PIPESIZE) then 1 else 0)%nat))
    with (k := (2 * Z.to_nat len + if decide (plen (pipes s pi) = PIPESIZE) then 1 else 0)%nat).
  2:{ case_decide; lia. }
  2:{ exists [], 0%nat. split_and!; [done|lia|lia|done|]. by rewrite Z.sub_0_r. }
  clear s Hw. intros k i s (bs & d & -> & Hi & Hw & ->). pose proof Hw as [Hu Hsame Hopen Hok Hrd Htk Hq].
  pose proof Hu as [Hh Hcpu Hpt Halive Hrun (ρ & l & own & Hi' & Hr)].
  destruct (Z.ltb_spec (Z.of_nat (length bs)) len) as [Hlt|Hge]; cbn [negb].
  2:{ apply wp_wps, wp_ret. apply (HQ bs d); [done|]. left. lia. }
  unfold piget, pget, piset. apply wps_bind, wp_wps, wp_gets, wps_bind, wp_wps, wp_gets.
  rewrite Halive, (proj2 (Z.eqb_neq _ _) Hopen). cbn [Z.eqb negb orb].
  apply wps_bind, wp_wps, wp_gets, wps_bind, wp_wps, wp_gets.
  destruct (Z.eqb_spec (pi_nwrite (pipes s pi)) (u32 (pi_nread (pipes s pi) + PIPESIZE))) as [Hf|Hf].
  - (* full: wait for the reader *)
    apply full_iff in Hf; [|done]. rewrite (decide_True (P := plen (pipes s pi) = PIPESIZE)) by done.
    apply wps_bind, wp_wps. eapply wp_wakeup; [lia|exact Hh|intros; notin|]. intros h1 H1.
    apply wps_bind. eapply (wps_sleep _ (c := c) (me := me)); [lia|exact H1|exact Hcpu|done|]. intros h2 H2.
    set (s2 := upd_proc me _ _).
    assert (procs s2 me = set_p_state SLEEPING (set_p_chan (Cnwrite pi) (procs s me))) as P2.
    { subst s2. cbn. rewrite fn_lookup_insert. by rewrite woken_running. }
    destruct (HE s2) as (s3 & E3 & D1 & D2 & D3 & (ρ3 & l3 & own3 & D4 & D4r) & D5 & D6 & D7 & j & Hj & D8);
      [exact H2|by rewrite P2|by rewrite P2|done|done|done| |].
    { exists ρ, l, own. split; [|done]. subst s2. cbn. by do 2 apply cinv_hart. }
    exists s3. split; [done|]. split; [done|]. intros h4 H4. apply wp_wps, wp_ret.
    assert (queue (pipes s2 pi) = queue (pipes s pi)) as Q2 by done.
    exists (2 * Z.to_nat (len - Z.of_nat (length bs)))%nat. split; [lia|]. exists bs, (d + j)%nat.
    split; [done|]. split; [lia|]. split.
    + split; [split|..]; cbn; rewrite ?fn_lookup_insert, ?D3, ?P2; try done.
      * exists ρ3, l3, own3. split; [by apply cinv_hart|done].
      * intros va. cbn. rewrite <-(Hsame va). apply (D5 va).
      * rewrite Q2, Hq, length_drop in Hj. lia.
      * by rewrite D8, Q2, Hq, drop_drop.
    + cbn. rewrite (decide_False (P := plen (pipes s3 pi) = PIPESIZE)); [lia|]. rewrite <-length_queue, D8, Q2, length_drop.
      pose proof (length_queue (pipes s pi)). unfold PIPESIZE in *. lia.
  - (* room for a byte *)
    assert (plen (pipes s pi) < PIPESIZE) as Hroom.
    { pose proof (po_len _ Hok). destruct (decide (plen (pipes s pi) = PIPESIZE)) as [Hp|]; [|lia]. by apply full_iff in Hp. }
    rewrite (decide_False (P := plen (pipes s pi) = PIPESIZE)) by lia.
    apply wps_bind, wp_wps, wp_gets. rewrite Hpt, u64_small by lia.
    apply wps_bind, wp_wps, (wp_kcopyin ρ l own); [change (1 / PGSIZE) with 0; lia|done|done|lia|lia|].
    intros res bs1 Hrd1 Hres. destruct Hres as [[-> Hl1]|(-> & Hl1 & Hf1)].
    + destruct bs1 as [|b [|? ?]]; cbn in Hl1; try lia. cbn [Z.eqb].
      apply wp_wps. wp_steps.
      eexists. split; [|exists (bs ++ [b]), d; split; [rewrite length_app; cbn; lia|]; split; [lia|]; split; [|reflexivity]].
      * cbn. rewrite fn_lookup_insert. case_decide; lia.
      * assert (pipes (upd_pipe pi (set_pi_nwrite (u32 (pi_nwrite (pipes s pi) + 1)))
          (upd_pipe pi (fun x => set_pi_data (<[pi_nwrite (pipes s pi) mod PIPESIZE := b]> (pi_data x)) x) s)) pi = put b (pipes s pi)) as Ep.
        { cbn. by rewrite !fn_lookup_insert. }
        cbn [hd]. split; rewrite ?Ep; try done.
        -- split; try done. by exists ρ, l, own.
        -- by apply put_ok.
        -- apply reads_app; [done|]. by eapply same_reads.
        -- rewrite app_assoc, length_app. lia.
        -- rewrite queue_put, Hq, app_assoc by done. by rewrite (drop_app_le _ [b]).
    + cbn [Z.eqb]. apply wp_wps, wp_ret. apply (HQ bs d); [done|]. right. split; [done|].
      destruct bs1; [|cbn in Hl1; lia]. cbn in Hf1. rewrite Z.add_0_r in Hf1. by eapply same_faults.
Qed.

Lemma wps_pipewrite (Q : Z -> kernel -> Prop) :
  user_ready [] s0 -> pi_readopen (pipes s0 pi) <> 0 -> pok (pipes s0 pi) ->
  (forall bs d s' h ps, writing s0 addr bs d s' -> hon c [] h -> woke (procs s') ps ->
    Z.of_nat (length bs) = len \/ (Z.of_nat (length bs) < len /\ faults (ms s0) r (addr + Z.of_nat (length bs))) ->
    Q (Z.of_nat (length bs)) (set_procs ps (hk h s'))) ->
  wps E (pipewrite pi addr len) n s0 Q.
Proof.
  intros Hu Hopen Hok HQ. unfold pipewrite. pose proof Hu as [Hh Hcpu Hpt Halive Hrun Hvm].
  apply wps_bind, wp_wps. eapply wp_myproc; [exact Hh|]. intros h1 H1. rewrite Hcpu.
  apply wps_bind, wp_wps, wp_ret, wps_bind, wp_wps. eapply wp_lock; [lia|exact H1|notin|]. intros h2 H2.
  apply wps_bind. apply wps_pipewrite_loop.
  - split; try done.
    + split; try done. destruct Hvm as (ρ & l & own & Hi & Hr). exists ρ, l, own. split; [|done]. by do 2 apply cinv_hart.
    + rewrite length_app. lia.
    + by rewrite drop_0, app_nil_r.
  - intros bs d s' Hw Hend. apply wps_bind, wp_wps.
    eapply wp_wakeup; [lia|apply Hw|intros; notin|]. intros h3 H3.
    apply wps_bind, wp_wps. eapply wp_unlock; [exact H3|]. intros h4 H4. apply wp_wps, wp_ret.
    apply (HQ bs d s' h4 _ Hw H4); [apply woken_woke|done].
Qed.

(** C20: [pipewrite] appends the user's bytes to the queue. It returns, as long
    as a reader keeps draining the pipe whenever it is full, with the number
    of bytes it has written, in order, behind what was in the pipe: all
    [n] of them, or up to the first one that the process cannot read itself. The
    reader has taken bytes from the front only, and no byte is lost or
    duplicated where the counters wrap around. *)
Theorem pipewrite_appends :
  user_ready [] s0 -> pi_readopen (pipes s0 pi) <> 0 -> pok (pipes s0 pi) ->
  exists bs d s', await E (pipewrite pi addr len n s0) = Ret (Z.of_nat (length bs)) s' /\
    reads (ms s0) r addr bs /\
    (Z.of_nat (length bs) = len \/ (Z.of_nat (length bs) < len /\ faults (ms s0) r (addr + Z.of_nat (length bs)))) /\
    (d <= length (queue (pipes s0 pi) ++ bs))%nat /\
    queue (pipes s' pi) = drop d (queue (pipes s0 pi) ++ bs) /\ pok (pipes s' pi) /\
    user_ready [] s' /\ same_user s0 s'.
Proof.
  intros Hu Hopen Hok.
  cut (wps E (pipewrite pi addr len) n s0 (fun k s' => exists bs d, k = Z.of_nat (length bs) /\ reads (ms s0) r addr bs /\
    (Z.of_nat (length bs) = len \/ (Z.of_nat (length bs) < len /\ faults (ms s0) r (addr + Z.of_nat (length bs)))) /\
    (d <= length (queue (pipes s0 pi) ++ bs))%nat /\ queue (pipes s' pi) = drop d (queue (pipes s0 pi) ++ bs) /\
    pok (pipes s' pi) /\ user_ready [] s' /\ same_user s0 s')).
  { intros (k & s' & Ek & bs & d & -> & H)%wps_elim. by exists bs, d, s'. }
  apply wps_pipewrite; [done..|]. intros bs d s' h ps [] Hh Hps Hend. exists bs, d. split_and!; try done.
  eapply user_ready_hart; [done| |done]. eapply woke_running; [done|]. apply wg_user0.
Qed.

End write.

(** ** Reading *)

(** The writer, while the reader sleeps because the pipe is empty: it writes
    something or closes its side, and the reader runs again. *)
Definition filled (s s' : kernel) : Prop :=
  hon c [Lproc me] (khart s') /\ cpu_proc s' c = Some me /\
  procs s' me = set_p_state RUNNING (procs s me) /\
  (exists ρ l own, cinv ρ l own (ms s') /\ uroot ρ r) /\ same_user s s' /\
  pok (pipes s' pi) /\ (0 < plen (pipes s' pi) \/ pi_writeopen (pipes s' pi) = 0).

Definition fills (E : chan -> kernel -> option kernel) : Prop :=
  forall s, hon c [Lproc me] (khart s) -> p_chan (procs s me) = Cnread pi -> p_state (procs s me) = SLEEPING ->
    pok (pipes s pi) -> plen (pipes s pi) = 0 -> pi_writeopen (pipes s pi) <> 0 ->
    (exists ρ l own, cinv ρ l own (ms s) /\ uroot ρ r) ->
    exists s', E (Cnread pi) s = Some s' /\ filled s s'.

(** The reader in its second loop: it has taken and copied [i] bytes of the
    queue [q]. *)
Record reading (s0 : kernel) (addr : Z) (q : list Z) (i : nat) (s : kernel) : Prop := {
  rg_user : user_ready [Lpipe pi] s;
  rg_ok : pok (pipes s pi);
  rg_le : (i <= length q)%nat;
  rg_queue : queue (pipes s pi) = drop i q;
  rg_upd : updated s0 s addr (take i q)
}.

Section read.
Context (E : chan -> kernel -> option kernel) (HE : fills E) (n : nat) (s0 : kernel) (addr len : Z).
Context (Hlen : 0 <= len) (Haddr : 0 <= addr /\ addr + len <= 2 ^ 64) (Hn : (3 < n)%nat) (Hn' : len < Z.of_nat n).

(** What [piperead] has done when it returns [k] bytes of [q]: all it could,
    or less because a byte could not be copied out, and that byte is gone. *)
Definition read_result (q : list Z) (k : nat) (s' : kernel) : Prop :=
  updated s0 s' addr (take k q) /\ pok (pipes s' pi) /\
  ((Z.of_nat k = Z.min len (Z.of_nat (length q)) /\ queue (pipes s' pi) = drop k q) \/
   (Z.of_nat k < Z.min len (Z.of_nat (length q)) /\ queue (pipes s' pi) = drop (S k) q /\
    (faults (ms s0) r (addr + Z.of_nat k) \/ exists ρ l own, cinv ρ l own (ms s') /\ (length l <= 1)%nat))).

Lemma wp_piperead_copy q s (Q : Z -> kernel -> Prop) :
  reading s0 addr q 0 s ->
  (forall k s', user_ready [Lpipe pi] s' -> read_result q k s' -> Q (Z.of_nat k) s') ->
  wp (piperead_copy pi me addr len) n s Q.
Proof.
  intros Hr HQ. unfold piperead_copy.
  apply (wp_loop _ (fun k i s' => exists j, i = Z.of_nat j /\ 0 <= i <= len /\ reading s0 addr q j s' /\ k = Z.to_nat (len - i)))
    with (k := Z.to_nat len).
  2:{ lia. }
  2:{ exists 0%nat. split_and!; [done|lia|lia|done|]. by rewrite Z.sub_0_r. }
  clear s Hr. intros k i s (j & -> & Hj & Hg & ->). pose proof Hg as [Hu Hok Hle Hq Hupd].
  pose proof Hu as [Hh Hcpu Hpt Halive Hrun (ρ & l & own & Hi & Hr)].
  pose proof (length_queue (pipes s pi)) as Hql. rewrite Hq, length_drop in Hql.
  destruct (Z.ltb_spec (Z.of_nat j) len) as [Hlt|Hge]; cbn [negb].
  2:{ apply wp_ret, HQ; [done|]. split; [done|]. split; [done|]. left. split; [lia|done]. }
  unfold piget, pget, piset. apply wp_bind, wp_gets, wp_bind, wp_gets.
  destruct (Z.eqb_spec (pi_nread (pipes s pi)) (pi_nwrite (pipes s pi))) as [He|He].
  { apply empty_iff in He; [|done]. apply wp_ret, HQ; [done|]. split; [done|]. split; [done|]. left. split; [lia|done]. }
  assert (0 < plen (pipes s pi)) as Hpos.
  { pose proof (plen_range (pipes s pi)). destruct (decide (plen (pipes s pi) = 0)) as [Hp|]; [|lia]. by apply empty_iff in Hp. }
  pose proof (queue_took _ Hok Hpos) as Hqt. set (ch := pi_data (pipes s pi) (pi_nread (pipes s pi) mod PIPESIZE)) in *.
  assert (q !! j = Some ch) as Hch.
  { pose proof Hq as Hq'. rewrite Hqt in Hq'. rewrite <-(Nat.add_0_r j), <-lookup_drop, <-Hq'. done. }
  apply wp_bind, wp_gets. fold ch. apply wp_bind, wp_modify, wp_bind, wp_gets. cbn [procs upd_pipe set_pipes].
  rewrite Hpt, u64_small by lia. set (s1 := upd_pipe pi _ s).
  assert (pipes s1 pi = took (pipes s pi)) as Ep by (subst s1; cbn; by rewrite fn_lookup_insert).
  assert (queue (pipes s1 pi) = drop (S j) q) as Hq1.
  { rewrite Ep. pose proof Hq as Hq'. rewrite Hqt in Hq'. rewrite (drop_S _ _ _ Hch) in Hq'. congruence. }
  assert (pok (pipes s1 pi)) as Hok1 by (rewrite Ep; by apply took_ok).
  apply wp_bind. change 1 with (Z.of_nat (length [ch])) at 1.
  apply (wp_kcopyout (c := c) ρ l own s1 r _ [ch] n [Lpipe pi]); [change (Z.of_nat (length [ch]) / PGSIZE) with 0; lia|exact Hi|exact Hh|notin|notin|done|lia|].
  assert (length (take j q) = j) as Htj by (rewrite length_take; lia).
  intros res m ρ' l' own' k Hi' Hh' Hw Hres.
  assert (user_ready [Lpipe pi] (set_ms m s1)) as Hu'.
  { split; try done. exists ρ', l', own'. split; [done|]. by apply (wr_roots _ _ _ _ _ _ _ Hw). }
  destruct Hres as [[-> ->]|(-> & Hk & Hf)]; cbn [Z.eqb].
  - apply wp_ret. exists (Z.to_nat (len - (Z.of_nat j + 1))). split; [lia|]. exists (S j). split; [lia|]. split; [lia|].
    split; [|done]. apply lookup_lt_Some in Hch as Hjl. split; [done|done|lia|done|].
    rewrite (take_S_r _ _ ch) by done. eapply (updated_app r s0 s1); [exact Hupd|done|]. by rewrite Htj.
  - assert (k = 0%nat) as -> by (cbn in Hk; lia). apply wp_ret, HQ; [done|]. cbn [take] in Hw.
    split; [rewrite <-(app_nil_r (take j q)); eapply (updated_app r s0 s1); [exact Hupd|done|by rewrite Htj]|]. split; [done|]. right. split; [lia|]. split; [done|].
    destruct Hf as [Hf|Hf].
    + right. exists ρ', l', own'. done.
    + left. rewrite Nat2Z.inj_0, Z.add_0_r in Hf. destruct Hf as [?|Hf]; [by left|].
      destruct (decide (MAXVA <= addr + Z.of_nat j)); [by left|]. right. rewrite <-Hf.
      change (ubyte (ms s1) r (addr + Z.of_nat j)) with (ubyte (ms s) r (addr + Z.of_nat j)).
      rewrite (Hupd (addr + Z.of_nat j)) by lia. rewrite Htj, decide_False by lia. done.
Qed.

Lemma wps_piperead_wait s (Q : bool -> kernel -> Prop) :
  user_ready [Lpipe pi] s -> pok (pipes s pi) ->
  (forall s', user_ready [Lpipe pi] s' -> same_user s s' -> pok (pipes s' pi) ->
    (0 < plen (pipes s' pi) \/ pi_writeopen (pipes s' pi) = 0) ->
    (0 < plen (pipes s pi) \/ pi_writeopen (pipes s pi) = 0 -> s' = s) -> Q true s') ->
  wps E (piperead_wait pi me) n s Q.
Proof.
  intros Hu Hok HQ. pose proof Hu as [Hh Hcpu Hpt Halive Hrun (ρ & l & own & Hi & Hr)]. unfold piperead_wait.
  assert (forall s, pok (pipes s pi) -> 0 < plen (pipes s pi) \/ pi_writeopen (pipes s pi) = 0 ->
    negb ((pi_nread (pipes s pi) =? pi_nwrite (pipes s pi)) && negb (pi_writeopen (pipes s pi) =? 0)) = true) as Hgo.
  { clear. intros s Hok [Hl|Hc].
    - rewrite (proj2 (Z.eqb_neq _ _)); [done|]. intros He. apply empty_iff in He; [lia|done].
    - rewrite Hc. by rewrite andb_false_r. }
  assert (exists k, n = S (S k)) as [k Ek] by (exists (n - 2)%nat; lia).
  eapply wps_loop_rounds; [exact Ek|]. apply wps_loop_n. unfold piget, pget.
  apply wps_bind, wp_wps, wp_gets, wps_bind, wp_wps, wp_gets, wps_bind, wp_wps, wp_gets.
  destruct (decide (0 < plen (pipes s pi) \/ pi_writeopen (pipes s pi) = 0)) as [Hd|Hd].
  { rewrite Hgo by done. apply wp_wps, wp_ret. by apply HQ. }
  assert (plen (pipes s pi) = 0 /\ pi_writeopen (pipes s pi) <> 0) as [He Hw] by (pose proof (plen_range (pipes s pi)); lia).
  rewrite (proj2 (Z.eqb_eq _ _)) by (by apply empty_iff). rewrite (proj2 (Z.eqb_neq _ _) Hw). cbn [negb andb].
  apply wps_bind, wp_wps, wp_gets. rewrite Halive. cbn [Z.eqb negb].
  apply wps_bind, (wps_sleep _ (c := c) (me := me)); [lia|exact Hh|exact Hcpu|done|]. intros h2 H2.
  set (s2 := upd_proc me _ _).
  assert (procs s2 me = set_p_state SLEEPING (set_p_chan (Cnread pi) (procs s me))) as P2 by (subst s2; cbn; by rewrite fn_lookup_insert).
  destruct (HE s2) as (s3 & E3 & D1 & D2 & D3 & (ρ3 & l3 & own3 & D4 & D4r) & D5 & D6 & D7);
    [exact H2|by rewrite P2|by rewrite P2|done|done|done| |].
  { exists ρ, l, own. split; [|done]. subst s2. cbn. by apply cinv_hart. }
  exists s3. split; [done|]. split; [done|]. intros h4 H4. apply wp_wps, wp_ret.
  apply wps_loop_n, wps_bind, wp_wps, wp_gets, wps_bind, wp_wps, wp_gets, wps_bind, wp_wps, wp_gets.
  set (s4 := upd_proc me (set_p_chan Cnone) (hk h4 s3)).
  rewrite (Hgo s4) by done. apply wp_wps, wp_ret. apply HQ; [|done|done|done|done].
  split; cbn; rewrite ?fn_lookup_insert, ?D3, ?P2; try done.
  exists ρ3, l3, own3. split; [by apply cinv_hart|done].
Qed.

(** C21: [piperead] takes bytes from the front of the queue. It returns, as long
    as the writer writes something or closes its side when the pipe is empty,
    with [k] bytes [take k q] of the queue [q] it found at the address asked
    for, and the rest of the process's memory as it was: as many bytes as were
    asked for or there were, and these bytes are gone from the pipe; or fewer,
    when a byte could not be stored (a bad address or no memory), in which case that
    byte has been taken from the pipe as well, and is lost. *)
Theorem piperead_takes :
  user_ready [] s0 -> pok (pipes s0 pi) ->
  exists q k s', await E (piperead pi addr len n s0) = Ret (Z.of_nat k) s' /\
    (0 < plen (pipes s0 pi) \/ pi_writeopen (pipes s0 pi) = 0 -> q = queue (pipes s0 pi)) /\
    read_result q k s' /\ user_ready [] s'.
Proof.
  intros Hu Hok.
  cut (wps E (piperead pi addr len) n s0 (fun i s' => exists q k, i = Z.of_nat k /\
    (0 < plen (pipes s0 pi) \/ pi_writeopen (pipes s0 pi) = 0 -> q = queue (pipes s0 pi)) /\ read_result q k s' /\ user_ready [] s')).
  { intros (i & s' & Ei & q & k & -> & H)%wps_elim. by exists q, k, s'. }
  pose proof Hu as [Hh Hcpu Hpt Halive Hrun (ρ & l & own & Hi & Hr)]. unfold piperead.
  apply wps_bind, wp_wps. eapply wp_myproc; [exact Hh|]. intros h1 H1. rewrite Hcpu.
  apply wps_bind, wp_wps, wp_ret, wps_bind, wp_wps. eapply wp_lock; [lia|exact H1|notin|]. intros h2 H2.
  apply wps_bind, wps_piperead_wait; [|done|].
  { split; try done. exists ρ, l, own. split; [|done]. by do 2 apply cinv_hart. }
  intros s1 Hu1 Hs1 Hok1 Hq1 Hnow. cbn [negb]. apply wps_bind, wp_wps, (wp_piperead_copy (queue (pipes s1 pi))).
  { split; [done|done|lia|done|]. cbn [take]. apply updated_nil. exact Hs1. }
  intros k s' Hu' Hres. apply wps_bind, wp_wps. eapply wp_wakeup; [lia|apply Hu'|intros; notin|]. intros h3 H3.
  apply wps_bind, wp_wps. eapply wp_unlock; [exact H3|]. intros h4 H4. apply wp_wps, wp_ret.
  exists (queue (pipes s1 pi)), k. split; [done|]. split; [by intros Hc; rewrite (Hnow Hc)|]. split.
  - destruct Hres as (R1 & R2 & [R3|(R3 & R4 & R5)]); (split; [exact R1|]); (split; [exact R2|]); [by left|right].
    split; [done|]. split; [done|]. destruct R5 as [?|(ρ5 & l5 & own5 & Hi5 & Hl5)]; [by left|right].
    exists ρ5, l5, own5. split; [|done]. by do 2 apply cinv_hart.
  - eapply (user_ready_hart _ _ _ h4 s'); [done|apply woken_running, Hu'|exact Hu'].
Qed.

End read.
End pipes.

(** ** Pipes on a small machine

    A process with two pages of zeros writes 600 bytes into a pipe that has room
    for 512, and reads from a pipe that holds two bytes. *)

#[local] Existing Instance small_kernel.
#[local] Existing Instance small_kernel_ok.

(** Process 0 has the memory of [grown]; the pipe is at address 77. *)
Definition kernel1 : kernel := upd_proc 0 (set_p_pagetable tabA) (set_ms (set_hart idle_hart grown) kernel0).

Definition kernel2 : kernel := upd_pipe 77 (fun x => set_pi_nwrite 2 (set_pi_data (fun i => 65 + i) x)) kernel1.

(** A reader that takes one byte, and a writer that closes its side. *)
Definition other (f : pipe -> pipe) (ch : chan) (s : kernel) : option kernel :=
  Some (upd_pipe 77 f (set_cpu_proc (fun _ => Some 0) (upd_proc 0 (set_p_state RUNNING) s))).

Lemma kernel1_ready : user_ready (c := 0) (me := 0) (r := tabA) [] kernel1.
Proof.
  destruct grown_facts as (ρ & l & own & Hi & _ & [Hr _ _] & _). split; try done.
  - split; [apply idle_hart_mrep|done].
  - exists ρ, l, own. split; [|done]. cbn. by apply cinv_hart.
Qed.

Lemma other_drains : drains (c := 0) (me := 0) (pi := 77) (r := tabA) (other took).
Proof.
  intros s Hh _ _ Hok Hf Ho Hvm. eexists. split; [reflexivity|].
  assert (0 < plen (pipes s 77)) as Hp by (rewrite Hf; done).
  split; [done|]. split; [done|]. split; [cbn; by rewrite fn_lookup_insert|]. split; [done|]. split; [by intros va|].
  cbn. rewrite fn_lookup_insert. split; [by apply took_ok|]. split; [done|]. exists 1%nat.
  rewrite (queue_took _ Hok Hp). split; [cbn [length]; lia|done].
Qed.

Lemma other_fills : fills (c := 0) (me := 0) (pi := 77) (r := tabA) (other (set_pi_writeopen 0)).
Proof.
  intros s Hh _ _ Hok He Ho Hvm. eexists. split; [reflexivity|].
  split; [done|]. split; [done|]. split; [cbn; by rewrite fn_lookup_insert|]. split; [done|]. split; [by intros va|].
  cbn. rewrite fn_lookup_insert. split; [by destruct Hok|by right].
Qed.

Lemma ubyte_kernel f h m s r va : ubyte (ms (upd_proc 0 f (set_ms (set_hart h m) s))) r va = ubyte m r va.
Proof. done. Qed.

Lemma grown_zero va : 0 <= va < 8192 -> ~ faults (ms kernel1) tabA va.
Proof.
  intros Hva [Hf|Hf]; [rewrite MAXVA_eq in Hf; lia|].
  destruct grown_facts as (ρ & l & own & _ & _ & _ & _ & Hz & _).
  unfold kernel1 in Hf. rewrite ubyte_kernel, (Hz va) in Hf by (pages; lia). discriminate.
Qed.

Lemma kernel1_pipe : pok (pipes kernel1 77).
Proof. split; by vm_compute. Qed.

Lemma kernel2_pipe : pok (pipes kernel2 77) /\ queue (pipes kernel2 77) = [65; 66].
Proof. split; [split|]; by vm_compute. Qed.

Lemma kernel2_ready : user_ready (c := 0) (me := 0) (r := tabA) [] kernel2.
Proof. apply user_ready_pipe, kernel1_ready. Qed.

Lemma pipewrite_appends_witness :
  exists d s', await (other took) (pipewrite 77 0 600 1300%nat kernel1) = Ret 600 s' /\ (d <= 600)%nat /\
    Z.of_nat (length (queue (pipes s' 77))) = 600 - Z.of_nat d.
Proof.
  destruct (pipewrite_appends (c := 0) (me := 0) (pi := 77) (r := tabA) (other took) other_drains 1300%nat kernel1 0 600
    ltac:(lia) ltac:(lia) ltac:(lia) ltac:(lia) kernel1_ready ltac:(by vm_compute) kernel1_pipe)
    as (bs & d & s' & E & _ & [Hl|[Hl Hf]] & Hd & Hq & _).
  - rewrite Hl in E. change (queue (pipes kernel1 77)) with (@nil Z) in Hd, Hq. cbn [app] in Hd, Hq.
    exists d, s'. split; [exact E|]. split; [lia|]. rewrite Hq, length_drop. lia.
  - exfalso. eapply grown_zero; [|exact Hf]. lia.
Defined.

Lemma piperead_takes_witness :
  exists k s', await (other (set_pi_writeopen 0)) (piperead 77 0 5 1300%nat kernel2) = Ret (Z.of_nat k) s' /\
    read_result (pi := 77) (r := tabA) kernel2 0 5 [65; 66] k s'.
Proof.
  destruct (piperead_takes (c := 0) (me := 0) (pi := 77) (r := tabA) (other (set_pi_writeopen 0)) other_fills 1300%nat kernel2 0 5
    ltac:(lia) ltac:(lia) ltac:(lia) ltac:(lia) kernel2_ready (proj1 kernel2_pipe)) as (q & k & s' & E & Hq & Hr & _).
  rewrite Hq, (proj2 kernel2_pipe) in Hr by (left; by vm_compute). exists k, s'. split; [exact E|exact Hr].
Defined.
