(* ===== verification/Paths.v ===== *)
(** * Paths

    The loop of [namex] over [skipelem] ([src/kernel/fs.c]) sees exactly the
    elements of a path: the pieces between slashes that are not empty, cut
    at [DIRSIZ] bytes. *)

From S2P Require Import Prelude Riscv Spinlock Str Kalloc Kernel Fs.

(** The pieces between the slashes. *)
Fixpoint split_at (sep : Z) (l : list Z) : list (list Z) :=
  match l with
  | [] => [[]]
  | c :: l' =>
      if decide (c = sep) then [] :: split_at sep l'
      else match split_at sep l' with p :: ps => (c :: p) :: ps | [] => [[c]] end
  end.

Definition elements (path : list Z) : list (list Z) := filter (.≠ []) (split_at slash path).

(** The names [skipelem] gives one after the other, as [namex] calls it. *)
Fixpoint walk (fuel : nat) (path : list Z) (name : bytes) : option (list (list Z)) :=
  match fuel with
  | O => None
  | S fuel' =>
      match skipelem path name with
      | None => Some []
      | Some (path', name') => (fun l => strn name' 0 (Z.to_nat DIRSIZ) :: l) <$> walk fuel' path' name'
      end
  end.

(** ** The pieces of a path *)

Lemma elements_slash path : elements (slash :: path) = elements path.
Proof. done. Qed.

Lemma elements_skip path : elements (skip_slashes path) = elements path.
Proof.
  induction path as [|c path IH]; cbn [skip_slashes]; [done|]. destruct (Z.eqb_spec c slash) as [->|]; [|done].
  by rewrite elements_slash.
Qed.

Lemma span_elem_app path : path = (span_elem path).1 ++ (span_elem path).2.
Proof.
  induction path as [|c path IH]; cbn; [done|]. destruct (c =? slash); [done|].
  destruct (span_elem path) as [s r]. cbn in *. congruence.
Qed.

Lemma span_elem_rest path : (span_elem path).2 = [] \/ exists r, (span_elem path).2 = slash :: r.
Proof.
  induction path as [|c path IH]; cbn; [by left|]. destruct (Z.eqb_spec c slash) as [->|]; [right; by eexists|].
  by destruct (span_elem path).
Qed.

Lemma span_elem_split path ps :
  split_at slash (span_elem path).2 = [] :: ps -> split_at slash path = (span_elem path).1 :: ps.
Proof.
  revert ps. induction path as [|c path IH]; cbn; intros ps H; [done|].
  destruct (Z.eqb_spec c slash) as [->|Hne]; [exact H|]. rewrite decide_False by done.
  destruct (span_elem path) as [s r] eqn:E. cbn in *. by rewrite (IH _ H).
Qed.

Lemma elements_span path :
  (span_elem path).1 <> [] -> elements path = (span_elem path).1 :: elements (skip_slashes (span_elem path).2).
Proof.
  intros Hne. rewrite elements_skip.
  assert (exists ps, split_at slash (span_elem path).2 = [] :: ps) as [ps Hps].
  { destruct (span_elem_rest path) as [->|[r ->]]; cbn; by eexists. }
  unfold elements. rewrite (span_elem_split _ _ Hps), Hps. rewrite filter_cons_True by done. by rewrite filter_cons_False by auto.
Qed.

Lemma span_elem_some c path : c <> slash -> (span_elem (c :: path)).1 <> [].
Proof.
  intros Hne. cbn. rewrite (proj2 (Z.eqb_neq _ _)) by done. by destruct (span_elem path).
Qed.

Lemma skip_slashes_head path c path' : skip_slashes path = c :: path' -> c <> slash.
Proof.
  induction path as [|x path IH]; cbn; [done|]. destruct (Z.eqb_spec x slash); [done|]. intros [= -> ->]. done.
Qed.

Lemma skip_slashes_length path : (length (skip_slashes path) <= length path)%nat.
Proof. induction path as [|c path IH]; cbn; [done|]. destruct (c =? slash); cbn; lia. Qed.

Lemma skip_slashes_nul path : Forall (.≠ 0) path -> Forall (.≠ 0) (skip_slashes path).
Proof. induction 1 as [|c path Hc HF IH]; cbn; [done|]. destruct (c =? slash); [done|by constructor]. Qed.

(** ** The name buffer *)

Lemma strn_wr k : forall name s a tail, (forall i, 0 <= i < Z.of_nat (length s) -> name (a + i) = s !!! Z.to_nat i) ->
  Forall (.≠ 0) s -> (length s <= k)%nat -> (length s = k \/ name (a + Z.of_nat (length s)) = 0) -> tail = k ->
  strn name a tail = s.
Proof.
  induction k as [|k IH]; intros name s a tail Hs HF Hlen Hend ->.
  - destruct s; [done|cbn in Hlen; lia].
  - destruct s as [|c s]; cbn [strn].
    + destruct Hend as [?|E]; [done|]. cbn in E. rewrite Z.add_0_r in E. by rewrite E.
    + apply Forall_cons in HF as [Hc HF]. pose proof (Hs 0) as H0. rewrite Z.add_0_r in H0.
      rewrite H0 by (cbn; lia). cbn. rewrite (proj2 (Z.eqb_neq _ _)) by done. f_equal.
      apply (IH name s (a + 1) k); [|done|cbn in Hlen; lia| |done].
      * intros i Hi. rewrite <-Z.add_assoc, Hs by (cbn [length]; lia).
        replace (Z.to_nat (1 + i)) with (S (Z.to_nat i)) by lia. done.
      * destruct Hend as [?|E]; [left; cbn in *; lia|right]. rewrite <-E. f_equal. cbn [length]. lia.
Qed.

Lemma name_short name s :
  Forall (.≠ 0) s -> Z.of_nat (length s) < DIRSIZ -> strn (<[Z.of_nat (length s) := 0]> (wr_bytes name 0 s)) 0 (Z.to_nat DIRSIZ) = s.
Proof.
  intros HF Hlen. apply (strn_wr (Z.to_nat DIRSIZ)); [|done|unfold DIRSIZ in *; lia| |done].
  - intros i Hi. rewrite fn_insert_ne by lia. rewrite wr_bytes_spec, decide_True by lia. f_equal. lia.
  - right. by rewrite Z.add_0_l, fn_lookup_insert.
Qed.

Lemma name_long name s :
  Forall (.≠ 0) s -> DIRSIZ <= Z.of_nat (length s) ->
  strn (wr_bytes name 0 (take (Z.to_nat DIRSIZ) s)) 0 (Z.to_nat DIRSIZ) = take (Z.to_nat DIRSIZ) s.
Proof.
  intros HF Hlen. assert (length (take (Z.to_nat DIRSIZ) s) = Z.to_nat DIRSIZ) as E by (rewrite length_take; lia).
  apply (strn_wr (Z.to_nat DIRSIZ)); [|by apply Forall_take|lia|by left|done].
  intros i Hi. rewrite wr_bytes_spec, decide_True by lia. f_equal. lia.
Qed.

Lemma skipelem_some path name :
  Forall (.≠ 0) path -> skip_slashes path <> [] ->
  let s := (span_elem (skip_slashes path)).1 in
  let rest := skip_slashes (span_elem (skip_slashes path)).2 in
  exists name', skipelem path name = Some (rest, name') /\ strn name' 0 (Z.to_nat DIRSIZ) = take (Z.to_nat DIRSIZ) s /\
    s <> [] /\ Forall (.≠ 0) rest /\ (length rest < length path)%nat.
Proof.
  intros HF Hne s rest. subst s rest. unfold skipelem. pose proof (skip_slashes_nul _ HF) as HF'.
  pose proof (skip_slashes_length path) as Hlen.
  destruct (skip_slashes path) as [|c p] eqn:E; [done|]. pose proof (span_elem_some c p (skip_slashes_head _ _ _ E)) as Hs.
  pose proof (span_elem_app (c :: p)) as Happ. destruct (span_elem (c :: p)) as [s r]. cbn [fst snd] in *.
  rewrite Happ in HF'. apply Forall_app in HF' as [Hs0 Hr0].
  assert (length (skip_slashes r) < length path)%nat as Hl.
  { pose proof (skip_slashes_length r) as Hr. rewrite Happ, length_app in Hlen. destruct s; [done|]. cbn in Hlen. lia. }
  pose proof (skip_slashes_nul _ Hr0) as Hr1.
  destruct (Z.leb_spec DIRSIZ (Z.of_nat (length s))) as [Hl1|Hl1]; eexists; (split; [reflexivity|]); (split; [|done]).
  - by apply name_long.
  - rewrite take_ge by lia. by apply name_short.
Qed.

(** [namex] looks up the elements of its path. Calling [skipelem] until it
    returns null terminates and gives, in [name], one after the other exactly
    the non-empty pieces of the path between slashes, each cut at [DIRSIZ]
    bytes; leading, trailing and repeated slashes make no difference. *)
Theorem skipelem_elements path name fuel :
  Forall (.≠ 0) path -> (length path < fuel)%nat ->
  walk fuel path name = Some (take (Z.to_nat DIRSIZ) <$> elements path).
Proof.
  revert path name. induction fuel as [|fuel IH]; intros path name HF Hlen; [lia|]. cbn [walk].
  destruct (decide (skip_slashes path = [])) as [E|Hne].
  - unfold skipelem. rewrite E, <-elements_skip, E. done.
  - destruct (skipelem_some path name HF Hne) as (name' & -> & Hn & Hs & Hr & Hl).
    rewrite IH by (done || lia). cbn. by rewrite Hn, <-(elements_skip path), (elements_span _ Hs).
Qed.

Lemma skipelem_elements_witness :
  Forall (.≠ 0) [47; 97; 47; 47; 98; 99; 47] /\
  walk 8 [47; 97; 47; 47; 98; 99; 47] (fun _ => 1) = Some [[97]; [98; 99]].
Proof.
  assert (Forall (.≠ 0) [47; 97; 47; 47; 98; 99; 47]) as HF by (apply (bool_decide_unpack _); by vm_compute).
  split; [exact HF|]. rewrite (skipelem_elements _ _ 8 HF) by (cbn; lia). vm_compute. reflexivity.
Defined.
