(* ===== verification/AsmProof.v ===== *)
(** * Traps and context switches restore the registers

    The assembly of [src/kernel/trampoline.S], [src/kernel/kernelvec.S] and
    [src/kernel/swtch.S] saves and restores every register it has to. *)

From S2P Require Import Prelude Str Asm.
Import Reg.

(** All registers hold 64-bit values. *)
Definition wide (s : regs) : Prop := forall r, 0 <= gpr s r < 2 ^ 64.

(** A table of registers and offsets without conflicts. *)
Definition good_frame (frame : list (Z * Z)) (len : Z) : Prop :=
  NoDup frame.*1 /\ NoDup frame.*2 /\ Forall (fun p => snd p mod 8 = 0 /\ 0 <= snd p < len) frame.

#[global] Instance good_frame_dec frame len : Decision (good_frame frame len).
Proof. apply _. Defined.

Ltac good := apply (bool_decide_unpack _); by vm_compute.

Lemma good_frame_cons p frame len : good_frame (p :: frame) len -> good_frame frame len.
Proof.
  intros (H1 & H2 & H3). cbn in H1, H2. apply NoDup_cons in H1 as [_ H1]. apply NoDup_cons in H2 as [_ H2].
  apply Forall_cons in H3 as [_ H3]. done.
Qed.

Lemma aligned_apart a b : a mod 8 = 0 -> b mod 8 = 0 -> a <> b -> a + 8 <= b \/ b + 8 <= a.
Proof. intros. Z.div_mod_to_equations. lia. Qed.

Section run.
Context (tr : Z -> Z -> Z).

Lemma run_app l l' s : run tr (l ++ l') s = run tr l' (run tr l s).
Proof. revert s. induction l; cbn; auto. Qed.

(** [len] bytes at register [base] are at the physical address [pa]. *)
Definition mapped (s : regs) (base pa len : Z) : Prop :=
  forall off, 0 <= off < len -> phys tr s off base = pa + off.

Lemma run_saves frame base s pa len :
  good_frame frame len -> mapped s base pa len -> wide s ->
  exists m, run tr (saves frame base) s = mkRegs (gpr s) (csrs s) m /\
    (forall r off, (r, off) ∈ frame -> load64 m (pa + off) = gpr s r) /\
    (forall off, off mod 8 = 0 -> off ∉ frame.*2 -> load64 m (pa + off) = load64 (ram s) (pa + off)).
Proof.
  revert s. induction frame as [|[r off] frame IH]; intros s Hg Hm Hw.
  { exists (ram s). split; [by destruct s|]. split; [|done]. intros r off Hin. by apply not_elem_of_nil in Hin. }
  pose proof Hg as (_ & Hnd & Hal). apply good_frame_cons in Hg. cbn in Hnd. apply NoDup_cons in Hnd as [Hoff _].
  apply Forall_cons in Hal as [[Hal Hr] HF]. cbn in Hal, Hr. cbn [saves fmap list_fmap run step].
  set (s1 := mkRegs _ _ _). destruct (IH s1 Hg) as (m & E & Hin & Hout); [done|done|]. fold (saves frame base). rewrite E.
  exists m. split; [done|]. split.
  - intros r' off' [[= -> ->]|Hin']%elem_of_cons; [|by apply Hin]. rewrite Hout by done. subst s1. cbn [ram].
    rewrite Hm by done. rewrite load64_store64. apply Z.mod_small, Hw.
  - intros off' Ha [Hne Hin']%not_elem_of_cons. cbn in Hne. rewrite Hout by done. subst s1. cbn [ram]. rewrite Hm by done.
    apply load64_store64_ne. destruct (aligned_apart off off'); [done|done|congruence|lia|lia].
Qed.

(** The base register may be in the table if what is loaded is its value. *)
Lemma run_loads frame base s pa len :
  good_frame frame len -> mapped s base pa len ->
  (forall off, (base, off) ∈ frame -> load64 (ram s) (pa + off) = gpr s base) ->
  exists g, run tr (loads frame base) s = mkRegs g (csrs s) (ram s) /\
    (forall r off, (r, off) ∈ frame -> g r = load64 (ram s) (pa + off)) /\
    (forall r, r ∉ frame.*1 -> g r = gpr s r).
Proof.
  revert s. induction frame as [|[r off] frame IH]; intros s Hg Hm Hb.
  { exists (gpr s). split; [by destruct s|]. split; [|done]. intros r off Hin. by apply not_elem_of_nil in Hin. }
  pose proof Hg as (Hnd & _ & Hal). apply good_frame_cons in Hg. cbn in Hnd. apply NoDup_cons in Hnd as [Hreg _].
  apply Forall_cons in Hal as [[_ Hr] HF]. cbn in Hr. cbn [loads fmap list_fmap run step]. rewrite Hm by done.
  set (s1 := set_gpr _ _ _).
  assert (gpr s1 base = gpr s base) as Eb.
  { subst s1. cbn. rewrite fn_insert_spec. case_decide; [|done]. subst r. apply Hb. apply list_elem_of_here. }
  destruct (IH s1 Hg) as (g & E & Hin & Hout).
  - intros off' Ho. unfold phys. rewrite Eb. by apply Hm.
  - intros off' Ho. rewrite Eb. apply Hb. by apply list_elem_of_further.
  - fold (loads frame base). rewrite E. exists g. split; [done|]. split.
    + intros r' off' [[= -> ->]|Hin']%elem_of_cons; [|by apply Hin]. rewrite Hout by done. subst s1. cbn. by rewrite fn_lookup_insert.
    + intros r' [Hne Hin']%not_elem_of_cons. cbn in Hne. rewrite Hout by done. subst s1. cbn.
      by rewrite fn_insert_spec, decide_False.
Qed.

End run.

(** ** User traps *)

Definition isreg (r : Z) : Prop := 1 <= r < 32.

Lemma in_frame (frame : list (Z * Z)) r : r ∈ frame.*1 -> exists off, (r, off) ∈ frame.
Proof. intros ([r' off] & -> & Hin)%list_elem_of_fmap. by exists off. Qed.

Lemma all_regs (P : Z -> bool) : forallb P (seqZ 1 31) = true -> forall r, isreg r -> P r = true.
Proof.
  intros H r Hr. apply (proj1 (forallb_forall _ _) H). apply list_elem_of_In, elem_of_seqZ. unfold isreg in Hr. lia.
Qed.

Lemma user_frame_all r : isreg r -> r <> a0 -> exists off, (r, off) ∈ user_frame.
Proof.
  intros Hr Hne. apply in_frame.
  pose proof (all_regs (fun r => bool_decide (r = a0 \/ r ∈ user_frame.*1)) eq_refl r Hr) as E.
  apply bool_decide_eq_true in E. tauto.
Qed.

Lemma user_frame_good : good_frame user_frame 288.
Proof. good. Qed.

Section traps.
Context (tr : Z -> Z -> Z).

(** The trap frame at the virtual address [TF] is the page [pa]. *)
Definition frame_page (sat TF pa : Z) : Prop := forall off, 0 <= off < 288 -> tr sat (u64 (TF + off)) = pa + off.

(** [uservec] leaves the user registers in the trap frame, and runs on with
    the kernel's stack, hart id and page table, which are in the frame. *)
Lemma run_uservec s TF pa :
  wide s -> csrs s sscratch = TF -> 0 <= TF < 2 ^ 64 -> frame_page (csrs s satp) TF pa ->
  let s' := run tr uservec s in
  (forall r off, (r, off) ∈ user_frame -> load64 (ram s') (pa + off) = gpr s r) /\
  load64 (ram s') (pa + 112) = gpr s a0 /\
  (forall off, off ∈ [0; 8; 16; 24; 32] -> load64 (ram s') (pa + off) = load64 (ram s) (pa + off)) /\
  gpr s' sp = load64 (ram s) (pa + 8) /\ gpr s' tp = load64 (ram s) (pa + 32) /\
  gpr s' t0 = load64 (ram s) (pa + 16) /\ gpr s' a0 = TF /\ csrs s' satp = load64 (ram s) (pa + 0).
Proof.
  intros Hw Hsc HTF Hpg s'. subst s'. unfold uservec. rewrite !run_app. cbn [run step]. rewrite Hsc.
  set (s1 := set_gpr a0 TF _). assert (wide s1) as Hw1.
  { intros r. subst s1. cbn. rewrite fn_insert_spec. case_decide; [done|apply Hw]. }
  assert (mapped tr s1 a0 pa 288) as Hm1 by (intros off Ho; by apply Hpg).
  destruct (run_saves tr user_frame a0 s1 pa 288 user_frame_good Hm1 Hw1) as (m & -> & Hin & Hout).
  assert (csrs s1 sscratch = gpr s a0) as C1 by done. assert (csrs s1 satp = csrs s satp) as C2 by done.
  assert (gpr s1 a0 = TF) as G1 by done. revert C1 C2 G1. generalize (csrs s1), (gpr s1). intros c1 g1 C1 C2 G1.
  cbv [run step set_gpr set_csr phys gpr csrs ram].
  fold (gpr s) (ram s). rewrite !(fn_insert_ne _ _ a0), G1, C1, C2, (fn_lookup_insert g1 t0) by done.
  rewrite !Hpg by lia. rewrite fn_lookup_insert, !(fn_insert_ne _ _ tp), !(fn_insert_ne _ t1), !(fn_insert_ne _ t0 sp),
    !(fn_insert_ne _ tp sp), !fn_lookup_insert by done.
  assert (forall r off, (r, off) ∈ user_frame -> gpr s1 r = gpr s r) as Hs1.
  { intros r off Hr. subst s1. cbn. rewrite fn_insert_ne; [done|]. intros <-.
    assert (a0 ∉ user_frame.*1) as Ha by good. apply Ha, list_elem_of_fmap. by exists (a0, off). }
  assert (forall off, off mod 8 = 0 -> off ∉ 112 :: user_frame.*2 ->
    load64 (store64 m (pa + 112) (gpr s a0)) (pa + off) = load64 (ram s) (pa + off)) as Hrest.
  { intros off Ha [Hne Hni]%not_elem_of_cons. rewrite load64_store64_ne.
    - by apply Hout.
    - destruct (aligned_apart 112 off); [done|done|congruence|lia|lia]. }
  split_and!.
  - intros r off Hr. rewrite load64_store64_ne.
    + by rewrite (Hin r off Hr), (Hs1 r off Hr).
    + assert (Forall (fun p => snd p + 8 <= 112 \/ 120 <= snd p) user_frame) as HF by good.
      pose proof (proj1 (Forall_forall _ _) HF _ Hr) as Hd. cbn in Hd. lia.
  - rewrite load64_store64. apply Z.mod_small, Hw.
  - intros off Hoff.
    assert (Forall (fun off => off mod 8 = 0 /\ (off ∉ 112 :: user_frame.*2)) [0; 8; 16; 24; 32]) as HF by good.
    by apply Hrest; apply (proj1 (Forall_forall _ _) HF).
  - apply Hrest; [done|good].
  - apply Hrest; [done|good].
  - apply Hrest; [done|good].
  - done.
  - apply Hrest; [done|good].
Qed.

Lemma run_userret s TF pa :
  gpr s a0 = TF -> frame_page (gpr s a1) TF pa ->
  let s' := run tr userret s in
  (forall r off, (r, off) ∈ user_frame -> gpr s' r = load64 (ram s) (pa + off)) /\
  gpr s' a0 = load64 (ram s) (pa + 112) /\ csrs s' satp = gpr s a1 /\ csrs s' sscratch = TF.
Proof.
  intros Ha0 Hpg s'. subst s'. unfold userret. rewrite !run_app.
  assert (phys tr (set_csr satp (gpr s a1) s) 112 a0 = pa + 112) as Hp.
  { unfold phys. cbn. rewrite fn_lookup_insert, Ha0. apply Hpg. lia. }
  cbn [run step]. rewrite Hp. change (gpr (set_gpr t0 ?v ?s) t0) with v. set (s1 := set_csr sscratch _ _).
  assert (mapped tr s1 a0 pa 288) as Hm1.
  { intros off Ho. unfold phys, s1. cbn. rewrite fn_insert_ne, fn_lookup_insert by done.
    rewrite fn_insert_ne by done. rewrite Ha0. by apply Hpg. }
  assert (a0 ∉ user_frame.*1) as Hna by good.
  destruct (run_loads tr user_frame a0 s1 pa 288 user_frame_good Hm1) as (g & -> & Hin & Hout).
  { intros off Ho. exfalso. apply Hna, list_elem_of_fmap. by exists (a0, off). }
  cbn [run step csrs gpr ram set_csr set_gpr]. split_and!.
  - intros r off Hr. rewrite fn_insert_ne; [by apply Hin|]. intros <-. apply Hna, list_elem_of_fmap. by exists (a0, off).
  - by rewrite fn_lookup_insert.
  - by rewrite fn_insert_ne.
  - rewrite fn_lookup_insert, Hout by done. subst s1. cbn. by rewrite fn_insert_ne.
Qed.

(** C33: a trap from user space and the return to it restore every register.
    [uservec] saves the registers a user program trapped with and loads the
    kernel's stack pointer, hart id and page table from the trap frame; when
    the kernel later runs [userret] with a page table that maps the same slots
    of a trap frame (wherever that page now is, and whatever else the kernel did
    to memory and registers), each of the 31 registers has its value again,
    but for [a0], which has the value the kernel left in its slot: the result of
    the system call, or the old value if the kernel left it alone. *)
Theorem trap_roundtrip s s2 TF pa pa' :
  wide s -> csrs s sscratch = TF -> 0 <= TF < 2 ^ 64 -> frame_page (csrs s satp) TF pa ->
  gpr s2 a0 = TF -> frame_page (gpr s2 a1) TF pa' ->
  (forall off, off ∈ user_frame.*2 -> load64 (ram s2) (pa' + off) = load64 (ram (run tr uservec s)) (pa + off)) ->
  let s3 := run tr userret s2 in
  (forall r, isreg r -> r <> a0 -> gpr s3 r = gpr s r) /\
  gpr s3 a0 = load64 (ram s2) (pa' + 112) /\
  load64 (ram (run tr uservec s)) (pa + 112) = gpr s a0 /\
  csrs s3 satp = gpr s2 a1 /\ csrs s3 sscratch = TF /\
  gpr (run tr uservec s) sp = load64 (ram s) (pa + 8) /\
  gpr (run tr uservec s) tp = load64 (ram s) (pa + 32) /\
  csrs (run tr uservec s) satp = load64 (ram s) (pa + 0).
Proof.
  intros Hw Hsc HTF Hpg Ha0 Hpg' Hslots s3. destruct (run_uservec s TF pa Hw Hsc HTF Hpg) as (U1 & U2 & _ & U3 & U4 & _ & _ & U5).
  destruct (run_userret s2 TF pa' Ha0 Hpg') as (R1 & R2 & R3 & R4). split_and!; try done.
  intros r Hr Hne. destruct (user_frame_all r Hr Hne) as [off Hin]. unfold s3. rewrite (R1 r off Hin), Hslots.
  - by apply U1.
  - apply list_elem_of_fmap. by exists (r, off).
Qed.

(** ** Kernel traps *)

Lemma kernel_frame_good : good_frame kernel_frame 256.
Proof. good. Qed.

Definition kept_frame : list (Z * Z) := filter (fun p => fst p <> tp) kernel_frame.

Lemma kept_frame_good : good_frame kept_frame 256.
Proof. good. Qed.

Lemma kept_frame_all r : isreg r -> r <> tp -> exists off, (r, off) ∈ kept_frame.
Proof.
  intros Hr Hne. apply in_frame.
  pose proof (all_regs (fun r => bool_decide (r = tp \/ r ∈ kept_frame.*1)) eq_refl r Hr) as E.
  apply bool_decide_eq_true in E. tauto.
Qed.

Lemma kept_frame_sub p : p ∈ kept_frame -> p ∈ kernel_frame.
Proof. intros H. apply list_elem_of_filter in H. tauto. Qed.

(** The 256 bytes below the stack pointer [top] are at [pa]. *)
Definition stack_at (sat top pa : Z) : Prop := forall off, 0 <= off < 256 -> tr sat (u64 (u64 (top - 256) + off)) = pa + off.

(** C36: a trap in the kernel is transparent. [kernelvec] pushes every register
    on the kernel stack; when [kerneltrap] returns with its stack pointer and
    the pushed registers as they were, the code after the call gives the interrupted
    code back all its registers, but for [tp], which is not restored, as the
    process may have moved to another hart. *)
Theorem kernelvec_transparent s s2 pa :
  wide s -> stack_at (csrs s satp) (gpr s sp) pa ->
  let s1 := run tr kernelvec_enter s in
  gpr s2 sp = gpr s1 sp -> csrs s2 satp = csrs s1 satp ->
  (forall off, off ∈ kernel_frame.*2 -> load64 (ram s2) (pa + off) = load64 (ram s1) (pa + off)) ->
  let s3 := run tr kernelvec_leave s2 in
  (forall r, isreg r -> r <> tp -> gpr s3 r = gpr s r) /\ gpr s3 tp = gpr s2 tp /\ ram s3 = ram s2.
Proof.
  intros Hw Hst s1. unfold s1, kernelvec_enter. rewrite !run_app. cbn [run step]. set (s0 := set_gpr sp _ s).
  assert (gpr s0 sp = u64 (gpr s sp - 256)) as Hsp0 by done.
  assert (wide s0) as Hw0.
  { intros r. subst s0. cbn. rewrite fn_insert_spec. case_decide; [apply Z.mod_pos_bound; lia|apply Hw]. }
  destruct (run_saves tr kernel_frame sp s0 pa 256 kernel_frame_good) as (m & -> & Hin & _);
    [intros off Ho; by apply Hst|done|]. clear s1.
  cbn [gpr csrs ram]. rewrite Hsp0. intros Hsp Hsat Hslots. unfold kernelvec_leave. rewrite run_app. fold kept_frame.
  assert (mapped tr s2 sp pa 256) as Hm2.
  { intros off Ho. unfold phys. rewrite Hsat, Hsp. by apply Hst. }
  assert (forall r off, (r, off) ∈ kept_frame -> load64 (ram s2) (pa + off) = gpr s0 r) as Hkept.
  { intros r off Hr%kept_frame_sub. rewrite Hslots; [by apply Hin|]. apply list_elem_of_fmap. by exists (r, off). }
  destruct (run_loads tr kept_frame sp s2 pa 256 kept_frame_good Hm2) as (g & -> & Hg & Hout).
  { intros off Ho. by rewrite (Hkept sp off Ho), Hsp. }
  assert (forall r, isreg r -> r <> tp -> g r = gpr s0 r) as Hgr.
  { intros r Hr Hne. destruct (kept_frame_all r Hr Hne) as [off Ho]. by rewrite (Hg r off Ho), (Hkept r off Ho). }
  cbn [run step gpr ram set_gpr]. split_and!.
  - intros r Hr Hne. rewrite fn_insert_spec. case_decide as E.
    + subst r. rewrite Hgr, Hsp0 by done. unfold u64. rewrite Zplus_mod_idemp_l, Z.sub_add. apply Z.mod_small, Hw.
    + rewrite Hgr by done. subst s0. cbn. by rewrite fn_insert_ne.
  - rewrite fn_insert_ne by done. apply Hout. good.
  - done.
Qed.

(** ** Switching contexts *)

Lemma context_frame_good : good_frame context_frame 112.
Proof. good. Qed.

Lemma run_swtch s po pn :
  wide s -> mapped tr s a0 po 112 -> mapped tr s a1 pn 112 ->
  po + 112 <= pn \/ pn + 112 <= po -> po mod 8 = 0 -> pn mod 8 = 0 ->
  let s1 := run tr swtch_code s in
  (forall r off, (r, off) ∈ context_frame ->
    load64 (ram s1) (po + off) = gpr s r /\ gpr s1 r = load64 (ram s) (pn + off)) /\
  (forall r, r ∉ context_frame.*1 -> gpr s1 r = gpr s r) /\ csrs s1 = csrs s.
Proof.
  intros Hw Ho Hn Hd Hpo Hpn s1. unfold s1, swtch_code. rewrite run_app.
  destruct (run_saves tr context_frame a0 s po 112 context_frame_good Ho Hw) as (m & -> & Hin & Hout).
  destruct (run_loads tr context_frame a1 (mkRegs (gpr s) (csrs s) m) pn 112 context_frame_good) as (g & -> & Hg & Hrest).
  - done.
  - intros off Hoff. exfalso. assert (a1 ∉ context_frame.*1) as Ha by good. apply Ha, list_elem_of_fmap. by exists (a1, off).
  - cbn [gpr csrs ram]. split_and!; [|done|done]. intros r off Hr. split; [by apply Hin|].
    rewrite (Hg r off Hr). cbn [ram]. pose proof context_frame_good as (_ & _ & HF).
    pose proof (proj1 (Forall_forall _ _) HF _ Hr) as [Hal Hlt]. cbn in Hal, Hlt.
    replace (pn + off) with (po + (pn + off - po)) by lia. apply Hout.
    + Z.div_mod_to_equations. lia.
    + intros ([r' off'] & E & Hr')%list_elem_of_fmap. cbn in E.
      pose proof (proj1 (Forall_forall _ _) HF _ Hr') as [_ Hlt']. cbn in Hlt'. lia.
Qed.

(** [swtch(old, new)] saves [ra], [sp] and [s0] to [s11], the registers a C
    function must preserve, in [old] and loads them from [new]; so a later
    switch back to [old] goes on with the registers of the first caller. *)
Theorem swtch_switches s po pn :
  wide s -> mapped tr s a0 po 112 -> mapped tr s a1 pn 112 -> po + 112 <= pn \/ pn + 112 <= po -> po mod 8 = 0 -> pn mod 8 = 0 ->
  let s1 := run tr swtch_code s in
  (forall r off, (r, off) ∈ context_frame ->
    load64 (ram s1) (po + off) = gpr s r /\ gpr s1 r = load64 (ram s) (pn + off)) /\
  (forall r, r ∉ context_frame.*1 -> gpr s1 r = gpr s r) /\ csrs s1 = csrs s /\
  (forall s2, wide s2 -> mapped tr s2 a0 pn 112 -> mapped tr s2 a1 po 112 ->
    (forall off, off ∈ context_frame.*2 -> load64 (ram s2) (po + off) = load64 (ram s1) (po + off)) ->
    forall r, r ∈ context_frame.*1 -> gpr (run tr swtch_code s2) r = gpr s r).
Proof.
  intros Hw Ho Hn Hd Hpo Hpn s1.
  destruct (run_swtch s po pn) as (H1 & H2 & H3); [done..|]. split; [done|]. split; [done|]. split; [done|].
  intros s2 Hw2 Ho2 Hn2 Hslots r Hr. destruct (in_frame _ _ Hr) as [off Hin].
  destruct (run_swtch s2 pn po) as (G1 & _); [done|done|done|lia|done|done|]. rewrite (proj2 (G1 r off Hin)), Hslots.
  - by apply H1.
  - apply list_elem_of_fmap. by exists (r, off).
Qed.

End traps.

(** ** Timer interrupts *)

Section steps.
Abbreviation T := (fun _ a : Z => a).

Lemma run_ld rd off base l s v :
  load64 (ram s) (u64 (gpr s base + off)) = v -> run T (Ld rd off base :: l) s = run T l (set_gpr rd v s).
Proof. by intros <-. Qed.
Lemma run_sd rs off base l s a v :
  u64 (gpr s base + off) = a -> gpr s rs = v ->
  run T (Sd rs off base :: l) s = run T l (mkRegs (gpr s) (csrs s) (store64 (ram s) a v)).
Proof. by intros <- <-. Qed.
Lemma run_add rd rs rt l s v :
  u64 (gpr s rs + gpr s rt) = v -> run T (Add rd rs rt :: l) s = run T l (set_gpr rd v s).
Proof. by intros <-. Qed.
Lemma run_li rd i l s v : u64 i = v -> run T (Li rd i :: l) s = run T l (set_gpr rd v s).
Proof. by intros <-. Qed.
Lemma run_csrw c rs l s v : gpr s rs = v -> run T (Csrw c rs :: l) s = run T l (set_csr c v s).
Proof. by intros <-. Qed.
Lemma run_csrrw rd c rs l s v w :
  csrs s c = v -> gpr s rs = w -> run T (Csrrw rd c rs :: l) s = run T l (set_gpr rd v (set_csr c w s)).
Proof. by intros <- <-. Qed.
End steps.

(** Look a register up after assignments to known others. *)
Ltac regs :=
  cbn [gpr csrs ram set_gpr set_csr];
  repeat first [rewrite fn_lookup_insert | rewrite fn_insert_ne by discriminate].

(** A machine-mode timer interrupt is invisible to the code it interrupts
    and arms the next one: [timervec] gives back every register and the scratch
    pointer, adds the interval to the hart's comparator and raises the
    software interrupt that the kernel sees. Addresses are physical in
    machine mode. *)
Theorem timervec_rearms s S C :
  wide s -> csrs s mscratch = S -> 0 <= S -> S + 40 < 2 ^ 64 -> 0 <= C < 2 ^ 64 -> C + 8 <= S \/ S + 40 <= C ->
  load64 (ram s) (S + 24) = C ->
  let s' := run (fun _ a => a) timervec s in
  (forall r, gpr s' r = gpr s r) /\ csrs s' mscratch = S /\ csrs s' sip = 2 /\
  load64 (ram s') C = u64 (load64 (ram s) C + load64 (ram s) (S + 32)) /\
  load64 (ram s') (S + 24) = C /\ load64 (ram s') (S + 32) = load64 (ram s) (S + 32).
Proof.
  intros Hw Hsc HS HS' HC Hd Hcmp s'.
  assert (forall off, 0 <= off < 40 -> u64 (S + off) = S + off) as Hu by (intros; apply Z.mod_small; lia).
  set (m1 := store64 (store64 (store64 (ram s) (S + 0) (gpr s a1)) (S + 8) (gpr s a2)) (S + 16) (gpr s a3)).
  set (t := u64 (load64 (ram s) C + load64 (ram s) (S + 32))).
  set (m2 := store64 m1 C t).
  assert (forall b, b + 8 <= S \/ S + 24 <= b -> load64 m1 b = load64 (ram s) b) as Hm1.
  { intros b Hb. subst m1. rewrite !load64_store64_ne by lia. done. }
  assert (forall b, S <= b -> b + 8 <= S + 40 -> load64 m2 b = load64 m1 b) as Hm2.
  { intros b Hb Hb'. subst m2. rewrite load64_store64_ne by lia. done. }
  assert ((forall r, gpr s' r = gpr s r) /\ csrs s' mscratch = S /\ csrs s' sip = 2 /\ ram s' = m2) as (Hr & Hms & Hsip & Em).
  { subst s'. unfold timervec.
    erewrite run_csrrw; [|exact Hsc|reflexivity].
    erewrite run_sd; [|regs; apply Hu; lia|regs; reflexivity].
    erewrite run_sd; [|regs; apply Hu; lia|regs; reflexivity].
    erewrite run_sd; [|regs; apply Hu; lia|regs; reflexivity]. cbn [ram set_gpr set_csr]. fold m1.
    erewrite (run_ld a1); [|regs; rewrite Hu, Hm1, Hcmp by lia; reflexivity].
    erewrite (run_ld a2); [|regs; rewrite Hu, Hm1 by lia; reflexivity].
    erewrite (run_ld a3); [|regs; rewrite Z.add_0_r; unfold u64; rewrite Z.mod_small, Hm1 by lia; reflexivity].
    erewrite run_add; [|regs; fold t; reflexivity].
    erewrite run_sd; [|regs; rewrite Z.add_0_r; apply Z.mod_small, HC|regs; reflexivity]. cbn [ram set_gpr set_csr]. fold m2.
    erewrite run_li; [|reflexivity]. erewrite run_csrw; [|regs; reflexivity].
    erewrite (run_ld a3); [|regs; rewrite Hu, Hm2 by lia; unfold m1; rewrite load64_store64; apply Z.mod_small, Hw].
    erewrite (run_ld a2); [|regs; rewrite Hu, Hm2 by lia; unfold m1; rewrite load64_store64_ne, load64_store64 by lia; apply Z.mod_small, Hw].
    erewrite (run_ld a1); [|regs; rewrite Hu, Hm2 by lia; unfold m1; rewrite !load64_store64_ne, load64_store64 by lia; apply Z.mod_small, Hw].
    erewrite run_csrrw; [|regs; reflexivity|regs; reflexivity].
    split_and!; [|by regs|by regs|done]. intros r. cbn. rewrite !fn_insert_spec. repeat case_decide; by subst. }
  split_and!; try done; rewrite Em.
  - subst m2. rewrite load64_store64. apply Zmod_mod.
  - rewrite Hm2, Hm1 by lia. done.
  - rewrite Hm2, Hm1 by lia. done.
Qed.

(** ** Examples *)

(** Registers with different values, on a machine without translation. *)
Definition some_regs : regs :=
  mkRegs (fun r => (4096 * r) mod 2 ^ 64) (fun c => if decide (c = sscratch) then 65536 else if decide (c = mscratch) then 1024 else 5)
    (fun a => if decide (a = 1049) then 32 else 0).

Lemma some_regs_wide : wide some_regs.
Proof. intros r. apply Z.mod_pos_bound. lia. Qed.

Lemma some_frame sat : frame_page (fun _ a => a) sat 65536 65536.
Proof. intros off Ho. apply Z.mod_small. lia. Qed.

Lemma trap_roundtrip_witness :
  let s2 := mkRegs (fun r => if decide (r = a0) then 65536 else 5) (csrs some_regs)
    (store64 (ram (run (fun _ a => a) uservec some_regs)) (65536 + 112) 77) in
  (forall r, isreg r -> r <> a0 -> gpr (run (fun _ a => a) userret s2) r = gpr some_regs r) /\
  gpr (run (fun _ a => a) userret s2) a0 = 77.
Proof.
  intros s2. destruct (trap_roundtrip (fun _ a => a) some_regs s2 65536 65536 65536 some_regs_wide eq_refl ltac:(lia)
    (some_frame _) eq_refl (some_frame _)) as (H1 & H2 & _).
  - intros off Hoff. apply load64_store64_ne.
    assert (Forall (fun off => off + 8 <= 112 \/ 120 <= off) user_frame.*2) as HF by good.
    pose proof (proj1 (Forall_forall _ _) HF _ Hoff) as Hd. cbn in Hd. lia.
  - split; [exact H1|]. rewrite H2. subst s2. cbn [ram]. rewrite load64_store64. reflexivity.
Defined.

(** What some [kerneltrap] leaves of the registers. *)
Definition clobbered (s : regs) : regs := mkRegs (<[sp := gpr s sp]> (fun _ => 9)) (csrs s) (ram s).

Lemma clobbered_sp s : gpr (clobbered s) sp = gpr s sp.
Proof. done. Qed.
Lemma clobbered_satp s : csrs (clobbered s) satp = csrs s satp.
Proof. done. Qed.
Lemma clobbered_tp s : gpr (clobbered s) tp = 9.
Proof. done. Qed.
Lemma clobbered_ram s a : load64 (ram (clobbered s)) a = load64 (ram s) a.
Proof. done. Qed.

Lemma some_stack : stack_at (fun _ a => a) (csrs some_regs satp) (gpr some_regs sp) (8192 - 256).
Proof.
  intros off Ho. change (gpr some_regs sp) with 8192. change (u64 (8192 - 256)) with (8192 - 256). apply Z.mod_small. lia.
Qed.

Lemma kernelvec_transparent_witness :
  let s2 := clobbered (run (fun _ a => a) kernelvec_enter some_regs) in
  (forall r, isreg r -> r <> tp -> gpr (run (fun _ a => a) kernelvec_leave s2) r = gpr some_regs r) /\
  gpr (run (fun _ a => a) kernelvec_leave s2) tp = 9.
Proof.
  cbv zeta.
  destruct (kernelvec_transparent (fun _ a => a) some_regs (clobbered (run (fun _ a => a) kernelvec_enter some_regs)) (8192 - 256)
    some_regs_wide some_stack (clobbered_sp _) (clobbered_satp _) (fun off _ => clobbered_ram _ _)) as (H1 & H2 & _).
  split; [exact H1|]. rewrite H2. apply clobbered_tp.
Defined.

Lemma swtch_switches_witness :
  let s1 := run (fun _ a => a) swtch_code some_regs in
  load64 (ram s1) (4096 * a0 + 8) = 4096 * sp /\ gpr s1 sp = 0.
Proof.
  destruct (swtch_switches (fun _ a => a) some_regs (4096 * a0) (4096 * a1) some_regs_wide) as (H1 & _).
  - intros off Ho. unfold phys. change (gpr some_regs a0) with (4096 * a0). apply Z.mod_small. unfold a0. lia.
  - intros off Ho. unfold phys. change (gpr some_regs a1) with (4096 * a1). apply Z.mod_small. unfold a1. lia.
  - unfold a0, a1. lia.
  - reflexivity.
  - reflexivity.
  - destruct (H1 sp 8) as [E1 E2]; [good|]. split; [exact E1|]. rewrite E2. vm_compute. reflexivity.
Defined.

Lemma timervec_rearms_witness :
  let s' := run (fun _ a => a) timervec some_regs in
  (forall r, gpr s' r = gpr some_regs r) /\ load64 (ram s') 8192 = u64 (0 + 0).
Proof.
  destruct (timervec_rearms some_regs 1024 8192 some_regs_wide eq_refl) as (H1 & _ & _ & H2 & _).
  - lia.
  - lia.
  - lia.
  - right. lia.
  - vm_compute. reflexivity.
  - split; [exact H1|]. rewrite H2. vm_compute. reflexivity.
Defined.
