(* ===== verification/Stubs.v ===== *)
(** * The assembly of user space: [src/user/initcode.S] and the stubs of
    [src/user/usys.pl]

    An assembler for the instructions they use, and a processor that runs the
    machine code: the bytes of [initcode] in [src/kernel/proc.c] are the assembled
    program, and what they do is to call [exec] with ["/init"]. *)

From S2P Require Import Prelude Riscv Str Asm ProcLife.

(** ** Source *)

Inductive ainstr : Type :=
| La (rd : Z) (sym : string)          (* la rd, sym *)
| Li (rd imm : Z)                     (* li rd, imm, for a small constant *)
| Ecall
| Jal (sym : string)                  (* jal sym *)
| Ret.

Inductive item : Type :=
| Label (l : string)
| Ins (i : ainstr)
| String_ (bs : list Z)               (* .string: the bytes and a NUL *)
| P2align (n : Z)
| Long (sym : option string).         (* .long sym, .long 0 *)

(** The bytes of a constant. *)
Definition ascii_bytes (s : string) : list Z := (fun c => Z.of_nat (Ascii.nat_of_ascii c)) <$> String.list_ascii_of_string s.

Definition initcode_S : list item :=
  [Label "start";
   Ins (La Reg.a0 "init");
   Ins (La Reg.a1 "argv");
   Ins (Li Reg.a7 SYS_exec);
   Ins Ecall;
   Label "exit";
   Ins (Li Reg.a7 SYS_exit);
   Ins Ecall;
   Ins (Jal "exit");
   Label "init";
   String_ (ascii_bytes "/init" ++ [0]);
   P2align 2;
   Label "argv";
   Long (Some "init"%string);
   Long None].

(** [entry(name)] of [usys.pl] *)
Definition entry (num : Z) : list ainstr := [Li Reg.a7 num; Ecall; Ret].

(** The stubs, in the order of the file. *)
Definition usys : list (string * list ainstr) :=
  [("fork", entry SYS_fork); ("exit", entry SYS_exit); ("wait", entry SYS_wait); ("pipe", entry SYS_pipe);
   ("read", entry SYS_read); ("write", entry SYS_write); ("close", entry SYS_close); ("kill", entry SYS_kill);
   ("exec", entry SYS_exec); ("open", entry SYS_open); ("mknod", entry SYS_mknod); ("unlink", entry SYS_unlink);
   ("fstat", entry SYS_fstat); ("link", entry SYS_link); ("mkdir", entry SYS_mkdir); ("chdir", entry SYS_chdir);
   ("dup", entry SYS_dup); ("getpid", entry SYS_getpid); ("sbrk", entry SYS_sbrk); ("sleep", entry SYS_sleep);
   ("uptime", entry SYS_uptime)]%string.

(** ** Assembler *)

(** Instruction formats. *)
Definition enc_u (op rd imm : Z) : Z := Z.lor (Z.shiftl (imm mod 2 ^ 20) 12) (Z.lor (Z.shiftl rd 7) op).
Definition enc_i (op f3 rd rs imm : Z) : Z :=
  Z.lor (Z.shiftl (imm mod 2 ^ 12) 20) (Z.lor (Z.shiftl rs 15) (Z.lor (Z.shiftl f3 12) (Z.lor (Z.shiftl rd 7) op))).
Definition bits (x lo k : Z) : Z := Z.shiftr x lo mod 2 ^ k.
Definition enc_j (op rd imm : Z) : Z :=
  Z.lor (Z.shiftl (bits imm 20 1) 31) (Z.lor (Z.shiftl (bits imm 1 10) 21)
    (Z.lor (Z.shiftl (bits imm 11 1) 20) (Z.lor (Z.shiftl (bits imm 12 8) 12) (Z.lor (Z.shiftl rd 7) op)))).

Definition word_bytes (w : Z) : list Z := (fun k => u8 (Z.shiftr w (8 * k))) <$> [0; 1; 2; 3].

Definition instr_size (i : ainstr) : Z := match i with La _ _ => 8 | _ => 4 end.

(** The words of an instruction at [pc]; [at_] gives the addresses of labels. *)
Definition encode (at_ : string -> Z) (pc : Z) (i : ainstr) : list Z :=
  match i with
  | La rd sym =>
      let off := at_ sym - pc in
      let hi := Z.shiftr (off + 0x800) 12 in
      [enc_u 0x17 rd hi; enc_i 0x13 0 rd rd (off - Z.shiftl hi 12)]
  | Li rd imm => [enc_i 0x13 0 rd 0 imm]
  | Ecall => [0x73]
  | Jal sym => [enc_j 0x6f Reg.ra (at_ sym - pc)]
  | Ret => [enc_i 0x67 0 0 Reg.ra 0]
  end.

Definition item_size (pc : Z) (x : item) : Z :=
  match x with
  | Label _ => 0
  | Ins i => instr_size i
  | String_ bs => Z.of_nat (length bs) + 1
  | P2align n => (- pc) mod 2 ^ n
  | Long _ => 4
  end.

Fixpoint label_at (pc : Z) (xs : list item) (l : string) : Z :=
  match xs with
  | [] => 0
  | Label l' :: xs' => if decide (l' = l) then pc else label_at pc xs' l
  | x :: xs' => label_at (pc + item_size pc x) xs' l
  end.

Fixpoint assemble (at_ : string -> Z) (pc : Z) (xs : list item) : list Z :=
  match xs with
  | [] => []
  | x :: xs' =>
      match x with
      | Label _ => []
      | Ins i => encode at_ pc i ≫= word_bytes
      | String_ bs => bs ++ [0]
      | P2align n => replicate (Z.to_nat (item_size pc x)) 0
      | Long (Some sym) => word_bytes (at_ sym)
      | Long None => word_bytes 0
      end ++ assemble at_ (pc + item_size pc x) xs'
  end.

Definition assembled (xs : list item) : list Z := assemble (label_at 0 xs) 0 xs.

(** ** Processor *)

Record cpustate : Type := mkCpuState { cpc : Z; creg : Z -> Z }.

(** A result for register [rd]; [x0] stays zero. *)
Definition set_reg (rd v : Z) (s : cpustate) : cpustate :=
  mkCpuState (cpc s) (if rd =? 0 then creg s else <[rd := u64 v]> (creg s)).

(** [k] bits as a signed number. *)
Definition sext (k x : Z) : Z := if x <? 2 ^ (k - 1) then x else x - 2 ^ k.

(** One instruction of the formats above from memory [m], or nothing at an
    [ecall] and at other instructions. *)
Definition cpu_step (m : memory) (s : cpustate) : option cpustate :=
  let w := ld 4 m (cpc s) in
  let op := bits w 0 7 in
  let rd := bits w 7 5 in
  let rs := bits w 15 5 in
  let next := u64 (cpc s + 4) in
  let imm_i := sext 12 (bits w 20 12) in
  if op =? 0x17 then Some (mkCpuState next (creg (set_reg rd (cpc s + sext 32 (Z.shiftl (bits w 12 20) 12)) s)))
  else if (op =? 0x13) && (bits w 12 3 =? 0) then Some (mkCpuState next (creg (set_reg rd (creg s rs + imm_i) s)))
  else if op =? 0x6f then
    let imm := sext 21 (Z.lor (Z.shiftl (bits w 31 1) 20) (Z.lor (Z.shiftl (bits w 12 8) 12) (Z.lor (Z.shiftl (bits w 20 1) 11) (Z.shiftl (bits w 21 10) 1)))) in
    Some (mkCpuState (u64 (cpc s + imm)) (creg (set_reg rd (cpc s + 4) s)))
  else if (op =? 0x67) && (bits w 12 3 =? 0) then
    Some (mkCpuState (Z.land (u64 (creg s rs + imm_i)) (Z.lnot 1)) (creg (set_reg rd (cpc s + 4) s)))
  else None.

Definition is_ecall (m : memory) (s : cpustate) : bool := ld 4 m (cpc s) =? 0x73.

Fixpoint cpu_run (k : nat) (m : memory) (s : cpustate) : option cpustate :=
  match k with
  | O => Some s
  | S k' => match cpu_step m s with Some s' => cpu_run k' m s' | None => None end
  end.

(** ** The first process *)

(** Memory that starts with the code, as [uvminit] leaves the first page. *)
Definition first_page (m : memory) : Prop := forall a, 0 <= a < PGSIZE -> m a = nth (Z.to_nat a) initcode 0.

Lemma first_page_ld m k a : first_page m -> 0 <= a -> a + Z.of_nat k <= PGSIZE -> ld k m a = ld k (fun a => nth (Z.to_nat a) initcode 0) a.
Proof. intros Hm Ha Hk. apply ld_ext. intros x Hx. apply Hm. lia. Qed.

(** Decide one step of the processor on known code. *)
Ltac cpu_eval m Hm :=
  unfold cpu_step; cbn [cpc creg];
  match goal with
  | |- context [ld 4 m ?a] => rewrite (first_page_ld m 4 a Hm ltac:(lia) ltac:(by vm_compute))
  end;
  match goal with
  | |- context [ld 4 ?f ?a] => let w := eval vm_compute in (ld 4 f a) in change (ld 4 f a) with w
  end;
  repeat match goal with
  | |- context [bits ?x ?a ?b] => let v := eval vm_compute in (bits x a b) in change (bits x a b) with v
  end;
  unfold set_reg; cbn [cpc creg Z.eqb Pos.eqb andb];
  repeat match goal with
  | |- context [sext ?k ?x] => let v := eval vm_compute in (sext k x) in change (sext k x) with v
  end.

Section first.
Context (m : memory) (Hm : first_page m).

(** [addi] and [auipc] as they change the registers. *)
Lemma first_steps r : r 0 = 0 ->
  exists f, cpu_run 5 m (mkCpuState 0 r) = Some (mkCpuState 20 f) /\ f Reg.a0 = 36 /\ f Reg.a1 = 43 /\ f Reg.a7 = SYS_exec.
Proof.
  intros H0. cbn [cpu_run].
  assert (forall r, cpu_step m (mkCpuState 0 r) = Some (mkCpuState 4 (<[Reg.a0 := 0]> r))) as -> by (intros; cpu_eval m Hm; done).
  assert (forall r, cpu_step m (mkCpuState 4 r) = Some (mkCpuState 8 (<[Reg.a0 := u64 (r Reg.a0 + 36)]> r))) as -> by (intros; cpu_eval m Hm; done).
  assert (forall r, cpu_step m (mkCpuState 8 r) = Some (mkCpuState 12 (<[Reg.a1 := 8]> r))) as -> by (intros; cpu_eval m Hm; done).
  assert (forall r, cpu_step m (mkCpuState 12 r) = Some (mkCpuState 16 (<[Reg.a1 := u64 (r Reg.a1 + 35)]> r))) as -> by (intros; cpu_eval m Hm; done).
  assert (forall r, cpu_step m (mkCpuState 16 r) = Some (mkCpuState 20 (<[Reg.a7 := u64 (r 0 + 7)]> r))) as -> by (intros; cpu_eval m Hm; done).
  eexists. split; [done|]. rewrite !fn_insert_spec. cbn. by rewrite H0.
Qed.

(** After a system call returns at address 24 or 32. *)
Lemma exit_steps r : r 0 = 0 ->
  (exists f, cpu_run 1 m (mkCpuState 24 r) = Some (mkCpuState 28 f) /\ f Reg.a7 = SYS_exit) /\
  (exists f, cpu_run 2 m (mkCpuState 32 r) = Some (mkCpuState 28 f) /\ f Reg.a7 = SYS_exit).
Proof.
  intros H0. cbn [cpu_run].
  assert (forall r, cpu_step m (mkCpuState 24 r) = Some (mkCpuState 28 (<[Reg.a7 := u64 (r 0 + 2)]> r))) as E by (intros; cpu_eval m Hm; done).
  assert (forall r, cpu_step m (mkCpuState 32 r) = Some (mkCpuState 24 (<[Reg.ra := 36]> r))) as -> by (intros; cpu_eval m Hm; done).
  rewrite !E. split; (eexists; split; [done|]); rewrite !fn_insert_spec; cbn; by rewrite H0.
Qed.

End first.

(** C37: the first process does what [initcode.S] says: the bytes that [userinit]
    puts into its memory, run by a processor, reach a system call with the number
    of [exec] in [a7], the address of the string ["/init"] in [a0], and in [a1] the
    address of an array of that pointer and a null pointer; if [exec] returns they
    call [exit], and they call it again if that returns. *)
Theorem first_process_execs m r : first_page m -> r 0 = 0 ->
  exists f, cpu_run 5 m (mkCpuState 0 r) = Some (mkCpuState 20 f) /\ is_ecall m (mkCpuState 20 f) = true /\ f Reg.a7 = SYS_exec /\
    rd_bytes m (f Reg.a0) 6 = ascii_bytes "/init" ++ [0] /\ ld 8 m (f Reg.a1) = f Reg.a0 /\ ld 8 m (f Reg.a1 + 8) = 0 /\
    forall g, g 0 = 0 ->
      (exists h, cpu_run 1 m (mkCpuState 24 g) = Some (mkCpuState 28 h) /\ is_ecall m (mkCpuState 28 h) = true /\ h Reg.a7 = SYS_exit) /\
      (exists h, cpu_run 2 m (mkCpuState 32 g) = Some (mkCpuState 28 h) /\ is_ecall m (mkCpuState 28 h) = true /\ h Reg.a7 = SYS_exit).
Proof.
  intros Hm H0. destruct (first_steps m Hm r H0) as (f & E & E0 & E1 & E7). exists f. unfold is_ecall. cbn [cpc]. rewrite E0, E1.
  rewrite !(first_page_ld m) by (done || by vm_compute).
  split; [done|]. split; [by vm_compute|]. split; [done|]. split.
  { assert (forall k a, 0 <= a -> a + Z.of_nat k <= PGSIZE -> rd_bytes m a k = rd_bytes (fun a => nth (Z.to_nat a) initcode 0) a k) as Hrd.
    { induction k as [|k IH]; intros a Ha Hk; [done|]. cbn [rd_bytes]. rewrite IH by lia. f_equal. apply Hm. lia. }
    rewrite Hrd by (done || by vm_compute). by vm_compute. }
  split; [by vm_compute|]. split; [by vm_compute|]. intros g Hg.
  destruct (exit_steps m Hm g Hg) as [(h1 & F1 & A1) (h2 & F2 & A2)]. split; [exists h1|exists h2]; split_and!; done || by vm_compute.
Qed.

Lemma first_process_execs_witness : exists f, cpu_run 5 (fun a => nth (Z.to_nat a) initcode 0) (mkCpuState 0 (fun _ => 0)) = Some (mkCpuState 20 f) /\ f Reg.a7 = SYS_exec.
Proof.
  destruct (first_process_execs (fun a => nth (Z.to_nat a) initcode 0) (fun _ => 0) ltac:(done) ltac:(done)) as (f & E & _ & A & _). by exists f.
Defined.

(** ** The source and the bytes *)

Definition is_align (x : item) : bool := match x with P2align _ => true | _ => false end.

(** The bytes in [proc.c] are the assembled source without its [.p2align], which
    would move [argv] by one byte. *)
Lemma initcode_unaligned : initcode = assembled (List.filter (fun x => negb (is_align x)) initcode_S) ++ [0] /\
  label_at 0 initcode_S "argv" = 44 /\ label_at 0 (List.filter (fun x => negb (is_align x)) initcode_S) "argv" = 43.
Proof. by vm_compute. Qed.
