(* ===== verification/User.v ===== *)
(** * User code

    The monad of the programs under [src/user/]. A user program runs on its
    own memory and talks to the kernel through system calls only, so what it
    does is a tree: the calls it makes, with one branch for every answer the
    kernel may give. Strings and buffers cross the interface by value: a call
    carries the bytes the kernel reads from user memory, an answer the bytes
    that the kernel stores there ([UserVm.copyin_correct] and
    [UserVm.copyout_correct] are about that copying). The memory of a process is
    total. What a program does on purpose with an address it does not have, as
    the tests do, is an event like a call: a call with the pointer itself, or an
    access that the kernel may answer by killing the process. *)

From S2P Require Import Prelude Str.

(** ** System calls: the prototypes of [src/user/user.h], with the type of the answer *)

Inductive sysE : Type -> Type :=
| Sfork : sysE Z
| Swait (want : bool) : sysE (Z * list Z)          (* result, bytes stored at the argument *)
| Spipe : sysE (Z * Z * Z)                         (* result, the two descriptors *)
| Swrite (fd : Z) (bs : list Z) : sysE Z
| Sread (fd n : Z) : sysE (Z * list Z)             (* result, bytes stored in the buffer *)
| Sclose (fd : Z) : sysE Z
| Skill (pid : Z) : sysE Z
| Sexec (path : list Z) (argv : list (list Z)) : sysE Z
| Sopen (path : list Z) (omode : Z) : sysE Z
| Smknod (path : list Z) (major minor : Z) : sysE Z
| Sunlink (path : list Z) : sysE Z
| Sfstat (fd : Z) : sysE (Z * list Z)              (* result, bytes of the struct stat *)
| Slink (old new : list Z) : sysE Z
| Smkdir (path : list Z) : sysE Z
| Schdir (path : list Z) : sysE Z
| Sdup (fd : Z) : sysE Z
| Sgetpid : sysE Z
| Ssbrk (n : Z) : sysE Z
| Ssleep (n : Z) : sysE Z
| Suptime : sysE Z
| Sraw (num : Z) (args : list Z) : sysE Z          (* a call with pointers as they are *)
| Sload (a : Z) : sysE Z                           (* an access outside the memory *)
| Sstore (a v : Z) : sysE unit.

(** ** Processes *)

(** The memory of the process, and the static pointer [freep] of [umalloc.c]. *)
Record ustate : Type := mkU { umem : memory; freep : Z }.

Definition set_umem (m : memory) (s : ustate) : ustate := mkU m (freep s).
Definition set_freep (p : Z) (s : ustate) : ustate := mkU (umem s) p.

(** [exit] does not return, so it ends the tree. *)
Inductive prog (A : Type) : Type :=
| URet (a : A) (s : ustate)
| UExit (status : Z)
| UCall {X : Type} (e : sysE X) (k : X -> prog A)
| UNoFuel.
#[global] Arguments URet {_} _ _.
#[global] Arguments UExit {_} _.
#[global] Arguments UCall {_ _} _ _.
#[global] Arguments UNoFuel {_}.

Fixpoint pbind {A B} (o : prog A) (f : A -> ustate -> prog B) : prog B :=
  match o with
  | URet a s => f a s
  | UExit st => UExit st
  | UCall e k => UCall e (fun x => pbind (k x) f)
  | UNoFuel => UNoFuel
  end.

(** As in [M], the [nat] bounds the rounds of each loop. *)
Definition U (A : Type) : Type := nat -> ustate -> prog A.

#[global] Instance U_ret : MRet U := fun A a _ s => URet a s.
#[global] Instance U_bind : MBind U := fun A B f m n s => pbind (m n s) (fun a s' => f a n s').

Definition uget {A} (f : ustate -> A) : U A := fun _ s => URet (f s) s.
Definition uset (f : ustate -> ustate) : U unit := fun _ s => URet tt (f s).
Definition call {X} (e : sysE X) : U X := fun _ s => UCall e (fun x => URet x s).
Definition exit {A} (status : Z) : U A := fun _ _ => UExit status.
Definition uwhen (b : bool) (m : U unit) : U unit := if b then m else mret tt.

Fixpoint uloop_n {L A} (body : L -> U (ctl L A)) (i : nat) (l : L) : U A :=
  fun n s =>
    match i with
    | O => UNoFuel
    | S i' =>
        pbind (body l n s) (fun r s' =>
          match r with
          | Next l' => uloop_n body i' l' n s'
          | Done a => URet a s'
          end)
    end.

Definition uloop {L A} (body : L -> U (ctl L A)) (l : L) : U A :=
  fun n s => uloop_n body n l n s.

(** [for(x in xs) body(x)], for the arguments of a program. *)
Fixpoint ueach {X} (xs : list X) (body : X -> U unit) : U unit :=
  match xs with
  | [] => mret tt
  | x :: xs' => body x;; ueach xs' body
  end.

(** ** Memory *)

Definition ldb (a : Z) : U Z := uget (fun s => umem s a).
Definition stb (a v : Z) : U unit := uset (fun s => set_umem (<[a := u8 v]> (umem s)) s).
Definition ldw (k : nat) (a : Z) : U Z := uget (fun s => ld k (umem s) a).
Definition stw (k : nat) (a v : Z) : U unit := uset (fun s => set_umem (st k (umem s) a v) s).
Definition load (a : Z) (k : nat) : U (list Z) := uget (fun s => rd_bytes (umem s) a k).
Definition store (a : Z) (bs : list Z) : U unit := uset (fun s => set_umem (wr_bytes (umem s) a bs) s).

(** The string at [p], as the kernel reads it. *)
Definition cstring (p : Z) : U (list Z) :=
  uloop (fun '(i, acc) =>
    c ← ldb (p + i);
    if c =? 0 then mret (Done (rev acc)) else mret (Next (i + 1, c :: acc))) (0, []).

(** ** The calls, as C code makes them

    A path or a text that is a constant of the program is given by its bytes. *)

Definition fork : U Z := call Sfork.
Definition wait (p : Z) : U Z :=
  '(r, bs) ← call (Swait (negb (p =? 0)));
  uwhen (negb (p =? 0)) (store p bs);;
  mret r.
Definition pipe : U (Z * Z * Z) := call Spipe.
Definition write_bytes (fd : Z) (bs : list Z) : U Z := call (Swrite fd bs).
Definition write (fd p n : Z) : U Z := bs ← load p (Z.to_nat n); write_bytes fd bs.
Definition read (fd p n : Z) : U Z :=
  '(r, bs) ← call (Sread fd n);
  store p bs;;
  mret r.
Definition close (fd : Z) : U Z := call (Sclose fd).
Definition kill (pid : Z) : U Z := call (Skill pid).
Definition open_bytes (path : list Z) (omode : Z) : U Z := call (Sopen path omode).
Definition open (p omode : Z) : U Z := path ← cstring p; open_bytes path omode.
Definition unlink (p : Z) : U Z := path ← cstring p; call (Sunlink path).
Definition link (p q : Z) : U Z := old ← cstring p; new ← cstring q; call (Slink old new).
Definition mkdir (p : Z) : U Z := path ← cstring p; call (Smkdir path).
Definition chdir (p : Z) : U Z := path ← cstring p; call (Schdir path).
Definition fstat (fd p : Z) : U Z :=
  '(r, bs) ← call (Sfstat fd);
  store p bs;;
  mret r.
Definition dup (fd : Z) : U Z := call (Sdup fd).
Definition getpid : U Z := call Sgetpid.
Definition sbrk (n : Z) : U Z := call (Ssbrk n).
Definition sleep (n : Z) : U Z := call (Ssleep n).

(** A call with its arguments as the registers have them, and a load and a store
    of a byte at an address that may be outside. *)
Definition raw (num : Z) (args : list Z) : U Z := call (Sraw num args).
Definition wild_ldb (a : Z) : U Z := call (Sload a).
Definition wild_stb (a v : Z) : U unit := call (Sstore a v).

(** The [int] with these bytes. *)
Definition int_of (bs : list Z) : Z := s32 (foldr (fun b n => b + 256 * n) 0 bs).

(** The bytes of an [int] in memory. *)
Definition int_bytes (i : Z) : list Z := (fun k => u8 (Z.shiftr i (8 * k))) <$> [0; 1; 2; 3].

(** [wait(&x)] with [x] a local variable of value [x]: the result, and the value
    afterwards. *)
Definition wait_int (x : Z) : U (Z * Z) :=
  '(r, bs) ← call (Swait true);
  mret (r, match bs with [] => x | _ => int_of bs end).

(** [exec(path, argv)]: the strings of the array up to its null pointer. *)
Definition exec (p argv : Z) : U Z :=
  path ← cstring p;
  args ← uloop (fun '(i, acc) =>
    q ← ldw 8 (argv + 8 * i);
    if q =? 0 then mret (Done (rev acc)) else
    s ← cstring q;
    mret (Next (i + 1, s :: acc))) (0, []);
  call (Sexec path args).

(** ** Total correctness against an operating system

    [sys e w Q]: in a world [w], every answer the kernel may give to the call
    [e] satisfies [Q] with the world it leaves. For [fork] these are the
    answers in the parent and in the child. *)

Class OS (W : Type) : Type := {
  sys : forall {X}, sysE X -> W -> (X -> W -> Prop) -> Prop;
  sys_mono : forall {X} (e : sysE X) w (Q Q' : X -> W -> Prop),
    sys e w Q -> (forall x w', Q x w' -> Q' x w') -> sys e w Q'
}.

(** A kernel given by a function. *)
Program Definition OS_of {W} (h : forall X, sysE X -> W -> option (X * W)) : OS W := {|
  sys := fun X e w Q => match h X e w with Some (x, w') => Q x w' | None => False end
|}.
Next Obligation. intros W h X e w Q Q'. simpl. destruct (h X e w) as [[]|]; naive_solver. Qed.

Section uwp.
Context {W : Type} `{OS W}.
(** What must hold when the process exits. *)
Variable X : Z -> W -> Prop.

Fixpoint pwp {A} (o : prog A) (w : W) (Q : A -> ustate -> W -> Prop) : Prop :=
  match o with
  | URet a s => Q a s w
  | UExit st => X st w
  | UCall e k => sys e w (fun x w' => pwp (k x) w' Q)
  | UNoFuel => False
  end.

Definition uwp {A} (m : U A) (n : nat) (s : ustate) (w : W) (Q : A -> ustate -> W -> Prop) : Prop :=
  pwp (m n s) w Q.

Lemma pwp_mono {A} (o : prog A) w (Q Q' : A -> ustate -> W -> Prop) :
  pwp o w Q -> (forall a s' w', Q a s' w' -> Q' a s' w') -> pwp o w Q'.
Proof.
  revert w. induction o as [a s|st|T e k IH|]; intros w Hq HQ; cbn in *; [by apply HQ|done| |done].
  eapply sys_mono; [exact Hq|]. cbn. intros x w' ?. by apply IH.
Qed.

Lemma pwp_bind {A B} (o : prog A) (f : A -> ustate -> prog B) w Q :
  pwp o w (fun a s w => pwp (f a s) w Q) -> pwp (pbind o f) w Q.
Proof.
  revert w. induction o as [a s|st|T e k IH|]; intros w Hq; cbn in *; try done.
  eapply sys_mono; [exact Hq|]. cbn. intros x w' ?. by apply IH.
Qed.

Lemma uwp_ret {A} (a : A) n s w Q : Q a s w -> uwp (mret a) n s w Q.
Proof. done. Qed.

Lemma uwp_bind {A B} (m : U A) (f : A -> U B) n s w Q :
  uwp m n s w (fun a s' w' => uwp (f a) n s' w' Q) -> uwp (m ≫= f) n s w Q.
Proof. apply pwp_bind. Qed.

Lemma uwp_mono {A} (m : U A) n s w (Q Q' : A -> ustate -> W -> Prop) :
  uwp m n s w Q -> (forall a s' w', Q a s' w' -> Q' a s' w') -> uwp m n s w Q'.
Proof. apply pwp_mono. Qed.

Lemma uwp_get {A} (f : ustate -> A) n s w Q : Q (f s) s w -> uwp (uget f) n s w Q.
Proof. done. Qed.

Lemma uwp_set f n s w (Q : unit -> ustate -> W -> Prop) : Q tt (f s) w -> uwp (uset f) n s w Q.
Proof. done. Qed.

Lemma uwp_call {T} (e : sysE T) n s w Q :
  sys e w (fun x w' => Q x s w') -> uwp (call e) n s w Q.
Proof. done. Qed.

Lemma uwp_exit {A} st n s w (Q : A -> ustate -> W -> Prop) : X st w -> uwp (exit st) n s w Q.
Proof. done. Qed.

Lemma uwp_when b (m : U unit) n s w Q :
  (b = true -> uwp m n s w Q) -> (b = false -> Q tt s w) -> uwp (uwhen b m) n s w Q.
Proof. destruct b; intros H1 H2; [by apply H1|by apply H2]. Qed.

(** A loop terminates when a measure below the bound decreases at each round. *)
Lemma uwp_loop {L A} (body : L -> U (ctl L A)) (I : nat -> L -> ustate -> W -> Prop) (n : nat) Q :
  (forall k l s w, I k l s w ->
     uwp (body l) n s w (fun r s' w' =>
       match r with
       | Next l' => exists k', (k' < k)%nat /\ I k' l' s' w'
       | Done a => Q a s' w'
       end)) ->
  forall k l s w, (k < n)%nat -> I k l s w -> uwp (uloop body l) n s w Q.
Proof.
  intros Hbody k l s w Hk HI. unfold uloop, uwp.
  enough (forall i k l s w, (k < i)%nat -> I k l s w -> pwp (uloop_n body i l n s) w Q) as Hi by eauto.
  clear k l s w Hk HI. induction i as [|i IH]; [lia|]. intros k l s w Hk HI. cbn [uloop_n].
  apply pwp_bind. eapply pwp_mono; [by apply (Hbody k)|]. cbn. intros [l'|a] s' w' Hr; [|done].
  destruct Hr as (k' & ? & ?). apply (IH k'); [lia|done].
Qed.

Lemma uwp_loop_once {L A} (body : L -> U (ctl L A)) n l s w Q :
  (0 < n)%nat -> uwp (body l) n s w (fun r s' w' => match r with Next _ => False | Done a => Q a s' w' end) ->
  uwp (uloop body l) n s w Q.
Proof.
  intros Hn Hb. destruct n as [|n]; [lia|]. unfold uloop, uwp. cbn [uloop_n].
  apply pwp_bind. eapply pwp_mono; [exact Hb|]. by intros [].
Qed.

End uwp.

(** A process that makes no calls. *)
#[refine] Definition no_os : OS unit := {| sys := fun _ _ _ _ => False |}.
Proof. done. Defined.

Lemma uwp_pure {A} (m : U A) n s (Q : A -> ustate -> unit -> Prop) :
  uwp (H := no_os) (fun _ _ => False) m n s tt Q -> exists a s', m n s = URet a s' /\ Q a s' tt.
Proof. unfold uwp. destruct (m n s) as [a s'|st|T e k|]; cbn; try done. intros HQ. by exists a, s'. Qed.

Ltac uwp_step :=
  lazymatch goal with
  | |- uwp _ (mbind _ _) _ _ _ _ => apply uwp_bind
  | |- uwp _ (mret _) _ _ _ _ => apply uwp_ret
  | |- uwp _ (uget _) _ _ _ _ => apply uwp_get
  | |- uwp _ (uset _) _ _ _ _ => apply uwp_set
  | |- uwp _ (uwhen _ _) _ _ _ _ => apply uwp_when
  | |- uwp _ (call _) _ _ _ _ => apply uwp_call
  | |- uwp _ (exit _) _ _ _ _ => apply uwp_exit
  | |- uwp _ (ldb _) _ _ _ _ => apply uwp_get
  | |- uwp _ (stb _ _) _ _ _ _ => apply uwp_set
  | |- uwp _ (ldw _ _) _ _ _ _ => apply uwp_get
  | |- uwp _ (stw _ _ _) _ _ _ _ => apply uwp_set
  | |- uwp _ (load _ _) _ _ _ _ => apply uwp_get
  | |- uwp _ (store _ _) _ _ _ _ => apply uwp_set
  end.
Ltac uwp_steps := repeat (uwp_step; cbn beta).
