(* ===== verification/Ulib.v ===== *)
(** * The user library: [src/user/ulib.c]

    The names are those of the C functions, so that [Ulib.strlen] is the
    [strlen] that user programs are linked with and [Str.strlen] is the
    kernel's. *)

From S2P Require Import Prelude Str User.

Definition strcpy (s t : Z) : U Z :=
  uloop (fun i =>
    c ← ldb (t + i);
    stb (s + i) c;;
    if c =? 0 then mret (Done s) else mret (Next (i + 1))) 0.

Definition strcmp (p q : Z) : U Z :=
  uloop (fun i =>
    a ← ldb (p + i);
    b ← ldb (q + i);
    if negb (a =? 0) && (a =? b) then mret (Next (i + 1)) else mret (Done (u8 a - u8 b))) 0.

Definition strlen (s : Z) : U Z :=
  uloop (fun i =>
    c ← ldb (s + i);
    if c =? 0 then mret (Done i) else mret (Next (i + 1))) 0.

(** The loop is the one of the kernel's [memset]. *)
Definition memset (dst c n : Z) : U Z :=
  uset (fun s => set_umem (memset_loop (umem s) dst c 0 (Z.to_nat n)) s);;
  mret dst.

Definition strchr (s c : Z) : U Z :=
  uloop (fun s =>
    x ← ldb s;
    if x =? 0 then mret (Done 0)
    else if x =? c then mret (Done s)
    else mret (Next (s + 1))) s.

(** [strchr] of a string constant: is [c] one of its characters? *)
Definition strchr_const (cs : list Z) (c : Z) : bool := bool_decide (c ∈ cs).

(** [read(0, &c, 1)] into a local variable. *)
Definition read_char (fd : Z) : U (Z * Z) :=
  '(cc, bs) ← call (Sread fd 1);
  mret (cc, hd 0 bs).

Definition gets (buf max : Z) : U Z :=
  i ← uloop (fun i =>
    if negb (i + 1 <? max) then mret (Done i) else
    '(cc, c) ← read_char 0;
    if cc <? 1 then mret (Done i) else
    stb (buf + i) c;;
    let i := i + 1 in
    if (c =? 10) || (c =? 13) then mret (Done i) else mret (Next i)) 0;
  stb (buf + i) 0;;
  mret buf.

(** [stat(n, st)], with [O_RDONLY] = 0. *)
Definition stat (n st : Z) : U Z :=
  fd ← open n 0;
  if fd <? 0 then mret (-1) else
  r ← fstat fd st;
  close fd;;
  mret r.

Definition atoi (s : Z) : U Z :=
  uloop (fun '(s, n) =>
    c ← ldb s;
    if (48 <=? c) && (c <=? 57) then mret (Next (s + 1, s32 (n * 10 + c - 48)))
    else mret (Done n)) (s, 0).

(** [while(n-- > 0)] copies as in the kernel; the test of the direction is
    this library's own. *)
Definition memmove_mem (m : memory) (dst src n : Z) : memory :=
  if dst <? src then move_up m dst src (Z.to_nat n)
  else move_down m (dst + n) (src + n) (Z.to_nat n).

Definition memmove (dst src n : Z) : U Z :=
  uset (fun s => set_umem (memmove_mem (umem s) dst src n) s);;
  mret dst.

Definition memcmp (s1 s2 n : Z) : U Z :=
  uget (fun s => memcmp_loop (fun i => umem s (s1 + i)) (fun i => umem s (s2 + i)) 0 (Z.to_nat n)).

Definition memcpy (dst src n : Z) : U Z := memmove dst src n.
