(* ===== verification/Uprintf.v ===== *)
(** * Formatted output of user programs: [src/user/printf.c] *)

From S2P Require Import Prelude Str User Ulib.

(** [digits[i]] *)
Definition udigit (i : Z) : Z := if i <? 10 then 48 + i else 55 + i.

Definition putc (fd c : Z) : U unit := write_bytes fd [u8 c];; mret tt.

(** The [do]-loop: the digits of [x], the last one first. The bound is the
    size of the array they are stored in. *)
Fixpoint uint_digits (fuel : nat) (x base : Z) : list Z :=
  match fuel with
  | O => []
  | S f => udigit (x mod base) :: if x / base =? 0 then [] else uint_digits f (x / base) base
  end.

(** The contents of [buf] before it is written out. *)
Definition uprintint_buf (xx base : Z) (sgn : bool) : list Z :=
  let neg := sgn && (xx <? 0) in
  let x := if neg then u32 (- xx) else u32 xx in
  uint_digits 16 x base ++ if neg then [45] else [].

(** [while(--i >= 0) putc(fd, buf[i]);] *)
Definition printint (fd xx base : Z) (sgn : bool) : U unit :=
  ueach (rev (uprintint_buf xx base sgn)) (putc fd).

Fixpoint printptr_loop (fd : Z) (k : nat) (x : Z) : U unit :=
  match k with
  | O => mret tt
  | S k' => putc fd (udigit (Z.shiftr x 60));; printptr_loop fd k' (u64 (Z.shiftl x 4))
  end.

Definition printptr (fd x : Z) : U unit :=
  putc fd 48;;
  putc fd 120;;
  printptr_loop fd 16 x.

(** The arguments after the format: a number or an address, or a constant
    string. *)
Inductive uarg : Type :=
| Vnum (v : Z)
| Vlit (s : list Z).

Definition va_num (ap : list uarg) : Z := match ap with Vnum v :: _ => v | _ => 0 end.

(** The [%s] conversion. *)
Definition put_string (fd : Z) (a : uarg) : U unit :=
  match a with
  | Vlit s => ueach s (putc fd)
  | Vnum s =>
      if s =? 0 then ueach [40; 110; 117; 108; 108; 41] (putc fd)
      else uloop (fun s =>
        c ← ldb s;
        if c =? 0 then mret (Done tt) else putc fd c;; mret (Next (s + 1))) s
  end.

(** The loop over the format; [state] is 0 or ['%']. *)
Fixpoint vprintf_loop (fd : Z) (fmt : list Z) (state : Z) (ap : list uarg) : U unit :=
  match fmt with
  | [] => mret tt
  | c :: fmt =>
      if state =? 0 then
        if c =? 37 then vprintf_loop fd fmt 37 ap
        else putc fd c;; vprintf_loop fd fmt 0 ap
      else
        let go m := m;; vprintf_loop fd fmt 0 (tl ap) in
        if c =? 100 then go (printint fd (s32 (va_num ap)) 10 true) else
        if c =? 108 then go (printint fd (s32 (va_num ap)) 10 false) else
        if c =? 120 then go (printint fd (s32 (va_num ap)) 16 false) else
        if c =? 112 then go (printptr fd (u64 (va_num ap))) else
        if c =? 115 then go (put_string fd (hd (Vnum 0) ap)) else
        if c =? 99 then go (putc fd (u32 (va_num ap))) else
        if c =? 37 then putc fd c;; vprintf_loop fd fmt 0 ap else
        putc fd 37;; putc fd c;; vprintf_loop fd fmt 0 ap
  end.

Definition vprintf (fd : Z) (fmt : list Z) (ap : list uarg) : U unit := vprintf_loop fd fmt 0 ap.

(** The bytes of a string constant. *)
Definition lit (s : string) : list Z := (fun c => Z.of_nat (Ascii.nat_of_ascii c)) <$> String.list_ascii_of_string s.

(** A line of output: the constant and the newline at its end. *)
Definition line (s : string) : list Z := lit s ++ [10].

Definition fprintf (fd : Z) (fmt : list Z) (ap : list uarg) : U unit := vprintf fd fmt ap.
Definition printf (fmt : list Z) (ap : list uarg) : U unit := vprintf 1 fmt ap.
