(* ===== verification/Umalloc.v ===== *)
(** * The user-level allocator: [src/user/umalloc.c]

    Headers and blocks are in the memory of the process. A [Header] has 16
    bytes: the pointer [s.ptr] at offset 0 and the size [s.size], in
    headers, at offset 8. *)

From S2P Require Import Prelude Str User.

Definition hsize : Z := 16.

Definition s_ptr (m : memory) (p : Z) : Z := ld 8 m p.
Definition s_size (m : memory) (p : Z) : Z := ld 4 m (p + 8).

Definition get_ptr (p : Z) : U Z := uget (fun s => s_ptr (umem s) p).
Definition get_size (p : Z) : U Z := uget (fun s => s_size (umem s) p).
Definition set_ptr (p v : Z) : U unit := stw 8 p v.
Definition set_size (p v : Z) : U unit := stw 4 (p + 8) v.

(** The loop of [free]: the block of the list to insert behind. *)
Definition free_find (bp : Z) : U Z :=
  p ← uget freep;
  uloop (fun p =>
    nx ← get_ptr p;
    if (p <? bp) && (bp <? nx) then mret (Done p) else
    if (nx <=? p) && ((p <? bp) || (bp <? nx)) then mret (Done p) else
    mret (Next nx)) p.

Definition free (ap : Z) : U unit :=
  let bp := ap - hsize in
  p ← free_find bp;
  bsz ← get_size bp;
  nx ← get_ptr p;
  (if bp + hsize * bsz =? nx then
     nsz ← get_size nx;
     set_size bp (bsz + nsz);;
     nnx ← get_ptr nx;
     set_ptr bp nnx
   else set_ptr bp nx);;
  psz ← get_size p;
  (if p + hsize * psz =? bp then
     bsz ← get_size bp;
     set_size p (psz + bsz);;
     bnx ← get_ptr bp;
     set_ptr p bnx
   else set_ptr p bp);;
  uset (set_freep p).

(** [sbrk] takes an [int], so the number of bytes is cut to 32 bits. *)
Definition morecore (nu : Z) : U Z :=
  let nu := if nu <? 4096 then 4096 else nu in
  p ← sbrk (s32 (nu * hsize));
  if p =? -1 then mret 0 else
  set_size p nu;;
  free (p + hsize);;
  uget freep.

(** One round of the loop of [malloc]. *)
Definition malloc_body (nunits : Z) : Z * Z -> U (ctl (Z * Z) Z) := fun '(prevp, p) =>
  sz ← get_size p;
  if nunits <=? sz then
    r ← (if sz =? nunits then
           nx ← get_ptr p;
           set_ptr prevp nx;;
           mret p
         else
           set_size p (sz - nunits);;
           sz' ← get_size p;
           let p := p + hsize * sz' in
           set_size p nunits;;
           mret p);
    uset (set_freep prevp);;
    mret (Done (r + hsize))
  else
    fp ← uget freep;
    if p =? fp then
      p' ← morecore nunits;
      if p' =? 0 then mret (Done 0) else
      nx ← get_ptr p';
      mret (Next (p', nx))
    else
      nx ← get_ptr p;
      mret (Next (p, nx)).

(** [base] is the address of the static header that starts the list. *)
Section malloc.
Variable base : Z.

Definition malloc_init : U Z :=
  prevp ← uget freep;
  if prevp =? 0 then
    uset (set_freep base);;
    set_ptr base base;;
    set_size base 0;;
    mret base
  else mret prevp.

Definition malloc (nbytes : Z) : U Z :=
  let nunits := u32 ((nbytes + hsize - 1) / hsize + 1) in
  prevp ← malloc_init;
  p ← get_ptr prevp;
  uloop (malloc_body nunits) (prevp, p).

End malloc.
