(* ===== verification/MallocProof.v ===== *)
(** * The user-level allocator keeps its arena

    The free blocks of [src/user/umalloc.c] form a circle through the headers,
    in the order of their addresses. The arena is that circle with the blocks
    that are in use, above the static header [base] and below the break. *)

From Stdlib Require Import Sorting.Sorted.
From stdpp Require Import sorting.
From S2P Require Import Prelude Str User Umalloc.

(** ** Blocks *)

(** The address of a header and the size it has, in headers. *)
Abbreviation block := (Z * Z)%type.

Definition bend (b : block) : Z := b.1 + hsize * b.2.

(** How many of the blocks a byte is in. *)
Definition covers (b : block) (x : Z) : Z := if (b.1 <=? x) && (x <? bend b) then 1 else 0.
Definition cover (bs : list block) (x : Z) : Z := foldr (fun b n => covers b x + n) 0 bs.

(** Free blocks do not touch. *)
Definition apart (b b' : block) : Prop := bend b < b'.1.

Lemma covers_in b x : b.1 <= x < bend b -> covers b x = 1.
Proof. intros H. unfold covers. by rewrite (proj2 (Z.leb_le _ _)), (proj2 (Z.ltb_lt _ _)) by lia. Qed.

Lemma covers_out b x : x < b.1 \/ bend b <= x -> covers b x = 0.
Proof. intros H. unfold covers. destruct (Z.leb_spec b.1 x), (Z.ltb_spec x (bend b)); cbn; lia. Qed.

Lemma covers_nonneg b x : 0 <= covers b x.
Proof. unfold covers. by destruct (_ && _). Qed.

Lemma cover_nonneg bs x : 0 <= cover bs x.
Proof. induction bs as [|b bs IH]; cbn; [lia|]. pose proof (covers_nonneg b x). fold (cover bs x). lia. Qed.

Lemma cover_cons b bs x : cover (b :: bs) x = covers b x + cover bs x.
Proof. done. Qed.

Lemma cover_app l r x : cover (l ++ r) x = cover l x + cover r x.
Proof. induction l as [|b l IH]; [done|]. cbn [app]. rewrite !cover_cons, IH. lia. Qed.

Lemma cover_in b bs x : b ∈ bs -> b.1 <= x < bend b -> 1 <= cover bs x.
Proof.
  intros (l & r & ->)%list_elem_of_split Hx. rewrite cover_app, cover_cons, covers_in by done.
  pose proof (cover_nonneg l x). pose proof (cover_nonneg r x). lia.
Qed.

Lemma cover_zero b bs x : cover bs x = 0 -> b ∈ bs -> x < b.1 \/ bend b <= x.
Proof. intros H0 Hb. destruct (decide (b.1 <= x < bend b)) as [Hx|]; [|lia]. pose proof (cover_in b bs x Hb Hx). lia. Qed.

Lemma covers_split a k j x : 0 <= k -> 0 <= j -> covers (a, k + j) x = covers (a, k) x + covers (a + hsize * k, j) x.
Proof.
  intros Hk Hj. unfold covers, bend, hsize. cbn [fst snd].
  destruct (Z.leb_spec a x), (Z.leb_spec (a + 16 * k) x), (Z.ltb_spec x (a + 16 * (k + j))), (Z.ltb_spec x (a + 16 * k)),
    (Z.ltb_spec x (a + 16 * k + 16 * j)); cbn; lia.
Qed.

Lemma covers_empty a x : covers (a, 0) x = 0.
Proof. apply covers_out. unfold bend. cbn [fst snd]. lia. Qed.

(** ** Headers in memory *)

Lemma s_ptr_ext m m' a : (forall x, a <= x < a + hsize -> m' x = m x) -> s_ptr m' a = s_ptr m a.
Proof. unfold s_ptr, hsize. intros H. apply ld_ext. intros x Hx. apply H. lia. Qed.

Lemma s_size_ext m m' a : (forall x, a <= x < a + hsize -> m' x = m x) -> s_size m' a = s_size m a.
Proof. unfold s_size, hsize. intros H. apply ld_ext. intros x Hx. apply H. lia. Qed.

Definition put_ptr (m : memory) (a v : Z) : memory := st 8 m a v.
Definition put_size (m : memory) (a v : Z) : memory := st 4 m (a + 8) v.

Lemma put_ptr_out m a v x : x < a \/ a + hsize <= x -> put_ptr m a v x = m x.
Proof. unfold hsize. intros H. apply st_out. lia. Qed.

Lemma put_size_out m a v x : x < a \/ a + hsize <= x -> put_size m a v x = m x.
Proof. unfold hsize. intros H. apply st_out. lia. Qed.

Lemma s_ptr_put_ptr m a v : 0 <= v < 2 ^ 64 -> s_ptr (put_ptr m a v) a = v.
Proof. intros Hv. unfold s_ptr, put_ptr. rewrite ld_st. by apply Z.mod_small. Qed.

Lemma s_size_put_size m a v : 0 <= v < 2 ^ 32 -> s_size (put_size m a v) a = v.
Proof. intros Hv. unfold s_size, put_size. rewrite ld_st. by apply Z.mod_small. Qed.

Lemma s_ptr_put_size m a v : s_ptr (put_size m a v) a = s_ptr m a.
Proof. apply ld_ext. intros x Hx. apply st_out. lia. Qed.

Lemma s_size_put_ptr m a v : s_size (put_ptr m a v) a = s_size m a.
Proof. apply ld_ext. intros x Hx. apply st_out. lia. Qed.

Lemma s_ptr_other m m' a b : (forall x, x < b \/ b + hsize <= x -> m' x = m x) -> a + hsize <= b \/ b + hsize <= a -> s_ptr m' a = s_ptr m a.
Proof. intros H Hab. apply s_ptr_ext. intros x Hx. apply H. unfold hsize in *. lia. Qed.

Lemma s_size_other m m' a b : (forall x, x < b \/ b + hsize <= x -> m' x = m x) -> a + hsize <= b \/ b + hsize <= a -> s_size m' a = s_size m a.
Proof. intros H Hab. apply s_size_ext. intros x Hx. apply H. unfold hsize in *. lia. Qed.

(** A segment of the list from [p] up to [q]. *)
Fixpoint lseg (m : memory) (p q : Z) (bs : list block) : Prop :=
  match bs with
  | [] => p = q
  | b :: bs' => p = b.1 /\ s_size m p = b.2 /\ lseg m (s_ptr m p) q bs'
  end.

Lemma lseg_app m l : forall p q r, lseg m p q (l ++ r) <-> exists y, lseg m p y l /\ lseg m y q r.
Proof.
  induction l as [|b l IH]; intros p q r; cbn [app lseg].
  - split; [intros H; by exists p|by intros (y & -> & H)].
  - split.
    + intros (-> & Hs & (y & H1 & H2)%IH). by exists y.
    + intros (y & (-> & Hs & H1) & H2). split; [done|]. split; [done|]. apply IH. by exists y.
Qed.

Lemma lseg_mid m p q l a k r : lseg m p q (l ++ (a, k) :: r) <-> lseg m p a l /\ s_size m a = k /\ lseg m (s_ptr m a) q r.
Proof.
  rewrite lseg_app. split.
  - intros (y & H1 & -> & H2 & H3). done.
  - intros (H1 & H2 & H3). by exists a.
Qed.

Definition next (q : Z) (bs : list block) : Z := match bs with [] => q | b :: _ => b.1 end.

Lemma lseg_next m p q bs : lseg m p q bs -> p = next q bs.
Proof. destruct bs as [|b bs]; cbn; [done|by intros [-> _]]. Qed.

Lemma lseg_ext m m' bs : forall p q, (forall b, b ∈ bs -> forall x, b.1 <= x < b.1 + hsize -> m' x = m x) -> lseg m p q bs -> lseg m' p q bs.
Proof.
  induction bs as [|b bs IH]; intros p q He; cbn [lseg]; [done|]. intros (-> & Hs & Hl).
  assert (forall x, b.1 <= x < b.1 + hsize -> m' x = m x) as Hb by (apply He; left).
  split; [done|]. rewrite (s_size_ext m m'), (s_ptr_ext m m') by done. split; [done|]. apply IH; [|done].
  intros b' Hb'. apply He. by right.
Qed.

Lemma lseg_other m m' a bs p q : (forall x, x < a \/ a + hsize <= x -> m' x = m x) ->
  (forall b, b ∈ bs -> b.1 + hsize <= a \/ a + hsize <= b.1) -> lseg m p q bs -> lseg m' p q bs.
Proof. intros He Hb. apply lseg_ext. intros b Hin x Hx. apply He. specialize (Hb b Hin). unfold hsize in *. lia. Qed.

(** ** The arena *)

Section arena.
(** The address of the static header, and how far [sbrk] may move the break. *)
Context (base lim : Z).

Record block_ok (brk : Z) (b : block) : Prop := {
  bo_above : base + hsize <= b.1;
  bo_size : 1 <= b.2;
  bo_below : bend b <= brk;
  bo_aligned : b.1 mod hsize = 0
}.

(** [fl] are the free blocks, [al] the blocks in use. A byte is in one of them
    at most. *)
Record heap (fl al : list block) (s : ustate) (brk : Z) : Prop := {
  hp_list : lseg (umem s) base base ((base, 0) :: fl);
  hp_sorted : StronglySorted apart ((base, 0) :: fl);
  hp_size : Forall (fun b => s_size (umem s) b.1 = b.2) al;
  hp_blocks : Forall (block_ok brk) (fl ++ al);
  hp_cover : forall x, cover (fl ++ al) x <= 1;
  hp_freep : freep s ∈ ((base, 0) :: fl).*1;
  hp_brk : 0 < base /\ base + hsize <= brk <= lim /\ lim <= 2 ^ 36;
  hp_brk_aligned : brk mod hsize = 0
}.

(** What the allocator may change: its static header and the free blocks. *)
Definition kept_but (fl : list block) (m m' : memory) : Prop :=
  forall x, cover fl x = 0 -> x < base \/ base + hsize <= x -> m' x = m x.

Lemma block_free fl al s brk b : heap fl al s brk -> b ∈ fl -> block_ok brk b.
Proof. intros [] Hb. rewrite Forall_forall in hp_blocks0. apply hp_blocks0, elem_of_app. by left. Qed.

Lemma block_used fl al s brk b : heap fl al s brk -> b ∈ al -> block_ok brk b.
Proof. intros [] Hb. rewrite Forall_forall in hp_blocks0. apply hp_blocks0, elem_of_app. by right. Qed.

Lemma header_in brk b x : block_ok brk b -> b.1 <= x < b.1 + hsize -> b.1 <= x < bend b.
Proof. intros [] Hx. unfold bend, hsize in *. lia. Qed.

(** Two blocks that no byte is in both of. *)
Lemma blocks_sep brk b b' : block_ok brk b -> block_ok brk b' ->
  (forall x, covers b x + covers b' x <= 1) -> bend b <= b'.1 \/ bend b' <= b.1.
Proof.
  intros H1 H2 Hc. destruct (decide (bend b <= b'.1 \/ bend b' <= b.1)) as [|Hn]; [done|].
  specialize (Hc (Z.max b.1 b'.1)). destruct H1, H2. unfold bend, hsize in *.
  rewrite !covers_in in Hc by (unfold bend, hsize; lia). lia.
Qed.

Lemma used_sep fl al s brk b b' : heap fl (b :: al) s brk -> b' ∈ fl -> bend b <= b'.1 \/ bend b' <= b.1.
Proof.
  intros Hh Hb'. eapply blocks_sep; [eapply block_used; [done|left]|by eapply block_free|].
  intros x. pose proof (hp_cover _ _ _ _ Hh x) as Hc. rewrite cover_app, cover_cons in Hc.
  apply list_elem_of_split in Hb' as (l & r & ->). rewrite cover_app, cover_cons in Hc.
  pose proof (cover_nonneg l x). pose proof (cover_nonneg r x). pose proof (cover_nonneg al x). lia.
Qed.

(** The header of a used block and the headers of the list. *)
Lemma used_header fl al s brk b b' : heap fl (b :: al) s brk -> b' ∈ (base, 0) :: fl -> b'.1 + hsize <= b.1 \/ b.1 + hsize <= b'.1.
Proof.
  intros Hh Hb'. assert (block_ok brk b) as [] by (eapply block_used; [done|left]).
  apply elem_of_cons in Hb' as [->|Hb']; [cbn; lia|]. destruct (used_sep _ _ _ _ _ _ Hh Hb'); destruct (block_free _ _ _ _ _ Hh Hb');
    unfold bend, hsize in *; lia.
Qed.

Lemma list_block fl al s brk b : heap fl al s brk -> b ∈ (base, 0) :: fl -> b = (base, 0) \/ block_ok brk b.
Proof. intros Hh [->|Hb]%elem_of_cons; [by left|right; by eapply block_free]. Qed.

Lemma list_bounds fl al s brk b : heap fl al s brk -> b ∈ (base, 0) :: fl -> 0 < b.1 < 2 ^ 36 /\ 0 <= b.2 < 2 ^ 32 /\ base <= b.1 /\ bend b <= brk.
Proof.
  intros Hh Hb. pose proof (hp_brk _ _ _ _ Hh) as (? & ? & ?). destruct (list_block _ _ _ _ _ Hh Hb) as [->|[]]; unfold bend, hsize in *; cbn [fst snd] in *; lia.
Qed.

Lemma next_range fl al s brk r : heap fl al s brk -> (forall y, y ∈ r -> y ∈ (base, 0) :: fl) -> 0 <= next base r < 2 ^ 64.
Proof.
  intros Hh Hr. pose proof (hp_brk _ _ _ _ Hh) as (? & ? & ?). destruct r as [|z r]; cbn [next]; [unfold hsize in *; lia|].
  destruct (list_bounds _ _ _ _ z Hh); [apply Hr; left|lia].
Qed.

(** The blocks of the list on both sides of one of them. *)
Lemma list_sides fl al s brk l b r : heap fl al s brk -> (base, 0) :: fl = l ++ b :: r ->
  (forall y, y ∈ l -> y.1 + hsize <= b.1 /\ bend y < b.1) /\ (forall y, y ∈ r -> b.1 + hsize <= y.1 /\ bend b < y.1).
Proof.
  intros Hh E. pose proof (hp_sorted _ _ _ _ Hh) as Hs. rewrite E in Hs.
  apply StronglySorted_app in Hs as (H1 & _ & H2). apply StronglySorted_inv in H2 as [_ H2]. rewrite Forall_forall in H2.
  assert (forall y, y ∈ l ++ b :: r -> y = (base, 0) \/ block_ok brk y) as Hok by (intros y Hy; eapply list_block; [done|by rewrite E]).
  split; intros y Hy.
  - assert (bend y < b.1) as Hlt by (apply (H1 y b); [done|left]). split; [|done].
    destruct (Hok y) as [->|[]]; [apply elem_of_app; by left| |unfold bend, hsize in *; lia].
    destruct (Hok b) as [->|[]]; [apply elem_of_app; right; left|unfold bend in Hlt; cbn in Hlt; lia|by cbn].
  - assert (bend b < y.1) as Hlt by by apply H2. split; [|done].
    destruct (Hok b) as [->|[]]; [apply elem_of_app; right; left| |unfold bend, hsize in *; lia].
    destruct (Hok y) as [->|[]]; [apply elem_of_app; right; by right|unfold bend in Hlt; cbn in Hlt; lia|by cbn].
Qed.

(** ** Walking round the circle *)

(** The position after [i] among [k]. *)
Definition nxt (k i : nat) : nat := if decide (S i < k)%nat then S i else 0%nat.

(** The number of steps from [i] to [t]. *)
Definition dist (k i t : nat) : nat := if decide (i <= t)%nat then (t - i)%nat else (k + t - i)%nat.

Lemma nxt_lt k i : (0 < k)%nat -> (nxt k i < k)%nat.
Proof. unfold nxt. destruct (decide _); lia. Qed.

Lemma dist_lt k i t : (i < k)%nat -> (t < k)%nat -> (dist k i t < k)%nat.
Proof. unfold dist. destruct (decide _); lia. Qed.

Lemma dist_nxt k i t : (i < k)%nat -> (t < k)%nat -> i <> t -> (S (dist k (nxt k i) t) = dist k i t)%nat.
Proof. unfold dist, nxt. intros. repeat destruct (decide _); lia. Qed.

Lemma dist_nxt_self k i : (i < k)%nat -> (dist k (nxt k i) i = k - 1)%nat.
Proof. unfold dist, nxt. intros. repeat destruct (decide _); lia. Qed.

Lemma dist_inj k i j t : (i < k)%nat -> (j < k)%nat -> (t < k)%nat -> dist k i t = dist k j t -> i = j.
Proof. unfold dist. intros. repeat destruct (decide _); lia. Qed.

Lemma ring_step m q (c : list block) i b : lseg m q q c -> c !! i = Some b ->
  s_size m b.1 = b.2 /\ exists b', c !! nxt (length c) i = Some b' /\ s_ptr m b.1 = b'.1.
Proof.
  intros Hl Hi. destruct (list_elem_of_split_length _ _ _ Hi) as (l & r & -> & ->). destruct b as [a k].
  apply lseg_mid in Hl as Hl'. destruct Hl' as (H1 & H2 & H3). split; [done|]. unfold nxt. rewrite length_app. cbn [length].
  destruct r as [|b' r]; [rewrite decide_False by (cbn; lia)|rewrite decide_True by (cbn; lia)].
  - cbn in H3. destruct l as [|b l]; cbn in *; [exists (a, k); split; [done|]; cbn; congruence|]. exists b. split; [done|]. rewrite H3. by destruct H1.
  - exists b'. rewrite lookup_app_r by lia. replace (S (length l) - length l)%nat with 1%nat by lia. split; [done|]. by destruct H3.
Qed.

Section code.
Context {W : Type} `{OS W} (X : Z -> W -> Prop).

(** The last block of the list below an address. *)
Lemma find_below (c : list block) v b0 : c !! 0%nat = Some b0 -> b0.1 < v -> (forall b, b ∈ c -> b.1 <> v) ->
  exists t b, c !! t = Some b /\ b.1 < v /\ forall b', c !! S t = Some b' -> v < b'.1.
Proof.
  revert b0. induction c as [|b1 c IH]; [done|]. intros b0 [= ->] Hlt Hne. destruct c as [|b2 c].
  { exists 0%nat, b0. done. }
  destruct (decide (b2.1 < v)) as [Hlt2|Hge].
  - destruct (IH b2 eq_refl Hlt2) as (t & b & Ht & Hb & Hs); [intros b Hb; apply Hne; by right|]. by exists (S t), b.
  - exists 0%nat, b0. split; [done|]. split; [done|]. intros b' [= <-]. assert (b2.1 <> v) by (apply Hne; right; left). lia.
Qed.

Lemma list_sorted_at fl al s brk i j b b' : heap fl al s brk -> ((base, 0) :: fl) !! i = Some b -> ((base, 0) :: fl) !! j = Some b' -> (i < j)%nat ->
  bend b < b'.1 /\ b.1 + hsize <= b'.1.
Proof.
  intros Hh Hi Hj Hij. destruct (list_elem_of_split_length _ _ _ Hi) as (l & r & E & ->).
  destruct (list_sides _ _ _ _ _ _ _ Hh E) as [_ Hr]. rewrite E, lookup_app_r in Hj by lia.
  replace (j - length l)%nat with (S (j - length l - 1)) in Hj by lia. cbn in Hj. apply list_elem_of_lookup_2 in Hj.
  destruct (Hr _ Hj). done.
Qed.

Lemma uwp_free_find fl al s brk b n w (Q : Z -> ustate -> W -> Prop) : heap fl (b :: al) s brk -> (length fl + 1 < n)%nat ->
  (forall l p r, (base, 0) :: fl = l ++ p :: r -> p.1 < b.1 -> (forall y, y ∈ r -> b.1 < y.1) -> Q p.1 s w) ->
  uwp X (free_find b.1) n s w Q.
Proof.
  intros Hh Hn HQ. set (c := (base, 0) :: fl) in *. assert (length c = S (length fl)) as Hlen by done.
  assert (block_ok brk b) as Hb by (eapply block_used; [done|left]).
  assert (base < b.1) as Hb0 by (destruct Hb; unfold hsize in *; lia).
  destruct (find_below c b.1 (base, 0)) as (t & bt & Ht & Hbt & Hnext); [done|done| |].
  { intros b' Hb'. destruct (used_header _ _ _ _ _ _ Hh Hb'); unfold hsize in *; lia. }
  assert (forall i p, c !! i = Some p -> p.1 < b.1 -> (forall b', c !! S i = Some b' -> b.1 < b'.1) -> Q p.1 s w) as Hdone.
  { intros i p Hi Hp Hs. destruct (list_elem_of_split_length _ _ _ Hi) as (l & r & E & ->). apply (HQ l p r); [done|done|].
    intros y (j & Hj)%list_elem_of_lookup_1. destruct r as [|b' r]; [done|].
    assert (c !! S (length l) = Some b') as E' by (by rewrite E, lookup_app_r, Nat.sub_succ_l, Nat.sub_diag by lia).
    specialize (Hs _ E'). destruct j as [|j]; [by injection Hj as <-|].
    assert (c !! (length l + S (S j))%nat = Some y) as Ey by (rewrite E, lookup_app_r by lia; by replace (length l + S (S j) - length l)%nat with (S (S j)) by lia).
    destruct (list_sorted_at _ _ _ _ _ _ _ _ Hh E' Ey) as [_ Hy]; [lia|]. unfold hsize in Hy. lia. }
  destruct (proj1 (list_elem_of_fmap _ _ _) (hp_freep _ _ _ _ Hh)) as (bf & Ef & (f & Hf)%list_elem_of_lookup_1).
  unfold free_find. apply uwp_bind, uwp_get. pose proof (lookup_lt_Some _ _ _ Ht) as Htl. pose proof (lookup_lt_Some _ _ _ Hf) as Hfl.
  apply (uwp_loop _ _ (fun k p s' w' => s' = s /\ w' = w /\ exists i b, c !! i = Some b /\ p = b.1 /\ k = dist (length c) i t)) with (k := dist (length c) f t);
    [|pose proof (dist_lt (length c) f t Hfl Htl); lia|split_and!; [done|done|]; by exists f, bf].
  intros k p s' w' (-> & -> & i & bi & Hi & -> & ->). apply uwp_bind, uwp_get.
  destruct (ring_step _ _ _ _ _ (hp_list _ _ _ _ Hh) Hi) as (_ & bn & Hbn & ->). pose proof (lookup_lt_Some _ _ _ Hi) as Hil.
  fold c in Hbn. unfold nxt in Hbn. destruct (decide (S i < length c)%nat) as [Hlt|Hge].
  - destruct (list_sorted_at _ _ _ _ _ _ _ _ Hh Hi Hbn) as [_ Ho]; [lia|]. unfold hsize in Ho.
    rewrite (proj2 (Z.leb_gt bn.1 bi.1)) by lia. cbn [andb].
    destruct (Z.ltb_spec bi.1 b.1) as [H1|H1], (Z.ltb_spec b.1 bn.1) as [H2|H2]; cbn [andb]; apply uwp_ret;
      try (apply (Hdone i); [done|done|]; intros b' Hb'; rewrite Hbn in Hb'; by injection Hb' as <-).
    all: exists (dist (length c) (S i) t); split; [|split_and!; [done|done|]; by exists (S i), bn].
    all: assert (i <> t) as Hit by (intros ->; rewrite Hi in Ht; injection Ht as <-; specialize (Hnext _ Hbn); lia).
    all: pose proof (dist_nxt (length c) i t Hil Htl Hit) as Hd; unfold nxt in Hd; rewrite decide_True in Hd by done; lia.
  - injection Hbn as <-. cbn [fst].
    assert (base <= bi.1) as Hbase by (eapply list_bounds; [done|by eapply list_elem_of_lookup_2]).
    rewrite (proj2 (Z.ltb_ge b.1 base)), andb_false_r, (proj2 (Z.leb_le base bi.1)), orb_false_r by lia. cbn [andb].
    destruct (Z.ltb_spec bi.1 b.1) as [H1|H1]; apply uwp_ret.
    + apply (Hdone i); [done|done|]. intros b' Hb'%lookup_lt_Some. lia.
    + exists (dist (length c) 0 t). split; [|split_and!; [done|done|]; by exists 0%nat, (base, 0)].
      assert (i <> t) as Hit by (intros ->; rewrite Hi in Ht; injection Ht as <-; lia).
      pose proof (dist_nxt (length c) i t Hil Htl Hit) as Hd. unfold nxt in Hd. rewrite decide_False in Hd by done. lia.
Qed.

(** ** [free] *)

(** The list with the blocks from one of them on replaced. *)
Lemma reshape fl l p r p' r' : (base, 0) :: fl = l ++ p :: r -> (l = [] -> p' = p) ->
  exists fl', (base, 0) :: fl' = l ++ p' :: r' /\ forall x, cover fl' x + covers p x + cover r x = cover fl x + covers p' x + cover r' x.
Proof.
  intros E Hp. destruct l as [|b l]; cbn in E.
  - injection E as <- ->. rewrite Hp by done. exists r'. split; [done|]. intros x. lia.
  - injection E as <- ->. exists (l ++ p' :: r'). split; [done|]. intros x. rewrite !cover_app, !cover_cons. lia.
Qed.

Lemma heap_rebuild fl fl' b al s brk m' q : heap fl (b :: al) s brk -> lseg m' base base ((base, 0) :: fl') -> StronglySorted apart ((base, 0) :: fl') ->
  (forall y, y ∈ fl' -> y = (base, 0) \/ block_ok brk y) -> (forall x, cover fl' x = cover fl x + covers b x) ->
  kept_but fl' (umem s) m' -> q ∈ ((base, 0) :: fl').*1 -> heap fl' al (mkU m' q) brk.
Proof.
  intros Hh Hl Hs Hb Hc Hk Hq. assert (forall y, y ∈ al -> block_ok brk y) as Hal by (intros y Hy; eapply block_used; [done|by right]).
  assert (forall x, cover (fl' ++ al) x <= 1) as Hc'.
  { intros x. pose proof (hp_cover _ _ _ _ Hh x) as H1. rewrite cover_app, cover_cons in H1. rewrite cover_app, Hc. lia. }
  split; try done; cbn [umem freep].
  - apply Forall_forall. intros y Hy. pose proof (hp_size _ _ _ _ Hh) as Hsz. rewrite Forall_forall in Hsz.
    rewrite <-(Hsz y) by (by right). apply s_size_ext. intros x Hx. pose proof (Hal y Hy) as Hoy.
    apply Hk; [|destruct Hoy; unfold hsize in *; lia]. specialize (Hc' x). rewrite cover_app in Hc'.
    pose proof (cover_in y al x Hy (header_in _ _ _ Hoy Hx)). pose proof (cover_nonneg fl' x). lia.
  - apply Forall_app. split; apply Forall_forall; [|done]. intros y Hy. destruct (Hb y Hy) as [->|]; [|done].
    apply StronglySorted_inv in Hs as [_ Hs]. rewrite Forall_forall in Hs. specialize (Hs _ Hy). unfold apart, bend in Hs. cbn in Hs. lia.
  - apply Hh.
  - apply Hh.
Qed.

(** The freed block, joined with the block behind it if they touch. *)
Record joined (brk : Z) (b : block) (r : list block) (m m1 : memory) (k : Z) (r1 : list block) : Prop := {
  jn_size : s_size m1 b.1 = k;
  jn_ptr : s_ptr m1 b.1 = next base r1;
  jn_rest : lseg m (next base r1) base r1;
  jn_out : forall x, x < b.1 \/ b.1 + hsize <= x -> m1 x = m x;
  jn_cover : forall x, covers (b.1, k) x + cover r1 x = covers b x + cover r x;
  jn_sub : forall y, y ∈ r1 -> y ∈ r;
  jn_len : (length r1 <= length r)%nat;
  jn_more : b.2 <= k;
  jn_sorted : StronglySorted apart ((b.1, k) :: r1);
  jn_ok : block_ok brk (b.1, k)
}.

Lemma join_up fl al s brk b l p r : heap fl (b :: al) s brk -> (base, 0) :: fl = l ++ p :: r -> (forall y, y ∈ r -> b.1 < y.1) ->
  let m := umem s in let nx := next base r in
  exists k r1, joined brk b r m
    (if bend b =? nx then put_ptr (put_size m b.1 (b.2 + s_size m nx)) b.1 (s_ptr m nx) else put_ptr m b.1 nx) k r1.
Proof.
  intros Hh E Hr m nx. assert (block_ok brk b) as Hb by (eapply block_used; [done|left]).
  pose proof (hp_list _ _ _ _ Hh) as Hl. rewrite E in Hl. destruct p as [a ka]. apply lseg_mid in Hl as (_ & _ & Hl). pose proof (lseg_next _ _ _ _ Hl) as En. rewrite En in Hl. fold nx m in Hl.
  assert (forall y, y ∈ r -> y ∈ (base, 0) :: fl) as Hin by (intros y Hy; rewrite E; apply elem_of_app; right; by right).
  assert (forall y, y ∈ r -> y ∈ fl /\ bend b <= y.1) as Hsep.
  { intros y Hy. specialize (Hr y Hy). pose proof (Hin y Hy) as Hy'. apply elem_of_cons in Hy' as [->|Hy']; [destruct Hb; unfold hsize in *; cbn in Hr; lia|].
    split; [done|]. destruct (used_sep _ _ _ _ _ _ Hh Hy') as [|Hs]; [done|]. destruct (block_free _ _ _ _ _ Hh Hy'). unfold bend, hsize in *. lia. }
  assert (StronglySorted apart r) as Hsr.
  { pose proof (hp_sorted _ _ _ _ Hh) as Hs. rewrite E in Hs. apply StronglySorted_app in Hs as (_ & _ & Hs). by apply StronglySorted_inv in Hs as [Hs _]. }
  pose proof (hp_brk _ _ _ _ Hh) as (Hb0 & Hbrk & Hlim).
  assert (s_size m b.1 = b.2) as Hsz by (pose proof (hp_size _ _ _ _ Hh) as H1; by apply Forall_cons in H1 as [H1 _]).
  destruct (Z.eqb_spec (bend b) nx) as [Ej|Ej].
  - destruct r as [|y r1]; [destruct Hb; unfold bend, hsize, nx in *; cbn in *; lia|]. cbn [next] in nx. destruct y as [ay ky].
    destruct (Hsep (ay, ky)) as [Hy Hby]; [left|]. cbn [fst] in Hby. destruct Hl as (_ & Hky & Hl). pose proof (lseg_next _ _ _ _ Hl) as Enn. unfold nx in *. cbn [fst snd] in *.
    assert (block_ok brk (ay, ky)) as Hoy by (by eapply block_free).
    assert (0 <= next base r1 < 2 ^ 64) as Hrange by (eapply next_range; [done|]; intros y Hy'; apply Hin; by right).
    assert (forall y, y ∈ r1 -> bend (ay, ky) < y.1) as Har.
    { apply StronglySorted_inv in Hsr as [_ Hsr]. by rewrite Forall_forall in Hsr. }
    rewrite Hky, Enn. exists (b.2 + ky), r1. destruct Hb, Hoy. unfold bend, hsize in *. cbn [fst snd] in *. split.
    + rewrite s_size_put_ptr, s_size_put_size; [done|]. lia.
    + by rewrite s_ptr_put_ptr.
    + by rewrite <-Enn.
    + intros x Hx. by rewrite put_ptr_out, put_size_out.
    + intros x. rewrite cover_cons, covers_split by lia. unfold hsize. rewrite Ej. destruct b. cbn. lia.
    + intros y Hy'. by right.
    + cbn. lia.
    + lia.
    + apply StronglySorted_inv in Hsr as [Hsr _]. apply SSorted_cons; [done|]. apply Forall_forall. intros y Hy'. specialize (Har y Hy').
      unfold apart, bend, hsize in *. cbn [fst snd] in *. lia.
    + split; unfold bend, hsize in *; cbn [fst snd] in *; try lia; done.
  - exists b.2, r. split; try done.
    + by rewrite s_size_put_ptr.
    + rewrite s_ptr_put_ptr; [done|]. by eapply next_range.
    + intros x Hx. by rewrite put_ptr_out.
    + apply SSorted_cons; [done|]. apply Forall_forall. intros y Hy. destruct r as [|z r]; [by apply elem_of_nil in Hy|].
      unfold apart. change (bend (b.1, b.2)) with (bend b). cbn [next] in nx. unfold nx in *. destruct (Hsep z) as [Hz1 Hz2]; [left|].
      assert (bend b < z.1) by lia. apply elem_of_cons in Hy as [->|Hy]; [done|]. apply StronglySorted_inv in Hsr as [_ Hsr]. rewrite Forall_forall in Hsr.
      specialize (Hsr _ Hy). unfold apart in Hsr. destruct (block_free _ _ _ _ _ Hh Hz1). unfold bend, hsize in *. lia.
    + by destruct b.
Qed.

(** The block before it takes it in if they touch, or points to it. *)
Record spliced (brk : Z) (b : block) (l : list block) (p : block) (r : list block) (m2 : memory) (p' : block) (r' : list block) : Prop := {
  sp_base : l = [] -> p' = p;
  sp_addr : p'.1 = p.1;
  sp_size : s_size m2 p.1 = p'.2;
  sp_rest : lseg m2 (s_ptr m2 p.1) base r';
  sp_cover : forall x, covers p' x + cover r' x = covers p x + covers b x + cover r x;
  sp_sorted : StronglySorted apart (p' :: r');
  sp_ok : forall y, y ∈ p' :: r' -> y = p \/ y ∈ r \/ block_ok brk y;
  sp_big : exists b', b' ∈ p' :: r' /\ b.2 <= b'.2;
  sp_len : (length r' <= S (length r))%nat
}.

Section join.
Context fl al s brk b l p r m1 k r1 (Hh : heap fl (b :: al) s brk) (E : (base, 0) :: fl = l ++ p :: r) (Hpb : p.1 < b.1)
  (Hr : forall y, y ∈ r -> b.1 < y.1) (J : joined brk b r (umem s) m1 k r1).

Let m2 := if bend p =? b.1 then put_ptr (put_size m1 p.1 (p.2 + k)) p.1 (s_ptr m1 b.1) else put_ptr m1 p.1 b.1.

Lemma join_in y : y ∈ l \/ y = p \/ y ∈ r -> y ∈ (base, 0) :: fl.
Proof. rewrite E. intros [Hy|[->|Hy]]; apply elem_of_app; [by left|right; left|right; by right]. Qed.

Lemma join_before : p.1 + hsize <= b.1 /\ bend p <= b.1.
Proof.
  assert (block_ok brk b) as Hb by (eapply block_used; [done|left]). assert (p ∈ (base, 0) :: fl) as Hp by (apply join_in; auto).
  split; [destruct (used_header _ _ _ _ _ _ Hh Hp); unfold hsize in *; lia|].
  apply elem_of_cons in Hp as [->|Hp]; [unfold bend; cbn in *; lia|].
  destruct (used_sep _ _ _ _ _ _ Hh Hp) as [Hs|]; [|done]. destruct Hb. unfold bend, hsize in *. lia.
Qed.

Lemma join_frame y : y ∈ l \/ y ∈ r -> forall x, y.1 <= x < y.1 + hsize -> m2 x = umem s x.
Proof.
  intros Hy x Hx. destruct (list_sides _ _ _ _ _ _ _ Hh E) as [Sl Sr].
  assert (m2 x = m1 x) as ->.
  { unfold m2. assert (x < p.1 \/ p.1 + hsize <= x) by (destruct Hy as [Hy|Hy]; [destruct (Sl y Hy)|destruct (Sr y Hy)]; unfold hsize in *; lia).
    destruct (_ =? _); by rewrite ?put_ptr_out, ?put_size_out. }
  apply (jn_out _ _ _ _ _ _ _ J). assert (y ∈ (base, 0) :: fl) as Hin by (apply join_in; tauto).
  destruct (used_header _ _ _ _ _ _ Hh Hin); unfold hsize in *; lia.
Qed.

Lemma join_rest : lseg m2 (next base r1) base r1 /\ 0 <= next base r1 < 2 ^ 64.
Proof.
  assert (forall y, y ∈ r1 -> y ∈ r) as Hsub by apply (jn_sub _ _ _ _ _ _ _ J). split.
  - eapply lseg_ext; [|apply (jn_rest _ _ _ _ _ _ _ J)]. intros y Hy. apply join_frame. right. by apply Hsub.
  - eapply next_range; [done|]. intros y Hy. apply join_in. auto.
Qed.

Lemma splice : exists p' r', spliced brk b l p r m2 p' r'.
Proof.
  destruct join_before as [B1 B2]. destruct join_rest as [Hl Hn]. assert (p ∈ (base, 0) :: fl) as Hp by (apply join_in; auto).
  destruct (list_bounds _ _ _ _ _ Hh Hp) as (Bp1 & Bp2 & Bp3 & Bp4). pose proof (hp_brk _ _ _ _ Hh) as (Hb0 & Hbrk & Hlim).
  pose proof (jn_ok _ _ _ _ _ _ _ J) as Jok. pose proof (jn_more _ _ _ _ _ _ _ J) as Hmore. pose proof (jn_cover _ _ _ _ _ _ _ J) as Hcov.
  pose proof (jn_sorted _ _ _ _ _ _ _ J) as Sj. apply StronglySorted_inv in Sj as Sj'. destruct Sj' as [Sr1 Fr1]. rewrite Forall_forall in Fr1.
  pose proof (jn_len _ _ _ _ _ _ _ J) as Hlen. pose proof (jn_sub _ _ _ _ _ _ _ J) as Hsub.
  assert (block_ok brk b) as Hb by (eapply block_used; [done|left]).
  unfold m2. destruct (Z.eqb_spec (bend p) b.1) as [Ej|Ej].
  - assert (block_ok brk p) as Hpo.
    { destruct (list_block _ _ _ _ _ Hh Hp) as [->|]; [|done]. destruct Hb. unfold bend, hsize in *. cbn in *. lia. }
    exists (p.1, p.2 + k), r1. destruct Jok as [J1 J2 J3 J4]. unfold bend, hsize in J1, J3. cbn [fst snd] in *. split; cbn [fst snd].
    + intros ->. injection E as <- _. destruct Hpo. unfold hsize in *. cbn in *. lia.
    + done.
    + destruct Hb, Hpo. rewrite s_size_put_ptr, s_size_put_size; [done|]. unfold bend, hsize in *. lia.
    + rewrite (jn_ptr _ _ _ _ _ _ _ J), s_ptr_put_ptr by done. revert Hl. unfold m2. by rewrite (jn_ptr _ _ _ _ _ _ _ J).
    + intros x. rewrite covers_split by lia. change (p.1 + hsize * p.2) with (bend p). rewrite Ej. specialize (Hcov x). destruct p. cbn in *. lia.
    + apply SSorted_cons; [done|]. apply Forall_forall. intros y Hy. specialize (Fr1 _ Hy). unfold apart, bend, hsize in *. cbn [fst snd] in *. lia.
    + intros y [->|Hy]%elem_of_cons; [|right; left; by apply Hsub]. right. right. destruct Hpo.
      split; unfold bend, hsize in *; cbn [fst snd] in *; try lia; done.
    + exists (p.1, p.2 + k). split; [left|]. cbn. lia.
    + lia.
  - exists p, ((b.1, k) :: r1). split.
    + done.
    + done.
    + rewrite s_size_put_ptr. pose proof (hp_list _ _ _ _ Hh) as Hls. rewrite E in Hls. destruct p as [a ka]. apply lseg_mid in Hls as (_ & Hls & _).
      cbn [fst snd] in *. rewrite (s_size_other (umem s) m1 a b.1); [done|apply (jn_out _ _ _ _ _ _ _ J)|]. by left.
    + destruct Hb. rewrite s_ptr_put_ptr by (unfold bend, hsize in *; lia).
      assert (forall x, x < p.1 \/ p.1 + hsize <= x -> put_ptr m1 p.1 b.1 x = m1 x) as Ho by (intros x; apply put_ptr_out).
      split; [done|]. rewrite (s_size_other m1 _ b.1 p.1), (s_ptr_other m1 _ b.1 p.1) by (done || by right). cbn [fst snd].
      split; [apply (jn_size _ _ _ _ _ _ _ J)|]. rewrite (jn_ptr _ _ _ _ _ _ _ J). apply Hl.
    + intros x. rewrite cover_cons. specialize (Hcov x). lia.
    + apply SSorted_cons; [done|]. apply Forall_forall. intros y [->|Hy]%elem_of_cons; [unfold apart; cbn; lia|].
      specialize (Fr1 _ Hy). destruct Jok. unfold apart, bend, hsize in *. cbn [fst snd] in *. lia.
    + intros y [->|[->|Hy]%elem_of_cons]%elem_of_cons; [by left|right; by right|right; left; by apply Hsub].
    + exists (b.1, k). split; [right; left|done].
    + cbn. lia.
Qed.

Lemma join_kept fl' : (forall x, cover fl' x = cover fl x + covers b x) -> kept_but fl' (umem s) m2.
Proof.
  intros Hc x Hx Hbase. assert (block_ok brk b) as Hb by (eapply block_used; [done|left]).
  pose proof (cover_nonneg fl x). pose proof (covers_nonneg b x). specialize (Hc x).
  assert (m2 x = m1 x) as ->; [|apply (jn_out _ _ _ _ _ _ _ J)].
  - unfold m2. assert (x < p.1 \/ p.1 + hsize <= x); [|destruct (_ =? _); by rewrite ?put_ptr_out, ?put_size_out].
    assert (p ∈ (base, 0) :: fl) as [->|Hp]%elem_of_cons by (apply join_in; auto); [done|].
    destruct (cover_zero p fl x) as [|]; [lia|done|by left|]. pose proof (block_free _ _ _ _ _ Hh Hp) as []. unfold bend, hsize in *. lia.
  - destruct (decide (b.1 <= x < bend b)) as [Hin|]; [rewrite covers_in in Hc by done; lia|]. destruct Hb. unfold bend, hsize in *. lia.
Qed.

Lemma join_sorted p' r' : spliced brk b l p r m2 p' r' -> StronglySorted apart (l ++ p' :: r').
Proof.
  intros [S1 S2 S3 S4 S5 S6 S7 S8 S9]. pose proof (hp_sorted _ _ _ _ Hh) as Hs. rewrite E in Hs. apply StronglySorted_app in Hs as (_ & Hs & _).
  apply StronglySorted_app_2; [|done|done]. intros y z Hy Hz. destruct (list_sides _ _ _ _ _ _ _ Hh E) as [Sl _]. destruct (Sl y Hy) as [_ Hlt].
  unfold apart. apply elem_of_cons in Hz as [->|Hz]; [by rewrite S2|].
  apply StronglySorted_inv in S6 as [_ S6]. rewrite Forall_forall in S6. specialize (S6 _ Hz). unfold apart, bend in S6.
  assert (0 <= p'.2); [|unfold hsize in *; lia]. destruct (S7 p') as [->|[Hp|[]]]; [left| | |lia].
  - assert (p ∈ (base, 0) :: fl) as Hp by (apply join_in; auto). destruct (list_bounds _ _ _ _ _ Hh Hp). lia.
  - assert (p' ∈ (base, 0) :: fl) as Hp' by (apply join_in; auto). destruct (list_bounds _ _ _ _ _ Hh Hp'). lia.
Qed.

Lemma join_down : exists fl', heap fl' al (mkU m2 p.1) brk /\ (forall x, cover fl' x = cover fl x + covers b x) /\ kept_but fl' (umem s) m2 /\
  (exists b', b' ∈ fl' /\ b.2 <= b'.2) /\ (length fl' <= S (length fl))%nat.
Proof.
  destruct splice as (p' & r' & Sp). pose proof (join_sorted _ _ Sp) as Ss. destruct Sp as [S1 S2 S3 S4 S5 S6 S7 S8 S9].
  destruct (reshape fl l p r p' r' E S1) as (fl' & E' & Hc). assert (block_ok brk b) as Hb by (eapply block_used; [done|left]).
  assert (forall x, cover fl' x = cover fl x + covers b x) as Hcov by (intros x; specialize (Hc x); specialize (S5 x); lia).
  pose proof (join_kept fl' Hcov) as Hk. rewrite <-E' in Ss. exists fl'. split_and!; [|done|done| |].
  - apply (heap_rebuild fl fl' b al s brk); [done| |done| |done|done|].
    + pose proof (hp_list _ _ _ _ Hh) as Hl. rewrite E in Hl. rewrite (surjective_pairing p) in Hl. apply lseg_mid in Hl as (Hl & _).
      rewrite E', (surjective_pairing p'), S2. apply lseg_mid. split; [|done].
      eapply lseg_ext; [|exact Hl]. intros y Hy. apply join_frame. by left.
    + intros y Hy. assert (y ∈ (base, 0) :: fl') as Hy' by by right. rewrite E' in Hy'. apply elem_of_app in Hy' as [Hy'|Hy'].
      * eapply list_block; [done|]. apply join_in. by left.
      * destruct (S7 y Hy') as [->|[Hy''|]]; [| |by right]; (eapply list_block; [done|]; apply join_in; tauto).
    + rewrite E', fmap_app. apply elem_of_app. right. cbn. rewrite S2. left.
  - destruct S8 as (b' & Hin & Hbig). exists b'. split; [|done]. assert (b' ∈ (base, 0) :: fl') as Hb' by (rewrite E'; apply elem_of_app; by right).
    apply elem_of_cons in Hb' as [->|]; [destruct Hb; cbn in Hbig; lia|done].
  - apply (f_equal length) in E, E'. rewrite length_app in E, E'. cbn in E, E'. lia.
Qed.

End join.

Lemma uwp_free fl al s brk b n w (Q : unit -> ustate -> W -> Prop) : heap fl (b :: al) s brk -> (length fl + 1 < n)%nat ->
  (forall fl' s', heap fl' al s' brk -> (forall x, cover fl' x = cover fl x + covers b x) -> kept_but fl' (umem s) (umem s') ->
    (exists b', b' ∈ fl' /\ b.2 <= b'.2) -> (length fl' <= S (length fl))%nat -> Q tt s' w) ->
  uwp X (free (b.1 + hsize)) n s w Q.
Proof.
  intros Hh Hn HQ. unfold free. replace (b.1 + hsize - hsize) with b.1 by lia.
  apply uwp_bind, (uwp_free_find fl al s brk b n w); [done|done|]. intros l p r E Hp Hr.
  assert (s_size (umem s) b.1 = b.2) as Hsz by (pose proof (hp_size _ _ _ _ Hh) as H1; by apply Forall_cons in H1 as [H1 _]).
  assert (s_ptr (umem s) p.1 = next base r /\ s_size (umem s) p.1 = p.2) as [Hnx Hpsz].
  { pose proof (hp_list _ _ _ _ Hh) as Hl. rewrite E, (surjective_pairing p) in Hl. apply lseg_mid in Hl as (_ & H1 & H2). by apply lseg_next in H2. }
  destruct (join_up _ _ _ _ _ _ _ _ Hh E Hr) as (k & r1 & J). destruct (join_down _ _ _ _ _ _ _ _ _ _ _ Hh E Hp J) as (fl' & Hh' & Hc & Hk & Hbig & Hlen).
  set (m1 := if bend b =? next base r then _ else _) in J, Hh', Hk.
  edestruct join_before as [Hsep _]; [exact m1|exact k|exact Hh|exact E|exact Hp|].
  apply uwp_bind, uwp_get, uwp_bind, uwp_get. rewrite Hsz, Hnx. apply uwp_bind.
  assert (forall Q', Q' tt (set_umem m1 s) w -> uwp X (if b.1 + hsize * b.2 =? next base r
    then nsz ← get_size (next base r); set_size b.1 (b.2 + nsz);; nnx ← get_ptr (next base r); set_ptr b.1 nnx
    else set_ptr b.1 (next base r)) n s w Q') as Hup.
  { intros Q' H1. unfold m1 in H1. change (bend b) with (b.1 + hsize * b.2) in H1. destruct (Z.eqb_spec (b.1 + hsize * b.2) (next base r)) as [Ej|]; [|exact H1].
    set (ms := put_size (umem s) b.1 (b.2 + s_size (umem s) (next base r))) in *.
    change (Q' tt (set_umem (put_ptr ms b.1 (s_ptr ms (next base r))) s) w). rewrite (s_ptr_other (umem s) ms (next base r) b.1); [exact H1| |].
    - intros x Hx. by apply put_size_out.
    - right. destruct (block_used _ _ _ _ b Hh); [left|]. rewrite <-Ej. unfold hsize. lia. }
  apply Hup. unfold get_size, get_ptr. apply uwp_bind, uwp_get. cbn [umem set_umem].
  rewrite (s_size_other (umem s) m1 p.1 b.1), Hpsz; [|apply (jn_out _ _ _ _ _ _ _ J)|by left]. apply uwp_bind.
  change (p.1 + hsize * p.2) with (bend p). destruct (bend p =? b.1) eqn:Ej.
  - change (Q tt (mkU (put_ptr (put_size m1 p.1 (p.2 + s_size m1 b.1)) p.1 (s_ptr (put_size m1 p.1 (p.2 + s_size m1 b.1)) b.1)) p.1) w).
    rewrite (s_ptr_other m1 _ b.1 p.1), (jn_size _ _ _ _ _ _ _ J); [|intros x Hx; by apply put_size_out|by right]. by apply (HQ fl' (mkU _ p.1)).
  - change (Q tt (mkU (put_ptr m1 p.1 b.1) p.1) w). by apply (HQ fl' (mkU _ p.1)).
Qed.

End code.

(** ** [malloc] takes a block *)

Lemma heap_take fl fl' nb al s brk m' q : heap fl al s brk -> lseg m' base base ((base, 0) :: fl') -> StronglySorted apart ((base, 0) :: fl') ->
  (forall y, y ∈ fl' -> block_ok brk y) -> block_ok brk nb -> s_size m' nb.1 = nb.2 -> (forall x, cover fl' x + covers nb x = cover fl x) ->
  kept_but fl (umem s) m' -> q ∈ ((base, 0) :: fl').*1 -> heap fl' (nb :: al) (mkU m' q) brk.
Proof.
  intros Hh Hl Hs Hb Hnb Hsz Hc Hk Hq. pose proof (hp_cover _ _ _ _ Hh) as Hcov.
  split; try done; cbn [umem freep]; try apply Hh.
  - apply Forall_cons. split; [done|]. apply Forall_forall. intros y Hy. pose proof (hp_size _ _ _ _ Hh) as Hsy. rewrite Forall_forall in Hsy.
    rewrite <-(Hsy y) by done. apply s_size_ext. intros x Hx. pose proof (block_used _ _ _ _ _ Hh Hy) as Hoy.
    apply Hk; [|destruct Hoy; unfold hsize in *; lia]. specialize (Hcov x). rewrite cover_app in Hcov.
    pose proof (cover_in y al x Hy (header_in _ _ _ Hoy Hx)). pose proof (cover_nonneg fl x). lia.
  - apply Forall_app. split; apply Forall_forall; [done|]. intros y [->|Hy]%elem_of_cons; [done|]. by eapply block_used.
  - intros x. specialize (Hcov x). specialize (Hc x). rewrite cover_app, cover_cons. rewrite cover_app in Hcov. lia.
Qed.

Section take.
Context fl al s brk l q p r (Hh : heap fl al s brk) (E : (base, 0) :: fl = l ++ q :: p :: r) (nu : Z) (Hnu : 1 <= nu <= p.2).

Lemma take_block : block_ok brk p /\ p ∈ fl.
Proof.
  assert (p ∈ fl) as Hp; [|split; [by eapply block_free|done]].
  destruct l as [|b l']; injection E as <- E'; rewrite E'; [left|]. apply elem_of_app. right. right. left.
Qed.

Lemma take_in y : y ∈ l \/ y = q \/ y ∈ r -> y ∈ (base, 0) :: fl.
Proof. rewrite E. intros [Hy|[->|Hy]]; apply elem_of_app; [by left|right; left|right; right; by right]. Qed.

Lemma take_shape r' : exists fl', (base, 0) :: fl' = l ++ q :: r' /\ forall x, cover fl' x + covers p x + cover r x = cover fl x + cover r' x.
Proof.
  destruct (reshape fl l q (p :: r) q r' E) as (fl' & E' & Hc); [done|]. exists fl'. split; [done|].
  intros x. specialize (Hc x). rewrite cover_cons in Hc. lia.
Qed.

Lemma take_list : lseg (umem s) base q.1 l /\ s_size (umem s) q.1 = q.2 /\ s_ptr (umem s) q.1 = p.1 /\ s_size (umem s) p.1 = p.2 /\
  s_ptr (umem s) p.1 = next base r /\ lseg (umem s) (next base r) base r.
Proof.
  pose proof (hp_list _ _ _ _ Hh) as Hl. rewrite E, (surjective_pairing q) in Hl. apply lseg_mid in Hl as (H1 & H2 & H3 & H4 & H5).
  pose proof (lseg_next _ _ _ _ H5) as H6. rewrite H3 in H4, H5, H6. rewrite H6 in H5. done.
Qed.

(** The order of the headers. *)
Lemma take_sides : (forall y, y ∈ l -> y.1 + hsize <= q.1 /\ bend y < q.1 /\ bend y < p.1) /\ q.1 + hsize <= p.1 /\ bend q < p.1 /\
  (forall y, y ∈ r -> bend p < y.1 /\ bend q < y.1 /\ p.1 + hsize <= y.1).
Proof.
  destruct (list_sides _ _ _ _ l q (p :: r) Hh E) as [S1 S2]. assert ((base, 0) :: fl = (l ++ [q]) ++ p :: r) as E2 by (by rewrite <-app_assoc).
  destruct (list_sides _ _ _ _ (l ++ [q]) p r Hh E2) as [S3 S4]. assert (p ∈ p :: r) as Hp by left. destruct (S2 p Hp) as [? ?]. split_and!; try done.
  - intros y Hy. destruct (S1 y Hy). split_and!; [done|done|]. apply S3, elem_of_app. by left.
  - intros y Hy. destruct (S4 y Hy). split_and!; [done| |done]. apply S2. by right.
Qed.

Lemma take_sorted k : 0 <= k <= p.2 -> StronglySorted apart (l ++ q :: (if decide (k = 0) then r else (p.1, k) :: r)).
Proof.
  intros Hk. destruct take_sides as (S1 & S2 & S3 & S4). pose proof (hp_sorted _ _ _ _ Hh) as Hs. rewrite E in Hs.
  apply StronglySorted_app in Hs as (C & Sl & Sr). apply StronglySorted_inv in Sr as [Sr Fq]. apply StronglySorted_inv in Sr as [Sr Fp].
  apply StronglySorted_app_2; [|done|]; destruct (decide (k = 0)).
  - intros y z Hy Hz. apply C; [done|]. apply elem_of_cons in Hz as [->|Hz]; [left|right; by right].
  - intros y z Hy [->|[->|Hz]%elem_of_cons]%elem_of_cons; [apply C; [done|left]|unfold apart; cbn; by apply S1|apply C; [done|right; by right]].
  - apply SSorted_cons; [done|]. by apply Forall_cons in Fq as [_ Fq].
  - apply SSorted_cons; [apply SSorted_cons; [done|]|].
    + apply Forall_forall. intros y Hy. destruct (S4 y Hy) as [H1 _]. unfold apart, bend, hsize in *. cbn [fst snd]. lia.
    + apply Forall_cons. split; [unfold apart; by cbn|]. by apply Forall_cons in Fq as [_ Fq].
Qed.

Lemma take_blocks fl' k : (base, 0) :: fl' = l ++ q :: (if decide (k = 0) then r else (p.1, k) :: r) -> 0 <= k <= p.2 -> forall y, y ∈ fl' -> block_ok brk y.
Proof.
  intros E' Hk y Hy. pose proof (take_sorted k Hk) as Hs. rewrite <-E' in Hs. apply StronglySorted_inv in Hs as [_ Hs]. rewrite Forall_forall in Hs.
  specialize (Hs _ Hy). unfold apart, bend in Hs. cbn in Hs. assert (y ∈ (base, 0) :: fl') as Hy' by by right. rewrite E' in Hy'.
  assert (y ∈ (base, 0) :: fl -> block_ok brk y) as Hok by (intros [->|]%(list_block _ _ _ _ _ Hh); [cbn in Hs; lia|done]).
  destruct take_block as [Hp _]. apply elem_of_app in Hy' as [Hy'|Hy']; [apply Hok, take_in; by left|].
  apply elem_of_cons in Hy' as [->|Hy']; [apply Hok, take_in; auto|]. destruct (decide (k = 0)); [apply Hok, take_in; auto|].
  apply elem_of_cons in Hy' as [->|Hy']; [|apply Hok, take_in; auto]. destruct Hp. split; unfold bend, hsize in *; cbn [fst snd]; try lia; done.
Qed.

Definition taken (m' : memory) (nb : block) : Prop :=
  exists fl', heap fl' (nb :: al) (mkU m' q.1) brk /\ (forall x, cover fl' x + covers nb x = cover fl x) /\ kept_but fl (umem s) m'.

Lemma kept_header a b x : b ∈ fl -> cover fl x = 0 -> b.1 <= a -> a + hsize <= bend b -> x < a \/ a + hsize <= x.
Proof. intros Hb Hx H1 H2. destruct (cover_zero b fl x Hx Hb); lia. Qed.

Lemma take_exact : p.2 = nu -> taken (put_ptr (umem s) q.1 (s_ptr (umem s) p.1)) p.
Proof.
  intros Enu. destruct take_list as (L1 & L2 & L3 & L4 & L5 & L6). destruct take_sides as (S1 & S2 & S3 & S4). destruct take_block as [Hp Hpin].
  destruct (take_shape r) as (fl' & E' & Hc). exists fl'. rewrite L5.
  assert (forall x, cover fl' x + covers p x = cover fl x) as Hcov by (intros x; specialize (Hc x); lia).
  assert (kept_but fl (umem s) (put_ptr (umem s) q.1 (next base r))) as Hk.
  { intros x Hx Hb. apply put_ptr_out. assert (q ∈ (base, 0) :: fl) as [->|Hq]%elem_of_cons by (apply take_in; auto); [done|].
    destruct (block_free _ _ _ _ _ Hh Hq). apply (kept_header _ q); [done|done|lia|unfold bend, hsize in *; lia]. }
  split; [|done]. pose proof (take_sorted 0 ltac:(lia)) as Ss. rewrite decide_True, <-E' in Ss by done.
  assert (0 <= next base r < 2 ^ 64) as Hn by (eapply next_range; [done|]; intros y Hy; apply take_in; auto).
  set (m' := put_ptr _ _ _) in *. assert (forall x, x < q.1 \/ q.1 + hsize <= x -> m' x = umem s x) as Ho by (intros x; apply put_ptr_out).
  apply (heap_take fl fl' p al s brk); [done| |done| |done| |done|done|].
  - rewrite E', (surjective_pairing q). apply lseg_mid.
    assert (s_size m' q.1 = q.2 /\ s_ptr m' q.1 = next base r) as [-> ->] by (unfold m'; rewrite s_size_put_ptr, s_ptr_put_ptr by done; done).
    split; [|split; [done|]]; (eapply lseg_other; [exact Ho| |done]); intros y Hy; [left; by apply S1|right].
    destruct (S4 y Hy) as (_ & _ & H1). unfold hsize in *. lia.
  - apply (take_blocks fl' 0); [|lia]. by rewrite decide_True.
  - rewrite (s_size_other (umem s) m' p.1 q.1); [done|done|by right].
  - rewrite E', fmap_app. apply elem_of_app. right. left.
Qed.

Lemma take_tail : nu < p.2 -> taken (put_size (put_size (umem s) p.1 (p.2 - nu)) (p.1 + hsize * (p.2 - nu)) nu) (p.1 + hsize * (p.2 - nu), nu).
Proof.
  intros Hlt. destruct take_list as (L1 & L2 & L3 & L4 & L5 & L6). destruct take_sides as (S1 & S2 & S3 & S4). destruct take_block as [Hp Hpin].
  destruct (take_shape ((p.1, p.2 - nu) :: r)) as (fl' & E' & Hc). exists fl'. set (nb := (_, nu)). set (m' := put_size _ _ _).
  assert (p.1 + hsize <= nb.1 /\ nb.1 + hsize <= bend p /\ nb.1 < 2 ^ 36 /\ p.2 < 2 ^ 32) as (N1 & N2 & N3 & N4).
  { destruct Hp. pose proof (hp_brk _ _ _ _ Hh) as (? & ? & ?). unfold nb, bend, hsize in *. cbn [fst snd]. lia. }
  assert (forall x, cover fl' x + covers nb x = cover fl x) as Hcov.
  { intros x. specialize (Hc x). rewrite cover_cons in Hc. pose proof (covers_split p.1 (p.2 - nu) nu x) as H1.
    replace (p.2 - nu + nu) with p.2 in H1 by lia. rewrite <-(surjective_pairing p) in H1. unfold nb. lia. }
  assert (forall x, x < p.1 \/ p.1 + hsize <= x -> x < nb.1 \/ nb.1 + hsize <= x -> m' x = umem s x) as Ho.
  { intros x H1 H2. unfold m'. rewrite put_size_out by done. by apply put_size_out. }
  assert (kept_but fl (umem s) m') as Hk.
  { intros x Hx _. apply Ho; (apply (kept_header _ p); [done|done| |]); destruct Hp; unfold bend, hsize in *; lia. }
  split; [|done]. pose proof (take_sorted (p.2 - nu) ltac:(lia)) as Ss. rewrite decide_False, <-E' in Ss by lia.
  assert (forall y, y ∈ l \/ y = q \/ y ∈ r -> forall x, y.1 <= x < y.1 + hsize -> m' x = umem s x) as Hfr.
  { intros y Hy x Hx. assert (y.1 + hsize <= p.1 \/ bend p <= y.1); [|apply Ho; unfold hsize in *; lia].
    destruct Hy as [Hy|[->|Hy]]; [left; destruct (S1 y Hy); unfold hsize in *; lia|by left|right; destruct (S4 y Hy); lia]. }
  assert (s_size m' p.1 = p.2 - nu /\ s_ptr m' p.1 = next base r) as [M1 M2].
  { unfold m'. change (p.1 + hsize * (p.2 - nu)) with nb.1. set (m0 := put_size _ p.1 _).
    rewrite (s_size_other m0 _ p.1 nb.1), (s_ptr_other m0 _ p.1 nb.1) by ((intros x; apply put_size_out) || by left).
    unfold m0. rewrite s_size_put_size, s_ptr_put_size by lia. done. }
  apply (heap_take fl fl' nb al s brk); [done| |done| | | |done|done|].
  - rewrite E', (surjective_pairing q). apply lseg_mid. rewrite (s_size_ext (umem s) m' q.1), (s_ptr_ext (umem s) m' q.1) by (apply Hfr; auto).
    split; [eapply lseg_ext; [|done]; intros y Hy; apply Hfr; by left|]. split; [done|]. rewrite L3. cbn [lseg fst snd]. split; [done|]. split; [done|].
    rewrite M2. eapply lseg_ext; [|done]. intros y Hy. apply Hfr. auto.
  - apply (take_blocks fl' (p.2 - nu)); [|lia]. by rewrite decide_False by lia.
  - destruct Hp. split; unfold nb, bend, hsize in *; cbn [fst snd]; [lia|lia|lia|]. rewrite Z.mul_comm, Z_mod_plus_full. done.
  - unfold m', nb. cbn [fst snd]. rewrite s_size_put_size; [done|]. lia.
  - rewrite E', fmap_app. apply elem_of_app. right. left.
Qed.

End take.

(** ** The break *)

(** Where the break is, and whether the kernel has refused to move it. *)
Record break : Type := mkBreak { brk : Z; refused : bool }.

(** [sbrk] of [src/kernel/sysproc.c], with memory for less than [lim]: it moves
    the break and returns the old one, an [int], or it fails. It only succeeds
    from a break below 2^31: all the memory of the machine, which [growproc]
    allocates from, has 128 MB. *)
Definition brk_sys {T : Type} (e : sysE T) (w : break) : (T -> break -> Prop) -> Prop :=
  match e in sysE T return (T -> break -> Prop) -> Prop with
  | Ssbrk n => fun Q => 0 <= n /\ Q (-1) (mkBreak (brk w) true) /\ (brk w + n <= lim -> brk w < 2 ^ 31 -> Q (s32 (brk w)) (mkBreak (brk w + n) (refused w)))
  | _ => fun _ => False
  end.

#[refine] Definition brk_os : OS break := {| sys := @brk_sys |}.
Proof. intros T [] w Q Q' Hs HQ; cbn in *; try done. destruct Hs as (H1 & H2 & H3). split; [done|]. split; [by apply HQ|]. intros ? ?. by apply HQ, H3. Defined.

#[local] Existing Instance brk_os.

(** The memory that the break has moved over. *)
Definition grown (w w' : break) : block := (brk w, (brk w' - brk w) / hsize).

Lemma heap_grow fl al s w nu : heap fl al s (brk w) -> 1 <= nu -> brk w + hsize * nu <= lim -> let b := (brk w, nu) in
  heap fl (b :: al) (set_umem (put_size (umem s) (brk w) nu) s) (brk w + hsize * nu) /\ (forall x, x < brk w -> covers b x = 0).
Proof.
  intros Hh Hnu Hlim b. assert (forall x, x < brk w -> covers b x = 0) as Hb by (intros x Hx; apply covers_out; by left). split; [|done].
  pose proof (hp_brk _ _ _ _ Hh) as (Hb0 & Hb1 & Hb2).
  assert (forall y, y ∈ (base, 0) :: fl -> y.1 + hsize <= brk w) as Hbelow.
  { intros y [->|[]]%(list_block _ _ _ _ _ Hh); [cbn; lia|]. unfold bend, hsize in *. lia. }
  assert (forall y, block_ok (brk w) y -> block_ok (brk w + hsize * nu) y) as Hmono by (intros y []; split; unfold hsize in *; try done; lia).
  split; cbn [umem freep set_umem].
  - eapply lseg_other; [intros x; apply put_size_out| |apply Hh]. intros y Hy. left. by apply Hbelow.
  - apply Hh.
  - apply Forall_cons. split; [unfold b; cbn [fst snd]; rewrite s_size_put_size; [done|unfold hsize in *; lia]|].
    pose proof (hp_size _ _ _ _ Hh) as Hs. rewrite Forall_forall in Hs |- *. intros y Hy. rewrite <-(Hs y Hy).
    apply (s_size_other _ _ _ (brk w)); [intros x; apply put_size_out|]. left. destruct (block_used _ _ _ _ _ Hh Hy). unfold bend, hsize in *. lia.
  - pose proof (hp_blocks _ _ _ _ Hh) as Ho. apply Forall_app in Ho as [Ho1 Ho2]. apply Forall_app. split; [by eapply Forall_impl|].
    apply Forall_cons. split; [|by eapply Forall_impl]. split; unfold b, bend; cbn [fst snd]; [lia|done|lia|apply Hh].
  - intros x. pose proof (hp_cover _ _ _ _ Hh x) as Hc. rewrite cover_app, cover_cons. rewrite cover_app in Hc.
    destruct (decide (x < brk w)) as [Hx|Hx]; [rewrite Hb by done; lia|].
    assert (cover fl x = 0 /\ cover al x = 0) as [-> ->].
    { assert (cover (fl ++ al) x = 0) as H0; [|rewrite cover_app in H0; pose proof (cover_nonneg fl x); pose proof (cover_nonneg al x); lia].
      pose proof (hp_blocks _ _ _ _ Hh) as Ho. induction Ho as [|y bs Hy _ IH]; [done|]. rewrite cover_cons, IH, covers_out; [done|]. destruct Hy. lia. }
    unfold covers. destruct (_ && _); lia.
  - apply Hh.
  - unfold hsize in *. lia.
  - rewrite Z.mul_comm, Z_mod_plus_full. apply Hh.
Qed.

Section malloc.
Context (X : Z -> break -> Prop).

Lemma uwp_morecore fl al s w nu n (Q : Z -> ustate -> break -> Prop) : heap fl al s (brk w) -> 1 <= nu -> hsize * Z.max nu 4096 < 2 ^ 31 -> (length fl + 1 < n)%nat ->
  Q 0 s (mkBreak (brk w) true) ->
  (forall fl' s' w', heap fl' al s' (brk w') -> brk w <= brk w' -> refused w' = refused w -> (forall x, cover fl' x = cover (grown w w' :: fl) x) ->
    kept_but (grown w w' :: fl) (umem s) (umem s') -> (exists b, b ∈ fl' /\ nu <= b.2) -> (length fl' <= S (length fl))%nat -> Q (freep s') s' w') ->
  uwp X (morecore nu) n s w Q.
Proof.
  intros Hh Hnu Hmax Hn Hfail HQ. unfold morecore. set (k := if nu <? 4096 then 4096 else nu).
  assert (k = Z.max nu 4096) as Ek by (unfold k; destruct (Z.ltb_spec nu 4096); lia). unfold hsize in Hmax.
  pose proof (hp_brk _ _ _ _ Hh) as (Hb0 & Hb1 & Hb2). apply uwp_bind, uwp_call. rewrite s32_small by (unfold hsize; lia).
  split; [unfold hsize; lia|]. split; [exact Hfail|]. intros Hg Hint. cbn beta. rewrite (s32_small (brk w)) by (unfold hsize in *; lia).
  rewrite (proj2 (Z.eqb_neq (brk w) (-1))) by (unfold hsize in *; lia). rewrite Z.mul_comm in Hg.
  destruct (heap_grow fl al s w k Hh) as [Hh1 Hlow]; [lia|done|]. set (w' := mkBreak _ _).
  apply uwp_bind, uwp_set, uwp_bind. change (brk w + hsize) with ((brk w, k).1 + hsize).
  apply (uwp_free X fl al _ (brk w + hsize * k) (brk w, k) n w'); [exact Hh1|done|]. intros fl' s' Hh' Hc Hk (b' & Hin & Hbig) Hlen.
  apply uwp_get. assert (grown w w' = (brk w, k)) as Eg.
  { unfold grown, w', hsize. cbn [brk]. f_equal. rewrite Z.add_simpl_l. by apply Z.div_mul. }
  apply (HQ fl' s' w'); try done.
  - unfold w'. cbn [brk]. by rewrite Z.mul_comm.
  - unfold w', hsize. cbn [brk]. lia.
  - intros x. rewrite Hc, Eg, cover_cons. lia.
  - intros x Hx Hb. rewrite Eg, cover_cons in Hx. pose proof (cover_nonneg fl x). pose proof (covers_nonneg (brk w, k) x).
    rewrite (Hk x); [|rewrite Hc; lia|done]. cbn [umem set_umem]. apply put_size_out.
    destruct (decide (brk w <= x < bend (brk w, k))) as [Hx'|Hx']; [rewrite covers_in in Hx by done; lia|]. unfold bend, hsize in *. cbn in Hx'. lia.
  - exists b'. split; [done|]. cbn in Hbig. lia.
Qed.

(** What has happened to the arena since a state. *)
Record since (fl : list block) (s : ustate) (w : break) (fl1 : list block) (s1 : ustate) (w1 : break) : Prop := {
  sc_cover : forall x, cover fl1 x = cover (grown w w1 :: fl) x;
  sc_kept : kept_but (grown w w1 :: fl) (umem s) (umem s1);
  sc_brk : brk w <= brk w1;
  sc_refused : refused w1 = refused w
}.

(** A block of [nu] units has been taken out of the free ones and of the memory
    that the break moved over. *)
Definition allocated (fl al : list block) (s : ustate) (w : break) (nu p : Z) (s' : ustate) (w' : break) : Prop :=
  exists fl', heap fl' ((p - hsize, nu) :: al) s' (brk w') /\ since fl s w ((p - hsize, nu) :: fl') s' w'.

(** No free block has [nu] units, and the kernel has no memory. *)
Definition out_of_memory (fl al : list block) (s : ustate) (w : break) (nu : Z) (s' : ustate) (w' : break) : Prop :=
  heap fl al s' (brk w) /\ w' = mkBreak (brk w) true /\ Forall (fun b => b.2 < nu) fl /\ kept_but fl (umem s) (umem s').

Lemma grown_same w x : covers (grown w w) x = 0.
Proof. unfold grown. rewrite Z.sub_diag, Zdiv_0_l. apply covers_empty. Qed.

Lemma since_refl fl s w s' : kept_but fl (umem s) (umem s') -> since fl s w fl s' w.
Proof.
  intros Hk. split; try done; [intros x; by rewrite cover_cons, grown_same|].
  intros x Hx. rewrite cover_cons, grown_same in Hx. by apply Hk.
Qed.

Lemma since_taken fl al s w fl1 s1 w1 q m' nb : since fl s w fl1 s1 w1 -> taken fl1 al s1 (brk w1) q m' nb ->
  allocated fl al s w nb.2 (nb.1 + hsize) (mkU m' q.1) w1.
Proof.
  intros [S1 S2 S3 S4] (fl' & Hh & Hc & Hk). exists fl'. rewrite Z.add_simpl_r, <-surjective_pairing. split; [done|]. split; try done.
  - intros x. by rewrite cover_cons, Z.add_comm, Hc.
  - intros x Hx Hb. cbn [umem]. rewrite (Hk x); [by apply S2| |done]. by rewrite S1.
Qed.

Lemma uwp_take fl al s w fl1 s1 w1 i q p nu n (Q : ctl (Z * Z) Z -> ustate -> break -> Prop) : since fl s w fl1 s1 w1 -> heap fl1 al s1 (brk w1) ->
  let c := (base, 0) :: fl1 in c !! i = Some q -> c !! nxt (length c) i = Some p -> 1 <= nu <= p.2 ->
  (forall a s', allocated fl al s w nu a s' w1 -> Q (Done a) s' w1) ->
  uwp X (r ← (if p.2 =? nu then nx ← get_ptr p.1; set_ptr q.1 nx;; mret p.1
              else set_size p.1 (p.2 - nu);; sz' ← get_size p.1; let p := p.1 + hsize * sz' in set_size p nu;; mret p);
         uset (set_freep q.1);; mret (Done (r + hsize))) n s1 w1 Q.
Proof.
  intros Hs Hh c Hi Hj Hnu HQ.
  assert (exists l r, c = l ++ q :: p :: r) as (l & r & E).
  { unfold nxt in Hj. destruct (decide (S i < length c)%nat) as [Hlt|]; [|injection Hj as <-; cbn in Hnu; lia].
    destruct (list_elem_of_split_length _ _ _ Hi) as (l & r & E & ->). rewrite E, lookup_app_r, Nat.sub_succ_l, Nat.sub_diag in Hj by lia.
    destruct r as [|p' r]; [done|]. injection Hj as ->. by exists l, r. }
  assert (p.2 < 2 ^ 32) as Hsz by (destruct (list_bounds _ _ _ _ p Hh); [by eapply list_elem_of_lookup_2|lia]).
  destruct (Z.eqb_spec p.2 nu) as [Enu|Enu].
  - pose proof (take_exact _ _ _ _ _ _ _ _ Hh E nu Hnu Enu) as Ht. pose proof (since_taken _ _ _ _ _ _ _ _ _ _ Hs Ht) as Ha.
    rewrite Enu in Ha. apply (HQ _ _ Ha).
  - pose proof (take_tail _ _ _ _ _ _ _ _ Hh E nu Hnu ltac:(lia)) as Ht. pose proof (since_taken _ _ _ _ _ _ _ _ _ _ Hs Ht) as Ha. cbn [fst snd] in Ha.
    apply uwp_bind. apply uwp_bind, uwp_set, uwp_bind, uwp_get. change (umem (set_umem (st 4 (umem s1) (p.1 + 8) (p.2 - nu)) s1)) with (put_size (umem s1) p.1 (p.2 - nu)).
    rewrite s_size_put_size by lia. apply (HQ _ _ Ha).
Qed.

(** One walk through the list: [f] is the position of [freep], [j] that of the
    block looked at. Before the list has grown, the blocks passed are too
    small; after, there is one ahead that is large enough. *)
Definition walk (fl al : list block) (s : ustate) (w : break) (nu : Z) (left : nat) (st : Z * Z) (s1 : ustate) (w1 : break) : Prop :=
  exists fl1 i q p f b, let c := (base, 0) :: fl1 in let k := length c in let j := nxt k i in
    heap fl1 al s1 (brk w1) /\ since fl s w fl1 s1 w1 /\ c !! i = Some q /\ c !! j = Some p /\ st = (q.1, p.1) /\ c !! f = Some b /\ freep s1 = b.1 /\
    ((fl1 = fl /\ w1 = w /\ left = (k + 1 + dist k j f)%nat /\ (forall t b', c !! t = Some b' -> (dist k j f < dist k t f)%nat -> b'.2 < nu)) \/
     (exists t b', c !! t = Some b' /\ nu <= b'.2 /\ (dist k j t <= dist k j f)%nat /\ left = dist k j t)).

(** The walk that starts behind [freep]. *)
Lemma walk_start fl1 al s1 brk1 : heap fl1 al s1 brk1 -> let c := (base, 0) :: fl1 in
  exists f b p, c !! f = Some b /\ freep s1 = b.1 /\ c !! nxt (length c) f = Some p /\ s_ptr (umem s1) b.1 = p.1.
Proof.
  intros Hh c. destruct (proj1 (list_elem_of_fmap _ _ _) (hp_freep _ _ _ _ Hh)) as (b & Ef & (f & Hf)%list_elem_of_lookup_1).
  destruct (ring_step _ _ _ _ _ (hp_list _ _ _ _ Hh) Hf) as (_ & p & Hp & Ep). by exists f, b, p.
Qed.

Lemma position_inj fl1 al s1 brk1 i j p q : heap fl1 al s1 brk1 -> let c := (base, 0) :: fl1 in c !! i = Some p -> c !! j = Some q -> p.1 = q.1 -> i = j.
Proof.
  intros Hh c Hi Hj E. destruct (lt_eq_lt_dec i j) as [[Hlt|]|Hlt]; [|done|].
  - destruct (list_sorted_at _ _ _ _ _ _ _ _ Hh Hi Hj Hlt). unfold hsize in *. lia.
  - destruct (list_sorted_at _ _ _ _ _ _ _ _ Hh Hj Hi Hlt). unfold hsize in *. lia.
Qed.

Lemma walk_grown fl al s w nu fl' s' w' : heap fl' al s' (brk w') -> since fl s w fl' s' w' ->
  (exists b, b ∈ fl' /\ nu <= b.2) -> (length fl' <= S (length fl))%nat ->
  exists left, (left < S (length fl) + 1)%nat /\ walk fl al s w nu left (freep s', s_ptr (umem s') (freep s')) s' w'.
Proof.
  intros Hh' Hs' (b' & Hb' & Hbig) Hlen. destruct (walk_start _ _ _ _ Hh') as (f & b & p & Hf & Ef & Hp & Ep). set (c := (base, 0) :: fl') in *.
  assert (b' ∈ c) as (t & Ht)%list_elem_of_lookup_1 by by right.
  pose proof (lookup_lt_Some _ _ _ Hf) as Hfl. pose proof (lookup_lt_Some _ _ _ Hp) as Hpl. pose proof (lookup_lt_Some _ _ _ Ht) as Htl.
  pose proof (dist_lt _ _ _ Hpl Htl) as Hd. assert (length c = S (length fl')) as Hc by done.
  exists (dist (length c) (nxt (length c) f) t). split; [lia|]. exists fl', f, b, p, f, b. fold c. rewrite Ef, Ep. split_and!; try done.
  right. exists t, b'. split_and!; try done. rewrite dist_nxt_self by done. lia.
Qed.

(** The list is exhausted: it grows, or there is no memory. *)
Lemma uwp_walk_end fl al s w nu n s1 (Q : ctl (Z * Z) Z -> ustate -> break -> Prop) : 1 <= nu -> hsize * Z.max nu 4096 < 2 ^ 31 -> (length fl + 2 < n)%nat ->
  heap fl al s1 (brk w) -> since fl s w fl s1 w -> (forall b, b ∈ fl -> b.2 < nu) ->
  (forall w', out_of_memory fl al s w nu s1 w' -> Q (Done 0) s1 w') ->
  (forall left st s' w', (left < S (length fl) + 1)%nat -> walk fl al s w nu left st s' w' -> Q (Next st) s' w') ->
  uwp X (p' ← morecore nu; if p' =? 0 then mret (Done 0) else nx ← get_ptr p'; mret (Next (p', nx))) n s1 w Q.
Proof.
  intros Hnu Hmax Hn Hh Hs Hnone HQ0 HQ1. apply uwp_bind, (uwp_morecore fl al); [done|done|done|lia| |].
  - apply HQ0. split_and!; [done|done|by apply Forall_forall|]. intros x Hx. apply (sc_kept _ _ _ _ _ _ Hs). by rewrite cover_cons, grown_same.
  - intros fl' s' w' Hh' Hb Hr Hc Hk Hbig Hlen. destruct (walk_start _ _ _ _ Hh') as (f' & b' & _ & Hf' & Ef' & _).
    destruct (list_bounds _ _ _ _ b' Hh') as [Hb' _]; [by eapply list_elem_of_lookup_2|]. rewrite (proj2 (Z.eqb_neq (freep s') 0)) by lia.
    apply uwp_bind, uwp_get, uwp_ret. assert (since fl s w fl' s' w') as Hs'.
    { split; try done. intros x Hx Hx'. rewrite (Hk x) by done. apply (sc_kept _ _ _ _ _ _ Hs); [|done]. rewrite cover_cons, grown_same.
      rewrite cover_cons in Hx. pose proof (cover_nonneg fl x). pose proof (covers_nonneg (grown w w') x). lia. }
    destruct (walk_grown fl al s w nu fl' s' w') as (left' & Hl & Hw); [done|done|done|done|]. by apply (HQ1 left').
Qed.

Lemma uwp_walk fl al s w nu n left st s1 w1 : 1 <= nu -> hsize * Z.max nu 4096 < 2 ^ 31 -> (length fl + 2 < n)%nat ->
  walk fl al s w nu left st s1 w1 ->
  uwp X (malloc_body nu st) n s1 w1 (fun r s' w' => match r with
    | Next st' => exists left', (left' < left)%nat /\ walk fl al s w nu left' st' s' w'
    | Done a => a = 0 /\ out_of_memory fl al s w nu s' w' \/ allocated fl al s w nu a s' w'
    end).
Proof.
  intros Hnu Hmax Hn (fl1 & i & q & p & f & b & Hh & Hs & Hi & Hj & -> & Hf & Ef & Hph). set (c := (base, 0) :: fl1) in *. set (j := nxt (length c) i) in *.
  pose proof (lookup_lt_Some _ _ _ Hj) as Hjl. pose proof (lookup_lt_Some _ _ _ Hf) as Hfl.
  destruct (ring_step _ _ _ _ _ (hp_list _ _ _ _ Hh) Hj) as (Hsz & p2 & Hp2 & Ep2). fold c in Hp2.
  unfold malloc_body. apply uwp_bind, uwp_get. rewrite Hsz. destruct (Z.leb_spec nu p.2) as [Hfit|Hsmall].
  { apply (uwp_take fl al s w fl1 s1 w1 i q p nu); [done|done|done|done|lia|]. intros a s' Ha. by right. }
  apply uwp_bind, uwp_get. destruct (Z.eqb_spec p.1 (freep s1)) as [Efp|Efp].
  - assert (j = f) as Ejf by (eapply position_inj; [exact Hh|exact Hj|exact Hf|congruence]).
    destruct Hph as [(-> & -> & -> & Hpass)|(t & bt & Ht & Hbt & Hd & _)].
    + apply (uwp_walk_end fl al s); [done|done|done|done|done| |intros w' Ho; by left|].
      * intros b' Hb'. assert (b' ∈ c) as (t & Ht)%list_elem_of_lookup_1 by by right. destruct (decide (t = j)) as [->|Hne]; [rewrite Hj in Ht; by injection Ht as <-|].
        apply (Hpass t b' Ht). pose proof (lookup_lt_Some _ _ _ Ht). rewrite Ejf in *. unfold dist. repeat destruct (decide _); lia.
      * intros left' st' s' w' Hl Hw. exists left'. split; [|done]. assert (length c = S (length fl)) by done. lia.
    + exfalso. rewrite Ejf in Hd. unfold dist in Hd at 2. rewrite decide_True in Hd by done.
      assert (f = t) as -> by (unfold dist in Hd; pose proof (lookup_lt_Some _ _ _ Ht); destruct (decide (f <= t)%nat); lia).
      rewrite <-Ejf, Hj in Ht. injection Ht as <-. lia.
  - assert (j <> f) as Hjf by (intros <-; rewrite Hj in Hf; injection Hf as <-; congruence).
    apply uwp_bind, uwp_get, uwp_ret. rewrite Ep2. pose proof (dist_nxt _ _ _ Hjl Hfl Hjf) as Hd.
    destruct Hph as [(-> & -> & -> & Hpass)|(t & bt & Ht & Hbt & Hd' & ->)].
    + exists (length c + 1 + dist (length c) (nxt (length c) j) f)%nat. split; [lia|]. exists fl, j, p, p2, f, b. fold c. split_and!; try done. left. split_and!; try done.
      intros t b' Ht Hlt. destruct (decide (t = j)) as [->|Hne]; [rewrite Hj in Ht; by injection Ht as <-|]. apply (Hpass t b' Ht).
      pose proof (lookup_lt_Some _ _ _ Ht) as Htl. destruct (decide (dist (length c) t f = dist (length c) j f)) as [E|]; [by apply dist_inj in E|]. lia.
    + pose proof (lookup_lt_Some _ _ _ Ht) as Htl. assert (j <> t) as Hjt by (intros <-; rewrite Hj in Ht; injection Ht as <-; lia).
      pose proof (dist_nxt _ _ _ Hjl Htl Hjt) as Hdt. exists (dist (length c) (nxt (length c) j) t). split; [lia|].
      exists fl1, j, p, p2, f, b. fold c. split_and!; try done. right. exists t, bt. split_and!; try done. lia.
Qed.

(** The arena, also before the first allocation. *)
Definition arena (fl al : list block) (s : ustate) (brk : Z) : Prop :=
  heap fl al s brk \/
  freep s = 0 /\ fl = [] /\ al = [] /\ 0 < base /\ base + hsize <= brk <= lim /\ lim <= 2 ^ 36 /\ brk mod hsize = 0.

Lemma uwp_malloc_init fl al s w n (Q : Z -> ustate -> break -> Prop) : arena fl al s (brk w) ->
  (forall s', heap fl al s' (brk w) -> kept_but fl (umem s) (umem s') -> Q (freep s') s' w) ->
  uwp X (malloc_init base) n s w Q.
Proof.
  intros Ha HQ. unfold malloc_init. apply uwp_bind, uwp_get. destruct Ha as [Hh|(Hf & -> & -> & Hb0 & Hb & Hlim & Hal)].
  - destruct (walk_start _ _ _ _ Hh) as (f & b & _ & Hf & Ef & _). destruct (list_bounds _ _ _ _ b Hh) as [Hb _]; [by eapply list_elem_of_lookup_2|].
    rewrite (proj2 (Z.eqb_neq (freep s) 0)) by lia. apply uwp_ret, HQ; done.
  - rewrite Hf. cbn [Z.eqb]. set (m' := put_size (put_ptr (umem s) base base) base 0).
    change (Q base (mkU m' base) w). apply (HQ (mkU m' base)).
    + assert (s_size m' base = 0) as M1 by (unfold m'; by rewrite s_size_put_size).
      assert (s_ptr m' base = base) as M2 by (unfold m'; rewrite s_ptr_put_size, s_ptr_put_ptr; [done|unfold hsize in *; lia]).
      split; cbn [umem freep]; try done; [apply SSorted_cons; [apply SSorted_nil|apply Forall_nil_2]|left].
    + intros x _ Hx. unfold m'. cbn [umem]. by rewrite put_size_out, put_ptr_out.
Qed.

Lemma uwp_malloc fl al s w nbytes n (Q : Z -> ustate -> break -> Prop) : arena fl al s (brk w) -> 0 <= nbytes < 2 ^ 31 - 2 * hsize -> (2 * length fl + 4 < n)%nat ->
  let nu := (nbytes + hsize - 1) / hsize + 1 in
  (forall s' w', out_of_memory fl al s w nu s' w' -> Q 0 s' w') -> (forall p s' w', allocated fl al s w nu p s' w' -> Q p s' w') ->
  uwp X (malloc base nbytes) n s w Q.
Proof.
  intros Ha Hnb Hn nu HQ0 HQ1. unfold malloc. assert (1 <= nu /\ hsize * Z.max nu 4096 < 2 ^ 31) as [Hnu Hmax].
  { unfold nu, hsize in *. Z.div_mod_to_equations. lia. }
  rewrite u32_small by (fold nu; unfold hsize in Hmax; lia). fold nu. apply uwp_bind, (uwp_malloc_init fl al); [done|]. intros s0 Hh Hk.
  apply uwp_bind, uwp_get. destruct (walk_start _ _ _ _ Hh) as (f & b & p & Hf & Ef & Hp & Ep). set (c := (base, 0) :: fl) in *.
  pose proof (lookup_lt_Some _ _ _ Hf) as Hfl. assert (length c = S (length fl)) as Hc by done.
  apply (uwp_loop _ _ (walk fl al s w nu)) with (k := (length c + 1 + dist (length c) (nxt (length c) f) f)%nat).
  - intros k st s1 w1 Hw. eapply uwp_mono; [apply (uwp_walk fl al s w nu n k); [done|done|lia|done]|].
    intros [st'|a] s' w' Hr; [done|]. destruct Hr as [[-> Ho]|Hr]; [by apply HQ0|by apply HQ1].
  - rewrite dist_nxt_self by done. lia.
  - exists fl, f, b, p, f, b. fold c. rewrite Ef, Ep. split_and!; try done; [by apply since_refl|]. left. split_and!; try done.
    intros t b' Ht Hlt. rewrite dist_nxt_self in Hlt by done. pose proof (lookup_lt_Some _ _ _ Ht) as Htl. pose proof (dist_lt _ _ _ Htl Hfl). lia.
Qed.

End malloc.
End arena.

(** ** Blocks in use, in any order *)

#[global] Instance cover_proper : Proper ((≡ₚ) ==> (=) ==> (=)) cover.
Proof.
  intros l l' Hl x ? <-. induction Hl as [|b l l' _ IH|b b' l|l1 l2 l3 _ IH1 _ IH2]; [done| | |congruence]; rewrite !cover_cons; [by rewrite IH|lia].
Qed.

#[global] Instance heap_proper base lim fl : Proper ((≡ₚ) ==> (=) ==> (=) ==> iff) (heap base lim fl).
Proof.
  assert (forall al al' s brk, al ≡ₚ al' -> heap base lim fl al s brk -> heap base lim fl al' s brk) as Hp.
  { intros al al' s brk Ha [H1 H2 H3 H4 H5 H6 H7 H8]. split; try done; [by rewrite <-Ha|by rewrite <-Ha|]. intros x. by rewrite <-Ha. }
  intros al al' Ha s ? <- brk ? <-. split; by apply Hp.
Qed.

(** The bytes of the blocks in use are not touched. *)
Definition used_same (al : list block) (s s' : ustate) : Prop :=
  forall b x, b ∈ al -> b.1 <= x < bend b -> umem s' x = umem s x.

Lemma used_cover base lim fl al s brk b x : heap base lim fl al s brk -> b ∈ al -> b.1 <= x < bend b -> cover fl x = 0 /\ base + hsize <= x.
Proof.
  intros Hh Hb Hx. pose proof (hp_cover _ _ _ _ _ _ Hh x) as Hc. rewrite cover_app in Hc. pose proof (cover_in b al x Hb Hx).
  pose proof (cover_nonneg fl x). destruct (block_used _ _ _ _ _ _ _ Hh Hb). lia.
Qed.

Lemma since_used base lim fl al s w s' w' bs : arena base lim fl al s (brk w) -> since base fl s w bs s' w' -> used_same al s s'.
Proof.
  intros [Hh|(_ & _ & -> & _)] Hs b x Hb Hx; [|by apply elem_of_nil in Hb]. destruct (used_cover _ _ _ _ _ _ _ _ Hh Hb Hx) as [H1 H2].
  apply (sc_kept _ _ _ _ _ _ _ Hs); [|by right]. rewrite cover_cons, covers_out; [done|]. left. cbn. destruct (block_used _ _ _ _ _ _ _ Hh Hb). lia.
Qed.

(** C27: [malloc] hands out memory that nobody else has. From any arena, also an
    empty one, it returns a block with room for the bytes asked for, aligned,
    taken from the free blocks and from memory that [sbrk] added: every byte of
    these is afterwards in exactly one of the new block and the remaining free
    blocks, which again form a sorted list without adjacent blocks; the blocks
    in use keep their bytes. It returns 0 only when no free block is large
    enough and the kernel refuses to move the break. *)
Theorem malloc_allocates base lim (X : Z -> break -> Prop) fl al s w nbytes n : arena base lim fl al s (brk w) ->
  0 <= nbytes < 2 ^ 31 - 2 * hsize -> (2 * length fl + 4 < n)%nat ->
  let nu := (nbytes + hsize - 1) / hsize + 1 in
  uwp (H := brk_os lim) X (malloc base nbytes) n s w (fun p s' w' =>
    p = 0 /\ out_of_memory base lim fl al s w nu s' w' \/
    0 < p /\ p mod hsize = 0 /\ p + nbytes <= bend (p - hsize, nu) /\ allocated base lim fl al s w nu p s' w' /\ used_same al s s').
Proof.
  intros Ha Hnb Hn nu. apply (uwp_malloc base lim X fl al); [done|done|done| |]; fold nu.
  - intros s' w' Ho. by left.
  - intros p s' w' Hal. right. destruct Hal as (fl' & Hh & Hs). assert (block_ok base (brk w') (p - hsize, nu)) as Hb by (eapply block_used; [done|left]).
    destruct Hb as [B1 B2 B3 B4]. pose proof (hp_brk _ _ _ _ _ _ Hh) as (? & ? & ?). unfold bend in *. cbn [fst snd] in *. split_and!.
    + unfold hsize in *. lia.
    + unfold hsize in *. Z.div_mod_to_equations. lia.
    + unfold nu, hsize in *. Z.div_mod_to_equations. lia.
    + by exists fl'.
    + by eapply since_used.
Qed.

(** C28: [free] gives a block back: the free blocks then have exactly its bytes
    more, again as a sorted list in which adjacent blocks are joined; the other
    blocks in use stay in use and keep their bytes. *)
Theorem free_releases base lim fl al b al' s brk n : heap base lim fl al s brk -> al ≡ₚ b :: al' -> (length fl + 1 < n)%nat ->
  exists fl' s', free (b.1 + hsize) n s = URet tt s' /\ heap base lim fl' al' s' brk /\ (forall x, cover fl' x = cover (b :: fl) x) /\ used_same al' s s'.
Proof.
  intros Hh Ha Hn. rewrite Ha in Hh.
  destruct (uwp_pure (free (b.1 + hsize)) n s (fun _ s' _ => exists fl', heap base lim fl' al' s' brk /\ (forall x, cover fl' x = cover (b :: fl) x) /\ used_same al' s s'))
    as ([] & s' & E & fl' & HQ); [|by exists fl', s'].
  apply (uwp_free (H := no_os) base lim _ fl al' s brk b); [done|done|]. intros fl' s' Hh' Hc Hk _ _. exists fl'. split; [done|]. split.
  - intros x. rewrite Hc, cover_cons. lia.
  - intros b' x Hb' Hx. destruct (used_cover _ _ _ _ _ _ _ _ Hh' Hb' Hx) as [H1 H2]. apply Hk; [done|by right].
Qed.

(** ** An arena with one block in use *)

Definition arena1 : ustate := mkU (put_size (put_ptr (fun _ => 0) 4096 4096) 8192 2) 4096.

Lemma arena1_heap : heap 4096 100000000 [] [(8192, 2)] arena1 12288.
Proof.
  split.
  - by vm_compute.
  - apply SSorted_cons; [apply SSorted_nil|apply Forall_nil_2].
  - apply Forall_cons. split; [by vm_compute|apply Forall_nil_2].
  - apply Forall_cons. split; [|apply Forall_nil_2]. by split; vm_compute.
  - intros x. cbn. unfold covers. destruct (_ && _); lia.
  - left.
  - unfold hsize. lia.
  - done.
Qed.

Lemma malloc_allocates_witness : uwp (H := brk_os 100000000) (fun _ _ => False) (malloc 4096 100) 50%nat arena1 (mkBreak 12288 false) (fun p s' _ =>
  p = 0 \/ p mod 16 = 0 /\ used_same [(8192, 2)] arena1 s').
Proof.
  eapply uwp_mono; [apply (malloc_allocates 4096 100000000 (fun _ _ => False) [] [(8192, 2)] arena1 (mkBreak 12288 false) 100 50%nat);
    [left; exact arena1_heap|unfold hsize; lia|cbn; lia]|].
  intros p s' w' [[-> _]|(_ & H1 & _ & _ & H2)]; [by left|right]. by split.
Defined.

Lemma free_releases_witness : exists fl' s', free 8208 50%nat arena1 = URet tt s' /\ heap 4096 100000000 fl' [] s' 12288.
Proof.
  destruct (free_releases 4096 100000000 [] [(8192, 2)] (8192, 2) [] arena1 12288 50%nat arena1_heap (Permutation_refl _) ltac:(cbn; lia))
    as (fl' & s' & E & Hh & _). by exists fl', s'.
Defined.
