(* ===== verification/Sh.v ===== *)
(** * The shell: [src/user/sh.c]

    Commands are the C structures in the memory of the shell, allocated with
    [malloc]. A parsing routine that takes [char **ps] takes the position and
    returns the new one with its result; out-parameters are results. The
    recursion of the parser, of [nulterminate] and of [runcmd] is bounded by
    the bound of the run. *)

From S2P Require Import Prelude Str User Ulib Uprintf Umalloc.

Definition EXEC : Z := 1.
Definition REDIR : Z := 2.
Definition PIPE : Z := 3.
Definition LIST : Z := 4.
Definition BACK : Z := 5.
Definition MAXARGS : Z := 10.

(** ** The layout of the command structures *)

(** [type] of every structure *)
Definition c_type (cmd : Z) : Z := cmd.
(** [struct execcmd] *)
Definition ec_argv (cmd i : Z) : Z := cmd + 8 + 8 * i.
Definition ec_eargv (cmd i : Z) : Z := cmd + 88 + 8 * i.
Definition sizeof_execcmd : Z := 168.
(** [struct redircmd] *)
Definition rc_cmd (cmd : Z) : Z := cmd + 8.
Definition rc_file (cmd : Z) : Z := cmd + 16.
Definition rc_efile (cmd : Z) : Z := cmd + 24.
Definition rc_mode (cmd : Z) : Z := cmd + 32.
Definition rc_fd (cmd : Z) : Z := cmd + 36.
Definition sizeof_redircmd : Z := 40.
(** [struct pipecmd] and [struct listcmd] *)
Definition pc_left (cmd : Z) : Z := cmd + 8.
Definition pc_right (cmd : Z) : Z := cmd + 16.
Definition sizeof_pipecmd : Z := 24.
(** [struct backcmd] *)
Definition bc_cmd (cmd : Z) : Z := cmd + 8.
Definition sizeof_backcmd : Z := 16.

(** The modes of [open] that redirections use ([src/kernel/fcntl.h]). *)
Definition m_read : Z := 0.                                       (* O_RDONLY *)
Definition m_trunc : Z := Z.lor (Z.lor 0x001 0x200) 0x400.        (* O_WRONLY|O_CREATE|O_TRUNC *)
Definition m_append : Z := Z.lor 0x001 0x200.                     (* O_WRONLY|O_CREATE *)

Definition whitespace : list Z := [32; 9; 13; 10; 11].
Definition symbols : list Z := lit "<|>&;()".

(** Recursion bounded by the bound of the run. *)
Definition rec {A} (f : nat -> U A) : U A := fun n s => f n n s.
Definition nofuel {A} : U A := fun _ _ => UNoFuel.

Definition panic {A} (s : list Z) : U A :=
  fprintf 2 (line "%s") [Vlit s];;
  exit 1.

Definition fork1 : U Z :=
  pid ← fork;
  if pid =? -1 then panic (lit "fork") else mret pid.

(** ** Running commands *)

Fixpoint runcmd_n (d : nat) (cmd : Z) : U unit :=
  match d with
  | O => nofuel
  | S d =>
      if cmd =? 0 then exit 1 else
      type ← ldw 4 (c_type cmd);
      (if type =? EXEC then
         a ← ldw 8 (ec_argv cmd 0);
         if a =? 0 then exit 1 else
         exec a (ec_argv cmd 0);;
         fprintf 2 (line "exec %s failed") [Vnum a]
       else if type =? REDIR then
         fd ← ldw 4 (rc_fd cmd);
         close fd;;
         file ← ldw 8 (rc_file cmd);
         mode ← ldw 4 (rc_mode cmd);
         r ← open file mode;
         if r <? 0 then fprintf 2 (line "open %s failed") [Vnum file];; exit 1 else
         sub ← ldw 8 (rc_cmd cmd);
         runcmd_n d sub
       else if type =? LIST then
         pid ← fork1;
         uwhen (pid =? 0) (l ← ldw 8 (pc_left cmd); runcmd_n d l);;
         wait 0;;
         r ← ldw 8 (pc_right cmd);
         runcmd_n d r
       else if type =? PIPE then
         '(r, p0, p1) ← pipe;
         if r <? 0 then panic (lit "pipe") else
         pid ← fork1;
         uwhen (pid =? 0)
           (close 1;;
            dup p1;;
            close p0;;
            close p1;;
            l ← ldw 8 (pc_left cmd);
            runcmd_n d l);;
         pid ← fork1;
         uwhen (pid =? 0)
           (close 0;;
            dup p0;;
            close p0;;
            close p1;;
            r ← ldw 8 (pc_right cmd);
            runcmd_n d r);;
         close p0;;
         close p1;;
         wait 0;;
         wait 0;;
         mret tt
       else if type =? BACK then
         pid ← fork1;
         uwhen (pid =? 0) (sub ← ldw 8 (bc_cmd cmd); runcmd_n d sub)
       else panic (lit "runcmd"));;
      exit 0
  end.

Definition runcmd (cmd : Z) : U unit := rec (fun d => runcmd_n d cmd).

Definition getcmd (buf nbuf : Z) : U Z :=
  fprintf 2 (lit "$ ") [];;
  memset buf 0 nbuf;;
  gets buf nbuf;;
  c ← ldb buf;
  if c =? 0 then mret (-1) else mret 0.

(** ** Constructors *)

Section Sh.
(** The address of the static header of [malloc]. *)
Variable base : Z.

Definition execcmd : U Z :=
  cmd ← malloc base sizeof_execcmd;
  memset cmd 0 sizeof_execcmd;;
  stw 4 (c_type cmd) EXEC;;
  mret cmd.

Definition redircmd (subcmd file efile mode fd : Z) : U Z :=
  cmd ← malloc base sizeof_redircmd;
  memset cmd 0 sizeof_redircmd;;
  stw 4 (c_type cmd) REDIR;;
  stw 8 (rc_cmd cmd) subcmd;;
  stw 8 (rc_file cmd) file;;
  stw 8 (rc_efile cmd) efile;;
  stw 4 (rc_mode cmd) mode;;
  stw 4 (rc_fd cmd) fd;;
  mret cmd.

Definition pipecmd (left right : Z) : U Z :=
  cmd ← malloc base sizeof_pipecmd;
  memset cmd 0 sizeof_pipecmd;;
  stw 4 (c_type cmd) PIPE;;
  stw 8 (pc_left cmd) left;;
  stw 8 (pc_right cmd) right;;
  mret cmd.

Definition listcmd (left right : Z) : U Z :=
  cmd ← malloc base sizeof_pipecmd;
  memset cmd 0 sizeof_pipecmd;;
  stw 4 (c_type cmd) LIST;;
  stw 8 (pc_left cmd) left;;
  stw 8 (pc_right cmd) right;;
  mret cmd.

Definition backcmd (subcmd : Z) : U Z :=
  cmd ← malloc base sizeof_backcmd;
  memset cmd 0 sizeof_backcmd;;
  stw 4 (c_type cmd) BACK;;
  stw 8 (bc_cmd cmd) subcmd;;
  mret cmd.

(** ** Parsing *)

(** [while(s < es && strchr(whitespace, *s)) s++;] *)
Definition skip_white (s es : Z) : U Z :=
  uloop (fun s =>
    c ← ldb s;
    if (s <? es) && strchr_const whitespace c then mret (Next (s + 1)) else mret (Done s)) s.

(** [while(s < es && !strchr(whitespace, *s) && !strchr(symbols, *s)) s++;] *)
Definition skip_word (s es : Z) : U Z :=
  uloop (fun s =>
    c ← ldb s;
    if (s <? es) && negb (strchr_const whitespace c) && negb (strchr_const symbols c)
    then mret (Next (s + 1)) else mret (Done s)) s.

(** The result is [ret], [*q], [*eq] and the new [*ps]. *)
Definition gettoken (s es : Z) : U (Z * Z * Z * Z) :=
  s ← skip_white s es;
  let q := s in
  c ← ldb s;
  '(ret, s) ←
    (if c =? 0 then mret (c, s)
     else if (c =? 124) || (c =? 40) || (c =? 41) || (c =? 59) || (c =? 38) || (c =? 60) then mret (c, s + 1)
     else if c =? 62 then
       let s := s + 1 in
       c' ← ldb s;
       if c' =? 62 then mret (43, s + 1) else mret (c, s)
     else s ← skip_word s es; mret (97, s));
  let eq := s in
  s ← skip_white s es;
  mret (ret, q, eq, s).

Definition peek (s es : Z) (toks : list Z) : U (bool * Z) :=
  s ← skip_white s es;
  c ← ldb s;
  mret (negb (c =? 0) && strchr_const toks c, s).

Definition parseredirs (cmd s es : Z) : U (Z * Z) :=
  uloop (fun '(cmd, s) =>
    '(b, s) ← peek s es (lit "<>");
    if negb b then mret (Done (cmd, s)) else
    '(tok, _, _, s) ← gettoken s es;
    '(t, q, eq, s) ← gettoken s es;
    if negb (t =? 97) then panic (lit "missing file for redirection") else
    cmd ←
      (if tok =? 60 then redircmd cmd q eq m_read 0
       else if tok =? 62 then redircmd cmd q eq m_trunc 1
       else if tok =? 43 then redircmd cmd q eq m_append 1
       else mret cmd);
    mret (Next (cmd, s))) (cmd, s).

(** The part of [parseexec] that reads a simple command. *)
Definition parseargs (s es : Z) : U (Z * Z) :=
  cmd ← execcmd;
  '(ret, s) ← parseredirs cmd s es;
  '(argc, ret, s) ← uloop (fun '((argc, ret, s) : Z * Z * Z) =>
    '(b, s) ← peek s es (lit "|)&;");
    if (b : bool) then mret (Done (argc, ret, s)) else
    '(tok, q, eq, s) ← gettoken s es;
    if tok =? 0 then mret (Done (argc, ret, s)) else
    if negb (tok =? 97) then panic (lit "syntax") else
    stw 8 (ec_argv cmd argc) q;;
    stw 8 (ec_eargv cmd argc) eq;;
    let argc := argc + 1 in
    if MAXARGS <=? argc then panic (lit "too many args") else
    '(ret, s) ← parseredirs ret s es;
    mret (Next (argc, ret, s))) (0, ret, s);
  stw 8 (ec_argv cmd argc) 0;;
  stw 8 (ec_eargv cmd argc) 0;;
  mret (ret, s).

Fixpoint parseline_n (d : nat) (s es : Z) : U (Z * Z) :=
  match d with
  | O => nofuel
  | S d =>
      '(cmd, s) ← parsepipe_n d s es;
      '(cmd, s) ← uloop (fun '(cmd, s) =>
        '(b, s) ← peek s es (lit "&");
        if negb b then mret (Done (cmd, s)) else
        '(_, _, _, s) ← gettoken s es;
        cmd ← backcmd cmd;
        mret (Next (cmd, s))) (cmd, s);
      '(b, s) ← peek s es (lit ";");
      if (b : bool) then
        '(_, _, _, s) ← gettoken s es;
        '(rhs, s) ← parseline_n d s es;
        cmd ← listcmd cmd rhs;
        mret (cmd, s)
      else mret (cmd, s)
  end
with parsepipe_n (d : nat) (s es : Z) : U (Z * Z) :=
  match d with
  | O => nofuel
  | S d =>
      '(cmd, s) ← parseexec_n d s es;
      '(b, s) ← peek s es (lit "|");
      if (b : bool) then
        '(_, _, _, s) ← gettoken s es;
        '(rhs, s) ← parsepipe_n d s es;
        cmd ← pipecmd cmd rhs;
        mret (cmd, s)
      else mret (cmd, s)
  end
with parseblock_n (d : nat) (s es : Z) : U (Z * Z) :=
  match d with
  | O => nofuel
  | S d =>
      '(b, s) ← peek s es (lit "(");
      if negb b then panic (lit "parseblock") else
      '(_, _, _, s) ← gettoken s es;
      '(cmd, s) ← parseline_n d s es;
      '(b, s) ← peek s es (lit ")");
      if negb b then panic (lit "syntax - missing )") else
      '(_, _, _, s) ← gettoken s es;
      parseredirs cmd s es
  end
with parseexec_n (d : nat) (s es : Z) : U (Z * Z) :=
  match d with
  | O => nofuel
  | S d =>
      '(b, s) ← peek s es (lit "(");
      if (b : bool) then parseblock_n d s es else parseargs s es
  end.

(** ** NUL-terminating the strings *)

Fixpoint nulterminate_n (d : nat) (cmd : Z) : U unit :=
  match d with
  | O => nofuel
  | S d =>
      if cmd =? 0 then mret tt else
      type ← ldw 4 (c_type cmd);
      if type =? EXEC then
        uloop (fun i =>
          a ← ldw 8 (ec_argv cmd i);
          if a =? 0 then mret (Done tt) else
          e ← ldw 8 (ec_eargv cmd i);
          stb e 0;;
          mret (Next (i + 1))) 0
      else if type =? REDIR then
        sub ← ldw 8 (rc_cmd cmd);
        nulterminate_n d sub;;
        e ← ldw 8 (rc_efile cmd);
        stb e 0
      else if (type =? PIPE) || (type =? LIST) then
        l ← ldw 8 (pc_left cmd);
        nulterminate_n d l;;
        r ← ldw 8 (pc_right cmd);
        nulterminate_n d r
      else if type =? BACK then
        sub ← ldw 8 (bc_cmd cmd);
        nulterminate_n d sub
      else mret tt
  end.

Definition nulterminate (cmd : Z) : U unit := rec (fun d => nulterminate_n d cmd).

Definition parsecmd (s : Z) : U Z :=
  len ← strlen s;
  let es := s + len in
  '(cmd, s) ← rec (fun d => parseline_n d s es);
  '(_, s) ← peek s es [];
  if negb (s =? es) then
    fprintf 2 (line "leftovers: %s") [Vnum s];;
    panic (lit "syntax")
  else
    nulterminate cmd;;
    mret cmd.

(** ** The main loop, with the address of its static buffer *)

Definition sh_main (buf : Z) : U unit :=
  uloop (fun _ : unit =>
    fd ← open_bytes (lit "console") 0x002;
    if fd <? 0 then mret (Done tt) else
    if 3 <=? fd then close fd;; mret (Done tt) else
    mret (Next tt)) tt;;
  uloop (fun _ : unit =>
    r ← getcmd buf 100;
    if r <? 0 then mret (Done tt) else
    c0 ← ldb buf;
    c1 ← ldb (buf + 1);
    c2 ← ldb (buf + 2);
    if (c0 =? 99) && (c1 =? 100) && (c2 =? 32) then
      len ← strlen buf;
      stb (buf + len - 1) 0;;
      r ← chdir (buf + 3);
      uwhen (r <? 0) (fprintf 2 (line "cannot cd %s") [Vnum (buf + 3)]);;
      mret (Next tt)
    else
      pid ← fork1;
      uwhen (pid =? 0) (cmd ← parsecmd buf; runcmd cmd);;
      wait 0;;
      mret (Next tt)) tt;;
  exit 0.

End Sh.
