(* ===== verification/Uprogs.v ===== *)
(** * User programs

    The programs [cat], [echo], [grep], [init], [kill], [ln], [ls], [mkdir],
    [rm], [wc] and [zombie] of [src/user/]. The [main] of a program [p] is
    [p_main]; [argv] is the list of the addresses of its arguments, and the
    address of a static or automatic array is a parameter. *)

From S2P Require Import Prelude Str User Ulib Uprintf.

Definition usage (s : list Z) : U unit := fprintf 2 s [];; exit 1.

(** [for(i = 1; i < argc; i++)] with the file opened for each argument:
    the loop of [cat], [wc] and [grep]. *)
Definition each_file (failed : Z -> U unit) (args : list Z) (body : Z -> Z -> U unit) : U unit :=
  ueach args (fun a =>
    fd ← open a 0;
    if fd <? 0 then failed a;; exit 1 else
    body fd a;;
    close fd;; mret tt).

(** ** cat.c *)
Section cat.
Variable buf : Z.

Definition cat (fd : Z) : U unit :=
  n ← uloop (fun _ : unit =>
    n ← read fd buf 512;
    if negb (0 <? n) then mret (Done n) else
    r ← write 1 buf n;
    if negb (r =? n) then fprintf 2 (line "cat: write error") [];; exit 1 else
    mret (Next tt)) tt;
  if n <? 0 then fprintf 2 (line "cat: read error") [];; exit 1 else mret tt.

Definition cat_main (argv : list Z) : U unit :=
  if Z.of_nat (length argv) <=? 1 then cat 0;; exit 0 else
  each_file (fun a => fprintf 2 (line "cat: cannot open %s") [Vnum a]) (tl argv) (fun fd _ => cat fd);;
  exit 0.
End cat.

(** ** echo.c: the separator depends on whether another argument follows *)
Fixpoint echo_args (args : list Z) : U unit :=
  match args with
  | [] => mret tt
  | a :: args' =>
      len ← strlen a;
      write 1 a len;;
      write_bytes 1 (match args' with [] => [10] | _ => [32] end);;
      echo_args args'
  end.

Definition echo_main (argv : list Z) : U unit := echo_args (tl argv);; exit 0.

(** ** grep.c *)

(** [matchhere] and [matchstar] call each other. *)
Fixpoint matchhere_n (d : nat) (re text : Z) : U bool :=
  match d with
  | O => fun _ _ => UNoFuel
  | S d =>
      r0 ← ldb re;
      if r0 =? 0 then mret true else
      r1 ← ldb (re + 1);
      if r1 =? 42 then matchstar_n d r0 (re + 2) text else
      t ← ldb text;
      if (r0 =? 36) && (r1 =? 0) then mret (t =? 0) else
      if negb (t =? 0) && ((r0 =? 46) || (r0 =? t)) then matchhere_n d (re + 1) (text + 1) else
      mret false
  end
with matchstar_n (d : nat) (c re text : Z) : U bool :=
  match d with
  | O => fun _ _ => UNoFuel
  | S d =>
      uloop (fun text =>
        b ← matchhere_n d re text;
        if (b : bool) then mret (Done true) else
        t ← ldb text;
        if negb (t =? 0) && ((t =? c) || (c =? 46)) then mret (Next (text + 1))
        else mret (Done false)) text
  end.

Definition matchhere (re text : Z) : U bool := fun n s => matchhere_n n re text n s.

(** [match], a keyword of this language *)
Definition match_ (re text : Z) : U bool :=
  r0 ← ldb re;
  if r0 =? 94 then matchhere (re + 1) text else
  uloop (fun text =>
    b ← matchhere re text;
    if (b : bool) then mret (Done true) else
    t ← ldb text;
    if negb (t =? 0) then mret (Next (text + 1)) else mret (Done false)) text.

Section grep.
Variable buf : Z.

(** The inner loop: every complete line of the buffer, from [p] on. *)
Definition grep_lines (pattern p : Z) : U Z :=
  uloop (fun p =>
    q ← strchr p 10;
    if q =? 0 then mret (Done p) else
    stb q 0;;
    b ← match_ pattern p;
    uwhen b (stb q 10;; write 1 p (q + 1 - p);; mret tt);;
    mret (Next (q + 1))) p.

Definition grep (pattern fd : Z) : U unit :=
  uloop (fun m =>
    n ← read fd (buf + m) (1024 - m - 1);
    if negb (0 <? n) then mret (Done tt) else
    let m := m + n in
    stb (buf + m) 0;;
    p ← grep_lines pattern buf;
    if 0 <? m then
      let m := m - (p - buf) in
      memmove buf p m;;
      mret (Next m)
    else mret (Next m)) 0.

Definition grep_main (argv : list Z) : U unit :=
  if Z.of_nat (length argv) <=? 1 then usage (line "usage: grep pattern [file ...]") else
  let pattern := nth 1 argv 0 in
  if Z.of_nat (length argv) <=? 2 then grep pattern 0;; exit 0 else
  each_file (fun a => printf (line "grep: cannot open %s") [Vnum a]) (drop 2 argv) (fun fd _ => grep pattern fd);;
  exit 0.
End grep.

(** ** init.c *)

(** The inner loop: until the shell, process [pid], is waited for. *)
Definition init_wait (pid : Z) : U unit :=
  uloop (fun _ : unit =>
    wpid ← wait 0;
    if wpid =? pid then mret (Done tt) else
    if wpid <? 0 then printf (line "init: wait returned an error") [];; exit 1 else
    mret (Next tt)) tt.

Definition init_main : U unit :=
  fd ← open_bytes (lit "console") 0x002;
  uwhen (fd <? 0)
    (call (Smknod (lit "console") 1 0);;
     open_bytes (lit "console") 0x002;; mret tt);;
  dup 0;;
  dup 0;;
  uloop (fun _ : unit =>
    printf (line "init: starting sh") [];;
    pid ← fork;
    if pid <? 0 then printf (line "init: fork failed") [];; exit 1 else
    if pid =? 0 then
      call (Sexec (lit "sh") [lit "sh"]);;
      printf (line "init: exec sh failed") [];;
      exit 1
    else
      init_wait pid;;
      mret (Next tt)) tt.

(** ** kill.c, ln.c, mkdir.c, rm.c, zombie.c *)

Definition kill_main (argv : list Z) : U unit :=
  if Z.of_nat (length argv) <? 2 then usage (line "usage: kill pid...") else
  ueach (tl argv) (fun a => pid ← atoi a; kill pid;; mret tt);;
  exit 0.

Definition ln_main (argv : list Z) : U unit :=
  if negb (Z.of_nat (length argv) =? 3) then usage (line "Usage: ln old new") else
  let old := nth 1 argv 0 in
  let new := nth 2 argv 0 in
  r ← link old new;
  uwhen (r <? 0) (fprintf 2 (line "link %s %s: failed") [Vnum old; Vnum new]);;
  exit 0.

(** The loop of [mkdir] and [rm]: it stops at the first failure. *)
Fixpoint until_failure (op : Z -> U Z) (msg : list Z) (args : list Z) : U unit :=
  match args with
  | [] => mret tt
  | a :: args' =>
      r ← op a;
      if r <? 0 then fprintf 2 msg [Vnum a] else until_failure op msg args'
  end.

Definition mkdir_main (argv : list Z) : U unit :=
  if Z.of_nat (length argv) <? 2 then usage (line "Usage: mkdir files...") else
  until_failure mkdir (line "mkdir: %s failed to create") (tl argv);;
  exit 0.

Definition rm_main (argv : list Z) : U unit :=
  if Z.of_nat (length argv) <? 2 then usage (line "Usage: rm files...") else
  until_failure unlink (line "rm: %s failed to delete") (tl argv);;
  exit 0.

Definition zombie_main : U unit :=
  pid ← fork;
  uwhen (0 <? pid) (sleep 5;; mret tt);;
  exit 0.

(** ** wc.c *)
Section wc.
Variable buf : Z.

(** What one byte does to the counts [l], [w], [c] and to [inword]. *)
Definition wc_byte (b : Z) (x : Z * Z * Z * bool) : Z * Z * Z * bool :=
  let '(l, w, c, inword) := x in
  let c := c + 1 in
  let l := if b =? 10 then l + 1 else l in
  if strchr_const [32; 13; 9; 10; 11] b then (l, w, c, false)
  else if negb inword then (l, w + 1, c, true)
  else (l, w, c, inword).

(** [name] is the argument, or the empty constant. *)
Definition wc (fd : Z) (name : uarg) : U unit :=
  '(n, (l, w, c, _)) ← uloop (fun x =>
    n ← read fd buf 512;
    if negb (0 <? n) then mret (Done (n, x)) else
    bs ← load buf (Z.to_nat n);
    mret (Next (fold_left (fun x b => wc_byte b x) bs x))) (0, 0, 0, false);
  if n <? 0 then printf (line "wc: read error") [];; exit 1 else
  printf (line "%d %d %d %s") [Vnum l; Vnum w; Vnum c; name].

Definition wc_main (argv : list Z) : U unit :=
  if Z.of_nat (length argv) <=? 1 then wc 0 (Vlit []);; exit 0 else
  each_file (fun a => printf (line "wc: cannot open %s") [Vnum a]) (tl argv) (fun fd a => wc fd (Vnum a));;
  exit 0.
End wc.

(** ** ls.c *)
Section ls.
(** The static buffer of [fmtname] and the variables of [ls]. *)
Variables nbuf buf de st : Z.

Definition DIRSIZE : Z := 14.

(** The fields of [struct stat] and of [struct dirent] in memory. *)
Definition st_ino : U Z := ldw 4 (st + 4).
Definition st_type : U Z := t ← ldw 2 (st + 8); mret (s16 t).
Definition st_size : U Z := ldw 8 (st + 16).
Definition dir_inum : U Z := ldw 2 de.

(** The first character after the last slash. *)
Definition last_name (path : Z) : U Z :=
  len ← strlen path;
  p ← uloop (fun p =>
    if p <? path then mret (Done p) else
    c ← ldb p;
    if c =? 47 then mret (Done p) else mret (Next (p - 1))) (path + len);
  mret (p + 1).

Definition fmtname (path : Z) : U Z :=
  p ← last_name path;
  len ← strlen p;
  if DIRSIZE <=? len then mret p else
  memmove nbuf p len;;
  memset (nbuf + len) 32 (DIRSIZE - len);;
  mret nbuf.

(** The entries of a directory; [p] is where their names go in [buf]. *)
Definition ls_entries (fd p : Z) : U unit :=
  uloop (fun _ : unit =>
    n ← read fd de 16;
    if negb (n =? 16) then mret (Done tt) else
    inum ← dir_inum;
    if inum =? 0 then mret (Next tt) else
    memmove p (de + 2) DIRSIZE;;
    stb (p + DIRSIZE) 0;;
    r ← stat buf st;
    if r <? 0 then printf (line "ls: cannot stat %s") [Vnum buf];; mret (Next tt) else
    name ← fmtname buf;
    type ← st_type;
    ino ← st_ino;
    size ← st_size;
    printf (line "%s %d %d %d") [Vnum name; Vnum type; Vnum ino; Vnum size];;
    mret (Next tt)) tt.

Definition ls (path : Z) : U unit :=
  fd ← open path 0;
  if fd <? 0 then fprintf 2 (line "ls: cannot open %s") [Vnum path] else
  r ← fstat fd st;
  if r <? 0 then
    fprintf 2 (line "ls: cannot stat %s") [Vnum path];;
    close fd;; mret tt
  else
    type ← st_type;
    (if type =? 2 then
       name ← fmtname path;
       ino ← st_ino;
       size ← st_size;
       printf (line "%s %d %d %l") [Vnum name; Vnum type; Vnum ino; Vnum size]
     else if type =? 1 then
       len ← strlen path;
       if 512 <? len + 1 + DIRSIZE + 1 then printf (line "ls: path too long") [] else
       strcpy buf path;;
       blen ← strlen buf;
       let p := buf + blen in
       stb p 47;;
       ls_entries fd (p + 1)
     else mret tt);;
    close fd;; mret tt.

(** [dot] is the address of the constant ["."]. *)
Definition ls_main (dot : Z) (argv : list Z) : U unit :=
  if Z.of_nat (length argv) <? 2 then ls dot;; exit 0 else
  ueach (tl argv) ls;;
  exit 0.
End ls.
