(* ===== verification/Utests.v ===== *)
(** * Small programs that test the system

    [src/user/cowtest.c], [src/user/forktest.c], [src/user/stressfs.c] and
    [src/user/grind.c], as trees of system calls. The address of a static or
    automatic array is a parameter. *)

From S2P Require Import Prelude Riscv Str User Ulib Uprintf Uprogs.

(** [if(b){ printf(fmt, ap); exit(status); }] *)
Definition die_if (b : bool) (status : Z) (fmt : list Z) (ap : list uarg) : U unit :=
  uwhen b (printf fmt ap;; exit status).

(** [for(i = lo; i < hi; i++) body(i)] *)
Definition ufor (lo hi : Z) (body : Z -> U unit) : U unit := ueach (seqZ lo (hi - lo)) body.

(** [for(q = p; q < lim; q += 4096) body(q)] *)
Definition each_page (p lim : Z) (body : Z -> U unit) : U unit :=
  uloop (fun q => if negb (q <? lim) then mret (Done tt) else body q;; mret (Next (q + 4096))) p.

(** Calls whose strings are constants. *)
Definition open_ (path : string) (omode : Z) : U Z := open_bytes (lit path) omode.
Definition unlink_ (path : string) : U Z := call (Sunlink (lit path)).
Definition mkdir_ (path : string) : U Z := call (Smkdir (lit path)).
Definition chdir_ (path : string) : U Z := call (Schdir (lit path)).
Definition link_ (old new : string) : U Z := call (Slink (lit old) (lit new)).
Definition exec_ (path : string) (args : list string) : U Z := call (Sexec (lit path) (lit <$> args)).
Definition close_open (path : string) (omode : Z) : U Z := fd ← open_ path omode; close fd.

(** [*(int * )q] *)
Definition ld_int (q : Z) : U Z := v ← ldw 4 q; mret (s32 v).

(** Is the string at [p] this constant? *)
Definition streq (p : Z) (cs : list Z) : U bool := s ← cstring p; mret (bool_decide (s = cs)).

(** ** cowtest.c *)

Definition phys_size : Z := PHYSTOP - KERNBASE.

Definition simpletest : U unit :=
  let sz := (phys_size / 3) * 2 in
  printf (lit "simple: ") [];;
  p ← sbrk sz;
  die_if (p =? -1) (-1) (line "sbrk(%d) failed") [Vnum sz];;
  each_page p (p + sz) (fun q => pid ← getpid; stw 4 q pid);;
  pid ← fork;
  die_if (pid <? 0) (-1) (line "fork() failed") [];;
  uwhen (pid =? 0) (exit 0);;
  wait 0;;
  r ← sbrk (- sz);
  die_if (r =? -1) (-1) (line "sbrk(-%d) failed") [Vnum sz];;
  printf (line "ok") [].

(** The loop that checks what the pages of a process hold. *)
Definition check_pages (p lim : Z) : U unit :=
  each_page p lim (fun q =>
    v ← ld_int q;
    pid ← getpid;
    die_if (negb (v =? pid)) (-1) (line "wrong content") []).

Definition threetest : U unit :=
  let sz := phys_size / 4 in
  printf (lit "three: ") [];;
  p ← sbrk sz;
  die_if (p =? -1) (-1) (line "sbrk(%d) failed") [Vnum sz];;
  pid1 ← fork;
  die_if (pid1 <? 0) (-1) (line "fork failed") [];;
  uwhen (pid1 =? 0)
    (pid2 ← fork;
     die_if (pid2 <? 0) (-1) (lit "fork failed") [];;
     uwhen (pid2 =? 0)
       (each_page p (p + (sz / 5) * 4) (fun q => pid ← getpid; stw 4 q pid);;
        check_pages p (p + (sz / 5) * 4);;
        exit (-1));;
     each_page p (p + sz / 2) (fun q => stw 4 q 9999);;
     exit 0);;
  each_page p (p + sz) (fun q => pid ← getpid; stw 4 q pid);;
  wait 0;;
  sleep 1;;
  check_pages p (p + sz);;
  r ← sbrk (- sz);
  die_if (r =? -1) (-1) (line "sbrk(-%d) failed") [Vnum sz];;
  printf (line "ok") [].

Section cowtest.
Variable buf : Z.

(** What the child of round [i] does: it reads from the pipe [rfd]. *)
Definition filetest_child (rfd i : Z) : U unit :=
  sleep 1;;
  r ← read rfd buf 4;
  die_if (negb (r =? 4)) 1 (line "error: read failed") [];;
  sleep 1;;
  j ← ld_int buf;
  die_if (negb (j =? i)) 1 (line "error: read the wrong value") [];;
  exit 0.

Definition filetest : U unit :=
  printf (lit "file: ") [];;
  stb buf 99;;
  ufor 0 4 (fun i =>
    '(r, fds0, fds1) ← pipe;
    die_if (negb (r =? 0)) (-1) (line "pipe() failed") [];;
    pid ← fork;
    die_if (pid <? 0) (-1) (line "fork failed") [];;
    uwhen (pid =? 0) (filetest_child fds0 i);;
    w ← write_bytes fds1 (int_bytes i);
    die_if (negb (w =? 4)) (-1) (line "error: write failed") []);;
  ueach [0; 1; 2; 3] (fun _ =>
    '(_, xstatus) ← wait_int 0;
    uwhen (negb (xstatus =? 0)) (exit 1));;
  b ← ldb buf;
  die_if (negb (b =? 99)) 1 (line "error: child overwrote parent") [];;
  printf (line "ok") [].

Definition cowtest_main : U unit :=
  simpletest;;
  simpletest;;
  threetest;;
  threetest;;
  threetest;;
  filetest;;
  printf (line "ALL COW TESTS PASSED") [];;
  exit 0.
End cowtest.

(** ** forktest.c *)

Definition forktest_N : Z := 1000.

Definition print (s : list Z) : U unit := write_bytes 1 s;; mret tt.

(** How many times [fork] worked. *)
Definition fork_loop (N : Z) : U Z :=
  uloop (fun n =>
    if negb (n <? N) then mret (Done n) else
    pid ← fork;
    if pid <? 0 then mret (Done n) else
    uwhen (pid =? 0) (exit 0);;
    mret (Next (n + 1))) 0.

(** [say] prints a message. *)
Definition wait_loop (say : list Z -> U unit) (n : Z) : U unit :=
  uloop (fun n =>
    if negb (0 <? n) then mret (Done tt) else
    r ← wait 0;
    uwhen (r <? 0) (say (line "wait stopped early");; exit 1);;
    mret (Next (n - 1))) n.

Definition forktest : U unit :=
  print (line "fork test");;
  n ← fork_loop forktest_N;
  uwhen (n =? forktest_N) (print (line "fork claimed to work N times!");; exit 1);;
  wait_loop print n;;
  r ← wait 0;
  uwhen (negb (r =? -1)) (print (line "wait got too many");; exit 1);;
  print (line "fork test OK").

Definition forktest_main : U unit := forktest;; exit 0.

(** ** stressfs.c *)

Section stressfs.
Variable data : Z.

(** [for(i = 0; i < 4; i++) if(fork() > 0) break;] *)
Definition stress_forks : U Z :=
  uloop (fun i =>
    if negb (i <? 4) then mret (Done i) else
    r ← fork;
    if 0 <? r then mret (Done i) else mret (Next (i + 1))) 0.

Definition stressfs_main : U unit :=
  printf (line "stressfs starting") [];;
  memset data 97 512;;
  i ← stress_forks;
  printf (line "write %d") [Vnum i];;
  let path := lit "stressfs" ++ [u8 (48 + i)] in
  fd ← open_bytes path (Z.lor O_CREATE O_RDWR);
  ufor 0 20 (fun _ => write fd data 512;; mret tt);;
  close fd;;
  printf (line "read") [];;
  fd ← open_bytes path O_RDONLY;
  ufor 0 20 (fun _ => read fd data 512;; mret tt);;
  close fd;;
  wait 0;;
  exit 0.
End stressfs.

(** ** grind.c *)

(** [long] division truncates; both operands are positive here. The result is
    also stored in [*ctx]. *)
Definition do_rand (ctx : Z) : Z :=
  let x := ctx mod 0x7ffffffe + 1 in
  let hi := Z.quot x 127773 in
  let lo := Z.rem x 127773 in
  let x := 16807 * lo - 2836 * hi in
  let x := if x <? 0 then x + 0x7fffffff else x in
  x - 1.

Definition O_CREATE_RDWR : Z := Z.lor O_CREATE O_RDWR.

(** [fork], with a child that runs [child] and exits; the parent gets its id. *)
Definition grind_fork (child : U unit) : U Z :=
  pid ← fork;
  uwhen (pid =? 0) (child;; exit 0);;
  die_if (pid <? 0) 1 (line "grind: fork failed") [];;
  mret pid.

Definition chdir_or_die (path : string) (msg : list Z) : U unit :=
  r ← chdir_ path;
  die_if (negb (r =? 0)) 1 msg [].

Section grind.
(** [buf] of [go], its variables [st] and [buf] of the branches 21 and 22, and
    the value of a variable that is not initialised. *)
Variables buf st buf4 junk : Z.

(** [what == 19] *)
Definition grind_pipe : U unit :=
  '(r, fds0, fds1) ← pipe;
  die_if (r <? 0) 1 (line "grind: pipe failed") [];;
  grind_fork
    (fork;;
     fork;;
     w ← write_bytes fds1 [120];
     uwhen (negb (w =? 1)) (printf (line "grind: pipe write failed") []);;
     '(r, _) ← call (Sread fds0 1);
     uwhen (negb (r =? 1)) (printf (line "grind: pipe read failed") []));;
  close fds0;;
  close fds1;;
  wait 0;; mret tt.

(** [what == 21] *)
Definition grind_create : U unit :=
  unlink_ "c";;
  fd1 ← open_ "c" O_CREATE_RDWR;
  die_if (fd1 <? 0) 1 (line "grind: create c failed") [];;
  w ← write_bytes fd1 [120];
  die_if (negb (w =? 1)) 1 (line "grind: write c failed") [];;
  r ← fstat fd1 st;
  die_if (negb (r =? 0)) 1 (line "grind: fstat failed") [];;
  size ← st_size st;
  die_if (negb (size =? 1)) 1 (line "grind: fstat reports wrong size %d") [Vnum (s32 size)];;
  ino ← st_ino st;
  die_if (200 <? ino) 1 (line "grind: fstat reports crazy i-number %d") [Vnum ino];;
  close fd1;;
  unlink_ "c";; mret tt.

(** [if(dup(fd) != want){ fprintf(2, ...); exit(status); }] *)
Definition dup_or_die (fd want status : Z) : U unit :=
  r ← dup fd;
  uwhen (negb (r =? want)) (fprintf 2 (line "grind: dup failed") [];; exit status).

(** [echo hi | cat], [what == 22] *)
Definition grind_pipeline : U unit :=
  '(r, aa0, aa1) ← pipe;
  uwhen (r <? 0) (fprintf 2 (line "grind: pipe failed") [];; exit 1);;
  '(r, bb0, bb1) ← pipe;
  uwhen (r <? 0) (fprintf 2 (line "grind: pipe failed") [];; exit 1);;
  pid1 ← fork;
  uwhen (pid1 =? 0)
    (close bb0;;
     close bb1;;
     close aa0;;
     close 1;;
     dup_or_die aa1 1 1;;
     close aa1;;
     exec_ "grindir/../echo" ["echo"; "hi"];;
     fprintf 2 (line "grind: echo: not found") [];;
     exit 2);;
  uwhen (pid1 <? 0) (fprintf 2 (line "grind: fork failed") [];; exit 3);;
  pid2 ← fork;
  uwhen (pid2 =? 0)
    (close aa1;;
     close bb0;;
     close 0;;
     dup_or_die aa0 0 4;;
     close aa0;;
     close 1;;
     dup_or_die bb1 1 5;;
     close bb1;;
     exec_ "/cat" ["cat"];;
     fprintf 2 (line "grind: cat: not found") [];;
     exit 6);;
  uwhen (pid2 <? 0) (fprintf 2 (line "grind: fork failed") [];; exit 7);;
  close aa0;;
  close aa1;;
  close bb1;;
  store buf4 [0; 0; 0; 0];;
  read bb0 buf4 1;;
  read bb0 (buf4 + 1) 1;;
  read bb0 (buf4 + 2) 1;;
  close bb0;;
  '(_, st1) ← wait_int junk;
  '(_, st2) ← wait_int junk;
  same ← streq buf4 (line "hi");
  die_if (negb (st1 =? 0) || negb (st2 =? 0) || negb same) 1
    (lit "grind: exec pipeline failed %d %d " ++ [34] ++ lit "%s" ++ [34; 10]) [Vnum st1; Vnum st2; Vnum buf4].

(** The branches of [go] that concern files, and those that concern processes
    and memory; [fd] is the descriptor it keeps open. *)
Definition grind_files (what fd : Z) : U Z :=
  match what with
  | 1 => close_open "grindir/../a" O_CREATE_RDWR;; mret fd
  | 2 => close_open "grindir/../grindir/../b" O_CREATE_RDWR;; mret fd
  | 3 => unlink_ "grindir/../a";; mret fd
  | 4 =>
      chdir_or_die "grindir" (line "grind: chdir grindir failed");;
      unlink_ "../b";;
      chdir_ "/";;
      mret fd
  | 5 => close fd;; open_ "/grindir/../a" O_CREATE_RDWR
  | 6 => close fd;; open_ "/./grindir/./../b" O_CREATE_RDWR
  | 7 => write fd buf 999;; mret fd
  | 8 => read fd buf 999;; mret fd
  | 9 =>
      mkdir_ "grindir/../a";;
      close_open "a/../a/./a" O_CREATE_RDWR;;
      unlink_ "a/a";;
      mret fd
  | 10 =>
      mkdir_ "/../b";;
      close_open "grindir/../b/b" O_CREATE_RDWR;;
      unlink_ "b/b";;
      mret fd
  | 11 => unlink_ "b";; link_ "../grindir/./../a" "../b";; mret fd
  | 12 => unlink_ "../grindir/../a";; link_ ".././b" "/grindir/../a";; mret fd
  | 21 => grind_create;; mret fd
  | _ => mret fd
  end.

Definition grind_procs (break0 what fd : Z) : U Z :=
  match what with
  | 13 => grind_fork (mret tt);; wait 0;; mret fd
  | 14 => grind_fork (fork;; fork;; mret tt);; wait 0;; mret fd
  | 15 => sbrk 6011;; mret fd
  | 16 =>
      b ← sbrk 0;
      uwhen (break0 <? b) (b ← sbrk 0; sbrk (s32 (- (b - break0)));; mret tt);;
      mret fd
  | 17 =>
      pid ← grind_fork (close_open "a" O_CREATE_RDWR;; mret tt);
      chdir_or_die "../grindir/.." (line "grind: chdir failed");;
      kill pid;;
      wait 0;;
      mret fd
  | 18 => grind_fork (me ← getpid; kill me;; mret tt);; wait 0;; mret fd
  | 19 => grind_pipe;; mret fd
  | 20 =>
      grind_fork
        (unlink_ "a";;
         mkdir_ "a";;
         chdir_ "a";;
         unlink_ "../a";;
         open_ "x" O_CREATE_RDWR;;
         unlink_ "x";; mret tt);;
      wait 0;;
      mret fd
  | 22 => grind_pipeline;; mret fd
  | _ => mret fd
  end.

Definition is_file_op (what : Z) : bool := (what <=? 12) || (what =? 21).

(** The loop carries [iters], [fd] and [rand_next]. *)
Definition go (which_child rand_next : Z) : U unit :=
  break0 ← sbrk 0;
  mkdir_ "grindir";;
  chdir_or_die "grindir" (line "grind: chdir grindir failed");;
  chdir_ "/";;
  uloop (fun '(iters, fd, rand_next) =>
    let iters := u64 (iters + 1) in
    uwhen (iters mod 500 =? 0) (write_bytes 1 (if negb (which_child =? 0) then [66] else [65]);; mret tt);;
    let rand_next := do_rand rand_next in
    let what := rand_next mod 23 in
    fd ← (if is_file_op what then grind_files what fd else grind_procs break0 what fd);
    mret (Next (iters, fd, rand_next))) (0, -1, rand_next).

Definition iter : U unit :=
  unlink_ "a";;
  unlink_ "b";;
  pid1 ← fork;
  die_if (pid1 <? 0) 1 (line "grind: fork failed") [];;
  uwhen (pid1 =? 0) (go 0 31;; exit 0);;
  pid2 ← fork;
  die_if (pid2 <? 0) 1 (line "grind: fork failed") [];;
  uwhen (pid2 =? 0) (go 1 7177;; exit 0);;
  '(_, st1) ← wait_int (-1);
  uwhen (negb (st1 =? 0)) (kill pid1;; kill pid2;; mret tt);;
  wait_int (-1);;
  exit 0.

Definition grind_main : U unit :=
  uloop (fun _ : unit =>
    pid ← fork;
    uwhen (pid =? 0) (iter;; exit 0);;
    uwhen (0 <? pid) (wait 0;; mret tt);;
    sleep 20;;
    mret (Next tt)) tt.
End grind.

(** [do_rand] is the generator of Park and Miller: for every seed it gives
    [7^5 * x mod (2^31 - 1)] of the seed [x] moved into the range from 1, moved
    back to the range from 0; no intermediate value leaves 32 bits, so that
    [long] arithmetic is exact. *)
Theorem do_rand_park_miller ctx : 0 <= ctx < 2 ^ 64 ->
  let x := ctx mod 0x7ffffffe + 1 in
  do_rand ctx = (7 ^ 5 * x) mod (2 ^ 31 - 1) - 1 /\ 0 <= do_rand ctx < 0x7ffffffe /\
  - 2 ^ 31 <= 16807 * Z.rem x 127773 - 2836 * Z.quot x 127773 < 2 ^ 31.
Proof.
  intros Hc x. assert (1 <= x <= 0x7ffffffe) as Hx by (unfold x; pose proof (Z.mod_pos_bound ctx 0x7ffffffe); lia).
  unfold do_rand. fold x. rewrite Z.quot_div_nonneg, Z.rem_mod_nonneg by lia.
  set (hi := x / 127773). set (lo := x mod 127773).
  assert (x = 127773 * hi + lo /\ 0 <= lo < 127773) as [E Hlo] by (unfold hi, lo; Z.div_mod_to_equations; lia).
  assert (0 <= hi <= 16807) as Hhi by lia.
  assert ((7 ^ 5 * x) mod (2 ^ 31 - 1) = if 16807 * lo - 2836 * hi <? 0 then 16807 * lo - 2836 * hi + 0x7fffffff else 16807 * lo - 2836 * hi) as ->.
  { destruct (Z.ltb_spec (16807 * lo - 2836 * hi) 0) as [Hneg|Hpos]; symmetry; [apply (Z.mod_unique _ _ (hi - 1))|apply (Z.mod_unique _ _ hi)]; lia. }
  assert (16807 * lo - 2836 * hi <> 0) as Hne.
  { intros E0. assert (16807 | hi) as [k Hk] by (apply (Z.gauss 16807 2836); [exists lo; lia|by vm_compute]). lia. }
  destruct (Z.ltb_spec (16807 * lo - 2836 * hi) 0); split_and!; lia.
Qed.

Lemma do_rand_park_miller_witness : do_rand 31 = (7 ^ 5 * 32) mod (2 ^ 31 - 1) - 1.
Proof. destruct (do_rand_park_miller 31 ltac:(lia)) as [E _]. exact E. Defined.
