(* ===== verification/Usertests.v ===== *)
(** * [src/user/usertests.c]: the tests, the table of tests and the runner

    A test is a function of its name. The address of [buf] and of the automatic
    arrays of a test are parameters. *)

From S2P Require Import Prelude Riscv Str User Ulib Umalloc Uprintf Uprogs Utests.

(** ** Processes and pipes *)

(** [for(;;);] *)
Definition spin : U unit := uloop (fun _ : unit => mret (Next tt)) tt.

(** [if(fork() < 0) { printf(msg, s); exit(1); }] *)
Definition fork_or_die (msg : list Z) (s : uarg) : U Z :=
  pid ← fork;
  die_if (pid <? 0) 1 msg [s];;
  mret pid.

Section tests.
(** [loc] is where the arrays of the running test are, [junk] the value of a
    variable that is not initialised. *)
Variables buf loc junk : Z.

Definition exectest (s : uarg) : U unit :=
  unlink_ "echo-ok";;
  pid ← fork_or_die (line "%s: fork failed") s;
  uwhen (pid =? 0)
    (close 1;;
     fd ← open_ "echo-ok" (Z.lor O_CREATE O_WRONLY);
     die_if (fd <? 0) 1 (line "%s: create failed") [s];;
     die_if (negb (fd =? 1)) 1 (line "%s: wrong fd") [s];;
     r ← exec_ "echo" ["echo"; "OK"];
     die_if (r <? 0) 1 (line "%s: exec echo failed") [s]);;
  '(r, xstatus) ← wait_int junk;
  uwhen (negb (r =? pid)) (printf (line "%s: wait failed!") [s]);;
  uwhen (negb (xstatus =? 0)) (exit xstatus);;
  fd ← open_ "echo-ok" O_RDONLY;
  die_if (fd <? 0) 1 (line "%s: open failed") [s];;
  r ← read fd loc 2;
  die_if (negb (r =? 2)) 1 (line "%s: read failed") [s];;
  unlink_ "echo-ok";;
  b0 ← ldb loc;
  b1 ← ldb (loc + 1);
  if (b0 =? 79) && (b1 =? 75) then exit 0 else
  printf (line "%s: wrong output") [s];;
  exit 1.

(** The writer of [pipe1]: [n] rounds of [SZ] bytes, counting up. *)
Definition pipe1_N : Z := 5.
Definition pipe1_SZ : Z := 1033.

Definition pipe1_child (s : uarg) (fds1 : Z) : U unit :=
  ufor 0 pipe1_N (fun n =>
    ufor 0 pipe1_SZ (fun i => stb (buf + i) (n * pipe1_SZ + i));;
    r ← write fds1 buf pipe1_SZ;
    die_if (negb (r =? pipe1_SZ)) 1 (line "%s: pipe1 oops 1") [s]);;
  exit 0.

(** The first [k] bytes of [buf] continue the count at [seq]. *)
Definition check_seq (seq k : Z) : U bool :=
  uloop (fun i =>
    if negb (i <? k) then mret (Done true) else
    b ← ldb (buf + i);
    if negb (Z.land b 0xff =? Z.land (seq + i) 0xff) then mret (Done false) else mret (Next (i + 1))) 0.

(** The reader asks for more each time. It gives the total, or nothing when a
    byte was wrong. *)
Definition pipe1_read (s : uarg) (fds0 : Z) : U (option Z) :=
  uloop (fun '(seq, total, cc) =>
    n ← read fds0 buf cc;
    if negb (0 <? n) then mret (Done (Some total)) else
    ok ← check_seq seq n;
    if negb ok then printf (line "%s: pipe1 oops 2") [s];; mret (Done None) else
    let cc := cc * 2 in
    let cc := if (MAXOPBLOCKS + 2) * BSIZE <? cc then (MAXOPBLOCKS + 2) * BSIZE else cc in
    mret (Next (seq + n, total + n, cc))) (0, 0, 1).

(** The message about the total lacks an argument: its number is taken for the
    string, and what comes next in the registers for the number. *)
Definition pipe1 (s : uarg) : U unit :=
  '(r, fds0, fds1) ← pipe;
  die_if (negb (r =? 0)) 1 (line "%s: pipe() failed") [s];;
  pid ← fork;
  if pid =? 0 then close fds0;; pipe1_child s fds1 else
  if 0 <? pid then
    close fds1;;
    total ← pipe1_read s fds0;
    match total with
    | None => mret tt
    | Some total =>
        die_if (negb (total =? pipe1_N * pipe1_SZ)) 1 (line "%s: pipe1 oops 3 total %d") [Vnum total; Vnum junk];;
        close fds0;;
        '(_, xstatus) ← wait_int junk;
        exit xstatus
    end
  else
    printf (line "%s: fork() failed") [s];;
    exit 1.

Definition killstatus (s : uarg) : U unit :=
  ufor 0 100 (fun _ =>
    pid1 ← fork_or_die (line "%s: fork failed") s;
    uwhen (pid1 =? 0) (uloop (fun _ : unit => getpid;; mret (Next tt)) tt);;
    sleep 1;;
    kill pid1;;
    '(_, xst) ← wait_int junk;
    die_if (negb (xst =? -1)) 1 (line "%s: status should be -1") [s]);;
  exit 0.

Definition preempt (s : uarg) : U unit :=
  pid1 ← fork_or_die (lit "%s: fork failed") s;
  uwhen (pid1 =? 0) spin;;
  pid2 ← fork_or_die (line "%s: fork failed") s;
  uwhen (pid2 =? 0) spin;;
  '(_, pfds0, pfds1) ← pipe;
  pid3 ← fork_or_die (line "%s: fork failed") s;
  uwhen (pid3 =? 0)
    (close pfds0;;
     r ← write_bytes pfds1 [120];
     uwhen (negb (r =? 1)) (printf (lit "%s: preempt write error") [s]);;
     close pfds1;;
     spin);;
  close pfds1;;
  r ← read pfds0 buf ((MAXOPBLOCKS + 2) * BSIZE);
  if negb (r =? 1) then printf (lit "%s: preempt read error") [s] else
  close pfds0;;
  printf (lit "kill... ") [];;
  kill pid1;;
  kill pid2;;
  kill pid3;;
  printf (lit "wait... ") [];;
  wait 0;;
  wait 0;;
  wait 0;; mret tt.

Definition exitwait (s : uarg) : U unit :=
  ufor 0 100 (fun i =>
    pid ← fork_or_die (line "%s: fork failed") s;
    if negb (pid =? 0) then
      '(r, xstate) ← wait_int junk;
      die_if (negb (r =? pid)) 1 (line "%s: wait wrong pid") [s];;
      die_if (negb (i =? xstate)) 1 (line "%s: wait wrong exit status") [s]
    else exit i).

Definition reparent (s : uarg) : U unit :=
  master_pid ← getpid;
  ufor 0 200 (fun _ =>
    pid ← fork_or_die (line "%s: fork failed") s;
    if negb (pid =? 0) then
      r ← wait 0;
      die_if (negb (r =? pid)) 1 (line "%s: wait wrong pid") [s]
    else
      pid2 ← fork;
      uwhen (pid2 <? 0) (kill master_pid;; exit 1);;
      exit 0);;
  exit 0.

Definition twochildren (s : uarg) : U unit :=
  ufor 0 1000 (fun _ =>
    pid1 ← fork_or_die (line "%s: fork failed") s;
    if pid1 =? 0 then exit 0 else
    pid2 ← fork_or_die (line "%s: fork failed") s;
    if pid2 =? 0 then exit 0 else
    wait 0;;
    wait 0;; mret tt).

Definition forkfork_child : U unit :=
  ufor 0 200 (fun _ =>
    pid1 ← fork;
    uwhen (pid1 <? 0) (exit 1);;
    uwhen (pid1 =? 0) (exit 0);;
    wait 0;; mret tt);;
  exit 0.

Definition forkfork (s : uarg) : U unit :=
  ufor 0 2 (fun _ =>
    pid ← fork_or_die (lit "%s: fork failed") s;
    uwhen (pid =? 0) forkfork_child);;
  uloop (fun '(i, xstatus) =>
    if negb (i <? 2) then mret (Done tt) else
    '(_, xstatus) ← wait_int xstatus;
    die_if (negb (xstatus =? 0)) 1 (lit "%s: fork in child failed") [s];;
    mret (Next (i + 1, xstatus))) (0, junk).

Definition forkforkfork (s : uarg) : U unit :=
  unlink_ "stopforking";;
  pid ← fork_or_die (lit "%s: fork failed") s;
  uwhen (pid =? 0)
    (uloop (fun _ : unit =>
       fd ← open_ "stopforking" 0;
       uwhen (0 <=? fd) (exit 0);;
       r ← fork;
       uwhen (r <? 0) (close_open "stopforking" (Z.lor O_CREATE O_RDWR);; mret tt);;
       mret (Next tt)) tt);;
  sleep 20;;
  close_open "stopforking" (Z.lor O_CREATE O_RDWR);;
  wait 0;;
  sleep 10;; mret tt.

Definition reparent2 (s : uarg) : U unit :=
  ufor 0 800 (fun _ =>
    pid1 ← fork;
    die_if (pid1 <? 0) 1 (line "fork failed") [];;
    uwhen (pid1 =? 0) (fork;; fork;; exit 0);;
    wait 0;; mret tt);;
  exit 0.

Definition forktest (s : uarg) : U unit :=
  n ← fork_loop 1000;
  die_if (n =? 0) 1 (line "%s: no fork at all!") [s];;
  die_if (n =? 1000) 1 (line "%s: fork claimed to work 1000 times!") [s];;
  wait_loop (fun msg => printf (lit "%s: " ++ msg) [s]) n;;
  r ← wait 0;
  die_if (negb (r =? -1)) 1 (line "%s: wait got too many") [s].

End tests.

(** ** Files and directories *)

(** A call and the test of its result that ends the program. *)
Definition open_or_die (path : string) (omode : Z) (msg : list Z) (s : uarg) : U Z :=
  fd ← open_ path omode;
  die_if (fd <? 0) 1 msg [s];;
  mret fd.

Definition must (op : U Z) (bad : Z -> bool) (msg : list Z) (s : uarg) : U unit :=
  r ← op;
  die_if (bad r) 1 msg [s].

Definition negative (r : Z) : bool := r <? 0.
Definition nonnegative (r : Z) : bool := 0 <=? r.
Definition nonzero (r : Z) : bool := negb (r =? 0).
Definition zero (r : Z) : bool := r =? 0.

(** [write(fd, "...", k)], and the same with the test of its result. *)
Definition write_str (fd : Z) (str : string) : U Z := write_bytes fd (lit str).

Section tests.
(** [loc] is where the arrays of the running test are, [junk] the value of a
    variable that is not initialised. *)
Variables buf loc junk : Z.

Definition sizeof_buf : Z := (MAXOPBLOCKS + 2) * BSIZE.

(** ** Truncation *)

(** The number of bytes that a read of up to 32 gives. *)
Definition read32 (fd : Z) : U Z := read fd loc 32.

Definition wanted (n want : Z) (s : uarg) (fmt : list Z) : U unit :=
  die_if (negb (n =? want)) 1 fmt [s; Vnum n].

Definition truncate1 (s : uarg) : U unit :=
  unlink_ "truncfile";;
  fd1 ← open_ "truncfile" (Z.lor (Z.lor O_CREATE O_WRONLY) O_TRUNC);
  write_str fd1 "abcd";;
  close fd1;;
  fd2 ← open_ "truncfile" O_RDONLY;
  n ← read32 fd2;
  wanted n 4 s (line "%s: read %d bytes, wanted 4");;
  fd1 ← open_ "truncfile" (Z.lor O_WRONLY O_TRUNC);
  fd3 ← open_ "truncfile" O_RDONLY;
  n ← read32 fd3;
  uwhen (negb (n =? 0)) (printf (line "aaa fd3=%d") [Vnum fd3]);;
  wanted n 0 s (line "%s: read %d bytes, wanted 0");;
  n ← read32 fd2;
  uwhen (negb (n =? 0)) (printf (line "bbb fd2=%d") [Vnum fd2]);;
  wanted n 0 s (line "%s: read %d bytes, wanted 0");;
  write_str fd1 "abcdef";;
  n ← read32 fd3;
  wanted n 6 s (line "%s: read %d bytes, wanted 6");;
  n ← read32 fd2;
  wanted n 2 s (line "%s: read %d bytes, wanted 2");;
  unlink_ "truncfile";;
  close fd1;;
  close fd2;;
  close fd3;; mret tt.

Definition truncate2 (s : uarg) : U unit :=
  unlink_ "truncfile";;
  fd1 ← open_ "truncfile" (Z.lor (Z.lor O_CREATE O_TRUNC) O_WRONLY);
  write_str fd1 "abcd";;
  fd2 ← open_ "truncfile" (Z.lor O_TRUNC O_WRONLY);
  n ← write_str fd1 "x";
  wanted n (-1) s (line "%s: write returned %d, expected -1");;
  unlink_ "truncfile";;
  close fd1;;
  close fd2;; mret tt.

Definition truncate3_child (s : uarg) : U unit :=
  ufor 0 100 (fun _ =>
    fd ← open_or_die "truncfile" O_WRONLY (line "%s: open failed") s;
    n ← write_str fd "1234567890";
    wanted n 10 s (line "%s: write got %d, expected 10");;
    close fd;;
    fd ← open_ "truncfile" O_RDONLY;
    read32 fd;;
    close fd;; mret tt);;
  exit 0.

Definition truncate3 (s : uarg) : U unit :=
  close_open "truncfile" (Z.lor (Z.lor O_CREATE O_TRUNC) O_WRONLY);;
  pid ← fork_or_die (line "%s: fork failed") s;
  uwhen (pid =? 0) (truncate3_child s);;
  ufor 0 150 (fun _ =>
    fd ← open_or_die "truncfile" (Z.lor (Z.lor O_CREATE O_WRONLY) O_TRUNC) (line "%s: open failed") s;
    n ← write_str fd "xxx";
    wanted n 3 s (line "%s: write got %d, expected 3");;
    close fd;; mret tt);;
  '(_, xstatus) ← wait_int junk;
  unlink_ "truncfile";;
  exit xstatus.

(** ** Directories and references to inodes *)

Definition iputtest (s : uarg) : U unit :=
  must (mkdir_ "iputdir") negative (line "%s: mkdir failed") s;;
  must (chdir_ "iputdir") negative (line "%s: chdir iputdir failed") s;;
  must (unlink_ "../iputdir") negative (line "%s: unlink ../iputdir failed") s;;
  must (chdir_ "/") negative (line "%s: chdir / failed") s.

Definition exitiputtest (s : uarg) : U unit :=
  pid ← fork_or_die (line "%s: fork failed") s;
  uwhen (pid =? 0)
    (must (mkdir_ "iputdir") negative (line "%s: mkdir failed") s;;
     must (chdir_ "iputdir") negative (line "%s: child chdir failed") s;;
     must (unlink_ "../iputdir") negative (line "%s: unlink ../iputdir failed") s;;
     exit 0);;
  '(_, xstatus) ← wait_int junk;
  exit xstatus.

Definition openiputtest (s : uarg) : U unit :=
  must (mkdir_ "oidir") negative (line "%s: mkdir oidir failed") s;;
  pid ← fork_or_die (line "%s: fork failed") s;
  uwhen (pid =? 0)
    (must (open_ "oidir" O_RDWR) nonnegative (line "%s: open directory for write succeeded") s;;
     exit 0);;
  sleep 1;;
  must (unlink_ "oidir") nonzero (line "%s: unlink failed") s;;
  '(_, xstatus) ← wait_int junk;
  exit xstatus.

Definition opentest (s : uarg) : U unit :=
  fd ← open_or_die "echo" 0 (line "%s: open echo failed!") s;
  close fd;;
  must (open_ "doesnotexist" 0) nonnegative (line "%s: open doesnotexist succeeded!") s.

Definition writetest (s : uarg) : U unit :=
  fd ← open_or_die "small" (Z.lor O_CREATE O_RDWR) (line "%s: error: creat small failed!") s;
  ufor 0 100 (fun i =>
    r ← write_str fd "aaaaaaaaaa";
    die_if (negb (r =? 10)) 1 (line "%s: error: write aa %d new file failed") [s; Vnum i];;
    r ← write_str fd "bbbbbbbbbb";
    die_if (negb (r =? 10)) 1 (line "%s: error: write bb %d new file failed") [s; Vnum i]);;
  close fd;;
  fd ← open_or_die "small" O_RDONLY (line "%s: error: open small failed!") s;
  i ← read fd buf (100 * 10 * 2);
  die_if (negb (i =? 100 * 10 * 2)) 1 (line "%s: read failed") [s];;
  close fd;;
  must (unlink_ "small") negative (line "%s: unlink small failed") s.

(** The blocks of the file, which are numbered. *)
Definition writebig_read (s : uarg) (fd : Z) : U unit :=
  uloop (fun n =>
    i ← read fd buf BSIZE;
    if i =? 0 then
      die_if (n =? MAXFILE - 1) 1 (lit "%s: read only %d blocks from big") [s; Vnum n];;
      mret (Done tt)
    else
    die_if (negb (i =? BSIZE)) 1 (line "%s: read failed %d") [s; Vnum i];;
    v ← ld_int buf;
    die_if (negb (v =? n)) 1 (line "%s: read content of block %d is %d") [s; Vnum n; Vnum v];;
    mret (Next (n + 1))) 0.

Definition writebig (s : uarg) : U unit :=
  fd ← open_or_die "big" (Z.lor O_CREATE O_RDWR) (line "%s: error: creat big failed!") s;
  ufor 0 MAXFILE (fun i =>
    stw 4 buf i;;
    r ← write fd buf BSIZE;
    die_if (negb (r =? BSIZE)) 1 (line "%s: error: write big file failed") [s; Vnum i]);;
  close fd;;
  fd ← open_or_die "big" O_RDONLY (line "%s: error: open big failed!") s;
  writebig_read s fd;;
  close fd;;
  must (unlink_ "big") negative (line "%s: unlink big failed") s.

(** [name] is at [loc]. *)
Definition createtest (s : uarg) : U unit :=
  let name := loc in
  stb name 97;;
  stb (name + 2) 0;;
  ufor 0 52 (fun i =>
    stb (name + 1) (48 + i);;
    fd ← open name (Z.lor O_CREATE O_RDWR);
    close fd;; mret tt);;
  stb name 97;;
  stb (name + 2) 0;;
  ufor 0 52 (fun i =>
    stb (name + 1) (48 + i);;
    unlink name;; mret tt).

Definition dirtest (s : uarg) : U unit :=
  must (mkdir_ "dir0") negative (line "%s: mkdir failed") s;;
  must (chdir_ "dir0") negative (line "%s: chdir dir0 failed") s;;
  must (chdir_ "..") negative (line "%s: chdir .. failed") s;;
  must (unlink_ "dir0") negative (line "%s: unlink dir0 failed") s.

(** ** Several processes *)

(** The numbers of ['c'] and of ['p'] in a list of bytes, added to counts. *)
Definition count_cp (bs : list Z) (nc np : Z) : Z * Z :=
  fold_left (fun '(nc, np) b =>
    (if b =? 99 then nc + 1 else nc, if b =? 112 then np + 1 else np)) bs (nc, np).

(** The array [buf] of this test is at [loc]; the whole of it is counted after
    each read, however short. *)
Definition sharedfd (s : uarg) : U unit :=
  unlink_ "sharedfd";;
  fd ← open_ "sharedfd" (Z.lor O_CREATE O_RDWR);
  die_if (fd <? 0) 1 (lit "%s: cannot open sharedfd for writing") [s];;
  pid ← fork;
  memset loc (if pid =? 0 then 99 else 112) 10;;
  ufor 0 1000 (fun _ =>
    r ← write fd loc 10;
    die_if (negb (r =? 10)) 1 (line "%s: write sharedfd failed") [s]);;
  uwhen (pid =? 0) (exit 0);;
  '(_, xstatus) ← wait_int junk;
  uwhen (negb (xstatus =? 0)) (exit xstatus);;
  close fd;;
  fd ← open_or_die "sharedfd" 0 (line "%s: cannot open sharedfd for reading") s;
  '(nc, np) ← uloop (fun '(nc, np) =>
    n ← read fd loc 10;
    if negb (0 <? n) then mret (Done (nc, np)) else
    bs ← load loc 10;
    mret (Next (count_cp bs nc np))) (0, 0);
  close fd;;
  unlink_ "sharedfd";;
  if (nc =? 1000 * 10) && (np =? 1000 * 10) then exit 0 else
  printf (line "%s: nc/np test fails") [s];;
  exit 1.

Definition fourfiles_name (i : Z) : list Z := [102; 48 + i].

Definition fourfiles_child (s : uarg) (pi : Z) : U unit :=
  fd ← open_bytes (fourfiles_name pi) (Z.lor O_CREATE O_RDWR);
  die_if (fd <? 0) 1 (line "create failed") [s];;
  memset buf (48 + pi) 500;;
  ufor 0 12 (fun _ =>
    n ← write fd buf 500;
    die_if (negb (n =? 500)) 1 (line "write failed %d") [Vnum n]);;
  exit 0.

(** Read file [i] to its end: every byte must be its digit. *)
Definition fourfiles_read (s : uarg) (fd i : Z) : U Z :=
  uloop (fun total =>
    n ← read fd buf sizeof_buf;
    if negb (0 <? n) then mret (Done total) else
    bs ← load buf (Z.to_nat n);
    ueach bs (fun b => die_if (negb (b =? 48 + i)) 1 (line "wrong char") [s]);;
    mret (Next (total + n))) 0.

Definition fourfiles (s : uarg) : U unit :=
  ufor 0 4 (fun pi =>
    call (Sunlink (fourfiles_name pi));;
    pid ← fork_or_die (line "fork failed") s;
    uwhen (pid =? 0) (fourfiles_child s pi));;
  uloop (fun '(pi, xstatus) =>
    if negb (pi <? 4) then mret (Done tt) else
    '(_, xstatus) ← wait_int xstatus;
    uwhen (negb (xstatus =? 0)) (exit xstatus);;
    mret (Next (pi + 1, xstatus))) (0, junk);;
  ufor 0 4 (fun i =>
    fd ← open_bytes (fourfiles_name i) 0;
    total ← fourfiles_read s fd i;
    close fd;;
    die_if (negb (total =? 12 * 500)) 1 (line "wrong length %d") [Vnum total];;
    call (Sunlink (fourfiles_name i));; mret tt).

(** [name] is at [loc]. *)
Definition createdelete_child (s : uarg) (pi : Z) : U unit :=
  let name := loc in
  stb name (112 + pi);;
  stb (name + 2) 0;;
  ufor 0 20 (fun i =>
    stb (name + 1) (48 + i);;
    fd ← open name (Z.lor O_CREATE O_RDWR);
    die_if (fd <? 0) 1 (line "%s: create failed") [s];;
    close fd;;
    uwhen ((0 <? i) && (i mod 2 =? 0))
      (stb (name + 1) (48 + i / 2);;
       r ← unlink name;
       die_if (r <? 0) 1 (line "%s: unlink failed") [s]));;
  exit 0.

(** The names at the end are made of [i] twice, not of [pi] and [i]. *)
Definition createdelete (s : uarg) : U unit :=
  let name := loc in
  ufor 0 4 (fun pi =>
    pid ← fork_or_die (line "fork failed") s;
    uwhen (pid =? 0) (createdelete_child s pi));;
  uloop (fun '(pi, xstatus) =>
    if negb (pi <? 4) then mret (Done tt) else
    '(_, xstatus) ← wait_int xstatus;
    uwhen (negb (xstatus =? 0)) (exit 1);;
    mret (Next (pi + 1, xstatus))) (0, junk);;
  store name [0; 0; 0];;
  ufor 0 20 (fun i =>
    ufor 0 4 (fun pi =>
      stb name (112 + pi);;
      stb (name + 1) (48 + i);;
      fd ← open name 0;
      (if ((i =? 0) || (20 / 2 <=? i)) && (fd <? 0) then
         printf (line "%s: oops createdelete %s didn't exist") [s; Vnum name];; exit 1
       else
         die_if ((1 <=? i) && (i <? 20 / 2) && (0 <=? fd)) 1 (line "%s: oops createdelete %s did exist") [s; Vnum name]);;
      uwhen (0 <=? fd) (close fd;; mret tt)));;
  ufor 0 20 (fun i =>
    ufor 0 4 (fun _ =>
      stb name (112 + i);;
      stb (name + 1) (48 + i);;
      unlink name;; mret tt)).

(** ** Links *)

Definition unlinkread (s : uarg) : U unit :=
  fd ← open_or_die "unlinkread" (Z.lor O_CREATE O_RDWR) (line "%s: create unlinkread failed") s;
  write_str fd "hello";;
  close fd;;
  fd ← open_or_die "unlinkread" O_RDWR (line "%s: open unlinkread failed") s;
  must (unlink_ "unlinkread") nonzero (line "%s: unlink unlinkread failed") s;;
  fd1 ← open_ "unlinkread" (Z.lor O_CREATE O_RDWR);
  write_str fd1 "yyy";;
  close fd1;;
  r ← read fd buf sizeof_buf;
  die_if (negb (r =? 5)) 1 (lit "%s: unlinkread read failed") [s];;
  b ← ldb buf;
  die_if (negb (b =? 104)) 1 (line "%s: unlinkread wrong data") [s];;
  r ← write fd buf 10;
  die_if (negb (r =? 10)) 1 (line "%s: unlinkread write failed") [s];;
  close fd;;
  unlink_ "unlinkread";; mret tt.

Definition linktest (s : uarg) : U unit :=
  unlink_ "lf1";;
  unlink_ "lf2";;
  fd ← open_or_die "lf1" (Z.lor O_CREATE O_RDWR) (line "%s: create lf1 failed") s;
  r ← write_str fd "hello";
  die_if (negb (r =? 5)) 1 (line "%s: write lf1 failed") [s];;
  close fd;;
  must (link_ "lf1" "lf2") negative (line "%s: link lf1 lf2 failed") s;;
  unlink_ "lf1";;
  must (open_ "lf1" 0) nonnegative (line "%s: unlinked lf1 but it is still there!") s;;
  fd ← open_or_die "lf2" 0 (line "%s: open lf2 failed") s;
  r ← read fd buf sizeof_buf;
  die_if (negb (r =? 5)) 1 (line "%s: read lf2 failed") [s];;
  close fd;;
  must (link_ "lf2" "lf2") nonnegative (line "%s: link lf2 lf2 succeeded! oops") s;;
  unlink_ "lf2";;
  must (link_ "lf2" "lf1") nonnegative (line "%s: link non-existent succeeded! oops") s;;
  must (link_ "." "lf1") nonnegative (line "%s: link . lf1 succeeded! oops") s.

(** [link("C0", file)] *)
Definition link_to (old : string) (file : Z) : U Z := new ← cstring file; call (Slink (lit old) new).

(** In [concreate], [file], [fa] and [de] are at [loc], [loc + 16] and [loc + 64]. *)
Definition concreate_make (file i : Z) : U unit :=
  stb (file + 1) (48 + i);;
  unlink file;;
  pid ← fork;
  (if negb (pid =? 0) && (i mod 3 =? 1) then link_to "C0" file;; mret tt
   else if (pid =? 0) && (i mod 5 =? 1) then link_to "C0" file;; mret tt
   else
     fd ← open file (Z.lor O_CREATE O_RDWR);
     die_if (fd <? 0) 1 (line "concreate create %s failed") [Vnum file];;
     close fd;; mret tt);;
  if pid =? 0 then exit 0 else
  '(_, xstatus) ← wait_int junk;
  uwhen (negb (xstatus =? 0)) (exit 1).

(** The entries of the directory that are files of this test, each counted
    once. *)
Definition concreate_list (s : uarg) (fd fa de : Z) : U Z :=
  uloop (fun n =>
    r ← read fd de 16;
    if negb (0 <? r) then mret (Done n) else
    inum ← ldw 2 de;
    if inum =? 0 then mret (Next n) else
    c0 ← ldb (de + 2);
    c2 ← ldb (de + 4);
    if (c0 =? 67) && (c2 =? 0) then
      c1 ← ldb (de + 3);
      let i := c1 - 48 in
      die_if ((i <? 0) || (40 <=? i)) 1 (line "%s: concreate weird file %s") [s; Vnum (de + 2)];;
      seen ← ldb (fa + i);
      die_if (negb (seen =? 0)) 1 (line "%s: concreate duplicate file %s") [s; Vnum (de + 2)];;
      stb (fa + i) 1;;
      mret (Next (n + 1))
    else mret (Next n)) 0.

Definition concreate_use (s : uarg) (file i : Z) : U unit :=
  stb (file + 1) (48 + i);;
  pid ← fork_or_die (line "%s: fork failed") s;
  (if ((i mod 3 =? 0) && (pid =? 0)) || ((i mod 3 =? 1) && negb (pid =? 0)) then
     ufor 0 6 (fun _ => fd ← open file 0; close fd;; mret tt)
   else
     ufor 0 6 (fun _ => unlink file;; mret tt));;
  if pid =? 0 then exit 0 else wait 0;; mret tt.

Definition concreate (s : uarg) : U unit :=
  let file := loc in
  let fa := loc + 16 in
  stb file 67;;
  stb (file + 2) 0;;
  ufor 0 40 (concreate_make file);;
  memset fa 0 40;;
  fd ← open_ "." 0;
  n ← concreate_list s fd fa (loc + 64);
  close fd;;
  die_if (negb (n =? 40)) 1 (line "%s: concreate not enough files in directory listing") [s];;
  ufor 0 40 (concreate_use s file).

Definition linkunlink (s : uarg) : U unit :=
  unlink_ "x";;
  pid ← fork_or_die (line "%s: fork failed") s;
  uloop (fun '(i, x) =>
    if negb (i <? 100) then mret (Done tt) else
    let x := u32 (x * 1103515245 + 12345) in
    (if x mod 3 =? 0 then close_open "x" (Z.lor O_RDWR O_CREATE);; mret tt
     else if x mod 3 =? 1 then link_ "cat" "x";; mret tt
     else unlink_ "x";; mret tt);;
    mret (Next (i + 1, x))) (0, if negb (pid =? 0) then 1 else 97);;
  if negb (pid =? 0) then wait 0;; mret tt else exit 0.

(** [name] is at [loc]. *)
Definition bigdir_name (name i : Z) : U unit :=
  stb name 120;;
  stb (name + 1) (48 + i / 64);;
  stb (name + 2) (48 + i mod 64);;
  stb (name + 3) 0.

Definition bigdir (s : uarg) : U unit :=
  let name := loc in
  unlink_ "bd";;
  fd ← open_or_die "bd" O_CREATE (line "%s: bigdir create failed") s;
  close fd;;
  ufor 0 500 (fun i =>
    bigdir_name name i;;
    r ← link_to "bd" name;
    die_if (negb (r =? 0)) 1 (line "%s: bigdir link(bd, %s) failed") [s; Vnum name]);;
  unlink_ "bd";;
  ufor 0 500 (fun i =>
    bigdir_name name i;;
    r ← unlink name;
    die_if (negb (r =? 0)) 1 (lit "%s: bigdir unlink failed") [s]).

(** [subdir], up to the moves between directories and from there on. *)
Definition subdir_make (s : uarg) : U unit :=
  unlink_ "ff";;
  must (mkdir_ "dd") nonzero (line "%s: mkdir dd failed") s;;
  fd ← open_or_die "dd/ff" (Z.lor O_CREATE O_RDWR) (line "%s: create dd/ff failed") s;
  write_str fd "ff";;
  close fd;;
  must (unlink_ "dd") nonnegative (line "%s: unlink dd (non-empty dir) succeeded!") s;;
  must (mkdir_ "/dd/dd") nonzero (line "subdir mkdir dd/dd failed") s;;
  fd ← open_or_die "dd/dd/ff" (Z.lor O_CREATE O_RDWR) (line "%s: create dd/dd/ff failed") s;
  write_str fd "FF";;
  close fd;;
  fd ← open_or_die "dd/dd/../ff" 0 (line "%s: open dd/dd/../ff failed") s;
  cc ← read fd buf sizeof_buf;
  b ← ldb buf;
  die_if (negb (cc =? 2) || negb (b =? 102)) 1 (line "%s: dd/dd/../ff wrong content") [s];;
  close fd;;
  must (link_ "dd/dd/ff" "dd/dd/ffff") nonzero (line "link dd/dd/ff dd/dd/ffff failed") s;;
  must (unlink_ "dd/dd/ff") nonzero (line "%s: unlink dd/dd/ff failed") s;;
  must (open_ "dd/dd/ff" O_RDONLY) nonnegative (line "%s: open (unlinked) dd/dd/ff succeeded") s.

Definition subdir_use (s : uarg) : U unit :=
  must (chdir_ "dd") nonzero (line "%s: chdir dd failed") s;;
  must (chdir_ "dd/../../dd") nonzero (line "%s: chdir dd/../../dd failed") s;;
  must (chdir_ "dd/../../../dd") nonzero (line "chdir dd/../../dd failed") s;;
  must (chdir_ "./..") nonzero (line "%s: chdir ./.. failed") s;;
  fd ← open_or_die "dd/dd/ffff" 0 (line "%s: open dd/dd/ffff failed") s;
  r ← read fd buf sizeof_buf;
  die_if (negb (r =? 2)) 1 (line "%s: read dd/dd/ffff wrong len") [s];;
  close fd;;
  must (open_ "dd/dd/ff" O_RDONLY) nonnegative (line "%s: open (unlinked) dd/dd/ff succeeded!") s;;
  must (open_ "dd/ff/ff" (Z.lor O_CREATE O_RDWR)) nonnegative (line "%s: create dd/ff/ff succeeded!") s;;
  must (open_ "dd/xx/ff" (Z.lor O_CREATE O_RDWR)) nonnegative (line "%s: create dd/xx/ff succeeded!") s;;
  must (open_ "dd" O_CREATE) nonnegative (line "%s: create dd succeeded!") s;;
  must (open_ "dd" O_RDWR) nonnegative (line "%s: open dd rdwr succeeded!") s;;
  must (open_ "dd" O_WRONLY) nonnegative (line "%s: open dd wronly succeeded!") s;;
  must (link_ "dd/ff/ff" "dd/dd/xx") zero (line "%s: link dd/ff/ff dd/dd/xx succeeded!") s;;
  must (link_ "dd/xx/ff" "dd/dd/xx") zero (line "%s: link dd/xx/ff dd/dd/xx succeeded!") s;;
  must (link_ "dd/ff" "dd/dd/ffff") zero (line "%s: link dd/ff dd/dd/ffff succeeded!") s;;
  must (mkdir_ "dd/ff/ff") zero (line "%s: mkdir dd/ff/ff succeeded!") s;;
  must (mkdir_ "dd/xx/ff") zero (line "%s: mkdir dd/xx/ff succeeded!") s;;
  must (mkdir_ "dd/dd/ffff") zero (line "%s: mkdir dd/dd/ffff succeeded!") s;;
  must (unlink_ "dd/xx/ff") zero (line "%s: unlink dd/xx/ff succeeded!") s;;
  must (unlink_ "dd/ff/ff") zero (line "%s: unlink dd/ff/ff succeeded!") s;;
  must (chdir_ "dd/ff") zero (line "%s: chdir dd/ff succeeded!") s;;
  must (chdir_ "dd/xx") zero (line "%s: chdir dd/xx succeeded!") s;;
  must (unlink_ "dd/dd/ffff") nonzero (line "%s: unlink dd/dd/ff failed") s;;
  must (unlink_ "dd/ff") nonzero (line "%s: unlink dd/ff failed") s;;
  must (unlink_ "dd") zero (line "%s: unlink non-empty dd succeeded!") s;;
  must (unlink_ "dd/dd") negative (line "%s: unlink dd/dd failed") s;;
  must (unlink_ "dd") negative (line "%s: unlink dd failed") s.

Definition subdir (s : uarg) : U unit := subdir_make s;; subdir_use s.

(** ** Large files *)

Definition bigwrite (s : uarg) : U unit :=
  unlink_ "bigwrite";;
  uloop (fun sz =>
    if negb (sz <? sizeof_buf) then mret (Done tt) else
    fd ← open_or_die "bigwrite" (Z.lor O_CREATE O_RDWR) (line "%s: cannot create bigwrite") s;
    ufor 0 2 (fun _ =>
      cc ← write fd buf sz;
      die_if (negb (cc =? sz)) 1 (line "%s: write(%d) ret %d") [s; Vnum sz; Vnum cc]);;
    close fd;;
    unlink_ "bigwrite";;
    mret (Next (sz + 471))) 499.

(** [name] is at [loc]. *)
Definition manywrites_child (s : uarg) (ci : Z) : U unit :=
  let name := loc in
  stb name 98;;
  stb (name + 1) (97 + ci);;
  stb (name + 2) 0;;
  unlink name;;
  ufor 0 30 (fun _ =>
    ufor 0 (ci + 1) (fun _ =>
      fd ← open name (Z.lor O_CREATE O_RDWR);
      die_if (fd <? 0) 1 (line "%s: cannot create %s") [s; Vnum name];;
      let sz := sizeof_buf in
      cc ← write fd buf sz;
      die_if (negb (cc =? sz)) 1 (line "%s: write(%d) ret %d") [s; Vnum sz; Vnum cc];;
      close fd;; mret tt);;
    unlink name;; mret tt);;
  unlink name;;
  exit 0.

Definition manywrites (s : uarg) : U unit :=
  ufor 0 4 (fun ci =>
    pid ← fork;
    die_if (pid <? 0) 1 (line "fork failed") [];;
    uwhen (pid =? 0) (manywrites_child s ci));;
  ufor 0 4 (fun _ =>
    '(_, st) ← wait_int 0;
    uwhen (negb (st =? 0)) (exit st));;
  exit 0.

(** Reading back half a piece at a time; the total. *)
Definition bigfile_read (s : uarg) (fd : Z) : U Z :=
  uloop (fun '(i, total) =>
    cc ← read fd buf (600 / 2);
    die_if (cc <? 0) 1 (line "%s: read bigfile failed") [s];;
    if cc =? 0 then mret (Done total) else
    die_if (negb (cc =? 600 / 2)) 1 (line "%s: short read bigfile") [s];;
    b0 ← ldb buf;
    b1 ← ldb (buf + (600 / 2 - 1));
    die_if (negb (b0 =? i / 2) || negb (b1 =? i / 2)) 1 (line "%s: read bigfile wrong data") [s];;
    mret (Next (i + 1, total + cc))) (0, 0).

Definition bigfile (s : uarg) : U unit :=
  unlink_ "bigfile.dat";;
  fd ← open_or_die "bigfile.dat" (Z.lor O_CREATE O_RDWR) (lit "%s: cannot create bigfile") s;
  ufor 0 20 (fun i =>
    memset buf i 600;;
    r ← write fd buf 600;
    die_if (negb (r =? 600)) 1 (line "%s: write bigfile failed") [s]);;
  close fd;;
  fd ← open_or_die "bigfile.dat" 0 (line "%s: cannot open bigfile") s;
  total ← bigfile_read s fd;
  close fd;;
  die_if (negb (total =? 20 * 600)) 1 (line "%s: read bigfile wrong total") [s];;
  unlink_ "bigfile.dat";; mret tt.

(** ** Names *)

Definition fourteen (s : uarg) : U unit :=
  must (mkdir_ "12345678901234") nonzero (line "%s: mkdir 12345678901234 failed") s;;
  must (mkdir_ "12345678901234/123456789012345") nonzero (line "%s: mkdir 12345678901234/123456789012345 failed") s;;
  fd ← open_or_die "123456789012345/123456789012345/123456789012345" O_CREATE
    (line "%s: create 123456789012345/123456789012345/123456789012345 failed") s;
  close fd;;
  fd ← open_or_die "12345678901234/12345678901234/12345678901234" 0
    (line "%s: open 12345678901234/12345678901234/12345678901234 failed") s;
  close fd;;
  must (mkdir_ "12345678901234/12345678901234") zero (line "%s: mkdir 12345678901234/12345678901234 succeeded!") s;;
  must (mkdir_ "123456789012345/12345678901234") zero (line "%s: mkdir 12345678901234/123456789012345 succeeded!") s;;
  unlink_ "123456789012345/12345678901234";;
  unlink_ "12345678901234/12345678901234";;
  unlink_ "12345678901234/12345678901234/12345678901234";;
  unlink_ "123456789012345/123456789012345/123456789012345";;
  unlink_ "12345678901234/123456789012345";;
  unlink_ "12345678901234";; mret tt.

Definition rmdot (s : uarg) : U unit :=
  must (mkdir_ "dots") nonzero (line "%s: mkdir dots failed") s;;
  must (chdir_ "dots") nonzero (line "%s: chdir dots failed") s;;
  must (unlink_ ".") zero (line "%s: rm . worked!") s;;
  must (unlink_ "..") zero (line "%s: rm .. worked!") s;;
  must (chdir_ "/") nonzero (line "%s: chdir / failed") s;;
  must (unlink_ "dots/.") zero (line "%s: unlink dots/. worked!") s;;
  must (unlink_ "dots/..") zero (line "%s: unlink dots/.. worked!") s;;
  must (unlink_ "dots") nonzero (line "%s: unlink dots failed!") s.

Definition dirfile (s : uarg) : U unit :=
  fd ← open_or_die "dirfile" O_CREATE (line "%s: create dirfile failed") s;
  close fd;;
  must (chdir_ "dirfile") zero (line "%s: chdir dirfile succeeded!") s;;
  must (open_ "dirfile/xx" 0) nonnegative (line "%s: create dirfile/xx succeeded!") s;;
  must (open_ "dirfile/xx" O_CREATE) nonnegative (line "%s: create dirfile/xx succeeded!") s;;
  must (mkdir_ "dirfile/xx") zero (line "%s: mkdir dirfile/xx succeeded!") s;;
  must (unlink_ "dirfile/xx") zero (line "%s: unlink dirfile/xx succeeded!") s;;
  must (link_ "README" "dirfile/xx") zero (line "%s: link to dirfile/xx succeeded!") s;;
  must (unlink_ "dirfile") nonzero (line "%s: unlink dirfile failed!") s;;
  must (open_ "." O_RDWR) nonnegative (line "%s: open . for writing succeeded!") s;;
  fd ← open_ "." 0;
  r ← write_str fd "x";
  die_if (0 <? r) 1 (line "%s: write . succeeded!") [s];;
  close fd;; mret tt.

(** [fd = open(path, O_CREATE); if(fd >= 0) close(fd);] *)
Definition touch (path : string) : U unit :=
  fd ← open_ path O_CREATE;
  uwhen (0 <=? fd) (close fd;; mret tt).

Definition iref (s : uarg) : U unit :=
  ufor 0 (NINODE + 1) (fun _ =>
    must (mkdir_ "irefd") nonzero (line "%s: mkdir irefd failed") s;;
    must (chdir_ "irefd") nonzero (line "%s: chdir irefd failed") s;;
    call (Smkdir []);;
    call (Slink (lit "README") []);;
    fd ← open_bytes [] O_CREATE;
    uwhen (0 <=? fd) (close fd;; mret tt);;
    touch "xx";;
    unlink_ "xx";; mret tt);;
  ufor 0 (NINODE + 1) (fun _ =>
    chdir_ "..";;
    unlink_ "irefd";; mret tt);;
  chdir_ "/";; mret tt.

(** ** A full disk *)

(** [name] is at [loc]. *)
Definition fsfull_name (name nfiles : Z) : U unit :=
  stb name 102;;
  stb (name + 1) (48 + nfiles / 1000);;
  stb (name + 2) (48 + (nfiles mod 1000) / 100);;
  stb (name + 3) (48 + (nfiles mod 100) / 10);;
  stb (name + 4) (48 + nfiles mod 10);;
  stb (name + 5) 0.

(** Write blocks until one does not fit; the number of bytes written. *)
Definition fsfull_write (fd : Z) : U Z :=
  uloop (fun total =>
    cc ← write fd buf BSIZE;
    if cc <? BSIZE then mret (Done total) else mret (Next (total + cc))) 0.

Definition fsfull : U unit :=
  let name := loc in
  printf (line "fsfull test") [];;
  nfiles ← uloop (fun nfiles =>
    fsfull_name name nfiles;;
    printf (line "writing %s") [Vnum name];;
    fd ← open name (Z.lor O_CREATE O_RDWR);
    if fd <? 0 then printf (line "open %s failed") [Vnum name];; mret (Done nfiles) else
    total ← fsfull_write fd;
    printf (line "wrote %d bytes") [Vnum total];;
    close fd;;
    if total =? 0 then mret (Done nfiles) else mret (Next (nfiles + 1))) 0;
  uloop (fun nfiles =>
    if negb (0 <=? nfiles) then mret (Done tt) else
    fsfull_name name nfiles;;
    unlink name;;
    mret (Next (nfiles - 1))) nfiles;;
  printf (line "fsfull test finished") [].

End tests.

(** ** Memory, and system calls with bad pointers *)

Definition BUFSZ : Z := (MAXOPBLOCKS + 2) * BSIZE.

Section tests.
(** [loc] is where the arrays of the running test are, [big] and [uninit] are
    static arrays, [echo] and [nosuchfile] the addresses of these constants, [sp]
    is the stack pointer, [base] the static header of [umalloc.c], and [junk] the
    value of a variable that is not initialised. *)
Variables buf loc big uninit echo nosuchfile sp base junk : Z.

Definition wild_addrs : list Z := [0x80000000; 0xffffffffffffffff].

Definition copyin (s : uarg) : U unit :=
  ueach wild_addrs (fun addr =>
    fd ← open_ "copyin1" (Z.lor O_CREATE O_WRONLY);
    die_if (fd <? 0) 1 (line "open(copyin1) failed") [];;
    n ← raw SYS_write [fd; addr; 8192];
    die_if (0 <=? n) 1 (line "write(fd, %p, 8192) returned %d, not -1") [Vnum addr; Vnum n];;
    close fd;;
    unlink_ "copyin1";;
    n ← raw SYS_write [1; addr; 8192];
    die_if (0 <? n) 1 (line "write(1, %p, 8192) returned %d, not -1 or 0") [Vnum addr; Vnum n];;
    '(r, fds0, fds1) ← pipe;
    die_if (r <? 0) 1 (line "pipe() failed") [];;
    n ← raw SYS_write [fds1; addr; 8192];
    die_if (0 <? n) 1 (line "write(pipe, %p, 8192) returned %d, not -1 or 0") [Vnum addr; Vnum n];;
    close fds0;;
    close fds1;; mret tt).

Definition copyout (s : uarg) : U unit :=
  ueach wild_addrs (fun addr =>
    fd ← open_ "README" 0;
    die_if (fd <? 0) 1 (line "open(README) failed") [];;
    n ← raw SYS_read [fd; addr; 8192];
    die_if (0 <? n) 1 (line "read(fd, %p, 8192) returned %d, not -1 or 0") [Vnum addr; Vnum n];;
    close fd;;
    '(r, fds0, fds1) ← pipe;
    die_if (r <? 0) 1 (line "pipe() failed") [];;
    n ← write_bytes fds1 [120];
    die_if (negb (n =? 1)) 1 (line "pipe write failed") [];;
    n ← raw SYS_read [fds0; addr; 8192];
    die_if (0 <? n) 1 (line "read(pipe, %p, 8192) returned %d, not -1 or 0") [Vnum addr; Vnum n];;
    close fds0;;
    close fds1;; mret tt).

Definition copyinstr1 (s : uarg) : U unit :=
  ueach wild_addrs (fun addr =>
    fd ← raw SYS_open [addr; Z.lor O_CREATE O_WRONLY];
    die_if (0 <=? fd) 1 (line "open(%p) returned %d, not -1") [Vnum addr; Vnum fd]).

(** [b] is at [loc]. *)
Definition copyinstr2 (s : uarg) : U unit :=
  let b := loc in
  ufor 0 MAXPATH (fun i => stb (b + i) 120);;
  stb (b + MAXPATH) 0;;
  ret ← unlink b;
  die_if (negb (ret =? -1)) 1 (line "unlink(%s) returned %d, not -1") [Vnum b; Vnum ret];;
  fd ← open b (Z.lor O_CREATE O_WRONLY);
  die_if (negb (fd =? -1)) 1 (line "open(%s) returned %d, not -1") [Vnum b; Vnum fd];;
  ret ← link b b;
  die_if (negb (ret =? -1)) 1 (line "link(%s, %s) returned %d, not -1") [Vnum b; Vnum b; Vnum ret];;
  path ← cstring b;
  ret ← call (Sexec path [lit "xx"]);
  die_if (negb (ret =? -1)) 1 (line "exec(%s) returned %d, not -1") [Vnum b; Vnum fd];;
  pid ← fork;
  die_if (pid <? 0) 1 (line "fork failed") [];;
  uwhen (pid =? 0)
    (ufor 0 PGSIZE (fun i => stb (big + i) 120);;
     stb (big + PGSIZE) 0;;
     arg ← cstring big;
     ret ← call (Sexec (lit "echo") [arg; arg; arg]);
     die_if (negb (ret =? -1)) 1 (line "exec(echo, BIG) returned %d, not -1") [Vnum fd];;
     exit 747);;
  '(_, st) ← wait_int 0;
  die_if (negb (st =? 747)) 1 (line "exec(echo, BIG) succeeded, should have failed") [].

(** The string at [b] runs over the end of the memory, so the kernel gets the
    pointer; [args] is at [loc]. *)
Definition copyinstr3 (s : uarg) : U unit :=
  sbrk 8192;;
  top ← sbrk 0;
  uwhen (negb (top mod PGSIZE =? 0)) (sbrk (PGSIZE - top mod PGSIZE);; mret tt);;
  top ← sbrk 0;
  die_if (negb (top mod PGSIZE =? 0)) 1 (line "oops") [];;
  let b := top - 1 in
  stb b 120;;
  ret ← raw SYS_unlink [b];
  die_if (negb (ret =? -1)) 1 (line "unlink(%s) returned %d, not -1") [Vnum b; Vnum ret];;
  fd ← raw SYS_open [b; Z.lor O_CREATE O_WRONLY];
  die_if (negb (fd =? -1)) 1 (line "open(%s) returned %d, not -1") [Vnum b; Vnum fd];;
  ret ← raw SYS_link [b; b];
  die_if (negb (ret =? -1)) 1 (line "link(%s, %s) returned %d, not -1") [Vnum b; Vnum b; Vnum ret];;
  ret ← raw SYS_exec [b; loc];
  die_if (negb (ret =? -1)) 1 (line "exec(%s) returned %d, not -1") [Vnum b; Vnum fd].

Definition rwsbrk (s : uarg) : U unit :=
  a ← sbrk 8192;
  die_if (a =? -1) 1 (line "sbrk(rwsbrk) failed") [];;
  r ← sbrk (-8192);
  die_if (r =? -1) 1 (line "sbrk(rwsbrk) shrink failed") [];;
  fd ← open_ "rwsbrk" (Z.lor O_CREATE O_WRONLY);
  die_if (fd <? 0) 1 (line "open(rwsbrk) failed") [];;
  n ← raw SYS_write [fd; a + 4096; 1024];
  die_if (0 <=? n) 1 (line "write(fd, %p, 1024) returned %d, not -1") [Vnum (a + 4096); Vnum n];;
  close fd;;
  unlink_ "rwsbrk";;
  fd ← open_ "README" O_RDONLY;
  die_if (fd <? 0) 1 (line "open(rwsbrk) failed") [];;
  n ← raw SYS_read [fd; a + 4096; 10];
  die_if (0 <=? n) 1 (line "read(fd, %p, 10) returned %d, not -1") [Vnum (a + 4096); Vnum n];;
  close fd;;
  exit 0.

(** ** Growing and shrinking *)

Definition TOOMUCH : Z := 1024 * 1024 * 1024.
Definition BIG : Z := 100 * 1024 * 1024.

(** The loop that grows by one byte at a time from [a]; the end of it. *)
Definition sbrk_bytes (s : uarg) (a : Z) : U Z :=
  uloop (fun '(i, a) =>
    if negb (i <? 5000) then mret (Done a) else
    b ← sbrk 1;
    die_if (negb (b =? a)) 1 (line "%s: sbrk test failed %d %x %x") [s; Vnum i; Vnum a; Vnum b];;
    stb b 1;;
    mret (Next (i + 1, b + 1))) (0, a).

Definition sbrkbasic (s : uarg) : U unit :=
  pid ← fork;
  die_if (pid <? 0) 1 (line "fork failed in sbrkbasic") [];;
  uwhen (pid =? 0)
    (a ← sbrk TOOMUCH;
     uwhen (a =? -1) (exit 0);;
     each_page a (a + TOOMUCH) (fun b => stb b 99);;
     exit 1);;
  '(_, xstatus) ← wait_int junk;
  die_if (xstatus =? 1) 1 (line "%s: too much memory allocated!") [s];;
  a ← sbrk 0;
  a ← sbrk_bytes s a;
  pid ← fork;
  die_if (pid <? 0) 1 (line "%s: sbrk test fork failed") [s];;
  sbrk 1;;
  c ← sbrk 1;
  die_if (negb (c =? a + 1)) 1 (line "%s: sbrk test failed post-fork") [s];;
  uwhen (pid =? 0) (exit 0);;
  '(_, xstatus) ← wait_int xstatus;
  exit xstatus.

(** A page that was given back is new when it is allocated again: its contents
    are what the kernel put there. *)
Definition sbrkmuch (s : uarg) : U unit :=
  oldbrk ← sbrk 0;
  a ← sbrk 0;
  let amt := u64 (BIG - a) in
  p ← sbrk (s32 amt);
  die_if (negb (p =? a)) 1 (line "%s: sbrk test failed to grow big address space; enough phys mem?") [s];;
  eee ← sbrk 0;
  each_page a eee (fun pp => stb pp 1);;
  let lastaddr := BIG - 1 in
  stb lastaddr 99;;
  a ← sbrk 0;
  c ← sbrk (- PGSIZE);
  die_if (c =? -1) 1 (line "%s: sbrk could not deallocate") [s];;
  c ← sbrk 0;
  die_if (negb (c =? a - PGSIZE)) 1 (line "%s: sbrk deallocation produced wrong address, a %x c %x") [s; Vnum a; Vnum c];;
  a ← sbrk 0;
  c ← sbrk PGSIZE;
  bad ← (if negb (c =? a) then mret true else d ← sbrk 0; mret (negb (d =? a + PGSIZE)));
  die_if bad 1 (line "%s: sbrk re-allocation failed, a %x c %x") [s; Vnum a; Vnum c];;
  last ← wild_ldb lastaddr;
  die_if (last =? 99) 1 (line "%s: sbrk de-allocation didn't really deallocate") [s];;
  a ← sbrk 0;
  b ← sbrk 0;
  c ← sbrk (s32 (- (b - oldbrk)));
  die_if (negb (c =? a)) 1 (line "%s: sbrk downsize failed, a %x c %x") [s; Vnum a; Vnum c].

(** A child that must be killed for what it does. *)
Definition must_die (s : uarg) (child : U unit) : U unit :=
  pid ← fork;
  die_if (pid <? 0) 1 (line "%s: fork failed") [s];;
  uwhen (pid =? 0) (child;; exit 1);;
  '(_, xstatus) ← wait_int junk;
  uwhen (negb (xstatus =? -1)) (exit 1).

Definition kernmem (s : uarg) : U unit :=
  uloop (fun a =>
    if negb (a <? KERNBASE + 2000000) then mret (Done tt) else
    must_die s (v ← wild_ldb a; printf (line "%s: oops could read %x = %x") [s; Vnum a; Vnum v]);;
    mret (Next (a + 50000))) KERNBASE.

Definition MAXVAplus (s : uarg) : U unit :=
  uloop (fun a =>
    if a =? 0 then mret (Done tt) else
    must_die s (wild_stb a 99;; printf (line "%s: oops wrote %x") [s; Vnum a]);;
    mret (Next (u64 (Z.shiftl a 1)))) MAXVA.

(** The ten children that allocate a lot of memory: the ids [fork] returned. *)
Definition sbrkfail_forks (fds0 fds1 : Z) : U (list Z) :=
  uloop (fun pids =>
    if negb (Z.of_nat (length pids) <? 10) then mret (Done pids) else
    pid ← fork;
    uwhen (pid =? 0)
      (b ← sbrk 0;
       sbrk (s32 (BIG - b));;
       write_bytes fds1 [120];;
       uloop (fun _ : unit => sleep 1000;; mret (Next tt)) tt);;
    uwhen (negb (pid =? -1)) (call (Sread fds0 1);; mret tt);;
    mret (Next (pids ++ [pid]))) [].

Definition sbrkfail (s : uarg) : U unit :=
  '(r, fds0, fds1) ← pipe;
  die_if (negb (r =? 0)) 1 (line "%s: pipe() failed") [s];;
  pids ← sbrkfail_forks fds0 fds1;
  c ← sbrk PGSIZE;
  ueach pids (fun pid => uwhen (negb (pid =? -1)) (kill pid;; wait 0;; mret tt));;
  die_if (c =? -1) 1 (line "%s: failed sbrk leaked memory") [s];;
  pid ← fork;
  die_if (pid <? 0) 1 (line "%s: fork failed") [s];;
  uwhen (pid =? 0)
    (a ← sbrk 0;
     sbrk (10 * BIG);;
     n ← uloop (fun '(i, n) =>
       if negb (i <? 10 * BIG) then mret (Done n) else
       v ← wild_ldb (a + i);
       mret (Next (i + PGSIZE, s32 (n + v)))) (0, 0);
     printf (line "%s: allocate a lot of memory succeeded %d") [s; Vnum n];;
     exit 1);;
  '(_, xstatus) ← wait_int junk;
  uwhen (negb (xstatus =? -1) && negb (xstatus =? 2)) (exit 1).

Definition sbrkarg (s : uarg) : U unit :=
  a ← sbrk PGSIZE;
  fd ← open_ "sbrk" (Z.lor O_CREATE O_WRONLY);
  unlink_ "sbrk";;
  die_if (fd <? 0) 1 (line "%s: open sbrk failed") [s];;
  n ← write fd a PGSIZE;
  die_if (n <? 0) 1 (line "%s: write sbrk failed") [s];;
  close fd;;
  a ← sbrk PGSIZE;
  '(r, fds0, fds1) ← pipe;
  uwhen (r =? 0) (store a (int_bytes fds0 ++ int_bytes fds1));;
  die_if (negb (r =? 0)) 1 (line "%s: pipe() failed") [s].

Definition validatetest (s : uarg) : U unit :=
  let hi := 1100 * 1024 in
  uloop (fun p =>
    if negb (p <=? hi) then mret (Done tt) else
    r ← raw SYS_link [nosuchfile; p];
    die_if (negb (r =? -1)) 1 (line "%s: link should not succeed") [s];;
    mret (Next (p + PGSIZE))) 0.

Definition bsstest (s : uarg) : U unit :=
  ufor 0 10000 (fun i =>
    c ← ldb (uninit + i);
    die_if (negb (c =? 0)) 1 (line "%s: bss test failed") [s]).

(** The argument: a line and 199 spaces. *)
Definition bigarg : list Z := line "bigargs test: failed" ++ replicate 199 32.

Definition bigargtest (s : uarg) : U unit :=
  unlink_ "bigarg-ok";;
  pid ← fork;
  uwhen (pid =? 0)
    (call (Sexec (lit "echo") (replicate (Z.to_nat (MAXARG - 1)) bigarg));;
     fd ← open_ "bigarg-ok" O_CREATE;
     close fd;;
     exit 0);;
  die_if (pid <? 0) 1 (line "%s: bigargtest: fork failed") [s];;
  '(_, xstatus) ← wait_int junk;
  uwhen (negb (xstatus =? 0)) (exit xstatus);;
  fd ← open_ "bigarg-ok" 0;
  die_if (fd <? 0) 1 (line "%s: bigarg test failed!") [s];;
  close fd;; mret tt.

Definition argptest (s : uarg) : U unit :=
  fd ← open_ "init" O_RDONLY;
  die_if (fd <? 0) 1 (line "%s: open failed") [s];;
  b ← sbrk 0;
  raw SYS_read [fd; b - 1; -1];;
  close fd;; mret tt.

Definition stacktest (s : uarg) : U unit :=
  pid ← fork;
  uwhen (pid =? 0)
    (v ← wild_ldb (sp - PGSIZE);
     printf (line "%s: stacktest: read below stack %p") [s; Vnum v];;
     exit 1);;
  die_if (pid <? 0) 1 (line "%s: fork failed") [s];;
  '(_, xstatus) ← wait_int junk;
  if xstatus =? -1 then exit 0 else exit xstatus.

(** [argv] is at [loc]. *)
Definition pgbug (s : uarg) : U unit :=
  stw 8 loc 0;;
  raw SYS_exec [0xeaeb0b5b00002f5e; loc];;
  raw SYS_pipe [0xeaeb0b5b00002f5e];;
  exit 0.

(** A child that moves the break; then [wait(0)]. *)
Definition sbrkbugs_child (child : U unit) : U unit :=
  pid ← fork;
  die_if (pid <? 0) 1 (line "fork failed") [];;
  uwhen (pid =? 0) (child;; exit 0);;
  wait 0;; mret tt.

Definition sbrkbugs (s : uarg) : U unit :=
  sbrkbugs_child (b ← sbrk 0; let sz := s32 b in sbrk (- sz);; mret tt);;
  sbrkbugs_child (b ← sbrk 0; let sz := s32 b in sbrk (- (sz - 3500));; mret tt);;
  sbrkbugs_child (b ← sbrk 0; sbrk (s32 ((10 * 4096 + 2048) - b));; sbrk (-10);; mret tt);;
  exit 0.

Definition sbrklast (s : uarg) : U unit :=
  top ← sbrk 0;
  uwhen (negb (top mod 4096 =? 0)) (sbrk (4096 - top mod 4096);; mret tt);;
  sbrk 4096;;
  sbrk 10;;
  sbrk (-20);;
  top ← sbrk 0;
  let p := top - 64 in
  stb p 120;;
  stb (p + 1) 0;;
  fd ← open p (Z.lor O_RDWR O_CREATE);
  write fd p 1;;
  close fd;;
  fd ← open p O_RDWR;
  stb p 0;;
  read fd p 1;;
  c ← ldb p;
  uwhen (negb (c =? 120)) (exit 1).

Definition sbrk8000 (s : uarg) : U unit :=
  sbrk (s32 0x80000004);;
  top ← sbrk 0;
  c ← wild_ldb (top - 1);
  wild_stb (top - 1) (u8 (c + 1)).

Definition badwrite (s : uarg) : U unit :=
  let assumed_free := 600 in
  unlink_ "junk";;
  ufor 0 assumed_free (fun _ =>
    fd ← open_ "junk" (Z.lor O_CREATE O_WRONLY);
    die_if (fd <? 0) 1 (line "open junk failed") [];;
    raw SYS_write [fd; 0xffffffffff; 1];;
    close fd;;
    unlink_ "junk";; mret tt);;
  fd ← open_ "junk" (Z.lor O_CREATE O_WRONLY);
  die_if (fd <? 0) 1 (line "open junk failed") [];;
  r ← write_bytes fd [120];
  die_if (negb (r =? 1)) 1 (line "write failed") [];;
  close fd;;
  unlink_ "junk";;
  exit 0.

(** [argv] is at [loc]. *)
Definition badarg (s : uarg) : U unit :=
  ufor 0 50000 (fun _ =>
    stw 8 loc 0xffffffff;;
    stw 8 (loc + 8) 0;;
    raw SYS_exec [echo; loc];; mret tt);;
  exit 0.

(** [while(1)] until [sbrk] fails; each new page is touched, and [then_] is run. *)
Definition eat_memory (then_ : U unit) : U unit :=
  uloop (fun _ : unit =>
    a ← sbrk 4096;
    if a =? -1 then mret (Done tt) else
    stb (a + 4096 - 1) 1;;
    then_;;
    mret (Next tt)) tt.

Definition execout (s : uarg) : U unit :=
  ufor 0 15 (fun avail =>
    pid ← fork;
    die_if (pid <? 0) 1 (line "fork failed") [];;
    uwhen (pid =? 0)
      (eat_memory (mret tt);;
       ufor 0 avail (fun _ => sbrk (-4096);; mret tt);;
       close 1;;
       exec_ "echo" ["echo"; "x"];;
       exit 0);;
    wait 0;; mret tt);;
  exit 0.

Definition countfree : U Z :=
  '(r, fds0, fds1) ← pipe;
  die_if (r <? 0) 1 (line "pipe() failed in countfree()") [];;
  pid ← fork;
  die_if (pid <? 0) 1 (line "fork failed in countfree()") [];;
  uwhen (pid =? 0)
    (close fds0;;
     eat_memory
       (r ← write_bytes fds1 [120];
        die_if (negb (r =? 1)) 1 (line "write() failed in countfree()") []);;
     exit 0);;
  close fds1;;
  n ← uloop (fun n =>
    '(cc, _) ← call (Sread fds0 1);
    die_if (cc <? 0) 1 (line "read() failed in countfree()") [];;
    if cc =? 0 then mret (Done n) else mret (Next (n + 1))) 0;
  close fds0;;
  wait 0;;
  mret n.

(** Allocate until [malloc] fails, each block pointing to the one before; then
    free them all. *)
Definition mem_take : U Z :=
  uloop (fun m1 =>
    m2 ← malloc base 10001;
    if m2 =? 0 then mret (Done m1) else
    stw 8 m2 m1;;
    mret (Next m2)) 0.

Definition mem_free (m1 : Z) : U Z :=
  uloop (fun m1 =>
    if m1 =? 0 then mret (Done m1) else
    m2 ← ldw 8 m1;
    free m1;;
    mret (Next m2)) m1.

Definition mem (s : uarg) : U unit :=
  pid ← fork;
  if pid =? 0 then
    m1 ← mem_take;
    mem_free m1;;
    m1 ← malloc base (1024 * 20);
    die_if (m1 =? 0) 1 (line "couldn't allocate mem?!!") [s];;
    free m1;;
    exit 0
  else
    '(_, xstatus) ← wait_int junk;
    uwhen (xstatus =? -1) (exit 0);;
    exit xstatus.

End tests.

(** ** The runner and the table of tests *)

Section runner.
Variables buf loc big uninit echo nosuchfile sp base junk : Z.

(** Each test runs in a process of its own; did it exit with 0? *)
Definition run (f : uarg -> U unit) (s : list Z) : U bool :=
  printf (lit "test %s: ") [Vlit s];;
  pid ← fork;
  die_if (pid <? 0) 1 (line "runtest: fork error") [];;
  if pid =? 0 then f (Vlit s);; exit 0 else
  '(_, xstatus) ← wait_int junk;
  (if negb (xstatus =? 0) then printf (line "FAILED") [] else printf (line "OK") []);;
  mret (xstatus =? 0).

Definition tests : list ((uarg -> U unit) * list Z) :=
  [(MAXVAplus junk, lit "MAXVAplus");
   (manywrites buf loc, lit "manywrites");
   (execout, lit "execout");
   (copyin, lit "copyin");
   (copyout, lit "copyout");
   (copyinstr1, lit "copyinstr1");
   (copyinstr2 loc big, lit "copyinstr2");
   (copyinstr3 loc, lit "copyinstr3");
   (rwsbrk, lit "rwsbrk");
   (truncate1 loc, lit "truncate1");
   (truncate2, lit "truncate2");
   (truncate3 loc junk, lit "truncate3");
   (reparent2, lit "reparent2");
   (pgbug loc, lit "pgbug");
   (sbrkbugs, lit "sbrkbugs");
   (badarg loc echo, lit "badarg");
   (reparent, lit "reparent");
   (twochildren, lit "twochildren");
   (forkfork junk, lit "forkfork");
   (forkforkfork, lit "forkforkfork");
   (argptest, lit "argptest");
   (createdelete loc junk, lit "createdelete");
   (linkunlink, lit "linkunlink");
   (linktest buf, lit "linktest");
   (unlinkread buf, lit "unlinkread");
   (concreate loc junk, lit "concreate");
   (subdir buf, lit "subdir");
   (fourfiles buf junk, lit "fourfiles");
   (sharedfd loc junk, lit "sharedfd");
   (dirtest, lit "dirtest");
   (exectest loc junk, lit "exectest");
   (bigargtest junk, lit "bigargtest");
   (bigwrite buf, lit "bigwrite");
   (bsstest uninit, lit "bsstest");
   (sbrkbasic junk, lit "sbrkbasic");
   (sbrkmuch, lit "sbrkmuch");
   (kernmem junk, lit "kernmem");
   (sbrkfail junk, lit "sbrkfail");
   (sbrkarg, lit "sbrkarg");
   (sbrklast, lit "sbrklast");
   (sbrk8000, lit "sbrk8000");
   (validatetest nosuchfile, lit "validatetest");
   (stacktest sp junk, lit "stacktest");
   (opentest, lit "opentest");
   (writetest buf, lit "writetest");
   (writebig buf, lit "writebig");
   (createtest loc, lit "createtest");
   (openiputtest junk, lit "openiput");
   (exitiputtest junk, lit "exitiput");
   (iputtest, lit "iput");
   (mem base junk, lit "mem");
   (pipe1 buf junk, lit "pipe1");
   (killstatus junk, lit "killstatus");
   (preempt buf, lit "preempt");
   (exitwait junk, lit "exitwait");
   (rmdot, lit "rmdot");
   (fourteen, lit "fourteen");
   (bigfile buf, lit "bigfile");
   (dirfile, lit "dirfile");
   (iref, lit "iref");
   (forktest, lit "forktest");
   (bigdir loc, lit "bigdir")].

(** Run tests until one fails; did one? *)
Fixpoint run_until_failure (ts : list ((uarg -> U unit) * list Z)) : U bool :=
  match ts with
  | [] => mret false
  | (f, s) :: ts =>
      ok ← run f s;
      if negb ok then mret true else run_until_failure ts
  end.

(** Run all tests, or those named [justone]; did one fail? *)
Fixpoint run_all (justone : option (list Z)) (ts : list ((uarg -> U unit) * list Z)) (fail : bool) : U bool :=
  match ts with
  | [] => mret fail
  | (f, s) :: ts =>
      if (match justone with None => true | Some name => bool_decide (s = name) end) then
        ok ← run f s;
        run_all justone ts (if negb ok then true else fail)
      else run_all justone ts fail
  end.

Definition run_continuously (continuous : Z) : U unit :=
  printf (line "continuous usertests starting") [];;
  uloop (fun _ : unit =>
    free0 ← countfree;
    fail ← run_until_failure tests;
    uwhen fail
      (printf (line "SOME TESTS FAILED") [];;
       uwhen (negb (continuous =? 2)) (exit 1));;
    free1 ← countfree;
    uwhen (free1 <? free0)
      (printf (line "FAILED -- lost %d free pages") [Vnum (free0 - free1)];;
       uwhen (negb (continuous =? 2)) (exit 1));;
    mret (Next tt)) tt.

Definition run_once (justone : option (list Z)) : U unit :=
  printf (line "usertests starting") [];;
  free0 ← countfree;
  fail ← run_all justone tests false;
  if (fail : bool) then printf (line "SOME TESTS FAILED") [];; exit 1 else
  free1 ← countfree;
  if free1 <? free0 then
    printf (line "FAILED -- lost some free pages %d (out of %d)") [Vnum free1; Vnum free0];;
    exit 1
  else
    printf (line "ALL TESTS PASSED") [];;
    exit 0.

Definition usage_tests : U unit :=
  printf (line "Usage: usertests [-c] [testname]") [];;
  exit 1.

(** [argv] as strings: the program only compares them. *)
Definition usertests_main (argv : list (list Z)) : U unit :=
  match argv with
  | [_; arg] =>
      if bool_decide (arg = lit "-c") then run_continuously 1
      else if bool_decide (arg = lit "-C") then run_continuously 2
      else if negb (hd 0 arg =? 45) then run_once (Some arg)
      else usage_tests
  | _ :: _ :: _ => usage_tests
  | _ => run_once None
  end.

End runner.
