(* ===== verification/Mkfs.v ===== *)
(** * The tool that builds the file system image: [src/mkfs/mkfs.c]

    [mkfs] runs on the host. Its state is the image file as an array of
    blocks, its static variables, and what the host will answer to each
    access to the image; an error of the host or a failed assertion ends the
    program ([die], [assert]), which is a [Panic] here. Files to be copied into the image are given
    by the pieces in which the host's [read] returns them. *)

From S2P Require Import Prelude Riscv Spinlock Str Kalloc Kernel Bio Log Fs.

Definition NINODES : Z := 200.
Definition nbitmap : Z := FSSIZE / (BSIZE * 8) + 1.
Definition ninodeblocks : Z := NINODES / IPB + 1.
Definition nlog : Z := LOGSIZE.
(** The values [main] computes. *)
Definition nmeta : Z := 2 + nlog + ninodeblocks + nbitmap.
Definition nblocks : Z := FSSIZE - nmeta.

Record mk : Type := mkMk {
  img : Z -> bytes;         (* the blocks of the image file *)
  mk_sb : superblock;       (* sb *)
  freeinode : Z;
  freeblock : Z;
  host : list bool          (* does the next seek with its transfer succeed? *)
}.

Definition set_img v s := mkMk v (mk_sb s) (freeinode s) (freeblock s) (host s).
Definition set_mk_sb v s := mkMk (img s) v (freeinode s) (freeblock s) (host s).
Definition set_freeinode v s := mkMk (img s) (mk_sb s) v (freeblock s) (host s).
Definition set_freeblock v s := mkMk (img s) (mk_sb s) (freeinode s) v (host s).
Definition set_host v s := mkMk (img s) (mk_sb s) (freeinode s) (freeblock s) v.

Abbreviation MK := (M mk).

(** The host answers: yes when nothing else was said. *)
Definition host_ok : MK bool :=
  h ← gets host;
  modify (set_host (tl h));;
  mret (hd true h).

Definition die {A} (s : string) : MK A := panic s.
Definition assert_ (b : bool) : MK unit := if b then mret tt else panic "assert".

(** [xshort] and [xint] give the little-endian bytes of a number, which is
    what [Str.st] stores; the number itself is cut to its width. *)
Definition xshort (x : Z) : Z := u16 x.
Definition xint (x : Z) : Z := u32 x.

(** ** Sectors *)

Definition wsect (sec : Z) (buf : bytes) : MK unit :=
  ok ← host_ok;
  if negb ok then die "write" else
  modify (fun s => set_img (<[sec := buf]> (img s)) s).

Definition rsect (sec : Z) : MK bytes :=
  ok ← host_ok;
  if negb ok then die "read" else
  gets (fun s => img s sec).

(** ** Inodes: a [struct dinode] is the 64 bytes of it *)

(** [*dip = *ip] in either direction *)
Definition dinode_at (buf : bytes) (inum : Z) : list Z := rd_bytes buf (dinode_off inum) (Z.to_nat sizeof_dinode).
Definition put_dinode (buf : bytes) (inum : Z) (din : list Z) : bytes := wr_bytes buf (dinode_off inum) din.

Definition winode (inum : Z) (din : list Z) : MK unit :=
  sb ← gets mk_sb;
  let bn := IBLOCK inum sb in
  buf ← rsect bn;
  wsect bn (put_dinode buf inum din).

Definition rinode (inum : Z) : MK (list Z) :=
  sb ← gets mk_sb;
  let bn := IBLOCK inum sb in
  buf ← rsect bn;
  mret (dinode_at buf inum).

(** A local [struct dinode] as a buffer, and back. *)
Definition of_list (l : list Z) : bytes := fun i => l !!! Z.to_nat i.
Definition din_set (k : nat) (off v : Z) (din : list Z) : list Z :=
  rd_bytes (Str.st k (of_list din) off v) 0 (Z.to_nat sizeof_dinode).
Definition din_size (din : list Z) : Z := di_size (of_list din) 0.
Definition din_addr (din : list Z) (i : Z) : Z := di_addr (of_list din) 0 i.

Definition ialloc (type : Z) : MK Z :=
  inum ← gets freeinode;
  modify (set_freeinode (u32 (inum + 1)));;
  let din := repeat 0 (Z.to_nat sizeof_dinode) in
  let din := din_set 2 0 (xshort type) din in
  let din := din_set 2 6 (xshort 1) din in
  let din := din_set 4 8 (xint 0) din in
  winode inum din;;
  mret inum.

(** ** The bitmap *)

(** [buf[i/8] = buf[i/8] | (0x1 << (i%8))] for [i < used] *)
Fixpoint set_bits (buf : bytes) (i : Z) (k : nat) : bytes :=
  match k with
  | O => buf
  | S k' => set_bits (<[i / 8 := Z.lor (buf (i / 8)) (Z.shiftl 1 (i mod 8))]> buf) (i + 1) k'
  end.

Definition balloc (used : Z) : MK unit :=
  assert_ (used <? BSIZE * 8);;
  sb ← gets mk_sb;
  wsect (sb_bmapstart sb) (set_bits (fun _ => 0) 0 (Z.to_nat used)).

(** ** Appending to a file *)

(** [freeblock++] *)
Definition next_block : MK Z :=
  b ← gets freeblock;
  modify (set_freeblock (u32 (b + 1)));;
  mret b.

(** The block for block [fbn] of the file, with the changed inode. *)
Definition iappend_block (din : list Z) (fbn : Z) : MK (Z * list Z) :=
  if fbn <? NDIRECT then
    din ← (if din_addr din fbn =? 0 then b ← next_block; mret (din_set 4 (12 + 4 * fbn) (xint b) din) else mret din);
    mret (din_addr din fbn, din)
  else
    din ← (if din_addr din NDIRECT =? 0 then b ← next_block; mret (din_set 4 (12 + 4 * NDIRECT) (xint b) din)
           else mret din);
    indirect ← rsect (din_addr din NDIRECT);
    let j := fbn - NDIRECT in
    indirect ← (if ld 4 indirect (4 * j) =? 0 then
                  b ← next_block;
                  let indirect := Str.st 4 indirect (4 * j) (xint b) in
                  wsect (din_addr din NDIRECT) indirect;;
                  mret indirect
                else mret indirect);
    mret (ld 4 indirect (4 * j), din).

Definition iappend (inum : Z) (p : list Z) : MK unit :=
  din ← rinode inum;
  '(din, off) ← loop (fun '(p, din, off) =>
    match p with
    | [] => mret (Done (din, off))
    | _ =>
        let n := Z.of_nat (length p) in
        let fbn := off / BSIZE in
        assert_ (fbn <? MAXFILE);;
        '(x, din) ← iappend_block din fbn;
        let n1 := Z.min n ((fbn + 1) * BSIZE - off) in
        buf ← rsect x;
        wsect x (wr_bytes buf (off - fbn * BSIZE) (take (Z.to_nat n1) p));;
        mret (Next (drop (Z.to_nat n1) p, din, u32 (off + n1)))
    end) (p, din, din_size din);
  winode inum (din_set 4 8 (xint off) din).

(** ** main *)

Definition the_sb : superblock :=
  mkSuper FSMAGIC (xint FSSIZE) (xint nblocks) (xint NINODES) (xint nlog) (xint 2) (xint (2 + nlog))
    (xint (2 + nlog + ninodeblocks)).

(** [memmove(buf, &sb, sizeof(sb))] into a zeroed block *)
Definition sb_bytes (sb : superblock) : bytes :=
  let put o v d := Str.st 4 d o v in
  put 28 (sb_bmapstart sb) (put 24 (sb_inodestart sb) (put 20 (sb_logstart sb) (put 16 (sb_nlog sb)
    (put 12 (sb_ninodes sb) (put 8 (sb_nblocks sb) (put 4 (sb_size sb) (put 0 (sb_magic sb) (fun _ => 0)))))))).

(** A string as a buffer with its terminating NUL. *)
Definition name_of (name : list Z) : bytes := fun i => nth (Z.to_nat i) name 0.

(** A file of the command line: its name, and the pieces [read] returns, each
    at most [BSIZE] bytes; [None] when it cannot be opened. *)
Record input : Type := mkInput { in_name : list Z; in_data : option (list (list Z)) }.

(** Get rid of "user/", then of a leading underscore. *)
Definition shortname (name : list Z) : list Z :=
  if decide (take 5 name = [117; 115; 101; 114; 47]) then drop 5 name else name.
Definition skip_underscore (name : list Z) : list Z :=
  match name with 95 :: rest => rest | _ => name end.

Definition add_file (rootino : Z) (f : input) : MK unit :=
  let short := shortname (in_name f) in
  assert_ (bool_decide (47 ∉ short));;
  match in_data f with
  | None => die "open"
  | Some pieces =>
      let short := skip_underscore short in
      inum ← ialloc T_FILE;
      iappend rootino (dirent_bytes (name_of short) (xshort inum));;
      for_ (length pieces) 0 (fun i =>
        iappend inum (nth (Z.to_nat i) pieces []);;
        mret (Next tt : ctl unit unit));;
      mret tt
  end.

Definition mkfs_main (files : list input) : MK unit :=
  modify (set_mk_sb the_sb);;
  modify (set_freeblock nmeta);;
  for_ (Z.to_nat FSSIZE) 0 (fun i => wsect i (fun _ => 0);; mret (Next tt : ctl unit unit));;
  wsect 1 (sb_bytes the_sb);;
  rootino ← ialloc T_DIR;
  assert_ (rootino =? ROOTINO);;
  iappend rootino (dirent_bytes (name_of [46]) (xshort rootino));;
  iappend rootino (dirent_bytes (name_of [46; 46]) (xshort rootino));;
  for_ (length files) 0 (fun i =>
    add_file rootino (nth (Z.to_nat i) files (mkInput [] None));;
    mret (Next tt : ctl unit unit));;
  din ← rinode rootino;
  let off := din_size din in
  let off := u32 ((off / BSIZE + 1) * BSIZE) in
  winode rootino (din_set 4 8 (xint off) din);;
  fb ← gets freeblock;
  balloc fb.

(** The state when [main] starts: the static variables, and an image that the
    open call has created or truncated. *)
Definition mk_start (h : list bool) : mk := mkMk (fun _ _ => 0) (mkSuper 0 0 0 0 0 0 0 0) 1 0 h.
