(* ===== verification/Ustdio.v ===== *)
(** * Programs that read and write

    Strings in the memory of a process, an operating system with one file to
    read and one to write, and [src/user/cat.c] on it. *)

From S2P Require Import Prelude Str User Ulib Uprogs.

(** ** Strings in memory *)

(** The string [cs] is at [p], with its end. *)
Record string_at (m : memory) (p : Z) (cs : list Z) : Prop := {
  sa_at : forall i c, cs !! i = Some c -> m (p + Z.of_nat i) = c /\ c <> 0;
  sa_end : m (p + Z.of_nat (length cs)) = 0
}.

Lemma string_nil m p : string_at m p [] <-> m p = 0.
Proof.
  split; [intros [_ E]|intros E; split; [done|]]; cbn in *; by rewrite Z.add_0_r in *.
Qed.

Lemma string_cons m p c cs : string_at m p (c :: cs) <-> m p = c /\ c <> 0 /\ string_at m (p + 1) cs.
Proof.
  split.
  - intros [Ha He]. destruct (Ha 0%nat c eq_refl) as [H1 H2]. rewrite Z.add_0_r in H1. split; [done|]. split; [done|]. split.
    + intros i x Hi. destruct (Ha (S i) x Hi) as [H3 H4]. split; [|done]. rewrite <-H3. f_equal. lia.
    + rewrite <-He. f_equal. cbn [length]. lia.
  - intros (H1 & H2 & [Ha He]). split.
    + intros [|i] x Hi; cbn in Hi; [injection Hi as <-; by rewrite Z.add_0_r|]. destruct (Ha i x Hi) as [H3 H4]. split; [|done].
      rewrite <-H3. f_equal. lia.
    + rewrite <-He. f_equal. cbn [length]. lia.
Qed.

Lemma string_head m p cs : string_at m p cs -> m p = hd 0 cs /\ (cs <> [] -> m p <> 0).
Proof. destruct cs; [by intros ->%string_nil|]. by intros (H1 & H2 & _)%string_cons; subst. Qed.

Lemma string_ext m m' p cs : (forall x, p <= x <= p + Z.of_nat (length cs) -> m' x = m x) -> string_at m p cs -> string_at m' p cs.
Proof.
  intros He [Ha Hz]. split.
  - intros i c Hi. pose proof (lookup_lt_Some _ _ _ Hi). rewrite He by lia. by apply Ha.
  - rewrite He by lia. done.
Qed.

Lemma string_drop m p l r : string_at m p (l ++ r) -> string_at m (p + Z.of_nat (length l)) r.
Proof.
  intros [Ha Hz]. split.
  - intros i c Hi. destruct (Ha (length l + i)%nat c) as [H1 H2]; [by rewrite lookup_app_r, Nat.add_comm, Nat.add_sub by lia|].
    split; [|done]. rewrite <-H1. f_equal. lia.
  - rewrite length_app in Hz. rewrite <-Hz. f_equal. lia.
Qed.

(** A zero stored into a string cuts it. *)
Lemma string_cut m p l r : string_at m p (l ++ r) -> string_at (<[p + Z.of_nat (length l) := 0]> m) p l.
Proof.
  intros [Ha Hz]. split.
  - intros i c Hi. pose proof (lookup_lt_Some _ _ _ Hi). rewrite fn_insert_ne by lia. apply Ha. by apply lookup_app_l_Some.
  - apply fn_lookup_insert.
Qed.

Lemma string_bytes m p l r : string_at m p (l ++ r) -> rd_bytes m p (length l) = l.
Proof.
  intros [Ha _]. apply list_eq_same_length with (n := length l); [done|apply length_rd_bytes|]. intros i x y Hi Hx Hy.
  rewrite rd_bytes_lookup in Hx by done. injection Hx as <-. apply (Ha i y). by apply lookup_app_l_Some.
Qed.

(** [strchr] finds the first occurrence. *)
Lemma uwp_strchr {W} `{OS W} (X : Z -> W -> Prop) n s w p cs c (Q : Z -> ustate -> W -> Prop) :
  string_at (umem s) p cs -> (length cs < n)%nat ->
  (c ∉ cs -> Q 0 s w) ->
  (forall l r, cs = l ++ c :: r -> c ∉ l -> Q (p + Z.of_nat (length l)) s w) ->
  uwp X (strchr p c) n s w Q.
Proof.
  intros Hs Hn HQ0 HQ1.
  apply (uwp_loop _ _ (fun k p' s' w' => s' = s /\ w' = w /\ exists l r, cs = l ++ r /\ (c ∉ l) /\ p' = p + Z.of_nat (length l) /\
    string_at (umem s) p' r /\ k = length r)) with (k := length cs); [|done|].
  2: { split; [done|]. split; [done|]. exists [], cs. split; [done|]. split; [apply not_elem_of_nil|]. cbn. by rewrite Z.add_0_r. }
  intros k p' s' w' (-> & -> & l & r & -> & Hl & -> & Hr & ->). destruct (string_head _ _ _ Hr) as [E _].
  apply uwp_bind, uwp_get. rewrite E. destruct r as [|x r]; cbn [hd].
  { apply uwp_ret, HQ0. by rewrite app_nil_r. }
  apply string_cons in Hr as (_ & Hx & Hr). rewrite (proj2 (Z.eqb_neq _ _) Hx). destruct (Z.eqb_spec x c) as [->|Hne]; apply uwp_ret.
  { by apply (HQ1 l r). }
  exists (length r). split; [cbn; lia|]. split; [done|]. split; [done|]. exists (l ++ [x]), r.
  split; [by rewrite <-app_assoc|]. split; [|split_and!; [rewrite length_app; cbn; lia|done|done]].
  intros [?|?%list_elem_of_singleton]%elem_of_app; congruence.
Qed.

(** Bytes stored and loaded again. *)
Lemma rd_wr_bytes m a bs : rd_bytes (wr_bytes m a bs) a (length bs) = bs.
Proof.
  apply list_eq_same_length with (n := length bs); [done|apply length_rd_bytes|]. intros i x y Hi Hx Hy.
  rewrite rd_bytes_lookup in Hx by done. injection Hx as <-. rewrite wr_bytes_spec, decide_True by lia.
  replace (Z.to_nat (a + Z.of_nat i - a)) with i by lia. by apply list_lookup_total_correct.
Qed.

(** ** One file in, one file out *)

(** What is left to read, and what was written. *)
Record stdio : Type := mkIO { inp : list Z; out : list Z }.

(** A call to [read] may deliver less than was asked for, but something unless
    the file is at its end; [write] writes everything. *)
Definition io_sys (fd : Z) {T : Type} (e : sysE T) (w : stdio) : (T -> stdio -> Prop) -> Prop :=
  match e in sysE T return (T -> stdio -> Prop) -> Prop with
  | Sread f k => fun Q => f = fd /\
      (inp w = [] \/ k <= 0 -> Q (0, []) w) /\
      (forall bs rest, inp w = bs ++ rest -> (0 < length bs)%nat -> Z.of_nat (length bs) <= k -> Q (Z.of_nat (length bs), bs) (mkIO rest (out w)))
  | Swrite f bs => fun Q => f = 1 /\ Q (Z.of_nat (length bs)) (mkIO (inp w) (out w ++ bs))
  | _ => fun _ => False
  end.

#[refine] Definition io_os (fd : Z) : OS stdio := {| sys := @io_sys fd |}.
Proof.
  intros T [] w Q Q' Hs HQ; cbn in *; try done.
  - destruct Hs as [H1 H2]. split; [done|]. by apply HQ.
  - destruct Hs as (H1 & H2 & H3). split; [done|]. split; [intros ?; by apply HQ, H2|]. intros bs rest E ? ?. by apply HQ, (H3 bs rest).
Defined.

Section io.
Context (fd : Z).
#[local] Existing Instance io_os.
Abbreviation uwp := (uwp (H := io_os fd)).
Context (X : Z -> stdio -> Prop).

Lemma uwp_read n s w p k (Q : Z -> ustate -> stdio -> Prop) :
  (inp w = [] \/ k <= 0 -> Q 0 s w) ->
  (forall bs rest, inp w = bs ++ rest -> (0 < length bs)%nat -> Z.of_nat (length bs) <= k ->
     Q (Z.of_nat (length bs)) (set_umem (wr_bytes (umem s) p bs) s) (mkIO rest (out w))) ->
  uwp X (read fd p k) n s w Q.
Proof.
  intros H0 H1. unfold read. apply uwp_bind, uwp_call. cbn. split; [done|]. split.
  - intros Hd. cbn. unfold User.uwp. cbn. destruct s. by apply H0.
  - intros bs rest E Hl Hk. cbn. by apply (H1 bs rest).
Qed.

Lemma uwp_write n s w p k (Q : Z -> ustate -> stdio -> Prop) :
  0 <= k -> Q k s (mkIO (inp w) (out w ++ rd_bytes (umem s) p (Z.to_nat k))) -> uwp X (write 1 p k) n s w Q.
Proof.
  intros Hk HQ. unfold write. apply uwp_bind, uwp_get, uwp_call. cbn. split; [done|]. rewrite length_rd_bytes, Z2Nat.id by done. exact HQ.
Qed.

Lemma uwp_cat buf n s w (Q : unit -> ustate -> stdio -> Prop) :
  (length (inp w) < n)%nat ->
  (forall s', Q tt s' (mkIO [] (out w ++ inp w))) -> uwp X (cat buf fd) n s w Q.
Proof.
  intros Hn HQ. unfold cat. apply uwp_bind.
  apply (uwp_loop _ _ (fun k _ s' w' => k = length (inp w') /\ out w' ++ inp w' = out w ++ inp w)) with (k := length (inp w)); [|done|done].
  intros k [] s' w' [-> E]. apply uwp_bind, uwp_read.
  - intros [E0|?]; [|lia]. cbn [Z.ltb negb]. apply uwp_ret, uwp_ret.
    destruct w' as [i o]. cbn in E0, E. subst i. rewrite app_nil_r in E. subst o. apply HQ.
  - intros bs rest Ei Hl Hk. rewrite (proj2 (Z.ltb_lt 0 _)) by lia. cbn [negb]. apply uwp_bind, uwp_write; [lia|].
    rewrite Z.eqb_refl. cbn [negb]. apply uwp_ret. exists (length rest). cbn [inp out umem set_umem]. rewrite Ei, length_app. split; [lia|]. split; [done|].
    rewrite Nat2Z.id, rd_wr_bytes, <-app_assoc, <-Ei. exact E.
Qed.

End io.
