(* ===== verification/Grep.v ===== *)
(** * grep

    The matcher of [src/user/grep.c] against the meaning of its patterns, and
    the program: it prints the lines that match. *)

From S2P Require Import Prelude Str User Ulib Uprogs Ustdio.

(** ** The meaning of patterns *)

Inductive item : Type :=
| Char (c : Z)       (* the character, or any for [.] *)
| Star (c : Z)       (* any number of them *)
| End.               (* the end of the text *)

(** [c*], [$] at the end, or a character. *)
Fixpoint parse (re : list Z) : list item :=
  match re with
  | [] => []
  | c :: re' =>
      match re' with
      | 42 :: re'' => Star c :: parse re''
      | [] => if c =? 36 then [End] else [Char c]
      | _ => Char c :: parse re'
      end
  end.

(** Character [x] is one that [c] stands for. *)
Definition stands (c x : Z) : Prop := c = 46 \/ c = x.

(** The items match a text from its first character on. *)
Fixpoint matches (its : list item) (text : list Z) : Prop :=
  match its with
  | [] => True
  | Char c :: its' => exists x rest, text = x :: rest /\ stands c x /\ matches its' rest
  | Star c :: its' => exists xs rest, text = xs ++ rest /\ Forall (stands c) xs /\ matches its' rest
  | End :: its' => text = [] /\ matches its' []
  end.

(** [^] at the start: at the first character only; else anywhere. *)
Definition matches_re (re text : list Z) : Prop :=
  match re with
  | 94 :: re' => matches (parse re') text
  | _ => exists before rest, text = before ++ rest /\ matches (parse re) rest
  end.

(** The cases of [parse] as [matchhere] makes them. *)
Lemma parse_cons c re :
  parse (c :: re) =
    if hd 0 re =? 42 then Star c :: parse (tl re)
    else if (c =? 36) && (match re with [] => true | _ => false end) then [End] else Char c :: parse re.
Proof.
  destruct re as [|d re]; cbn [parse hd tl].
  - change (0 =? 42) with false. cbv iota. rewrite andb_true_r. by destruct (c =? 36).
  - rewrite andb_false_r. destruct (Z.eqb_spec d 42) as [->|Hne]; [done|]. destruct d as [|d|d]; try done.
    do 6 (destruct d as [d|d|]; try done).
Qed.

(** [c*] takes nothing, or a character and goes on. *)
Lemma matches_star c its text :
  matches (Star c :: its) text <-> matches its text \/ exists x rest, text = x :: rest /\ stands c x /\ matches (Star c :: its) rest.
Proof.
  cbn. split.
  - intros (xs & rest & -> & Hxs & Hm). destruct xs as [|x xs]; [by left|right]. apply Forall_cons in Hxs as [Hx Hxs].
    exists x, (xs ++ rest). split; [done|]. split; [done|]. by exists xs, rest.
  - intros [Hm|(x & rest & -> & Hx & xs & u & -> & Hxs & Hm)]; [by exists [], text|].
    exists (x :: xs), u. split; [done|]. split; [|done]. by apply Forall_cons.
Qed.

Lemma matches_any its text :
  (exists before rest, text = before ++ rest /\ matches its rest) <->
  matches its text \/ exists x u, text = x :: u /\ exists before rest, u = before ++ rest /\ matches its rest.
Proof.
  split.
  - intros (before & rest & -> & Hm). destruct before as [|x before]; [by left|right]. exists x, (before ++ rest). split; [done|]. by exists before, rest.
  - intros [Hm|(x & u & -> & before & rest & -> & Hm)]; [by exists [], text|by exists (x :: before), rest].
Qed.

(** ** The matcher *)

Section matcher.
Context {W : Type} `{OS W} (X : Z -> W -> Prop) (n : nat) (s : ustate) (w : W).
Abbreviation at_ := (string_at (umem s)).

(** The result [b] decides [P], and nothing has changed. *)
Definition decides (P : Prop) : bool -> ustate -> W -> Prop := fun b s' w' => s' = s /\ w' = w /\ (b = true <-> P).

(** [matchstar], when [matchhere] decides the rest of the pattern. *)
Lemma uwp_matchstar d c re its text ts :
  (forall text' ts', at_ text' ts' -> (length ts' <= length ts)%nat -> uwp X (matchhere_n d re text') n s w (decides (matches its ts'))) ->
  at_ text ts -> (length ts + 1 < n)%nat ->
  uwp X (matchstar_n (S d) c re text) n s w (decides (matches (Star c :: its) ts)).
Proof.
  intros Hhere Ht Hn. cbn [matchstar_n].
  apply (uwp_loop _ _ (fun k text' s' w' => s' = s /\ w' = w /\ exists ts', at_ text' ts' /\ k = length ts' /\ (length ts' <= length ts)%nat /\
    (matches (Star c :: its) ts <-> matches (Star c :: its) ts'))) with (k := length ts); [|lia|].
  2: { split; [done|]. split; [done|]. by exists ts. }
  intros k text' s' w' (-> & -> & ts' & Ht' & -> & Hle & Hiff). apply uwp_bind. eapply uwp_mono; [by apply Hhere|].
  cbn beta. intros b s' w' (-> & -> & Hb). destruct b.
  { apply uwp_ret. split; [done|]. split; [done|]. split; [intros _|done]. apply Hiff, matches_star. left. by apply Hb. }
  assert (~ matches its ts') as Hno by (intros Hm; by apply Hb in Hm).
  destruct (string_head _ _ _ Ht') as [Et _]. apply uwp_bind, uwp_get. rewrite Et. destruct ts' as [|x ts']; cbn [hd].
  { apply uwp_ret. split; [done|]. split; [done|]. split; [done|]. intros Hm. apply Hiff, matches_star in Hm as [?|(? & ? & ? & _)]; done. }
  apply string_cons in Ht' as (_ & Hx & Ht'). rewrite (proj2 (Z.eqb_neq _ _) Hx). cbn [negb andb].
  destruct ((x =? c) || (c =? 46)) eqn:Eb; apply uwp_ret.
  - exists (length ts'). split; [cbn; lia|]. split; [done|]. split; [done|]. exists ts'. cbn [length] in Hle. split_and!; try done; [lia|].
    rewrite Hiff, matches_star. split; [|intros Hm; right; exists x, ts'; split; [done|]; split; [|done]; unfold stands; lia].
    intros [?|(y & u & [= <- <-] & _ & Hm)]; done.
  - split; [done|]. split; [done|]. split; [done|]. rewrite Hiff, matches_star. intros [?|(y & u & [= <- <-] & [Hy|Hy] & _)]; [done|lia|lia].
Qed.

Lemma uwp_matchhere d : forall re ps text ts,
  at_ re ps -> at_ text ts -> (length ps < d)%nat -> (length ts + 1 < n)%nat ->
  uwp X (matchhere_n d re text) n s w (decides (matches (parse ps) ts)).
Proof.
  induction d as [d IH] using lt_wf_ind. intros re ps text ts Hre Ht Hd Hn. destruct d as [|d]; [lia|]. cbn [matchhere_n].
  destruct (string_head _ _ _ Hre) as [E0 _]. apply uwp_bind, uwp_get. rewrite E0.
  destruct ps as [|c ps]; [by apply uwp_ret|]. cbn [hd]. apply string_cons in Hre as (Ec & Hc & Hre).
  rewrite (proj2 (Z.eqb_neq _ _) Hc). destruct (string_head _ _ _ Hre) as [E1 _]. apply uwp_bind, uwp_get. rewrite E1.
  rewrite parse_cons. cbn [length] in Hd. destruct (Z.eqb_spec (hd 0 ps) 42) as [Hs|Hs].
  - destruct ps as [|x ps]; [done|]. cbn in Hs. subst x. apply string_cons in Hre as (_ & _ & Hre). cbn [tl length] in *.
    replace (re + 1 + 1) with (re + 2) in Hre by lia. destruct d as [|d]; [lia|]. apply uwp_matchstar; [|done|done].
    intros text' ts' Ht' Hle. apply (IH d); [lia|done|done|lia|lia].
  - destruct (string_head _ _ _ Ht) as [Et Et']. apply uwp_bind, uwp_get. rewrite Et.
    assert ((hd 0 ps =? 0) = match ps with [] => true | _ => false end) as Ep.
    { destruct ps as [|x ps]; [done|]. apply string_cons in Hre as (_ & Hx & _). cbn. by apply Z.eqb_neq. }
    rewrite Ep. destruct ((c =? 36) && match ps with [] => true | _ => false end).
    { apply uwp_ret. split; [done|]. split; [done|]. cbn. destruct ts as [|x ts]; cbn; [done|].
      apply string_cons in Ht as (_ & Hx & _). split; [lia|]. by intros [? _]. }
    destruct ts as [|x ts]; cbn [hd].
    { apply uwp_ret. split; [done|]. split; [done|]. cbn. split; [done|]. by intros (? & ? & ? & _). }
    apply string_cons in Ht as (_ & Hx & Ht). rewrite (proj2 (Z.eqb_neq _ _) Hx). cbn [negb andb length] in *.
    destruct ((c =? 46) || (c =? x)) eqn:Eb.
    + eapply uwp_mono; [apply (IH d); [lia|exact Hre|exact Ht|lia|lia]|]. intros b s' w' (-> & -> & Hb). split; [done|]. split; [done|].
      rewrite Hb. cbn. split; [intros Hm; exists x, ts; split; [done|]; split; [unfold stands; lia|done]|]. by intros (y & u & [= <- <-] & _ & Hm).
    + apply uwp_ret. split; [done|]. split; [done|]. cbn. split; [done|]. intros (y & u & [= <- <-] & [Hy|Hy] & _); lia.
Qed.

Lemma uwp_match re ps text ts :
  at_ re ps -> at_ text ts -> (length ps < n)%nat -> (length ts + 1 < n)%nat ->
  uwp X (match_ re text) n s w (decides (matches_re ps ts)).
Proof.
  intros Hre Ht Hp Hn. unfold match_. destruct (string_head _ _ _ Hre) as [E0 _]. apply uwp_bind, uwp_get. rewrite E0.
  destruct (Z.eqb_spec (hd 0 ps) 94) as [E|E].
  - destruct ps as [|c ps]; [done|]. cbn in E. subst c. apply string_cons in Hre as (_ & _ & Hre). cbn [length] in Hp.
    apply uwp_matchhere; [done|done|lia|done].
  - assert (matches_re ps ts <-> exists before rest, ts = before ++ rest /\ matches (parse ps) rest) as Hany.
    { destruct ps as [|c ps]; [done|]. cbn in E. destruct c as [|c|c]; try done. do 7 (destruct c as [c|c|]; try done). }
    apply (uwp_loop _ _ (fun k text' s' w' => s' = s /\ w' = w /\ exists ts', at_ text' ts' /\ k = length ts' /\ (length ts' <= length ts)%nat /\
      (matches_re ps ts <-> exists before rest, ts' = before ++ rest /\ matches (parse ps) rest))) with (k := length ts); [|lia|].
    2: { split; [done|]. split; [done|]. by exists ts. }
    intros k text' s' w' (-> & -> & ts' & Ht' & -> & Hle & Hiff). apply uwp_bind.
    eapply uwp_mono; [apply (uwp_matchhere n re ps); [done|exact Ht'|done|lia]|].
    cbn beta. intros b s' w' (-> & -> & Hb). destruct b.
    { apply uwp_ret. split; [done|]. split; [done|]. split; [intros _|done]. apply Hiff, matches_any. left. by apply Hb. }
    assert (~ matches (parse ps) ts') as Hno by (intros Hm; by apply Hb in Hm).
    destruct (string_head _ _ _ Ht') as [Et _]. apply uwp_bind, uwp_get. rewrite Et. destruct ts' as [|x ts']; cbn [hd].
    { apply uwp_ret. split; [done|]. split; [done|]. split; [done|]. intros Hm. apply Hiff, matches_any in Hm as [?|(? & ? & ? & _)]; done. }
    apply string_cons in Ht' as (_ & Hx & Ht'). rewrite (proj2 (Z.eqb_neq _ _) Hx). cbn [negb].
    apply uwp_ret. exists (length ts'). split; [cbn; lia|]. split; [done|]. split; [done|]. exists ts'. cbn [length] in Hle. split_and!; try done; [lia|].
    rewrite Hiff, matches_any. split; [intros [?|(y & u & [= <- <-] & Hm)]; done|]. intros Hm. right. by exists x, ts'.
Qed.
End matcher.

(** ** The program *)

(** The text of lines. *)
Definition text (ls : list (list Z)) : list Z := concat ((fun l => l ++ [10]) <$> ls).

Lemma text_cons l ls : text (l :: ls) = l ++ 10 :: text ls.
Proof. unfold text. cbn. by rewrite <-app_assoc. Qed.

(** A line that fits the buffer. *)
Record line_ok (l : list Z) : Prop := {
  lk_line : 10 ∉ l;
  lk_nul : 0 ∉ l;
  lk_fits : (length l <= 1022)%nat
}.

(** [o] consists of the lines that match, each with its newline. *)
Inductive selects (re : list Z) : list (list Z) -> list Z -> Prop :=
| selects_nil : selects re [] []
| selects_yes l ls o : matches_re re l -> selects re ls o -> selects re (l :: ls) (l ++ 10 :: o)
| selects_no l ls o : ~ matches_re re l -> selects re ls o -> selects re (l :: ls) o.

Lemma selects_app re ls ls' o o' : selects re ls o -> selects re ls' o' -> selects re (ls ++ ls') (o ++ o').
Proof.
  induction 1 as [|l ls o Hm _ IH|l ls o Hm _ IH]; intros Hs; cbn; [done|..].
  - rewrite <-app_assoc. cbn. apply selects_yes; [done|by apply IH].
  - apply selects_no; [done|by apply IH].
Qed.

(** The first newline of the text is the end of the first line. *)
Lemma text_split l r rest ls : 10 ∉ l -> Forall line_ok ls -> (l ++ 10 :: r) ++ rest = text ls ->
  exists ls', ls = l :: ls' /\ r ++ rest = text ls'.
Proof.
  intros Hl Hok E. destruct ls as [|l' ls']; [by destruct l|]. apply Forall_cons in Hok as [[Hl' _ _] _].
  rewrite text_cons, <-app_assoc in E. cbn in E.
  exists ls'. revert l' Hl' E. induction l as [|x l IH]; intros [|x' l'] Hl' E; cbn in E.
  - by injection E as ->.
  - injection E as <- _. exfalso. apply Hl', list_elem_of_here.
  - injection E as -> _. exfalso. apply Hl, list_elem_of_here.
  - injection E as -> E. destruct (IH ltac:(intros ?; apply Hl; by apply list_elem_of_further) l') as [E1 E2]; [|done|by injection E1 as ->].
    intros ?. apply Hl'. by apply list_elem_of_further.
Qed.

Lemma partial_line r : forall l rest t, 10 ∉ r -> r ++ rest = l ++ 10 :: t -> (length r <= length l)%nat /\ rest <> [].
Proof.
  induction r as [|x r IH]; intros l rest t Hr E; cbn [app] in E.
  - split; [cbn; lia|]. intros ->. by destruct l.
  - destruct l as [|y l]; injection E as -> E; [exfalso; apply Hr, list_elem_of_here|].
    destruct (IH l rest t) as [H1 H2]; [intros ?; apply Hr; by apply list_elem_of_further|done|]. cbn. split; [lia|done].
Qed.

(** What is in the buffer without a newline is part of a line. *)
Lemma text_partial r rest ls : 10 ∉ r -> Forall line_ok ls -> r ++ rest = text ls ->
  (ls = [] /\ r = [] /\ rest = []) \/ ((length r <= 1022)%nat /\ rest <> []).
Proof.
  intros Hr Hok E. destruct ls as [|l ls]; [left; by apply app_eq_nil in E|right].
  apply Forall_cons in Hok as [[_ _ Hlen] _]. rewrite text_cons in E. apply partial_line in E as [H1 H2]; [|done]. split; [lia|done].
Qed.

Section program.
Context (fd buf pattern : Z) (re : list Z) (n : nat).
Context (Hbuf : 0 < buf) (Hapart : pattern + Z.of_nat (length re) < buf \/ buf + 1024 <= pattern).
Context (Hre : (length re < n)%nat) (Hn : (1100 < n)%nat).
Context (X : Z -> stdio -> Prop).
Abbreviation uwp := (uwp (H := io_os fd)).

(** The buffer holds [r] from [p] on, and the pattern is in its place. *)
Record in_buffer (s : ustate) (p : Z) (r : list Z) : Prop := {
  hd_text : string_at (umem s) p r;
  hd_pattern : string_at (umem s) pattern re;
  hd_in : buf <= p /\ p + Z.of_nat (length r) < buf + 1024
}.

(** Storing into the buffer leaves the pattern alone. *)
Lemma pattern_frame m m' : (forall x, ~ (buf <= x < buf + 1024) -> m' x = m x) -> string_at m pattern re -> string_at m' pattern re.
Proof. intros He. apply string_ext. intros x Hx. apply He. lia. Qed.

(** One line of the buffer: tested, and written if it matches. *)
Lemma uwp_grep_line {A} s w p l r (k : U A) (Q : A -> ustate -> stdio -> Prop) :
  in_buffer s p (l ++ 10 :: r) ->
  (forall s' o, selects re [l] o -> in_buffer s' (p + Z.of_nat (length l) + 1) r -> uwp X k n s' (mkIO (inp w) (out w ++ o)) Q) ->
  let q := p + Z.of_nat (length l) in
  uwp X (stb q 0;; b ← match_ pattern p; uwhen b (stb q 10;; write 1 p (q + 1 - p);; mret tt);; k) n s w Q.
Proof.
  intros [Ht Hp Hin] Hk q. rewrite length_app in Hin. cbn [length] in Hin. apply uwp_bind, uwp_set. set (s1 := set_umem _ s).
  assert (string_at (umem s1) p l) as Hl by by eapply string_cut.
  assert (string_at (umem s1) pattern re) as Hp1.
  { eapply pattern_frame; [|exact Hp]. intros x Hx. apply fn_insert_ne. lia. }
  assert (in_buffer s1 (q + 1) r) as H1.
  { split; [|done|lia]. apply (string_ext (umem s)); [intros x Hx; apply fn_insert_ne; lia|].
    replace (q + 1) with (p + Z.of_nat (length (l ++ [10]))) by (rewrite length_app; cbn; lia). apply string_drop. by rewrite <-app_assoc. }
  apply uwp_bind. eapply uwp_mono; [apply (uwp_match (H := io_os fd)); [exact Hp1|exact Hl|done|lia]|].
  cbn beta. intros b s' w' (-> & -> & Hb). apply uwp_bind. destruct b; cbn [uwhen].
  2: { apply uwp_ret. replace w with (mkIO (inp w) (out w ++ [])) by (rewrite app_nil_r; by destruct w).
       apply Hk; [|done]. apply selects_no; [by intros Hm%Hb|constructor]. }
  apply uwp_bind, uwp_set. set (s2 := set_umem _ s1).
  assert (forall x, umem s2 x = umem s x) as E2.
  { intros x. subst s2 s1. cbn. rewrite !fn_insert_spec. destruct (decide (q = x)) as [<-|]; [|done].
    destruct Ht as [Ha _]. symmetry. apply (Ha (length l) 10). by rewrite lookup_app_r, Nat.sub_diag by lia. }
  apply uwp_bind, uwp_write; [lia|]. apply uwp_ret.
  assert (rd_bytes (umem s2) p (Z.to_nat (q + 1 - p)) = l ++ [10]) as ->.
  { replace (Z.to_nat (q + 1 - p)) with (length (l ++ [10])) by (rewrite length_app; cbn; lia). apply (string_bytes _ _ _ r).
    rewrite <-app_assoc. apply (string_ext (umem s)); [intros x _; apply E2|done]. }
  apply Hk; [apply selects_yes; [by apply Hb|constructor]|]. destruct H1 as [H1 _ Hin1]. split; [|by apply (string_ext (umem s)); [intros x _; apply E2|]|done].
  eapply (string_ext (umem s1)); [|exact H1]. intros x Hx. subst s2. cbn. apply fn_insert_ne. lia.
Qed.

Lemma uwp_grep_lines s w p r ls (Q : Z -> ustate -> stdio -> Prop) :
  in_buffer s p r -> r ++ inp w = text ls -> Forall line_ok ls ->
  (forall s' p' r' ls1 ls2 o, ls = ls1 ++ ls2 -> selects re ls1 o -> r' ++ inp w = text ls2 -> 10 ∉ r' -> in_buffer s' p' r' ->
     p' + Z.of_nat (length r') = p + Z.of_nat (length r) -> Q p' s' (mkIO (inp w) (out w ++ o))) ->
  uwp X (grep_lines pattern p) n s w Q.
Proof.
  intros Hh E Hok HQ. pose proof (hd_in _ _ _ Hh) as Hin.
  apply (uwp_loop _ _ (fun k p' s' w' => exists r' ls1 ls2 o, k = length r' /\ ls = ls1 ++ ls2 /\ selects re ls1 o /\ r' ++ inp w = text ls2 /\
    in_buffer s' p' r' /\ p' + Z.of_nat (length r') = p + Z.of_nat (length r) /\ w' = mkIO (inp w) (out w ++ o))) with (k := length r); [|lia|].
  2: { exists r, [], ls, []. rewrite app_nil_r. split_and!; try done; [constructor|by destruct w]. }
  intros k p' s' w' (r' & ls1 & ls2 & o & -> & -> & Hs & E' & Hh' & Hp & ->). pose proof (hd_in _ _ _ Hh') as Hin'. apply uwp_bind.
  apply Forall_app in Hok as [Hok1 Hok2].
  apply (uwp_strchr _ _ _ _ _ r'); [apply Hh'|lia|..].
  - intros Hno. cbn [Z.eqb]. apply uwp_ret. by apply (HQ s' p' r' ls1 ls2 o).
  - intros l r'' -> Hl. rewrite (proj2 (Z.eqb_neq _ _)) by lia. destruct (text_split l r'' (inp w) ls2 Hl Hok2 E') as (ls' & -> & E'').
    apply (uwp_grep_line s' _ p' l r''); [done|]. intros s2 o2 Ho2 H2. apply uwp_ret. rewrite length_app in *. cbn [length] in *.
    exists (length r''). split; [lia|]. exists r'', (ls1 ++ [l]), ls', (o ++ o2). cbn [inp out].
    split_and!; try done; [by rewrite <-app_assoc|by apply selects_app|lia|by rewrite <-app_assoc].
Qed.
(** The part of a line that is kept at the start of the buffer. *)
Record carrying (s : ustate) (c : list Z) : Prop := {
  cy_bytes : forall i x, c !! i = Some x -> umem s (buf + Z.of_nat i) = x;
  cy_line : 10 ∉ c;
  cy_pattern : string_at (umem s) pattern re
}.

Lemma memmove_front m p r :
  buf <= p -> (forall i x, r !! i = Some x -> m (p + Z.of_nat i) = x) ->
  (forall i x, r !! i = Some x -> memmove_mem m buf p (Z.of_nat (length r)) (buf + Z.of_nat i) = x) /\
  (forall x, ~ (buf <= x < buf + Z.of_nat (length r)) -> memmove_mem m buf p (Z.of_nat (length r)) x = m x).
Proof.
  intros Hp Hr. unfold memmove_mem. destruct (Z.ltb_spec buf p) as [Hlt|Hge].
  - split.
    + intros i x Hi. pose proof (lookup_lt_Some _ _ _ Hi). rewrite move_up_spec, decide_True by lia. rewrite <-(Hr i x Hi). f_equal. lia.
    + intros x Hx. rewrite move_up_spec, decide_False by lia. done.
  - assert (p = buf) as -> by lia. split.
    + intros i x Hi. pose proof (lookup_lt_Some _ _ _ Hi). rewrite move_down_spec, decide_True by lia. rewrite <-(Hr i x Hi). f_equal. lia.
    + intros x Hx. rewrite move_down_spec, decide_False by lia. done.
Qed.

Lemma text_nonzero ls x : Forall line_ok ls -> x ∈ text ls -> x <> 0.
Proof.
  intros Hok. induction Hok as [|l ls [_ Hl _] _ IH]; [by intros ?%not_elem_of_nil|]. rewrite text_cons.
  intros [Hx|[->|Hx]%elem_of_cons]%elem_of_app; [by intros ->|done|by apply IH].
Qed.

(** The buffer after a [read]. *)
Lemma carrying_read s c bs rest ls :
  carrying s c -> Forall line_ok ls -> (c ++ bs) ++ rest = text ls -> Z.of_nat (length c + length bs) <= 1023 ->
  in_buffer (set_umem (<[buf + (Z.of_nat (length c) + Z.of_nat (length bs)) := 0]> (wr_bytes (umem s) (buf + Z.of_nat (length c)) bs)) s) buf (c ++ bs).
Proof.
  intros [Hc _ Hp] Hok E Hl. set (m := wr_bytes _ _ _).
  assert (forall x, ~ (buf + Z.of_nat (length c) <= x < buf + Z.of_nat (length c + length bs)) -> m x = umem s x) as Hout.
  { intros x Hx. unfold m. rewrite wr_bytes_spec, decide_False by lia. done. }
  split; cbn [umem set_umem]; [split| |rewrite length_app; lia].
  - intros i x Hi. assert (x <> 0) as Hx0 by (apply (text_nonzero ls); [done|rewrite <-E; apply elem_of_app; left; by eapply list_elem_of_lookup_2]).
    split; [|done]. pose proof (lookup_lt_Some _ _ _ Hi) as Hil. rewrite length_app in Hil. rewrite fn_insert_ne by lia.
    apply lookup_app_Some in Hi as [Hi|[Hge Hi]].
    + pose proof (lookup_lt_Some _ _ _ Hi). rewrite Hout by lia. by apply Hc.
    + pose proof (lookup_lt_Some _ _ _ Hi). unfold m. rewrite wr_bytes_spec, decide_True by lia. apply list_lookup_total_correct.
      rewrite <-Hi. f_equal. lia.
  - rewrite length_app, Nat2Z.inj_add. apply fn_lookup_insert.
  - eapply pattern_frame; [|exact Hp]. intros x Hx. rewrite fn_insert_ne by lia. apply Hout. lia.
Qed.

(** The buffer after the [memmove]. *)
Lemma in_buffer_move s p r :
  in_buffer s p r -> 10 ∉ r -> carrying (set_umem (memmove_mem (umem s) buf p (Z.of_nat (length r))) s) r.
Proof.
  intros [Ht Hp Hin] Hr. destruct (memmove_front (umem s) p r) as [H1 H2]; [lia|intros i x Hi; by apply (sa_at _ _ _ Ht)|].
  split; [done|done|]. eapply pattern_frame; [|exact Hp]. intros x Hx. apply H2. lia.
Qed.

Lemma uwp_grep s w ls (Q : unit -> ustate -> stdio -> Prop) :
  string_at (umem s) pattern re -> inp w = text ls -> Forall line_ok ls -> (length (inp w) < n)%nat ->
  (forall s' o, selects re ls o -> Q tt s' (mkIO [] (out w ++ o))) -> uwp X (grep buf pattern fd) n s w Q.
Proof.
  intros Hp E Hok Hfuel HQ.
  apply (uwp_loop _ _ (fun k m s' w' => exists c ls1 ls2 o, k = length (inp w') /\ m = Z.of_nat (length c) /\ carrying s' c /\
    ls = ls1 ++ ls2 /\ selects re ls1 o /\ c ++ inp w' = text ls2 /\ out w' = out w ++ o)) with (k := length (inp w)); [|done|].
  2: { exists [], [], ls, []. rewrite app_nil_r. split_and!; try done; [|constructor]. split; [done|apply not_elem_of_nil|done]. }
  intros k m s' w' (c & ls1 & ls2 & o & -> & -> & Hc & -> & Hs & Ec & Eo). apply Forall_app in Hok as [Hok1 Hok2].
  pose proof (text_partial _ _ _ (cy_line _ _ Hc) Hok2 Ec) as Hpart. apply uwp_bind, uwp_read.
  - intros Hz. destruct Hpart as [(-> & -> & E0)|[Hl Hne]]; [|destruct Hz; [done|lia]]. cbn [Z.ltb negb]. apply uwp_ret.
    replace w' with (mkIO [] (out w ++ o)) by (destruct w'; cbn in *; congruence). apply HQ. by rewrite app_nil_r.
  - intros bs rest Ei Hl Hk. rewrite (proj2 (Z.ltb_lt 0 _)) by lia. cbn [negb]. rewrite Ei, app_assoc in Ec.
    apply uwp_bind, uwp_set. cbn [umem set_umem]. apply uwp_bind.
    eapply (uwp_grep_lines _ _ buf (c ++ bs) ls2); [by eapply (carrying_read s'); [..|lia]|exact Ec|done|].
    intros s2 p r lsa lsb oa -> Hsa Er Hr Hh Hlen. cbn [inp out] in *. rewrite length_app in Hlen.
    rewrite (proj2 (Z.ltb_lt 0 _)) by lia. replace (_ + _ - (p - buf)) with (Z.of_nat (length r)) by lia.
    apply uwp_bind, uwp_bind, uwp_set, uwp_ret, uwp_ret. exists (length rest). rewrite Ei, length_app. split; [lia|].
    exists r, (ls1 ++ lsa), lsb, (o ++ oa). cbn [inp out]. split_and!; try done.
    + by apply in_buffer_move.
    + by rewrite app_assoc.
    + by apply selects_app.
    + by rewrite Eo, app_assoc.
Qed.

End program.

(** C30: The matcher of [grep] decides what patterns mean: for a pattern and a
    text in memory, [match] returns, leaves memory as it is, and answers true
    exactly when the text has a match of the pattern, with [^] and [$] for its
    ends, [.] for any character and [*] for repetition. *)
Theorem match_matches re ps text ts n s :
  string_at (umem s) re ps -> string_at (umem s) text ts -> (length ps < n)%nat -> (length ts + 1 < n)%nat ->
  exists b, match_ re text n s = URet b s /\ (b = true <-> matches_re ps ts).
Proof.
  intros Hre Ht Hp Hn. destruct (uwp_pure (match_ re text) n s (decides s tt (matches_re ps ts))) as (b & s' & E & -> & _ & Hb).
  { by apply (uwp_match (H := no_os)). }
  by exists b.
Qed.

(** C29: [grep] prints the lines that match: on a file of lines that fit the
    buffer, and however the kernel splits it into reads, it reads the file to
    its end and writes the lines that match the pattern, whole, in order, and
    nothing else. *)
Theorem grep_prints fd buf pattern re n s w ls :
  0 < buf -> pattern + Z.of_nat (length re) < buf \/ buf + 1024 <= pattern -> (length re < n)%nat -> (1100 < n)%nat ->
  string_at (umem s) pattern re -> inp w = text ls -> Forall line_ok ls -> (length (inp w) < n)%nat ->
  uwp (H := io_os fd) (fun _ _ => False) (grep buf pattern fd) n s w (fun _ _ w' =>
    inp w' = [] /\ exists o, selects re ls o /\ out w' = out w ++ o).
Proof.
  intros Hb Ha Hr Hn Hp E Hok Hf. apply (uwp_grep fd buf pattern re n Hb Ha Hr Hn _ s w ls _ Hp E Hok Hf).
  intros s' o Hs. split; [done|]. by exists o.
Qed.

(** The pattern [^a.*$] at address 8, and a text. *)
Definition sample : ustate := mkU (fun x => if decide (8 <= x < 13) then [94; 97; 46; 42; 36] !!! Z.to_nat (x - 8)
  else if decide (20 <= x < 23) then [97; 98; 99] !!! Z.to_nat (x - 20) else 0) 0.

Lemma sample_pattern : string_at (umem sample) 8 [94; 97; 46; 42; 36].
Proof. split; [|done]. intros i c Hi. do 5 (destruct i as [|i]; [by injection Hi as <-|]). done. Qed.

Lemma match_matches_witness : match_ 8 20 20%nat sample = URet true sample /\ matches_re [94; 97; 46; 42; 36] [97; 98; 99].
Proof.
  assert (string_at (umem sample) 20 [97; 98; 99]) as Ht.
  { split; [|done]. intros i c Hi. do 3 (destruct i as [|i]; [by injection Hi as <-|]). done. }
  destruct (match_matches 8 [94; 97; 46; 42; 36] 20 [97; 98; 99] 20%nat sample sample_pattern Ht ltac:(cbn; lia) ltac:(cbn; lia)) as (b & E & Hb).
  assert (match_ 8 20 20%nat sample = URet true sample) as E' by by vm_compute.
  split; [exact E'|]. apply Hb. rewrite E' in E. by injection E.
Defined.

Lemma grep_prints_witness :
  uwp (H := io_os 3) (fun _ _ => False) (grep 4096 8 3) 2000%nat sample (mkIO (text [[97; 98]; [98; 97]]) []) (fun _ _ w' => out w' = [97; 98; 10]).
Proof.
  eapply uwp_mono.
  - apply (grep_prints 3 4096 8 [94; 97; 46; 42; 36] 2000%nat sample (mkIO (text [[97; 98]; [98; 97]]) []) [[97; 98]; [98; 97]]);
      [lia|cbn; lia|cbn; lia|lia|apply sample_pattern|done| |cbn; lia].
    assert (line_ok [97; 98] /\ line_ok [98; 97]) as [H1 H2] by (split; (split; [by apply (bool_decide_unpack (10 ∉ _))|by apply (bool_decide_unpack (0 ∉ _))|cbn; lia])).
    by apply Forall_cons; split; [|apply Forall_singleton].
  - intros a s' w' (_ & o & Hs & ->). cbn [out app]. inversion Hs as [|l ls o1 Hm1 Hs1 E1 E2|l ls o1 Hm1 Hs1 E1 E2]; subst.
    + f_equal. f_equal. f_equal. inversion Hs1 as [|l ls o2 Hm2 Hs2 E1 E2|l ls o2 Hm2 Hs2 E1 E2]; subst; [|by inversion Hs2].
      exfalso. destruct Hm2 as (x & u & [= <- <-] & [?|?] & _); lia.
    + exfalso. apply Hm1. cbn. exists 97, [98]. split; [done|]. split; [by right|]. exists [98], []. split; [done|]. split; [|done].
      apply Forall_singleton. by left.
Defined.
