(* ===== verification/FsBlocks.v ===== *)
(** * Blocks of the file system

    [bzero], [balloc] and [bfree] of [src/kernel/fs.c] inside a transaction: the
    bitmap says which blocks are in use, [balloc] takes the first free one and
    hands it out zeroed, [bfree] gives it back. *)

From S2P Require Import Prelude Riscv Spinlock Str Kalloc Kernel Proc Sleeplock Bio Log Fs KernelWp Ring BioProof LogProof LogOps.

Lemma lframe_sb s s' : lframe s s' -> sb s' = sb s.
Proof. by intros (kl & h & ps & B & v & W & _ & ->). Qed.

Lemma lframe_inodes s s' : lframe s s' -> inodes s' = inodes s.
Proof. by intros (kl & h & ps & B & v & W & _ & ->). Qed.

Lemma upd_buf_data b g s :
  upd_buf b (fun x => set_b_data (g (b_data x)) x) s = upd_buf b (set_b_data (g (b_data (bufs s b)))) s.
Proof. done. Qed.

Lemma lframe_upd_buf b f s : lframe s (upd_buf b f s).
Proof. apply bframe_lframe, bframe_upd_buf. Qed.

Lemma addL_length l blk : (length (addL l blk) <= length l + 1)%nat.
Proof. unfold addL. destruct (decide _); [lia|]. rewrite length_app. cbn. lia. Qed.

(** Buffer [b] is one of [H] and is for block [blk]. *)
Definition holds (s : kernel) (H : list Z) (blk : Z) : Prop := exists b, b ∈ H /\ b_blockno (bufs s b) = blk.

(** The buffers [H] are for the same blocks. *)
Definition keeps (H : list Z) (s s' : kernel) : Prop :=
  forall b, b ∈ H -> b_blockno (bufs s' b) = b_blockno (bufs s b).

#[global] Instance keeps_preorder H : PreOrder (keeps H).
Proof. split; [done|]. intros s1 s2 s3 H1 H2 b Hb. by rewrite H2, H1. Qed.

Lemma holds_keeps H s s' blk : keeps H s s' -> holds s' H blk <-> holds s H blk.
Proof.
  intros Hk. unfold holds. split; intros (b & Hb & <-); exists b; (split; [done|]); [symmetry|]; by apply Hk.
Qed.

Lemma keeps_upd_data H b d s : keeps H s (upd_buf b (set_b_data d) s).
Proof. intros x _. cbn. rewrite fn_insert_spec. by destruct (decide (b = x)) as [<-|]. Qed.

(** Compose the frames of a sequence of calls. *)
Ltac lframes :=
  first [ reflexivity | assumption | apply lframe_upd_buf
        | match goal with F : lframe ?s _ |- lframe ?s _ => etrans; [exact F|]; clear F; lframes end
        | match goal with F : lframe (upd_buf ?b ?f ?s) _ |- lframe ?s _ => etrans; [apply (lframe_upd_buf b f s)|]; lframes end ].

(** ** The bitmap *)

Definition zeroed (d : bytes) : bytes := memset d 0 0 BSIZE.

Section bitmap.
Context (S0 : Z) (sb0 : superblock).

Abbreviation isdata := (isdata S0).


(** Where the bit of block [b] is. *)
Definition bit_block (b : Z) : Z := BBLOCK b sb0.
Definition in_use (V : Z -> bytes) (b : Z) : bool := Z.testbit (V (bit_block b) (b mod BPB / 8)) (b mod 8).

Definition set_bit (b : Z) (d : bytes) : bytes :=
  <[b mod BPB / 8 := Z.lor (d (b mod BPB / 8)) (Z.shiftl 1 (b mod 8))]> d.
Definition clear_bit (b : Z) (d : bytes) : bytes :=
  <[b mod BPB / 8 := Z.land (d (b mod BPB / 8)) (Z.lnot (Z.shiftl 1 (b mod 8)))]> d.

Lemma land_bit x k : 0 <= k -> (Z.land x (Z.shiftl 1 k) =? 0) = negb (Z.testbit x k).
Proof.
  intros Hk. destruct (Z.testbit x k) eqn:E; cbn.
  - apply Z.eqb_neq. intros H0. apply (f_equal (fun z => Z.testbit z k)) in H0.
    rewrite Z.land_spec, Z.shiftl_spec, Z.sub_diag, E, Z.bits_0 in H0 by lia. done.
  - apply Z.eqb_eq. apply Z.bits_inj'. intros i Hi. rewrite Z.land_spec, Z.shiftl_spec, Z.bits_0 by lia.
    destruct (decide (i = k)) as [->|Hne]; [by rewrite E|]. apply andb_false_iff. right.
    destruct (decide (i < k)); [apply Z.testbit_neg_r; lia|]. apply Z.bits_above_log2; cbn; lia.
Qed.

Lemma shiftl1_bit k j : 0 <= k -> 0 <= j -> Z.testbit (Z.shiftl 1 k) j = bool_decide (j = k).
Proof.
  intros Hk Hj. rewrite Z.shiftl_1_l, Z.pow2_bits_eqb by lia. case_bool_decide; [subst; apply Z.eqb_refl|].
  apply Z.eqb_neq. lia.
Qed.

(** Two blocks with the same bit are the same block. *)
Lemma bit_inj b b' :
  0 <= b -> 0 <= b' -> b / BPB = b' / BPB -> b mod BPB / 8 = b' mod BPB / 8 -> b mod 8 = b' mod 8 -> b = b'.
Proof. unfold BPB, BSIZE. intros. Z.div_mod_to_equations. lia. Qed.

(** The bitmap is [0 .. sb_size) and its blocks are in the data part of the disk. *)
Record bitmap_ok : Prop := {
  bm_size : 0 <= sb_size sb0 < 2 ^ 31;
  bm_start : 0 <= sb_bmapstart sb0 /\ sb_size sb0 / BPB + sb_bmapstart sb0 < 2 ^ 31;
  bm_data : forall b, 0 <= b < sb_size sb0 -> isdata (bit_block b)
}.

Lemma bit_block_eq b : bitmap_ok -> 0 <= b < sb_size sb0 -> bit_block b = b / BPB + sb_bmapstart sb0.
Proof.
  intros [Hs Hm _] Hb. unfold bit_block, BBLOCK. apply u32_small.
  assert (b / BPB <= sb_size sb0 / BPB) by (apply Z.div_le_mono; [done|lia]).
  assert (0 <= b / BPB) by (apply Z.div_pos; [lia|done]). lia.
Qed.

Lemma in_use_set V b b' :
  bitmap_ok -> 0 <= b < sb_size sb0 -> 0 <= b' < sb_size sb0 ->
  in_use (<[bit_block b := set_bit b (V (bit_block b))]> V) b' = (bool_decide (b = b') || in_use V b')%bool.
Proof.
  intros Hok Hb Hb'. unfold in_use, set_bit. rewrite fn_insert_spec.
  destruct (decide (bit_block b = bit_block b')) as [E|E].
  2: { rewrite bool_decide_eq_false_2; [done|]. by intros ->. }
  rewrite fn_insert_spec. destruct (decide (b mod BPB / 8 = b' mod BPB / 8)) as [E2|E2].
  2: { rewrite bool_decide_eq_false_2, E; [done|]. by intros ->. }
  rewrite Z.lor_spec, shiftl1_bit, E, E2 by (apply Z.mod_pos_bound; lia).
  rewrite orb_comm. f_equal. apply bool_decide_ext. split; [|by intros ->].
  intros E3. rewrite !bit_block_eq in E by done. apply bit_inj; [lia|lia|lia|done|done].
Qed.

Lemma in_use_clear V b b' :
  bitmap_ok -> 0 <= b < sb_size sb0 -> 0 <= b' < sb_size sb0 ->
  in_use (<[bit_block b := clear_bit b (V (bit_block b))]> V) b' = (negb (bool_decide (b = b')) && in_use V b')%bool.
Proof.
  intros Hok Hb Hb'. unfold in_use, clear_bit. rewrite fn_insert_spec.
  destruct (decide (bit_block b = bit_block b')) as [E|E].
  2: { rewrite bool_decide_eq_false_2; [done|]. by intros ->. }
  rewrite fn_insert_spec. destruct (decide (b mod BPB / 8 = b' mod BPB / 8)) as [E2|E2].
  2: { rewrite bool_decide_eq_false_2, E; [done|]. by intros ->. }
  rewrite Z.land_spec, Z.lnot_spec, shiftl1_bit, E, E2 by (apply Z.mod_pos_bound; lia).
  rewrite andb_comm. f_equal. f_equal. apply bool_decide_ext. split; [|by intros ->].
  intros E3. rewrite !bit_block_eq in E by done. apply bit_inj; [lia|lia|lia|done|done].
Qed.

(** [a] is the first free block. *)
Definition first_free (V : Z -> bytes) (a : Z) : Prop :=
  0 <= a < sb_size sb0 /\ in_use V a = false /\ forall b, 0 <= b < a -> in_use V b = true.

(** The disk with [a] taken. *)
Definition taken (V : Z -> bytes) (a : Z) : Z -> bytes :=
  let V1 := <[bit_block a := set_bit a (V (bit_block a))]> V in <[a := zeroed (V1 a)]> V1.

Lemma in_use_at V b bi :
  bitmap_ok -> b mod BPB = 0 -> 0 <= b -> 0 <= bi < BPB -> b + bi < sb_size sb0 ->
  (Z.land (V (bit_block b) (bi / 8)) (Z.shiftl 1 (bi mod 8)) =? 0) = negb (in_use V (b + bi)) /\
  bit_block (b + bi) = bit_block b /\ (b + bi) mod BPB = bi /\ (b + bi) mod 8 = bi mod 8.
Proof.
  intros Hok Hb Hb0 Hbi Hs.
  assert ((b + bi) mod BPB = bi /\ (b + bi) mod 8 = bi mod 8 /\ (b + bi) / BPB = b / BPB) as (E1 & E2 & E3).
  { unfold BPB, BSIZE in *. Z.div_mod_to_equations. lia. }
  assert (bit_block (b + bi) = bit_block b) as E by (rewrite !bit_block_eq by (done || lia); lia).
  split; [|done]. rewrite land_bit by (apply Z.mod_pos_bound; lia). unfold in_use. by rewrite E, E1, E2.
Qed.

(** The disk with [b] given back. *)
Definition freed (V : Z -> bytes) (b : Z) : Z -> bytes :=
  <[bit_block b := clear_bit b (V (bit_block b))]> V.

End bitmap.

(** ** Reading and changing a block *)

Section blocks.
Context {c me dev : Z} {DEV : BlockDev} {DOK : BlockDevOk c me}.
Context (S0 : Z).
Context (Hdev : 0 <= dev < 2 ^ 31) (HS0 : 0 <= S0 /\ S0 + LOGSIZE < 2 ^ 31).
Context (n : nat) (Hn : (Z.to_nat NBUF < n)%nat) (Hdn : (dfuel < n)%nat).

Context (sb0 : superblock).

Abbreviation linv := (linv (c := c) (me := me) (dev := dev) S0).
Abbreviation isdata := (isdata S0).
Abbreviation bitmap_ok := (bitmap_ok S0 sb0).
Abbreviation bit_block := (bit_block sb0).
Abbreviation in_use := (in_use sb0).
Abbreviation taken := (taken sb0).
Abbreviation freed := (freed sb0).
Abbreviation first_free := (first_free sb0).

(** A block nobody holds is as on the disk, unless it is in the transaction. *)
Lemma linv_clean D V L H o s blk :
  linv D V L H o s -> isdata blk -> ~ holds s H blk -> blk ∈ L \/ (isdata blk /\ V blk = D blk).
Proof.
  intros Hl Hd Hh. destruct (decide (blk ∈ L)) as [|Hn']; [by left|right]. split; [done|].
  apply (ln_same _ _ _ _ _ _ _ Hl); [done|done|]. intros b Hb E. apply Hh. by exists b.
Qed.

(** Read a block: its contents, and that it can be released as it is. *)
Lemma wp_get D V L H o s blk (Q : Z -> kernel -> Prop) :
  linv D V L H o s -> isdata blk -> ~ holds s H blk -> Z.of_nat (length L + length H) < NBUF ->
  (forall b s', lframe s s' -> linv D V L (b :: H) o s' -> b ∉ H -> b_blockno (bufs s' b) = blk ->
     b_data (bufs s' b) = V blk -> keeps H s s' ->
     blk ∈ L \/ (isdata blk /\ V blk = D blk) -> Q b s') ->
  wp (bread dev blk) n s Q.
Proof.
  intros Hl Hd Hh Hlen HQ. pose proof Hd as [Hr _].
  eapply (wp_lread S0 n Hn Hdn); [exact Hl|done|intros b Hb E; apply Hh; by exists b|done|].
  intros b s' F _ Hl' Hb Hbn Hda Hoth _. apply HQ; try done.
  - intros x Hx. rewrite Hoth; [done|congruence].
  - by apply (linv_clean D V L H o s).
Qed.

(** Release a block that is in the transaction or as on the disk. *)
Lemma wp_put D V L H o s b (Q : unit -> kernel -> Prop) :
  linv D V L (b :: H) o s ->
  (b_blockno (bufs s b) ∈ L \/ (isdata (b_blockno (bufs s b)) /\ V (b_blockno (bufs s b)) = D (b_blockno (bufs s b)))) ->
  (forall s', lframe s s' -> linv D V L H o s' -> keeps H s s' -> Q tt s') ->
  wp (brelse b) n s Q.
Proof.
  intros Hl Hc HQ. eapply (wp_lrelse S0 n Hn Hdn _ _ _ _ H _ _ b _ Hl); [done|done|].
  intros s' F _ Hl' Hs _. apply HQ; [done|done|]. intros x _. apply Hs.
Qed.

(** Change the contents of a held block. *)
Lemma linv_store D V L H o s b g :
  linv D V L H o s -> b ∈ H -> b_data (bufs s b) = V (b_blockno (bufs s b)) ->
  linv D (<[b_blockno (bufs s b) := g (V (b_blockno (bufs s b)))]> V) L H o
    (upd_buf b (fun x => set_b_data (g (b_data x)) x) s).
Proof. intros Hl Hb Hd. rewrite upd_buf_data, Hd. by apply linv_data. Qed.

(** Put a held block into the transaction. *)
Lemma wp_log D V L H o s b (Q : unit -> kernel -> Prop) :
  linv D V L H o s -> b ∈ H -> isdata (b_blockno (bufs s b)) -> 1 <= o ->
  Z.of_nat (length L) < LOGSIZE - 1 ->
  (forall s', lframe s s' -> linv D V (addL L (b_blockno (bufs s b))) H o s' ->
    (forall x, b_blockno (bufs s' x) = b_blockno (bufs s x) /\ b_data (bufs s' x) = b_data (bufs s x)) -> Q tt s') ->
  wp (log_write b) n s Q.
Proof.
  intros Hl Hb Hd Ho Hlen HQ. eapply (wp_log_write S0 Hdev HS0 n Hn Hdn); [exact Hl|done|done|done|done|].
  intros s' F _ Hl' Hs. by apply HQ.
Qed.

(** Change a held block by [g], log it and release it. *)
Lemma wp_change D V L H o s b g blk (Q : unit -> kernel -> Prop) :
  linv D V L (b :: H) o s -> b ∉ H -> b_blockno (bufs s b) = blk -> b_data (bufs s b) = V blk ->
  isdata blk -> 1 <= o -> Z.of_nat (length L) < LOGSIZE - 1 ->
  (forall s', lframe s s' -> linv D (<[blk := g (V blk)]> V) (addL L blk) H o s' -> keeps H s s' -> Q tt s') ->
  wp (bset b (fun x => set_b_data (g (b_data x)) x);; log_write b;; brelse b) n s Q.
Proof.
  intros Hl Hb Hbn Hda Hd Ho Hlen HQ. unfold bset. wp_steps.
  apply (linv_store _ _ _ _ _ _ b g) in Hl; [|apply list_elem_of_here|by rewrite Hbn]. rewrite Hbn in Hl.
  set (s1 := upd_buf b _ s) in *.
  assert (b_blockno (bufs s1 b) = blk) as Hbn1 by (subst s1; cbn; by rewrite fn_lookup_insert).
  assert (keeps (b :: H) s s1) as K1 by apply keeps_upd_data.
  eapply wp_log; [exact Hl|apply list_elem_of_here|by rewrite Hbn1|done|done|]. rewrite Hbn1.
  intros s2 F2 Hl2 Hs2. eapply wp_put; [exact Hl2|left; rewrite (proj1 (Hs2 b)), Hbn1, addL_elem; by right|].
  intros s3 F3 Hl3 K3. apply HQ; [subst s1; lframes|done|].
  intros x Hx. rewrite (K3 x Hx), (proj1 (Hs2 x)). apply K1. by right.
Qed.

(** ** bzero *)

Lemma wp_bzero D V L H o s blk (Q : unit -> kernel -> Prop) :
  linv D V L H o s -> isdata blk -> ~ holds s H blk -> 1 <= o ->
  Z.of_nat (length L + length H) < NBUF -> Z.of_nat (length L) < LOGSIZE - 1 ->
  (forall s', lframe s s' -> linv D (<[blk := zeroed (V blk)]> V) (addL L blk) H o s' -> keeps H s s' -> Q tt s') ->
  wp (bzero dev blk) n s Q.
Proof.
  intros Hl Hd Hh Ho Hlen Hlog HQ. unfold bzero. pose proof Hd as [Hr _].
  rewrite (u32_small dev), (u32_small blk) by lia.
  apply wp_bind. eapply wp_get; [exact Hl|done|done|done|]. intros b s1 F1 L1 Hb Hbn Hda K1 _.
  eapply (wp_change _ _ _ _ _ _ b zeroed); [exact L1|done|exact Hbn|done|done|done|done|].
  intros s2 F2 L2 K2. apply HQ; [by etrans|done|by etrans].
Qed.

(** ** balloc *)

Lemma wp_seq3 {A} (m1 m2 m3 : K unit) (k : K A) s Q :
  wp (m1;; m2;; m3) n s (fun _ s' => wp k n s' Q) -> wp (m1;; m2;; m3;; k) n s Q.
Proof.
  unfold wp, mbind, M_bind. destruct (m1 n s) as [[] s1| | |]; cbn; try done.
  destruct (m2 n s1) as [[] s2| | |]; cbn; try done. by destruct (m3 n s2) as [[]| | |].
Qed.

Section alloc.
Context (D V : Z -> bytes) (L H : list Z) (o : Z) (s0 : kernel) (a : Z).
Context (Hok : bitmap_ok) (Ho : 1 <= o) (Hsb : sb s0 = sb0).
Context (Hfree : first_free V a) (Ha : isdata a).
Context (Hha : ~ holds s0 H a) (Hhb : forall b, 0 <= b < sb_size sb0 -> ~ holds s0 H (bit_block b)).
Context (Hlen : Z.of_nat (length L + length H) < NBUF - 1) (Hlog : Z.of_nat (length L) < LOGSIZE - 2).
Context (Hfuel : a + 1 < Z.of_nat n).

(** What [balloc] leaves. *)
Definition allocated (s : kernel) : Prop :=
  lframe s0 s /\ keeps H s0 s /\ linv D (taken V a) (addL (addL L (bit_block a)) a) H o s.

(** The bit of block [b + bi] is found clear. *)
Lemma wp_balloc_take s1 b bi bp :
  lframe s0 s1 -> keeps H s0 s1 -> linv D V L (bp :: H) o s1 -> bp ∉ H ->
  b_blockno (bufs s1 bp) = bit_block b -> b_data (bufs s1 bp) = V (bit_block b) ->
  a = b + bi -> bit_block a = bit_block b -> a mod BPB = bi -> a mod 8 = bi mod 8 ->
  wp (bset bp (fun x => set_b_data (<[bi / 8 := Z.lor (b_data x (bi / 8)) (Z.shiftl 1 (bi mod 8))]> (b_data x)) x);;
      log_write bp;; brelse bp;; bzero dev (b + bi);; mret (Done (Some (b + bi)) : ctl Z (option Z))) n s1
    (fun r s' => r = Done (Some a) /\ allocated s').
Proof.
  intros F1 K1 L1 Hbp Hbn Hda Ea Eb E1 E2. rewrite <-Ea. destruct Hfree as (Har & _ & _).
  assert ((fun x => set_b_data (<[bi / 8 := Z.lor (b_data x (bi / 8)) (Z.shiftl 1 (bi mod 8))]> (b_data x)) x) =
    (fun x => set_b_data (set_bit a (b_data x)) x)) as -> by (unfold set_bit; by rewrite E1, E2).
  apply wp_seq3. eapply (wp_change _ _ _ _ _ _ bp (set_bit a)); [exact L1|done|exact Hbn|done|..].
  { rewrite <-Eb. by apply (bm_data S0 sb0). } { done. } { lia. }
  intros s2 F2 L2 K2. rewrite <-Eb in L2.
  assert (~ holds s2 H a) as Hh2 by (rewrite (holds_keeps H s0 s2); [done|by etrans]).
  pose proof (addL_length L (bit_block a)).
  apply wp_bind. eapply wp_bzero; [exact L2|done|done|done|lia|lia|].
  intros s3 F3 L3 K3. apply wp_ret. split; [done|]. split_and!; [lframes|by do 2 (etrans; [eassumption|])|exact L3].
Qed.

Lemma wp_balloc (Q : Z -> kernel -> Prop) :
  linv D V L H o s0 -> (forall s', allocated s' -> Q a s') -> wp (balloc dev) n s0 Q.
Proof.
  intros Hl HQ. destruct Hfree as (Har & Hbit & Hless). unfold balloc. assert (0 < BPB) by done.
  apply (wp_loop _ (fun k b s => k = Z.to_nat (a - b) /\ 0 <= b <= a /\ b mod BPB = 0 /\
    lframe s0 s /\ keeps H s0 s /\ linv D V L H o s)) with (k := Z.to_nat (a - 0)); [|lia|split_and!; done || lia].
  intros k b s (-> & Hb & Hmod & F & K & Hl1). wp_steps. rewrite (lframe_sb _ _ F), Hsb.
  rewrite (proj2 (Z.ltb_lt b _)) by lia. cbn [negb]. fold (bit_block b).
  apply wp_bind. eapply wp_get; [exact Hl1|apply (bm_data S0 sb0); [done|lia]| |lia|].
  { rewrite (holds_keeps H s0 s) by done. apply Hhb. lia. }
  intros bp s1 F1 L1 Hbp Hbn Hda K1 Hclean.
  assert (lframe s0 s1) as F01 by by etrans. assert (keeps H s0 s1) as K01 by by etrans.
  apply wp_bind. apply (wp_loop _ (fun k bi s' => k = Z.to_nat (a - (b + bi)) /\ 0 <= bi <= BPB /\ b + bi <= a /\ s' = s1))
    with (k := Z.to_nat (a - (b + 0))); [|lia|split_and!; done || lia].
  intros k' bi s' (-> & Hbi & Hle & ->).
  destruct (Z.ltb_spec bi BPB) as [Hlt|Hge]; cbn [andb negb].
  2: { apply wp_ret. apply wp_bind. eapply wp_put; [exact L1|by rewrite Hbn|]. intros s2 F2 L2 K2. apply wp_ret.
       exists (Z.to_nat (a - (b + BPB))). split; [lia|]. split_and!; [done|lia|lia| |by etrans|by etrans|done].
       rewrite <-Z.add_mod_idemp_l, Hmod by done. by apply Z.mod_same. }
  rewrite (proj2 (Z.ltb_lt (b + bi) _)) by lia. cbn [negb]. unfold bget_. apply wp_bind, wp_gets. rewrite Hda.
  destruct (in_use_at S0 sb0 V b bi Hok Hmod (proj1 Hb) (conj (proj1 Hbi) Hlt) ltac:(lia)) as (-> & Eb & E1 & E2).
  destruct (decide (b + bi = a)) as [E|Hne].
  - rewrite E, Hbit in *. cbn [negb]. rewrite <-E. eapply wp_mono.
    { apply (wp_balloc_take s1 b bi bp); try done. }
    cbn beta. intros r s2 [-> Hal]. apply wp_ret. by apply HQ.
  - rewrite Hless by lia. cbn [negb]. apply wp_ret. exists (Z.to_nat (a - (b + (bi + 1)))). split; [lia|]. split_and!; done || lia.
Qed.

End alloc.

(** ** bfree *)

Lemma wp_bfree D V L H o s b (Q : unit -> kernel -> Prop) :
  bitmap_ok -> sb s = sb0 -> linv D V L H o s -> 0 <= b < sb_size sb0 -> in_use V b = true -> 1 <= o ->
  ~ holds s H (bit_block b) -> Z.of_nat (length L + length H) < NBUF -> Z.of_nat (length L) < LOGSIZE - 1 ->
  (forall s', lframe s s' -> keeps H s s' -> linv D (freed V b) (addL L (bit_block b)) H o s' -> Q tt s') ->
  wp (bfree dev b) n s Q.
Proof.
  intros Hok Hsb Hl Hb Hu Ho Hh Hlen Hlog HQ. unfold bfree. apply wp_bind, wp_gets. rewrite Hsb, u32_small by lia. fold (bit_block b).
  apply wp_bind. eapply wp_get; [exact Hl|by apply (bm_data S0 sb0)|done|done|]. intros bp s1 F1 L1 Hbp Hbn Hda K1 _.
  unfold bget_. apply wp_bind, wp_gets. rewrite Hda.
  assert ((b mod BPB) mod 8 = b mod 8) as E by (unfold BPB, BSIZE; Z.div_mod_to_equations; lia). rewrite E.
  rewrite land_bit by (apply Z.mod_pos_bound; lia). fold (in_use V b). rewrite Hu. cbn [negb].
  eapply (wp_change _ _ _ _ _ _ bp (clear_bit b)); [exact L1|done|exact Hbn|done|by apply (bm_data S0 sb0)|done|done|].
  intros s2 F2 L2 K2. apply HQ; [by etrans|by etrans|exact L2].
Qed.

End blocks.
