(* ===== verification/FsInode.v ===== *)
(** * Inodes of the file system

    [iupdate] and [ilock] of [src/kernel/fs.c]: the copy of an inode on the disk
    and the copy in the table. *)

From Stdlib Require Import FunctionalExtensionality.
From S2P Require Import Prelude Riscv Spinlock Str Kalloc Kernel Proc Sleeplock Bio Log Fs KernelWp Ring BioProof LogProof LogOps FsBlocks.

(** ** The fields of an inode on the disk *)

(** The values the fields of an inode can have: [short]s, and [uint]s. *)
Record inode_typed (x : inode) : Prop := {
  it_type : - 2 ^ 15 <= i_type x < 2 ^ 15;
  it_major : - 2 ^ 15 <= i_major x < 2 ^ 15;
  it_minor : - 2 ^ 15 <= i_minor x < 2 ^ 15;
  it_nlink : - 2 ^ 15 <= i_nlink x < 2 ^ 15;
  it_size : 0 <= i_size x < 2 ^ 32;
  it_addrs : forall i, 0 <= i <= NDIRECT -> 0 <= i_addrs x i < 2 ^ 32
}.

(** What [iupdate] stores at offset [o] of the block. *)
Definition dinode_put (x : inode) (o : Z) (d : bytes) : bytes :=
  put_addrs (st 4 (st 2 (st 2 (st 2 (st 2 d (o + 0) (i_type x)) (o + 2) (i_major x)) (o + 4) (i_minor x)) (o + 6) (i_nlink x))
    (o + 8) (i_size x)) o (i_addrs x) 0 (Z.to_nat (NDIRECT + 1)).

(** What [ilock] reads from there. *)
Definition dinode_get (d : bytes) (o : Z) (x : inode) : inode :=
  set_i_addrs (di_addr d o) (set_i_size (di_size d o) (set_i_nlink (di_nlink d o)
    (set_i_minor (di_minor d o) (set_i_major (di_major d o) (set_i_type (di_type d o) x))))).

(** The inode [x] as it is on the disk. *)
Record on_disk (d : bytes) (o : Z) (x : inode) : Prop := {
  od_type : di_type d o = i_type x;
  od_major : di_major d o = i_major x;
  od_minor : di_minor d o = i_minor x;
  od_nlink : di_nlink d o = i_nlink x;
  od_size : di_size d o = i_size x;
  od_addrs : forall i, 0 <= i <= NDIRECT -> di_addr d o i = i_addrs x i
}.

Lemma ld_st_sep k j m a b v : a + Z.of_nat j <= b \/ b + Z.of_nat k <= a -> ld k (st j m a v) b = ld k m b.
Proof. intros Hs. apply ld_ext. intros x Hx. apply st_out. lia. Qed.

Lemma ld_range k m a : (forall x, a <= x < a + Z.of_nat k -> 0 <= m x < 256) -> 0 <= ld k m a < 256 ^ Z.of_nat k.
Proof.
  revert a. induction k as [|k IH]; intros a Hm; [cbn; lia|]. cbn [ld].
  assert (0 <= m a < 256) by (apply Hm; lia). assert (0 <= ld k m (a + 1) < 256 ^ Z.of_nat k) by (apply IH; intros; apply Hm; lia).
  rewrite Nat2Z.inj_succ, Z.pow_succ_r by lia. lia.
Qed.

Lemma put_addrs_out k : forall d o f i x,
  x < o + 12 + 4 * i \/ o + 12 + 4 * (i + Z.of_nat k) <= x -> put_addrs d o f i k x = d x.
Proof.
  induction k as [|k IH]; intros d o f i x Hx; cbn [put_addrs]; [done|]. rewrite IH by lia. apply st_out. lia.
Qed.

Lemma put_addrs_ld k : forall d o f i j,
  i <= j < i + Z.of_nat k -> ld 4 (put_addrs d o f i k) (o + 12 + 4 * j) = u32 (f j).
Proof.
  induction k as [|k IH]; intros d o f i j Hj; [lia|]. cbn [put_addrs]. destruct (decide (j = i)) as [->|Hne].
  - erewrite ld_ext; [|intros x Hx; apply put_addrs_out; lia]. by rewrite ld_st.
  - apply IH. lia.
Qed.

Lemma dinode_put_low x o d a k :
  a + Z.of_nat k <= o + 12 ->
  ld k (dinode_put x o d) a = ld k (st 4 (st 2 (st 2 (st 2 (st 2 d (o + 0) (i_type x)) (o + 2) (i_major x)) (o + 4) (i_minor x)) (o + 6) (i_nlink x))
    (o + 8) (i_size x)) a.
Proof. intros Ha. apply ld_ext. intros y Hy. apply put_addrs_out. lia. Qed.

Lemma s16_u16 v : - 2 ^ 15 <= v < 2 ^ 15 -> s16 (v mod 256 ^ Z.of_nat 2) = v.
Proof. intros Hv. unfold s16. change (256 ^ Z.of_nat 2) with (2 ^ 16). Z.div_mod_to_equations. lia. Qed.

Lemma dinode_put_on_disk x o d : inode_typed x -> on_disk (dinode_put x o d) o x.
Proof.
  intros []. split; unfold di_type, di_major, di_minor, di_nlink, di_size, di_addr.
  - rewrite dinode_put_low, !ld_st_sep by lia. rewrite <-(Z.add_0_r o) at 2. rewrite ld_st. by apply s16_u16.
  - rewrite dinode_put_low, !ld_st_sep by lia. rewrite ld_st. by apply s16_u16.
  - rewrite dinode_put_low, !ld_st_sep by lia. rewrite ld_st. by apply s16_u16.
  - rewrite dinode_put_low, !ld_st_sep by lia. rewrite ld_st. by apply s16_u16.
  - rewrite dinode_put_low by lia. rewrite ld_st. change (256 ^ Z.of_nat 4) with (2 ^ 32). by apply Z.mod_small.
  - intros i Hi. unfold dinode_put. rewrite put_addrs_ld by (unfold NDIRECT in *; lia). apply u32_small. by apply it_addrs0.
Qed.

(** The other inodes of the block are not touched. *)
Lemma dinode_put_out x o d y : y < o \/ o + sizeof_dinode <= y -> dinode_put x o d y = d y.
Proof.
  intros Hy. unfold dinode_put. rewrite put_addrs_out by (unfold sizeof_dinode, NDIRECT in *; lia).
  unfold sizeof_dinode in Hy. rewrite !st_out by lia. done.
Qed.

Lemma on_disk_ext d d' o x : (forall y, o <= y < o + sizeof_dinode -> d' y = d y) -> on_disk d o x -> on_disk d' o x.
Proof.
  intros He []. assert (forall k a, o <= a -> a + Z.of_nat k <= o + sizeof_dinode -> ld k d' a = ld k d a) as E.
  { intros k a H1 H2. apply ld_ext. intros y Hy. apply He. lia. }
  unfold di_type, di_major, di_minor, di_nlink, di_size, di_addr in *.
  split; unfold di_type, di_major, di_minor, di_nlink, di_size, di_addr; try (rewrite E by (unfold sizeof_dinode; lia); done).
  intros i Hi. rewrite E by (unfold sizeof_dinode, NDIRECT in *; lia). by apply od_addrs0.
Qed.

Lemma dinode_offs inum : 0 <= dinode_off inum /\ dinode_off inum + sizeof_dinode <= BSIZE.
Proof.
  unfold dinode_off, IPB, sizeof_dinode, BSIZE. change (1024 / 64) with 16.
  assert (0 <= inum mod 16 < 16) by (apply Z.mod_pos_bound; lia). lia.
Qed.

Lemma dinode_offs_ne i j :
  i mod IPB <> j mod IPB ->
  dinode_off i + sizeof_dinode <= dinode_off j \/ dinode_off j + sizeof_dinode <= dinode_off i.
Proof. unfold dinode_off, sizeof_dinode. lia. Qed.

(** Whatever is on the disk, the copy in memory has the types of the fields. *)
Lemma s16_range v : - 2 ^ 15 <= s16 v < 2 ^ 15.
Proof. unfold s16. assert (0 <= (v + 2 ^ 15) mod 2 ^ 16 < 2 ^ 16) by (apply Z.mod_pos_bound; lia). lia. Qed.

Lemma dinode_get_typed d o x : (forall y, 0 <= d y < 256) -> inode_typed (dinode_get d o x).
Proof.
  intros Hd. split; try apply s16_range.
  - apply (ld_range 4 d (o + 8)). intros. apply Hd.
  - intros i _. apply (ld_range 4 d (o + 12 + 4 * i)). intros. apply Hd.
Qed.

(** ** Frames *)

(** Entry [ip] of the table of inodes becomes [y]. *)
Definition put_inode (ip : Z) (y : inode) (s : kernel) : kernel := set_inodes (<[ip := y]> (inodes s)) s.

Lemma upd_put_inode ip f s : upd_inode ip f s = put_inode ip (f (inodes s ip)) s.
Proof. done. Qed.

Lemma put_inode_twice ip y z s : put_inode ip y (put_inode ip z s) = put_inode ip y s.
Proof. unfold put_inode. cbn. by rewrite fn_insert_insert. Qed.

Lemma put_inode_at ip y s : inodes (put_inode ip y s) ip = y.
Proof. cbn. apply fn_lookup_insert. Qed.

Lemma put_inode_id ip s : put_inode ip (inodes s ip) s = s.
Proof. unfold put_inode. rewrite fn_insert_id. by destruct s as [[]]. Qed.

(** An entry that changes before or after what the log does. *)
Lemma lframe_put_inode ip y s s' : lframe s s' -> lframe (put_inode ip y s) (put_inode ip y s').
Proof. intros (kl & h & ps & B & v & W & Hw & ->). by exists kl, h, ps, B, v, W. Qed.

Lemma lframe_put_after ip y z s s' : lframe (put_inode ip y s) s' -> lframe (put_inode ip z s) (put_inode ip z s').
Proof. intros F. apply (lframe_put_inode ip z) in F. by rewrite put_inode_twice in F. Qed.

(** What the routines on inodes may change: the table of inodes, and what the
    log may. *)
Definition fframe (s s' : kernel) : Prop := exists I, lframe (set_inodes I s) s'.

Lemma lframe_set_inodes I s s' : lframe s s' -> lframe (set_inodes I s) (set_inodes I s').
Proof. intros (kl & h & ps & B & v & W & Hw & ->). by exists kl, h, ps, B, v, W. Qed.

Lemma set_inodes_id s : set_inodes (inodes s) s = s.
Proof. by destruct s as [[]]. Qed.

Lemma lframe_fframe s s' : lframe s s' -> fframe s s'.
Proof. intros F. exists (inodes s). by rewrite set_inodes_id. Qed.

#[global] Instance fframe_preorder : PreOrder fframe.
Proof.
  split; [intros s; by apply lframe_fframe|]. intros s1 s2 s3 [I F] [I' F']. exists I'.
  etrans; [|exact F']. apply (lframe_set_inodes I') in F. exact F.
Qed.

Lemma fframe_upd_inode ip f s : fframe s (upd_inode ip f s).
Proof. exists (<[ip := f (inodes s ip)]> (inodes s)). reflexivity. Qed.

Lemma fframe_sb s s' : fframe s s' -> sb s' = sb s.
Proof. intros [I F]. by rewrite (lframe_sb _ _ F). Qed.

(** Compose frames. *)
Ltac fframes :=
  first [ reflexivity | assumption | apply fframe_upd_inode | by apply lframe_fframe
        | match goal with F : fframe ?s _ |- fframe ?s _ => etrans; [exact F|]; clear F; fframes end
        | match goal with F : lframe ?s _ |- fframe ?s _ => etrans; [apply (lframe_fframe _ _ F)|]; clear F; fframes end
        | match goal with F : lframe (upd_inode ?b ?f ?s) _ |- fframe ?s _ => etrans; [apply (fframe_upd_inode b f s)|]; fframes end ].

Section inodes.
Context {c me dev : Z} {DEV : BlockDev} {DOK : BlockDevOk c me}.
Context (S0 : Z).
Context (Hdev : 0 <= dev < 2 ^ 31) (HS0 : 0 <= S0 /\ S0 + LOGSIZE < 2 ^ 31).
Context (n : nat) (Hn : (Z.to_nat NBUF < n)%nat) (Hdn : (dfuel < n)%nat).
Context (sb0 : superblock).

Abbreviation linv := (linv (c := c) (me := me) (dev := dev) S0).
Abbreviation isdata := (isdata S0).

(** The cache and the log do not depend on the table of inodes. *)
Lemma linv_inodes D V L H o I s : linv D V L H o s -> linv D V L H o (set_inodes I s).
Proof. intros [[[]] []]. split; try done; split; try done. Qed.

Lemma linv_upd_inode D V L H o ip f s : linv D V L H o s -> linv D V L H o (upd_inode ip f s).
Proof. apply linv_inodes. Qed.

Lemma linv_runs D V L H o s : linv D V L H o s -> runs c me [] s.
Proof. intros Hl. apply Hl. Qed.

Lemma linv_hk D V L H o h s : hon c [] h -> linv D V L H o s -> linv D V L H o (hk h s).
Proof.
  intros Hh Hl. eapply linv_bframe; [exact Hl| |done|apply binv_hart; [done|apply Hl]|apply Hl].
  exists h, (procs s), (bufs s), (vd s), (medium s). split; [done|]. by destruct s as [[]].
Qed.

(** ** iupdate *)

(** The block of inode [inum]. *)
Definition iblock (inum : Z) : Z := IBLOCK inum sb0.

Definition disk_put (V : Z -> bytes) (x : inode) : Z -> bytes :=
  <[iblock (i_inum x) := dinode_put x (dinode_off (i_inum x)) (V (iblock (i_inum x)))]> V.

Lemma wp_iupdate D V L o s ip (Q : unit -> kernel -> Prop) :
  linv D V L [] o s -> sb s = sb0 -> i_dev (inodes s ip) = dev -> isdata (iblock (i_inum (inodes s ip))) -> 1 <= o ->
  Z.of_nat (length L) < LOGSIZE - 1 ->
  (forall s', lframe s s' -> linv D (disk_put V (inodes s ip)) (addL L (iblock (i_inum (inodes s ip)))) [] o s' -> Q tt s') ->
  wp (iupdate ip) n s Q.
Proof.
  intros Hl Hsb Hid Hd Ho Hlog HQ. unfold iupdate, iget_. apply wp_bind, wp_gets, wp_bind, wp_gets. rewrite Hsb, Hid.
  fold (iblock (i_inum (inodes s ip))). set (x := inodes s ip) in *. set (blk := iblock (i_inum x)) in *.
  assert (Z.of_nat (length L + length (@nil Z)) < NBUF) as Hroom by (unfold NBUF, LOGSIZE, MAXOPBLOCKS in *; cbn; lia).
  apply wp_bind. eapply (wp_get S0 n Hn Hdn); [exact Hl|exact Hd| |exact Hroom|].
  { intros (b & Hb & _). by apply not_elem_of_nil in Hb. }
  intros bp s1 F1 L1 Hbp Hbn Hda _ _.
  unfold bset. do 6 apply wp_bind, wp_modify. rewrite !upd_buf_twice.
  match goal with |- wp _ _ (upd_buf bp ?f s1) _ =>
    change f with (fun y => set_b_data (dinode_put x (dinode_off (i_inum x)) (b_data y)) y) end.
  apply (wp_change S0 Hdev HS0 n Hn Hdn _ _ _ _ _ _ bp (dinode_put x (dinode_off (i_inum x))) blk _ L1); [done|exact Hbn|done|done|done|done|].
  intros s2 F2 L2 _. apply HQ; [by etrans|exact L2].
Qed.

(** ** ilock *)

(** The entry after a successful [ilock]. *)
Definition locked_inode (V : Z -> bytes) (pid : Z) (x : inode) : inode :=
  let x := set_i_lock (mkSleep 1 (sl_name (i_lock x)) pid) x in
  if i_valid x =? 0 then set_i_valid 1 (dinode_get (V (iblock (i_inum x))) (dinode_off (i_inum x)) x) else x.

(** [ilock] returns, or panics on an inode that is free on the disk. *)
Lemma run_ilock (T : out kernel unit -> Prop) D V L o s ip :
  linv D V L [] o s -> sb s = sb0 -> i_dev (inodes s ip) = dev -> isdata (iblock (i_inum (inodes s ip))) ->
  Z.of_nat (length L) < LOGSIZE - 1 -> 1 <= i_ref (inodes s ip) -> sl_locked (i_lock (inodes s ip)) = 0 ->
  let y := locked_inode V (p_pid (procs s me)) (inodes s ip) in
  (forall s', i_valid (inodes s ip) <> 0 \/ i_type y <> 0 -> lframe (put_inode ip y s) s' -> linv D V L [] o s' -> T (Ret tt s')) ->
  (forall s', i_valid (inodes s ip) = 0 -> i_type y = 0 -> T (Panic "ilock: no type" s')) ->
  T (ilock (Some ip) n s).
Proof.
  intros Hl Hsb Hid Hd Hlog Href Hfree y HQ HP. pose proof (linv_runs _ _ _ _ _ _ Hl) as [Hh Hme Hst Hch].
  unfold ilock, iget_. apply (run_bind T), wp_gets. rewrite (proj2 (Z.ltb_ge _ _)) by lia.
  apply (run_bind T). eapply (wp_acquiresleep (c := c) (me := me) (SLinode ip) s []); [lia|done|apply not_elem_of_nil|done|done|].
  intros h Hh1. cbn [sl_set sl_get]. set (x := inodes s ip) in *. set (x1 := set_i_lock (mkSleep 1 (sl_name (i_lock x)) (p_pid (procs s me))) x).
  rewrite upd_put_inode. fold x x1. set (s1 := hk h (put_inode ip x1 s)).
  assert (inodes s1 ip = x1) as Ei by apply (put_inode_at ip x1 s).
  assert (lframe (put_inode ip x1 s) s1) as F1 by apply lframe_hart.
  assert (linv D V L [] o s1) as L1 by (apply linv_hk; [done|]; by apply linv_inodes).
  apply (run_bind T), wp_gets. rewrite Ei.
  subst y. unfold locked_inode in HQ, HP. fold x1 in HQ, HP. change (i_valid x) with (i_valid x1) in HQ, HP.
  destruct (Z.eqb_spec (i_valid x1) 0) as [Hv|Hv]; cbn [when]; [|by apply HQ; [left|..]].
  do 2 apply (run_bind T), wp_gets. rewrite Ei.
  change (sb s1) with (sb s). change (i_dev x1) with (i_dev x). change (i_inum x1) with (i_inum x) in *.
  rewrite Hsb, Hid. fold (iblock (i_inum x)).
  assert (Z.of_nat (length L + length (@nil Z)) < NBUF) as Hroom by (unfold NBUF, LOGSIZE, MAXOPBLOCKS in *; cbn; lia).
  apply (run_bind T). eapply (wp_get S0 n Hn Hdn); [exact L1|exact Hd| |exact Hroom|].
  { intros (b & Hb & _). by apply not_elem_of_nil in Hb. }
  intros bp s2 F2 L2 Hbp Hbn Hda _ Hcl. unfold bget_, iset. apply (run_bind T), wp_gets. rewrite Hda.
  do 6 apply (run_bind T), wp_modify. rewrite !upd_put_inode, !put_inode_twice, !put_inode_at.
  rewrite (lframe_inodes _ _ F2), Ei. fold (dinode_get (V (iblock (i_inum x))) (dinode_off (i_inum x)) x1).
  set (x2 := dinode_get _ _ x1) in *. set (s3 := put_inode ip x2 s2).
  assert (linv D V L [bp] o s3) as L3 by by apply linv_inodes.
  apply (run_bind T). eapply (wp_put S0 n Hn Hdn); [exact L3|subst s3; cbn [bufs put_inode set_inodes]; by rewrite Hbn|].
  intros s4 F4 L4 _. apply (run_bind T), wp_modify. rewrite upd_put_inode, (lframe_inodes _ _ F4). subst s3. rewrite put_inode_at.
  apply (run_bind T), wp_gets. rewrite put_inode_at.
  destruct (Z.eqb_spec (i_type (set_i_valid 1 x2)) 0) as [Hz|Hz]; cbn [when]; [by apply HP|].
  apply HQ; [by right| |by apply linv_inodes].
  etrans; [apply (lframe_put_after ip x1 _ s s2); by etrans|]. by apply (lframe_put_after ip x2).
Qed.

Lemma wp_ilock D V L o s ip (Q : unit -> kernel -> Prop) :
  linv D V L [] o s -> sb s = sb0 -> i_dev (inodes s ip) = dev -> isdata (iblock (i_inum (inodes s ip))) ->
  Z.of_nat (length L) < LOGSIZE - 1 -> 1 <= i_ref (inodes s ip) -> sl_locked (i_lock (inodes s ip)) = 0 ->
  i_type (locked_inode V (p_pid (procs s me)) (inodes s ip)) <> 0 ->
  (forall s', lframe (put_inode ip (locked_inode V (p_pid (procs s me)) (inodes s ip)) s) s' -> linv D V L [] o s' -> Q tt s') ->
  wp (ilock (Some ip)) n s Q.
Proof.
  intros Hl Hsb Hid Hd Hlog Href Hfree Htype HQ.
  apply (run_ilock (fun o => match o with Ret a s' => Q a s' | _ => False end) D V L o s ip); try done.
  intros s' _. apply HQ.
Qed.

End inodes.

(** The fields of [struct dinode] agree. *)
Record same_dinode (x y : inode) : Prop := {
  sd_type : i_type x = i_type y;
  sd_major : i_major x = i_major y;
  sd_minor : i_minor x = i_minor y;
  sd_nlink : i_nlink x = i_nlink y;
  sd_size : i_size x = i_size y;
  sd_addrs : forall i, 0 <= i <= NDIRECT -> i_addrs x i = i_addrs y i
}.

Lemma on_disk_get d o x y : on_disk d o x -> same_dinode (dinode_get d o y) x.
Proof. intros []. by split. Qed.

Lemma same_dinode_valid v x y : same_dinode x y -> same_dinode (set_i_valid v x) y.
Proof. intros []. by split. Qed.

Lemma locked_loaded sb0 V pid x : i_valid x = 0 ->
  locked_inode sb0 V pid x = set_i_valid 1 (dinode_get (V (iblock sb0 (i_inum x))) (dinode_off (i_inum x)) (set_i_lock (mkSleep 1 (sl_name (i_lock x)) pid) x)).
Proof. intros E. unfold locked_inode. cbn. by rewrite E. Qed.

(** C24: [ilock] makes a well-typed inode. Whatever bytes are on the disk, and
    unless the entry has to be loaded and the inode is free on the disk (its
    type there is 0), [ilock] returns; the entry is then locked by the process
    and valid, every field is in the range of its C type and as on the disk when
    it was loaded, and the transaction and the other entries of the table are as
    before. On a free inode it panics. *)
Theorem ilock_typed {c me dev : Z} {DEV : BlockDev} {DOK : BlockDevOk c me} S0 n sb0 D V L o s ip :
  (Z.to_nat NBUF < n)%nat -> (dfuel < n)%nat ->
  linv (c := c) (me := me) (dev := dev) S0 D V L [] o s -> sb s = sb0 -> Z.of_nat (length L) < LOGSIZE - 1 ->
  let x := inodes s ip in
  i_dev x = dev -> isdata S0 (iblock sb0 (i_inum x)) -> 1 <= i_ref x -> sl_locked (i_lock x) = 0 ->
  (forall i, 0 <= V (iblock sb0 (i_inum x)) i < 256) -> (i_valid x <> 0 -> inode_typed x) ->
  if decide (i_valid x = 0 /\ di_type (V (iblock sb0 (i_inum x))) (dinode_off (i_inum x)) = 0)
  then exists s', ilock (Some ip) n s = Panic "ilock: no type" s'
  else exists s', ilock (Some ip) n s = Ret tt s' /\ linv (c := c) (me := me) (dev := dev) S0 D V L [] o s' /\
    inode_typed (inodes s' ip) /\ i_valid (inodes s' ip) <> 0 /\
    i_lock (inodes s' ip) = mkSleep 1 (sl_name (i_lock x)) (p_pid (procs s me)) /\
    (i_valid x = 0 -> on_disk (V (iblock sb0 (i_inum x))) (dinode_off (i_inum x)) (inodes s' ip)) /\
    forall ip', ip' <> ip -> inodes s' ip' = inodes s ip'.
Proof.
  intros Hn Hdn Hl Hsb Hlog x Hid Hd Href Hfree Hb Hty.
  apply (run_ilock S0 n Hn Hdn sb0 (fun r => if decide _ then exists s', r = Panic "ilock: no type" s' else exists s', r = Ret tt s' /\ _)
    D V L o s ip Hl Hsb Hid Hd Hlog Href Hfree); fold x; intros s'.
  - intros Hok F' L'. rewrite decide_False.
    2: { intros [Hv Ht]. destruct Hok as [?|Hok]; [done|]. by rewrite locked_loaded in Hok. }
    exists s'. split; [done|]. split; [done|]. rewrite (lframe_inodes _ _ F'), put_inode_at.
    assert (forall ip', ip' <> ip -> inodes (put_inode ip (locked_inode sb0 V (p_pid (procs s me)) x) s) ip' = inodes s ip') as Ho.
    { intros ip' Hne. by apply fn_insert_ne. }
    destruct (decide (i_valid x = 0)) as [Hv|Hv].
    + rewrite locked_loaded by done. split; [by destruct (dinode_get_typed (V (iblock sb0 (i_inum x))) (dinode_off (i_inum x)) x Hb); split|].
      split_and!; try done. intros ip' Hne. by rewrite <-(Ho ip' Hne), locked_loaded by done.
    + unfold locked_inode. cbn. rewrite (proj2 (Z.eqb_neq _ _) Hv). split; [by destruct (Hty Hv); split|].
      split_and!; try done. intros ip' Hne. by apply fn_insert_ne.
  - intros Hv Ht. rewrite locked_loaded in Ht by done. rewrite decide_True by done. by exists s'.
Qed.

(** C25: [iupdate] and [ilock] are inverse: an inode that was stored in its block
    and is loaded again, in any entry of the table, has the same fields, for
    all values that fit the fields' types, negative ones included. *)
Theorem iupdate_ilock {c me dev : Z} {DEV : BlockDev} {DOK : BlockDevOk c me} S0 n sb0 D V L o s ip ip' :
  0 <= dev < 2 ^ 31 -> 0 <= S0 /\ S0 + LOGSIZE < 2 ^ 31 -> (Z.to_nat NBUF < n)%nat -> (dfuel < n)%nat ->
  linv (c := c) (me := me) (dev := dev) S0 D V L [] o s -> sb s = sb0 -> 1 <= o -> Z.of_nat (length L) < LOGSIZE - 2 ->
  let x := inodes s ip in let y := inodes s ip' in
  i_dev x = dev -> isdata S0 (iblock sb0 (i_inum x)) -> inode_typed x -> i_type x <> 0 ->
  i_dev y = dev -> i_inum y = i_inum x -> i_valid y = 0 -> 1 <= i_ref y -> sl_locked (i_lock y) = 0 ->
  exists s', (iupdate ip;; ilock (Some ip')) n s = Ret tt s' /\ same_dinode (inodes s' ip') x /\ i_valid (inodes s' ip') = 1.
Proof.
  intros Hdev HS0 Hn Hdn Hl Hsb Ho Hlog x y Hid Hd Hty Ht0 Hyd Hyi Hyv Hyr Hyl.
  assert (wp (iupdate ip;; ilock (Some ip')) n s (fun _ s' => same_dinode (inodes s' ip') x /\ i_valid (inodes s' ip') = 1))
    as (s' & E & HQ)%wp_elim_unit; [|by exists s'].
  apply wp_bind. eapply (wp_iupdate S0 Hdev HS0 n Hn Hdn sb0); [exact Hl|done|done|done|done|lia|]. intros s1 F1 L1. fold x in L1.
  pose proof (lframe_inodes _ _ F1) as Ei. assert (inodes s1 ip' = y) as Ey by by rewrite Ei.
  set (V' := disk_put sb0 V x) in *.
  assert (on_disk (V' (iblock sb0 (i_inum x))) (dinode_off (i_inum x)) x) as Hod.
  { subst V'. unfold disk_put. rewrite fn_lookup_insert. by apply dinode_put_on_disk. }
  assert (forall pid, same_dinode (locked_inode sb0 V' pid y) x /\ i_valid (locked_inode sb0 V' pid y) = 1) as Hload.
  { intros pid. rewrite locked_loaded, Hyi by done. split; [|done].
    apply same_dinode_valid. by apply on_disk_get. }
  pose proof (addL_length L (iblock sb0 (i_inum x))).
  eapply (wp_ilock S0 n Hn Hdn sb0); rewrite ?Ey; [exact L1|by rewrite (lframe_sb _ _ F1)|done|by rewrite Hyi|lia|done|done|..].
  - rewrite (sd_type _ _ (proj1 (Hload _))). done.
  - intros s2 F2 _. rewrite (lframe_inodes _ _ F2), put_inode_at. apply Hload.
Qed.
