(* ===== verification/FsFile.v ===== *)
(** * The blocks of a file

    [bmap] of [src/kernel/fs.c]: the map from the blocks of a file to the blocks
    of the disk, direct and through the indirect block, and how it grows. *)

From Stdlib Require Import FunctionalExtensionality.
From S2P Require Import Prelude Riscv Spinlock Str Kalloc Kernel Proc Sleeplock Bio Log Fs KernelWp Ring BioProof LogProof LogOps FsBlocks FsInode.

Lemma MAXFILE_eq : MAXFILE = 268.
Proof. done. Qed.

(** The disk block of block [bn] of the file, 0 if there is none. *)
Definition iaddr (V : Z -> bytes) (x : inode) (bn : Z) : Z :=
  if bn <? NDIRECT then i_addrs x bn
  else if i_addrs x NDIRECT =? 0 then 0
  else ld 4 (V (i_addrs x NDIRECT)) (4 * (bn - NDIRECT)).

(** Byte [i] of the file. *)
Definition fbyte (V : Z -> bytes) (x : inode) (i : Z) : Z := V (iaddr V x (i / BSIZE)) (i mod BSIZE).

Lemma zeroed_in d i : 0 <= i < BSIZE -> zeroed d i = 0.
Proof. intros Hi. unfold zeroed. rewrite memset_spec by done. by rewrite decide_True by lia. Qed.

Lemma zeroed_ld d k a : 0 <= a -> a + Z.of_nat k <= BSIZE -> ld k (zeroed d) a = 0.
Proof. intros Ha Hk. apply ld_zero. intros x Hx. apply zeroed_in. lia. Qed.

Section disk.
Context (S0 : Z) (sb0 : superblock) (start : Z).

Abbreviation isdata := (isdata S0).
Abbreviation in_use := (in_use sb0).
Abbreviation bit_block := (bit_block sb0).
Abbreviation taken := (taken sb0).

(** ** The data area *)

(** The blocks of files are those from [start] on. *)
Definition area (b : Z) : Prop := start <= b < sb_size sb0.

Record layout_ok : Prop := {
  ly_bitmap : bitmap_ok S0 sb0;
  ly_start : 0 < start;
  ly_data : forall b, area b -> isdata b;
  ly_bits : forall b b', area b -> 0 <= b' < sb_size sb0 -> b <> bit_block b'
}.

(** The blocks before the data area are marked as used. *)
Definition reserved (V : Z -> bytes) : Prop := forall b, 0 <= b < start -> b < sb_size sb0 -> in_use V b = true.

Definition used (V : Z -> bytes) (b : Z) : Prop := area b /\ in_use V b = true.

(** The number of free blocks. *)
Definition nfree (V : Z -> bytes) : Z := Z.of_nat (length (filter (fun b => in_use V b = false) (seqZ 0 (sb_size sb0)))).

Context (Hly : layout_ok).

Lemma area_range b : area b -> 0 < b < sb_size sb0.
Proof. intros Hb. pose proof (ly_start Hly). unfold area in *. lia. Qed.

Lemma used_range V b : used V b -> 0 < b < sb_size sb0.
Proof. intros [Hb _]. by apply area_range. Qed.

Lemma has_first V : 0 < nfree V -> exists a, first_free sb0 V a.
Proof.
  intros Hf. unfold nfree in Hf.
  destruct (list_find (fun b => in_use V b = false) (seqZ 0 (sb_size sb0))) as [[i a]|] eqn:E.
  - apply list_find_Some in E as (Hi & Ha & Hlt). apply lookup_seqZ in Hi as [-> Hi]. exists (0 + Z.of_nat i).
    split; [lia|]. split; [done|]. intros b Hb. destruct (in_use V b) eqn:Eb; [done|]. exfalso.
    apply (Hlt (Z.to_nat b) b); [|lia|done]. apply lookup_seqZ. lia.
  - apply list_find_None in E.
    assert (filter (fun b => in_use V b = false) (seqZ 0 (sb_size sb0)) = []) as E0; [|by rewrite E0 in Hf].
    apply elem_of_nil_inv. intros b (Hb & Hin)%list_elem_of_filter. by apply (proj1 (Forall_forall _ _) E b Hin).
Qed.

Lemma first_area V a : reserved V -> first_free sb0 V a -> area a.
Proof.
  intros Hr ((H0 & Hs) & Hu & _). split; [|done]. destruct (decide (start <= a)); [done|].
  rewrite Hr in Hu by lia. done.
Qed.

(** ** Taking a block *)

Section taken.
Context (V : Z -> bytes) (a : Z) (Ha : area a) (Hfree : in_use V a = false).

Lemma bit_ne b : 0 <= b < sb_size sb0 -> a <> bit_block b.
Proof. intros Hb. by apply (ly_bits Hly). Qed.

Lemma taken_self : taken V a a = zeroed (V a).
Proof.
  pose proof (area_range _ Ha). unfold FsBlocks.taken. rewrite fn_lookup_insert, fn_insert_ne; [done|].
  apply not_eq_sym, bit_ne. lia.
Qed.

Lemma taken_other b : b <> a -> b <> bit_block a -> taken V a b = V b.
Proof. intros H1 H2. unfold FsBlocks.taken. by rewrite !fn_insert_ne by congruence. Qed.

Lemma taken_area b : area b -> b <> a -> taken V a b = V b.
Proof. intros Hb Hne. apply taken_other; [done|]. apply (ly_bits Hly); [done|]. pose proof (area_range _ Ha). lia. Qed.

Lemma taken_in_use b : 0 <= b < sb_size sb0 -> in_use (taken V a) b = (bool_decide (a = b) || in_use V b)%bool.
Proof.
  intros Hb. pose proof (area_range _ Ha). rewrite <-(in_use_set S0 sb0 V a b (ly_bitmap Hly)) by lia.
  unfold FsBlocks.in_use, FsBlocks.taken. rewrite (fn_insert_ne _ a (bit_block b)); [done|]. by apply bit_ne.
Qed.

Lemma taken_used b : used V b -> used (taken V a) b.
Proof.
  intros Hb. pose proof (used_range _ _ Hb). destruct Hb as [Hb Hu]. split; [done|].
  rewrite taken_in_use, Hu by lia. apply orb_true_r.
Qed.

Lemma used_ne b : used V b -> b <> a.
Proof. intros [_ Hu] ->. congruence. Qed.

Lemma taken_used_self : used (taken V a) a.
Proof. split; [done|]. pose proof (area_range _ Ha). rewrite taken_in_use, bool_decide_eq_true_2 by (done || lia). done. Qed.

Lemma nfree_taken : nfree (taken V a) = nfree V - 1.
Proof.
  unfold nfree. set (l := seqZ 0 (sb_size sb0)). pose proof (area_range _ Ha).
  assert (filter (fun b => in_use V b = false) l ≡ₚ a :: filter (fun b => in_use (taken V a) b = false) l) as Hp.
  { apply NoDup_Permutation.
    - apply NoDup_filter, NoDup_seqZ.
    - apply NoDup_cons. split; [|apply NoDup_filter, NoDup_seqZ]. intros (Hu & _)%list_elem_of_filter.
      rewrite (proj2 taken_used_self) in Hu. done.
    - intros b. rewrite elem_of_cons, !list_elem_of_filter. subst l. rewrite elem_of_seqZ. split.
      + intros [Hu Hb]. destruct (decide (b = a)) as [|Hne]; [by left|right]. split; [|done].
        rewrite taken_in_use, Hu, bool_decide_eq_false_2 by (done || lia). done.
      + intros [->|[Hu Hb]]; [split; [done|lia]|]. split; [|done]. rewrite taken_in_use in Hu by lia.
        by apply orb_false_iff in Hu as [_ ?]. }
  rewrite Hp. cbn [length]. lia.
Qed.

End taken.

(** ** Well-formed files *)

(** The block map leads to different blocks of the data area, all marked as
    used, and none of them is the indirect block. *)
Record file_ok (V : Z -> bytes) (x : inode) : Prop := {
  fk_ind : i_addrs x NDIRECT = 0 \/ used V (i_addrs x NDIRECT);
  fk_addr : forall bn, 0 <= bn < MAXFILE -> iaddr V x bn = 0 \/ used V (iaddr V x bn);
  fk_inj : forall bn bn', 0 <= bn < MAXFILE -> 0 <= bn' < MAXFILE ->
    iaddr V x bn <> 0 -> iaddr V x bn = iaddr V x bn' -> bn = bn';
  fk_ne : forall bn, 0 <= bn < MAXFILE -> iaddr V x bn <> 0 -> iaddr V x bn <> i_addrs x NDIRECT
}.

(** The map of a file only depends on its indirect block. *)
Lemma iaddr_ext V V' x bn : (i_addrs x NDIRECT <> 0 -> V' (i_addrs x NDIRECT) = V (i_addrs x NDIRECT)) -> iaddr V' x bn = iaddr V x bn.
Proof.
  intros He. unfold iaddr. destruct (bn <? NDIRECT); [done|]. destruct (Z.eqb_spec (i_addrs x NDIRECT) 0); [done|].
  by rewrite He.
Qed.

(** What happens to the disk and to the file [x] when the file grows: no used
    block changes but the indirect block of the file. *)
Record evolves (V : Z -> bytes) (x : inode) (V' : Z -> bytes) (x' : inode) : Prop := {
  ev_same : x' = set_i_addrs (i_addrs x') x;
  ev_ok : file_ok V' x';
  ev_ind : i_addrs x' NDIRECT = i_addrs x NDIRECT \/
    (i_addrs x NDIRECT = 0 /\ i_addrs x' NDIRECT <> 0 /\ in_use V (i_addrs x' NDIRECT) = false);
  ev_keep : forall b, used V b -> b <> i_addrs x NDIRECT -> V' b = V b;
  ev_use : forall b, 0 <= b < sb_size sb0 -> in_use V b = true -> in_use V' b = true;
  ev_meta : forall b, ~ area b -> (forall b', 0 <= b' < sb_size sb0 -> b <> bit_block b') -> V' b = V b
}.

Lemma evolves_refl V x : file_ok V x -> evolves V x V x.
Proof. intros Hx. split; try done; [by destruct x|by left]. Qed.

Lemma evolves_trans V1 x1 V2 x2 V3 x3 : evolves V1 x1 V2 x2 -> evolves V2 x2 V3 x3 -> evolves V1 x1 V3 x3.
Proof.
  intros E1 E2. pose proof (ev_use _ _ _ _ E1) as U1. split.
  - rewrite (ev_same _ _ _ _ E2), (ev_same _ _ _ _ E1). by destruct x1.
  - apply E2.
  - destruct (ev_ind _ _ _ _ E2) as [->|(Z2 & N2 & F2)]; [apply (ev_ind _ _ _ _ E1)|].
    destruct (ev_ind _ _ _ _ E1) as [Ei|(_ & N1 & _)]; [|done].
    right. split; [congruence|]. split; [done|]. destruct (in_use V1 (i_addrs x3 NDIRECT)) eqn:Eu; [|done].
    destruct (decide (0 <= i_addrs x3 NDIRECT < sb_size sb0)) as [Hr|Hr]; [by rewrite U1 in F2|].
    destruct (fk_ind _ _ (ev_ok _ _ _ _ E2)) as [?|Hu]; [done|]. apply used_range in Hu. lia.
  - intros b Hb Hne. rewrite <-(ev_keep _ _ _ _ E1 b Hb Hne). pose proof (used_range _ _ Hb).
    assert (used V2 b) as Hb2 by (destruct Hb; split; [done|]; apply U1; [lia|done]).
    apply (ev_keep _ _ _ _ E2); [done|]. destruct (ev_ind _ _ _ _ E1) as [->|(_ & _ & F1)]; [done|].
    intros ->. destruct Hb as [_ Hu]. congruence.
  - intros b Hb Hu. apply (ev_use _ _ _ _ E2), U1; done.
  - intros b Hb Hbb. rewrite <-(ev_meta _ _ _ _ E1 b Hb Hbb). by apply (ev_meta _ _ _ _ E2).
Qed.

Lemma evolves_reserved V x V' x' : evolves V x V' x' -> reserved V -> reserved V'.
Proof. intros E Hr b Hb Hs. apply (ev_use _ _ _ _ E); [lia|]. by apply Hr. Qed.

End disk.

(** ** Adding a block to the map *)

Section grow.
Context (S0 : Z) (sb0 : superblock) (start : Z) (Hly : layout_ok S0 sb0 start).

Abbreviation in_use := (in_use sb0).
Abbreviation taken := (taken sb0).
Abbreviation area := (area sb0 start).
Abbreviation used := (used sb0 start).
Abbreviation file_ok := (file_ok sb0 start).
Abbreviation evolves := (evolves sb0 start).

Lemma iaddr_taken V x a bn : file_ok V x -> area a -> in_use V a = false -> iaddr (taken V a) x bn = iaddr V x bn.
Proof.
  intros Hx Ha Hf. apply iaddr_ext. intros Hne. destruct (fk_ind _ _ _ _ Hx) as [?|Hu]; [done|].
  eapply taken_area; [done|done|apply Hu|]. intros E. destruct Hu as [_ Hu]. congruence.
Qed.

(** A free block becomes block [bn] of the file. *)
Lemma file_ok_add V x V' x' bn a :
  file_ok V x -> (forall b, used V b -> used V' b) -> used V' a -> in_use V a = false ->
  i_addrs x' NDIRECT = i_addrs x NDIRECT -> iaddr V' x' bn = a ->
  (forall bn', 0 <= bn' < MAXFILE -> bn' <> bn -> iaddr V' x' bn' = iaddr V x bn') -> file_ok V' x'.
Proof.
  intros Hx Hm Ha Hf Hi Hbn Hoth. pose proof (used_range S0 sb0 start Hly _ _ Ha) as Hpos.
  assert (forall bn', 0 <= bn' < MAXFILE -> iaddr V x bn' <> a) as Hfresh.
  { intros bn' Hr E. destruct (fk_addr _ _ _ _ Hx bn' Hr) as [E0|[_ Hu]]; [lia|]. rewrite E in Hu. congruence. }
  split.
  - rewrite Hi. destruct (fk_ind _ _ _ _ Hx); [by left|right]. by apply Hm.
  - intros bn' Hr. destruct (decide (bn' = bn)) as [->|Hne]; [right; by rewrite Hbn|].
    rewrite Hoth by done. destruct (fk_addr _ _ _ _ Hx bn' Hr); [by left|right]. by apply Hm.
  - intros b1 b2 H1 H2. destruct (decide (b1 = bn)) as [->|N1], (decide (b2 = bn)) as [->|N2]; [done|..].
    + rewrite Hbn, (Hoth b2) by done. intros _ E. by destruct (Hfresh b2 H2).
    + rewrite Hbn, (Hoth b1) by done. intros _ E. by destruct (Hfresh b1 H1).
    + rewrite !Hoth by done. by apply (fk_inj _ _ _ _ Hx).
  - intros bn' Hr. rewrite Hi. destruct (decide (bn' = bn)) as [->|Hne].
    + rewrite Hbn. intros _ E. destruct (fk_ind _ _ _ _ Hx) as [E0|[_ Hu]]; [lia|]. rewrite <-E in Hu. congruence.
    + rewrite Hoth by done. by apply (fk_ne _ _ _ _ Hx).
Qed.

(** The block map with direct entry [i], or the indirect block, set. *)
Definition set_addr (x : inode) (i a : Z) : inode := set_i_addrs (<[i := a]> (i_addrs x)) x.

Lemma evolves_taken V a x' x :
  area a -> in_use V a = false -> x' = set_i_addrs (i_addrs x') x ->
  i_addrs x' NDIRECT = i_addrs x NDIRECT \/ (i_addrs x NDIRECT = 0 /\ i_addrs x' NDIRECT = a) ->
  file_ok (taken V a) x' -> evolves V x (taken V a) x'.
Proof.
  intros Ha Hf Hs Hi Hok. pose proof (area_range S0 sb0 start Hly _ Ha). split; [done|done| | | |].
  - destruct Hi as [?|[? ->]]; [by left|right]. split; [done|]. split; [lia|done].
  - intros b Hb _. eapply taken_area; [done|done|apply Hb|]. by eapply used_ne.
  - intros b Hb Hu. rewrite (taken_in_use S0 sb0 start Hly V a Ha) by done. rewrite Hu. apply orb_true_r.
  - intros b Hb Hbb. apply taken_other; [intros ->; done|]. apply Hbb. lia.
Qed.

Lemma evolves_direct V x bn a :
  file_ok V x -> 0 <= bn < NDIRECT -> iaddr V x bn = 0 -> area a -> in_use V a = false ->
  evolves V x (taken V a) (set_addr x bn a) /\ iaddr (taken V a) (set_addr x bn a) bn = a /\
  forall bn', bn' <> bn -> iaddr (taken V a) (set_addr x bn a) bn' = iaddr V x bn'.
Proof.
  intros Hx Hbn H0 Ha Hf.
  assert (i_addrs (set_addr x bn a) NDIRECT = i_addrs x NDIRECT) as Ei by (cbn; apply fn_insert_ne; lia).
  assert (iaddr (taken V a) (set_addr x bn a) bn = a) as Ebn.
  { unfold iaddr. rewrite (proj2 (Z.ltb_lt _ _)) by lia. cbn. apply fn_lookup_insert. }
  assert (forall bn', bn' <> bn -> iaddr (taken V a) (set_addr x bn a) bn' = iaddr V x bn') as Eo.
  { intros bn' Hne. rewrite <-(iaddr_taken V x a bn' Hx Ha Hf). unfold iaddr. rewrite Ei.
    destruct (bn' <? NDIRECT); [|done]. cbn. apply fn_insert_ne. congruence. }
  split; [|done]. apply evolves_taken; [done|done|done|by left|].
  apply (file_ok_add V x _ _ bn a); try done.
  - intros b. by apply taken_used with S0.
  - by apply taken_used_self with S0.
  - intros. by apply Eo.
Qed.

(** A new indirect block changes no entry. *)
Lemma evolves_ind V x a :
  file_ok V x -> i_addrs x NDIRECT = 0 -> area a -> in_use V a = false ->
  evolves V x (taken V a) (set_addr x NDIRECT a) /\
  forall bn, 0 <= bn < MAXFILE -> iaddr (taken V a) (set_addr x NDIRECT a) bn = iaddr V x bn.
Proof.
  intros Hx H0 Ha Hf. pose proof (area_range S0 sb0 start Hly _ Ha) as Hr.
  assert (i_addrs (set_addr x NDIRECT a) NDIRECT = a) as Ei by (cbn; apply fn_lookup_insert).
  assert (forall bn, 0 <= bn < MAXFILE -> iaddr (taken V a) (set_addr x NDIRECT a) bn = iaddr V x bn) as Eo.
  { intros bn Hbn. unfold iaddr. rewrite Ei, H0. cbn [Z.eqb]. destruct (Z.ltb_spec bn NDIRECT).
    - cbn. apply fn_insert_ne. lia.
    - rewrite (proj2 (Z.eqb_neq a 0)) by lia. rewrite (taken_self S0 sb0 start Hly V a Ha).
      apply zeroed_ld; rewrite ?MAXFILE_eq in Hbn; unfold NDIRECT, BSIZE in *; lia. }
  split; [|done]. apply evolves_taken; [done|done|done|by right|]. split.
  - right. rewrite Ei. by apply taken_used_self with S0.
  - intros bn Hbn. rewrite Eo by done. destruct (fk_addr _ _ _ _ Hx bn Hbn); [by left|right]. by apply taken_used with S0.
  - intros b1 b2 H1 H2. rewrite !Eo by done. by apply (fk_inj _ _ _ _ Hx).
  - intros bn Hbn. rewrite Eo, Ei by done. intros Hne. destruct (fk_addr _ _ _ _ Hx bn Hbn) as [?|Hu]; [done|].
    by eapply used_ne.
Qed.

(** The disk after an entry of the indirect block [ind] was set. *)
Definition set_entry (V : Z -> bytes) (ind j a : Z) : Z -> bytes := <[ind := st 4 (V ind) (4 * j) a]> V.

Lemma evolves_entry V x bn a :
  file_ok V x -> NDIRECT <= bn < MAXFILE -> i_addrs x NDIRECT <> 0 -> iaddr V x bn = 0 -> area a -> in_use V a = false ->
  let V' := set_entry (taken V a) (i_addrs x NDIRECT) (bn - NDIRECT) a in
  evolves V x V' x /\ iaddr V' x bn = a /\ forall bn', 0 <= bn' < MAXFILE -> bn' <> bn -> iaddr V' x bn' = iaddr V x bn'.
Proof.
  intros Hx Hbn Hi H0 Ha Hf V'. pose proof (area_range S0 sb0 start Hly _ Ha) as Hr.
  pose proof (ly_bitmap _ _ _ Hly) as Hbm. pose proof (bm_size _ _ Hbm) as Hsz.
  destruct (fk_ind _ _ _ _ Hx) as [?|Hu]; [done|]. set (ind := i_addrs x NDIRECT) in *.
  assert (ind <> a) as Hne by by apply (used_ne sb0 start V a Hf).
  pose proof (used_range S0 sb0 start Hly _ _ Hu) as Hir.
  assert (V' ind = st 4 (V ind) (4 * (bn - NDIRECT)) a) as Ev.
  { subst V'. unfold set_entry. rewrite fn_lookup_insert. f_equal. apply (taken_area S0 sb0 start Hly V a Ha); [apply Hu|done]. }
  assert (iaddr V' x bn = a) as Ebn.
  { unfold iaddr. fold ind. rewrite (proj2 (Z.ltb_ge _ _)), (proj2 (Z.eqb_neq _ _)), Ev, ld_st by (done || lia).
    apply Z.mod_small. change (256 ^ Z.of_nat 4) with (2 ^ 32). lia. }
  assert (forall bn', 0 <= bn' < MAXFILE -> bn' <> bn -> iaddr V' x bn' = iaddr V x bn') as Eo.
  { intros bn' Hb' Hbne. unfold iaddr. fold ind. destruct (Z.ltb_spec bn' NDIRECT); [done|]. destruct (ind =? 0); [done|].
    rewrite Ev. apply ld_st_sep. lia. }
  assert (forall b, b <> ind -> V' b = taken V a b) as Hout by (intros; by apply fn_insert_ne).
  assert (forall b, 0 <= b < sb_size sb0 -> in_use V' b = in_use (taken V a) b) as Huse.
  { intros b Hb. unfold FsBlocks.in_use. rewrite Hout; [done|]. apply not_eq_sym, (ly_bits _ _ _ Hly); [apply Hu|done]. }
  assert (forall b, used (taken V a) b -> used V' b) as Hmono.
  { intros b Hb. pose proof (used_range S0 sb0 start Hly _ _ Hb). destruct Hb as [Hb Hbu]. split; [done|]. by rewrite Huse by lia. }
  split; [|done]. split; [by destruct x| |by left| | |].
  - apply (file_ok_add V x _ _ bn a); try done; [|apply Hmono; by apply taken_used_self with S0].
    intros b Hb. apply Hmono. by apply taken_used with S0.
  - intros b Hb Hbn'. rewrite Hout by done. apply (taken_area S0 sb0 start Hly V a Ha); [apply Hb|]. by apply (used_ne sb0 start V a Hf).
  - intros b Hb Hbu. rewrite Huse, (taken_in_use S0 sb0 start Hly V a Ha), Hbu by done. apply orb_true_r.
  - intros b Hb Hbb. rewrite Hout by (intros ->; by apply Hb, Hu). apply taken_other; [intros ->; done|]. apply Hbb. lia.
Qed.

End grow.

(** ** bmap *)

Lemma filter_ext_in {A} (P P' : A -> Prop) `{forall x, Decision (P x), forall x, Decision (P' x)} (l : list A) :
  (forall x, x ∈ l -> P x <-> P' x) -> filter P l = filter P' l.
Proof.
  intros Heq. induction l as [|x l IH]; [done|]. rewrite !filter_cons.
  assert (P x <-> P' x) as Hx by (apply Heq, list_elem_of_here).
  rewrite IH by (intros y Hy; by apply Heq, list_elem_of_further).
  destruct (decide (P x)), (decide (P' x)); tauto || done.
Qed.

(** Blocks the transaction may still grow by on account of the file's indirect
    block, besides those it has. *)
Definition pot (L : list Z) (x : inode) : Z :=
  Z.of_nat (length L) + if decide (i_addrs x NDIRECT <> 0 /\ i_addrs x NDIRECT ∈ L) then 0 else 2.

Lemma pot_length L x : Z.of_nat (length L) <= pot L x.
Proof. unfold pot. destruct (decide _); lia. Qed.

Lemma addL_sub L blk x : x ∈ L -> x ∈ addL L blk.
Proof. rewrite addL_elem. by left. Qed.

Lemma addL_in L blk : blk ∈ L -> addL L blk = L.
Proof. intros. unfold addL. by rewrite decide_True. Qed.

(** The transaction after a block was allocated. *)
Lemma pot_take L x x' b a :
  i_addrs x' NDIRECT = i_addrs x NDIRECT -> pot (addL (addL L b) a) x' <= pot L x + 2.
Proof.
  intros E. unfold pot. rewrite E. pose proof (addL_length (addL L b) a). pose proof (addL_length L b).
  destruct (decide (i_addrs x NDIRECT <> 0 /\ i_addrs x NDIRECT ∈ L)) as [[? ?]|].
  - rewrite decide_True by (split; [done|]; by do 2 apply addL_sub). lia.
  - destruct (decide _); lia.
Qed.

Lemma pot_add L x b : pot (addL L b) x <= pot L x + 1.
Proof.
  unfold pot. pose proof (addL_length L b).
  destruct (decide (i_addrs x NDIRECT <> 0 /\ i_addrs x NDIRECT ∈ L)) as [[? ?]|].
  - rewrite decide_True by (split; [done|]; by apply addL_sub). lia.
  - destruct (decide _); lia.
Qed.

Section files.
Context {c me dev : Z} {DEV : BlockDev} {DOK : BlockDevOk c me}.
Context (S0 : Z).
Context (Hdev : 0 <= dev < 2 ^ 31) (HS0 : 0 <= S0 /\ S0 + LOGSIZE < 2 ^ 31).
Context (n : nat) (Hn : (Z.to_nat NBUF < n)%nat) (Hdn : (dfuel < n)%nat).
Context (sb0 : superblock) (start : Z) (Hly : layout_ok S0 sb0 start) (Hfuel : sb_size sb0 < Z.of_nat n).

Abbreviation linv := (linv (c := c) (me := me) (dev := dev) S0).
Abbreviation isdata := (isdata S0).
Abbreviation in_use := (in_use sb0).
Abbreviation bit_block := (bit_block sb0).
Abbreviation taken := (taken sb0).
Abbreviation area := (area sb0 start).
Abbreviation used := (used sb0 start).
Abbreviation reserved := (reserved sb0 start).
Abbreviation nfree := (nfree sb0).
Abbreviation file_ok := (file_ok sb0 start).
Abbreviation evolves := (evolves sb0 start).

Lemma wp_alloc D V L H o s (Q : Z -> kernel -> Prop) :
  linv D V L H o s -> sb s = sb0 -> 1 <= o -> reserved V -> 0 < nfree V ->
  (forall blk, holds s H blk -> used V blk) ->
  Z.of_nat (length L + length H) < NBUF - 1 -> Z.of_nat (length L) < LOGSIZE - 2 ->
  (forall a s', area a -> first_free sb0 V a -> lframe s s' -> keeps H s s' ->
     linv D (taken V a) (addL (addL L (bit_block a)) a) H o s' -> Q a s') ->
  wp (balloc dev) n s Q.
Proof.
  intros Hl Hsb Ho Hr Hf Hheld Hlen Hlog HQ. destruct (has_first sb0 V Hf) as [a Ha].
  pose proof (first_area sb0 start V a Hr Ha) as Har. pose proof Ha as (Hrange & Hu & _).
  assert (isdata a) as Had by by apply (ly_data _ _ _ Hly).
  assert (~ holds s H a) as Hha by (intros [_ Hh]%Hheld; congruence).
  assert (forall b, 0 <= b < sb_size sb0 -> ~ holds s H (bit_block b)) as Hhb.
  { intros b Hb [Hh _]%Hheld. by apply (ly_bits _ _ _ Hly _ b Hh Hb). }
  eapply (wp_balloc S0 Hdev HS0 n Hn Hdn sb0 D V L H o s a); [apply Hly|done|done|done|done|done|done|done|done|lia|done|].
  intros s' (F & K & Hl'). by apply (HQ a s').
Qed.

(** The result of [bmap]: [a] is block [bn] of the file, which may have grown. *)
Record bmapped (V : Z -> bytes) (x : inode) (L : list Z) (bn a : Z) (V' : Z -> bytes) (x' : inode) (L' : list Z) : Prop := {
  bp_ev : evolves V x V' x';
  bp_at : iaddr V' x' bn = a;
  bp_used : used V' a;
  bp_other : forall bn', 0 <= bn' < MAXFILE -> bn' <> bn -> iaddr V' x' bn' = iaddr V x bn';
  bp_old : iaddr V x bn <> 0 -> a = iaddr V x bn;
  bp_new : iaddr V x bn = 0 -> in_use V a = false /\ a ∈ L';
  bp_free : nfree V - (if decide (iaddr V x bn = 0) then 1 else 0) - (if decide (i_addrs x NDIRECT = 0) then 1 else 0) <=
    nfree V' - (if decide (i_addrs x' NDIRECT = 0) then 1 else 0);
  bp_pot : pot L' x' <= pot L x + if decide (iaddr V x bn = 0) then 2 else 0
}.

Lemma nfree_entry V ind j a : area ind -> nfree (set_entry V ind j a) = nfree V.
Proof.
  intros Hi. unfold FsFile.nfree. f_equal. f_equal. apply filter_ext_in. intros b Hb%elem_of_seqZ.
  unfold FsBlocks.in_use, set_entry. rewrite fn_insert_ne; [done|]. apply (ly_bits _ _ _ Hly); [done|lia].
Qed.

Lemma no_holds s blk : ~ holds s [] blk.
Proof. intros (b & Hb & _). by apply not_elem_of_nil in Hb. Qed.

Lemma linv_held_data D V L H o s b :
  linv D V L H o s -> b ∈ H -> b_data (bufs s b) = V (b_blockno (bufs s b)).
Proof.
  intros Hl Hb. pose proof (ln_inv _ _ _ _ _ _ _ Hl) as Hi. destruct (bi_held _ _ _ _ Hi b Hb) as (Hc & Hv & _).
  by apply (bi_seen _ _ _ _ Hi).
Qed.

(** The part of [bmap] that works on an existing indirect block. *)
Lemma wp_bmap_indirect D V L o s x bn (Q : Z -> kernel -> Prop) :
  linv D V L [] o s -> sb s = sb0 -> 1 <= o -> reserved V -> file_ok V x ->
  NDIRECT <= bn < MAXFILE -> i_addrs x NDIRECT <> 0 -> pot L x + 2 <= LOGSIZE - 3 ->
  (iaddr V x bn = 0 -> 0 < nfree V) ->
  (forall a s' V' L', lframe s s' -> linv D V' L' [] o s' -> bmapped V x L bn a V' x L' -> Q a s') ->
  wp (bmap_indirect dev (i_addrs x NDIRECT) (bn - NDIRECT)) n s Q.
Proof.
  intros Hl Hsb Ho Hr Hx Hbn Hi Hpot Hfree HQ. unfold bmap_indirect. set (ind := i_addrs x NDIRECT) in *.
  destruct (fk_ind _ _ _ _ Hx) as [?|Hu]; [done|]. fold ind in Hu.
  assert (isdata ind) as Hd by apply (ly_data _ _ _ Hly), Hu. pose proof (pot_length L x) as Hpl.
  assert (LOGSIZE = 30 /\ NBUF = 30) as [EL EN] by done.
  apply wp_bind. eapply (wp_get S0 n Hn Hdn); [exact Hl|exact Hd|apply no_holds|cbn; lia|].
  intros bp s1 F1 L1 Hbp Hbk Hda _ Hcl. unfold bget_. apply wp_bind, wp_gets. rewrite Hda. cbv zeta.
  assert (iaddr V x bn = ld 4 (V ind) (4 * (bn - NDIRECT))) as Ea.
  { unfold iaddr. fold ind. by rewrite (proj2 (Z.ltb_ge _ _)), (proj2 (Z.eqb_neq _ _)) by (done || lia). }
  rewrite <-Ea. destruct (Z.eqb_spec (iaddr V x bn) 0) as [H0|H0]; cbn [negb].
  2: { apply wp_bind, wp_ret, wp_bind. eapply (wp_put S0 n Hn Hdn); [exact L1|by rewrite Hbk|].
       intros s2 F2 L2 _. apply wp_ret. apply (HQ _ _ V L); [by etrans|done|].
       split; try done; [by apply evolves_refl|by destruct (fk_addr _ _ _ _ Hx bn) as [?|?]; [unfold NDIRECT in *; lia|..]| |].
       - rewrite decide_False by done. lia.
       - rewrite decide_False by done. lia. }
  assert (forall blk, holds s1 [bp] blk -> used V blk) as Hheld.
  { intros blk (b & Hb & <-). apply list_elem_of_singleton in Hb as ->. by rewrite Hbk. }
  apply wp_bind, wp_bind. eapply (wp_alloc D V L [bp]); [exact L1|by rewrite (lframe_sb _ _ F1)|done|done|by apply Hfree|done|cbn; lia|lia|].
  intros a s2 Ha (_ & Hf & _) F2 K2 L2.
  assert (b_blockno (bufs s2 bp) = ind) as Hbk2 by (rewrite K2 by apply list_elem_of_here; done).
  set (L2' := addL (addL L (bit_block a)) a) in *. pose proof (linv_held_data _ _ _ _ _ _ _ L2 (list_elem_of_here _ _)) as Hda2.
  apply (linv_store S0 _ _ _ _ _ _ bp (fun d => st 4 d (4 * (bn - NDIRECT)) a)) in L2; [|apply list_elem_of_here|done].
  rewrite Hbk2 in L2. fold (set_entry (taken V a) ind (bn - NDIRECT) a) in L2. set (V' := set_entry _ _ _ _) in *.
  unfold bset. apply wp_bind, wp_modify. set (s3 := upd_buf bp _ s2) in *.
  assert (b_blockno (bufs s3 bp) = ind) as Hbk3 by (subst s3; cbn; by rewrite fn_lookup_insert).
  assert (length L2' <= length L + 2)%nat as HlL2.
  { subst L2'. pose proof (addL_length (addL L (bit_block a)) a). pose proof (addL_length L (bit_block a)). lia. }
  apply wp_bind. eapply (wp_log S0 Hdev HS0 n Hn Hdn); [exact L2|apply list_elem_of_here|by rewrite Hbk3|done|lia|].
  rewrite Hbk3. intros s4 F4 L4 Hs4. apply wp_ret, wp_bind.
  eapply (wp_put S0 n Hn Hdn); [exact L4|left; rewrite (proj1 (Hs4 bp)), Hbk3, addL_elem; by right|].
  intros s5 F5 L5 _. apply wp_ret.
  destruct (evolves_entry S0 sb0 start Hly V x bn a Hx Hbn Hi H0 Ha Hf) as (Hev & Eat & Eo). fold ind V' in Hev, Eat, Eo.
  apply (HQ _ _ V' (addL L2' ind)); [subst s3; lframes|exact L5|].
  assert (nfree V' = nfree V - 1) as Hnf.
  { subst V'. rewrite nfree_entry by apply Hu. by apply nfree_taken with S0 start. }
  assert (used V' a) as Hua.
  { split; [done|]. pose proof (area_range S0 sb0 start Hly a Ha). rewrite <-Eat.
    destruct (fk_addr _ _ _ _ (ev_ok _ _ _ _ _ _ Hev) bn) as [E|[_ E]]; [unfold NDIRECT in *; lia|lia|exact E]. }
  split; try done.
  - intros _. split; [done|]. apply addL_sub. subst L2'. rewrite addL_elem. by right.
  - rewrite (decide_True (P := iaddr V x bn = 0)) by done. lia.
  - rewrite (decide_True (P := iaddr V x bn = 0)) by done. unfold pot. fold ind.
    rewrite (decide_True (P := ind <> 0 /\ ind ∈ addL L2' ind)) by (split; [done|]; rewrite addL_elem; by right).
    destruct (decide (ind <> 0 /\ ind ∈ L)) as [[_ Hin]|_].
    + rewrite (addL_in L2' ind) by (subst L2'; by do 2 apply addL_sub). lia.
    + pose proof (addL_length L2' ind). lia.
Qed.

Lemma wp_bmap_direct D V L o s ip bn (Q : Z -> kernel -> Prop) :
  linv D V L [] o s -> sb s = sb0 -> 1 <= o -> reserved V -> i_dev (inodes s ip) = dev -> file_ok V (inodes s ip) ->
  0 <= bn < NDIRECT -> pot L (inodes s ip) + 2 <= LOGSIZE - 3 ->
  (iaddr V (inodes s ip) bn = 0 -> 0 < nfree V) ->
  (forall a s' V' x' L', lframe (put_inode ip x' s) s' -> linv D V' L' [] o s' ->
     bmapped V (inodes s ip) L bn a V' x' L' -> Q a s') ->
  wp (bmap ip bn) n s Q.
Proof.
  intros Hl Hsb Ho Hr Hid Hx Hbn Hpot Hfree HQ. set (x := inodes s ip) in *. pose proof (pot_length L x) as Hpl.
  assert (LOGSIZE = 30 /\ NBUF = 30 /\ NDIRECT = 12) as (EL & EN & ED) by done. pose proof MAXFILE_eq as EM.
  unfold bmap, iget_, iset. rewrite (proj2 (Z.ltb_lt _ _)) by lia. apply wp_bind, wp_gets. fold x.
  assert (iaddr V x bn = i_addrs x bn) as Ea by (unfold iaddr; by rewrite (proj2 (Z.ltb_lt _ _)) by lia).
  destruct (Z.eqb_spec (i_addrs x bn) 0) as [H0|H0]; cbn [negb].
  - rewrite <-Ea in H0. apply wp_bind, wp_gets. fold x. rewrite Hid. apply wp_bind.
    eapply (wp_alloc D V L []); [exact Hl|done|done|done|by apply Hfree| |cbn; lia|lia|].
    { intros blk Hb. by apply no_holds in Hb. }
    intros a s1 Ha (_ & Hf & _) F1 _ L1. apply wp_bind, wp_modify, wp_ret.
    rewrite upd_put_inode, (lframe_inodes _ _ F1). fold x.
    destruct (evolves_direct S0 sb0 start Hly V x bn a Hx Hbn H0 Ha Hf) as (Hev & Eat & Eo).
    assert (i_addrs (set_addr x bn a) NDIRECT = i_addrs x NDIRECT) as Ei by (cbn; apply fn_insert_ne; lia).
    apply (HQ a _ (taken V a) (set_addr x bn a) (addL (addL L (bit_block a)) a)); [by apply lframe_put_inode|by apply linv_inodes|].
    split; try done.
    + by apply taken_used_self with S0.
    + intros bn' _. apply Eo.
    + intros _. split; [done|]. rewrite addL_elem. by right.
    + rewrite (decide_True (P := iaddr V x bn = 0)), Ei by done. rewrite (nfree_taken S0 sb0 start Hly V a Ha Hf). lia.
    + rewrite (decide_True (P := iaddr V x bn = 0)) by done. by apply pot_take.
  - rewrite <-Ea in H0. apply wp_ret. rewrite <-Ea. apply (HQ _ _ V x L); [unfold x; by rewrite put_inode_id|done|].
    destruct (fk_addr _ _ _ _ Hx bn) as [?|Hu]; [lia|done|].
    split; try done; [by apply evolves_refl|rewrite decide_False by done; lia|rewrite decide_False by done; lia].
Qed.

Lemma wp_bmap D V L o s ip bn (Q : Z -> kernel -> Prop) :
  linv D V L [] o s -> sb s = sb0 -> 1 <= o -> reserved V -> i_dev (inodes s ip) = dev -> file_ok V (inodes s ip) ->
  0 <= bn < MAXFILE -> pot L (inodes s ip) + 2 <= LOGSIZE - 3 ->
  (iaddr V (inodes s ip) bn = 0 -> (if decide (i_addrs (inodes s ip) NDIRECT = 0) then 1 else 0) < nfree V) ->
  (forall a s' V' x' L', lframe (put_inode ip x' s) s' -> linv D V' L' [] o s' ->
     bmapped V (inodes s ip) L bn a V' x' L' -> Q a s') ->
  wp (bmap ip bn) n s Q.
Proof.
  intros Hl Hsb Ho Hr Hid Hx Hbn Hpot Hfree HQ.
  destruct (decide (bn < NDIRECT)) as [Hlt|Hge].
  { eapply wp_bmap_direct; try done; [lia|]. intros H0. specialize (Hfree H0). destruct (decide _); lia. }
  set (x := inodes s ip) in *. pose proof (pot_length L x) as Hpl.
  assert (LOGSIZE = 30 /\ NBUF = 30 /\ NDIRECT = 12 /\ NINDIRECT = 256) as (EL & EN & ED & EI) by done. pose proof MAXFILE_eq as EM.
  unfold bmap, iget_, iset. rewrite (proj2 (Z.ltb_ge _ _)), (proj2 (Z.ltb_lt _ _)) by lia. do 2 apply wp_bind, wp_gets. fold x.
  rewrite Hid. destruct (Z.eqb_spec (i_addrs x NDIRECT) 0) as [Hi|Hi]; cbn [negb].
  - assert (iaddr V x bn = 0) as H0.
    { unfold iaddr. by rewrite Hi, (proj2 (Z.ltb_ge _ _)) by lia. }
    specialize (Hfree H0). rewrite decide_True in Hfree by done.
    apply wp_bind, wp_bind. eapply (wp_alloc D V L []); [exact Hl|done|done|done|lia| |cbn; lia|lia|].
    { intros blk Hb. by apply no_holds in Hb. }
    intros a s1 Ha (_ & Hf & _) F1 _ L1. apply wp_bind, wp_modify, wp_ret. rewrite upd_put_inode, (lframe_inodes _ _ F1). fold x.
    fold (set_addr x NDIRECT a). set (x1 := set_addr x NDIRECT a) in *. set (V1 := taken V a) in *.
    set (L1' := addL (addL L (bit_block a)) a) in *.
    destruct (evolves_ind S0 sb0 start Hly V x a Hx Hi Ha Hf) as [Hev Eo]. fold x1 V1 in Hev, Eo.
    assert (i_addrs x1 NDIRECT = a) as Ei by (cbn; apply fn_lookup_insert).
    pose proof (area_range S0 sb0 start Hly a Ha) as Har.
    pose proof (addL_length (addL L (bit_block a)) a) as HL1. pose proof (addL_length L (bit_block a)) as HL2. fold L1' in HL1.
    assert (pot L1' x1 <= pot L x) as Hpot1.
    { unfold pot at 1. rewrite Ei, decide_True by (split; [lia|]; subst L1'; rewrite addL_elem; by right). unfold pot.
      rewrite decide_False by (intros [? _]; lia). lia. }
    rewrite <-Ei.
    eapply (wp_bmap_indirect D V1 L1' o (put_inode ip x1 s1) x1 bn).
    + by apply linv_inodes.
    + cbn. by rewrite (lframe_sb _ _ F1).
    + done.
    + by eapply evolves_reserved.
    + apply Hev.
    + lia.
    + lia.
    + lia.
    + intros _. subst V1. rewrite (nfree_taken S0 sb0 start Hly V a Ha Hf). lia.
    + intros b s2 V2 L2 F2 L2' Hb. apply (HQ b s2 V2 x1 L2); [|done|].
      { etrans; [|exact F2]. by apply lframe_put_inode. }
      destruct Hb. split; try done.
      * by eapply evolves_trans.
      * intros bn' Hb' Hne. rewrite bp_other0, Eo by done. done.
      * intros _. rewrite Eo in bp_new0 by done. destruct (bp_new0 H0) as [Hf2 Hin]. split; [|done].
        destruct (in_use V b) eqn:E; [|done]. destruct bp_used0 as [Hb0 _]. apply (area_range S0 sb0 start Hly) in Hb0.
        rewrite (ev_use _ _ _ _ _ _ Hev b) in Hf2 by (done || lia). done.
      * subst V1. rewrite Eo, Ei, !(decide_True (P := iaddr V x bn = 0)), (decide_True (P := i_addrs x NDIRECT = 0)) in * by done.
        rewrite decide_False in * by lia. rewrite (nfree_taken S0 sb0 start Hly V a Ha Hf) in bp_free0. lia.
      * rewrite Eo in bp_pot0 by done. lia.
  - apply wp_bind, wp_ret. eapply (wp_bmap_indirect D V L o s x bn); try done; [lia|..].
    + intros H0. specialize (Hfree H0). by rewrite decide_False in Hfree.
    + intros a s' V' L' F' L'' Hb. apply (HQ a s' V' x L'); [unfold x; by rewrite put_inode_id|done|done].
Qed.

End files.

(** What allocation does to the disk: [a] was free, it is in use and zero now,
    and nothing else changed. *)
Record allocates (sb0 : superblock) (start : Z) (V : Z -> bytes) (a : Z) (V' : Z -> bytes) : Prop := {
  al_area : area sb0 start a;
  al_first : first_free sb0 V a;
  al_zero : forall i, 0 <= i < BSIZE -> V' a i = 0;
  al_use : forall b, 0 <= b < sb_size sb0 -> in_use sb0 V' b = (bool_decide (a = b) || in_use sb0 V b)%bool;
  al_same : forall b, area sb0 start b -> b <> a -> V' b = V b;
  al_count : nfree sb0 V' = nfree sb0 V - 1
}.

(** [balloc] and [bfree] keep the bitmap: when a block is free, [balloc]
    returns the first free one, marked in use and filled with zeros, and
    changes no other block of files; [bfree] of it marks it free again, and the
    bitmap says of every block what it said before. *)
Theorem balloc_bfree {c me dev : Z} {LY : Layout} {DEV : BlockDev} {DOK : BlockDevOk c me} S0 n sb0 start D V L o s :
  0 <= dev < 2 ^ 31 -> 0 <= S0 /\ S0 + LOGSIZE < 2 ^ 31 -> (Z.to_nat NBUF < n)%nat -> (dfuel < n)%nat ->
  layout_ok S0 sb0 start -> sb_size sb0 < Z.of_nat n -> sb s = sb0 -> 1 <= o -> reserved sb0 start V -> 0 < nfree sb0 V ->
  linv (c := c) (me := me) (dev := dev) S0 D V L [] o s -> Z.of_nat (length L) < LOGSIZE - 3 ->
  exists a s1 V1 L1 s2 V2 L2,
    balloc dev n s = Ret a s1 /\ linv (c := c) (me := me) (dev := dev) S0 D V1 L1 [] o s1 /\ allocates sb0 start V a V1 /\
    bfree dev a n s1 = Ret tt s2 /\ linv (c := c) (me := me) (dev := dev) S0 D V2 L2 [] o s2 /\
    (forall b, 0 <= b < sb_size sb0 -> in_use sb0 V2 b = in_use sb0 V b) /\ (forall b, area sb0 start b -> V2 b = V1 b).
Proof.
  intros Hdev HS0 Hn Hdn Hly Hf Hsb Ho Hr Hfree Hl Hlog. assert (LOGSIZE = 30 /\ NBUF = 30) as [EL EN] by done.
  pose proof (ly_bitmap _ _ _ Hly) as Hbm.
  assert (wp (balloc dev) n s (fun a s1 => area sb0 start a /\ first_free sb0 V a /\ lframe s s1 /\
    linv (c := c) (me := me) (dev := dev) S0 D (taken sb0 V a) (addL (addL L (bit_block sb0 a)) a) [] o s1)) as (a & s1 & E1 & Ha & Hff & F1 & L1)%wp_elim.
  { eapply (wp_alloc S0 Hdev HS0 n Hn Hdn sb0 start Hly Hf D V L []); [exact Hl|done|done|done|done|intros blk Hb; exfalso; by eapply no_holds|cbn; lia|lia|].
    intros a s1 Ha Hff F1 _ L1. done. }
  pose proof (area_range S0 sb0 start Hly a Ha) as Har. set (L1' := addL _ _) in L1.
  assert (length L1' <= length L + 2)%nat as HL1.
  { subst L1'. pose proof (addL_length (addL L (bit_block sb0 a)) a). pose proof (addL_length L (bit_block sb0 a)). lia. }
  assert (in_use sb0 (taken sb0 V a) a = true) as Hu by (by apply (taken_used_self S0 sb0 start)).
  assert (wp (bfree dev a) n s1 (fun _ s2 => linv (c := c) (me := me) (dev := dev) S0 D (freed sb0 (taken sb0 V a) a) (addL L1' (bit_block sb0 a)) [] o s2))
    as (s2 & E2 & L2)%wp_elim_unit.
  { eapply (wp_bfree S0 Hdev HS0 n Hn Hdn sb0); [done|by rewrite (lframe_sb _ _ F1)|exact L1|lia|done|done|apply no_holds|cbn; lia|lia|].
    intros s2 _ _ L2. exact L2. }
  exists a, s1, (taken sb0 V a), L1', s2, (freed sb0 (taken sb0 V a) a), (addL L1' (bit_block sb0 a)). split_and!; try done.
  - split; try done.
    + intros i Hi. rewrite (taken_self S0 sb0 start) by done. by apply zeroed_in.
    + intros b Hb. by apply (taken_in_use S0 sb0 start).
    + intros b Hb Hne. by apply (taken_area S0 sb0 start).
    + apply (nfree_taken S0 sb0 start Hly V a Ha), Hff.
  - intros b Hb. unfold freed. rewrite (in_use_clear S0) by (done || lia). rewrite (taken_in_use S0 sb0 start) by done.
    destruct Hff as (_ & Hff & _). destruct (decide (a = b)) as [->|Hne].
    + rewrite bool_decide_eq_true_2 by done. by rewrite Hff.
    + by rewrite bool_decide_eq_false_2.
  - intros b Hb. unfold freed. apply fn_insert_ne. intros <-. apply (ly_bits _ _ _ Hly _ a Hb); [lia|done].
Qed.
