(* ===== verification/FsWrite.v ===== *)
(** * Writing files

    [writei] of [src/kernel/fs.c]: the bytes of a file after a write, and that
    nothing else changes. *)

From Stdlib Require Import FunctionalExtensionality.
From S2P Require Import Prelude Riscv Spinlock Str Kalloc Kernel Proc Sleeplock Bio Log Fs KernelWp Ring BioProof LogProof LogOps FsBlocks FsInode FsFile.

(** ** Growing and changing a file *)

Section content.
Context (S0 : Z) (sb0 : superblock) (start : Z) (Hly : layout_ok S0 sb0 start).

Abbreviation in_use := (in_use sb0).
Abbreviation bit_block := (bit_block sb0).
Abbreviation area := (area sb0 start).
Abbreviation used := (used sb0 start).
Abbreviation file_ok := (file_ok sb0 start).
Abbreviation evolves := (evolves sb0 start).

(** [b] is one of the blocks of the file. *)
Definition of_file (V : Z -> bytes) (x : inode) (b : Z) : Prop :=
  b = i_addrs x NDIRECT \/ exists bn, 0 <= bn < MAXFILE /\ iaddr V x bn = b.

(** What writing to the file [x] may do to the disk and to the block map: the
    used blocks of others stay as they are, and new blocks were free. *)
Record grown (V : Z -> bytes) (x : inode) (V' : Z -> bytes) (x' : inode) : Prop := {
  gr_same : x' = set_i_addrs (i_addrs x') x;
  gr_ok : file_ok V' x';
  gr_ind : i_addrs x' NDIRECT = i_addrs x NDIRECT \/
    (i_addrs x NDIRECT = 0 /\ i_addrs x' NDIRECT <> 0 /\ in_use V (i_addrs x' NDIRECT) = false);
  gr_use : forall b, 0 <= b < sb_size sb0 -> in_use V b = true -> in_use V' b = true;
  gr_meta : forall b, ~ area b -> (forall b', 0 <= b' < sb_size sb0 -> b <> bit_block b') -> V' b = V b;
  gr_other : forall b, used V b -> ~ of_file V x b -> V' b = V b;
  gr_map : forall bn, 0 <= bn < MAXFILE -> iaddr V x bn <> 0 -> iaddr V' x' bn = iaddr V x bn;
  gr_new : forall bn, 0 <= bn < MAXFILE -> iaddr V x bn = 0 -> iaddr V' x' bn <> 0 -> in_use V (iaddr V' x' bn) = false
}.

Lemma grown_refl V x : file_ok V x -> grown V x V x.
Proof. intros Hx. split; try done; [by destruct x|by left]. Qed.

(** A block of the file after more writing is one it had, or one that was free. *)
Lemma grown_of_file V x V' x' b : grown V x V' x' -> b <> 0 -> of_file V' x' b -> of_file V x b \/ in_use V b = false.
Proof.
  intros G Hb [->|(bn & Hbn & E)].
  - destruct (gr_ind _ _ _ _ G) as [->|(_ & _ & Hf)]; [left; by left|by right].
  - destruct (decide (iaddr V x bn = 0)) as [H0|H0].
    + right. rewrite <-E. apply (gr_new _ _ _ _ G); [done|done|congruence].
    + left. right. exists bn. rewrite <-E. by rewrite (gr_map _ _ _ _ G).
Qed.

Lemma grown_trans V1 x1 V2 x2 V3 x3 : grown V1 x1 V2 x2 -> grown V2 x2 V3 x3 -> grown V1 x1 V3 x3.
Proof.
  intros G1 G2. pose proof (gr_use _ _ _ _ G1) as U1.
  assert (forall b, area b -> in_use V2 b = false -> in_use V1 b = false) as U2.
  { intros b Hb Hf. destruct (in_use V1 b) eqn:E; [|done]. apply (area_range S0 sb0 start Hly) in Hb.
    rewrite U1 in Hf by (done || lia). done. }
  split.
  - rewrite (gr_same _ _ _ _ G2), (gr_same _ _ _ _ G1). by destruct x1.
  - apply G2.
  - destruct (gr_ind _ _ _ _ G2) as [->|(Z2 & N2 & F2)]; [apply G1|].
    destruct (gr_ind _ _ _ _ G1) as [Ei|(_ & N1 & _)]; [|done]. right. split; [congruence|]. split; [done|].
    apply U2; [|done]. destruct (fk_ind _ _ _ _ (gr_ok _ _ _ _ G2)) as [?|[? _]]; done.
  - intros b Hb Hu. apply (gr_use _ _ _ _ G2), U1; done.
  - intros b Hb Hbb. rewrite <-(gr_meta _ _ _ _ G1 b Hb Hbb). by apply (gr_meta _ _ _ _ G2).
  - intros b Hb Hne. pose proof (used_range S0 sb0 start Hly _ _ Hb). rewrite <-(gr_other _ _ _ _ G1 b Hb Hne).
    apply (gr_other _ _ _ _ G2).
    + destruct Hb. split; [done|]. apply U1; [lia|done].
    + intros Ho. apply (grown_of_file _ _ _ _ _ G1) in Ho as [?|Hf]; [done| |lia]. destruct Hb. congruence.
  - intros bn Hbn H0. rewrite <-(gr_map _ _ _ _ G1 bn Hbn H0). apply (gr_map _ _ _ _ G2); [done|].
    by rewrite (gr_map _ _ _ _ G1).
  - intros bn Hbn H0 H3. destruct (decide (iaddr V2 x2 bn = 0)) as [H2|H2].
    + apply U2; [|by apply (gr_new _ _ _ _ G2)]. destruct (fk_addr _ _ _ _ (gr_ok _ _ _ _ G2) bn Hbn) as [?|[? _]]; done.
    + rewrite (gr_map _ _ _ _ G2) by done. by apply (gr_new _ _ _ _ G1).
Qed.

Lemma bmapped_grown V x L bn a V' x' L' :
  file_ok V x -> 0 <= bn < MAXFILE -> bmapped sb0 start V x L bn a V' x' L' -> grown V x V' x'.
Proof.
  intros Hx Hbn [Hev Hat Hu Hoth Hold Hnew _ _]. destruct Hev. split; try done.
  - intros b Hb Hne. apply ev_keep; [done|]. intros ->. apply Hne. by left.
  - intros bn' Hb' H0. destruct (decide (bn' = bn)) as [->|Hne]; [|by apply Hoth]. rewrite Hat. by apply Hold.
  - intros bn' Hb' H0 H1. destruct (decide (bn' = bn)) as [->|Hne]; [|by rewrite Hoth in H1].
    rewrite Hat in *. by apply Hnew.
Qed.

(** Changing the contents of a data block of the file. *)
Lemma grown_data V x bn d :
  file_ok V x -> 0 <= bn < MAXFILE -> iaddr V x bn <> 0 -> grown V x (<[iaddr V x bn := d]> V) x.
Proof.
  intros Hx Hbn H0. set (a := iaddr V x bn) in *. destruct (fk_addr _ _ _ _ Hx bn Hbn) as [?|Hu]; [done|]. fold a in Hu.
  assert (forall b, b <> a -> <[a := d]> V b = V b) as Hout by (intros; by apply fn_insert_ne).
  assert (forall bn', iaddr (<[a := d]> V) x bn' = iaddr V x bn') as Ea.
  { intros bn'. apply iaddr_ext. intros _. apply Hout. apply not_eq_sym. by apply (fk_ne _ _ _ _ Hx). }
  assert (forall b, 0 <= b < sb_size sb0 -> in_use (<[a := d]> V) b = in_use V b) as Eu.
  { intros b Hb. unfold FsBlocks.in_use. rewrite Hout; [done|]. apply not_eq_sym, (ly_bits _ _ _ Hly); [apply Hu|done]. }
  assert (forall b, used V b -> used (<[a := d]> V) b) as Hm.
  { intros b Hb. pose proof (used_range S0 sb0 start Hly _ _ Hb). destruct Hb. split; [done|]. by rewrite Eu by lia. }
  split; try done; [by destruct x| |by left| | | |].
  - destruct Hx. split.
    + destruct fk_ind; [by left|right]. by apply Hm.
    + intros bn' Hb'. rewrite Ea. destruct (fk_addr bn' Hb'); [by left|right]. by apply Hm.
    + intros b1 b2 H1 H2. rewrite !Ea. by apply fk_inj.
    + intros bn' Hb'. rewrite Ea. by apply fk_ne.
  - intros b Hb Hbu. by rewrite Eu.
  - intros b Hb _. apply Hout. intros ->. by apply Hb, Hu.
  - intros b Hb Hne. apply Hout. intros ->. apply Hne. right. by exists bn.
  - intros bn' Hb' H1 H2. by rewrite Ea in H2.
Qed.

(** The bytes of blocks the file has do not change when the map grows. *)
Lemma bmapped_byte V x L bn a V' x' L' i :
  file_ok V x -> bmapped sb0 start V x L bn a V' x' L' -> 0 <= i < MAXFILE * BSIZE ->
  iaddr V x (i / BSIZE) <> 0 -> fbyte V' x' i = fbyte V x i.
Proof.
  intros Hx Hb Hi H0. assert (0 <= i / BSIZE < MAXFILE) as Hbn by (rewrite MAXFILE_eq in *; unfold BSIZE in *; Z.div_mod_to_equations; lia).
  unfold fbyte. assert (iaddr V' x' (i / BSIZE) = iaddr V x (i / BSIZE)) as ->.
  { destruct Hb. destruct (decide (i / BSIZE = bn)) as [<-|]; [|by apply bp_other]. rewrite bp_at. by apply bp_old. }
  destruct (fk_addr _ _ _ _ Hx _ Hbn) as [?|Hu]; [done|].
  rewrite (ev_keep _ _ _ _ _ _ (bp_ev _ _ _ _ _ _ _ _ _ _ Hb)); [done|done|]. by apply (fk_ne _ _ _ _ Hx).
Qed.

Lemma fbyte_data V x bn d i :
  file_ok V x -> 0 <= bn < MAXFILE -> iaddr V x bn <> 0 -> 0 <= i < MAXFILE * BSIZE ->
  fbyte (<[iaddr V x bn := d]> V) x i = if decide (i / BSIZE = bn) then d (i mod BSIZE) else fbyte V x i.
Proof.
  intros Hx Hbn H0 Hi. assert (0 <= i / BSIZE < MAXFILE) as Hib by (rewrite MAXFILE_eq in *; unfold BSIZE in *; Z.div_mod_to_equations; lia).
  unfold fbyte. rewrite (iaddr_ext V (<[iaddr V x bn := d]> V)).
  2: { intros _. apply fn_insert_ne. by apply (fk_ne _ _ _ _ Hx). }
  rewrite fn_insert_spec. destruct (decide (i / BSIZE = bn)) as [->|Hne]; [by rewrite decide_True|].
  rewrite decide_False; [done|]. intros E. apply Hne. symmetry. by apply (fk_inj _ _ _ _ Hx).
Qed.

End content.

(** Every byte of the file is in a block of it. *)
Definition filled (V : Z -> bytes) (x : inode) : Prop := forall bn, 0 <= bn -> bn * BSIZE < i_size x -> iaddr V x bn <> 0.

(** An inode block: outside the log, the bitmap and the data area. *)
Record inode_block (S0 : Z) (sb0 : superblock) (start blk : Z) : Prop := {
  ib_data : isdata S0 blk;
  ib_area : ~ area sb0 start blk;
  ib_bits : forall b, 0 <= b < sb_size sb0 -> blk <> bit_block sb0 b
}.

(** The number of blocks that [len] bytes from [off] on lie in. *)
Definition nblocks_of (off len : Z) : Z := (off + len + BSIZE - 1) / BSIZE - off / BSIZE.

(** The free blocks there are for data, when the file may need an indirect
    block as well. *)
Definition ndebt (sb0 : superblock) (V : Z -> bytes) (x : inode) : Z := nfree sb0 V - if decide (i_addrs x NDIRECT = 0) then 1 else 0.

(** The disk [V] and the inode [x] after [data] was written to the file at
    offset [off]. *)
Record file_written (S0 : Z) (sb0 : superblock) (start : Z) (V0 : Z -> bytes) (x0 : inode) (off : Z) (data : list Z)
    (V : Z -> bytes) (x : inode) : Prop := {
  fw_ok : file_ok sb0 start V x;
  fw_size : i_size x = Z.max (i_size x0) (off + Z.of_nat (length data));
  fw_filled : filled V x;
  fw_bytes : forall i, 0 <= i < i_size x ->
    fbyte V x i = if decide (off <= i < off + Z.of_nat (length data)) then data !!! Z.to_nat (i - off) else fbyte V0 x0 i;
  fw_others : forall b, used sb0 start V0 b -> ~ of_file V0 x0 b -> V b = V0 b;
  fw_use : forall b, 0 <= b < sb_size sb0 -> in_use sb0 V0 b = true -> in_use sb0 V b = true;
  fw_new : forall b, area sb0 start b -> of_file V x b -> of_file V0 x0 b \/ in_use sb0 V0 b = false;
  fw_typed : inode_typed x;
  fw_disk : on_disk (V (iblock sb0 (i_inum x))) (dinode_off (i_inum x)) x;
  fw_inodes : forall inum o, (iblock sb0 inum <> iblock sb0 (i_inum x0) \/ inum mod IPB <> i_inum x0 mod IPB) ->
    inode_block S0 sb0 start (iblock sb0 inum) ->
    dinode_off inum <= o < dinode_off inum + sizeof_dinode -> V (iblock sb0 inum) o = V0 (iblock sb0 inum) o;
  fw_same : x = set_i_size (i_size x) (set_i_addrs (i_addrs x) x0)
}.

(** ** writei *)

Lemma src_add_add src a b : 0 <= a -> 0 <= b -> src_add (src_add src a) b = src_add src (a + b).
Proof.
  intros Ha Hb. destruct src as [va|bs]; cbn.
  - f_equal. unfold u64. rewrite Z.add_mod_idemp_l by lia. f_equal. lia.
  - f_equal. rewrite drop_drop. f_equal. lia.
Qed.

(** The [m] bytes of [data] from [k] on. *)
Definition slice (data : list Z) (k m : Z) : list Z := take (Z.to_nat m) (drop (Z.to_nat k) data).

Lemma slice_length data k m : 0 <= k -> 0 <= m -> k + m <= Z.of_nat (length data) -> Z.of_nat (length (slice data k m)) = m.
Proof. intros. unfold slice. rewrite length_take, length_drop. lia. Qed.

Lemma slice_lookup data k m i : 0 <= k -> 0 <= i < m -> k + m <= Z.of_nat (length data) ->
  slice data k m !!! Z.to_nat i = data !!! Z.to_nat (k + i).
Proof.
  intros Hk Hi Hl. unfold slice. rewrite !list_lookup_total_alt. rewrite lookup_take_lt by lia. rewrite lookup_drop.
  do 2 f_equal. lia.
Qed.

(** The loop stays inside the file. *)
Lemma block_range i : 0 <= i < MAXFILE * BSIZE -> 0 <= i / BSIZE < MAXFILE.
Proof. intros Hi. rewrite MAXFILE_eq in *. unfold BSIZE in *. Z.div_mod_to_equations. lia. Qed.

(** Position [i] relative to [m] bytes from [a] on that lie in one block. *)
Lemma in_block a m i :
  0 <= a -> 0 < m <= BSIZE - a mod BSIZE -> 0 <= i ->
  (a <= i < a + m <-> i / BSIZE = a / BSIZE /\ a mod BSIZE <= i mod BSIZE < a mod BSIZE + m) /\
  (i / BSIZE = a / BSIZE -> i mod BSIZE - a mod BSIZE = i - a).
Proof. unfold BSIZE. intros. Z.div_mod_to_equations. lia. Qed.

Section writing.
Context {c me dev : Z} {LY : Layout} {DEV : BlockDev} {DOK : BlockDevOk c me}.
Context (S0 : Z).
Context (Hdev : 0 <= dev < 2 ^ 31) (HS0 : 0 <= S0 /\ S0 + LOGSIZE < 2 ^ 31).
Context (n : nat) (Hn : (Z.to_nat NBUF < n)%nat) (Hdn : (dfuel < n)%nat).
Context (sb0 : superblock) (start : Z) (Hly : layout_ok S0 sb0 start) (Hfuel : sb_size sb0 < Z.of_nat n).

Abbreviation linv := (linv (c := c) (me := me) (dev := dev) S0).
Abbreviation nfree := (nfree sb0).
Abbreviation file_ok := (file_ok sb0 start).
Abbreviation grown := (grown sb0 start).
Abbreviation reserved := (reserved sb0 start).
Abbreviation ndebt := (ndebt sb0).

(** The source [src] holds [data], also after changes to the file system. *)
Definition gives (src : ksrc) (data : list Z) (s : kernel) : Prop :=
  src_add src 0 = src /\
  forall k m s', fframe s s' -> runs c me [] s' -> 0 <= k -> 0 < m -> k + m <= Z.of_nat (length data) ->
    wp (either_copyin (src_add src k) m) n s' (fun r s'' =>
      r = (0, slice data k m) /\ exists h, hon c [] h /\ s'' = hk h s').

Lemma gives_kernel data s : gives (Skernel data) data s.
Proof.
  split; [done|]. intros k m s' _ [Hh Hme _ _] Hk Hm Hl. unfold either_copyin. apply wp_bind. eapply wp_myproc; [exact Hh|].
  intros h Hh'. cbn [src_add]. apply wp_ret. split; [done|]. by exists h.
Qed.

Context (D : Z -> bytes) (o : Z) (Ho : 1 <= o) (ip : Z).
Context (V0 : Z -> bytes) (L0 : list Z) (s0 : kernel) (src : ksrc) (data : list Z) (off0 : Z).
Abbreviation x0 := (inodes s0 ip).
Context (Hsb : sb s0 = sb0) (Hid : i_dev x0 = dev) (Hres : reserved V0) (Hsrc : gives src data s0).
Context (Hoff : 0 <= off0) (Hmax : off0 + Z.of_nat (length data) <= MAXFILE * BSIZE).

(** After [r] rounds, with [t] bytes written. *)
Record written (t r : Z) (V : Z -> bytes) (x : inode) (L : list Z) (s : kernel) : Prop := {
  ws_frame : lframe (put_inode ip x s0) s;
  ws_linv : linv D V L [] o s;
  ws_grown : grown V0 x0 V x;
  ws_new : forall i, off0 <= i < off0 + t -> iaddr V x (i / BSIZE) <> 0 /\ fbyte V x i = data !!! Z.to_nat (i - off0);
  ws_old : forall i, 0 <= i < MAXFILE * BSIZE -> ~ (off0 <= i < off0 + t) -> iaddr V0 x0 (i / BSIZE) <> 0 ->
    fbyte V x i = fbyte V0 x0 i;
  ws_pot : pot L x <= pot L0 x0 + 2 * r;
  ws_free : ndebt V0 x0 - r <= ndebt V x
}.

Lemma written_start : linv D V0 L0 [] o s0 -> file_ok V0 x0 -> written 0 0 V0 x0 L0 s0.
Proof.
  intros Hl Hx. split; try done; [by rewrite put_inode_id|by apply grown_refl|lia|lia|lia].
Qed.

(** The bytes after [m] bytes of [data] went to block [a] of the file. *)
Lemma fbyte_written V x t m i :
  file_ok V x -> 0 <= t -> 0 < m <= BSIZE - (off0 + t) mod BSIZE -> t + m <= Z.of_nat (length data) ->
  iaddr V x ((off0 + t) / BSIZE) <> 0 -> 0 <= i < MAXFILE * BSIZE ->
  let a := iaddr V x ((off0 + t) / BSIZE) in
  fbyte (<[a := wr_bytes (V a) ((off0 + t) mod BSIZE) (slice data t m)]> V) x i =
    if decide (off0 + t <= i < off0 + t + m) then data !!! Z.to_nat (i - off0) else fbyte V x i.
Proof.
  intros Hx Ht Hm Hl H0 Hi a. assert (0 <= off0 + t < MAXFILE * BSIZE) as Hr by lia.
  destruct (in_block (off0 + t) m i) as [Hin Hpos]; [lia|done|lia|].
  subst a. rewrite (fbyte_data sb0 start V x) by (done || by apply block_range).
  rewrite wr_bytes_spec, slice_length by lia. destruct (decide (i / BSIZE = (off0 + t) / BSIZE)) as [E|Hne].
  - specialize (Hpos E). destruct (decide (off0 + t <= i < off0 + t + m)) as [Hd|Hd].
    + rewrite decide_True by tauto. rewrite slice_lookup by lia. do 2 f_equal. lia.
    + rewrite decide_False by tauto. unfold fbyte. by rewrite E.
  - rewrite decide_False by tauto. done.
Qed.

(** One round: [m] bytes that lie in one block. *)
Lemma wp_writei_block t r V x L s m (Q : Z -> kernel -> Prop) :
  written t r V x L s -> 0 <= t -> 0 < m -> t + m <= Z.of_nat (length data) ->
  m <= BSIZE - (off0 + t) mod BSIZE -> pot L x + 2 <= LOGSIZE - 3 -> 1 <= ndebt V x ->
  (forall s' V' x' L', written (t + m) (r + 1) V' x' L' s' -> Q 0 s') ->
  wp (writei_block ip (src_add src t) (off0 + t) m) n s Q.
Proof.
  intros [Hf Hl Hg Hnew Hold Hpot Hfree] Ht Hm Htm Hmb Hroom Hdebt HQ. unfold writei_block, iget_.
  assert (inodes s ip = x) as Ex by (rewrite (lframe_inodes _ _ Hf); apply put_inode_at).
  assert (i_dev x = dev) as Hxd by (rewrite (gr_same _ _ _ _ _ _ Hg); done).
  assert (0 <= off0 + t < MAXFILE * BSIZE) as Hi by lia. pose proof (block_range _ Hi) as Hbn.
  set (bn := (off0 + t) / BSIZE) in *. set (p := (off0 + t) mod BSIZE) in *.
  apply wp_bind, wp_gets. rewrite Ex, Hxd. apply wp_bind.
  eapply (wp_bmap S0 Hdev HS0 n Hn Hdn sb0 start Hly Hfuel D V L); rewrite ?Ex; try done.
  { by rewrite (lframe_sb _ _ Hf). }
  { intros b Hb Hs. apply (gr_use _ _ _ _ _ _ Hg); [lia|]. by apply Hres. }
  { apply Hg. }
  { intros _. unfold ndebt in Hdebt. destruct (decide _); lia. }
  intros a s1 V1 x1 L1 F1 I1 Hb. pose proof (bmapped_grown sb0 start V x L bn a V1 x1 L1 (gr_ok _ _ _ _ _ _ Hg) Hbn Hb) as G1.
  pose proof Hb as [Hev Hat Hu Hoth Hold1 Hnew1 Hfr1 Hpot1].
  assert (pot L1 x1 <= pot L x + 2) as Hpot1' by (destruct (decide _); lia). pose proof (pot_length L1 x1).
  assert (LOGSIZE = 30 /\ NBUF = 30) as [EL EN] by done.
  assert (isdata S0 a) as Hd by apply (ly_data _ _ _ Hly), Hu.
  assert (lframe (put_inode ip x1 s0) s1) as F01 by (etrans; [by apply (lframe_put_after ip x)|exact F1]).
  apply wp_bind. eapply (wp_get S0 n Hn Hdn); [exact I1|exact Hd|apply no_holds|cbn; lia|].
  intros bp s2 F2 I2 Hbp Hbk Hda _ _. apply wp_bind. eapply wp_mono.
  { apply (proj2 Hsrc t m s2); [|by eapply linv_runs|done|done|done]. eexists. by etrans. }
  cbn beta. intros rb s3 (-> & h & Hh & ->). cbv iota beta. change (0 =? -1) with false. cbv iota.
  apply wp_seq3. apply (linv_hk S0 _ _ _ _ _ h) in I2; [|done].
  eapply (wp_change S0 Hdev HS0 n Hn Hdn _ _ _ _ _ _ bp (fun d => wr_bytes d p (slice data t m)) a);
    [exact I2|done|done|done|done|done|lia|].
  intros s4 F4 I4 _. apply wp_ret. set (V2 := <[a := wr_bytes (V1 a) p (slice data t m)]> V1) in *.
  apply (HQ s4 V2 x1 (addL L1 a)).
  assert (file_ok V1 x1) as Hok1 by apply Hev.
  assert (iaddr V1 x1 bn <> 0) as Ha0.
  { rewrite Hat. intros ->. apply (used_range S0 sb0 start Hly) in Hu. lia. }
  assert (iaddr V1 x1 bn <> i_addrs x1 NDIRECT) as Hane by by apply (fk_ne _ _ _ _ Hok1).
  assert (forall b, iaddr V2 x1 b = iaddr V1 x1 b) as Eia.
  { intros b. apply iaddr_ext. intros _. apply fn_insert_ne. by rewrite <-Hat. }
  assert (forall i, 0 <= i < MAXFILE * BSIZE -> fbyte V2 x1 i =
    if decide (off0 + t <= i < off0 + t + m) then data !!! Z.to_nat (i - off0) else fbyte V1 x1 i) as Hbyte.
  { intros i Hir. pose proof (fbyte_written V1 x1 t m i Hok1 Ht (conj Hm Hmb) Htm Ha0 Hir) as Hw. cbv zeta in Hw.
    fold bn p in Hw. rewrite Hat in Hw. exact Hw. }
  assert (forall i, 0 <= i < MAXFILE * BSIZE -> iaddr V x (i / BSIZE) <> 0 -> fbyte V1 x1 i = fbyte V x i) as Hkeep.
  { intros i Hir H0. by apply (bmapped_byte sb0 start V x L bn a V1 x1 L1); [apply Hg|..]. }
  split.
  - etrans; [exact F01|]. etrans; [exact F2|]. etrans; [apply (lframe_hart h)|exact F4].
  - exact I4.
  - eapply grown_trans; [exact Hly|exact Hg|]. eapply grown_trans; [exact Hly|exact G1|]. subst V2. rewrite <-Hat at 1.
    by apply (grown_data S0 sb0 start Hly).
  - intros i Hir. rewrite Eia, Hbyte by lia. destruct (decide (off0 + t <= i < off0 + t + m)) as [Hin|Hout].
    + split; [|done]. apply (in_block (off0 + t) m i) in Hin as [-> _]; [done|lia|lia|lia].
    + destruct (Hnew i) as [H0 Hv]; [lia|]. rewrite Hkeep by (done || lia). split; [|done].
      destruct (decide (i / BSIZE = bn)) as [->|Hne]; [done|]. rewrite Hoth; [done|apply block_range; lia|done].
  - intros i Hir Hout H0. rewrite Hbyte, decide_False by (done || lia).
    assert (iaddr V x (i / BSIZE) <> 0) as H1 by (rewrite (gr_map _ _ _ _ _ _ Hg); [done|by apply block_range|done]).
    rewrite Hkeep by done. apply Hold; [done|lia|done].
  - destruct (decide (iaddr V x bn = 0)) as [H0|H0].
    + rewrite addL_in by by apply Hnew1. lia.
    + pose proof (pot_add L1 x1 a). lia.
  - assert (nfree V2 = nfree V1) as En.
    { unfold FsFile.nfree. do 2 f_equal. apply filter_ext_in. intros b Hbr%elem_of_seqZ. unfold in_use, V2.
      rewrite fn_insert_ne; [done|]. apply (ly_bits _ _ _ Hly); [apply Hu|lia]. }
    unfold ndebt in *. rewrite En. destruct (decide (iaddr V x bn = 0)); lia.
Qed.

Context (Hx0 : file_ok V0 x0) (Hsize : off0 <= i_size x0).
Abbreviation len := (Z.of_nat (length data)).
Abbreviation nblocks_of := (nblocks_of off0).
Context (Hlog : pot L0 x0 + 2 * nblocks_of len <= LOGSIZE - 3) (Hroom : nblocks_of len <= ndebt V0 x0).

Lemma wp_writei_loop (Q : Z * Z -> kernel -> Prop) :
  linv D V0 L0 [] o s0 ->
  (forall s' V' x' L' r, written len r V' x' L' s' -> r <= nblocks_of len -> Q (len, off0 + len) s') ->
  wp (loop (fun '(tot, off, src) =>
    if negb (tot <? len) then mret (Done (tot, off)) else
    let m := Z.min (len - tot) (BSIZE - off mod BSIZE) in
    r ← writei_block ip src off m;
    if r =? -1 then mret (Done (tot, off)) else
    mret (Next (u32 (tot + m), u32 (off + m), src_add src m))) (0, off0, src)) n s0 Q.
Proof.
  intros Hl HQ. assert (MAXFILE * BSIZE < 2 ^ 32 /\ BSIZE = 1024) as [EM EB] by done.
  assert (0 <= nblocks_of len) as HK by (unfold nblocks_of, BSIZE; Z.div_mod_to_equations; lia).
  assert (nblocks_of len < 30) as HK2.
  { pose proof (pot_length L0 x0). unfold LOGSIZE, MAXOPBLOCKS in *. lia. }
  assert (Z.to_nat NBUF = 30)%nat as EN by done.
  apply (wp_loop _ (fun k l s => exists t r V x L, l = (t, off0 + t, src_add src t) /\ k = Z.to_nat (nblocks_of len - r) /\
    0 <= t <= len /\ 0 <= r <= nblocks_of len /\ (t < len -> (off0 + t) / BSIZE = off0 / BSIZE + r) /\ written t r V x L s))
    with (k := Z.to_nat (nblocks_of len)); [|lia|].
  2: { exists 0, 0, V0, x0, L0. rewrite (proj1 Hsrc), Z.add_0_r, Z.sub_0_r. split_and!; try done; try lia. by apply written_start. }
  intros k l s (t & r & V & x & L & -> & -> & Ht & Hr & Hround & Hw). cbv iota beta.
  destruct (Z.ltb_spec t len) as [Hlt|Hge]; cbn [negb].
  2: { apply wp_ret. assert (t = len) as -> by lia. apply (HQ s V x L r); [done|lia]. }
  specialize (Hround Hlt). set (m := Z.min _ _). cbv zeta.
  assert (0 < m /\ t + m <= len /\ m <= BSIZE - (off0 + t) mod BSIZE) as (Hm & Htm & Hmb).
  { subst m. assert (0 <= (off0 + t) mod BSIZE < BSIZE) by (apply Z.mod_pos_bound; lia). lia. }
  assert (r + 1 <= nblocks_of len) as Hr1.
  { unfold nblocks_of, BSIZE in *. Z.div_mod_to_equations. lia. }
  apply wp_bind. eapply wp_writei_block; [exact Hw|lia|done|done|done|pose proof (ws_pot _ _ _ _ _ _ Hw); lia|pose proof (ws_free _ _ _ _ _ _ Hw); lia|].
  intros s' V' x' L' Hw'. cbn [Z.eqb]. apply wp_ret. exists (Z.to_nat (nblocks_of len - (r + 1))). split; [lia|].
  exists (t + m), (r + 1), V', x', L'. rewrite src_add_add by lia. rewrite !u32_small by lia. rewrite <-Z.add_assoc.
  split_and!; try done; try lia. intros Hlt'.
  assert (m = BSIZE - (off0 + t) mod BSIZE) as -> by lia. unfold BSIZE in *. Z.div_mod_to_equations. lia.
Qed.

Context (Htyped : inode_typed x0) (Hfill : filled V0 x0) (Hbig : i_size x0 <= MAXFILE * BSIZE)
  (Hib : inode_block S0 sb0 start (iblock sb0 (i_inum x0))).

(** The size after the write. *)
Abbreviation size' := (Z.max (i_size x0) (off0 + len)).

Lemma file_ok_typed V x : file_ok V x -> forall i, 0 <= i <= NDIRECT -> 0 <= i_addrs x i < 2 ^ 32.
Proof.
  intros Hx i Hi. pose proof (bm_size _ _ (ly_bitmap _ _ _ Hly)).
  assert (i_addrs x i = 0 \/ used sb0 start V (i_addrs x i)) as [->|Hu]; [|lia|apply (used_range S0 sb0 start Hly) in Hu; lia].
  destruct (decide (i = NDIRECT)) as [->|Hne]; [apply Hx|].
  destruct (fk_addr _ _ _ _ Hx i) as [E|E]; [rewrite MAXFILE_eq; unfold NDIRECT in *; lia|..];
    unfold iaddr in E; rewrite (proj2 (Z.ltb_lt _ _)) in E by (unfold NDIRECT in *; lia); [by left|by right].
Qed.

(** From the state of the loop to the result: the inode goes to its block. *)
Lemma written_file V x r L s :
  written len r V x L s -> r <= nblocks_of len -> file_written S0 sb0 start V0 x0 off0 data (disk_put sb0 V (set_i_size size' x)) (set_i_size size' x) /\
    ndebt V0 x0 - nblocks_of len <= ndebt (disk_put sb0 V (set_i_size size' x)) (set_i_size size' x).
Proof.
  intros [Hf Hl Hg Hnew Hold _ Hfree] Hrn. set (y := set_i_size size' x). set (V' := disk_put sb0 V y).
  assert (i_inum y = i_inum x0) as Ei by (subst y; cbn; rewrite (gr_same _ _ _ _ _ _ Hg); done).
  assert (MAXFILE * BSIZE < 2 ^ 31 /\ BSIZE = 1024) as [EM EB] by done.
  assert (forall b, b <> iblock sb0 (i_inum x0) -> V' b = V b) as Hout.
  { intros b Hb. subst V'. unfold disk_put. rewrite Ei. by apply fn_insert_ne. }
  assert (forall b, area sb0 start b -> V' b = V b) as Harea by (intros b Hb; apply Hout; intros ->; by apply (ib_area _ _ _ _ Hib)).
  assert (forall b, 0 <= b < sb_size sb0 -> in_use sb0 V' b = in_use sb0 V b) as Huse.
  { intros b Hb. unfold in_use. rewrite Hout; [done|]. apply not_eq_sym. by apply (ib_bits _ _ _ _ Hib). }
  assert (forall b, used sb0 start V b -> used sb0 start V' b) as Hmono.
  { intros b Hb. pose proof (used_range S0 sb0 start Hly _ _ Hb). destruct Hb. split; [done|]. by rewrite Huse by lia. }
  assert (forall bn, iaddr V' y bn = iaddr V x bn) as Eia.
  { intros bn. change (iaddr V' y bn) with (iaddr V' x bn). apply iaddr_ext. intros H0. apply Harea.
    destruct (fk_ind _ _ _ _ (gr_ok _ _ _ _ _ _ Hg)) as [?|[? _]]; done. }
  assert (forall i, 0 <= i < MAXFILE * BSIZE -> iaddr V x (i / BSIZE) <> 0 -> fbyte V' y i = fbyte V x i) as Eb.
  { intros i Hi H0. unfold fbyte. rewrite Eia, Harea; [done|].
    destruct (fk_addr _ _ _ _ (gr_ok _ _ _ _ _ _ Hg) (i / BSIZE)) as [?|[? _]]; [by apply block_range|done|done]. }
  assert (file_ok V' y) as Hok.
  { destruct (gr_ok _ _ _ _ _ _ Hg). split.
    - destruct fk_ind; [by left|right]. by apply Hmono.
    - intros bn Hbn. rewrite Eia. destruct (fk_addr bn Hbn); [by left|right]. by apply Hmono.
    - intros b1 b2 H1 H2. rewrite !Eia. by apply fk_inj.
    - intros bn Hbn. rewrite Eia. by apply fk_ne. }
  assert (filled V' y) as Hfl.
  { intros bn Hb0 Hbs. rewrite Eia. cbn in Hbs. destruct (decide (bn * BSIZE < i_size x0)) as [Hlt|Hge].
    - rewrite (gr_map _ _ _ _ _ _ Hg); [by apply Hfill| |by apply Hfill]. lia.
    - destruct (Hnew (bn * BSIZE)) as [H0 _]; [lia|]. by rewrite Z.div_mul in H0. }
  assert (forall i, 0 <= i < size' -> iaddr V x (i / BSIZE) <> 0) as Hmapped.
  { intros i Hi. rewrite <-Eia. apply Hfl; [apply Z.div_pos; lia|]. cbn. assert (i / BSIZE * BSIZE <= i) by (rewrite EB; Z.div_mod_to_equations; lia). lia. }
  assert (inode_typed y) as Hty.
  { destruct Htyped. split; cbn; try (rewrite (gr_same _ _ _ _ _ _ Hg); done); [lia|].
    apply (file_ok_typed V x). apply Hg. }
  assert (nfree V' = nfree V) as En.
  { unfold FsFile.nfree. do 2 f_equal. apply filter_ext_in. intros b Hbr%elem_of_seqZ. by rewrite Huse by lia. }
  split; [|unfold FsWrite.ndebt in *; rewrite En; change (i_addrs y NDIRECT) with (i_addrs x NDIRECT); lia].
  split; [done|done|done| | | | |done| | |].
  - intros i Hi. cbn in Hi. rewrite Eb by (lia || by apply Hmapped). destruct (decide _) as [Hin|Hout']; [by apply Hnew|].
    apply Hold; [lia|done|]. apply Hfill; [apply Z.div_pos; lia|].
    assert (i / BSIZE * BSIZE <= i) by (rewrite EB; Z.div_mod_to_equations; lia). lia.
  - intros b Hb Hne. rewrite Harea by apply Hb. by apply (gr_other _ _ _ _ _ _ Hg).
  - intros b Hb Hu. rewrite Huse by done. by apply (gr_use _ _ _ _ _ _ Hg).
  - intros b Hb Ho'. apply (area_range S0 sb0 start Hly) in Hb as Hbr. eapply (grown_of_file sb0 start); [exact Hg|lia|].
    destruct Ho' as [->|(bn & Hbn & E)]; [by left|right]. exists bn. by rewrite <-Eia.
  - subst V'. unfold disk_put. rewrite fn_lookup_insert. by apply dinode_put_on_disk.
  - intros inum p Hne [_ Ha Hbits] Hp. destruct (decide (iblock sb0 inum = iblock sb0 (i_inum x0))) as [E|E].
    + destruct Hne as [?|Hne]; [done|]. subst V'. unfold disk_put. rewrite E, Ei, fn_lookup_insert.
      rewrite dinode_put_out by (pose proof (dinode_offs_ne _ _ Hne); lia). rewrite <-E. by rewrite (gr_meta _ _ _ _ _ _ Hg).
    + rewrite Hout by done. by rewrite (gr_meta _ _ _ _ _ _ Hg).
  - subst y. rewrite (gr_same _ _ _ _ _ _ Hg). done.
Qed.

Lemma wp_writei (Q : Z -> kernel -> Prop) :
  linv D V0 L0 [] o s0 ->
  (forall s' V' x' L', linv D V' L' [] o s' -> lframe (put_inode ip x' s0) s' ->
     file_written S0 sb0 start V0 x0 off0 data V' x' -> ndebt V0 x0 - nblocks_of len <= ndebt V' x' ->
     Z.of_nat (length L') <= pot L0 x0 + 2 * nblocks_of len + 1 -> Q len s') ->
  wp (writei ip src off0 len) n s0 Q.
Proof.
  intros Hl HQ. assert (MAXFILE * BSIZE < 2 ^ 31) as EM by done.
  unfold writei, iget_. apply wp_bind, wp_gets. rewrite !u32_small by lia.
  rewrite (proj2 (Z.ltb_ge (i_size x0) off0)), (proj2 (Z.ltb_ge (off0 + len) off0)), (proj2 (Z.ltb_ge (MAXFILE * BSIZE) _)) by lia.
  cbn [orb]. apply wp_bind, wp_writei_loop; [done|]. intros s1 V x L r Hw Hr. cbv iota beta.
  pose proof Hw as [Hf I1 Hg _ _ Hpot _]. apply wp_bind, wp_gets.
  assert (inodes s1 ip = x) as Ex by (rewrite (lframe_inodes _ _ Hf); apply put_inode_at).
  assert (i_size x = i_size x0 /\ i_dev x = dev /\ i_inum x = i_inum x0) as (Es & Ed & Ein) by (rewrite (gr_same _ _ _ _ _ _ Hg); done).
  rewrite Ex, Es. set (y := set_i_size size' x).
  assert (forall m : K Z, wp m n (put_inode ip y s1) Q ->
    wp (when (i_size x0 <? off0 + len) (iset ip (set_i_size (off0 + len)));; m) n s1 Q) as Hwhen.
  { intros m Hm. apply wp_bind. destruct (Z.ltb_spec (i_size x0) (off0 + len)); cbn [when].
    - unfold iset. apply wp_modify. rewrite upd_put_inode, Ex. subst y. by rewrite Z.max_r in Hm by lia.
    - apply wp_ret. subst y. rewrite Z.max_l in Hm by lia.
      replace (set_i_size (i_size x0) x) with (inodes s1 ip) in Hm by (rewrite Ex, <-Es; by destruct x). by rewrite put_inode_id in Hm. }
  apply Hwhen. apply wp_bind. pose proof (pot_length L x). assert (LOGSIZE = 30) as EL by done.
  eapply (wp_iupdate S0 Hdev HS0 n Hn Hdn sb0 D V L o (put_inode ip y s1) ip); rewrite ?put_inode_at.
  - by apply linv_inodes.
  - cbn. by rewrite (lframe_sb _ _ Hf).
  - done.
  - change (i_inum y) with (i_inum x). rewrite Ein. apply Hib.
  - done.
  - lia.
  - intros s2 F2 I2. apply wp_ret. rewrite s32_small by lia. eapply (HQ s2 _ y _ I2).
    + etrans; [by apply (lframe_put_after ip x)|exact F2].
    + by apply (written_file V x r L s1).
    + by apply (written_file V x r L s1).
    + pose proof (addL_length L (iblock sb0 (i_inum y))). lia.
Qed.

End writing.

(** Two writes one after the other are one. *)
Lemma file_written_trans S0 sb0 start V0 x0 off d1 V1 x1 d2 V2 x2 :
  layout_ok S0 sb0 start -> 0 <= off <= i_size x0 ->
  file_written S0 sb0 start V0 x0 off d1 V1 x1 -> file_written S0 sb0 start V1 x1 (off + Z.of_nat (length d1)) d2 V2 x2 ->
  file_written S0 sb0 start V0 x0 off (d1 ++ d2) V2 x2.
Proof.
  intros Hly Hoff W1 W2. pose proof (fw_size _ _ _ _ _ _ _ _ _ W1) as Z1. pose proof (fw_size _ _ _ _ _ _ _ _ _ W2) as Z2.
  pose proof (fw_same _ _ _ _ _ _ _ _ _ W1) as E1. pose proof (fw_same _ _ _ _ _ _ _ _ _ W2) as E2.
  assert (i_inum x1 = i_inum x0) as Ei by by rewrite E1.
  assert (Z.of_nat (length (d1 ++ d2)) = Z.of_nat (length d1) + Z.of_nat (length d2)) as El by (rewrite length_app; lia).
  split; [apply W2| |apply W2| | | | |apply W2|apply W2| |].
  - lia.
  - intros i Hi. rewrite (fw_bytes _ _ _ _ _ _ _ _ _ W2) by done.
    destruct (decide (off + Z.of_nat (length d1) <= i < off + Z.of_nat (length d1) + Z.of_nat (length d2))) as [H2|H2].
    + rewrite decide_True by lia. rewrite lookup_total_app_r by lia. f_equal. lia.
    + rewrite (fw_bytes _ _ _ _ _ _ _ _ _ W1) by lia. destruct (decide (off <= i < off + Z.of_nat (length d1))) as [H1|H1].
      * rewrite decide_True by lia. by rewrite lookup_total_app_l by lia.
      * by rewrite decide_False by lia.
  - intros b [Ha Hu] Hne. pose proof (area_range S0 sb0 start Hly b Ha) as Hb.
    rewrite (fw_others _ _ _ _ _ _ _ _ _ W2); [by apply (fw_others _ _ _ _ _ _ _ _ _ W1)|split; [done|apply (fw_use _ _ _ _ _ _ _ _ _ W1); [lia|done]]|].
    intros [?|Hf]%(fw_new _ _ _ _ _ _ _ _ _ W1); [done|congruence|done].
  - intros b Hb Hu. apply (fw_use _ _ _ _ _ _ _ _ _ W2); [done|]. by apply (fw_use _ _ _ _ _ _ _ _ _ W1).
  - intros b Hb [Hf|Hf]%(fw_new _ _ _ _ _ _ _ _ _ W2); [by apply (fw_new _ _ _ _ _ _ _ _ _ W1)| |done]. right.
    destruct (in_use sb0 V0 b) eqn:E; [|done]. pose proof (area_range S0 sb0 start Hly b Hb).
    rewrite (fw_use _ _ _ _ _ _ _ _ _ W1) in Hf by (done || lia). done.
  - intros inum o Hne Hb Ho. rewrite (fw_inodes _ _ _ _ _ _ _ _ _ W2) by (rewrite ?Ei; done). by apply (fw_inodes _ _ _ _ _ _ _ _ _ W1).
  - rewrite E2 at 1. rewrite E1. by destruct x0.
Qed.

(** C10: [writei] writes: for a well-formed file and a source that can be read,
    the call returns the number of bytes asked for, the file is well formed
    again and longer if the bytes go past its end, its bytes are the new ones
    in the range written and the old ones elsewhere, the blocks of all other
    files and all other inodes are as before, and the inode on the disk is the
    inode in memory. All of it happens inside the transaction, whose size is
    bounded. *)
Theorem writei_writes {c me dev : Z} {LY : Layout} {DEV : BlockDev} {DOK : BlockDevOk c me} S0 n sb0 start D o ip V0 L0 s0 src data off :
  0 <= dev < 2 ^ 31 -> 0 <= S0 /\ S0 + LOGSIZE < 2 ^ 31 -> (Z.to_nat NBUF < n)%nat -> (dfuel < n)%nat ->
  layout_ok S0 sb0 start -> sb_size sb0 < Z.of_nat n -> sb s0 = sb0 -> 1 <= o ->
  linv (c := c) (me := me) (dev := dev) S0 D V0 L0 [] o s0 ->
  let x0 := inodes s0 ip in
  i_dev x0 = dev -> reserved sb0 start V0 -> file_ok sb0 start V0 x0 -> inode_typed x0 -> filled V0 x0 ->
  inode_block S0 sb0 start (iblock sb0 (i_inum x0)) ->
  0 <= off <= i_size x0 -> i_size x0 <= MAXFILE * BSIZE -> off + Z.of_nat (length data) <= MAXFILE * BSIZE ->
  gives (c := c) (me := me) n src data s0 ->
  pot L0 x0 + 2 * nblocks_of off (Z.of_nat (length data)) <= LOGSIZE - 3 ->
  nblocks_of off (Z.of_nat (length data)) <= ndebt sb0 V0 x0 ->
  exists s' V' x' L',
    writei ip src off (Z.of_nat (length data)) n s0 = Ret (Z.of_nat (length data)) s' /\
    linv (c := c) (me := me) (dev := dev) S0 D V' L' [] o s' /\ lframe (put_inode ip x' s0) s' /\
    file_written S0 sb0 start V0 x0 off data V' x' /\
    Z.of_nat (length L') <= pot L0 x0 + 2 * nblocks_of off (Z.of_nat (length data)) + 1.
Proof.
  intros Hdev HS0 Hn Hdn Hly Hfuel Hsb Ho Hl x0 Hid Hr Hx Ht Hfl Hib Hoff Hbig Hmax Hg Hlog Hroom.
  assert (wp (writei ip src off (Z.of_nat (length data))) n s0 (fun r s' => r = Z.of_nat (length data) /\ exists V' x' L',
    linv (c := c) (me := me) (dev := dev) S0 D V' L' [] o s' /\ lframe (put_inode ip x' s0) s' /\
    file_written S0 sb0 start V0 x0 off data V' x' /\
    Z.of_nat (length L') <= pot L0 x0 + 2 * nblocks_of off (Z.of_nat (length data)) + 1)) as (r & s' & E & -> & V' & x' & L' & HQ)%wp_elim.
  { eapply (wp_writei S0 Hdev HS0 n Hn Hdn sb0 start Hly Hfuel D o Ho ip V0 L0 s0 src data off); try done; try lia; [apply Hoff|].
    intros. split; [done|]. by eexists _, _, _. }
  by exists s', V', x', L'.
Qed.
