(* ===== verification/FsRead.v ===== *)
(** * Reading files

    [readi] of [src/kernel/fs.c]: the bytes of the file go to wherever the
    caller asked for, and the file system stays as it was. *)

From S2P Require Import Prelude Riscv Spinlock Str Kalloc Kernel Proc Sleeplock Bio Log Fs KernelWp Ring BioProof LogProof LogOps FsBlocks FsInode FsFile FsWrite.

(** The [k] bytes of the file from [off] on. *)
Definition fbytes (V : Z -> bytes) (x : inode) (off k : Z) : list Z := (fun i => fbyte V x i) <$> seqZ off k.

Lemma fbytes_length V x off k : 0 <= k -> Z.of_nat (length (fbytes V x off k)) = k.
Proof. intros Hk. unfold fbytes. rewrite length_fmap, length_seqZ. lia. Qed.

Lemma fbytes_app V x off k m : 0 <= k -> 0 <= m -> fbytes V x off (k + m) = fbytes V x off k ++ fbytes V x (off + k) m.
Proof. intros Hk Hm. unfold fbytes. by rewrite seqZ_app, fmap_app by lia. Qed.

Lemma fbytes_take V x off k j : 0 <= k -> (j < Z.to_nat k)%nat -> take j (fbytes V x off k) = fbytes V x off (Z.of_nat j).
Proof.
  intros Hk Hj. replace k with (Z.of_nat j + (k - Z.of_nat j)) by lia. rewrite fbytes_app by lia.
  pose proof (fbytes_length V x off (Z.of_nat j)). rewrite take_app_le by lia. apply take_ge. lia.
Qed.

(** Bytes that lie in one block. *)
Lemma fbytes_block V x off m :
  0 <= off -> 0 <= m <= BSIZE - off mod BSIZE ->
  rd_bytes (V (iaddr V x (off / BSIZE))) (off mod BSIZE) (Z.to_nat m) = fbytes V x off m.
Proof.
  intros Ho Hm. apply list_eq_same_length with (n := Z.to_nat m).
  - pose proof (fbytes_length V x off m). lia.
  - apply length_rd_bytes.
  - intros i a b Hi Ha Hb. rewrite rd_bytes_lookup in Ha by done. injection Ha as <-.
    unfold fbytes in Hb. rewrite list_lookup_fmap, lookup_seqZ_lt in Hb by lia. injection Hb as <-.
    assert ((off + Z.of_nat i) / BSIZE = off / BSIZE /\ (off + Z.of_nat i) mod BSIZE = off mod BSIZE + Z.of_nat i) as [E1 E2]
      by (unfold BSIZE in *; Z.div_mod_to_equations; lia).
    unfold fbyte. by rewrite E1, E2.
Qed.

(** The file has what was written to it. *)
Lemma written_fbytes S0 sb0 start V0 x0 off data V x :
  0 <= off -> file_written S0 sb0 start V0 x0 off data V x -> fbytes V x off (Z.of_nat (length data)) = data.
Proof.
  intros Hoff Hw. pose proof (fw_size _ _ _ _ _ _ _ _ _ Hw) as Hs.
  apply list_eq_same_length with (n := length data); [done|pose proof (fbytes_length V x off (Z.of_nat (length data))); lia|].
  intros i a b Hi Ha Hb. unfold fbytes in Ha. rewrite list_lookup_fmap, lookup_seqZ_lt in Ha by lia. injection Ha as <-.
  rewrite (fw_bytes _ _ _ _ _ _ _ _ _ Hw), decide_True by lia. replace (Z.to_nat (off + Z.of_nat i - off)) with i by lia.
  by apply list_lookup_total_correct.
Qed.

(** ** Where the bytes go *)

(** [dst] takes up to [len] bytes: after [acc] was copied [P acc] holds, and
    when a copy fails [F acc]. The copies change memory and nothing else. *)
Record sink (c me : Z) {LY : Layout} (n : nat) (dst : kdst) (len : Z) (P F : list Z -> kernel -> Prop) : Prop := {
  sk_zero : dst_add dst 0 = dst;
  sk_add : forall a b, 0 <= a -> 0 <= b -> dst_add (dst_add dst a) b = dst_add dst (a + b);
  sk_frame : forall acc s s', runs c me [] s -> lframe s s' -> P acc s -> P acc s';
  sk_fail : forall acc s s', runs c me [] s -> lframe s s' -> F acc s -> F acc s';
  sk_copy : forall acc bs s, P acc s -> runs c me [] s -> (0 < length bs)%nat -> Z.of_nat (length bs) <= BSIZE ->
    Z.of_nat (length acc + length bs) <= len ->
    wp (either_copyout (dst_add dst (Z.of_nat (length acc))) bs (Z.of_nat (length bs))) n s (fun r s' =>
      (exists m, s' = set_ms m s /\ hon c [] (hart m)) /\
      ((r = 0 /\ P (acc ++ bs) s') \/ (r = -1 /\ exists k, (k < length bs)%nat /\ F (acc ++ take k bs) s')))
}.

(** Changes to memory, and what the log may change. *)
Definition mframe (s s' : kernel) : Prop := exists m, lframe (set_ms m s) s'.

Lemma lframe_ms s s' m : lframe s s' -> exists m', lframe (set_ms m' s) (set_ms m s').
Proof. intros (kl & h & ps & B & v & W & Hw & ->). exists m. exists kl, (hart m), ps, B, v, W. by destruct m. Qed.

Lemma lframe_mframe s s' : lframe s s' -> mframe s s'.
Proof. intros F. exists (ms s). by destruct s. Qed.

Lemma mframe_ms m s : mframe s (set_ms m s).
Proof. by exists m. Qed.

#[global] Instance mframe_preorder : PreOrder mframe.
Proof.
  split; [intros s; by apply lframe_mframe|]. intros s1 s2 s3 [m F] [m' F'].
  destruct (lframe_ms _ _ m' F) as [m'' G]. exists m''. by etrans.
Qed.

Lemma mframe_inodes s s' : mframe s s' -> inodes s' = inodes s.
Proof. intros [m F]. by rewrite (lframe_inodes _ _ F). Qed.
Lemma mframe_sb s s' : mframe s s' -> sb s' = sb s.
Proof. intros [m F]. by rewrite (lframe_sb _ _ F). Qed.

(** A local variable takes everything, and memory stays. *)
Definition unmoved (s0 : kernel) (acc : list Z) (s : kernel) : Prop := exists h, ms s = set_hart h (ms s0).

Lemma lframe_mem s s' : lframe s s' -> exists h, ms s' = set_hart h (ms s).
Proof. intros (kl & h & ps & B & v & W & Hw & ->). by exists h. Qed.

Lemma sink_local c me {LY : Layout} n len s0 : sink c me n Dlocal len (unmoved s0) (fun _ _ => False).
Proof.
  split; try done.
  - intros acc s s' _ [h E]%lframe_mem [h' E']. exists h. by rewrite E, E'.
  - intros acc bs s [h0 E] [Hh _ _ _] _ _ _. unfold either_copyout. apply wp_bind. eapply wp_myproc; [exact Hh|].
    intros h Hh'. cbn [dst_add]. apply wp_ret. split; [by eexists|]. left. split; [done|]. exists h. cbn. by rewrite E.
Qed.

Lemma mframe_unmoved s s' acc : mframe s s' -> unmoved s acc s' -> lframe s s'.
Proof.
  intros [m (kl & h & ps & B & v & W & Hw & ->)] [h' E]. cbn in E. exists kl, h', ps, B, v, W. split; [exact Hw|].
  unfold hk. cbn [ms set_klog set_ms]. rewrite E. by destruct s.
Qed.

Section reading.
Context {c me dev : Z} {LY : Layout} {DEV : BlockDev} {DOK : BlockDevOk c me}.
Context (S0 : Z).
Context (n : nat) (Hn : (Z.to_nat NBUF < n)%nat) (Hdn : (dfuel < n)%nat).
Context (sb0 : superblock) (start : Z) (Hly : layout_ok S0 sb0 start).

Abbreviation linv := (linv (c := c) (me := me) (dev := dev) S0).
Abbreviation file_ok := (file_ok sb0 start).

Lemma linv_ms D V L H o m s : hon c [] (hart m) -> linv D V L H o s -> linv D V L H o (set_ms m s).
Proof. intros Hh [[[]] []]. split; try done; split; try done. Qed.

(** [bmap] at a block that is there. *)
Lemma wp_bmap_mapped D V L o s ip bn (Q : Z -> kernel -> Prop) :
  linv D V L [] o s -> i_dev (inodes s ip) = dev -> file_ok V (inodes s ip) -> 0 <= bn < MAXFILE ->
  iaddr V (inodes s ip) bn <> 0 -> Z.of_nat (length L) < NBUF ->
  (forall s', lframe s s' -> linv D V L [] o s' -> Q (iaddr V (inodes s ip) bn) s') ->
  wp (bmap ip bn) n s Q.
Proof.
  intros Hl Hid Hx Hbn H0 Hlen HQ. set (x := inodes s ip) in *. pose proof MAXFILE_eq as EM.
  assert (NDIRECT = 12 /\ NINDIRECT = 256) as [ED EI] by done.
  unfold bmap, iget_. destruct (Z.ltb_spec bn NDIRECT) as [Hlt|Hge].
  - assert (iaddr V x bn = i_addrs x bn) as Ea by (unfold iaddr; by rewrite (proj2 (Z.ltb_lt _ _)) by lia).
    apply wp_bind, wp_gets. fold x. rewrite <-Ea, (proj2 (Z.eqb_neq _ _) H0). cbn [negb]. apply wp_ret. by apply HQ.
  - rewrite (proj2 (Z.ltb_lt _ _)) by lia.
    assert (i_addrs x NDIRECT <> 0) as Hi.
    { intros E. apply H0. unfold iaddr. by rewrite (proj2 (Z.ltb_ge _ _)), E by lia. }
    assert (iaddr V x bn = ld 4 (V (i_addrs x NDIRECT)) (4 * (bn - NDIRECT))) as Ea.
    { unfold iaddr. by rewrite (proj2 (Z.ltb_ge _ _)), (proj2 (Z.eqb_neq _ _)) by (done || lia). }
    do 2 apply wp_bind, wp_gets. fold x. rewrite (proj2 (Z.eqb_neq _ _) Hi), Hid. cbn [negb].
    apply wp_bind, wp_ret. unfold bmap_indirect.
    destruct (fk_ind _ _ _ _ Hx) as [?|Hu]; [done|].
    apply wp_bind. eapply (wp_get S0 n Hn Hdn); [exact Hl|apply (ly_data _ _ _ Hly), Hu|apply no_holds|cbn; lia|].
    intros bp s1 F1 L1 _ Hbk Hda _ Hcl. unfold bget_. apply wp_bind, wp_gets. rewrite Hda. cbv zeta.
    rewrite <-Ea, (proj2 (Z.eqb_neq _ _) H0). cbn [negb]. apply wp_bind, wp_ret, wp_bind.
    eapply (wp_put S0 n Hn Hdn); [exact L1|by rewrite Hbk|]. intros s2 F2 L2 _. apply wp_ret. apply HQ; [by etrans|done].
Qed.

Context (D V : Z -> bytes) (L : list Z) (o : Z) (ip : Z) (s0 : kernel) (dst : kdst) (len : Z) (P F : list Z -> kernel -> Prop).
Abbreviation x := (inodes s0 ip).
Context (Hid : i_dev x = dev) (Hx : file_ok V x) (Hfl : filled V x) (Hsize : i_size x <= MAXFILE * BSIZE) (HL : Z.of_nat (length L) < NBUF).
Context (Hsk : sink c me n dst len P F).

(** One round copies the bytes of one block, or part of them. *)
Lemma wp_readi_block s acc off m (Q : Z * list Z -> kernel -> Prop) :
  linv D V L [] o s -> mframe s0 s -> P acc s -> 0 <= off -> 0 < m <= BSIZE - off mod BSIZE -> off + m <= i_size x ->
  Z.of_nat (length acc) + m <= len ->
  (forall s', linv D V L [] o s' -> mframe s0 s' -> P (acc ++ fbytes V x off m) s' -> Q (0, fbytes V x off m) s') ->
  (forall s' k, linv D V L [] o s' -> mframe s0 s' -> 0 <= k < m -> F (acc ++ fbytes V x off k) s' -> Q (-1, fbytes V x off m) s') ->
  wp (readi_block ip (dst_add dst (Z.of_nat (length acc))) off m) n s Q.
Proof.
  intros Hl Hf HP Ho Hm Hsz Hlen HQ HQ'. unfold readi_block, iget_. apply wp_bind, wp_gets.
  pose proof (mframe_inodes _ _ Hf) as Ei. assert (BSIZE = 1024) as EB by done.
  assert (0 <= off mod BSIZE < BSIZE) as Hmod by (apply Z.mod_pos_bound; lia).
  assert (0 <= off / BSIZE < MAXFILE) as Hbn by (apply block_range; lia).
  assert (iaddr V x (off / BSIZE) <> 0) as H0 by (apply Hfl; [lia|unfold BSIZE in *; Z.div_mod_to_equations; lia]).
  rewrite Ei, Hid. apply wp_bind. apply (wp_bmap_mapped D V L o s ip); rewrite ?Ei; try done. intros s1 F1 L1.
  destruct (fk_addr _ _ _ _ Hx (off / BSIZE)) as [?|Hu]; [done|done|].
  apply wp_bind. eapply (wp_get S0 n Hn Hdn); [exact L1|apply (ly_data _ _ _ Hly), Hu|apply no_holds|cbn; lia|].
  intros bp s2 F2 L2 _ Hbk Hda _ Hcl. unfold bget_. apply wp_bind, wp_gets. rewrite Hda, fbytes_block by lia. cbv zeta.
  set (bs := fbytes V x off m). assert (Z.of_nat (length bs) = m) as Hbs by (apply fbytes_length; lia).
  assert (lframe s s2) as F02 by by etrans. apply wp_bind. rewrite <-Hbs at 1.
  eapply wp_mono; [apply (sk_copy _ _ _ _ _ _ _ Hsk acc bs s2)|].
  { apply (sk_frame _ _ _ _ _ _ _ Hsk acc s s2); [by eapply linv_runs|done|done]. }
  { by eapply linv_runs. } { lia. } { lia. } { lia. }
  cbn beta. intros r s3 ((mm & -> & Hhon) & Hc). apply wp_bind.
  assert (linv D V L [bp] o (set_ms mm s2)) as L3 by by apply linv_ms.
  eapply (wp_put S0 n Hn Hdn); [exact L3|cbn [bufs set_ms]; by rewrite Hbk|]. intros s4 F4 L4 _. apply wp_ret.
  assert (mframe s0 s4) as Hf4.
  { etrans; [exact Hf|]. etrans; [by apply lframe_mframe|]. etrans; [apply (mframe_ms mm)|by apply lframe_mframe]. }
  pose proof (linv_runs _ _ _ _ _ _ _ L3) as R3.
  destruct Hc as [[-> HP']|(-> & k & Hk & HF)].
  - apply HQ; [done|done|]. by apply (sk_frame _ _ _ _ _ _ _ Hsk _ _ _ R3 F4).
  - apply (HQ' s4 (Z.of_nat k)); [done|done|lia|]. apply (sk_fail _ _ _ _ _ _ _ Hsk _ _ _ R3 F4).
    by rewrite <-(fbytes_take V x off m) by lia.
Qed.

(** The number of bytes [readi] delivers when nothing fails. *)
Definition avail (off want : Z) : Z := Z.min want (i_size x - off).

Context (off0 : Z) (Hoff : 0 <= off0 <= i_size x) (Hfuel : MAXFILE + 1 < Z.of_nat n).

Lemma wp_readi want (Q : Z * list Z -> kernel -> Prop) :
  0 <= want -> off0 + want < 2 ^ 32 -> avail off0 want <= len -> linv D V L [] o s0 -> P [] s0 ->
  let k := avail off0 want in
  (forall s', linv D V L [] o s' -> mframe s0 s' -> P (fbytes V x off0 k) s' -> Q (k, fbytes V x off0 k) s') ->
  (forall s' k' acc, linv D V L [] o s' -> mframe s0 s' -> 0 <= k' < k -> F (fbytes V x off0 k') s' -> Q (-1, acc) s') ->
  wp (readi ip dst off0 want) n s0 Q.
Proof.
  intros Hw Hmax Hlen Hl HP k HQ HQ'. assert (MAXFILE * BSIZE < 2 ^ 31 /\ BSIZE = 1024) as [EM EB] by done. pose proof MAXFILE_eq as EX.
  unfold readi, iget_. apply wp_bind, wp_gets. rewrite !u32_small by lia.
  rewrite (proj2 (Z.ltb_ge (i_size x) off0)), (proj2 (Z.ltb_ge (off0 + want) off0)) by lia. cbn [orb]. cbv zeta.
  assert ((if i_size x <? off0 + want then i_size x - off0 else want) = k) as ->.
  { subst k. unfold avail. destruct (Z.ltb_spec (i_size x) (off0 + want)); lia. }
  assert (0 <= k /\ off0 + k <= i_size x) as [Hk Hks] by (subst k; unfold avail; lia).
  apply (wp_loop _ (fun j l s => exists t r, l = (t, off0 + t, dst_add dst t, fbytes V x off0 t) /\ j = Z.to_nat (nblocks_of off0 k - r) /\
    0 <= t <= k /\ 0 <= r <= nblocks_of off0 k /\ (t < k -> (off0 + t) / BSIZE = off0 / BSIZE + r) /\
    linv D V L [] o s /\ mframe s0 s /\ P (fbytes V x off0 t) s)) with (k := Z.to_nat (nblocks_of off0 k)).
  2: { unfold nblocks_of, BSIZE in *. Z.div_mod_to_equations. lia. }
  2: { exists 0, 0. rewrite (sk_zero _ _ _ _ _ _ _ Hsk), Z.add_0_r, Z.sub_0_r. split_and!; try done; try lia.
       unfold nblocks_of, BSIZE in *. Z.div_mod_to_equations. lia. }
  intros j l s (t & r & -> & -> & Ht & Hr & Hround & Hl' & Hf & HP'). cbv iota beta.
  destruct (Z.ltb_spec t k) as [Hlt|Hge]; cbn [negb].
  2: { apply wp_ret. assert (t = k) as -> by lia. rewrite s32_small by lia. by apply HQ. }
  specialize (Hround Hlt). set (m := Z.min _ _). cbv zeta.
  assert (0 < m /\ t + m <= k /\ m <= BSIZE - (off0 + t) mod BSIZE) as (Hm & Htm & Hmb).
  { subst m. assert (0 <= (off0 + t) mod BSIZE < BSIZE) by (apply Z.mod_pos_bound; lia). lia. }
  assert (r + 1 <= nblocks_of off0 k) as Hr1.
  { unfold nblocks_of, BSIZE in *. Z.div_mod_to_equations. lia. }
  pose proof (fbytes_length V x off0 t ltac:(lia)) as Hacc. apply wp_bind. rewrite <-Hacc at 1.
  eapply (wp_readi_block s (fbytes V x off0 t)); try done; try lia; rewrite <-?fbytes_app by lia.
  - intros s' L' F' P'. change (0 =? -1) with false. cbv iota beta. apply wp_ret. exists (Z.to_nat (nblocks_of off0 k - (r + 1))). split; [lia|].
    exists (t + m), (r + 1). rewrite (sk_add _ _ _ _ _ _ _ Hsk) by lia. rewrite !u32_small by lia. rewrite <-Z.add_assoc.
    split_and!; try done; try lia. intros Hlt'.
    assert (m = BSIZE - (off0 + t) mod BSIZE) as -> by lia. unfold BSIZE in *. Z.div_mod_to_equations. lia.
  - intros s' k' L' F' Hk' F''. cbn [Z.eqb]. change (-1 =? -1) with true. cbv iota beta. apply wp_ret.
    rewrite <-fbytes_app in F'' by lia. by apply (HQ' s' (t + k')); [..|lia|].
Qed.

End reading.

(** [readi] into a local variable. *)
Lemma wp_readi_local {c me dev : Z} {LY : Layout} {DEV : BlockDev} {DOK : BlockDevOk c me} S0 n sb0 start D V L o ip s off want
    (Q : Z * list Z -> kernel -> Prop) :
  (Z.to_nat NBUF < n)%nat -> (dfuel < n)%nat -> layout_ok S0 sb0 start -> linv (c := c) (me := me) (dev := dev) S0 D V L [] o s ->
  i_dev (inodes s ip) = dev -> file_ok sb0 start V (inodes s ip) -> filled V (inodes s ip) ->
  i_size (inodes s ip) <= MAXFILE * BSIZE -> Z.of_nat (length L) < NBUF -> 0 <= off <= i_size (inodes s ip) -> MAXFILE + 1 < Z.of_nat n ->
  0 <= want -> off + want < 2 ^ 32 ->
  let k := Z.min want (i_size (inodes s ip) - off) in
  (forall s', lframe s s' -> linv (c := c) (me := me) (dev := dev) S0 D V L [] o s' -> Q (k, fbytes V (inodes s ip) off k) s') ->
  wp (readi ip Dlocal off want) n s Q.
Proof.
  intros Hn Hdn Hly Hl Hid Hx Hfl Hsz HL Hoff Hf Hw Hmax k HQ.
  eapply (wp_readi S0 n Hn Hdn sb0 start Hly D V L o ip s Dlocal k (unmoved s) (fun _ _ => False)); try done.
  - apply sink_local.
  - exists (hart (ms s)). by destruct s as [[]].
  - intros s' L' F' U'. apply HQ; [by eapply mframe_unmoved|done].
Qed.
