(* ===== verification/FsUser.v ===== *)
(** * Files and user memory

    [read] and [write] system calls end in [readi] and [writei] of
    [src/kernel/fs.c] with an address of user memory: the bytes of the file
    and the memory of the process, together. *)

From S2P Require Import Prelude Riscv Spinlock Str Kalloc Vm PageTable Cow Pages UserMem CopyUser PageFault Kernel Proc Sleeplock Bio Log Fs KernelWp KernelVm Ring BioProof LogProof LogOps FsBlocks FsInode FsFile FsWrite FsRead.

Section user.
Context {c me : Z} {LY : Layout} {LO : LayoutOk} (r : Z) (n : nat).

(** Process [me] has page table [r] and its memory is well formed. *)
Record has_memory (s : kernel) : Prop := {
  hm_pt : p_pagetable (procs s me) = r;
  hm_vm : exists ρ l own, cinv ρ l own (ms s) /\ uroot ρ r
}.

Lemma lframe_me s s' : runs c me [] s -> lframe s s' -> procs s' me = procs s me.
Proof. intros Hr F. apply woke_running; [by apply lframe_procs|apply Hr]. Qed.

Lemma lframe_same s s' : lframe s s' -> same_user r s s'.
Proof. intros [h E]%lframe_mem va. by rewrite E. Qed.

Lemma has_memory_lframe s s' : runs c me [] s -> lframe s s' -> has_memory s -> has_memory s'.
Proof.
  intros Hr F [Hp (ρ & l & own & Hi & Hu)]. split; [by rewrite (lframe_me s s')|].
  destruct (lframe_mem _ _ F) as [h E]. exists ρ, l, own. rewrite E. split; [by apply cinv_hart|done].
Qed.

(** Out of memory. *)
Definition no_memory (s : kernel) : Prop := exists ρ l own, cinv ρ l own (ms s) /\ (length l <= 1)%nat.

Lemma no_memory_lframe s s' : lframe s s' -> no_memory s -> no_memory s'.
Proof.
  intros [h E]%lframe_mem (ρ & l & own & Hi & Hl). exists ρ, l, own. rewrite E. split; [by apply cinv_hart|done].
Qed.

Lemma updated_lframe s0 s s' va bs : lframe s s' -> updated r s0 s va bs -> updated r s0 s' va bs.
Proof. intros F Hu a Ha. rewrite (lframe_same _ _ F a). by apply Hu. Qed.

Context (s0 : kernel) (va len : Z) (Hva : 0 <= va) (Hmax : va + len <= 2 ^ 64).

(** User memory as a destination: [acc] is at [va], the rest is the same. *)
Definition put (acc : list Z) (s : kernel) : Prop := has_memory s /\ updated r s0 s va acc.

(** A copy fails at an address user code cannot write, or when a page that is
    shared copy-on-write cannot be copied. *)
Definition unput (acc : list Z) (s : kernel) : Prop :=
  has_memory s /\ updated r s0 s va acc /\ (faults (ms s0) r (va + Z.of_nat (length acc)) \/ no_memory s).

(** The byte after those written is as it was. *)
Lemma updated_faults s acc k :
  0 <= k -> updated r s0 s va acc -> faults (ms s) r (va + Z.of_nat (length acc) + k) -> faults (ms s0) r (va + Z.of_nat (length acc) + k).
Proof.
  intros Hk Hu [?|Hf]; [by left|]. destruct (decide (MAXVA <= va + Z.of_nat (length acc) + k)); [by left|]. right.
  rewrite <-Hf. rewrite Hu by lia. by rewrite decide_False by lia.
Qed.

Lemma sink_user : 2 < Z.of_nat n -> 0 <= len -> va < 2 ^ 64 -> sink c me n (Duser va) len put unput.
Proof.
  intros Hn Hlen Hva2. split.
  - cbn. by rewrite Z.add_0_r, u64_small by lia.
  - intros a b Ha Hb. cbn. f_equal. unfold u64. rewrite Z.add_mod_idemp_l by lia. f_equal. lia.
  - intros acc s s' Hr F [Hm Hu]. split; [by eapply has_memory_lframe|by eapply updated_lframe].
  - intros acc s s' Hr F (Hm & Hu & Hc). split; [by eapply has_memory_lframe|]. split; [by eapply updated_lframe|].
    destruct Hc; [by left|right; by eapply no_memory_lframe].
  - intros acc bs s [[Hp (ρ & l & own & Hi & Hr)] Hu] [Hh Hme _ _] Hbs HB Hl.
    unfold either_copyout, deref, pget. apply wp_bind. eapply wp_myproc; [exact Hh|]. intros h Hh'. rewrite Hme. cbn [dst_add].
    apply wp_bind, wp_ret, wp_bind, wp_gets. cbn [procs hk set_ms]. rewrite Hp, u64_small by lia.
    apply (wp_kcopyout (c := c) ρ l own _ r _ bs n []); try done; [|by apply cinv_hart|apply not_elem_of_nil|apply not_elem_of_nil|lia|].
    { change BSIZE with 1024 in HB. unfold PGSIZE. Z.div_mod_to_equations. lia. }
    intros res m ρ' l' own' k Hi' Hhm Hw Hc. split; [by exists m|].
    assert (has_memory (set_ms m (hk h s))) as Hm'.
    { split; [done|]. exists ρ', l', own'. split; [done|]. by apply (wr_roots _ _ _ _ _ _ _ Hw). }
    assert (updated r s0 (hk h s) va acc) as Hu1 by exact Hu.
    pose proof (updated_app r s0 (hk h s) va acc m ρ ρ' (take k bs) Hu1 Hr Hw) as Hu'.
    destruct Hc as [[-> ->]|(-> & Hk & Hf)].
    + left. split; [done|]. split; [done|]. by rewrite take_ge in Hu' by lia.
    + right. split; [done|]. exists k. split; [done|]. split; [done|]. split; [done|].
      destruct Hf as [Hf|Hf]; [right; by exists ρ', l', own'|]. left.
      rewrite length_app, length_take_le, Nat2Z.inj_add, Z.add_assoc by lia. by apply (updated_faults (hk h s)); [lia|..].
Qed.

(** User memory as a source. *)
Lemma gives_user data :
  2 < Z.of_nat n -> va < 2 ^ 64 -> runs c me [] s0 -> has_memory s0 -> Z.of_nat (length data) <= BSIZE * (Z.of_nat n - 3) ->
  reads (ms s0) r va data -> gives (c := c) (me := me) n (Suser va) data s0.
Proof.
  intros Hn Hva2 Hr0 Hm Hlen Hrd. split; [cbn; by rewrite Z.add_0_r, u64_small by lia|].
  intros k m s' [I F] [Hh Hme _ _] Hk Hm0 Hkm.
  assert (has_memory s') as [Hp (ρ & l & own & Hi & Hr)].
  { eapply has_memory_lframe; [|exact F|]; [by destruct Hr0; split|by destruct Hm; split]. }
  assert (same_user r s0 s') as Hs by (intros a; by rewrite (lframe_same _ _ F a)).
  assert (forall i, 0 <= i < Z.of_nat (length data) -> va + i < MAXVA /\ ubyte (ms s') r (va + i) = Some (data !!! Z.to_nat i)) as Hat.
  { intros i Hir. destruct (Hrd (Z.to_nat i) (data !!! Z.to_nat i)) as [H1 H2].
    { by apply list_lookup_lookup_total_lt; lia. }
    rewrite Z2Nat.id in H1, H2 by lia. split; [done|]. by rewrite Hs. }
  assert (va + Z.of_nat (length data) <= MAXVA) as HM by (destruct (Hat (Z.of_nat (length data) - 1)); lia).
  assert (MAXVA < 2 ^ 64) as HM2 by done.
  unfold either_copyin, deref, pget. apply wp_bind. eapply wp_myproc; [exact Hh|]. intros h Hh'. rewrite Hme. cbn [src_add].
  apply wp_bind, wp_ret, wp_bind, wp_gets. cbn [procs hk set_ms]. rewrite Hp, u64_small by lia.
  apply (wp_kcopyin ρ l own); try done; [|by apply cinv_hart|lia|lia|].
  { unfold BSIZE, PGSIZE in *. Z.div_mod_to_equations. lia. }
  intros res bs Hbs [[-> Hl]|(-> & Hl & Hf)].
  - split; [|by exists h]. f_equal. apply list_eq_same_length with (n := Z.to_nat m); [pose proof (slice_length data k m); lia|lia|].
    intros i a b Hi' Ha Hb. destruct (Hbs i a Ha) as [_ E1]. change (ubyte (ms (hk h s')) r) with (ubyte (ms s') r) in E1.
    rewrite <-Z.add_assoc in E1. rewrite (proj2 (Hat (k + Z.of_nat i) ltac:(lia))) in E1. injection E1 as <-.
    rewrite <-(list_lookup_total_correct _ _ _ Hb), <-(Nat2Z.id i), slice_lookup by lia. f_equal. lia.
  - exfalso. destruct (Hat (k + Z.of_nat (length bs)) ltac:(lia)) as [H1 H2].
    rewrite <-Z.add_assoc in Hf. destruct Hf as [?|Hf]; [lia|]. change (ubyte (ms (hk h s')) r) with (ubyte (ms s') r) in Hf. congruence.
Qed.

End user.

Section files.
Context {c me dev : Z} {LY : Layout} {LO : LayoutOk} {DEV : BlockDev} {DOK : BlockDevOk c me}.
Context (S0 : Z) (Hdev : 0 <= dev < 2 ^ 31) (HS0 : 0 <= S0 /\ S0 + LOGSIZE < 2 ^ 31).
Context (n : nat) (Hn : (Z.to_nat NBUF < n)%nat) (Hdn : (dfuel < n)%nat) (Hfuel : MAXFILE + 1 < Z.of_nat n).
Context (sb0 : superblock) (start : Z) (Hly : layout_ok S0 sb0 start).
Context (D : Z -> bytes) (o ip r va : Z).

Abbreviation linv := (linv (c := c) (me := me) (dev := dev) S0).
Abbreviation file_ok := (file_ok sb0 start).
Abbreviation has_memory := (has_memory (me := me) r).

(** What [readi] has done to user memory when it returns [res]. *)
Definition delivered (V : Z -> bytes) (x : inode) (s0 : kernel) (off k res : Z) (s' : kernel) : Prop :=
  (res = k /\ updated r s0 s' va (fbytes V x off k)) \/
  (res = -1 /\ exists k', 0 <= k' < k /\ updated r s0 s' va (fbytes V x off k') /\ (faults (ms s0) r (va + k') \/ no_memory s')).

Lemma wp_readi_user V L s0 s off want (Q : Z * list Z -> kernel -> Prop) :
  linv D V L [] o s -> Z.of_nat (length L) < NBUF -> has_memory s -> same_user r s0 s ->
  i_dev (inodes s ip) = dev -> file_ok V (inodes s ip) -> filled V (inodes s ip) ->
  0 <= off <= i_size (inodes s ip) -> i_size (inodes s ip) <= MAXFILE * BSIZE -> 0 <= want -> off + want < 2 ^ 32 ->
  0 <= va < 2 ^ 64 -> va + want <= 2 ^ 64 ->
  (forall res bs s', linv D V L [] o s' -> mframe s s' -> has_memory s' ->
     delivered V (inodes s ip) s0 off (avail ip s off want) res s' -> Q (res, bs) s') ->
  wp (readi ip (Duser va) off want) n s Q.
Proof.
  intros Hl HL Hm Hsame Hid Hx Hfl Hoff Hsz Hw Hmax Hva Hva2 HQ. set (k := avail ip s off want).
  assert (k <= want) as Hk by (subst k; unfold avail; lia).
  eapply (wp_readi S0 n Hn Hdn sb0 start Hly D V L o ip s (Duser va) want (put (me := me) r s0 va) (unput (me := me) r s0 va)); try done.
  - pose proof MAXFILE_eq. apply sink_user; lia.
  - split; [done|]. by apply updated_nil.
  - intros s' L' F' [M' U']. apply HQ; try done. by left.
  - intros s' k' acc L' F' Hk' (M' & U' & Hc). apply HQ; try done. right. split; [done|]. exists k'.
    rewrite fbytes_length in Hc by lia. done.
Qed.

End files.

(** C11: [readi] reads: for a well-formed file it puts the bytes of the file from
    [off] on into the memory of the process, as many as were asked for or are
    left before the end, returns their number and changes nothing else of the
    process's memory and nothing of the file system. It returns -1 only after
    an address that user code could not write to, or when a page shared
    copy-on-write could not be copied for want of memory, and then the bytes
    before it have been copied. *)
Theorem readi_reads {c me dev : Z} {LY : Layout} {LO : LayoutOk} {DEV : BlockDev} {DOK : BlockDevOk c me}
    S0 n sb0 start D V L o ip r va s0 off want :
  (Z.to_nat NBUF < n)%nat -> (dfuel < n)%nat -> MAXFILE + 1 < Z.of_nat n -> layout_ok S0 sb0 start ->
  linv (c := c) (me := me) (dev := dev) S0 D V L [] o s0 -> Z.of_nat (length L) < NBUF -> has_memory (me := me) r s0 ->
  let x := inodes s0 ip in
  i_dev x = dev -> file_ok sb0 start V x -> filled V x -> 0 <= off <= i_size x -> i_size x <= MAXFILE * BSIZE ->
  0 <= want -> off + want < 2 ^ 32 -> 0 <= va < 2 ^ 64 -> va + want <= 2 ^ 64 ->
  exists res bs s', readi ip (Duser va) off want n s0 = Ret (res, bs) s' /\
    linv (c := c) (me := me) (dev := dev) S0 D V L [] o s' /\ inodes s' = inodes s0 /\ has_memory (me := me) r s' /\
    delivered r va V x s0 off (Z.min want (i_size x - off)) res s'.
Proof.
  intros Hn Hdn Hfuel Hly Hl HL Hm x Hid Hx Hfl Hoff Hsz Hw Hmax Hva Hva2.
  assert (wp (readi ip (Duser va) off want) n s0 (fun rb s' =>
    linv (c := c) (me := me) (dev := dev) S0 D V L [] o s' /\ inodes s' = inodes s0 /\ has_memory (me := me) r s' /\
    delivered r va V x s0 off (Z.min want (i_size x - off)) (fst rb) s')) as ([res bs] & s' & E & HQ)%wp_elim; [|by exists res, bs, s'].
  eapply (wp_readi_user S0 n Hn Hdn Hfuel sb0 start Hly D o ip r va V L s0 s0); try done.
  intros res bs s' L' F' M' U'. split; [done|]. split; [by apply mframe_inodes|]. done.
Qed.

(** C22: What [writei] puts into a file [readi] gets out of it: a read of the
    range just written returns the number of bytes, and the memory of the
    process then has these bytes at the address given, or the read fails for
    one of the two reasons it can. *)
Theorem writei_readi {c me dev : Z} {LY : Layout} {LO : LayoutOk} {DEV : BlockDev} {DOK : BlockDevOk c me}
    S0 n sb0 start D V0 L0 o ip r va s0 src data off :
  0 <= dev < 2 ^ 31 -> 0 <= S0 /\ S0 + LOGSIZE < 2 ^ 31 -> (Z.to_nat NBUF < n)%nat -> (dfuel < n)%nat -> MAXFILE + 1 < Z.of_nat n ->
  layout_ok S0 sb0 start -> sb_size sb0 < Z.of_nat n -> sb s0 = sb0 -> 1 <= o ->
  linv (c := c) (me := me) (dev := dev) S0 D V0 L0 [] o s0 -> has_memory (me := me) r s0 ->
  let x0 := inodes s0 ip in let len := Z.of_nat (length data) in
  i_dev x0 = dev -> reserved sb0 start V0 -> file_ok sb0 start V0 x0 -> inode_typed x0 -> filled V0 x0 ->
  inode_block S0 sb0 start (iblock sb0 (i_inum x0)) ->
  0 <= off <= i_size x0 -> i_size x0 <= MAXFILE * BSIZE -> off + len <= MAXFILE * BSIZE ->
  gives (c := c) (me := me) n src data s0 -> pot L0 x0 + 2 * nblocks_of off len <= LOGSIZE - 3 -> nblocks_of off len <= ndebt sb0 V0 x0 ->
  0 <= va < 2 ^ 64 -> va + len <= 2 ^ 64 ->
  exists res s', (w ← writei ip src off len; g ← readi ip (Duser va) off len; mret (w, fst g)) n s0 = Ret (len, res) s' /\
    ((res = len /\ updated r s0 s' va data) \/
     (res = -1 /\ exists k, 0 <= k < len /\ (faults (ms s0) r (va + k) \/ no_memory s'))).
Proof.
  intros Hdev HS0 Hn Hdn Hfuel Hly Hf2 Hsb Ho Hl Hm x0 len Hid Hr Hx Ht Hfl Hib Hoff Hbig Hmax Hg Hlog Hroom Hva Hva2.
  assert (NBUF = 30 /\ LOGSIZE = 30 /\ MAXFILE * BSIZE < 2 ^ 31) as (EN & EL & EM) by done.
  assert (wp (w ← writei ip src off len; g ← readi ip (Duser va) off len; mret (w, fst g)) n s0 (fun p s' => fst p = len /\
    ((snd p = len /\ updated r s0 s' va data) \/
     (snd p = -1 /\ exists k, 0 <= k < len /\ (faults (ms s0) r (va + k) \/ no_memory s')))))
    as ([w g] & s' & E & Ew & HQ)%wp_elim; [|cbn in Ew; subst w; by exists g, s'].
  apply wp_bind. eapply (wp_writei S0 Hdev HS0 n Hn Hdn sb0 start Hly Hf2 D o Ho ip V0 L0 s0 src data off); try done; [lia|apply Hoff|].
  intros s1 V1 x1 L1 I1 F1 W1 _ HL1. pose proof (lframe_inodes _ _ F1) as Ei.
  assert (inodes s1 ip = x1) as Ex by (rewrite Ei; apply put_inode_at).
  pose proof (fw_size _ _ _ _ _ _ _ _ _ W1) as Hs1. pose proof (fw_same _ _ _ _ _ _ _ _ _ W1) as Hx1.
  pose proof (linv_runs _ _ _ _ _ _ _ Hl) as R0.
  apply wp_bind. eapply (wp_readi_user S0 n Hn Hdn Hfuel sb0 start Hly D o ip r va V1 L1 s0 s1); rewrite ?Ex; try done; try lia.
  - subst x0 len. lia.
  - eapply has_memory_lframe; [|exact F1|by destruct Hm; split]. by destruct R0; split.
  - intros a. by rewrite (lframe_same r _ _ F1 a).
  - rewrite Hx1. exact Hid.
  - apply W1.
  - apply W1.
  - subst x0 len. lia.
  - intros res bs s' _ _ _ Hd. apply wp_ret. split; [done|]. cbn [fst snd].
    assert (avail ip s1 off len = len) as Ea by (unfold avail; rewrite Ex; lia). rewrite Ea in Hd.
    destruct Hd as [[-> Hu]|(-> & k' & Hk' & _ & Hc)]; [left|right; split; [done|]; by exists k'].
    split; [done|]. subst len. by rewrite (written_fbytes _ _ _ _ _ _ _ _ _ (proj1 Hoff) W1) in Hu.
Qed.
