(* ===== verification/FsDir.v ===== *)
(** * The inode table and directories

    [iget], [dirlookup] and [dirlink] of [src/kernel/fs.c]: a table with one
    entry for each inode in use, and directories as finite maps from names to
    inode numbers. *)

From stdpp Require Import gmap.
From S2P Require Import Prelude Riscv Spinlock Str Kalloc Kernel Proc Sleeplock Bio Log Fs KernelWp Ring BioProof LogProof LogOps FsBlocks FsInode FsFile FsWrite FsRead.

(** ** The table of inodes *)

(** Entry [ip] is in use for inode [inum]. *)
Definition live (I : Z -> inode) (dev inum ip : Z) : Prop :=
  0 <= ip < NINODE /\ 0 < i_ref (I ip) /\ i_dev (I ip) = dev /\ i_inum (I ip) = inum.

#[global] Instance live_dec I dev inum ip : Decision (live I dev inum ip).
Proof. unfold live. apply _. Defined.

(** No inode has two entries. *)
Definition itable_ok (I : Z -> inode) : Prop :=
  (forall i, 0 <= i < NINODE -> 0 <= i_ref (I i)) /\
  forall dev inum i j, live I dev inum i -> live I dev inum j -> i = j.

Definition fresh (dev inum : Z) (x : inode) : inode := set_i_valid 0 (set_i_ref 1 (set_i_inum inum (set_i_dev dev x))).

(** What [iget] does: count the entry the inode has, or take the first that is
    not in use. *)
Inductive got (I : Z -> inode) (dev inum ip : Z) : (Z -> inode) -> Prop :=
| got_cached :
    live I dev inum ip -> (forall j, 0 <= j < ip -> ~ live I dev inum j) ->
    got I dev inum ip (<[ip := set_i_ref (i_ref (I ip) + 1) (I ip)]> I)
| got_new :
    (forall j, ~ live I dev inum j) -> 0 <= ip < NINODE -> i_ref (I ip) = 0 -> (forall j, 0 <= j < ip -> i_ref (I j) <> 0) ->
    got I dev inum ip (<[ip := fresh dev inum (I ip)]> I).

Lemma live_insert I dev inum ip y j :
  live (<[ip := y]> I) dev inum j <->
  0 <= j < NINODE /\ if decide (j = ip) then 0 < i_ref y /\ i_dev y = dev /\ i_inum y = inum else live I dev inum j.
Proof.
  unfold live. rewrite fn_insert_spec. destruct (decide (ip = j)) as [->|Hne].
  - by rewrite decide_True.
  - rewrite decide_False by congruence. tauto.
Qed.

Lemma got_live I dev inum ip I' : got I dev inum ip I' -> live I' dev inum ip.
Proof.
  destruct 1 as [[Hr (H1 & H2 & H3)] _|_ Hr _ _]; apply live_insert; split; try done; rewrite decide_True by done; cbn; [lia|done].
Qed.

Lemma got_ok I dev inum ip I' : itable_ok I -> got I dev inum ip I' -> itable_ok I'.
Proof.
  intros [Hp Hu] Hg. split.
  - intros i Hi. specialize (Hp i Hi). destruct Hg as [[_ [H1 _]] _|_ _ _ _]; rewrite fn_insert_spec; destruct (decide (ip = i)); cbn; lia.
  - intros d m i j Hi Hj. destruct Hg as [Hl _|Hn Hr H0 _]; apply live_insert in Hi as [Hir Hi], Hj as [Hjr Hj].
    + assert (forall k, 0 <= k < NINODE -> (if decide (k = ip) then 0 < i_ref (set_i_ref (i_ref (I ip) + 1) (I ip)) /\
        i_dev (set_i_ref (i_ref (I ip) + 1) (I ip)) = d /\ i_inum (set_i_ref (i_ref (I ip) + 1) (I ip)) = m else live I d m k) -> live I d m k) as Hk.
      { intros k Hk. destruct (decide (k = ip)) as [->|]; [|done]. cbn. intros (_ & E1 & E2). destruct Hl as (H1 & H2 & _). done. }
      by eapply Hu; apply Hk.
    + destruct (decide (i = ip)) as [->|Hi'], (decide (j = ip)) as [->|Hj']; [done|..|by eapply Hu].
      * exfalso. destruct Hi as (_ & E1 & E2). cbn in E1, E2. subst d m. by eapply Hn.
      * exfalso. destruct Hj as (_ & E1 & E2). cbn in E1, E2. subst d m. by eapply Hn.
Qed.

Section iget.
Context {c : Z} (n : nat) (Hn : (0 < n)%nat).

(** The first entry not in use, of those before [k]. *)
Definition first_unused (I : Z -> inode) (k : Z) (e : option Z) : Prop :=
  match e with
  | None => forall j, 0 <= j < k -> i_ref (I j) <> 0
  | Some ip => 0 <= ip < k /\ i_ref (I ip) = 0 /\ forall j, 0 <= j < ip -> i_ref (I j) <> 0
  end.

Lemma wp_iget s dev inum (Q : Z -> kernel -> Prop) :
  hon c [] (khart s) -> (exists j, 0 <= j < NINODE /\ (i_ref (inodes s j) = 0 \/ live (inodes s) dev inum j)) ->
  (forall ip I' h, got (inodes s) dev inum ip I' -> hon c [] h -> Q ip (hk h (set_inodes I' s))) ->
  wp (iget dev inum) n s Q.
Proof.
  intros Hh (j0 & Hj0 & Hroom) HQ. set (I := inodes s) in *. unfold iget.
  apply wp_bind. eapply wp_lock; [done|exact Hh|apply not_elem_of_nil|]. intros h1 H1. apply wp_bind.
  apply (wp_forl (fun k e s' => s' = hk h1 s /\ first_unused I k e /\ forall j, 0 <= j < k -> ~ live I dev inum j)).
  - split; [done|]. split; intros j Hj; lia.
  - intros ip e s' Hip (-> & He & Hno). unfold iget_, iset. apply wp_bind, wp_gets. cbn [inodes hk set_ms]. fold I.
    destruct ((0 <? i_ref (I ip)) && (i_dev (I ip) =? dev) && (i_inum (I ip) =? inum)) eqn:Et.
    + assert (live I dev inum ip) as Hl by (split; [unfold NINODE in *; lia|]; split_and!; lia).
      apply wp_bind, wp_modify, wp_bind. eapply wp_unlock; [exact H1|]. intros h2 H2. do 2 apply wp_ret.
      apply (HQ ip _ h2); [|done]. apply got_cached; [done|exact Hno].
    + apply wp_ret. split; [done|]. split.
      * destruct e as [e|]; cbn in *; [destruct He as (? & ? & ?); split; [lia|done]|].
        destruct (Z.eqb_spec (i_ref (I ip)) 0) as [E0|E0]; cbn; [split; [lia|done]|].
        intros j Hj. destruct (decide (j = ip)) as [->|]; [done|apply He; lia].
      * intros j Hj (_ & L1 & L2 & L3). destruct (decide (j = ip)) as [->|]; [lia|]. apply (Hno j); [lia|].
        split; [unfold NINODE in *; lia|done].
  - intros e s' (-> & He & Hno). change (0 + Z.of_nat (Z.to_nat NINODE)) with NINODE in *.
    assert (forall j, ~ live I dev inum j) as Hnone by (intros j Hl; by apply (Hno j); [apply Hl|]).
    destruct e as [ip|].
    + unfold iset. do 4 apply wp_bind, wp_modify. rewrite !upd_put_inode, !put_inode_twice, !put_inode_at.
      apply wp_bind. eapply wp_unlock; [exact H1|]. intros h2 H2. apply wp_ret. destruct He as (Hr & H0 & Hf).
      apply (HQ ip _ h2); [|done]. by apply got_new.
    + exfalso. destruct Hroom as [E|Hl]; [by apply (He j0)|by apply (Hnone j0)].
Qed.

End iget.

(** C26: [iget] keeps one entry for each inode: in a table without duplicates,
    and with an entry free or the inode present, it returns an entry for the
    inode, counts one more reference to it, leaves the others alone, and the
    table is without duplicates again, so that locking the entry locks the
    inode. *)
Theorem iget_unique {c : Z} n s dev inum :
  (0 < n)%nat -> hon c [] (khart s) -> itable_ok (inodes s) ->
  (exists j, 0 <= j < NINODE /\ (i_ref (inodes s j) = 0 \/ live (inodes s) dev inum j)) ->
  exists ip s', iget dev inum n s = Ret ip s' /\ itable_ok (inodes s') /\ live (inodes s') dev inum ip /\
    (forall j, live (inodes s') dev inum j -> j = ip) /\
    i_ref (inodes s' ip) = (if decide (live (inodes s) dev inum ip) then i_ref (inodes s ip) else 0) + 1 /\
    (forall j, j <> ip -> inodes s' j = inodes s j).
Proof.
  intros Hn Hh Hok Hroom.
  assert (wp (iget dev inum) n s (fun ip s' => got (inodes s) dev inum ip (inodes s'))) as (ip & s' & E & Hg)%wp_elim.
  { by eapply wp_iget. }
  pose proof (got_ok _ _ _ _ _ Hok Hg) as Hok'. pose proof (got_live _ _ _ _ _ Hg) as Hl.
  exists ip, s'. split_and!; try done.
  - intros j Hj. by eapply (proj2 Hok').
  - destruct Hg as [Hc _|Hnone _ _ _]; rewrite fn_lookup_insert; [by rewrite decide_True|by rewrite decide_False by apply Hnone].
  - intros j Hj. destruct Hg; by apply fn_insert_ne.
Qed.

(** ** Directories as maps *)

(** Entry [i] of the directory. *)
Definition dent (V : Z -> bytes) (x : inode) (i : Z) : list Z := fbytes V x (sizeof_dirent * i) sizeof_dirent.

(** A name as [namecmp] sees it. *)
Definition dname (name : bytes) : list Z := strn name 0 (Z.to_nat DIRSIZ).

Definition dir_entry (de : list Z) : option (list Z * Z) :=
  if de_inum de =? 0 then None else Some (dname (de_name de), de_inum de).

Definition dir_from (V : Z -> bytes) (x : inode) (i k : Z) : list (list Z * Z) :=
  omap (fun j => dir_entry (dent V x j)) (seqZ i k).

(** The names of the directory and the inodes they stand for. *)
Definition dir_map (V : Z -> bytes) (x : inode) : gmap (list Z) Z :=
  list_to_map (dir_from V x 0 (i_size x / sizeof_dirent)).

Record dir_ok (V : Z -> bytes) (x : inode) : Prop := {
  dk_type : i_type x = T_DIR;
  dk_size : 0 <= i_size x <= MAXFILE * BSIZE;
  dk_whole : i_size x mod sizeof_dirent = 0;
  dk_bytes : forall i, 0 <= i < i_size x -> 0 <= fbyte V x i < 256
}.

Lemma dir_from_add V x i k m : 0 <= k -> 0 <= m -> dir_from V x i (k + m) = dir_from V x i k ++ dir_from V x (i + k) m.
Proof. intros Hk Hm. unfold dir_from. by rewrite seqZ_app, omap_app by lia. Qed.

Lemma dir_from_cons V x i k :
  0 < k -> dir_from V x i k = match dir_entry (dent V x i) with Some e => e :: dir_from V x (i + 1) (k - 1) | None => dir_from V x (i + 1) (k - 1) end.
Proof. intros Hk. unfold dir_from. rewrite seqZ_cons by lia. replace (Z.succ i) with (i + 1) by lia. by replace (Z.pred k) with (k - 1) by lia. Qed.

Lemma namecmp_eq name de :
  (forall k, 0 <= name k < 256) -> (forall b, b ∈ de -> 0 <= b < 256) ->
  namecmp name (de_name de) = 0 <-> dname name = dname (de_name de).
Proof.
  intros Hn Hd. apply strncmp_loop_0; [done|]. intros k. unfold de_name. rewrite list_lookup_total_alt.
  destruct (de !! Z.to_nat (2 + k)) as [b|] eqn:E; cbn; [|lia]. apply Hd. by eapply list_elem_of_lookup_2.
Qed.

Section dirs.
Context {c me dev : Z} {LY : Layout} {DEV : BlockDev} {DOK : BlockDevOk c me}.
Context (S0 : Z) (n : nat) (Hn : (Z.to_nat NBUF < n)%nat) (Hdn : (dfuel < n)%nat) (Hfuel : MAXFILE + 1 < Z.of_nat n).
Context (sb0 : superblock) (start : Z) (Hly : layout_ok S0 sb0 start).

Abbreviation linv := (linv (c := c) (me := me) (dev := dev) S0).

(** A directory [dp] of the disk [V], open in the state [s]. *)
Record open_dir (D V : Z -> bytes) (L : list Z) (o dp : Z) (s : kernel) : Prop := {
  op_linv : linv D V L [] o s;
  op_log : Z.of_nat (length L) < NBUF;
  op_dev : i_dev (inodes s dp) = dev;
  op_file : file_ok sb0 start V (inodes s dp);
  op_filled : filled V (inodes s dp);
  op_dir : dir_ok V (inodes s dp);
  op_fuel : i_size (inodes s dp) / sizeof_dirent < Z.of_nat n
}.

Lemma open_dir_lframe D V L o dp s s' : open_dir D V L o dp s -> lframe s s' -> linv D V L [] o s' -> open_dir D V L o dp s'.
Proof. intros [] F Hl. pose proof (lframe_inodes _ _ F) as E. by split; rewrite ?E. Qed.

Lemma dent_bytes V x i b : dir_ok V x -> 0 <= i < i_size x / sizeof_dirent -> b ∈ dent V x i -> 0 <= b < 256.
Proof.
  intros [_ _ Hw Hb] Hi. unfold dent, fbytes. intros (j & -> & Hj)%list_elem_of_fmap. apply elem_of_seqZ in Hj. apply Hb.
  unfold sizeof_dirent in *. Z.div_mod_to_equations. lia.
Qed.

(** Reading entry [i]. *)
Lemma wp_read_entry D V L o dp s i (Q : Z * list Z -> kernel -> Prop) :
  open_dir D V L o dp s -> 0 <= i < i_size (inodes s dp) / sizeof_dirent ->
  (forall s', lframe s s' -> open_dir D V L o dp s' -> Q (sizeof_dirent, dent V (inodes s dp) i) s') ->
  wp (readi dp Dlocal (sizeof_dirent * i) sizeof_dirent) n s Q.
Proof.
  intros Ho Hi HQ. pose proof Ho as [Hl HL Hid Hx Hfl [_ Hsz Hw _] _]. assert (MAXFILE * BSIZE < 2 ^ 31) as EM by done.
  assert (sizeof_dirent * i + sizeof_dirent <= i_size (inodes s dp)) as Hin by (unfold sizeof_dirent in *; Z.div_mod_to_equations; lia).
  assert (0 <= sizeof_dirent * i /\ sizeof_dirent = 16) as [Hp ES] by (unfold sizeof_dirent in *; lia).
  assert (Z.min sizeof_dirent (i_size (inodes s dp) - sizeof_dirent * i) = sizeof_dirent) as Ek by lia.
  eapply (wp_readi_local S0 n sb0 start D V L o dp); try done; try lia. rewrite Ek. intros s' F' L'. apply HQ; [done|].
  by eapply open_dir_lframe.
Qed.

(** The state of a search that has reached entry [i] without success. *)
Definition searching (D V : Z -> bytes) (L : list Z) (o dp : Z) (s0 : kernel) (i : Z) (s : kernel) : Prop :=
  open_dir D V L o dp s /\ lframe s0 s /\ 0 <= i <= i_size (inodes s0 dp) / sizeof_dirent.

Lemma wp_dirlookup D V L o dp s name (Q : option (Z * Z) -> kernel -> Prop) :
  open_dir D V L o dp s -> (forall k, 0 <= name k < 256) ->
  let x := inodes s dp in
  (forall inum, dir_map V x !! dname name = Some inum -> exists j, 0 <= j < NINODE /\ (i_ref (inodes s j) = 0 \/ live (inodes s) dev inum j)) ->
  (forall s', lframe s s' -> linv D V L [] o s' -> dir_map V x !! dname name = None -> Q None s') ->
  (forall i ip I' s', 0 <= i < i_size x / sizeof_dirent -> dir_map V x !! dname name = Some (de_inum (dent V x i)) ->
     dname (de_name (dent V x i)) = dname name -> got (inodes s) dev (de_inum (dent V x i)) ip I' ->
     lframe (set_inodes I' s) s' -> linv D V L [] o s' -> Q (Some (ip, sizeof_dirent * i)) s') ->
  wp (dirlookup dp name) n s Q.
Proof.
  intros Ho Hnm x Hroom HQ0 HQ1. pose proof Ho as [_ _ _ _ _ [Ht Hsz Hw _] Hf]. assert (MAXFILE * BSIZE < 2 ^ 31) as EM by done.
  assert (sizeof_dirent = 16) as ES by done. fold x in Hsz, Hf, Hw. set (k := i_size x / sizeof_dirent) in *.
  assert (0 <= k /\ sizeof_dirent * k = i_size x) as [Hk Ek] by (subst k; unfold sizeof_dirent in *; Z.div_mod_to_equations; lia).
  unfold dirlookup, iget_. apply wp_bind, wp_gets. rewrite Ht. cbn [Z.eqb negb].
  apply (wp_loop _ (fun j off s' => exists i, off = sizeof_dirent * i /\ j = Z.to_nat (k - i) /\ searching D V L o dp s i s' /\
    list_to_map (M := gmap _ _) (dir_from V x 0 i) !! dname name = None)) with (k := Z.to_nat k).
  2: { lia. }
  2: { exists 0. split; [done|]. split; [by rewrite Z.sub_0_r|]. split; [|done]. split; [done|]. split; [done|]. fold x k. lia. }
  intros j off s' (i & -> & -> & (Ho' & F & Hi) & Hnone). fold x k in Hi. apply wp_bind, wp_gets.
  pose proof (lframe_inodes _ _ F) as Ei. rewrite Ei. fold x.
  destruct (Z.ltb_spec (sizeof_dirent * i) (i_size x)) as [Hlt|Hge]; cbn [negb].
  2: { apply wp_ret, HQ0; [done|apply Ho'|]. assert (i = k) as -> by lia. done. }
  assert (0 <= i < k) as Hik by lia.
  apply wp_bind. eapply wp_read_entry; [exact Ho'|rewrite Ei; exact Hik|]. rewrite Ei. fold x. intros s2 F2 Ho2. cbv iota beta.
  assert (lframe s s2) as F02 by by etrans. rewrite Z.eqb_refl. cbn [negb]. set (de := dent V x i) in *.
  assert ((forall m, dir_entry de = Some m -> fst m <> dname name) ->
    exists i', u32 (sizeof_dirent * i + sizeof_dirent) = sizeof_dirent * i' /\ i' = i + 1 /\ searching D V L o dp s i' s2 /\
      list_to_map (M := gmap _ _) (dir_from V x 0 i') !! dname name = None) as Hnext.
  { intros Hde. exists (i + 1). rewrite u32_small by lia. split; [lia|]. split; [done|]. split; [split; [done|split; [done|fold x k; lia]]|].
    rewrite dir_from_add by lia. rewrite list_to_map_app. apply lookup_union_None. split; [done|]. rewrite dir_from_cons, Z.add_0_l by lia. fold de.
    change (dir_from V x (i + 1) (1 - 1)) with (@nil (list Z * Z)).
    destruct (dir_entry de) as [[nm v]|]; [|done]. cbn [list_to_map foldr]. rewrite lookup_insert_ne; [done|]. by apply (Hde _ eq_refl). }
  destruct (Z.eqb_spec (de_inum de) 0) as [H0|H0].
  { apply wp_ret. destruct Hnext as (i' & E1 & -> & Hs' & Hn'); [by unfold dir_entry; rewrite H0|].
    exists (Z.to_nat (k - (i + 1))). split; [lia|]. by exists (i + 1). }
  assert (dir_entry de = Some (dname (de_name de), de_inum de)) as Ede by (unfold dir_entry; by rewrite (proj2 (Z.eqb_neq _ _) H0)).
  assert (namecmp name (de_name de) = 0 <-> dname name = dname (de_name de)) as Hcmp.
  { apply namecmp_eq; [done|]. intros b. apply dent_bytes; [apply Ho|done]. }
  destruct (Z.eqb_spec (namecmp name (de_name de)) 0) as [Hc|Hc].
  2: { apply wp_ret. destruct Hnext as (i' & E1 & -> & Hs' & Hn').
       { rewrite Ede. intros m [= <-] E. apply Hc, Hcmp. done. }
       exists (Z.to_nat (k - (i + 1))). split; [lia|]. by exists (i + 1). }
  apply Hcmp in Hc. apply wp_bind, wp_gets. pose proof (op_dev _ _ _ _ _ _ Ho2) as Hd2. rewrite Hd2.
  pose proof (lframe_inodes _ _ F02) as Ei2. pose proof (op_linv _ _ _ _ _ _ Ho2) as L2.
  assert (dir_map V x !! dname name = Some (de_inum de)) as Hfound.
  { unfold dir_map. fold k. replace k with (i + (k - i)) by lia. rewrite dir_from_add by lia. rewrite list_to_map_app.
    rewrite lookup_union_r by done. rewrite dir_from_cons, Z.add_0_l by lia. fold de. rewrite Ede. cbn [list_to_map foldr]. rewrite Hc. apply lookup_insert_eq. }
  apply wp_bind. eapply (wp_iget (c := c)); [lia|apply (linv_runs _ _ _ _ _ _ _ L2)|rewrite Ei2; by apply Hroom|]. rewrite Ei2.
  intros ip I' h Hg Hh. apply wp_ret. eapply (HQ1 i ip I'); [done|done|done|done| |].
  - etrans; [|apply lframe_hart]. by apply lframe_set_inodes.
  - apply linv_hk; [done|]. by apply linv_inodes.
Qed.

(** ** Adding a name *)

(** The first free slot, or the end. *)
Definition free_slot (V : Z -> bytes) (x : inode) (i : Z) : Prop :=
  0 <= i < i_size x / sizeof_dirent /\ de_inum (dent V x i) = 0 \/ i = i_size x / sizeof_dirent.

Lemma wp_dirlink_slot D V L o dp s (Q : Z -> kernel -> Prop) :
  open_dir D V L o dp s ->
  let x := inodes s dp in
  (forall i s', free_slot V x i -> lframe s s' -> open_dir D V L o dp s' -> Q (sizeof_dirent * i) s') ->
  wp (loop (fun off =>
        size ← iget_ dp i_size;
        if negb (u32 off <? size) then mret (Done off) else
        '(r, de) ← readi dp Dlocal (u32 off) sizeof_dirent;
        if negb (r =? sizeof_dirent) then panic "dirlink read" else
        if de_inum de =? 0 then mret (Done off) else
        mret (Next (off + sizeof_dirent))) 0) n s Q.
Proof.
  intros Ho x HQ. pose proof Ho as [_ _ _ _ _ [Ht Hsz Hw _] Hf]. assert (MAXFILE * BSIZE < 2 ^ 31) as EM by done.
  assert (sizeof_dirent = 16) as ES by done. fold x in Hsz, Hf, Hw. unfold free_slot in HQ. set (k := i_size x / sizeof_dirent) in *.
  assert (0 <= k /\ sizeof_dirent * k = i_size x) as [Hk Ek] by (subst k; unfold sizeof_dirent in *; Z.div_mod_to_equations; lia).
  apply (wp_loop _ (fun j off s' => exists i, off = sizeof_dirent * i /\ j = Z.to_nat (k - i) /\ searching D V L o dp s i s'))
    with (k := Z.to_nat k); [|lia|].
  2: { exists 0. split; [done|]. split; [by rewrite Z.sub_0_r|]. split; [done|]. split; [done|]. fold x k. lia. }
  intros j off s' (i & -> & -> & Ho' & F & Hi). fold x k in Hi. unfold iget_. apply wp_bind, wp_gets.
  pose proof (lframe_inodes _ _ F) as Ei. rewrite Ei, u32_small by lia. fold x.
  destruct (Z.ltb_spec (sizeof_dirent * i) (i_size x)) as [Hlt|Hge]; cbn [negb].
  2: { apply wp_ret, HQ; [right; lia|done|done]. }
  assert (0 <= i < k) as Hik by lia.
  apply wp_bind. eapply wp_read_entry; [exact Ho'|rewrite Ei; exact Hik|]. rewrite Ei. fold x. intros s2 F2 Ho2. cbv iota beta.
  assert (lframe s s2) as F02 by by etrans. rewrite Z.eqb_refl. cbn [negb].
  destruct (Z.eqb_spec (de_inum (dent V x i)) 0) as [H0|H0]; apply wp_ret.
  - apply HQ; [by left|done|done].
  - exists (Z.to_nat (k - (i + 1))). split; [lia|]. exists (i + 1). split; [lia|]. split; [done|]. split; [done|]. split; [done|]. fold x k. lia.
Qed.

End dirs.

(** A name in a [struct dirent]. *)
Lemma strncpy_copy_strn n : forall m s t i, strn (strncpy_copy m s t i n) (s + i) n = strn t i n.
Proof.
  induction n as [|n IH]; intros m s t i; [done|]. cbn [strncpy_copy strn]. destruct (t i =? 0) eqn:E; zbool.
  - rewrite strncpy_pad_spec, decide_False, fn_lookup_insert, E by lia. done.
  - rewrite strncpy_copy_out, fn_lookup_insert by lia. rewrite (proj2 (Z.eqb_neq _ _) E), <-Z.add_assoc. by rewrite IH.
Qed.

Lemma st_bytes k : forall m a v x, (forall y, 0 <= m y < 256) -> 0 <= st k m a v x < 256.
Proof.
  induction k as [|k IH]; intros m a v x Hm; cbn [st]; [done|]. apply IH. intros y. rewrite fn_insert_spec.
  destruct (decide (a = y)); [|done]. unfold u8. apply Z.mod_pos_bound. lia.
Qed.

Lemma strncpy_bytes m s t n x : (forall y, 0 <= m y < 256) -> (forall y, 0 <= t y < 256) -> 0 <= strncpy m s t n x < 256.
Proof.
  intros Hm Ht. unfold strncpy. destruct (decide (s + 0 <= x < s + 0 + Z.of_nat (Z.to_nat n))) as [Hx|Hx].
  - rewrite strncpy_copy_spec by done. case_decide; [done|lia].
  - rewrite strncpy_copy_out by lia. done.
Qed.

Section dirent.
Context (name : bytes) (inum : Z) (Hname : forall k, 0 <= name k < 256) (Hinum : 0 < inum < 2 ^ 16).
Abbreviation de := (dirent_bytes name inum).
Abbreviation mem := (Str.st 2 (strncpy (fun _ => 0) 2 name DIRSIZ) 0 inum).

Lemma dirent_length : Z.of_nat (length de) = sizeof_dirent.
Proof. done. Qed.

Lemma dirent_at i : 0 <= i < 16 -> de !!! Z.to_nat i = mem i.
Proof.
  intros Hi. unfold dirent_bytes. apply list_lookup_total_correct. rewrite rd_bytes_lookup by lia. do 2 f_equal. lia.
Qed.

Lemma dirent_range b : b ∈ de -> 0 <= b < 256.
Proof.
  intros (i & Hi)%list_elem_of_lookup. unfold dirent_bytes in Hi. pose proof (lookup_lt_Some _ _ _ Hi) as Hl. rewrite length_rd_bytes in Hl.
  assert (forall y, 0 <= mem y < 256) as Hm by (intros y; apply st_bytes; intros z; apply strncpy_bytes; [lia|done]).
  rewrite rd_bytes_lookup in Hi by done. injection Hi as <-. apply (Hm (0 + Z.of_nat i)).
Qed.

Lemma dirent_entry : dir_entry de = Some (dname name, inum).
Proof.
  assert (de_inum de = inum) as E.
  { unfold de_inum. erewrite ld_ext; [|intros x Hx; apply dirent_at; lia]. rewrite ld_st. apply Z.mod_small. change (256 ^ Z.of_nat 2) with (2 ^ 16). lia. }
  unfold dir_entry. rewrite E, (proj2 (Z.eqb_neq _ _)) by lia. f_equal. f_equal. unfold dname.
  rewrite <-(strncpy_copy_strn (Z.to_nat DIRSIZ) (fun _ => 0) 2 name 0). apply strn_ext. intros k Hk. unfold de_name.
  change (Z.of_nat (Z.to_nat DIRSIZ)) with 14 in Hk. rewrite dirent_at by lia. rewrite st_out by lia. done.
Qed.

End dirent.

Lemma dir_from_ext V x V' x' i k :
  (forall j, i <= j < i + k -> dent V' x' j = dent V x j) -> dir_from V' x' i k = dir_from V x i k.
Proof.
  intros He. unfold dir_from. assert (forall j, j ∈ seqZ i k -> dent V' x' j = dent V x j) as Hl by (intros j Hj%elem_of_seqZ; by apply He).
  clear He. induction (seqZ i k) as [|j l IH]; [done|]. cbn. rewrite Hl by apply list_elem_of_here.
  rewrite IH; [done|]. intros j' Hj'. apply Hl. by apply list_elem_of_further.
Qed.

(** One entry more, where there was none. *)
Lemma list_to_map_middle (A B : list (list Z * Z)) nm m :
  list_to_map (M := gmap _ _) (A ++ B) !! nm = None ->
  list_to_map (M := gmap _ _) (A ++ (nm, m) :: B) = <[nm := m]> (list_to_map (A ++ B)).
Proof.
  rewrite !list_to_map_app. intros [Ha _]%lookup_union_None. cbn [list_to_map foldr]. by rewrite insert_union_r.
Qed.

(** The directory after an entry was written to a free slot. *)
Lemma dir_map_written S0 sb0 start V x name inum i V' x' :
  (forall k, 0 <= name k < 256) -> 0 < inum < 2 ^ 16 -> dir_ok V x -> free_slot V x i -> dir_map V x !! dname name = None ->
  i_size x' <= MAXFILE * BSIZE -> i_type x' = i_type x ->
  file_written S0 sb0 start V x (sizeof_dirent * i) (dirent_bytes name inum) V' x' ->
  dir_map V' x' = <[dname name := inum]> (dir_map V x) /\ dir_ok V' x'.
Proof.
  intros Hname Hinum [Ht Hsz Hw Hb] Hs Hnone Hmax Ht' Hf. pose proof (fw_size _ _ _ _ _ _ _ _ _ Hf) as Hsize. rewrite dirent_length in Hsize.
  pose proof (fw_bytes _ _ _ _ _ _ _ _ _ Hf) as Hbytes. rewrite dirent_length in Hbytes.
  unfold dir_map in *. unfold free_slot in Hs. set (k := i_size x / sizeof_dirent) in *.
  assert (0 <= i <= k /\ sizeof_dirent * k = i_size x) as [Hi Ek].
  { subst k. unfold sizeof_dirent in *. Z.div_mod_to_equations. lia. }
  assert (sizeof_dirent = 16) as ES by done.
  assert (dent V' x' i = dirent_bytes name inum) as Ei.
  { unfold dent. rewrite <-(dirent_length name inum) at 2. eapply written_fbytes; [|exact Hf]. lia. }
  assert (forall j, 0 <= j < i_size x' / sizeof_dirent -> j <> i -> dent V' x' j = dent V x j) as Hj.
  { intros j Hj Hne. unfold dent, fbytes. apply list_fmap_ext. intros l y [-> Hl]%lookup_seqZ. rewrite Hbytes, decide_False; [done|lia|].
    rewrite ES in *. Z.div_mod_to_equations. lia. }
  split.
  - assert (i_size x' / sizeof_dirent = i + (1 + (if decide (i = k) then 0 else k - i - 1))) as EK.
    { rewrite Hsize, ES in *. destruct (decide (i = k)); Z.div_mod_to_equations; lia. }
    set (m := if decide (i = k) then 0 else k - i - 1) in *.
    assert (0 <= m) by (subst m; destruct (decide (i = k)); lia).
    rewrite EK, dir_from_add, (dir_from_cons V' x' (0 + i)), Z.add_0_l, Ei, dirent_entry by (done || lia). replace (1 + m - 1) with m by lia.
    rewrite (dir_from_ext V x V' x' 0 i), (dir_from_ext V x V' x' (i + 1) m) by (intros j Hjr; apply Hj; lia).
    assert (dir_from V x 0 k = dir_from V x 0 i ++ dir_from V x (i + 1) m) as E; [|rewrite E in *; by apply list_to_map_middle].
    subst m. destruct (decide (i = k)) as [->|Hne]; [by rewrite app_nil_r|].
    replace k with (i + (k - i)) at 1 by lia. rewrite dir_from_add, (dir_from_cons V x (0 + i)), Z.add_0_l by lia. destruct Hs as [[_ H0]|?]; [|done].
    unfold dir_entry. by rewrite H0.
  - split; [congruence|lia|..].
    + rewrite Hsize, ES in *. Z.div_mod_to_equations. lia.
    + intros j Hjr. rewrite Hbytes by done. destruct (decide _) as [Hd|Hd].
      * apply (dirent_range name inum Hname). apply list_elem_of_lookup_2 with (Z.to_nat (j - sizeof_dirent * i)), list_lookup_lookup_total_lt.
        pose proof (dirent_length name inum). lia.
      * apply Hb. lia.
Qed.

(** An entry lies in one block. *)
Lemma dirent_block i : 0 <= i -> nblocks_of (sizeof_dirent * i) sizeof_dirent = 1.
Proof. intros Hi. unfold nblocks_of, BSIZE, sizeof_dirent. Z.div_mod_to_equations. lia. Qed.

(** C23: [dirlookup] looks up: on a directory it returns an entry of the inode
    table for the number the name stands for, with the place of the entry, and
    nothing when the directory does not have the name. The file system stays
    as it is. *)
Theorem dirlookup_finds {c me dev : Z} {LY : Layout} {DEV : BlockDev} {DOK : BlockDevOk c me} S0 n sb0 start D V L o dp s name :
  (Z.to_nat NBUF < n)%nat -> (dfuel < n)%nat -> MAXFILE + 1 < Z.of_nat n -> layout_ok S0 sb0 start ->
  open_dir (c := c) (me := me) (dev := dev) S0 n sb0 start D V L o dp s -> (forall k, 0 <= name k < 256) ->
  let x := inodes s dp in
  (forall inum, dir_map V x !! dname name = Some inum -> exists j, 0 <= j < NINODE /\ (i_ref (inodes s j) = 0 \/ live (inodes s) dev inum j)) ->
  exists r s', dirlookup dp name n s = Ret r s' /\ linv (c := c) (me := me) (dev := dev) S0 D V L [] o s' /\
    match dir_map V x !! dname name with
    | None => r = None /\ inodes s' = inodes s
    | Some inum => exists ip i, r = Some (ip, sizeof_dirent * i) /\ got (inodes s) dev inum ip (inodes s') /\
        0 <= i < i_size x / sizeof_dirent /\ dir_entry (dent V x i) = Some (dname name, inum)
    end.
Proof.
  intros Hn Hdn Hf Hly Ho Hname x Hroom.
  assert (wp (dirlookup dp name) n s (fun r s' => linv (c := c) (me := me) (dev := dev) S0 D V L [] o s' /\
    match dir_map V x !! dname name with
    | None => r = None /\ inodes s' = inodes s
    | Some inum => exists ip i, r = Some (ip, sizeof_dirent * i) /\ got (inodes s) dev inum ip (inodes s') /\
        0 <= i < i_size x / sizeof_dirent /\ dir_entry (dent V x i) = Some (dname name, inum)
    end)) as (r & s' & E & HQ)%wp_elim; [|by exists r, s'].
  eapply (wp_dirlookup S0 n Hn Hdn Hf sb0 start Hly); [exact Ho|done|exact Hroom|..].
  - intros s' F' L' E. fold x in E. rewrite E. split; [done|]. split; [done|]. by apply lframe_inodes.
  - intros i ip I' s' Hi E En Hg F' L'. fold x in E, Hi, En. rewrite E. split; [done|]. exists ip, i. split; [done|].
    rewrite (lframe_inodes _ _ F'). split; [done|]. split; [done|]. unfold dir_entry. rewrite En.
    destruct (Z.eqb_spec (de_inum (dent V x i)) 0) as [H0|]; [|done]. exfalso.
    unfold dir_map in E. apply elem_of_list_to_map_2, list_elem_of_omap in E as (j & _ & Ej). unfold dir_entry in Ej.
    destruct (Z.eqb_spec (de_inum (dent V x j)) 0); [done|]. injection Ej. congruence.
Qed.

(** [dirlink] of a new name is a write of one entry. *)
Lemma wp_dirlink {c me dev : Z} {LY : Layout} {DEV : BlockDev} {DOK : BlockDevOk c me} S0 n sb0 start D V L o dp s name inum (Q : Z -> kernel -> Prop) :
  0 <= dev < 2 ^ 31 -> 0 <= S0 /\ S0 + LOGSIZE < 2 ^ 31 -> (Z.to_nat NBUF < n)%nat -> (dfuel < n)%nat -> MAXFILE + 1 < Z.of_nat n ->
  layout_ok S0 sb0 start -> sb_size sb0 < Z.of_nat n -> sb s = sb0 -> 1 <= o ->
  open_dir (c := c) (me := me) (dev := dev) S0 n sb0 start D V L o dp s -> (forall k, 0 <= name k < 256) -> 0 < inum < 2 ^ 16 ->
  let x := inodes s dp in
  reserved sb0 start V -> inode_typed x -> inode_block S0 sb0 start (iblock sb0 (i_inum x)) ->
  i_size x + sizeof_dirent <= MAXFILE * BSIZE -> pot L x + 2 <= LOGSIZE - 3 -> 1 <= ndebt sb0 V x ->
  dir_map V x !! dname name = None ->
  (forall s' V' x' L' i, linv (c := c) (me := me) (dev := dev) S0 D V' L' [] o s' -> lframe (put_inode dp x' s) s' ->
     dir_map V' x' = <[dname name := inum]> (dir_map V x) -> dir_ok V' x' ->
     file_written S0 sb0 start V x (sizeof_dirent * i) (dirent_bytes name inum) V' x' -> Q 0 s') ->
  wp (dirlink dp name inum) n s Q.
Proof.
  intros Hdev HS0 Hn Hdn Hf Hly Hf2 Hsb Ho Hd Hname Hinum x Hr Ht Hib Hmax Hpot Hroom Hnone HQ.
  assert (sizeof_dirent = 16) as ES by done. unfold dirlink. apply wp_bind. eapply (wp_dirlookup S0 n Hn Hdn Hf sb0 start Hly); [exact Hd|done|..].
  - fold x. by rewrite Hnone.
  - intros s1 F1 L1 _. apply wp_bind. eapply (wp_dirlink_slot S0 n Hn Hdn Hf sb0 start Hly); [by eapply open_dir_lframe|].
    rewrite (lframe_inodes _ _ F1). fold x. intros i s2 Hs F2 Hd2. assert (lframe s s2) as F02 by by etrans.
    pose proof (lframe_inodes _ _ F02) as Ei. pose proof Hd2 as [L2 HL2 Hid2 Hx2 Hfl2 Hdk2 _]. rewrite Ei in Hid2, Hx2, Hfl2, Hdk2. fold x in Hid2, Hx2, Hfl2, Hdk2.
    pose proof (dk_size _ _ Hdk2) as Hsz. assert (0 <= i /\ sizeof_dirent * i <= i_size x) as [Hi0 Hi].
    { destruct Hs as [[Hi _]| ->]; rewrite ES in *; Z.div_mod_to_equations; lia. }
    assert (MAXFILE * BSIZE < 2 ^ 31) as EM by done. rewrite u32_small by lia. apply wp_bind.
    rewrite <-(dirent_length name inum) at 2.
    eapply (wp_writei S0 Hdev HS0 n Hn Hdn sb0 start Hly Hf2 D o Ho dp V L s2); rewrite ?dirent_length, ?dirent_block, ?Ei by done; fold x; try done; try lia.
    + by rewrite (lframe_sb _ _ F02).
    + apply gives_kernel.
    + intros s3 V' x' L' L3 F3 Hw _ _. rewrite Z.eqb_refl. cbn [negb]. apply wp_ret.
      pose proof (fw_same _ _ _ _ _ _ _ _ _ Hw) as Hsame. pose proof (fw_size _ _ _ _ _ _ _ _ _ Hw) as Hsize. rewrite dirent_length in Hsize.
      destruct (dir_map_written S0 sb0 start V x name inum i V' x') as [Em Hk]; try done; [lia|by rewrite Hsame|].
      apply (HQ s3 V' x' L' i); try done. etrans; [|exact F3]. by apply lframe_put_inode.
  - intros i ip I' s' _ E. fold x in E. congruence.
Qed.

(** C16: [dirlink] adds a name: in a directory that does not have the name it
    returns 0, and the directory is then the old one with the name standing
    for the number; it is well formed, and no block of another file has
    changed. *)
Theorem dirlink_links {c me dev : Z} {LY : Layout} {DEV : BlockDev} {DOK : BlockDevOk c me} S0 n sb0 start D V L o dp s name inum :
  0 <= dev < 2 ^ 31 -> 0 <= S0 /\ S0 + LOGSIZE < 2 ^ 31 -> (Z.to_nat NBUF < n)%nat -> (dfuel < n)%nat -> MAXFILE + 1 < Z.of_nat n ->
  layout_ok S0 sb0 start -> sb_size sb0 < Z.of_nat n -> sb s = sb0 -> 1 <= o ->
  open_dir (c := c) (me := me) (dev := dev) S0 n sb0 start D V L o dp s -> (forall k, 0 <= name k < 256) -> 0 < inum < 2 ^ 16 ->
  let x := inodes s dp in
  reserved sb0 start V -> inode_typed x -> inode_block S0 sb0 start (iblock sb0 (i_inum x)) ->
  i_size x + sizeof_dirent <= MAXFILE * BSIZE -> pot L x + 2 <= LOGSIZE - 3 -> 1 <= ndebt sb0 V x ->
  dir_map V x !! dname name = None ->
  exists s' V' x' L', dirlink dp name inum n s = Ret 0 s' /\
    linv (c := c) (me := me) (dev := dev) S0 D V' L' [] o s' /\ lframe (put_inode dp x' s) s' /\
    dir_map V' x' = <[dname name := inum]> (dir_map V x) /\ dir_ok V' x' /\ file_ok sb0 start V' x' /\ filled V' x' /\
    forall b, used sb0 start V b -> ~ of_file V x b -> V' b = V b.
Proof.
  intros Hdev HS0 Hn Hdn Hf Hly Hf2 Hsb Ho Hd Hname Hinum x Hr Ht Hib Hmax Hpot Hroom Hnone.
  assert (wp (dirlink dp name inum) n s (fun r s' => r = 0 /\ exists V' x' L',
    linv (c := c) (me := me) (dev := dev) S0 D V' L' [] o s' /\ lframe (put_inode dp x' s) s' /\
    dir_map V' x' = <[dname name := inum]> (dir_map V x) /\ dir_ok V' x' /\ file_ok sb0 start V' x' /\ filled V' x' /\
    forall b, used sb0 start V b -> ~ of_file V x b -> V' b = V b)) as (r & s' & E & -> & V' & x' & L' & HQ)%wp_elim; [|by exists s', V', x', L'].
  eapply (wp_dirlink S0 n sb0 start D V L o dp s); try done. fold x. intros s' V' x' L' i Hl' F' Em Hk Hw.
  split; [done|]. exists V', x', L'. split_and!; try done; apply Hw.
Qed.
