(* ===== verification/ForkProof.v ===== *)
(** * The system call fork

    [allocproc], [freeproc] and [fork] of [src/kernel/proc.c]: the child is a copy
    of its parent that shares its memory copy-on-write, its open files and its
    current directory; when memory or the process table is exhausted nothing is
    left behind. *)

From S2P Require Import Prelude Riscv Spinlock Str Kalloc Vm PageTable Cow Pages UserMem Fork FreeVm ProcVm VmHistory Sample Kernel Proc Sleeplock Bio Log Fs Uart Printf Pipe File ProcLife KernelWp SampleKernel KernelVm.

(** ** What the address spaces that exist keep *)

Section calm.
Context {LY : Layout} {LO : LayoutOk}.
Implicit Types (m : mstate machine) (ρ : Z -> role) (own : Z -> list (Z * Z)).

(** From [m] to [m'] no address space of [ρ] changes, and no page of the kernel. *)
Record calm ρ m ρ' m' : Prop := {
  cm_root : forall r, uroot ρ r -> uroot ρ' r;
  cm_view : forall r va, uroot ρ r -> 0 <= va < MAXVA -> ubyte m' r va = ubyte m r va;
  cm_valid : forall r v, uroot ρ r -> 0 <= v < TOPVPN -> has (pt m' r v) PTE_V = has (pt m r v) PTE_V;
  cm_top : forall r v, uroot ρ r -> NVPN <= v < TOPVPN -> pt m' r v = pt m r v;
  cm_kern : forall p, ρ p = RKern -> ρ' p = RKern;
  cm_mem : forall x, ρ (PGROUNDDOWN x) = RKern -> mem m' x = mem m x
}.

Lemma calm_refl ρ m : calm ρ m ρ m.
Proof. by split. Qed.

Lemma calm_delta ρ0 m0 ρ m ρ' m' r V :
  calm ρ0 m0 ρ m -> delta ρ m ρ' m' r V -> (forall v, V v -> ~ uroot ρ0 r) -> calm ρ0 m0 ρ' m'.
Proof.
  intros [A1 A2 A3 A4 A5 A6] [B1 B2 B3 B4 B5 B6] Hn.
  assert (forall r' v, uroot ρ0 r' -> ~ (r' = r /\ V v)) as Hne by (intros r' v Hr [-> Hv]; by apply (Hn v)). split.
  - intros r' Hr. by apply B1, A1.
  - intros r' va Hr Hva. rewrite B2; [by apply A2|by apply A1|done|by apply Hne].
  - intros r' v Hr Hv. rewrite B3; [by apply A3|by apply A1|done|by apply Hne].
  - intros r' v Hr Hv. rewrite B4; [by apply A4|by apply A1|done|by apply Hne].
  - intros p Hp. rewrite B5; [by apply A5|]. left. by apply A5.
  - intros x Hx. rewrite B6; [by apply A6|]. left. by apply A5.
Qed.

Lemma calm_quiet ρ0 m0 ρ m ρ' m' : calm ρ0 m0 ρ m -> quiet ρ m ρ' m' -> calm ρ0 m0 ρ' m'.
Proof. intros Hc Hq. by apply (calm_delta _ _ _ _ _ _ 0 (fun _ => False) Hc (Hq _ _)). Qed.

Lemma calm_born ρ0 m0 ρ m ρ' m' r : calm ρ0 m0 ρ m -> born ρ m ρ' m' r -> calm ρ0 m0 ρ' m'.
Proof.
  intros [A1 A2 A3 A4 A5 A6] [_ B1 B2 B3 B4 B5 B6]. split.
  - intros r' Hr. apply B1. left. by apply A1.
  - intros r' va Hr Hva. rewrite B2; [by apply A2|by apply A1|done].
  - intros r' v Hr Hv. rewrite B3; [by apply A3|by apply A1|done].
  - intros r' v Hr Hv. rewrite B4; [by apply A4|by apply A1|done].
  - intros p Hp. rewrite B5; [by apply A5|]. left. by apply A5.
  - intros x Hx. rewrite B6; [by apply A6|]. left. by apply A5.
Qed.

Lemma calm_gone ρ0 m0 ρ m ρ' m' r : calm ρ0 m0 ρ m -> gone ρ m ρ' m' r -> ~ uroot ρ0 r -> calm ρ0 m0 ρ' m'.
Proof.
  intros [A1 A2 A3 A4 A5 A6] [B1 B2 B3 B4 B5 B6] Hn.
  assert (forall r', uroot ρ0 r' -> r' <> r) as Hne by by intros r' Hr ->. split.
  - intros r' Hr. apply B1. auto.
  - intros r' va Hr Hva. rewrite B2 by auto. by apply A2.
  - intros r' v Hr Hv. rewrite B3 by auto. by apply A3.
  - intros r' v Hr Hv. rewrite B4 by auto. by apply A4.
  - intros p Hp. rewrite B5; [by apply A5|]. left. by apply A5.
  - intros x Hx. rewrite B6; [by apply A6|]. left. by apply A5.
Qed.

(** The lock state of the hart does not matter. *)
Lemma cinv_set_hart ρ l own m h : cinv ρ l own m -> cinv ρ l own (set_hart h m).
Proof. intros [Ht Hb]. split; [by apply tinv_hart|done]. Qed.

Lemma calm_hart ρ0 m0 ρ m h : calm ρ0 m0 ρ m -> calm ρ0 m0 ρ (set_hart h m).
Proof. by intros []. Qed.

(** A page of the kernel that is new is filled. *)
Lemma calm_fill ρ0 m0 ρ l own m p f :
  cinv ρ l own m -> calm ρ0 m0 ρ m -> ρ p = RKern -> ρ0 p <> RKern -> same_except p (mem m) f ->
  cinv ρ l own (set_mem f m) /\ calm ρ0 m0 ρ (set_mem f m) /\
  (forall r sz tf, procpt ρ m r sz tf -> procpt ρ (set_mem f m) r sz tf) /\
  (forall r va, uroot ρ r -> 0 <= va < MAXVA -> ubyte (set_mem f m) r va = ubyte m r va) /\
  (forall r v, uroot ρ r -> pt (set_mem f m) r v = pt m r v).
Proof.
  intros Hi [A1 A2 A3 A4 A5 A6] Hp Hp0 Hse. destruct (cinv_fill _ _ _ _ _ _ Hi Hp Hse) as (Hi' & _ & Hlv).
  assert (aligned p) as Hal by (apply (ti_managed _ _ _ (ci_t _ _ _ _ Hi)); congruence).
  assert (forall r va, uroot ρ r -> 0 <= va < MAXVA -> ubyte (set_mem f m) r va = ubyte m r va) as Hv.
  { intros r va Hr Hva. destruct (Hlv r va Hr) as [E _].
    eapply ubyte_frame; [exact Hi|done|done|by rewrite E|by rewrite E|].
    intros x Hx. apply (same_except_page p); [done|done|congruence]. }
  assert (forall r v, uroot ρ r -> pt (set_mem f m) r v = pt m r v) as Hpt by (intros; by apply (leaves_pt ρ)).
  split_and!; [done| | |done|done].
  - split; try done.
    + intros r va Hr Hva. rewrite Hv by auto. by apply A2.
    + intros r v Hr Hr'. rewrite Hpt by auto. by apply A3.
    + intros r v Hr Hr'. rewrite Hpt by auto. by apply A4.
    + intros x Hx. rewrite <-(A6 x Hx). apply (same_except_page p); [done|done|congruence].
  - intros r sz tf [[B1 B2 B3] B4 B5 B6]. split; [split; try done|by rewrite Hpt..|done]. intros v Hvr. rewrite Hpt by done. by apply B3.
Qed.

(** A page of the kernel that is new is given back. *)
Lemma calm_kfree ρ0 m0 ρ m p m' :
  calm ρ0 m0 ρ m -> ρ p = RKern -> ρ0 p <> RKern ->
  (forall ρ1 s1 r V, delta ρ1 s1 ρ m r V -> ρ1 p = RFree -> delta ρ1 s1 (<[p := RFree]> ρ) m' r V) ->
  calm ρ0 m0 (<[p := RFree]> ρ) m' /\ (forall r V, delta (<[p := RFree]> ρ) m (<[p := RFree]> ρ) m' r V) /\
  (forall r, uroot (<[p := RFree]> ρ) r <-> uroot ρ r).
Proof.
  intros [A1 A2 A3 A4 A5 A6] Hp Hp0 Hd. set (ρ1 := <[p := RFree]> ρ).
  assert (forall r, uroot ρ1 r <-> uroot ρ r) as Hr.
  { intros r. unfold uroot, ρ1. rewrite fn_insert_spec. destruct (decide (p = r)) as [<-|]; [|done]. rewrite Hp. done. }
  assert (forall r V, delta ρ1 m ρ1 m' r V) as Hq.
  { intros r V. apply Hd; [|apply fn_lookup_insert]. split; try done.
    intros q Hq. unfold ρ1 in *. rewrite fn_insert_spec in *. destruct (decide (p = q)); [by destruct Hq|done]. }
  split; [|done]. eapply (calm_quiet _ _ ρ1 m); [|exact Hq]. split; try done.
  - intros r Hr0. by apply Hr, A1.
  - intros q Hq0. unfold ρ1. rewrite fn_insert_spec. destruct (decide (p = q)) as [<-|]; [done|by apply A5].
Qed.

(** *** The pages of a process that is being made *)

(** The role of the pages, but for the page [tf], which is free. *)
Definition untaken (tf : Z) ρ : Z -> role := if decide (tf = 0) then ρ else <[tf := RFree]> ρ.

(** Since [m0] the trapframe [tf] and the page table [r] have been taken, each
    unless it is zero, and nothing else. *)
Definition taken (tf r : Z) ρ0 m0 ρ m : Prop :=
  if decide (r = 0) then forall p, untaken tf ρ p = ρ0 p else under r ρ0 m0 (untaken tf ρ) m.

(** The trapframe is given back before the page table. *)
Lemma stays_kfree ρ l own m r p m' :
  cinv ρ l own m -> uroot ρ r -> ρ p = RKern -> (forall x, PGROUNDDOWN x <> p -> mem m' x = mem m x) ->
  stays r (<[p := RFree]> ρ) m (<[p := RFree]> ρ) m'.
Proof.
  intros [Ht _] Hr Hp Hm ρ0 l0 own0 m0 Hi0.
  assert (pt_wf (<[p := RFree]> ρ) (mem m)) as Hw by (apply pt_wf_role; [apply Ht|congruence|done]).
  eapply under_thin; [exact Hi0|exact Hw| |apply thin_mem; [exact Hw|..]].
  - unfold uroot in *. rewrite fn_insert_ne; congruence.
  - intros q. rewrite fn_insert_spec. case_decide as E; [subst q; intros _|]; intros; apply (tinv_aligned _ _ _ _ Ht); congruence.
  - intros x k lv. rewrite fn_insert_spec. case_decide; [done|]. intros _. apply Hm. congruence.
Qed.

(** A trapframe and then a page table. *)
Lemma taken_both tf r ρ m ρ1 m1 ρ2 m2 :
  tf <> 0 -> r <> 0 -> ρ tf = RFree -> ρ1 = <[tf := RKern]> ρ -> leaves ρ m m1 -> under r ρ1 m1 ρ2 m2 -> taken tf r ρ m ρ2 m2.
Proof.
  intros Ht Hr Hf -> Hl [A1 A2 A3]. unfold taken, untaken. rewrite !decide_False by done.
  assert (forall p, p <> tf -> <[tf := RKern]> ρ p = ρ p) as Ho by (intros; by apply fn_insert_ne). split.
  - intros p Hp. rewrite <-Ho; [by apply A1|]. intros ->. apply A1 in Hp. by rewrite fn_lookup_insert in Hp.
  - intros p Hp. rewrite fn_insert_spec. case_decide; [by subst|]. rewrite A2 by done. by apply Ho.
  - intros r' v Hr' Hv. rewrite <-(leaves_pt ρ m m1) by done. apply A3; [|done]. unfold uroot in *.
    rewrite Ho; [done|congruence].
Qed.

(** The roles say which pages are free. *)
Lemma same_free ρ l own m ρ' l' own' m' : cinv ρ l own m -> cinv ρ' l' own' m' -> (forall p, ρ' p = ρ p) -> l' ≡ₚ l.
Proof.
  intros [Ht _] [Ht' _] E. apply NoDup_Permutation; [apply Ht'|apply Ht|].
  intros p. rewrite <-(ti_role_free _ _ _ Ht), <-(ti_role_free _ _ _ Ht'). by rewrite E.
Qed.

(** Past its end an address space has nothing. *)
Lemma aspace_beyond ρ l own m r sz va : cinv ρ l own m -> aspace ρ m r sz -> pgs sz * PGSIZE <= va < MAXVA -> ubyte m r va = None.
Proof.
  intros Hi [Hr [Hs Hs'] Hv] Hva. destruct (pgs_bounds sz Hs) as (_ & Hp & _). assert (0 <= va) by (pages; lia). pose proof (vpn_range va ltac:(lia)) as Hvp.
  destruct (decide (vpn va < NVPN)) as [Hlt|Hge].
  - apply ubyte_invalid. rewrite Hv by lia. apply bool_decide_eq_false_2. pages. intros ?. Z.div_mod_to_equations. lia.
  - unfold ubyte. rewrite pte_at_pt, (bi_top _ _ _ _ (ci_b _ _ _ _ Hi)) by (done || lia). done.
Qed.

End calm.

(** ** allocproc and freeproc *)

(** A process that is not in use has no memory and no files. *)
Record clean (x : proc) : Prop := {
  cl_table : p_pagetable x = 0;
  cl_size : p_sz x = 0;
  cl_files : forall i, p_ofile x i = None
}.

Section procs.
Context {LY : Layout} {LO : LayoutOk} {c me : Z}.
Context (s0 : kernel) (n : nat) (Hn : 32770 < Z.of_nat n).
Implicit Types (m : mstate machine) (ρ : Z -> role) (own : Z -> list (Z * Z)).

(** The parts of the kernel's state that [fork] changes. *)
Definition fk m (P : Z -> proc) (k : Z) (F : Z -> file) (I : Z -> inode) : kernel :=
  set_inodes I (set_files F (set_nextpid k (set_procs P (set_ms m s0)))).

(** A process as [freeproc] leaves it. *)
Definition freed_proc (x : proc) : proc :=
  set_p_state UNUSED (set_p_xstate 0 (set_p_killed 0 (set_p_chan Cnone (set_p_name (<[0 := 0]> (p_name x)) (set_p_parent None
    (set_p_pid 0 (set_p_sz 0 (set_p_pagetable 0 (set_p_trapframe 0 x))))))))).

Lemma upd_fk m P k F I p f : upd_proc p f (fk m P k F I) = fk m (<[p := f (P p)]> P) k F I.
Proof. done. Qed.

Lemma insert_same (P : Z -> proc) p (x y : proc) : <[p := y]> (<[p := x]> P) = <[p := y]> P.
Proof. apply fn_insert_insert. Qed.

(** [freeproc] of a process whose trapframe and page table, if it has them, are
    not among those of [ρ0]. *)
Lemma wp_freeproc m P k F I p ρ0 m0 ρ l own hl (Q : unit -> kernel -> Prop) :
  hon c hl (hart m) -> Lkmem ∉ hl -> cinv ρ l own m -> calm ρ0 m0 ρ m ->
  (p_trapframe (P p) <> 0 -> ρ (p_trapframe (P p)) = RKern /\ ρ0 (p_trapframe (P p)) <> RKern) ->
  (p_pagetable (P p) <> 0 -> procpt ρ m (p_pagetable (P p)) (p_sz (P p)) (p_trapframe (P p)) /\ ~ uroot ρ0 (p_pagetable (P p))) ->
  (forall m' ρ' l' own', hon c hl (hart m') -> cinv ρ' l' own' m' -> calm ρ0 m0 ρ' m' ->
     (p_trapframe (P p) <> 0 -> ρ' (p_trapframe (P p)) = RFree) -> (p_pagetable (P p) <> 0 -> ρ' (p_pagetable (P p)) = RFree) ->
     (forall ρ1 l1 own1 m1, cinv ρ1 l1 own1 m1 -> taken (p_trapframe (P p)) (p_pagetable (P p)) ρ1 m1 ρ m -> forall q, ρ' q = ρ1 q) ->
     Q tt (fk m' (<[p := freed_proc (P p)]> P) k F I)) ->
  wp (freeproc p) n (fk m P k F I) Q.
Proof.
  intros Hh Hl Hi Hc Htf Hpt HQ. set (x := P p) in *. unfold freeproc, pget, pset. apply wp_bind, wp_gets. change (procs (fk m P k F I) p) with x.
  assert (forall m1 ρ1 l1 own1, hon c hl (hart m1) -> cinv ρ1 l1 own1 m1 -> calm ρ0 m0 ρ1 m1 ->
    (p_pagetable x <> 0 -> procpt ρ1 m1 (p_pagetable x) (p_sz x) (p_trapframe x)) ->
    ρ1 = untaken (p_trapframe x) ρ -> (p_pagetable x <> 0 -> stays (p_pagetable x) ρ1 m ρ1 m1) -> wp (
      pset p (set_p_trapframe 0);;
      pt ← pget p p_pagetable;
      sz ← pget p p_sz;
      when (negb (pt =? 0)) (lift (proc_freepagetable pt sz : M (mstate machine) unit));;
      pset p (set_p_pagetable 0);;
      pset p (set_p_sz 0);;
      pset p (set_p_pid 0);;
      pset p (set_p_parent None);;
      pset p (fun x => set_p_name (<[0 := 0]> (p_name x)) x);;
      pset p (set_p_chan Cnone);;
      pset p (set_p_killed 0);;
      pset p (set_p_xstate 0);;
      pset p (set_p_state UNUSED)) n (fk m1 P k F I) Q) as Hrest.
  { intros m1 ρ1 l1 own1 Hh1 Hi1 Hc1 Hpt1 Hρ1 Hs1. unfold pget, pset. apply wp_bind, wp_modify. rewrite upd_fk. fold x. do 2 apply wp_bind, wp_gets.
    change (procs (fk m1 (<[p := set_p_trapframe 0 x]> P) k F I) p) with ((<[p := set_p_trapframe 0 x]> P) p). rewrite fn_lookup_insert.
    cbn [p_pagetable p_sz set_p_trapframe].
    assert (forall m2 ρ2 l2 own2, hon c hl (hart m2) -> cinv ρ2 l2 own2 m2 -> calm ρ0 m0 ρ2 m2 ->
      (p_pagetable x <> 0 -> ρ2 (p_pagetable x) = RFree) ->
      (if decide (p_pagetable x = 0) then ρ2 = ρ1 else undone (p_pagetable x) ρ1 m1 ρ2) -> wp (
      pset p (set_p_pagetable 0);; pset p (set_p_sz 0);; pset p (set_p_pid 0);; pset p (set_p_parent None);;
      pset p (fun x => set_p_name (<[0 := 0]> (p_name x)) x);; pset p (set_p_chan Cnone);; pset p (set_p_killed 0);; pset p (set_p_xstate 0);;
      pset p (set_p_state UNUSED)) n (fk m2 (<[p := set_p_trapframe 0 x]> P) k F I) Q) as Hend.
    { intros m2 ρ2 l2 own2 Hh2 Hi2 Hc2 Hfr Hun. unfold pset. do 8 apply wp_bind, wp_modify. apply wp_modify. rewrite !upd_fk, !fn_lookup_insert, !insert_same.
      apply (HQ m2 ρ2 l2 own2); try done.
      { intros Et. assert (ρ1 (p_trapframe x) = RFree) as Ef by (rewrite Hρ1; unfold untaken; rewrite decide_False by done; apply fn_lookup_insert).
        destruct (decide (p_pagetable x = 0)); [by subst ρ2|by apply Hun]. }
      intros ρa la owna ma Hia Hta q. unfold taken in Hta. rewrite <-Hρ1 in Hta.
      destruct (decide (p_pagetable x = 0)) as [|E]; [by subst ρ2|]. eapply Hun; [exact Hia|]. by eapply Hs1. }
    destruct (Z.eqb_spec (p_pagetable x) 0) as [E|E]; cbn [negb when]; apply wp_bind.
    { apply wp_ret, (Hend m1 ρ1 l1 own1); [done..|]. by rewrite decide_True. }
    apply wp_lift. eapply wp_mono; [exact (wp_proc_freepagetable (SP := hart_spin c) ρ1 l1 own1 m1 _ _ _ n hl Hn Hi1 Hh1 Hl (Hpt1 E))|].
    intros [] m2 (ρ2 & l2 & own2 & Hi2 & Hh2 & Hg & Hfr & Hun). apply (Hend m2 ρ2 l2 own2 Hh2 Hi2); [|by intros _|by rewrite decide_False].
    eapply calm_gone; [exact Hc1|exact Hg|by apply Hpt]. }
  destruct (Z.eqb_spec (p_trapframe x) 0) as [E|E]; cbn [negb when]; apply wp_bind.
  { apply wp_ret. apply (Hrest m ρ l own Hh Hi Hc); [intros Ep; by apply Hpt|unfold untaken; by rewrite decide_True|intros _; apply stays_refl]. }
  destruct (Htf E) as [Hk Hk0]. apply wp_lift.
  apply (wp_kfree_page (SP := hart_spin c) ρ l own m n hl (p_trapframe x)); [lia|exact Hi|exact Hh|exact Hl|exact Hk|].
  intros m1 Hi1 Hd Hmem Hh1. destruct (calm_kfree ρ0 m0 ρ m (p_trapframe x) m1 Hc Hk Hk0 Hd) as (Hc1 & Hq & Hr).
  apply (Hrest m1 _ _ own Hh1 Hi1 Hc1); [|unfold untaken; by rewrite decide_False|].
  2:{ intros Ep. destruct (Hpt Ep) as [Hp _]. eapply stays_kfree; [exact Hi|apply Hp|exact Hk|exact Hmem]. }
  intros Ep. destruct (Hpt Ep) as [Hp _].
  eapply (procpt_delta (<[p_trapframe x := RFree]> ρ) m _ m1 0 (fun _ => False)); [apply Hq| |done].
  destruct Hp as [[B1 B2 B3] B4 B5 B6]. split; [split; [by apply Hr|done|done]|done|done|done].
Qed.

(** The search of [allocproc]: the first process that is not in use, locked. *)
Lemma wp_find_unused m P k F I (Q : option Z -> kernel -> Prop) :
  hon c [] (hart m) ->
  (forall h, hon c [] h -> (forall p, 0 <= p < NPROC -> p_state (P p) <> UNUSED) -> Q None (fk (set_hart h m) P k F I)) ->
  (forall p h, hon c [Lproc p] h -> 0 <= p < NPROC -> p_state (P p) = UNUSED -> (forall q, 0 <= q < p -> p_state (P q) <> UNUSED) ->
     Q (Some p) (fk (set_hart h m) P k F I)) ->
  wp (for_ (Z.to_nat NPROC) 0 (fun p =>
    lock (Lproc p);;
    st ← pget p p_state;
    if decide (st = UNUSED) then mret (Done p) else
    unlock (Lproc p);;
    mret (Next tt))) n (fk m P k F I) Q.
Proof.
  intros Hh HQ0 HQ1. apply (wp_for (fun p s => exists h, hon c [] h /\ s = fk (set_hart h m) P k F I /\ forall q, 0 <= q < p -> p_state (P q) <> UNUSED)).
  - exists (hart m). split; [done|]. split; [by destruct m|]. intros q Hq. lia.
  - intros p s Hp (h & H1 & -> & Hno). apply wp_bind. eapply wp_lock; [lia|exact H1|apply not_elem_of_nil|]. intros h2 H2.
    unfold pget. apply wp_bind, wp_gets. change (procs (hk h2 (fk (set_hart h m) P k F I)) p) with (P p).
    destruct (decide (p_state (P p) = UNUSED)) as [E|E].
    + apply wp_ret. apply (HQ1 p h2); [done|unfold NPROC in *; lia|done|done].
    + apply wp_bind. eapply wp_unlock; [exact H2|]. intros h3 H3. apply wp_ret. exists h3. split; [done|]. split; [done|].
      intros q Hq. destruct (decide (q = p)) as [->|]; [done|]. apply Hno. lia.
  - intros s (h & H1 & -> & Hno). apply HQ0; [done|exact Hno].
Qed.

Lemma wp_allocpid m P k F I hl (Q : Z -> kernel -> Prop) :
  hon c hl (hart m) -> Lpid ∉ hl -> (forall h, hon c hl h -> Q k (fk (set_hart h m) P (s32 (k + 1)) F I)) -> wp allocpid n (fk m P k F I) Q.
Proof.
  intros Hh Hl HQ. unfold allocpid. apply wp_bind. eapply wp_lock; [lia|exact Hh|done|]. intros h1 H1.
  apply wp_bind, wp_gets, wp_bind, wp_modify, wp_bind. eapply wp_unlock; [exact H1|]. intros h2 H2. apply wp_ret. by apply (HQ h2).
Qed.

(** A process as [allocproc] returns it. *)
Record new_proc (x y : proc) (pid : Z) : Prop := {
  np_pid : p_pid y = pid;
  np_state : p_state y = USED;
  np_size : p_sz y = 0;
  np_files : p_ofile y = p_ofile x;
  np_context : p_context y = mkContext forkret_addr (u64 (p_kstack x + PGSIZE)) (fun _ => 0);
  np_keeps : p_parent y = p_parent x /\ p_cwd y = p_cwd x /\ p_name y = p_name x /\ p_kstack y = p_kstack x
}.

Lemma wp_allocproc m P k F I ρ l own (Q : option Z -> kernel -> Prop) :
  hon c [] (hart m) -> cinv ρ l own m -> (forall p, 0 <= p < NPROC -> p_state (P p) = UNUSED -> clean (P p)) ->
  (forall h, hon c [] h -> (forall p, 0 <= p < NPROC -> p_state (P p) <> UNUSED) -> Q None (fk (set_hart h m) P k F I)) ->
  (forall p m' ρ' l' own' x, 0 <= p < NPROC -> p_state (P p) = UNUSED -> hon c [] (hart m') -> cinv ρ' l' own' m' -> calm ρ m ρ' m' ->
     p_state x = UNUSED -> clean x -> (length l < 6)%nat -> (forall q, ρ' q = ρ q) -> Q None (fk m' (<[p := x]> P) (s32 (k + 1)) F I)) ->
  (forall p m' ρ' l' own' x, 0 <= p < NPROC -> p_state (P p) = UNUSED -> (forall q, 0 <= q < p -> p_state (P q) <> UNUSED) ->
     hon c [Lproc p] (hart m') -> cinv ρ' l' own' m' -> calm ρ m ρ' m' -> new_proc (P p) x k ->
     p_trapframe x <> 0 -> ρ (p_trapframe x) = RFree -> ρ' (p_trapframe x) = RKern -> ~ uroot ρ (p_pagetable x) ->
     p_pagetable x <> 0 -> procpt ρ' m' (p_pagetable x) 0 (p_trapframe x) -> (length l <= length l' + 6)%nat ->
     (exists l1 own1 m1, cinv (<[p_trapframe x := RKern]> ρ) l1 own1 m1 /\ leaves ρ m m1 /\ under (p_pagetable x) (<[p_trapframe x := RKern]> ρ) m1 ρ' m') ->
     Q (Some p) (fk m' (<[p := x]> P) (s32 (k + 1)) F I)) ->
  wp allocproc n (fk m P k F I) Q.
Proof.
  intros Hh Hi Hcl HQ0 HQ1 HQ2. unfold allocproc, pset, pget. apply wp_bind. apply wp_find_unused; [done|exact HQ0|].
  intros p h Hh1 Hp Hun Hfst. destruct (Hcl p Hp Hun) as [C1 C2 C3].
  apply wp_bind. eapply wp_allocpid; [exact Hh1|notin|]. intros h2 Hh2. do 2 apply wp_bind, wp_modify. rewrite !upd_fk, fn_lookup_insert, insert_same.
  change (set_hart h2 (set_hart h m)) with (set_hart h2 m). set (x1 := set_p_state USED _).
  assert (Lkmem ∉ [Lproc p]) as Hnk by notin.
  assert (cinv ρ l own (set_hart h2 m)) as Hi2 by by apply cinv_set_hart.
  assert (forall m' ρ' l' own' x, (length l < 6)%nat -> hon c [Lproc p] (hart m') -> cinv ρ' l' own' m' -> calm ρ m ρ' m' ->
    (p_trapframe x <> 0 -> ρ' (p_trapframe x) = RKern /\ ρ (p_trapframe x) <> RKern) -> clean x ->
    (forall q, untaken (p_trapframe x) ρ' q = ρ q) ->
    wp (freeproc p;; unlock (Lproc p);; mret None) n (fk m' (<[p := x]> P) (s32 (k + 1)) F I) Q) as Hfail.
  { intros m' ρ' l' own' x Hlen Hm' Hi' Hc' Htf [X1 X2 X3] Hu. apply wp_bind.
    eapply (wp_freeproc m' _ _ _ _ p ρ m ρ' l' own' [Lproc p]); rewrite ?fn_lookup_insert; try done.
    intros m3 ρ3 l3 own3 Hh3 Hi3 Hc3 _ _ Hback. rewrite insert_same. apply wp_bind. eapply wp_unlock; [exact Hh3|]. intros h4 Hh4. apply wp_ret.
    apply (HQ1 p (set_hart h4 m3) ρ3 l3 own3); try done; [by apply cinv_set_hart|by apply calm_hart|].
    apply (Hback ρ l own m Hi). unfold taken. by rewrite decide_True. }
  apply wp_bind, wp_lift. apply (wp_kalloc_page (SP := hart_spin c) ρ l own (set_hart h2 m) n [Lproc p]); [lia|exact Hi2|exact Hh2|done|..].
  - intros m1 -> Hi3 Hd Hh3. apply wp_bind, wp_modify.
    change (lset m1 (fk (set_hart h2 m) (<[p := x1]> P) (s32 (k + 1)) F I)) with (fk m1 (<[p := x1]> P) (s32 (k + 1)) F I).
    rewrite upd_fk, fn_lookup_insert, insert_same. cbn [Z.eqb]. eapply (Hfail m1 ρ [] own); try done; [cbn; lia|].
    eapply (calm_quiet ρ m ρ (set_hart h2 m)); [apply calm_hart, calm_refl|exact Hd].
  - intros tf l1 m1 -> Hfree Hmng Hi3 Hd Hlv _ _ Hh3. apply wp_bind, wp_modify.
    change (lset m1 (fk (set_hart h2 m) (<[p := x1]> P) (s32 (k + 1)) F I)) with (fk m1 (<[p := x1]> P) (s32 (k + 1)) F I).
    rewrite upd_fk, fn_lookup_insert, insert_same. set (ρ1 := <[tf := RKern]> ρ) in *. pose proof (managed_nonzero tf Hmng) as Hnz.
    rewrite (proj2 (Z.eqb_neq tf 0)) by lia. set (x2 := set_p_trapframe tf x1).
    assert (calm ρ m ρ1 m1) as Hc1 by (eapply (calm_quiet ρ m ρ (set_hart h2 m)); [apply calm_hart, calm_refl|exact Hd]).
    assert (ρ1 tf = RKern) as Htf1 by apply fn_lookup_insert.
    assert (aligned tf /\ 0 <= tf < 2 ^ 56) as [Hal Htr].
    { destruct Hmng as (? & ? & ?). split; [done|]. pages. lia. }
    apply wp_bind, wp_lift.
    eapply wp_mono; [exact (wp_proc_pagetable (SP := hart_spin c) ρ1 l1 own m1 tf n [Lproc p] Hn Hi3 Hh3 Hnk Hal Htr)|].
    intros r m2 (ρ2 & l2 & own2 & Hi4 & Hh4 & Hcase). apply wp_bind, wp_modify.
    change (lset m2 (fk m1 (<[p := x2]> P) (s32 (k + 1)) F I)) with (fk m2 (<[p := x2]> P) (s32 (k + 1)) F I).
    rewrite upd_fk, fn_lookup_insert, insert_same. destruct Hcase as [(-> & Hq & Hlen & Hsame)|(Hr & Hin & Hb & Hpp & Hlen & Hnew)].
    + cbn [Z.eqb]. eapply (Hfail m2 ρ2 l2 own2); try done; [cbn; lia|by eapply calm_quiet| |]; change (p_trapframe (set_p_pagetable 0 x2)) with tf.
      2:{ intros q. unfold untaken. rewrite decide_False by lia. rewrite fn_insert_spec. case_decide; [by subst|]. rewrite Hsame. by apply fn_insert_ne. }
      intros _. split; [|congruence]. by rewrite (d_kern _ _ _ _ _ _ (Hq 0 (fun _ => False))) by auto.
    + rewrite (proj2 (Z.eqb_neq r 0)) by done. apply wp_bind, wp_gets.
      change (procs (fk m2 (<[p := set_p_pagetable r x2]> P) (s32 (k + 1)) F I) p) with ((<[p := set_p_pagetable r x2]> P) p). rewrite fn_lookup_insert.
      apply wp_bind, wp_modify, wp_ret. rewrite upd_fk, fn_lookup_insert, insert_same.
      apply (HQ2 p m2 ρ2 l2 own2); try done.
      * by eapply calm_born.
      * cbn. lia.
      * change (p_trapframe _) with tf. by rewrite (bo_kern _ _ _ _ _ Hb) by auto.
      * change (p_pagetable _) with r. intros Hu. apply (ti_role_free _ _ _ (ci_t _ _ _ _ Hi3)) in Hin. unfold ρ1, uroot in *.
        rewrite fn_insert_spec in Hin. destruct (decide (tf = r)); [done|]. congruence.
      * cbn. lia.
      * by exists l1, own, m1.
Qed.

(** ** The files of the child *)

(** How many of the first [i] descriptors [o] are for file [f]. *)
Definition nopen (o : Z -> option Z) (i f : Z) : Z := Z.of_nat (length (filter (fun j => o j = Some f) (seqZ 0 i))).

Lemma nopen_next o i f : 0 <= i -> nopen o (i + 1) f = nopen o i f + if decide (o i = Some f) then 1 else 0.
Proof.
  intros Hi. unfold nopen. rewrite seqZ_app, filter_app, length_app by lia. change (seqZ (0 + i) 1) with [0 + i]. rewrite Z.add_0_l, filter_cons.
  destruct (decide (o i = Some f)); cbn [length filter list_filter]; lia.
Qed.

Lemma nopen_bound o i f : 0 <= i -> 0 <= nopen o i f <= i.
Proof.
  intros Hi. unfold nopen. pose proof (length_filter (fun j => o j = Some f) (seqZ 0 i)) as H. rewrite length_seqZ in H. lia.
Qed.

(** The first [i] descriptors have been copied from [o]. *)
Record dup_at (np : Z) (y : proc) (o : Z -> option Z) (m : mstate machine) P k F I (i : Z) (s : kernel) : Prop := {
  du_state : exists h F' g, hon c [Lproc np] h /\ s = fk (set_hart h m) (<[np := set_p_ofile g y]> P) k F' I /\
    (forall j, g j = if decide (0 <= j < i) then o j else None) /\ (forall f, F' f = set_f_ref (f_ref (F f) + nopen o i f) (F f))
}.

Lemma wp_dup_one np y o m P k F I i s (Q : ctl unit unit -> kernel -> Prop) :
  np <> me -> p_ofile (P me) = o -> 0 <= i < NOFILE ->
  (forall j f, 0 <= j < NOFILE -> o j = Some f -> 1 <= f_ref (F f) < 2 ^ 31 - NOFILE) ->
  dup_at np y o m P k F I i s -> (forall s', dup_at np y o m P k F I (i + 1) s' -> Q (Next tt) s') ->
  wp (f ← pget me (fun x => p_ofile x i);
      match f with
      | Some f => f' ← filedup f; pset np (fun x => set_p_ofile (<[i := Some f']> (p_ofile x)) x)
      | None => mret tt
      end;;
      mret (Next tt : ctl unit unit)) n s Q.
Proof.
  intros Hne Ho Hi Href [(h & F' & g & Hh & -> & Hg & HF)] HQ. unfold pget, pset. apply wp_bind, wp_gets.
  change (procs (fk (set_hart h m) (<[np := set_p_ofile g y]> P) k F' I) me) with ((<[np := set_p_ofile g y]> P) me). rewrite fn_insert_ne, Ho by done.
  destruct (o i) as [f|] eqn:Ei.
  - assert (1 <= f_ref (F' f) < 2 ^ 31 - 1) as Hr.
    { rewrite HF. cbn. pose proof (Href i f Hi Ei). pose proof (nopen_bound o i f ltac:(lia)). unfold NOFILE in *. lia. }
    unfold filedup, fget, fset. apply wp_bind, wp_bind, wp_bind. eapply wp_lock; [lia|exact Hh|notin|]. intros h1 H1. apply wp_bind, wp_gets.
    change (files (hk h1 (fk (set_hart h m) (<[np := set_p_ofile g y]> P) k F' I)) f) with (F' f). rewrite (proj2 (Z.ltb_ge _ _)), s32_small by lia.
    apply wp_bind, wp_modify, wp_bind. eapply wp_unlock; [exact H1|]. intros h2 H2. apply wp_ret, wp_modify, wp_ret, HQ. split.
    exists h2, (<[f := set_f_ref (f_ref (F' f) + 1) (F' f)]> F'), (<[i := Some f]> g). split; [done|]. split.
    { unfold hk, upd_file, upd_proc, fk. cbn [ms hart procs files set_ms set_hart set_inodes set_files set_nextpid set_procs]. rewrite fn_lookup_insert, insert_same. done. }
    split.
    + intros j. rewrite fn_insert_spec. destruct (decide (i = j)) as [<-|Hj]; [by rewrite decide_True by lia|]. rewrite Hg.
      destruct (decide (0 <= j < i)); [by rewrite decide_True by lia|by rewrite decide_False by lia].
    + intros f'. rewrite fn_insert_spec, nopen_next, Ei by lia. destruct (decide (f = f')) as [<-|Hf].
      * rewrite HF, decide_True by done. cbn. by rewrite Z.add_assoc.
      * rewrite HF, decide_False by congruence. by rewrite Z.add_0_r.
  - apply wp_bind, wp_ret, wp_ret, HQ. split. exists h, F', g. split; [done|]. split; [done|]. split.
    + intros j. rewrite Hg. destruct (decide (j = i)) as [->|]; [by rewrite decide_False, decide_True, Ei by lia|].
      destruct (decide (0 <= j < i)); [by rewrite decide_True by lia|by rewrite decide_False by lia].
    + intros f'. rewrite nopen_next, Ei, decide_False by (lia || done). by rewrite Z.add_0_r.
Qed.

(** ** The trapframe of the child *)

Definition frame_copy (f : memory) (tf ntf : Z) : memory :=
  store64 (wr_bytes f ntf (rd_bytes f tf (Z.to_nat sizeof_trapframe))) (ntf + TF_a0) 0.

Lemma frame_copy_spec f tf ntf :
  same_except ntf f (frame_copy f tf ntf) /\
  forall i, 0 <= i < sizeof_trapframe -> frame_copy f tf ntf (ntf + i) = if decide (TF_a0 <= i < TF_a0 + 8) then 0 else f (tf + i).
Proof.
  unfold frame_copy. assert (sizeof_trapframe = 288 /\ TF_a0 = 112) as [E1 E2] by done.
  assert (forall x, wr_bytes f ntf (rd_bytes f tf (Z.to_nat sizeof_trapframe)) x = if decide (ntf <= x < ntf + sizeof_trapframe) then f (tf + (x - ntf)) else f x) as Hw.
  { intros x. rewrite wr_bytes_spec, length_rd_bytes, Z2Nat.id by done. destruct (decide _); [|done].
    apply list_lookup_total_correct. rewrite rd_bytes_lookup by lia. f_equal. f_equal. lia. }
  split.
  - eapply same_except_trans; [|apply same_except_store64; pages; lia]. intros x Hx. rewrite Hw, decide_False; [done|]. pages. lia.
  - intros i Hi. destruct (decide (TF_a0 <= i < TF_a0 + 8)) as [Hr|Hr].
    + unfold store64. assert (forall j, 0 <= j < 8 -> st 8 (wr_bytes f ntf (rd_bytes f tf (Z.to_nat sizeof_trapframe))) (ntf + TF_a0) 0 (ntf + TF_a0 + j) = 0) as H0.
      { intros j Hj. assert (j = 0 \/ j = 1 \/ j = 2 \/ j = 3 \/ j = 4 \/ j = 5 \/ j = 6 \/ j = 7) as Hc by lia.
        cbn [st]. rewrite !fn_insert_spec. repeat (destruct (decide _); [done|]). exfalso. lia. }
      replace (ntf + i) with (ntf + TF_a0 + (i - TF_a0)) by lia. apply H0. lia.
    + rewrite store64_out by lia. rewrite Hw, decide_True by lia. f_equal. lia.
Qed.

(** ** The end of fork *)

(** The child [z] of the process [x]. *)
Record child_of (x y z : proc) (pid sz : Z) : Prop := {
  ch_state : p_state z = RUNNABLE;
  ch_pid : p_pid z = pid;
  ch_parent : p_parent z = Some me;
  ch_size : p_sz z = sz;
  ch_memory : p_pagetable z = p_pagetable y /\ p_trapframe z = p_trapframe y;
  ch_context : p_context z = p_context y;
  ch_files : forall i, 0 <= i < NOFILE -> p_ofile z i = p_ofile x i;
  ch_cwd : p_cwd z = p_cwd x;
  ch_name : p_name z = safestrcpy (p_name y) 0 (p_name x) 16
}.

Lemma wp_fork_rest m P k F I np sz cwd (Q : Z -> kernel -> Prop) :
  np <> me -> hon c [Lproc np] (hart m) -> (forall i, p_ofile (P np) i = None) -> p_cwd (P me) = Some cwd ->
  (forall j f, 0 <= j < NOFILE -> p_ofile (P me) j = Some f -> 1 <= f_ref (F f) < 2 ^ 31 - NOFILE) ->
  (forall h z F', hon c [] h -> child_of (P me) (P np) z (p_pid (P np)) sz -> (forall f, F' f = set_f_ref (f_ref (F f) + nopen (p_ofile (P me)) NOFILE f) (F f)) ->
     Q (p_pid (P np)) (fk (set_hart h (set_mem (frame_copy (mem m) (p_trapframe (P me)) (p_trapframe (P np))) m)) (<[np := z]> P) k F'
       (<[cwd := set_i_ref (i_ref (I cwd) + 1) (I cwd)]> I))) ->
  wp (pset np (set_p_sz sz);;
      tf ← pget me p_trapframe;
      ntf ← pget np p_trapframe;
      kmem_set (fun m : memory => wr_bytes m ntf (rd_bytes m tf (Z.to_nat sizeof_trapframe)));;
      tf_set ntf TF_a0 0;;
      for_ (Z.to_nat NOFILE) 0 (fun i =>
        f ← pget me (fun x => p_ofile x i);
        match f with
        | Some f =>
            f' ← filedup f;
            pset np (fun x => set_p_ofile (<[i := Some f']> (p_ofile x)) x)
        | None => mret tt
        end;;
        mret (Next tt : ctl unit unit));;
      cwd ← pget me p_cwd;
      cwd ← deref cwd;
      cwd' ← idup cwd;
      pset np (set_p_cwd (Some cwd'));;
      name ← pget me p_name;
      pset np (fun x => set_p_name (safestrcpy (p_name x) 0 name 16) x);;
      pid ← pget np p_pid;
      unlock (Lproc np);;
      lock Lwait;;
      pset np (set_p_parent (Some me));;
      unlock Lwait;;
      lock (Lproc np);;
      pset np (set_p_state RUNNABLE);;
      unlock (Lproc np);;
      mret pid) n (fk m P k F I) Q.
Proof.
  intros Hne Hh Hno Hcwd Href HQ. unfold pset at 1, pget at 1 2, kmem_set at 1, tf_set, kmem_set. apply wp_bind, wp_modify. rewrite upd_fk.
  do 2 apply wp_bind, wp_gets. do 2 apply wp_bind, wp_modify. set (y := P np) in *. set (y1 := set_p_sz sz y).
  change (procs (fk m (<[np := y1]> P) k F I)) with (<[np := y1]> P). rewrite fn_lookup_insert, fn_insert_ne by done. set (x := P me) in *.
  set (m1 := set_mem (frame_copy (mem m) (p_trapframe x) (p_trapframe y)) m) in *.
  match goal with |- wp _ _ ?s _ => change s with (fk m1 (<[np := y1]> P) k F I) end.
  assert (dup_at np y1 (p_ofile x) m1 P k F I 0 (fk m1 (<[np := y1]> P) k F I)) as Hstart.
  { split. exists (hart m1), F, (p_ofile y1). split; [done|]. split; [by destruct y1|]. split; [intros j; rewrite decide_False by lia; apply Hno|].
    intros f. change (nopen (p_ofile x) 0 f) with 0. rewrite Z.add_0_r. by destruct (F f). }
  apply wp_bind. apply (wp_for (dup_at np y1 (p_ofile x) m1 P k F I)); [exact Hstart|..].
  { intros i s Hi Hd. eapply wp_dup_one; try done. }
  change (0 + Z.of_nat (Z.to_nat NOFILE)) with NOFILE. intros s [(h & F' & g & Hh1 & -> & Hg & HF)]. set (y2 := set_p_ofile g y1).
  assert (forall m' F' I' y', procs (fk m' (<[np := y']> P) k F' I') me = x) as Eme by (intros; cbn; by rewrite fn_insert_ne).
  unfold pget at 1. apply wp_bind, wp_gets. rewrite Eme, Hcwd. unfold deref. apply wp_bind, wp_ret.
  unfold idup, iset. apply wp_bind, wp_bind. eapply wp_lock; [lia|exact Hh1|notin|]. intros h2 H2. apply wp_bind, wp_modify, wp_bind.
  eapply wp_unlock; [exact H2|]. intros h3 H3. apply wp_ret.
  match goal with |- wp _ _ ?s _ => change s with (fk (set_hart h3 m1) (<[np := y2]> P) k F' (<[cwd := set_i_ref (i_ref (I cwd) + 1) (I cwd)]> I)) end.
  set (I' := <[cwd := _]> I). unfold pset, pget. apply wp_bind, wp_modify. rewrite upd_fk, fn_lookup_insert, insert_same.
  apply wp_bind, wp_gets. rewrite Eme. apply wp_bind, wp_modify. rewrite upd_fk, fn_lookup_insert, insert_same. set (y4 := set_p_name _ _).
  apply wp_bind, wp_gets. change (procs (fk (set_hart h3 m1) (<[np := y4]> P) k F' I') np) with ((<[np := y4]> P) np). rewrite fn_lookup_insert.
  apply wp_bind. eapply wp_unlock; [exact H3|]. intros h4 H4. apply wp_bind. eapply wp_lock; [lia|exact H4|apply not_elem_of_nil|]. intros h5 H5.
  apply wp_bind, wp_modify.
  match goal with |- wp _ _ ?s _ => change s with (fk (set_hart h5 m1) (<[np := set_p_parent (Some me) ((<[np := y4]> P) np)]> (<[np := y4]> P)) k F' I') end.
  rewrite fn_lookup_insert, insert_same. apply wp_bind. eapply wp_unlock; [exact H5|]. intros h6 H6.
  apply wp_bind. eapply wp_lock; [lia|exact H6|apply not_elem_of_nil|]. intros h7 H7. apply wp_bind, wp_modify. set (y5 := set_p_parent _ y4).
  match goal with |- wp _ _ ?s _ => change s with (fk (set_hart h7 m1) (<[np := set_p_state RUNNABLE ((<[np := y5]> P) np)]> (<[np := y5]> P)) k F' I') end.
  rewrite fn_lookup_insert, insert_same. apply wp_bind. eapply wp_unlock; [exact H7|]. intros h8 H8. apply wp_ret.
  apply (HQ h8 (set_p_state RUNNABLE y5) F'); [done| |exact HF]. split; try done. intros i Hi. cbn. rewrite Hg. by rewrite decide_True.
Qed.

(** ** fork *)

(** The process that calls [fork]. *)
Record forking (ρ : Z -> role) (l : list Z) (own : Z -> list (Z * Z)) (cwd : Z) : Prop := {
  fo_runs : runs c me [] s0;
  fo_cinv : cinv ρ l own (ms s0);
  fo_table : procpt ρ (ms s0) (p_pagetable (procs s0 me)) (p_sz (procs s0 me)) (p_trapframe (procs s0 me));
  fo_frame : ρ (p_trapframe (procs s0 me)) = RKern;
  fo_cwd : p_cwd (procs s0 me) = Some cwd;
  fo_refs : forall i f, 0 <= i < NOFILE -> p_ofile (procs s0 me) i = Some f -> 1 <= f_ref (files s0 f) < 2 ^ 31 - NOFILE;
  fo_clean : forall p, 0 <= p < NPROC -> p_state (procs s0 p) = UNUSED -> clean (procs s0 p)
}.

(** The memory of the child [z] of [x], in the state [m]. *)
Record child_memory (ρ' : Z -> role) (x z : proc) m : Prop := {
  cd_table : procpt ρ' m (p_pagetable z) (p_sz x) (p_trapframe z);
  cd_new : p_pagetable z <> p_pagetable x /\ ρ' (p_trapframe z) = RKern;
  cd_view : forall va, 0 <= va < MAXVA -> ubyte m (p_pagetable z) va = ubyte (ms s0) (p_pagetable x) va;
  cd_shared : shared m (p_pagetable x) (p_pagetable z) (pgs (p_sz x));
  cd_frame : forall i, 0 <= i < sizeof_trapframe ->
    mem m (p_trapframe z + i) = if decide (TF_a0 <= i < TF_a0 + 8) then 0 else mem (ms s0) (p_trapframe x + i)
}.

(** The memory after [uvmcopy] and the copy of the trapframe. *)
Lemma child_memory_ok ρ l own cwd ρ1 m1 ρ2 l2 own2 m2 np y z h :
  let x := procs s0 me in
  forking ρ l own cwd -> calm ρ (ms s0) ρ1 m1 -> procpt ρ1 m1 (p_pagetable y) 0 (p_trapframe y) -> ~ uroot ρ (p_pagetable y) ->
  ρ (p_trapframe y) = RFree -> ρ1 (p_trapframe y) = RKern ->
  copied ρ1 m1 ρ2 l2 own2 m2 (p_pagetable x) (p_pagetable y) (p_sz x) (pgs (p_sz x)) [Lproc np] (SP := hart_spin c) ->
  p_pagetable z = p_pagetable y /\ p_trapframe z = p_trapframe y ->
  let m3 := set_hart h (set_mem (frame_copy (mem m2) (p_trapframe x) (p_trapframe y)) m2) in
  cinv ρ2 l2 own2 m3 /\ calm ρ (ms s0) ρ2 m3 /\ child_memory ρ2 x z m3.
Proof.
  intros x [Hrn Hi Hpp Hkf Hcw Hrf Hcn] Hc1 Hpy Hnu Hfr Hk1 [B1 B2 B3 B4 B5 B6 B7] [E1 E2] m3.
  assert (calm ρ (ms s0) ρ2 m2) as Hc2 by (eapply calm_delta; [exact Hc1|exact B5|done]).
  assert (ρ2 (p_trapframe y) = RKern) as Hk2 by (rewrite (d_kern _ _ _ _ _ _ B5); auto).
  destruct (frame_copy_spec (mem m2) (p_trapframe x) (p_trapframe y)) as [Hse Hfc].
  destruct (calm_fill ρ (ms s0) ρ2 l2 own2 m2 (p_trapframe y) _ B1 Hc2 Hk2 ltac:(congruence) Hse) as (Hi3 & Hc3 & Hp3 & Hv3 & Hpt3).
  assert (uroot ρ (p_pagetable x)) as Hux by apply Hpp. pose proof (cm_root _ _ _ _ Hc2 _ Hux) as Hux2. pose proof (as_root _ _ _ _ B4) as Huy2.
  pose proof (as_size _ _ _ _ B3) as [Hs Hs']. pose proof NVPN_eq. destruct (pgs_bounds (p_sz x) Hs) as (_ & Hpg & Hpb).
  assert (aspace ρ2 m2 (p_pagetable y) (p_sz x)) as Hay by (eapply aspace_sz; [exact B4|symmetry; apply pgs_pages; lia|done]).
  split; [by apply cinv_set_hart|]. split; [by apply calm_hart|]. split; rewrite ?E1, ?E2.
  - assert (procpt ρ2 m2 (p_pagetable y) (p_sz x) (p_trapframe y)) as Hpy2 by (eapply procpt_space; [exact B5|done|exact Hpy|exact Hay]).
    by destruct (Hp3 _ _ _ Hpy2) as [[] ? ? ?].
  - split; [|done]. intros E. apply Hnu. by rewrite E.
  - intros va Hva. change (ubyte m3 (p_pagetable y) va) with (ubyte (set_mem (frame_copy (mem m2) (p_trapframe x) (p_trapframe y)) m2) (p_pagetable y) va).
    rewrite Hv3 by done. destruct (decide (va < pgs (p_sz x) * PGSIZE)) as [Hlt|Hge].
    + rewrite B7 by lia. by apply (cm_view _ _ _ _ Hc1).
    + rewrite (aspace_beyond ρ2 l2 own2 m2 (p_pagetable y) (p_sz x)) by (done || lia).
      by rewrite (aspace_beyond ρ l own (ms s0) (p_pagetable x) (p_sz x)) by (done || lia || apply Hpp).
  - intros v Hv. destruct (B6 v Hv) as [F1 F2].
    change (pt m3) with (pt (set_mem (frame_copy (mem m2) (p_trapframe x) (p_trapframe y)) m2)). by rewrite !Hpt3.
  - intros i Hi'. change (mem m3) with (frame_copy (mem m2) (p_trapframe x) (p_trapframe y)). rewrite Hfc by done. destruct (decide _); [done|].
    apply (cm_mem _ _ _ _ Hc2). destruct (pp_tf _ _ _ _ _ Hpp) as [Hal _]. replace i with (i mod PGSIZE) by (apply Z.mod_small; unfold sizeof_trapframe, PGSIZE in *; lia).
    by rewrite page_offset.
Qed.

Lemma wp_fork ρ l own cwd (Q : Z -> kernel -> Prop) :
  let x := procs s0 me in
  forking ρ l own cwd ->
  (forall P' k' m' ρ' l' own',
     (k' = nextpid s0 /\ forall p, 0 <= p < NPROC -> p_state (procs s0 p) <> UNUSED) \/
     (k' = s32 (nextpid s0 + 1) /\ (exists p, 0 <= p < NPROC /\ p_state (procs s0 p) = UNUSED) /\ Z.of_nat (length l) < 6 + 2 * pgs (p_sz x)) ->
     hon c [] (hart m') -> cinv ρ' l' own' m' -> calm ρ (ms s0) ρ' m' ->
     (forall p, p_state (procs s0 p) <> UNUSED -> P' p = procs s0 p) ->
     (forall p, p_state (procs s0 p) = UNUSED -> p_state (P' p) = UNUSED /\ (0 <= p < NPROC -> clean (P' p))) ->
     (forall p, ρ' p = ρ p) ->
     Q (-1) (fk m' P' k' (files s0) (inodes s0))) ->
  (forall np y z m' ρ' l' own' F', 0 <= np < NPROC -> p_state (procs s0 np) = UNUSED -> (forall q, 0 <= q < np -> p_state (procs s0 q) <> UNUSED) ->
     new_proc (procs s0 np) y (nextpid s0) -> child_of x y z (nextpid s0) (p_sz x) ->
     hon c [] (hart m') -> cinv ρ' l' own' m' -> calm ρ (ms s0) ρ' m' -> child_memory ρ' x z m' ->
     (forall f, F' f = set_f_ref (f_ref (files s0 f) + nopen (p_ofile x) NOFILE f) (files s0 f)) ->
     Q (nextpid s0) (fk m' (<[np := z]> (procs s0)) (s32 (nextpid s0 + 1)) F'
       (<[cwd := set_i_ref (i_ref (inodes s0 cwd) + 1) (inodes s0 cwd)]> (inodes s0)))) ->
  wp fork n s0 Q.
Proof.
  intros x Hf HQ0 HQ1. pose proof Hf as [[Hh Hme Hst _] Hi Hpp Hkf Hcw Hrf Hcn]. unfold fork. apply wp_bind. eapply wp_myproc; [exact Hh|]. intros h1 H1. rewrite Hme.
  change (hk h1 s0) with (fk (set_hart h1 (ms s0)) (procs s0) (nextpid s0) (files s0) (inodes s0)).
  assert (cinv ρ l own (set_hart h1 (ms s0))) as Hi1 by by apply cinv_set_hart.
  assert (calm ρ (ms s0) ρ (set_hart h1 (ms s0))) as Hc0 by apply calm_hart, calm_refl.
  assert (0 <= pgs (p_sz x)) as Hpg by (destruct (pgs_bounds (p_sz x)) as (_ & ? & _); [apply (as_size _ _ _ _ (pp_space _ _ _ _ _ Hpp))|done]).
  apply wp_bind. eapply (wp_allocproc (set_hart h1 (ms s0)) _ _ _ _ ρ l own); [exact H1|exact Hi1|exact Hcn|..].
  - intros h2 H2 Hnone. apply wp_ret. apply (HQ0 _ _ _ ρ l own); [by left|exact H2|by apply cinv_set_hart|by apply calm_hart|done|auto|done].
  - intros p m' ρ' l' own' y Hp Hun Hh' Hi' Hc' Hy Hyc Hlen Hsame. apply wp_ret.
    apply (HQ0 _ _ _ ρ' l' own'); [right; split_and!; [done|by exists p|lia]|done|done|by destruct Hc'|..|done].
    + intros q Hq. apply fn_insert_ne. by intros ->.
    + intros q Hq. rewrite fn_insert_spec. destruct (decide (p = q)); auto.
  - intros np m1 ρ1 l1 own1 y Hp Hun Hfst Hh' Hi' Hc1 Hy Htf Htf0 Htf1 Hnu Hptn Hpy Hlen (la & owna & ma & Hia & Hla & Hua).
    assert (np <> me) as Hne by (intros ->; congruence). set (P1 := <[np := y]> (procs s0)).
    assert (P1 me = x /\ P1 np = y) as [Eme Enp] by (subst P1; split; [by apply fn_insert_ne|apply fn_lookup_insert]).
    unfold deref, pget at 1 2 3. apply wp_bind, wp_ret. do 3 apply wp_bind, wp_gets.
    change (procs (fk m1 P1 (s32 (nextpid s0 + 1)) (files s0) (inodes s0))) with P1. rewrite Eme, Enp.
    assert (uroot ρ (p_pagetable x)) as Hux by apply Hpp. assert (calm ρ (ms s0) ρ1 m1) as Hc01 by (destruct Hc1; by split).
    assert (aspace ρ1 m1 (p_pagetable x) (p_sz x)) as Hax.
    { destruct (pp_space _ _ _ _ _ Hpp) as [D1 D2 D3]. split; [by apply (cm_root _ _ _ _ Hc01)|done|].
      intros v Hv. rewrite (cm_valid _ _ _ _ Hc01) by (done || by apply user_vpn). by apply D3. }
    assert (p_pagetable x <> p_pagetable y) as Hxy by (intros E; apply Hnu; by rewrite <-E). assert (Lkmem ∉ [Lproc np]) as Hnk by notin.
    apply wp_bind, wp_lift. match goal with |- wp _ _ ?s _ => change s with m1 end.
    pose proof (wp_uvmcopy (SP := hart_spin c) ρ1 l1 own1 m1 _ _ _ n [Lproc np] Hn Hi' Hh' Hnk Hax (pp_space _ _ _ _ _ Hpy) Hxy) as Hcopy.
    eapply wp_mono; [exact Hcopy|].
    intros r m2 (ρ2 & l2 & own2 & [(-> & Hcp)|(-> & Hi2 & Hh2 & Hay & _ & Hq & Hlen2 & Hkeep)]).
    + change (0 <? 0) with false. cbv iota.
      eapply (wp_fork_rest m2 P1 _ _ _ np (p_sz x) cwd); rewrite ?Eme, ?Enp; try done; [apply Hcp|intros i; rewrite (np_files _ _ _ Hy); by apply (cl_files _ (Hcn np Hp Hun))|].
      intros h3 z F' H3 Hz HF. destruct (child_memory_ok ρ l own cwd ρ1 m1 ρ2 l2 own2 m2 np y z h3 Hf Hc01 Hpy Hnu Htf0 Htf1 Hcp (ch_memory _ _ _ _ _ Hz)) as (Hi3 & Hc3 & Hm3).
      rewrite (np_pid _ _ _ Hy) in *. unfold P1. rewrite insert_same. by apply (HQ1 np y z _ ρ2 l2 own2).
    + change (-1 <? 0) with true. cbv iota.
      change (lset m2 (fk m1 P1 (s32 (nextpid s0 + 1)) (files s0) (inodes s0))) with (fk m2 P1 (s32 (nextpid s0 + 1)) (files s0) (inodes s0)).
      assert (calm ρ (ms s0) ρ2 m2) as Hc2 by by eapply calm_quiet.
      apply wp_bind. eapply (wp_freeproc m2 P1 _ _ _ np ρ (ms s0) ρ2 l2 own2 [Lproc np]); rewrite ?Enp; [exact Hh2|exact Hnk|exact Hi2|exact Hc2|..].
      * intros _. split; [|congruence]. by rewrite (d_kern _ _ _ _ _ _ (Hq 0 (fun _ => False))) by auto.
      * intros _. rewrite (np_size _ _ _ Hy). split; [|done]. by eapply (procpt_delta _ _ _ _ 0 (fun _ => False)).
      * intros m3 ρ3 l3 own3 Hh3 Hi3 Hc3 _ _ Hback. apply wp_bind. eapply wp_unlock; [exact Hh3|]. intros h4 H4. apply wp_ret. unfold P1. rewrite insert_same.
        apply (HQ0 _ _ (set_hart h4 m3) ρ3 l3 own3); [right; split_and!; [done|by exists np|lia]|done|by apply cinv_set_hart|by apply calm_hart|..].
        -- intros q Hq0. apply fn_insert_ne. by intros ->.
        -- intros q Hq0. cbv beta. destruct (decide (np = q)); [|auto]. split; [done|]. intros _. split; [done|done|].
           intros i. cbn. rewrite (np_files _ _ _ Hy). by apply (cl_files _ (Hcn np Hp Hun)).
        -- apply (Hback ρ l own _ Hi1). eapply taken_both; [exact Htf|exact Hptn|exact Htf0|reflexivity|exact Hla|]. by eapply Hkeep.
Qed.

(** ** The contract of fork *)

(** [fork] left nothing behind: the files, the inodes and the processes in use
    are those before, the unused processes have no memory and no files, every
    page has the role it had and the same pages are free. Either no process
    was unused, or an identifier was used up and fewer pages were free than a
    child of this size can need. *)
Record fork_failed (ρ : Z -> role) (l : list Z) (ρ' : Z -> role) (l' : list Z) (s' : kernel) : Prop := {
  ff_files : files s' = files s0 /\ inodes s' = inodes s0;
  ff_procs : forall p, p_state (procs s0 p) <> UNUSED -> procs s' p = procs s0 p;
  ff_unused : forall p, p_state (procs s0 p) = UNUSED -> p_state (procs s' p) = UNUSED /\ (0 <= p < NPROC -> clean (procs s' p));
  ff_pages : (forall p, ρ' p = ρ p) /\ l' ≡ₚ l;
  ff_short :
    (nextpid s' = nextpid s0 /\ forall p, 0 <= p < NPROC -> p_state (procs s0 p) <> UNUSED) \/
    (nextpid s' = s32 (nextpid s0 + 1) /\ (exists p, 0 <= p < NPROC /\ p_state (procs s0 p) = UNUSED) /\
     Z.of_nat (length l) < 6 + 2 * pgs (p_sz (procs s0 me)))
}.

(** [fork] made the process [np] a child of [me]. *)
Record fork_made (ρ' : Z -> role) (cwd np : Z) (s' : kernel) : Prop := {
  fd_slot : 0 <= np < NPROC /\ p_state (procs s0 np) = UNUSED /\ forall q, 0 <= q < np -> p_state (procs s0 q) <> UNUSED;
  fd_procs : forall p, p <> np -> procs s' p = procs s0 p;
  fd_state : p_state (procs s' np) = RUNNABLE /\ p_parent (procs s' np) = Some me;
  fd_pid : p_pid (procs s' np) = nextpid s0 /\ nextpid s' = s32 (nextpid s0 + 1);
  fd_context : p_context (procs s' np) = mkContext forkret_addr (u64 (p_kstack (procs s0 np) + PGSIZE)) (fun _ => 0);
  fd_open : forall i, 0 <= i < NOFILE -> p_ofile (procs s' np) i = p_ofile (procs s0 me) i;
  fd_cwd : p_cwd (procs s' np) = Some cwd;
  fd_name : p_name (procs s' np) = safestrcpy (p_name (procs s0 np)) 0 (p_name (procs s0 me)) 16;
  fd_size : p_sz (procs s' np) = p_sz (procs s0 me);
  fd_memory : child_memory ρ' (procs s0 me) (procs s' np) (ms s');
  fd_refs : forall f, files s' f = set_f_ref (f_ref (files s0 f) + nopen (p_ofile (procs s0 me)) NOFILE f) (files s0 f);
  fd_inodes : inodes s' = <[cwd := set_i_ref (i_ref (inodes s0 cwd) + 1) (inodes s0 cwd)]> (inodes s0)
}.

(** C4: [fork] returns. Either it returns the next process identifier, and the
    first unused entry of the process table is a runnable child of the caller
    whose memory reads as the caller's at every address, shares every page
    copy-on-write, whose trapframe is the caller's but for a zero in [a0], and
    which has the caller's open files, each counted once more per descriptor,
    its current directory, counted once more, and its name. Or it returns -1
    and leaves nothing behind: no process in use, no file and no inode has
    changed, the unused entries of the process table have no memory and no
    files, every page has the role it had and exactly the pages that were free
    are free, so that the trapframe, the page-table pages and the references
    taken for the child have been given back. This happens only when no
    process is unused, and then no identifier is used up, or when fewer than
    six pages and two per page of the caller are free, and then one identifier
    is; pages of the caller may be left marked copy-on-write. In both cases every address space that was there reads as
    before, the invariant of the memory holds again and no lock is held. *)
Theorem fork_copies ρ l own cwd :
  forking ρ l own cwd ->
  exists r s', fork n s0 = Ret r s' /\ exists ρ' l' own', s' = fk (ms s') (procs s') (nextpid s') (files s') (inodes s') /\
    hon c [] (khart s') /\ cinv ρ' l' own' (ms s') /\ calm ρ (ms s0) ρ' (ms s') /\
    ((r = -1 /\ fork_failed ρ l ρ' l' s') \/ (r = nextpid s0 /\ exists np, fork_made ρ' cwd np s')).
Proof.
  intros Hf. pose proof (fo_cwd _ _ _ _ Hf) as Hcwd. apply wp_elim.
  apply (wp_fork ρ l own cwd); [exact Hf|..].
  - intros P' k' m' ρ' l' own' Hsh Hh Hi Hc HP HU Hsame. exists ρ', l', own'. split; [reflexivity|]. split; [exact Hh|].
    split; [exact Hi|]. split; [exact Hc|]. left. split; [reflexivity|]. split; [by split|exact HP|exact HU| |exact Hsh].
    split; [exact Hsame|]. exact (same_free _ _ _ _ _ _ _ _ (fo_cinv _ _ _ _ Hf) Hi Hsame).
  - intros np y z m' ρ' l' own' F' Hp Hun Hfst Hy Hz Hh Hi Hc Hm HF. exists ρ', l', own'. split; [reflexivity|]. split; [exact Hh|].
    split; [exact Hi|]. split; [exact Hc|]. right. split; [reflexivity|]. exists np.
    destruct Hy as [Y1 Y2 Y3 Y4 Y5 Y6], Hz as [Z1 Z2 Z3 Z4 Z5 Z6 Z7 Z8 Z9].
    split; cbn [fk procs files inodes ms nextpid set_inodes set_files set_nextpid set_procs set_ms]; rewrite ?fn_lookup_insert.
    + split; [exact Hp|]. split; [exact Hun|exact Hfst].
    + intros p Hne. by apply fn_insert_ne.
    + split; [exact Z1|exact Z3].
    + split; [exact Z2|reflexivity].
    + rewrite Z6. exact Y5.
    + exact Z7.
    + rewrite Z8. exact Hcwd.
    + destruct Y6 as (_ & _ & Y6 & _). rewrite Z9, Y6. reflexivity.
    + exact Z4.
    + exact Hm.
    + exact HF.
    + reflexivity.
Qed.

End procs.

(** ** A process that forks *)

#[local] Existing Instance small_kernel.
#[local] Existing Instance small_kernel_ok.

(** Memory with 24 free pages. *)
Definition roomy_pages : list Z := page <$> seqZ 2 24.
Definition roomy : mstate machine :=
  MState (foldr (fun i m => store64 m (page i) (page (i + 1))) (fun _ => 0) (seqZ 2 23)) (page 2) (fun _ => 0) idle_hart.

Lemma roomy_free : free_inv roomy roomy_pages.
Proof.
  split.
  - by vm_compute.
  - apply (bool_decide_unpack _). by vm_compute.
  - intros p (i & -> & Hi%elem_of_seqZ)%list_elem_of_fmap. unfold managed, page. change kfirst with (page0 - PGSIZE). unfold page0. pages.
    split_and!; Z.div_mod_to_equations; lia.
  - done.
Qed.

(** Process 1, with two pages of memory and the file 3 open as descriptor 0. *)
Definition parent (x : proc) : proc :=
  set_p_state RUNNING (set_p_parent None (set_p_chan Cnone (set_p_cwd (Some 0) (set_p_ofile (<[0 := Some 3]> (fun _ => None)) (set_p_sz 8192 x))))).

Definition kernelP (m : mstate machine) (x : proc) : kernel :=
  set_cpu_proc (fun _ => Some 1) (set_files (<[3 := set_f_ref 1 file0]> (fun _ => file0))
    (set_procs (<[1 := parent x]> (procs kernel0)) (set_ms (set_hart idle_hart m) kernel0))).

Lemma kernel0_clean p : p_state (procs kernel0 p) = UNUSED -> clean (procs kernel0 p).
Proof. cbn. by case_decide. Qed.

Lemma parent_ready : exists m x ρ l own, forking (c := 0) (me := 1) (kernelP m x) ρ l own 0 /\ (10 <= length l)%nat /\
  zero_pages m (p_pagetable x) 0 2.
Proof.
  assert (wp allocproc Sample.fuel (fk kernel0 roomy (procs kernel0) 2 (fun _ => file0) (fun _ => inode0)) (fun r s => r = Some 1 /\
    exists ρ l own, hon 0 [Lproc 1] (hart (ms s)) /\ cinv ρ l own (ms s) /\ procpt ρ (ms s) (p_pagetable (procs s 1)) 0 (p_trapframe (procs s 1)) /\
      ρ (p_trapframe (procs s 1)) = RKern /\ (18 <= length l)%nat)) as (r & s & _ & _ & ρ & l & own & Hh & Hi & Hp & Hk & Hlen)%wp_elim.
  { apply (wp_allocproc (c := 0) kernel0 Sample.fuel fuel_big roomy _ _ _ _ (free_role roomy_pages) roomy_pages (fun _ => [])).
    - split; [apply idle_hart_mrep|done].
    - apply cinv_start, roomy_free.
    - intros p _. apply kernel0_clean.
    - intros h _ Hno. by destruct (Hno 1).
    - intros p m ρ l own x _ _ _ _ _ _ _ Hl _. revert Hl. change (length roomy_pages) with 24%nat. lia.
    - intros p m ρ l own x Hp Hun Hfst Hh Hi _ _ _ _ Hk _ _ Hpt Hl _. assert (p = 1) as ->.
      { destruct (decide (p = 0)) as [->|]; [done|]. destruct (decide (1 < p)); [by destruct (Hfst 1 ltac:(lia))|lia]. }
      split; [reflexivity|]. exists ρ, l, own. cbn [ms procs fk set_inodes set_files set_nextpid set_procs set_ms]. rewrite fn_lookup_insert.
      split_and!; [exact Hh|exact Hi|exact Hpt|exact Hk|]. revert Hl. change (length roomy_pages) with 24%nat. lia. }
  set (m := ms s) in *. set (x := procs s 1) in *.
  destruct (wp_elim _ _ _ _ (wp_uvmalloc (SP := hart_spin 0) ρ l own m (p_pagetable x) 0 8192 Sample.fuel [Lproc 1] fuel_big Hi Hh ltac:(notin) (pp_space _ _ _ _ _ Hp) ltac:(lia)))
    as (sz & m' & _ & ρ' & l' & own' & Hi' & _ & [(_ & Ha & Hd & Hz & Hl)|(_ & _ & _ & Hl)]).
  2:{ change (pgs 8192 - pgs 0) with 2 in Hl. lia. }
  change (pgs 8192 - pgs 0) with 2 in Hl. exists m', x, ρ', l', own'. split; [|split; [lia|exact Hz]].
  assert (procpt ρ' m' (p_pagetable x) 8192 (p_trapframe x)) as Hp' by (eapply procpt_space; [exact Hd|done|exact Hp|exact Ha]).
  split; cbn [kernelP procs ms cpu_proc files set_cpu_proc set_files set_procs set_ms]; rewrite ?fn_lookup_insert.
  - split; [split; [apply idle_hart_mrep|done]|done|cbn; by rewrite fn_lookup_insert..].
  - by apply cinv_set_hart.
  - by destruct Hp' as [[] ? ? ?].
  - cbn. rewrite (d_kern _ _ _ _ _ _ Hd); auto.
  - done.
  - intros i f Hif. cbn. rewrite fn_insert_spec. destruct (decide (0 = i)); [|done]. intros [= <-]. by rewrite fn_lookup_insert.
  - intros p _. rewrite fn_insert_spec. destruct (decide (1 = p)); [done|apply kernel0_clean].
Qed.

Lemma fork_copies_witness : exists s s' np, fork Sample.fuel s = Ret 2 s' /\ p_state (procs s' np) = RUNNABLE /\
  ubyte (ms s') (p_pagetable (procs s' np)) 4097 = Some 0 /\ f_ref (files s' 3) = 2.
Proof.
  destruct parent_ready as (m & x & ρ & l & own & Hf & Hl & Hz).
  destruct (fork_copies (c := 0) (me := 1) (kernelP m x) Sample.fuel fuel_big ρ l own 0 Hf)
    as (r & s' & E & ρ' & l' & own' & _ & _ & _ & _ & [[_ [_ _ _ _ [[_ Hno]|(_ & _ & Hsh)]]]|(-> & np & [F1 F2 [F3 _] F4 F5 F6 F7 F8 F9 [M1 _ M2 M3 M4] F11 F12])]).
  - exfalso. clear E. apply (Hno 2); [unfold NPROC; lia|reflexivity].
  - exfalso. clear E. change (p_sz (procs (kernelP m x) 1)) with 8192 in Hsh. change (pgs 8192) with 2 in Hsh. lia.
  - exists (kernelP m x), s', np. split; [exact E|]. clear E. split; [exact F3|]. split.
    + rewrite M2 by (rewrite MAXVA_eq; lia). apply (Hz 4097). pages. lia.
    + rewrite F11. reflexivity.
Defined.
