(* ===== verification/WaitProof.v ===== *)
(** * The system call wait

    [wait] of [src/kernel/proc.c]: it reaps the first child that has exited,
    stores its status in the memory of the caller and gives everything the child
    had back; without children, or for a process that has been killed, it fails
    without effect. *)

From S2P Require Import Prelude Riscv Spinlock Str Kalloc Vm PageTable Cow Pages UserMem Fork FreeVm CopyUser ProcVm VmHistory Sample Kernel Proc ProcLife KernelWp SampleKernel KernelVm ForkProof.

Section wait.
Context {LY : Layout} {LO : LayoutOk} {c me : Z}.
Context (s0 : kernel) (n : nat) (Hn : 32770 < Z.of_nat n).
Implicit Types (m : mstate machine) (ρ : Z -> role) (own : Z -> list (Z * Z)).

(** A child of the caller, and one that has exited. *)
Definition child_proc (p : Z) : Prop := p_parent (procs s0 p) = Some me.
Definition exited (p : Z) : Prop := child_proc p /\ p_state (procs s0 p) = ZOMBIE.
Definition first_exited (p : Z) : Prop := 0 <= p < NPROC /\ exited p /\ forall q, 0 <= q < p -> ~ exited q.

(** The process that calls [wait]. *)
Record waiting (ρ : Z -> role) (l : list Z) (own : Z -> list (Z * Z)) (addr : Z) : Prop := {
  wt_runs : runs c me [] s0;
  wt_cinv : cinv ρ l own (ms s0);
  wt_table : uroot ρ (p_pagetable (procs s0 me));
  wt_addr : 0 <= addr < 2 ^ 64;
  wt_child : forall p, 0 <= p < NPROC -> exited p ->
    ρ (p_trapframe (procs s0 p)) = RKern /\ p_pagetable (procs s0 p) <> p_pagetable (procs s0 me) /\
    procpt ρ (ms s0) (p_pagetable (procs s0 p)) (p_sz (procs s0 p)) (p_trapframe (procs s0 p))
}.

(** What [wait] does with the exited child [np]. *)
Definition reap (np addr : Z) : K (ctl bool Z) :=
  pid ← pget np p_pid;
  xst ← pget np p_xstate;
  pt ← pget me p_pagetable;
  r ← (if negb (addr =? 0) then lift (copyout pt addr (int_bytes xst) 4 : M (mstate machine) Z) else mret 0);
  if r <? 0 then
    unlock (Lproc np);;
    unlock Lwait;;
    mret (Done (-1))
  else
  freeproc np;;
  unlock (Lproc np);;
  unlock Lwait;;
  mret (Done pid).

(** The scan ends at the first exited child, or knows whether there are children. *)
Lemma wp_wait_scan addr h (Q : ctl bool Z -> kernel -> Prop) :
  hon c [Lwait] h ->
  (forall h' b, hon c [Lwait] h' -> (forall p, 0 <= p < NPROC -> ~ exited p) ->
     (b = true -> exists p, 0 <= p < NPROC /\ child_proc p) -> (b = false -> forall p, 0 <= p < NPROC -> ~ child_proc p) -> Q (Next b) (hk h' s0)) ->
  (forall np h', hon c [Lproc np; Lwait] h' -> first_exited np -> wp (reap np addr) n (hk h' s0) (fun r s' => exists v, r = Done v /\ Q r s')) ->
  wp (wait_scan me addr) n (hk h s0) Q.
Proof.
  intros Hh HQ0 HQ1. unfold wait_scan.
  apply (wp_forl (fun i b s => exists h1, hon c [Lwait] h1 /\ s = hk h1 s0 /\ (forall p, 0 <= p < i -> ~ exited p) /\
    (b = true -> exists p, 0 <= p < i /\ child_proc p) /\ (b = false -> forall p, 0 <= p < i -> ~ child_proc p))).
  - exists h. split_and!; [done|done|lia|done|lia].
  - intros i b s Hi (h1 & H1 & -> & Hno & Ht & Hf). unfold pget at 1. apply wp_bind, wp_gets.
    change (procs (hk h1 s0) i) with (procs s0 i). destruct (bool_decide_reflect (p_parent (procs s0 i) = Some me)) as [Hc|Hc]; cbn [negb].
    2:{ apply wp_ret. exists h1. split_and!; [done|done|..].
        - intros p Hp He. destruct (decide (p = i)) as [->|]; [by destruct He|]. apply (Hno p); [lia|done].
        - intros Hb. destruct (Ht Hb) as (p & Hp & Hcp). exists p. split; [lia|done].
        - intros Hb p Hp. destruct (decide (p = i)) as [->|]; [done|]. apply Hf; [done|lia]. }
    apply wp_bind. eapply wp_lock; [lia|exact H1|notin|]. intros h2 H2. change (hk h2 (hk h1 s0)) with (hk h2 s0).
    unfold pget at 1. apply wp_bind, wp_gets. change (procs (hk h2 s0) i) with (procs s0 i).
    destruct (decide (p_state (procs s0 i) = ZOMBIE)) as [Hz|Hz].
    + eapply wp_mono; [apply (HQ1 i h2 H2); split; [unfold NPROC in *; lia|split; [by split|exact Hno]]|]. intros r s' (v & -> & HQ). exact HQ.
    + apply wp_bind. eapply wp_unlock; [exact H2|]. intros h3 H3. apply wp_ret. exists h3. split_and!; [done|done|..].
      * intros p Hp. destruct (decide (p = i)) as [->|]; [by intros [_ ?]|]. apply Hno. lia.
      * intros _. exists i. split; [lia|done].
      * done.
  - intros b s (h1 & H1 & -> & Hno & Ht & Hf). by apply HQ0.
Qed.

(** The roles without the pages of an exited child. *)
Definition without ρ (x : proc) : Z -> role := <[p_trapframe x := RNone]> (<[p_pagetable x := RNone]> ρ).

Lemma without_uroot ρ x r : uroot (without ρ x) r -> uroot ρ r /\ r <> p_pagetable x.
Proof.
  unfold uroot, without. rewrite !fn_insert_spec. destruct (decide (p_trapframe x = r)); [done|].
  destruct (decide (p_pagetable x = r)) as [|E]; [done|]. intros ?. split; [done|congruence].
Qed.

Lemma without_kern ρ x p : without ρ x p = RKern -> ρ p = RKern /\ p <> p_trapframe x.
Proof.
  unfold without. rewrite !fn_insert_spec. destruct (decide (p_trapframe x = p)) as [|E]; [done|].
  destruct (decide (p_pagetable x = p)); [done|]. intros ?. split; [done|congruence].
Qed.

Lemma without_other ρ x p : p <> p_trapframe x -> p <> p_pagetable x -> without ρ x p = ρ p.
Proof. intros H1 H2. unfold without. by rewrite !fn_insert_ne. Qed.

(** The child [np] has been reaped, its status stored at [addr]. *)
Record reaped ρ (addr np : Z) ρ' (s' : kernel) : Prop := {
  rp_procs : procs s' = <[np := freed_proc (procs s0 np)]> (procs s0);
  rp_free : ρ' (p_pagetable (procs s0 np)) = RFree /\ ρ' (p_trapframe (procs s0 np)) = RFree;
  rp_roots : forall r, uroot ρ r -> r <> p_pagetable (procs s0 np) -> uroot ρ' r;
  rp_view : forall r va, uroot ρ r -> r <> p_pagetable (procs s0 np) -> 0 <= va < MAXVA -> ubyte (ms s') r va =
    if decide (addr <> 0 /\ r = p_pagetable (procs s0 me) /\ addr <= va < addr + 4)
    then Some (int_bytes (p_xstate (procs s0 np)) !!! Z.to_nat (va - addr)) else ubyte (ms s0) r va;
  rp_kern : forall p, ρ p = RKern -> p <> p_trapframe (procs s0 np) -> ρ' p = RKern;
  rp_mem : forall x, ρ (PGROUNDDOWN x) = RKern -> PGROUNDDOWN x <> p_trapframe (procs s0 np) -> mem (ms s') x = mem (ms s0) x
}.

(** The status could not be stored: the child is still there, and the caller's
    memory has at most a part of the status. *)
Record unreaped ρ (addr np : Z) ρ' (l' : list Z) (s' : kernel) : Prop := {
  kp_procs : procs s' = procs s0;
  kp_store : exists k, (k < 4)%nat /\ addr <> 0 /\
    wrote ρ (ms s0) ρ' (ms s') (p_pagetable (procs s0 me)) addr (take k (int_bytes (p_xstate (procs s0 np)))) /\
    ((length l' <= 1)%nat \/ faults (ms s0) (p_pagetable (procs s0 me)) (addr + Z.of_nat k))
}.

(** What the copy of the status and [freeproc] do together. *)
Lemma reaped_memory ρ l own addr np ρ1 m1 ρ2 m2 P k F I :
  waiting ρ l own addr -> 0 <= np < NPROC -> exited np ->
  (addr = 0 /\ ρ1 = ρ /\ mem m1 = mem (ms s0)) \/
  (addr <> 0 /\ wrote ρ (ms s0) ρ1 m1 (p_pagetable (procs s0 me)) addr (int_bytes (p_xstate (procs s0 np)))) ->
  calm (without ρ1 (procs s0 np)) m1 ρ2 m2 -> ρ2 (p_pagetable (procs s0 np)) = RFree /\ ρ2 (p_trapframe (procs s0 np)) = RFree ->
  P = <[np := freed_proc (procs s0 np)]> (procs s0) -> reaped ρ addr np ρ2 (fk s0 m2 P k F I).
Proof.
  intros [Hr Hi Hu _ Hch] Hp He Hw [A1 A2 A3 A4 A5 A6] Hfr ->. destruct (Hch np Hp He) as (Hk & Hne & Hpp). set (x := procs s0 np) in *.
  assert (uroot ρ (p_pagetable x)) as Hux by apply Hpp.
  assert (forall r, uroot ρ1 r <-> uroot ρ r) as Hroots by (destruct Hw as [(_ & -> & _)|[_ Hw]]; [done|apply Hw]).
  assert (forall p, ρ p = RKern -> ρ1 p = RKern) as Hkern by (intros p E; destruct Hw as [(_ & -> & _)|[_ Hw]]; [done|]; rewrite (wr_kern _ _ _ _ _ _ _ Hw); auto).
  assert (forall r, uroot ρ r -> r <> p_pagetable x -> uroot (without ρ1 x) r) as Hrw.
  { intros r Hur Hrx. assert (r <> p_trapframe x) by (unfold uroot in Hur; congruence). unfold uroot. rewrite without_other by done. by apply Hroots. }
  assert (forall p, ρ p = RKern -> p <> p_trapframe x -> without ρ1 x p = RKern) as Hkw.
  { intros p E1 E2. assert (p <> p_pagetable x) by (unfold uroot in Hux; congruence). rewrite without_other by done. by apply Hkern. }
  split; cbn [procs ms fk set_inodes set_files set_nextpid set_procs set_ms].
  - reflexivity.
  - exact Hfr.
  - intros r Hur Hrx. apply A1. by apply Hrw.
  - intros r va Hur Hrx Hva. rewrite A2 by (done || by apply Hrw). destruct Hw as [(-> & -> & Em)|[Ha Hw]].
    + rewrite decide_False by tauto. unfold ubyte, pte_at. by rewrite Em.
    + rewrite (wr_view _ _ _ _ _ _ _ Hw r va Hur Hva). change (Z.of_nat (length (int_bytes _))) with 4.
      by repeat case_decide; try tauto.
  - intros p E1 E2. by apply A5, Hkw.
  - intros y E1 E2. rewrite A6 by by apply Hkw. destruct Hw as [(_ & _ & ->)|[_ Hw]]; [done|]. rewrite (wr_mem _ _ _ _ _ _ _ Hw); auto.
Qed.

Lemma calm_without ρ m x : calm (without ρ x) m ρ m.
Proof. split; try done; [by intros r [? _]%without_uroot|by intros p [? _]%without_kern]. Qed.

Lemma without_self ρ x : without ρ x (p_trapframe x) <> RKern /\ ~ uroot (without ρ x) (p_pagetable x).
Proof. split; [by intros [_ ?]%without_kern|by intros [_ ?]%without_uroot]. Qed.

(** [freeproc] of the child and the release of the locks. *)
Lemma wp_reap_free ρ l own m np pid (Q : ctl bool Z -> kernel -> Prop) :
  let x := procs s0 np in
  hon c [Lproc np; Lwait] (hart m) -> cinv ρ l own m -> ρ (p_trapframe x) = RKern -> procpt ρ m (p_pagetable x) (p_sz x) (p_trapframe x) ->
  (forall m' ρ' l' own', hon c [] (hart m') -> cinv ρ' l' own' m' -> calm (without ρ x) m ρ' m' -> ρ' (p_pagetable x) = RFree /\ ρ' (p_trapframe x) = RFree ->
     Q (Done pid) (fk s0 m' (<[np := freed_proc x]> (procs s0)) (nextpid s0) (files s0) (inodes s0))) ->
  wp (freeproc np;; unlock (Lproc np);; unlock Lwait;; mret (Done pid)) n (fk s0 m (procs s0) (nextpid s0) (files s0) (inodes s0)) Q.
Proof.
  intros x Hh Hi Hk Hp HQ. destruct (without_self ρ x) as [W1 W2].
  assert (p_pagetable x <> 0) as Hnz.
  { assert (managed (p_pagetable x)) as Hm by (apply (ti_managed _ _ _ (ci_t _ _ _ _ Hi)); pose proof (as_root _ _ _ _ (pp_space _ _ _ _ _ Hp)) as E; unfold uroot in E; congruence).
    pose proof (managed_nonzero _ Hm). lia. }
  assert (p_trapframe x <> 0) as Hnt.
  { assert (managed (p_trapframe x)) as Hm%managed_nonzero by (apply (ti_managed _ _ _ (ci_t _ _ _ _ Hi)); congruence). lia. }
  apply wp_bind. eapply (wp_freeproc s0 n Hn m _ _ _ _ np (without ρ x) m ρ l own [Lproc np; Lwait]); [exact Hh|notin|exact Hi|apply calm_without|done|done|].
  intros m1 ρ1 l1 own1 H1 Hi1 Hc1 Hft Hfr _. apply wp_bind. eapply wp_unlock; [exact H1|]. intros h2 H2. apply wp_bind. eapply wp_unlock; [exact H2|]. intros h3 H3.
  apply wp_ret. apply (HQ (set_hart h3 m1) ρ1 l1 own1); [exact H3|by apply cinv_set_hart|by apply calm_hart|split; [by apply Hfr|by apply Hft]].
Qed.

Lemma wp_reap ρ l own addr np h (Q : ctl bool Z -> kernel -> Prop) :
  let x := procs s0 np in
  waiting ρ l own addr -> first_exited np -> hon c [Lproc np; Lwait] h ->
  (forall m ρ' l' own', let s' := fk s0 m (<[np := freed_proc x]> (procs s0)) (nextpid s0) (files s0) (inodes s0) in
     hon c [] (hart m) -> cinv ρ' l' own' m -> reaped ρ addr np ρ' s' -> Q (Done (p_pid x)) s') ->
  (forall m ρ' l' own', let s' := fk s0 m (procs s0) (nextpid s0) (files s0) (inodes s0) in
     hon c [] (hart m) -> cinv ρ' l' own' m -> unreaped ρ addr np ρ' l' s' -> Q (Done (-1)) s') ->
  wp (reap np addr) n (hk h s0) Q.
Proof.
  intros x Hw (Hp & He & _) Hh HQ0 HQ1. pose proof Hw as [Hr Hi Hu Ha Hch]. destruct (Hch np Hp He) as (Hk & Hne & Hpp).
  change (hk h s0) with (fk s0 (set_hart h (ms s0)) (procs s0) (nextpid s0) (files s0) (inodes s0)). unfold reap, pget. do 3 apply wp_bind, wp_gets.
  match goal with |- context [procs ?s np] => change (procs s) with (procs s0) end. fold x. set (r := p_pagetable _).
  apply wp_bind. destruct (Z.eqb_spec addr 0) as [E|E]; cbn [negb].
  - apply wp_ret. change (0 <? 0) with false. cbv iota.
    apply (wp_reap_free ρ l own); [exact Hh|by apply cinv_set_hart|done|by destruct Hpp as [[] ? ? ?]|].
    intros m' ρ' l' own' H' Hi' Hc Hfr. apply (HQ0 m' ρ' l' own' H' Hi'). eapply (reaped_memory ρ l own addr np ρ (set_hart h (ms s0))); try done. by left.
  - apply (wp_kcopyout (c := c) ρ l own _ r addr (int_bytes (p_xstate x)) n [Lproc np; Lwait]);
      [change (Z.of_nat (length (int_bytes (p_xstate x))) / PGSIZE) with 0; lia|by apply cinv_set_hart|exact Hh|notin|notin|exact Hu|exact Ha|].
    intros res m1 ρ1 l1 own1 k Hi1 H1 Hwr Hres. assert (wrote ρ (ms s0) ρ1 m1 r addr (take k (int_bytes (p_xstate x)))) as Hwr' by by destruct Hwr.
    destruct Hres as [[-> ->]|(-> & Hk4 & Hf)].
    + change (0 <? 0) with false. cbv iota. rewrite take_ge in Hwr' by done.
      apply (wp_reap_free ρ1 l1 own1); [exact H1|exact Hi1|by rewrite (wr_kern _ _ _ _ _ _ _ Hwr') by auto|by eapply procpt_wrote|].
      intros m' ρ' l' own' H' Hi' Hc Hfr. apply (HQ0 m' ρ' l' own' H' Hi'). eapply (reaped_memory ρ l own addr np ρ1 m1); try done. by right.
    + change (-1 <? 0) with true. cbv iota. apply wp_bind. eapply wp_unlock; [exact H1|]. intros h2 H2. apply wp_bind. eapply wp_unlock; [exact H2|]. intros h3 H3.
      apply wp_ret. apply (HQ1 (set_hart h3 m1) ρ1 l1 own1); [exact H3|by apply cinv_set_hart|]. split; [done|]. exists k. split; [exact Hk4|]. split; [done|].
      split; [by destruct Hwr'|exact Hf].
Qed.

(** C5: [wait] returns at once when the caller has a child that has exited, has
    no children, or has been killed. With an exited child, the first in the
    process table, it returns the child's identifier; the four bytes of the exit
    status are in the caller's memory, where it asked for them; the entry of the
    child is unused, its page table and its trapframe are free again, and every
    other address space and page of the kernel is as before. When the status cannot be stored, it
    returns -1 and the child stays. Without an exited child it returns -1 and
    nothing has changed. No lock is left held. *)
Theorem wait_reaps ρ l own addr :
  waiting ρ l own addr ->
  (exists p, 0 <= p < NPROC /\ exited p) \/ (forall p, 0 <= p < NPROC -> ~ child_proc p) \/ p_killed (procs s0 me) <> 0 ->
  exists r s', wait addr n s0 = Ret r s' /\ exists ρ' l' own', hon c [] (khart s') /\ cinv ρ' l' own' (ms s') /\
    s' = fk s0 (ms s') (procs s') (nextpid s0) (files s0) (inodes s0) /\
    ((exists np, first_exited np /\ ((r = p_pid (procs s0 np) /\ reaped ρ addr np ρ' s') \/ (r = -1 /\ unreaped ρ addr np ρ' l' s'))) \/
     (r = -1 /\ (forall p, 0 <= p < NPROC -> ~ exited p) /\ s' = hk (khart s') s0)).
Proof.
  intros Hw Hd. pose proof Hw as [[Hh Hme _ _] Hi _ _ _]. apply wp_elim. unfold wait. apply wp_bind. eapply wp_myproc; [exact Hh|]. intros h1 H1. rewrite Hme.
  unfold deref. apply wp_bind, wp_ret. apply wp_bind. eapply wp_lock; [lia|exact H1|apply not_elem_of_nil|]. intros h2 H2. apply wp_loop_once; [lia|].
  apply wp_bind. change (hk h2 (hk h1 s0)) with (hk h2 s0). apply wp_wait_scan; [exact H2|..].
  - intros h3 b H3 Hno Ht Hf. unfold pget. apply wp_bind, wp_gets. change (procs (hk h3 s0) me) with (procs s0 me).
    assert (negb b || negb (p_killed (procs s0 me) =? 0) = true) as ->.
    { destruct b; [|done]. destruct Hd as [(p & Hp & He)|[Hc|Hk]]; [by destruct (Hno p Hp)| |].
      - destruct (Ht eq_refl) as (p & Hp & Hcp). by destruct (Hc p Hp).
      - by rewrite (proj2 (Z.eqb_neq _ _) Hk). }
    apply wp_bind. eapply wp_unlock; [exact H3|]. intros h4 H4. apply wp_ret. exists ρ, l, own.
    split; [exact H4|]. split; [exact (cinv_set_hart _ _ _ _ h4 Hi)|]. split; [reflexivity|]. right. split; [reflexivity|]. split; [exact Hno|reflexivity].
  - intros np h3 H3 Hnp. eapply (wp_reap ρ l own); [exact Hw|exact Hnp|exact H3|..].
    + intros m ρ' l' own' s' Hs Hi' Hrp. eexists. split; [reflexivity|]. apply wp_ret. exists ρ', l', own'.
      split; [exact Hs|]. split; [exact Hi'|]. split; [reflexivity|]. left. exists np. split; [exact Hnp|]. left. split; [reflexivity|exact Hrp].
    + intros m ρ' l' own' s' Hs Hi' Hkp. eexists. split; [reflexivity|]. apply wp_ret. exists ρ', l', own'.
      split; [exact Hs|]. split; [exact Hi'|]. split; [reflexivity|]. left. exists np. split; [exact Hnp|]. right. split; [reflexivity|exact Hkp].
Qed.

End wait.

(** ** A parent that waits *)

#[local] Existing Instance small_kernel.
#[local] Existing Instance small_kernel_ok.

(** The child that process 1 made with [fork] exits. *)
Definition after_exit (np : Z) (s : kernel) : kernel := upd_proc np (fun x => set_p_state ZOMBIE (set_p_xstate 7 x)) s.

Lemma exited_child : exists s np ρ l own, waiting (c := 0) (me := 1) s ρ l own 0 /\ 0 <= np < NPROC /\ exited (me := 1) s np /\
  forall p, child_proc (me := 1) s p -> p = np /\ p_pid (procs s p) = 2.
Proof.
  destruct parent_ready as (m & x & ρ & l & own & Hf & Hl & _). set (s1 := kernelP m x) in *.
  assert (forall p, p_parent (procs s1 p) <> Some 1) as Hnone.
  { intros p. subst s1. cbn. rewrite fn_insert_spec. destruct (decide (1 = p)); [done|by case_decide]. }
  assert (wp fork Sample.fuel s1 (fun _ s => exists np ρ l own, waiting (c := 0) (me := 1) (after_exit np s) ρ l own 0 /\ 0 <= np < NPROC /\
    exited (me := 1) (after_exit np s) np /\ forall p, child_proc (me := 1) (after_exit np s) p -> p = np /\ p_pid (procs (after_exit np s) p) = 2)) as Hwp.
  { apply (wp_fork (c := 0) (me := 1) s1 Sample.fuel fuel_big ρ l own 0); [exact Hf|..].
    - intros P' k' m' ρ' l' own' [[_ Hno]|(_ & _ & Hsh)]; exfalso; [apply (Hno 2); [unfold NPROC; lia|reflexivity]|].
      change (p_sz (procs s1 1)) with 8192 in Hsh. change (pgs 8192) with 2 in Hsh. lia.
    - intros np y z m' ρ' l' own' F' Hp Hun _ _ Hz Hh Hi Hc [M1 [M2 M3] _ _ _] _.
      assert (np <> 1) as Hne by by intros ->.
      exists np, ρ', l', own'. set (z' := set_p_state ZOMBIE (set_p_xstate 7 z)).
      match goal with |- waiting (after_exit np ?s) _ _ _ _ /\ _ => assert (procs (after_exit np s) = <[np := z']> (procs s1)) as EP end.
      { cbn. by rewrite fn_lookup_insert, insert_same. }
      assert (forall p, p_parent ((<[np := z']> (procs s1)) p) = Some 1 -> p = np) as Hone.
      { intros p. rewrite fn_insert_spec. destruct (decide (np = p)) as [->|]; [done|]. by intros ?%Hnone. }
      split; [|split; [exact Hp|split]].
      + split; rewrite ?EP.
        * split; rewrite ?EP, ?fn_insert_ne by done; [exact Hh|reflexivity..].
        * exact Hi.
        * rewrite fn_insert_ne by done. apply (cm_root _ _ _ _ Hc), Hf.
        * lia.
        * intros p _ [Hcp _]. unfold child_proc in Hcp. rewrite EP in *. apply Hone in Hcp as ->. rewrite fn_lookup_insert, fn_insert_ne by done.
          split; [exact M3|]. split; [exact M2|]. change (p_sz z') with (p_sz z). rewrite (ch_size _ _ _ _ _ Hz). exact M1.
      + unfold exited, child_proc. rewrite EP, fn_lookup_insert. split; [apply Hz|reflexivity].
      + unfold child_proc. rewrite EP. intros p Hcp. apply Hone in Hcp as ->. split; [reflexivity|]. rewrite fn_lookup_insert. apply Hz. }
  apply wp_elim in Hwp as (r & s & _ & np & ρ' & l' & own' & H1 & H2 & H3 & H4). by exists (after_exit np s), np, ρ', l', own'.
Qed.

Lemma wait_reaps_witness : exists s s' np, wait 0 Sample.fuel s = Ret 2 s' /\ p_state (procs s np) = ZOMBIE /\ p_state (procs s' np) = UNUSED.
Proof.
  destruct exited_child as (s & np & ρ & l & own & Hw & Hp & He & Hone).
  destruct (wait_reaps (c := 0) (me := 1) s Sample.fuel fuel_big ρ l own 0 Hw (or_introl (ex_intro _ np (conj Hp He))))
    as (r & s' & E & ρ' & l' & own' & _ & _ & _ & [(q & (_ & Hq & _) & [[-> Hr]|[_ [_ (k & _ & Hk & _)]]])|(_ & Hno & _)]).
  - destruct (Hone q (proj1 Hq)) as [_ Hpid]. rewrite Hpid in E. exists s, s', q. split; [exact E|]. split; [apply Hq|].
    rewrite (rp_procs _ _ _ _ _ _ Hr), fn_lookup_insert. reflexivity.
  - exfalso. by apply Hk.
  - exfalso. by apply (Hno np Hp).
Defined.
