(* ===== verification/FileProof.v ===== *)
(** * Writing to an open file

    [filewrite] of [src/kernel/file.c]: a write of any length, cut into
    transactions, ends up in the file on the disk. *)

From S2P Require Import Prelude Riscv Spinlock Str Kalloc Vm PageTable Cow Pages UserMem CopyUser PageFault Kernel Proc Sleeplock Bio Log Fs File KernelWp KernelVm Ring BioProof LogProof LogOps FsBlocks FsInode FsFile FsWrite FsRead FsUser.

(** ** Disks that agree outside the log *)

Section agree.
Context (S0 : Z) (sb0 : superblock) (start : Z) (Hly : layout_ok S0 sb0 start).

Definition agree (V V' : Z -> bytes) : Prop := forall blk, isdata S0 blk -> V' blk = V blk.

Context (V V' : Z -> bytes) (Ha : agree V V').

Lemma agree_in_use b : 0 <= b < sb_size sb0 -> in_use sb0 V' b = in_use sb0 V b.
Proof. intros Hb. unfold in_use. rewrite Ha; [done|]. by apply (bm_data _ _ (ly_bitmap _ _ _ Hly)). Qed.

Lemma agree_area b : area sb0 start b -> V' b = V b.
Proof. intros Hb. apply Ha. by apply (ly_data _ _ _ Hly). Qed.

Lemma agree_used b : used sb0 start V b -> used sb0 start V' b.
Proof.
  intros [Hb Hu]. split; [done|]. rewrite agree_in_use; [done|]. pose proof (area_range S0 sb0 start Hly b Hb). lia.
Qed.

Lemma agree_iaddr x bn : file_ok sb0 start V x -> iaddr V' x bn = iaddr V x bn.
Proof.
  intros Hx. apply iaddr_ext. intros H0. apply agree_area. by destruct (fk_ind _ _ _ _ Hx) as [?|[? _]].
Qed.

Lemma agree_file x : file_ok sb0 start V x -> file_ok sb0 start V' x.
Proof.
  intros Hx. pose proof (fun bn => agree_iaddr x bn Hx) as E. destruct Hx. split.
  - destruct fk_ind; [by left|right; by apply agree_used].
  - intros bn Hb. rewrite E. destruct (fk_addr bn Hb); [by left|right; by apply agree_used].
  - intros b b' Hb Hb'. rewrite !E. by apply fk_inj.
  - intros bn Hb. rewrite E. by apply fk_ne.
Qed.

Lemma agree_filled x : file_ok sb0 start V x -> filled V x -> filled V' x.
Proof. intros Hx Hf bn Hb Hs. rewrite agree_iaddr by done. by apply Hf. Qed.

Lemma agree_reserved : reserved sb0 start V -> reserved sb0 start V'.
Proof. intros Hr b Hb Hs. rewrite agree_in_use by lia. by apply Hr. Qed.

Lemma agree_ndebt x : ndebt sb0 V' x = ndebt sb0 V x.
Proof.
  unfold ndebt, nfree. do 3 f_equal. apply filter_ext_in. intros b Hb%elem_of_seqZ. by rewrite agree_in_use by lia.
Qed.

Lemma agree_of_file x b : file_ok sb0 start V x -> of_file V' x b <-> of_file V x b.
Proof. intros Hx. unfold of_file. by setoid_rewrite (agree_iaddr x _ Hx). Qed.

Lemma agree_fbyte x i : file_ok sb0 start V x -> 0 <= i < MAXFILE * BSIZE -> iaddr V x (i / BSIZE) <> 0 -> fbyte V' x i = fbyte V x i.
Proof.
  intros Hx Hi H0. unfold fbyte. rewrite agree_iaddr by done. rewrite agree_area; [done|].
  by destruct (fk_addr _ _ _ _ Hx (i / BSIZE)) as [?|[? _]]; [apply block_range|..].
Qed.

End agree.

(** ** Writes, seen from the disk *)

(** A write that started on [V] started on every disk that agrees with it. *)
Lemma file_written_agree S0 sb0 start V V0 x0 off data V1 x1 :
  layout_ok S0 sb0 start -> agree S0 V V0 -> file_ok sb0 start V x0 -> filled V x0 -> i_size x0 <= MAXFILE * BSIZE ->
  0 <= off <= i_size x0 ->
  file_written S0 sb0 start V0 x0 off data V1 x1 -> file_written S0 sb0 start V x0 off data V1 x1.
Proof.
  intros Hly Ha Hx Hf Hm Hoff W. pose proof (fw_size _ _ _ _ _ _ _ _ _ W) as Hs. assert (BSIZE = 1024) as EB by done.
  split; [exact (fw_ok _ _ _ _ _ _ _ _ _ W)|exact Hs|exact (fw_filled _ _ _ _ _ _ _ _ _ W)| | | | |exact (fw_typed _ _ _ _ _ _ _ _ _ W)|exact (fw_disk _ _ _ _ _ _ _ _ _ W)| |exact (fw_same _ _ _ _ _ _ _ _ _ W)].
  - intros i Hi. rewrite (fw_bytes _ _ _ _ _ _ _ _ _ W) by done. destruct (decide _); [done|].
    apply (agree_fbyte S0 sb0 start Hly); [done|done|lia|]. apply Hf; [apply Z.div_pos; lia|].
    assert (i / BSIZE * BSIZE <= i) by (rewrite EB; Z.div_mod_to_equations; lia). lia.
  - intros b Hb Hne. rewrite (fw_others _ _ _ _ _ _ _ _ _ W); [by apply (agree_area S0 sb0 start Hly); [|apply Hb]|by apply (agree_used S0 sb0 start Hly V)|].
    by rewrite (agree_of_file S0 sb0 start Hly V V0 Ha).
  - intros b Hb Hu. apply (fw_use _ _ _ _ _ _ _ _ _ W); [done|]. by rewrite (agree_in_use S0 sb0 start Hly V).
  - intros b Hb [Hf'|Hf']%(fw_new _ _ _ _ _ _ _ _ _ W); [left|right|done].
    + by rewrite (agree_of_file S0 sb0 start Hly V V0 Ha) in Hf'.
    + pose proof (area_range S0 sb0 start Hly b Hb). by rewrite (agree_in_use S0 sb0 start Hly V) in Hf' by (done || lia).
  - intros inum o Hne Hb Ho. rewrite (fw_inodes _ _ _ _ _ _ _ _ _ W) by done. by rewrite Ha by apply Hb.
Qed.

(** Nothing written, with the inode on the disk as it is in memory. *)
Lemma file_written_nil S0 sb0 start V x off :
  0 <= off <= i_size x -> file_ok sb0 start V x -> filled V x -> inode_typed x ->
  on_disk (V (iblock sb0 (i_inum x))) (dinode_off (i_inum x)) x -> file_written S0 sb0 start V x off [] V x.
Proof.
  intros Ho Hx Hf Ht Hd. split; try done.
  - cbn. lia.
  - intros i Hi. by rewrite decide_False by (cbn; lia).
  - intros b Hb Hu. by left.
  - by destruct x.
Qed.

(** The sleep lock of the inode plays no part in the file. *)
Section lock.
Context (l : sleeplock) (x : inode).
Abbreviation y := (set_i_lock l x).

Lemma file_ok_lock sb0 start V : file_ok sb0 start V x -> file_ok sb0 start V y.
Proof. intros []. by split. Qed.
Lemma filled_lock V : filled V x -> filled V y.
Proof. intros Hf bn. apply Hf. Qed.
Lemma inode_typed_lock : inode_typed x -> inode_typed y.
Proof. intros []. by split. Qed.
Lemma on_disk_lock d o : on_disk d o x -> on_disk d o y.
Proof. intros []. by split. Qed.

Lemma file_written_lock S0 sb0 start V off data V1 x1 :
  file_written S0 sb0 start V y off data V1 x1 -> file_written S0 sb0 start V x off data V1 (set_i_lock (i_lock x) x1).
Proof.
  intros [H1 H2 H3 H4 H5 H6 H7 H8 H9 H10 H11]. split; try done.
  - by destruct H1; split.
  - by destruct H8; split.
  - by destruct H9; split.
  - rewrite H11. by destruct x.
Qed.
End lock.

Section filewrite.
Context {c me dev : Z} {LY : Layout} {LO : LayoutOk} {DEV : BlockDev} {DOK : BlockDevOk c me}.
Context (S0 : Z) (Hdev : 0 <= dev < 2 ^ 31) (HS0 : 0 <= S0 /\ S0 + LOGSIZE < 2 ^ 31).
Context (n : nat) (Hn : (Z.to_nat NBUF < n)%nat) (Hdn : (dfuel < n)%nat).
Context (sb0 : superblock) (start : Z) (Hly : layout_ok S0 sb0 start) (Hfuel : sb_size sb0 < Z.of_nat n).

Abbreviation linv := (linv (c := c) (me := me) (dev := dev) S0).

(** Other processes may have been woken. *)
Lemma linv_woke D V L o ps s : woke (procs s) ps -> linv D V L [] o s -> linv D V L [] o (set_procs ps s).
Proof.
  intros Hw [[[] ] []]. pose proof (woke_running _ _ _ Hw r_state) as E.
  split; try done; split; try done; [split; try done; cbn; by rewrite E|]. by intros b Hb%not_elem_of_nil.
Qed.

Lemma linv_files D V L H o F s : linv D V L H o s -> linv D V L H o (set_files F s).
Proof. intros [[[]] []]. split; try done; split; try done. Qed.

Lemma wp_iunlock D V L o s ip (Q : unit -> kernel -> Prop) :
  linv D V L [] o s -> sl_locked (i_lock (inodes s ip)) <> 0 -> sl_pid (i_lock (inodes s ip)) = p_pid (procs s me) ->
  1 <= i_ref (inodes s ip) ->
  (forall s', lframe (put_inode ip (set_i_lock (mkSleep 0 (sl_name (i_lock (inodes s ip))) 0) (inodes s ip)) s) s' -> linv D V L [] o s' -> Q tt s') ->
  wp (iunlock (Some ip)) n s Q.
Proof.
  clear Hdev HS0 Hfuel. intros Hl Hlk Hpid Href HQ. pose proof (linv_runs _ _ _ _ _ _ _ Hl) as [Hh Hme Hst Hch]. unfold iunlock, iget_.
  apply wp_bind. eapply (wp_holdingsleep (c := c) (me := me) (SLinode ip)); [lia|exact Hh|apply not_elem_of_nil|done|].
  intros h1 H1. cbn [sl_get]. rewrite (proj2 (Z.eqb_neq _ _) Hlk), (proj2 (Z.eqb_eq _ _) Hpid). cbn [negb andb].
  apply wp_bind, wp_gets. change (inodes (hk h1 s)) with (inodes s). rewrite (proj2 (Z.ltb_ge _ _)) by lia.
  eapply (wp_releasesleep (c := c) (SLinode ip)); [lia|exact H1|apply not_elem_of_nil|intros p; apply not_elem_of_nil|].
  intros h2 ps H2 Hw. cbn [sl_get sl_set]. rewrite upd_put_inode. change (inodes (hk h1 s)) with (inodes s).
  set (x := set_i_lock _ _). apply HQ.
  - exists (klog s), h2, ps, (bufs s), (vd s), (medium s). split; [exact Hw|]. by destruct s as [[]].
  - apply linv_woke; [exact Hw|]. apply linv_hk; [done|]. apply linv_inodes. by apply linv_hk.
Qed.

Context (r : Z).
Abbreviation has_memory := (has_memory (me := me) r).

(** What stays when the file system works on entry [ip]. *)
Record kept (ip : Z) (y : inode) (s s' : kernel) : Prop := {
  kp_mem : has_memory s -> has_memory s';
  kp_user : same_user r s s';
  kp_files : files s' = files s;
  kp_sb : sb s' = sb s;
  kp_pid : p_pid (procs s' me) = p_pid (procs s me);
  kp_inode : inodes s' ip = y
}.

Lemma lframe_kept ip y s s' : runs c me [] s -> lframe (put_inode ip y s) s' -> kept ip y s s'.
Proof.
  intros Hr F. assert (runs c me [] (put_inode ip y s)) as Hr' by (by destruct Hr; split). split.
  - intros [H1 H2]. by eapply has_memory_lframe; [exact Hr'|exact F|split].
  - intros va. by rewrite (lframe_same r _ _ F va).
  - by destruct F as (kl & h & ps & B & v & W & Hw & ->).
  - by rewrite (lframe_sb _ _ F).
  - by rewrite (lframe_me _ _ Hr' F).
  - rewrite (lframe_inodes _ _ F). apply put_inode_at.
Qed.

Lemma lframe_kept_id ip s s' : runs c me [] s -> lframe s s' -> kept ip (inodes s ip) s s'.
Proof. intros Hr F. apply lframe_kept; [done|]. by rewrite put_inode_id. Qed.

Lemma kept_trans ip y y' s s' s'' : kept ip y s s' -> kept ip y' s' s'' -> kept ip y' s s''.
Proof. intros [] []. split; [by auto|by etrans|congruence..]. Qed.

(** A file [f], open on entry [ip], with the disk [D] behind it. *)
Record open_file (D : Z -> bytes) (f ip : Z) (s : kernel) : Prop := {
  of_idle : exists V, linv D V [] [] 0 s /\ agree S0 D V;
  of_sb : sb s = sb0;
  of_type : f_type (files s f) = FD_INODE;
  of_ip : f_ip (files s f) = Some ip;
  of_dev : i_dev (inodes s ip) = dev;
  of_valid : i_valid (inodes s ip) <> 0;
  of_ref : 1 <= i_ref (inodes s ip);
  of_kind : i_type (inodes s ip) <> 0;
  of_lock : i_lock (inodes s ip) = mkSleep 0 (sl_name (i_lock (inodes s ip))) 0;
  of_file_ok : file_ok sb0 start D (inodes s ip);
  of_filled : filled D (inodes s ip);
  of_typed : inode_typed (inodes s ip);
  of_disk : on_disk (D (iblock sb0 (i_inum (inodes s ip)))) (dinode_off (i_inum (inodes s ip))) (inodes s ip);
  of_block : inode_block S0 sb0 start (iblock sb0 (i_inum (inodes s ip)));
  of_reserved : reserved sb0 start D;
  of_mem : has_memory s
}.

Lemma write_max_blocks off len : 0 <= off -> 0 <= len <= write_max -> 0 <= nblocks_of off len <= 4.
Proof. change write_max with 3072. unfold nblocks_of, BSIZE. intros. Z.div_mod_to_equations. lia. Qed.

Lemma pot_nil x : pot [] x = 2.
Proof. unfold pot. rewrite decide_False; [done|]. intros [_ H]. by apply not_elem_of_nil in H. Qed.

(** The end of the transaction: the offset moves, the inode is unlocked, the
    log commits. *)
Lemma wp_write_finish D V V1 L1 s s3 f ip chunk pid x1 (Q : Z -> kernel -> Prop) :
  open_file D f ip s -> agree S0 D V ->
  let x := inodes s ip in let off := f_off (files s f) in let len := Z.of_nat (length chunk) in
  0 <= off <= i_size x -> i_size x <= MAXFILE * BSIZE -> off + len <= MAXFILE * BSIZE -> 0 < len ->
  linv D V1 L1 [] 1 s3 -> kept ip x1 s s3 -> pid = p_pid (procs s me) ->
  file_written S0 sb0 start V (set_i_lock (mkSleep 1 (sl_name (i_lock x)) pid) x) off chunk V1 x1 ->
  (forall x' s', open_file V1 f ip s' -> inodes s' ip = x' -> same_user r s s' -> i_addrs x' = i_addrs x1 ->
     files s' f = set_f_off (off + len) (files s f) -> file_written S0 sb0 start D x off chunk V1 x' -> Q len s') ->
  wp (when (0 <? len) (fset f (fun x => set_f_off (u32 (f_off x + len)) x));; iunlock (Some ip);; end_op;; mret len) n s3 Q.
Proof.
  intros Ho Hag x off len Hoff Hsz Hmax Hlen L3 K3 -> W HQ. assert (MAXFILE * BSIZE < 2 ^ 31) as EM by done.
  pose proof Ho as [_ Hsb Hty Hip Hid Hv Href Hk Hlk Hx Hf Ht Hd Hib Hres Hmem]. fold x in Hid, Hv, Href, Hk, Hlk, Hx, Hf, Ht, Hd, Hib.
  set (xl := set_i_lock _ x) in W. pose proof (fw_same _ _ _ _ _ _ _ _ _ W) as E1.
  rewrite (proj2 (Z.ltb_lt _ _) Hlen). cbn [when]. unfold fset. apply wp_bind, wp_modify. set (s4 := upd_file f _ s3).
  assert (linv D V1 L1 [] 1 s4) as L4 by by apply linv_files.
  pose proof (kp_inode _ _ _ _ K3) as E3. assert (inodes s4 ip = x1) as E4 by exact E3.
  set (x' := set_i_lock (i_lock x) x1).
  assert (i_lock x1 = mkSleep 1 (sl_name (i_lock x)) (p_pid (procs s me))) as Elk by by rewrite E1.
  apply wp_bind. eapply (wp_iunlock D V1 L1 1 s4 ip); [exact L4|by rewrite E4, Elk|rewrite E4, Elk; symmetry; apply (kp_pid _ _ _ _ K3)|rewrite E4, E1; exact Href|].
  rewrite E4, Elk. cbn [sl_name]. rewrite <-Hlk. fold x'. intros s5 F5 L5. pose proof (lframe_kept ip x' _ _ (linv_runs _ _ _ _ _ _ _ L4) F5) as K5.
  apply wp_bind. eapply (wp_end_op S0 Hdev HS0 n Hn Hdn); [exact L5|]. intros s6 V' F6 _ L6 Hag'. apply wp_ret.
  pose proof (lframe_kept_id ip _ _ (linv_runs _ _ _ _ _ _ _ L5) F6) as K6. rewrite (kp_inode _ _ _ _ K5) in K6.
  apply file_written_lock in W. fold x' in W. apply (file_written_agree S0 sb0 start D V) in W; try done.
  assert (files s6 f = set_f_off (off + len) (files s f)) as Ef.
  { rewrite (kp_files _ _ _ _ K6), (kp_files _ _ _ _ K5). subst s4. cbn. rewrite fn_lookup_insert, (kp_files _ _ _ _ K3).
    fold off. by rewrite u32_small by lia. }
  pose proof (fw_same _ _ _ _ _ _ _ _ _ W) as E'.
  apply (HQ x' s6); try done; [|apply (kp_inode _ _ _ _ K6)|].
  - pose proof (kp_inode _ _ _ _ K6) as E6. split; rewrite ?E6, ?Ef; try done; try (rewrite E'; done).
    + by exists V'.
    + rewrite (kp_sb _ _ _ _ K6), (kp_sb _ _ _ _ K5). subst s4. cbn. by rewrite (kp_sb _ _ _ _ K3).
    + apply W.
    + apply W.
    + apply W.
    + apply W.
    + intros b Hb Hs. apply (fw_use _ _ _ _ _ _ _ _ _ W); [lia|]. by apply Hres.
    + apply (kp_mem _ _ _ _ K6), (kp_mem _ _ _ _ K5). subst s4. by destruct (kp_mem _ _ _ _ K3 Hmem); split.
  - etrans; [apply (kp_user _ _ _ _ K3)|]. etrans; [|apply (kp_user _ _ _ _ K6)]. apply (kp_user _ _ _ _ K5).
Qed.

(** One transaction of [filewrite]. *)
Lemma wp_filewrite_chunk D s f ip addr chunk (Q : Z -> kernel -> Prop) :
  open_file D f ip s ->
  let x := inodes s ip in let off := f_off (files s f) in let len := Z.of_nat (length chunk) in
  0 <= off <= i_size x -> i_size x <= MAXFILE * BSIZE -> off + len <= MAXFILE * BSIZE -> 0 < len <= write_max ->
  0 <= addr -> addr < 2 ^ 64 -> 6 <= Z.of_nat n -> reads (ms s) r addr chunk -> 4 <= ndebt sb0 D x ->
  (forall D' x' s', open_file D' f ip s' -> inodes s' ip = x' -> same_user r s s' ->
     files s' f = set_f_off (off + len) (files s f) -> file_written S0 sb0 start D x off chunk D' x' ->
     ndebt sb0 D x - 4 <= ndebt sb0 D' x' -> Q len s') ->
  wp (filewrite_chunk f addr len) n s Q.
Proof.
  intros Ho x off len Hoff Hsz Hmax Hlen Ha Ha2 Hn6 Hrd Hroom HQ.
  pose proof Ho as [(V & Hl & Hag) Hsb _ Hip Hid Hv Href Hk Hlk Hx Hf Ht Hd Hib Hres Hmem]. fold x in Hid, Hv, Href, Hk, Hlk, Hx, Hf, Ht, Hd, Hib.
  assert (MAXFILE * BSIZE < 2 ^ 31 /\ LOGSIZE = 30 /\ BSIZE = 1024) as (EM & EL & EB) by done. pose proof (write_max_blocks off len) as Hnb.
  unfold filewrite_chunk, fget, fset. apply wp_bind. eapply (wp_begin_op S0 n Hn Hdn); [exact Hl|lia|by vm_compute|].
  intros s1 F1 _ _ L1. pose proof (lframe_kept_id ip _ _ (linv_runs _ _ _ _ _ _ _ Hl) F1) as K1.
  apply wp_bind, wp_gets. rewrite (kp_files _ _ _ _ K1), Hip.
  pose proof (kp_inode _ _ _ _ K1) as E1. fold x in E1. set (xl := set_i_lock (mkSleep 1 (sl_name (i_lock x)) (p_pid (procs s1 me))) x).
  assert (locked_inode sb0 V (p_pid (procs s1 me)) (inodes s1 ip) = xl) as El.
  { rewrite E1. unfold locked_inode. cbn. by rewrite (proj2 (Z.eqb_neq _ _) Hv). }
  apply wp_bind. eapply (wp_ilock S0 n Hn Hdn sb0); [exact L1|by rewrite (kp_sb _ _ _ _ K1)|by rewrite E1|rewrite E1; apply Hib|done|by rewrite E1|by rewrite E1, Hlk|by rewrite El|].
  rewrite El. intros s2 F2 L2. pose proof (lframe_kept ip xl _ _ (linv_runs _ _ _ _ _ _ _ L1) F2) as K2.
  unfold deref. apply wp_bind, wp_ret, wp_bind, wp_gets. rewrite (kp_files _ _ _ _ K2), (kp_files _ _ _ _ K1). fold off.
  pose proof (kp_inode _ _ _ _ K2) as E2. pose proof (kp_mem _ _ _ _ K2 (kp_mem _ _ _ _ K1 Hmem)) as M2.
  assert (same_user r s s2) as U2 by (etrans; [apply K1|apply K2]).
  apply wp_bind. eapply (wp_writei S0 Hdev HS0 n Hn Hdn sb0 start Hly Hfuel D 1 ltac:(lia) ip V [] s2 (Suser addr) chunk off);
    rewrite ?E2, ?pot_nil, ?(agree_ndebt S0 sb0 start Hly D V Hag); try done; try lia.
  { by rewrite (kp_sb _ _ _ _ K2), (kp_sb _ _ _ _ K1). }
  { by apply (agree_reserved S0 sb0 start Hly D). }
  { apply (gives_user r n s2 addr Ha chunk); [lia|done|by eapply linv_runs|done|change write_max with 3072 in Hlen; lia|].
    intros i b Hi. rewrite U2. by apply Hrd. }
  - apply file_ok_lock. by apply (agree_file S0 sb0 start Hly D).
  - apply Hoff.
  - subst len. lia.
  - change (ndebt sb0 D xl) with (ndebt sb0 D x). subst len. lia.
  - by apply inode_typed_lock.
  - apply filled_lock. by apply (agree_filled S0 sb0 start Hly D).
  - intros s3 V1 x1 L1' L3 F3 W3 Hd3 _. change (ndebt sb0 D xl) with (ndebt sb0 D x) in Hd3.
    assert (kept ip x1 s s3) as K3.
    { eapply kept_trans; [exact K1|]. eapply kept_trans; [exact K2|]. by apply lframe_kept; [eapply linv_runs|]. }
    apply (wp_write_finish D V V1 L1' s s3 f ip chunk (p_pid (procs s1 me)) x1); try done; [lia|by rewrite (kp_pid _ _ _ _ K1)|].
    intros x' s' Ho' Ei Us Ead Ef W. apply (HQ V1 x' s'); try done. change (i_size xl) with (i_size x) in *.
    assert (ndebt sb0 V1 x' = ndebt sb0 V1 x1) as -> by (unfold ndebt; by rewrite Ead). subst len. lia.
Qed.

(** The number of transactions for [len] bytes. *)
Definition chunks (len : Z) : Z := (len + write_max - 1) / write_max.

Lemma chunks_step len : 0 < len -> chunks (len - Z.min write_max len) = chunks len - 1.
Proof. unfold chunks. change write_max with 3072. intros. destruct (Z.min_spec 3072 len) as [[? ->]|[? ->]]; Z.div_mod_to_equations; lia. Qed.

Lemma wp_filewrite D0 s0 f ip addr data (Q : Z -> kernel -> Prop) :
  open_file D0 f ip s0 -> f_writable (files s0 f) <> 0 ->
  let x0 := inodes s0 ip in let off := f_off (files s0 f) in let len := Z.of_nat (length data) in
  0 <= off <= i_size x0 -> i_size x0 <= MAXFILE * BSIZE -> off + len <= MAXFILE * BSIZE ->
  0 <= addr -> addr + len <= 2 ^ 64 -> chunks len + 6 <= Z.of_nat n -> reads (ms s0) r addr data -> 4 * chunks len <= ndebt sb0 D0 x0 ->
  (forall D' s', open_file D' f ip s' -> same_user r s0 s' -> files s' f = set_f_off (off + len) (files s0 f) ->
     file_written S0 sb0 start D0 x0 off data D' (inodes s' ip) -> Q len s') ->
  wp (filewrite f addr len) n s0 Q.
Proof.
  intros Ho Hwr x0 off len Hoff Hsz Hmax Ha Ha2 Hfu Hrd Hroom HQ. unfold filewrite, fget. apply wp_bind, wp_gets.
  rewrite (proj2 (Z.eqb_neq _ _) Hwr). apply wp_bind, wp_gets. rewrite (of_type _ _ _ _ Ho). apply wp_bind.
  assert (0 <= chunks len) as Hc0 by (unfold chunks; change write_max with 3072; Z.div_mod_to_equations; lia).
  apply (wp_loop _ (fun k i s => exists D, 0 <= i <= len /\ k = Z.to_nat (chunks (len - i)) /\ open_file D f ip s /\ same_user r s0 s /\
    files s f = set_f_off (off + i) (files s0 f) /\ file_written S0 sb0 start D0 x0 off (take (Z.to_nat i) data) D (inodes s ip) /\
    4 * chunks (len - i) <= ndebt sb0 D (inodes s ip))) with (k := Z.to_nat (chunks len)); [|lia|].
  2: { exists D0. rewrite Z.sub_0_r, Z.add_0_r. split_and!; try done; try lia; [by destruct (files s0 f)|].
       apply file_written_nil; [done|apply Ho..]. }
  intros k i s (D & Hi & -> & Hos & Us & Ef & W & Hd). destruct (Z.ltb_spec i len) as [Hlt|Hge]; cbn [negb].
  2: { apply wp_ret, wp_ret. assert (i = len) as -> by lia. rewrite Z.eqb_refl. apply (HQ D s); try done.
       rewrite take_ge in W by lia. exact W. }
  assert (chunks (len - i) = chunks (len - i - Z.min write_max (len - i)) + 1) as Ec by (rewrite chunks_step by lia; lia).
  cbv zeta. replace (if write_max <? len - i then write_max else len - i) with (Z.min write_max (len - i)) by (destruct (Z.ltb_spec write_max (len - i)); lia).
  set (n1 := Z.min write_max (len - i)) in *. assert (0 < n1 <= write_max /\ i + n1 <= len) as [Hn1 Hin] by (subst n1; change write_max with 3072; lia).
  set (chunk := slice data i n1). assert (Z.of_nat (length chunk) = n1) as El by (apply slice_length; lia).
  assert (0 <= chunks (len - i - n1)) as Hc1 by (unfold chunks; change write_max with 3072; Z.div_mod_to_equations; lia).
  rewrite u64_small by lia. apply wp_bind. rewrite <-El at 1. pose proof (fw_size _ _ _ _ _ _ _ _ _ W) as Hs. rewrite length_take in Hs.
  apply (wp_filewrite_chunk D s f ip (addr + i) chunk); rewrite ?Ef, ?El; cbn [f_off set_f_off]; try done; try lia.
  { intros j b Hj. unfold chunk, slice in Hj. pose proof (lookup_lt_Some _ _ _ Hj) as Hjl. rewrite length_take in Hjl.
    rewrite lookup_take_lt in Hj by lia. rewrite lookup_drop in Hj. destruct (Hrd _ _ Hj) as [H1 H2]. rewrite Us.
    rewrite Nat2Z.inj_add, Z2Nat.id, Z.add_assoc in H1, H2 by lia. done. }
  intros D' x' s' Ho' Ex Us' Ef' W' Hd'. rewrite Z.eqb_refl. cbn [negb]. apply wp_ret.
  exists (Z.to_nat (chunks (len - (i + n1)))). replace (len - (i + n1)) with (len - i - n1) by lia. split; [lia|]. exists D'. subst x'.
  split_and!; try done; try lia; [by etrans|by rewrite Ef', Z.add_assoc|].
  replace (take (Z.to_nat (i + n1)) data) with (take (Z.to_nat i) data ++ chunk).
  - eapply (file_written_trans S0); [exact Hly|done|exact W|]. rewrite length_take. replace (Z.of_nat (Z.to_nat i `min` length data)) with i by lia. exact W'.
  - unfold chunk, slice. rewrite Z2Nat.inj_add by lia. apply take_take_drop.
Qed.

(** ** Reading *)

Lemma fbytes_agree D V x off k :
  agree S0 D V -> file_ok sb0 start D x -> filled D x -> 0 <= off -> off + k <= i_size x -> i_size x <= MAXFILE * BSIZE ->
  fbytes V x off k = fbytes D x off k.
Proof.
  clear Hdev HS0 Hfuel. intros Ha Hx Hf Ho Hk Hs. unfold fbytes. apply list_fmap_ext. intros i y [-> Hi]%lookup_seqZ. assert (BSIZE = 1024) as EB by done.
  apply (agree_fbyte S0 sb0 start Hly); [done|done|lia|]. apply Hf; [apply Z.div_pos; lia|]. rewrite EB. Z.div_mod_to_equations. lia.
Qed.

(** A delivery does not depend on the lock of the inode, nor on what the log
    does afterwards. *)
Lemma delivered_on D V l x s s3 s4 addr off k res :
  agree S0 D V -> file_ok sb0 start D x -> filled D x -> 0 <= off -> off + k <= i_size x -> i_size x <= MAXFILE * BSIZE ->
  same_user r s3 s4 -> (no_memory s3 -> no_memory s4) -> delivered r addr V (set_i_lock l x) s off k res s3 -> delivered r addr D x s off k res s4.
Proof.
  clear Hdev HS0 Hfuel. intros Ha Hx Hf Ho Hk Hs Hm HN Hd.
  assert (forall j, j <= k -> fbytes V (set_i_lock l x) off j = fbytes D x off j) as E by (intros j Hj; apply (fbytes_agree D V x); (done || lia)).
  assert (forall bs, updated r s s3 addr bs -> updated r s s4 addr bs) as HU.
  { intros bs Hu va Hva. rewrite Hm. by apply Hu. }
  destruct Hd as [[-> Hu]|(-> & k' & Hk' & Hu & Hc)].
  - left. split; [done|]. rewrite <-E by done. by apply HU.
  - right. split; [done|]. exists k'. split; [done|]. rewrite <-E by lia. split; [by apply HU|]. destruct Hc; [by left|right; by apply HN].
Qed.

Lemma wp_fileread D s f ip addr want (Q : Z -> kernel -> Prop) :
  MAXFILE + 1 < Z.of_nat n -> open_file D f ip s -> f_readable (files s f) <> 0 ->
  let x := inodes s ip in let off := f_off (files s f) in let k := Z.min want (i_size x - off) in
  0 <= off <= i_size x -> i_size x <= MAXFILE * BSIZE -> 0 <= want -> off + want < 2 ^ 32 -> 0 <= addr < 2 ^ 64 -> addr + want <= 2 ^ 64 ->
  (forall res s', open_file D f ip s' -> inodes s' ip = x -> delivered r addr D x s off k res s' ->
     files s' f = set_f_off (if 0 <? res then off + res else off) (files s f) -> Q res s') ->
  wp (fileread f addr want) n s Q.
Proof.
  clear Hdev HS0 Hfuel. intros Hnf Ho Hrd x off k Hoff Hsz Hw Hmax Ha Ha2 HQ. assert (MAXFILE * BSIZE < 2 ^ 31 /\ NBUF = 30 /\ BSIZE = 1024) as (EM & EN & EB) by done.
  pose proof Ho as [(V & Hl & Hag) Hsb Hty Hip Hid Hv Href Hk Hlk Hx Hf Ht Hd Hib Hres Hmem]. fold x in Hid, Hv, Href, Hk, Hlk, Hx, Hf, Ht, Hd, Hib.
  unfold fileread, fget, fset. apply wp_bind, wp_gets. rewrite (proj2 (Z.eqb_neq _ _) Hrd). apply wp_bind, wp_gets. rewrite Hty.
  apply wp_bind, wp_gets. rewrite Hip. set (xl := set_i_lock (mkSleep 1 (sl_name (i_lock x)) (p_pid (procs s me))) x).
  assert (locked_inode sb0 V (p_pid (procs s me)) (inodes s ip) = xl) as El.
  { unfold locked_inode. fold x. cbn. by rewrite (proj2 (Z.eqb_neq _ _) Hv). }
  apply wp_bind. eapply (wp_ilock S0 n Hn Hdn sb0); [exact Hl|done|done|apply Hib|done|done|by fold x; rewrite Hlk|by rewrite El|].
  rewrite El. intros s2 F2 L2. pose proof (lframe_kept ip xl _ _ (linv_runs _ _ _ _ _ _ _ Hl) F2) as K2.
  unfold deref. apply wp_bind, wp_ret, wp_bind, wp_gets. rewrite (kp_files _ _ _ _ K2). fold off.
  pose proof (kp_inode _ _ _ _ K2) as E2. rewrite u32_small by lia.
  apply wp_bind. eapply (wp_readi_user S0 n Hn Hdn Hnf sb0 start Hly D 0 ip r addr V [] s s2); rewrite ?E2; try done.
  { apply (kp_mem _ _ _ _ K2), Hmem. } { apply (kp_user _ _ _ _ K2). }
  { apply file_ok_lock. by apply (agree_file S0 sb0 start Hly D). } { apply filled_lock. by apply (agree_filled S0 sb0 start Hly D). }
  intros res bs s3 L3 F3 M3 Hdel. cbv iota beta. change (avail ip s2 off want) with (Z.min want (i_size (inodes s2 ip) - off)) in Hdel. rewrite E2 in Hdel.
  change (i_size xl) with (i_size x) in Hdel. fold k in Hdel.
  assert (res <= k /\ 0 <= k) as [Hrk Hk0] by (split; [destruct Hdel as [[-> _]|(-> & _)]; subst k; lia|subst k; lia]).
  assert (files s3 = files s /\ sb s3 = sb0 /\ procs s3 me = procs s2 me) as (Ef3 & Esb3 & Ep3).
  { destruct F3 as [m F3]. split; [|split].
    - rewrite <-(kp_files _ _ _ _ K2). by destruct F3 as (kl & h & ps & B & v & W & Hwk & ->).
    - by rewrite (lframe_sb _ _ F3), <-Hsb, <-(kp_sb _ _ _ _ K2).
    - apply woke_running; [by apply (lframe_procs _ _ F3)|]. by apply (linv_runs _ _ _ _ _ _ _ L2). }
  pose proof (mframe_inodes _ _ F3) as Ei3.
  assert (forall s4, ms s4 = ms s3 -> linv D V [] [] 0 s4 -> inodes s4 = inodes s3 -> procs s4 = procs s3 -> sb s4 = sb0 ->
    files s4 f = set_f_off (if 0 <? res then off + res else off) (files s f) -> wp (iunlock (Some ip);; mret res) n s4 Q) as Hend.
  { intros s4 Em4 L4 Ei4 Ep4 Esb4 Ef4. assert (inodes s4 ip = xl) as E4 by by rewrite Ei4, Ei3.
    assert (has_memory s4) as M4 by (destruct M3; split; [by rewrite Ep4|by rewrite Em4]).
    apply wp_bind. eapply (wp_iunlock D V [] 0 s4 ip); rewrite ?E4; [exact L4|done|cbn; by rewrite Ep4, Ep3, (kp_pid _ _ _ _ K2)|exact Href|].
    replace (set_i_lock _ xl) with x by (subst xl; cbn [i_lock set_i_lock sl_name]; rewrite <-Hlk; by destruct x).
    intros s5 F5 L5. pose proof (lframe_kept ip x _ _ (linv_runs _ _ _ _ _ _ _ L4) F5) as K5. apply wp_ret. pose proof (kp_inode _ _ _ _ K5) as E5.
    assert (files s5 f = set_f_off (if 0 <? res then off + res else off) (files s f)) as Ef5 by by rewrite (kp_files _ _ _ _ K5).
    apply HQ; [|done| |done].
    - split; rewrite ?E5, ?Ef5; try done; [by exists V|by rewrite (kp_sb _ _ _ _ K5)|by apply (kp_mem _ _ _ _ K5)].
    - eapply (delivered_on D V _ x s s3 s5); try done; [lia|subst k; lia| |].
      + intros va. rewrite (kp_user _ _ _ _ K5 va). by rewrite Em4.
      + intros Hno. eapply no_memory_lframe; [exact F5|]. destruct Hno as (ρ & l & own & H1 & H2). exists ρ, l, own. split; [|done].
        change (cinv ρ l own (ms s4)). by rewrite Em4. }
  apply wp_bind. destruct (Z.ltb_spec 0 res) as [Hpos|Hneg]; cbn [when].
  - apply wp_modify. apply Hend; try done; [by apply linv_files|]. cbn. rewrite fn_lookup_insert, Ef3. fold off.
    rewrite u32_small by (subst k; lia). done.
  - apply wp_ret. apply Hend; try done. rewrite Ef3. by destruct (files s f).
Qed.

End filewrite.

(** C8: [filewrite] writes to the disk: a write of any length to an open file,
    cut into transactions that fit the log, returns the number of bytes; then
    the disk itself, not only the cache, has the bytes in the file at the old
    offset and everything else as before, the offset has moved behind them, and
    the memory of the process is as it was. *)
Theorem filewrite_writes {c me dev : Z} {LY : Layout} {LO : LayoutOk} {DEV : BlockDev} {DOK : BlockDevOk c me}
    S0 n sb0 start r D s f ip addr data :
  0 <= dev < 2 ^ 31 -> 0 <= S0 /\ S0 + LOGSIZE < 2 ^ 31 -> (Z.to_nat NBUF < n)%nat -> (dfuel < n)%nat ->
  layout_ok S0 sb0 start -> sb_size sb0 < Z.of_nat n ->
  open_file (c := c) (me := me) (dev := dev) S0 sb0 start r D f ip s -> f_writable (files s f) <> 0 ->
  let x := inodes s ip in let off := f_off (files s f) in let len := Z.of_nat (length data) in
  0 <= off <= i_size x -> i_size x <= MAXFILE * BSIZE -> off + len <= MAXFILE * BSIZE ->
  0 <= addr -> addr + len <= 2 ^ 64 -> reads (ms s) r addr data ->
  chunks len + 6 <= Z.of_nat n -> 4 * chunks len <= ndebt sb0 D x ->
  exists D' s', filewrite f addr len n s = Ret len s' /\
    open_file (c := c) (me := me) (dev := dev) S0 sb0 start r D' f ip s' /\
    (forall blk, isdata S0 blk -> image s' blk = D' blk) /\
    file_written S0 sb0 start D x off data D' (inodes s' ip) /\
    files s' f = set_f_off (off + len) (files s f) /\ same_user r s s'.
Proof.
  intros Hdev HS0 Hn Hdn Hly Hf Ho Hw x off len Hoff Hsz Hmax Ha Ha2 Hrd Hc Hroom.
  assert (wp (filewrite f addr len) n s (fun res s' => res = len /\ exists D',
    open_file (c := c) (me := me) (dev := dev) S0 sb0 start r D' f ip s' /\
    file_written S0 sb0 start D x off data D' (inodes s' ip) /\
    files s' f = set_f_off (off + len) (files s f) /\ same_user r s s')) as (res & s' & E & -> & D' & Ho' & HQ)%wp_elim.
  { eapply (wp_filewrite S0 Hdev HS0 n Hn Hdn sb0 start Hly Hf r D s f ip addr data); try done.
    intros D' s' Ho' Us Ef W. split; [done|]. by exists D'. }
  exists D', s'. split; [done|]. split; [done|]. split; [|done]. destruct (of_idle _ _ _ _ _ _ _ _ Ho') as (V & Hl & _). apply Hl.
Qed.

(** C9: [fileread] reads from the disk: a read from an open file puts the bytes
    of the file at its offset, as the disk has them, into the memory of the
    process, up to the end of the file, moves the offset by the number it
    returns, and leaves the file unlocked and the disk as it was; it fails only
    where [readi] does. *)
Theorem fileread_reads {c me dev : Z} {LY : Layout} {LO : LayoutOk} {DEV : BlockDev} {DOK : BlockDevOk c me}
    S0 n sb0 start r D s f ip addr want :
  (Z.to_nat NBUF < n)%nat -> (dfuel < n)%nat -> MAXFILE + 1 < Z.of_nat n -> layout_ok S0 sb0 start ->
  open_file (c := c) (me := me) (dev := dev) S0 sb0 start r D f ip s -> f_readable (files s f) <> 0 ->
  let x := inodes s ip in let off := f_off (files s f) in let k := Z.min want (i_size x - off) in
  0 <= off <= i_size x -> i_size x <= MAXFILE * BSIZE -> 0 <= want -> off + want < 2 ^ 32 -> 0 <= addr < 2 ^ 64 -> addr + want <= 2 ^ 64 ->
  exists res s', fileread f addr want n s = Ret res s' /\
    open_file (c := c) (me := me) (dev := dev) S0 sb0 start r D f ip s' /\ inodes s' ip = x /\
    delivered r addr D x s off k res s' /\ files s' f = set_f_off (if 0 <? res then off + res else off) (files s f).
Proof.
  intros Hn Hdn Hnf Hly Ho Hrd x off k Hoff Hsz Hw Hmax Ha Ha2.
  assert (wp (fileread f addr want) n s (fun res s' => open_file (c := c) (me := me) (dev := dev) S0 sb0 start r D f ip s' /\ inodes s' ip = x /\
    delivered r addr D x s off k res s' /\ files s' f = set_f_off (if 0 <? res then off + res else off) (files s f)))
    as (res & s' & E & HQ)%wp_elim; [|by exists res, s'].
  eapply (wp_fileread S0 n Hn Hdn sb0 start Hly r D s f ip addr want); try done.
Qed.
