(* ===== verification/FsFree.v ===== *)
(** * Truncating and deleting files

    [itrunc] and [iput] of [src/kernel/fs.c]: the blocks of a file go back to the
    bitmap, every one of them and no other, and the last reference to an inode
    without links deletes it. *)

From S2P Require Import Prelude Riscv Spinlock Str Kalloc Kernel Proc Sleeplock Bio Log Fs KernelWp Ring BioProof LogProof LogOps FsBlocks FsInode FsFile FsWrite FsRead FsUser File FileProof.

(** ** The blocks of a file *)

(** The blocks that the first [k] entries of the block map lead to. *)
Definition addrs (V : Z -> bytes) (x : inode) (k : Z) : list Z := filter (.≠ 0) (iaddr V x <$> seqZ 0 k).

Definition file_blocks (V : Z -> bytes) (x : inode) : list Z :=
  addrs V x MAXFILE ++ if decide (i_addrs x NDIRECT = 0) then [] else [i_addrs x NDIRECT].

Lemma addrs_next V x k : 0 <= k -> addrs V x (k + 1) = addrs V x k ++ if decide (iaddr V x k = 0) then [] else [iaddr V x k].
Proof.
  intros Hk. unfold addrs. rewrite seqZ_app, fmap_app, filter_app by lia. f_equal. change (seqZ (0 + k) 1) with [0 + k]. rewrite Z.add_0_l. cbn [fmap list_fmap].
  rewrite filter_cons. destruct (decide (iaddr V x k = 0)) as [E|E]; [by rewrite decide_False by auto|by rewrite decide_True].
Qed.

Lemma elem_of_addrs V x k b : b ∈ addrs V x k <-> b <> 0 /\ exists bn, 0 <= bn < k /\ iaddr V x bn = b.
Proof.
  unfold addrs. rewrite list_elem_of_filter, list_elem_of_fmap. split.
  - intros (Hb & bn & -> & Hbn%elem_of_seqZ). split; [done|]. exists bn. split; [lia|done].
  - intros (Hb & bn & Hbn & E). split; [done|]. exists bn. split; [done|]. apply elem_of_seqZ. lia.
Qed.

(** Without an indirect block there are the direct ones only. *)
Lemma addrs_direct V x : i_addrs x NDIRECT = 0 -> addrs V x MAXFILE = addrs V x NDIRECT.
Proof.
  intros E. unfold addrs. change (seqZ 0 MAXFILE) with (seqZ 0 (NDIRECT + NINDIRECT)). rewrite seqZ_app, fmap_app, filter_app by done.
  match goal with |- _ ++ ?l = _ => assert (l = []) as ->; [|apply app_nil_r] end.
  apply elem_of_nil_inv. intros b (Hb & (bn & -> & Hbn%elem_of_seqZ)%list_elem_of_fmap)%list_elem_of_filter. apply Hb.
  unfold iaddr. by rewrite (proj2 (Z.ltb_ge _ _)), E by lia.
Qed.

Lemma elem_of_file_blocks V x b : b ∈ file_blocks V x <-> b <> 0 /\ of_file V x b.
Proof.
  unfold file_blocks, of_file. rewrite elem_of_app, elem_of_addrs. destruct (decide (i_addrs x NDIRECT = 0)) as [E|E].
  - rewrite E. split; [intros [[? ?]|?%not_elem_of_nil]; [by split; [|right]|done]|]. intros [? [?|?]]; [done|]. by left.
  - rewrite list_elem_of_singleton. split; [intros [[? ?]| ->]; [by split; [|right]|by split; [|left]]|]. intros [? [?|?]]; [by right|by left].
Qed.

Section blocks.
Context (sb0 : superblock) (start : Z) (V : Z -> bytes) (x : inode) (Hx : file_ok sb0 start V x).

Lemma addrs_fresh k : 0 <= k < MAXFILE -> iaddr V x k <> 0 -> iaddr V x k ∉ addrs V x k.
Proof.
  intros Hk H0 (_ & bn & Hbn & E)%elem_of_addrs.
  assert (k = bn) by (apply (fk_inj _ _ _ _ Hx); [done|lia|done|done]). lia.
Qed.

Lemma ind_fresh : i_addrs x NDIRECT <> 0 -> i_addrs x NDIRECT ∉ addrs V x MAXFILE.
Proof. intros H0 (_ & bn & Hbn & E)%elem_of_addrs. apply (fk_ne _ _ _ _ Hx bn Hbn); congruence. Qed.

Lemma file_blocks_NoDup : NoDup (file_blocks V x).
Proof.
  assert (forall k : nat, Z.of_nat k <= MAXFILE -> NoDup (addrs V x (Z.of_nat k))) as Hk.
  { induction k as [|k IH]; intros Hle; [apply NoDup_nil_2|]. replace (Z.of_nat (S k)) with (Z.of_nat k + 1) by lia.
    rewrite addrs_next by lia. destruct (decide _) as [E|E]; [rewrite app_nil_r; apply IH; lia|].
    apply NoDup_app. split; [apply IH; lia|]. split; [|apply NoDup_singleton]. intros b Hb ->%list_elem_of_singleton.
    by apply (addrs_fresh (Z.of_nat k)) in Hb; [|lia|]. }
  specialize (Hk (Z.to_nat MAXFILE)). rewrite Z2Nat.id in Hk by done. specialize (Hk ltac:(lia)). unfold file_blocks.
  destruct (decide _); [by rewrite app_nil_r|]. apply NoDup_app. split; [done|]. split; [|apply NoDup_singleton].
  intros b Hb ->%list_elem_of_singleton. by apply ind_fresh in Hb.
Qed.

Lemma file_blocks_used b : b ∈ file_blocks V x -> used sb0 start V b.
Proof.
  rewrite elem_of_file_blocks. intros [H0 [->|(bn & Hbn & <-)]].
  - by destruct (fk_ind _ _ _ _ Hx).
  - by destruct (fk_addr _ _ _ _ Hx bn Hbn).
Qed.

End blocks.

(** ** Clearing bits *)

Section bits.
Context (S0 : Z) (sb0 : superblock) (start : Z) (Hly : layout_ok S0 sb0 start).

(** The disk with the blocks [F] marked free. *)
Record cleared (V : Z -> bytes) (F : list Z) (V' : Z -> bytes) : Prop := {
  cl_use : forall b, 0 <= b < sb_size sb0 -> in_use sb0 V' b = (in_use sb0 V b && bool_decide (b ∉ F))%bool;
  cl_same : forall blk, (forall b, 0 <= b < sb_size sb0 -> blk <> bit_block sb0 b) -> V' blk = V blk
}.

Lemma cleared_nil V : cleared V [] V.
Proof. split; [|done]. intros b _. rewrite bool_decide_eq_true_2 by apply not_elem_of_nil. by rewrite andb_true_r. Qed.

Lemma cleared_step V F V' b : cleared V F V' -> 0 <= b < sb_size sb0 -> cleared V (F ++ [b]) (freed sb0 V' b).
Proof.
  intros [Hu Hs] Hb. split.
  - intros b' Hb'. unfold freed. rewrite (in_use_clear S0) by (done || apply Hly). rewrite Hu by done.
    rewrite andb_comm, <-andb_assoc. f_equal.
    rewrite <-bool_decide_not, <-bool_decide_and. apply bool_decide_ext. rewrite not_elem_of_app, not_elem_of_cons. split; [|intros [? [? _]]; split; [done|congruence]].
    intros [? ?]. split; [done|]. split; [congruence|apply not_elem_of_nil].
  - intros blk Hblk. unfold freed. rewrite fn_insert_ne; [by apply Hs|]. apply not_eq_sym. by apply Hblk.
Qed.

Lemma cleared_area V F V' b : cleared V F V' -> area sb0 start b -> V' b = V b.
Proof. intros Hc Hb. apply (cl_same _ _ _ Hc). intros b' Hb'. by apply (ly_bits _ _ _ Hly). Qed.

(** The blocks of the bitmap. *)
Definition bit_blocks : list Z := (fun i => i + sb_bmapstart sb0) <$> seqZ 0 (sb_size sb0 / BPB + 1).

Lemma elem_of_bit_blocks b : 0 <= b < sb_size sb0 -> bit_block sb0 b ∈ bit_blocks.
Proof.
  intros Hb. rewrite (bit_block_eq S0) by (done || apply Hly). unfold bit_blocks. apply list_elem_of_fmap. exists (b / BPB). split; [done|].
  apply elem_of_seqZ. assert (0 < BPB) by done. pose proof (Z.div_le_mono b (sb_size sb0) BPB ltac:(done) ltac:(lia)).
  pose proof (Z.div_pos b BPB). lia.
Qed.

(** The transaction [L] with blocks of the bitmap added. *)
Definition logged (L L' : list Z) : Prop := exists K, L' = L ++ K /\ NoDup K /\ K ⊆ bit_blocks.

Lemma logged_refl L : logged L L.
Proof. exists []. split; [by rewrite app_nil_r|]. split; [apply NoDup_nil_2|]. by intros b Hb%not_elem_of_nil. Qed.

Lemma logged_add L L' b : logged L L' -> 0 <= b < sb_size sb0 -> logged L (addL L' (bit_block sb0 b)).
Proof.
  intros (K & -> & Hn & Hs) Hb. unfold addL. destruct (decide _) as [|Hne]; [by exists K|].
  exists (K ++ [bit_block sb0 b]). rewrite not_elem_of_app in Hne. split; [by rewrite app_assoc|]. split.
  - apply NoDup_app. split; [done|]. split; [|apply NoDup_singleton]. intros y Hy ->%list_elem_of_singleton. by apply Hne.
  - intros y [Hy|Hy%list_elem_of_singleton]%elem_of_app; [by apply Hs|]. subst y. by apply elem_of_bit_blocks.
Qed.

Lemma logged_length L L' : logged L L' -> (length L' <= length L + length bit_blocks)%nat.
Proof.
  intros (K & -> & Hn & Hs). rewrite length_app. apply Nat.add_le_mono_l. apply submseteq_length, NoDup_submseteq; done.
Qed.

Lemma logged_sub L L' b : logged L L' -> b ∈ L -> b ∈ L'.
Proof. intros (K & -> & _). rewrite elem_of_app. by left. Qed.

End bits.

(** ** itrunc *)

(** The disk [V] and the inode [x] after the file was emptied, and the inode
    stored as [x']: its blocks are free, and nothing else has changed. *)
Record file_freed (S0 : Z) (sb0 : superblock) (start : Z) (V : Z -> bytes) (x : inode) (V' : Z -> bytes) (x' : inode) : Prop := {
  ff_use : forall b, area sb0 start b -> in_use sb0 V' b = true <-> in_use sb0 V b = true /\ ~ of_file V x b;
  ff_reserved : forall b, 0 <= b < start -> b < sb_size sb0 -> in_use sb0 V' b = in_use sb0 V b;
  ff_count : nfree sb0 V' = nfree sb0 V + Z.of_nat (length (file_blocks V x));
  ff_data : forall b, area sb0 start b -> V' b = V b;
  ff_size : i_size x' = 0;
  ff_addrs : forall i, 0 <= i <= NDIRECT -> i_addrs x' i = 0;
  ff_disk : on_disk (V' (iblock sb0 (i_inum x))) (dinode_off (i_inum x)) x';
  ff_inodes : forall inum o, (iblock sb0 inum <> iblock sb0 (i_inum x) \/ inum mod IPB <> i_inum x mod IPB) ->
    inode_block S0 sb0 start (iblock sb0 inum) ->
    dinode_off inum <= o < dinode_off inum + sizeof_dinode -> V' (iblock sb0 inum) o = V (iblock sb0 inum) o
}.

Section freed.
Context (S0 : Z) (sb0 : superblock) (start : Z) (Hly : layout_ok S0 sb0 start).
Context (V : Z -> bytes) (x : inode) (Hx : file_ok sb0 start V x) (Hib : inode_block S0 sb0 start (iblock sb0 (i_inum x))).

Lemma cleared_count V' : cleared sb0 V (file_blocks V x) V' -> nfree sb0 V' = nfree sb0 V + Z.of_nat (length (file_blocks V x)).
Proof.
  intros [Hu _]. unfold nfree. rewrite <-Nat2Z.inj_add, <-length_app. f_equal. apply Permutation_length, NoDup_Permutation.
  - apply NoDup_filter, NoDup_seqZ.
  - apply NoDup_app. split; [apply NoDup_filter, NoDup_seqZ|]. split; [|by eapply file_blocks_NoDup].
    intros b (Hb & _)%list_elem_of_filter Hf. apply (file_blocks_used sb0 start) in Hf as [_ Hf]; [congruence|done].
  - intros b. rewrite elem_of_app, !list_elem_of_filter, !elem_of_seqZ. split.
    + intros [Hf Hr]. rewrite Hu in Hf by lia. destruct (decide (b ∈ file_blocks V x)) as [|Hn]; [by right|left].
      rewrite bool_decide_eq_true_2, andb_true_r in Hf by done. done.
    + intros [[Hf Hr]|Hf].
      * split; [|done]. rewrite Hu, Hf by lia. done.
      * pose proof (file_blocks_used sb0 start V x Hx b Hf) as Hb. apply (used_range S0 sb0 start Hly) in Hb. split; [|lia].
        rewrite Hu, bool_decide_eq_false_2, andb_false_r by (lia || auto). done.
Qed.

(** The inode goes to its block after the bits were cleared. *)
Lemma cleared_freed V1 x' :
  cleared sb0 V (file_blocks V x) V1 -> i_inum x' = i_inum x -> inode_typed x' -> i_size x' = 0 -> (forall i, 0 <= i <= NDIRECT -> i_addrs x' i = 0) ->
  file_freed S0 sb0 start V x (disk_put sb0 V1 x') x'.
Proof.
  intros Hc Ei Hty Hs Ha. set (V' := disk_put sb0 V1 x').
  assert (forall b, b <> iblock sb0 (i_inum x) -> V' b = V1 b) as Hout.
  { intros b Hb. subst V'. unfold disk_put. rewrite Ei. by apply fn_insert_ne. }
  assert (forall b, 0 <= b < sb_size sb0 -> in_use sb0 V' b = in_use sb0 V1 b) as Huse.
  { intros b Hb. unfold in_use. rewrite Hout; [done|]. apply not_eq_sym. by apply (ib_bits _ _ _ _ Hib). }
  pose proof (ly_start _ _ _ Hly) as Hst. split; try done.
  - intros b Hb. pose proof (area_range S0 sb0 start Hly b Hb) as Hr. rewrite Huse, (cl_use _ _ _ _ Hc) by lia.
    rewrite andb_true_iff, bool_decide_eq_true, elem_of_file_blocks. split; intros [? Hf]; (split; [done|]); [intros ?; apply Hf; split; [lia|done]|by intros [_ ?]].
  - intros b Hb Hr. rewrite Huse, (cl_use _ _ _ _ Hc) by lia. rewrite bool_decide_eq_true_2; [apply andb_true_r|].
    intros Hf%(file_blocks_used sb0 start); [|done]. destruct Hf as [[? _] _]. lia.
  - rewrite <-(cleared_count V1 Hc). unfold nfree. do 2 f_equal. apply filter_ext_in. intros b Hb%elem_of_seqZ. by rewrite Huse by lia.
  - intros b Hb. rewrite Hout by (intros ->; by apply (ib_area _ _ _ _ Hib)). by apply (cleared_area S0 sb0 start Hly V (file_blocks V x) V1).
  - subst V'. unfold disk_put. rewrite Ei, fn_lookup_insert. by apply dinode_put_on_disk.
  - intros inum p Hne [_ _ Hbits] Hp. destruct (decide (iblock sb0 inum = iblock sb0 (i_inum x))) as [E|E].
    + destruct Hne as [?|Hne]; [done|]. subst V'. unfold disk_put. rewrite E, Ei, fn_lookup_insert.
      rewrite dinode_put_out by (pose proof (dinode_offs_ne _ _ Hne); lia). rewrite <-E. by rewrite (cl_same _ _ _ _ Hc).
    + rewrite Hout by done. by rewrite (cl_same _ _ _ _ Hc).
Qed.

(** Storing the inode once more. *)
Lemma freed_again V' x' x'' :
  file_freed S0 sb0 start V x V' x' -> i_inum x'' = i_inum x -> inode_typed x'' -> i_size x'' = 0 -> (forall i, 0 <= i <= NDIRECT -> i_addrs x'' i = 0) ->
  file_freed S0 sb0 start V x (disk_put sb0 V' x'') x''.
Proof.
  intros [] Ei Hty Hs Ha. set (V'' := disk_put sb0 V' x'').
  assert (forall b, b <> iblock sb0 (i_inum x) -> V'' b = V' b) as Hout.
  { intros b Hb. subst V''. unfold disk_put. rewrite Ei. by apply fn_insert_ne. }
  assert (forall b, 0 <= b < sb_size sb0 -> in_use sb0 V'' b = in_use sb0 V' b) as Huse.
  { intros b Hb. unfold in_use. rewrite Hout; [done|]. apply not_eq_sym. by apply (ib_bits _ _ _ _ Hib). }
  split; try done.
  - intros b Hb. pose proof (area_range S0 sb0 start Hly b Hb) as Hr. rewrite Huse by lia. by apply ff_use0.
  - intros b Hb Hr. rewrite Huse by lia. by apply ff_reserved0.
  - rewrite <-ff_count0. unfold nfree. do 2 f_equal. apply filter_ext_in. intros b Hb%elem_of_seqZ. by rewrite Huse by lia.
  - intros b Hb. rewrite Hout by (intros ->; by apply (ib_area _ _ _ _ Hib)). by apply ff_data0.
  - subst V''. unfold disk_put. rewrite Ei, fn_lookup_insert. by apply dinode_put_on_disk.
  - intros inum p Hne Hblk Hp. rewrite <-(ff_inodes0 inum p Hne Hblk Hp). destruct (decide (iblock sb0 inum = iblock sb0 (i_inum x))) as [E|E].
    + destruct Hne as [?|Hne]; [done|]. subst V''. unfold disk_put. rewrite E, Ei, fn_lookup_insert.
      rewrite dinode_put_out by (pose proof (dinode_offs_ne _ _ Hne); lia). by rewrite <-E.
    + by rewrite Hout.
Qed.

End freed.

Section trunc.
Context {c me dev : Z} {LY : Layout} {LO : LayoutOk} {DEV : BlockDev} {DOK : BlockDevOk c me}.
Context (S0 : Z) (Hdev : 0 <= dev < 2 ^ 31) (HS0 : 0 <= S0 /\ S0 + LOGSIZE < 2 ^ 31).
Context (n : nat) (Hn : (Z.to_nat NBUF < n)%nat) (Hdn : (dfuel < n)%nat).
Context (sb0 : superblock) (start : Z) (Hly : layout_ok S0 sb0 start).
Context (D : Z -> bytes) (o : Z) (Ho : 1 <= o).
Context (V : Z -> bytes) (L : list Z) (HL : Z.of_nat (length L + length (bit_blocks sb0)) < LOGSIZE - 1).

Abbreviation linv := (linv (c := c) (me := me) (dev := dev) S0).

(** The blocks [F] are free, with the buffers [H] held. *)
Definition cleared_to (F H : list Z) (s : kernel) : Prop :=
  exists V' L', cleared sb0 V F V' /\ logged sb0 L L' /\ linv D V' L' H o s.

Lemma wp_free_block F H s b (Q : unit -> kernel -> Prop) :
  cleared_to F H s -> sb s = sb0 -> used sb0 start V b -> b ∉ F -> (forall blk, holds s H blk -> area sb0 start blk) -> (length H <= 1)%nat ->
  (forall s', lframe s s' -> keeps H s s' -> cleared_to (F ++ [b]) H s' -> Q tt s') ->
  wp (bfree (s32 dev) b) n s Q.
Proof.
  intros (V' & L' & Hc & Hlg & Hl) Hsb Hu HF Hh HH HQ. pose proof (used_range S0 sb0 start Hly _ _ Hu) as Hr.
  rewrite s32_small by lia. pose proof (logged_length _ _ _ Hlg). assert (LOGSIZE = 30 /\ NBUF = 30) as [EL EN] by done.
  eapply (wp_bfree S0 Hdev HS0 n Hn Hdn sb0); [apply Hly|done|exact Hl|lia| |done| |lia|lia|].
  - rewrite (cl_use _ _ _ _ Hc), (proj2 Hu), bool_decide_eq_true_2 by (done || lia). done.
  - intros Hb%Hh. apply (ly_bits _ _ _ Hly _ b Hb); [lia|done].
  - intros s' F' K' L''. apply HQ; [done|done|]. exists (freed sb0 V' b), (addL L' (bit_block sb0 b)). split_and!; [|apply (logged_add S0 sb0 start Hly); [done|lia]|done].
    apply (cleared_step S0 sb0 start Hly); [done|lia].
Qed.

Context (ip : Z) (s0 : kernel).
Abbreviation x := (inodes s0 ip).
Context (Hl0 : linv D V L [] o s0) (Hx : file_ok sb0 start V x) (Hsb : sb s0 = sb0) (Hid : i_dev x = dev).

(** The loop over the direct entries has reached [i]. *)
Definition trunc_at (i : Z) (s : kernel) : Prop :=
  cleared_to (addrs V x i) [] s /\ exists f, lframe (put_inode ip (set_i_addrs f x) s0) s /\
    forall j, f j = if decide (0 <= j < i) then 0 else i_addrs x j.

Lemma trunc_inode s f : lframe (put_inode ip (set_i_addrs f x) s0) s -> inodes s ip = set_i_addrs f x.
Proof. intros F. by rewrite (lframe_inodes _ _ F), put_inode_at. Qed.

Lemma wp_trunc_direct i s (Q : ctl unit unit -> kernel -> Prop) :
  0 <= i < NDIRECT -> trunc_at i s -> (forall s', trunc_at (i + 1) s' -> Q (Next tt) s') ->
  wp (a ← iget_ ip (fun x => i_addrs x i);
      when (negb (a =? 0)) (bfree (s32 dev) a;; iset ip (fun x => set_i_addrs (<[i := 0]> (i_addrs x)) x));;
      mret (Next tt : ctl unit unit)) n s Q.
Proof.
  intros Hi (Hc & f & Ff & Hf) HQ. assert (NDIRECT = 12) as EN by done. pose proof MAXFILE_eq as EM.
  unfold iget_, iset. apply wp_bind, wp_gets. rewrite (trunc_inode s f Ff). cbn [i_addrs set_i_addrs]. rewrite Hf, decide_False by lia.
  assert (iaddr V x i = i_addrs x i) as Ea by (unfold iaddr; by rewrite (proj2 (Z.ltb_lt _ _)) by lia). pose proof (addrs_next V x i ltac:(lia)) as En.
  rewrite <-Ea. destruct (Z.eqb_spec (iaddr V x i) 0) as [E0|E0]; cbn [negb when].
  - apply wp_bind, wp_ret, wp_ret, HQ. rewrite decide_True, app_nil_r in En by done. split; [by rewrite En|]. exists f. split; [done|].
    intros j. rewrite Hf. destruct (decide (j = i)) as [->|]; [rewrite decide_False, decide_True by lia; congruence|].
    destruct (decide (0 <= j < i)); [by rewrite decide_True by lia|by rewrite decide_False by lia].
  - rewrite decide_False in En by done. apply wp_bind, wp_bind. eapply (wp_free_block (addrs V x i) [] s (iaddr V x i)); [done| | | | |cbn; lia|].
    + rewrite (lframe_sb _ _ Ff). done.
    + by destruct (fk_addr _ _ _ _ Hx i) as [?|?]; [lia|..].
    + eapply addrs_fresh; [done|lia|done].
    + intros blk Hb. exfalso. by eapply no_holds.
    + intros s1 F1 _ (V1 & L1 & Hc1 & Hg1 & Hl1). apply wp_modify, wp_ret, HQ. split.
      * rewrite En. exists V1, L1. split_and!; [done|done|]. by apply linv_upd_inode.
      * rewrite upd_put_inode, (lframe_inodes _ _ F1), (trunc_inode s f Ff). exists (<[i := 0]> f). split.
        { apply (lframe_put_after ip (set_i_addrs f x)). by etrans. }
        intros j. rewrite fn_insert_spec. destruct (decide (i = j)) as [<-|Hne]; [by rewrite decide_True by lia|]. rewrite Hf.
        destruct (decide (0 <= j < i)); [by rewrite decide_True by lia|by rewrite decide_False by lia].
Qed.

(** The loop over the indirect block [bp] has reached entry [j]. *)
Definition trunc_ind_at (bp : Z) (s1 : kernel) (j : Z) (s : kernel) : Prop :=
  cleared_to (addrs V x (NDIRECT + j)) [bp] s /\ lframe s1 s /\ b_blockno (bufs s bp) = i_addrs x NDIRECT.

Lemma wp_trunc_indirect bp s1 j s (Q : ctl unit unit -> kernel -> Prop) :
  0 <= j < NINDIRECT -> i_addrs x NDIRECT <> 0 -> sb s1 = sb0 -> trunc_ind_at bp s1 j s ->
  (forall s', trunc_ind_at bp s1 (j + 1) s' -> Q (Next tt) s') ->
  wp (a ← bget_ bp (fun x => ld 4 (b_data x) (4 * j)); when (negb (a =? 0)) (bfree (s32 dev) a);; mret (Next tt : ctl unit unit)) n s Q.
Proof.
  intros Hj Hind Hsb1 (Hc & F & Hbk) HQ. assert (NDIRECT = 12 /\ NINDIRECT = 256) as [EN EI] by done. pose proof MAXFILE_eq as EM.
  destruct (fk_ind _ _ _ _ Hx) as [?|Hu]; [done|].
  unfold bget_. apply wp_bind, wp_gets. assert (ld 4 (b_data (bufs s bp)) (4 * j) = iaddr V x (NDIRECT + j)) as ->.
  { destruct Hc as (V1 & L1 & Hc1 & _ & Hl1). rewrite (linv_held_data S0 _ _ _ _ _ _ _ Hl1), Hbk by apply list_elem_of_here.
    rewrite (cleared_area S0 sb0 start Hly _ _ _ _ Hc1) by apply Hu. unfold iaddr.
    rewrite (proj2 (Z.ltb_ge _ _)), (proj2 (Z.eqb_neq _ _)) by (done || lia). do 2 f_equal. lia. }
  pose proof (addrs_next V x (NDIRECT + j) ltac:(lia)) as En. rewrite <-Z.add_assoc in En.
  destruct (Z.eqb_spec (iaddr V x (NDIRECT + j)) 0) as [E0|E0]; cbn [negb when].
  - apply wp_bind, wp_ret, wp_ret, HQ. rewrite decide_True, app_nil_r in En by done. by split; [rewrite En|].
  - rewrite decide_False in En by done. apply wp_bind. eapply (wp_free_block (addrs V x (NDIRECT + j)) [bp]); [done| | | | |cbn; lia|].
    + by rewrite (lframe_sb _ _ F).
    + by destruct (fk_addr _ _ _ _ Hx (NDIRECT + j)) as [?|?]; [lia|..].
    + eapply addrs_fresh; [done|lia|done].
    + intros blk (b & ->%list_elem_of_singleton & <-). rewrite Hbk. apply Hu.
    + intros s2 F2 K2 Hc2. apply wp_ret, HQ. rewrite <-En in Hc2. split; [done|]. split; [by etrans|]. rewrite K2 by apply list_elem_of_here. done.
Qed.

(** The second half, from the loop over the direct entries on. *)
Definition truncated (s : kernel) : Prop :=
  cleared_to (file_blocks V x) [] s /\ exists f, lframe (put_inode ip (set_i_addrs f x) s0) s /\ forall j, 0 <= j <= NDIRECT -> f j = 0.

Lemma wp_trunc_ind s (Q : unit -> kernel -> Prop) :
  trunc_at NDIRECT s -> i_addrs x NDIRECT <> 0 -> (forall s', truncated s' -> Q tt s') ->
  wp (bp ← bread dev (i_addrs x NDIRECT);
      for_ (Z.to_nat NINDIRECT) 0 (fun j =>
        a ← bget_ bp (fun x => ld 4 (b_data x) (4 * j));
        when (negb (a =? 0)) (bfree (s32 dev) a);;
        mret (Next tt : ctl unit unit));;
      brelse bp;;
      bfree (s32 dev) (i_addrs x NDIRECT);;
      iset ip (fun x => set_i_addrs (<[NDIRECT := 0]> (i_addrs x)) x)) n s Q.
Proof.
  intros ((V1 & L1 & Hc1 & Hg1 & Hl1) & f & Ff & Hf) Hind HQ. set (ind := i_addrs x NDIRECT) in *.
  destruct (fk_ind _ _ _ _ Hx) as [?|Hu]; [done|]. fold ind in Hu. assert (isdata S0 ind) as Hd by apply (ly_data _ _ _ Hly), Hu.
  pose proof (logged_length _ _ _ Hg1). assert (LOGSIZE = 30 /\ NBUF = 30) as [EL EN] by done.
  assert (sb s = sb0) as Hsb1 by by rewrite (lframe_sb _ _ Ff).
  apply wp_bind. eapply (wp_get S0 n Hn Hdn); [exact Hl1|done|apply no_holds|cbn; lia|]. intros bp s1 F1 Hl2 Hbp Hbk _ _ Hcl.
  apply wp_bind. apply (wp_for (trunc_ind_at bp s1)).
  { split; [|done]. rewrite Z.add_0_r. by exists V1, L1. }
  { intros j s' Hj Ha. eapply wp_trunc_indirect; [by change (Z.of_nat (Z.to_nat NINDIRECT)) with NINDIRECT in Hj|done| |exact Ha|done].
    by rewrite (lframe_sb _ _ F1). }
  change (0 + Z.of_nat (Z.to_nat NINDIRECT)) with NINDIRECT. intros s2 ((V2 & L2 & Hc2 & Hg2 & Hl3) & F2 & Hbk2).
  change (NDIRECT + NINDIRECT) with MAXFILE in Hc2.
  apply wp_bind. eapply (wp_put S0 n Hn Hdn); [exact Hl3| |].
  { rewrite Hbk2. fold ind. destruct (linv_clean S0 _ _ _ _ _ _ ind Hl0 Hd (no_holds s0 ind)) as [Hin|[_ E]]; [left; by eapply logged_sub|right].
    split; [done|]. by rewrite (cleared_area S0 sb0 start Hly _ _ _ _ Hc2) by apply Hu. }
  intros s3 F3 Hl4 _. assert (lframe s s3) as F03 by (etrans; [exact F1|]; by etrans).
  apply wp_bind. eapply (wp_free_block (addrs V x MAXFILE) [] s3 ind); [by exists V2, L2|by rewrite (lframe_sb _ _ F03)|done| |intros blk Hb; exfalso; by eapply no_holds|cbn; lia|].
  { by eapply ind_fresh. }
  intros s4 F4 _ (V4 & L4 & Hc4 & Hg4 & Hl5). unfold iset. apply wp_modify, HQ. split.
  - exists V4, L4. split_and!; [|done|by apply linv_upd_inode]. unfold file_blocks. by rewrite decide_False.
  - assert (lframe s s4) as F04 by by etrans. rewrite upd_put_inode, (lframe_inodes _ _ F04), (trunc_inode s f Ff). exists (<[NDIRECT := 0]> f). split.
    + apply (lframe_put_after ip (set_i_addrs f x)). by etrans.
    + intros j Hj. rewrite fn_insert_spec. destruct (decide _); [done|]. rewrite Hf, decide_True by lia. done.
Qed.

Lemma wp_itrunc (Q : unit -> kernel -> Prop) :
  inode_typed x -> inode_block S0 sb0 start (iblock sb0 (i_inum x)) ->
  (forall s' V' L' x', x' = set_i_size 0 (set_i_addrs (i_addrs x') x) -> inode_typed x' -> file_freed S0 sb0 start V x V' x' ->
     lframe (put_inode ip x' s0) s' -> linv D V' L' [] o s' -> (length L' <= length L + length (bit_blocks sb0) + 1)%nat -> Q tt s') ->
  wp (itrunc ip) n s0 Q.
Proof.
  intros Hty Hib HQ. unfold itrunc, iget_ at 1. apply wp_bind, wp_gets. rewrite Hid. apply wp_bind. apply (wp_for trunc_at).
  { split; [|exists (i_addrs x); split].
    - exists V, L. split_and!; [apply cleared_nil|apply logged_refl|exact Hl0].
    - replace (set_i_addrs (i_addrs x) x) with x by by destruct x. by rewrite put_inode_id.
    - intros j. by rewrite decide_False by lia. }
  { intros i s Hi Ha. by apply wp_trunc_direct. }
  change (0 + Z.of_nat (Z.to_nat NDIRECT)) with NDIRECT. intros s1 Ha. pose proof Ha as (Hc & f & Ff & Hf).
  unfold iget_. apply wp_bind, wp_gets. rewrite (trunc_inode s1 f Ff). cbn [i_addrs set_i_addrs]. rewrite (Hf NDIRECT), decide_False by lia.
  assert (forall s2, truncated s2 -> wp (iset ip (set_i_size 0);; iupdate ip) n s2 Q) as Hend.
  { clear Hc f Ff Hf Ha s1. intros s2 ((V2 & L2 & Hc2 & Hg2 & Hl2) & f & Ff & Hf). unfold iset. apply wp_bind, wp_modify.
    rewrite upd_put_inode, (trunc_inode s2 f Ff). set (x' := set_i_size 0 (set_i_addrs f x)).
    assert (lframe (put_inode ip x' s0) (put_inode ip x' s2)) as F2 by by apply (lframe_put_after ip (set_i_addrs f x)).
    assert (inode_typed x') as Hty' by (destruct Hty; split; cbn; try done; intros i Hi; rewrite Hf by done; lia).
    pose proof (logged_length _ _ _ Hg2).
    eapply (wp_iupdate S0 Hdev HS0 n Hn Hdn sb0); [by apply linv_inodes|by rewrite (lframe_sb _ _ F2)|by rewrite put_inode_at|rewrite put_inode_at; apply Hib|done|lia|].
    rewrite put_inode_at. intros s3 F3 L3. pose proof (addL_length L2 (iblock sb0 (i_inum x'))).
    eapply (HQ s3 _ _ x'); [done|done|by apply (cleared_freed S0 sb0 start Hly)|by etrans|exact L3|lia]. }
  destruct (Z.eqb_spec (i_addrs x NDIRECT) 0) as [E0|E0]; cbn [negb when]; apply wp_bind.
  - apply wp_ret, Hend. split.
    + unfold file_blocks. by rewrite decide_True, app_nil_r, addrs_direct.
    + exists f. split; [done|]. intros j Hj. rewrite Hf. destruct (decide _); [done|]. assert (j = NDIRECT) as -> by lia. done.
  - by apply wp_trunc_ind.
Qed.

End trunc.

(** ** iput *)

Section iput.
Context {c me dev : Z} {LY : Layout} {LO : LayoutOk} {DEV : BlockDev} {DOK : BlockDevOk c me}.
Context (S0 : Z) (n : nat) (Hn : (Z.to_nat NBUF < n)%nat) (Hdn : (dfuel < n)%nat).

Abbreviation linv := (linv (c := c) (me := me) (dev := dev) S0).

(** The inode is deleted with its last reference. *)
Definition doomed (x : inode) : Prop := i_ref x = 1 /\ i_valid x <> 0 /\ i_nlink x = 0.

#[global] Instance doomed_dec x : Decision (doomed x).
Proof. unfold doomed. apply _. Defined.

Lemma doomed_test x : ((i_ref x =? 1) && negb (i_valid x =? 0) && (i_nlink x =? 0))%bool = bool_decide (doomed x).
Proof.
  unfold doomed. destruct (Z.eqb_spec (i_ref x) 1), (Z.eqb_spec (i_valid x) 0), (Z.eqb_spec (i_nlink x) 0); cbn;
    symmetry; (apply bool_decide_eq_true_2 || apply bool_decide_eq_false_2); tauto.
Qed.

(** The last step: one reference less. *)
Lemma wp_iput_drop D V L o s h ip (Q : unit -> kernel -> Prop) :
  linv D V L [] o s -> hon c [Litable] h ->
  (forall s', lframe (put_inode ip (set_i_ref (i_ref (inodes s ip) - 1) (inodes s ip)) s) s' -> linv D V L [] o s' -> Q tt s') ->
  wp (iset ip (fun x => set_i_ref (i_ref x - 1) x);; unlock Litable) n (hk h s) Q.
Proof.
  intros Hl Hh HQ. unfold iset. apply wp_bind, wp_modify. rewrite upd_put_inode. change (inodes (hk h s) ip) with (inodes s ip).
  set (y := set_i_ref _ _) in *. eapply (wp_unlock (c := c)); [exact Hh|]. intros h2 H2.
  change (hk h2 (put_inode ip y (hk h s))) with (hk h2 (put_inode ip y s)). apply HQ; [apply lframe_hart|]. apply linv_hk; [done|]. by apply linv_inodes.
Qed.

Lemma wp_iput_keep D V L o s ip (Q : unit -> kernel -> Prop) :
  linv D V L [] o s -> ~ doomed (inodes s ip) ->
  (forall s', lframe (put_inode ip (set_i_ref (i_ref (inodes s ip) - 1) (inodes s ip)) s) s' -> linv D V L [] o s' -> Q tt s') ->
  wp (iput ip) n s Q.
Proof.
  intros Hl Hd HQ. unfold iput, iget_. apply wp_bind. eapply wp_lock; [lia|apply (linv_runs _ _ _ _ _ _ _ Hl)|apply not_elem_of_nil|].
  intros h1 H1. apply wp_bind, wp_gets. rewrite doomed_test. change (inodes (hk h1 s) ip) with (inodes s ip).
  rewrite bool_decide_eq_false_2 by done. cbn [when]. apply wp_bind, wp_ret. by eapply wp_iput_drop.
Qed.

Context (Hdev : 0 <= dev < 2 ^ 31) (HS0 : 0 <= S0 /\ S0 + LOGSIZE < 2 ^ 31).
Context (sb0 : superblock) (start : Z) (Hly : layout_ok S0 sb0 start).

(** The part of [iput] between the sections that hold the lock of the table,
    and what follows. *)
Lemma wp_iput_free D V L o s ip (k : K unit) (Q : unit -> kernel -> Prop) :
  let x := inodes s ip in
  linv D V L [] o s -> 1 <= o -> Z.of_nat (length L + length (bit_blocks sb0) + 1) < LOGSIZE - 1 -> sb s = sb0 -> i_dev x = dev ->
  file_ok sb0 start V x -> inode_typed x -> inode_block S0 sb0 start (iblock sb0 (i_inum x)) ->
  (forall s' V' L' x', file_freed S0 sb0 start V x V' x' -> i_type x' = 0 -> i_valid x' = 0 -> i_ref x' = i_ref x -> sl_locked (i_lock x') = 0 ->
     lframe (put_inode ip x' s) s' -> linv D V' L' [] o s' -> wp k n s' Q) ->
  wp (itrunc ip;; iset ip (set_i_type 0);; iupdate ip;; iset ip (set_i_valid 0);; releasesleep (SLinode ip);; k) n s Q.
Proof.
  intros x Hl Ho HL Hsb Hid Hx Hty Hib HQ.
  apply wp_bind. eapply (wp_itrunc S0 Hdev HS0 n Hn Hdn sb0 start Hly D o Ho V L); try done; [lia|].
  intros s2 V2 L2 x2 Ex2 Hty2 Hff2 F2 Hl2 HL2.
  unfold iset at 1. apply wp_bind, wp_modify. rewrite upd_put_inode, (lframe_inodes _ _ F2), put_inode_at. set (x3 := set_i_type 0 x2).
  assert (inodes (put_inode ip x3 s2) ip = x3) as E3 by apply put_inode_at.
  assert (i_inum x3 = i_inum x) as Ei by (subst x3; by rewrite Ex2).
  apply wp_bind. eapply (wp_iupdate S0 Hdev HS0 n Hn Hdn sb0); rewrite ?E3, ?Ei;
    [by apply linv_inodes|by etrans; [exact (lframe_sb _ _ F2)|]|subst x3; by rewrite Ex2|apply Hib|done|lia|].
  intros s3 F3 L3. assert (lframe (put_inode ip x3 s) s3) as F03 by (etrans; [|exact F3]; by apply (lframe_put_after ip x2)).
  set (V3 := disk_put sb0 V2 x3) in *.
  assert (file_freed S0 sb0 start V x V3 x3) as Hff3.
  { eapply (freed_again S0 sb0 start Hly V x Hib V2 x2); [done|done| |apply Hff2..]. destruct Hty2. by split. }
  unfold iset. apply wp_bind, wp_modify. rewrite upd_put_inode, (lframe_inodes _ _ F03), put_inode_at. set (x4 := set_i_valid 0 x3).
  pose proof (linv_runs _ _ _ _ _ _ _ L3) as [Hh3 _ _ _].
  apply wp_bind. eapply (wp_releasesleep (c := c) (SLinode ip)); [lia|exact Hh3|apply not_elem_of_nil|intros p; apply not_elem_of_nil|].
  intros h4 ps H4 Hw. cbn [sl_get sl_set]. rewrite upd_put_inode, put_inode_twice, put_inode_at. set (x5 := set_i_lock _ x4).
  eapply (HQ _ V3 _ x5); [|done|done|subst x5 x4 x3; by rewrite Ex2|done|..].
  - destruct Hff3 as [? ? ? ? ? ? [] ?]. by split.
  - etrans; [by apply (lframe_put_after ip x3)|]. exists (klog s3), h4, ps, (bufs s3), (vd s3), (medium s3). split; [exact Hw|]. by destruct s3 as [[]].
  - apply linv_woke; [exact Hw|]. apply linv_hk; [done|]. apply linv_inodes. exact L3.
Qed.

Lemma file_freed_same V x y V' x' :
  i_addrs y = i_addrs x -> i_inum y = i_inum x -> file_freed S0 sb0 start V y V' x' -> file_freed S0 sb0 start V x V' x'.
Proof.
  intros Ea Ei [].
  assert (forall bn, iaddr V y bn = iaddr V x bn) as Eb by (intros bn; unfold iaddr; by rewrite Ea).
  assert (forall b, of_file V y b <-> of_file V x b) as Ef by (intros b; unfold of_file; rewrite Ea; by setoid_rewrite Eb).
  assert (file_blocks V y = file_blocks V x) as El.
  { unfold file_blocks, addrs. rewrite Ea. do 2 f_equal. apply list_fmap_ext. intros; apply Eb. }
  rewrite Ei, El in *. split; try done. intros b Hb. by rewrite ff_use0, Ef.
Qed.

Lemma file_freed_drop V x V' x' r : file_freed S0 sb0 start V x V' x' -> file_freed S0 sb0 start V x V' (set_i_ref r x').
Proof. intros [? ? ? ? ? ? [] ?]. by split. Qed.

Lemma wp_iput_last D V L o s ip (Q : unit -> kernel -> Prop) :
  let x := inodes s ip in
  linv D V L [] o s -> 1 <= o -> Z.of_nat (length L + length (bit_blocks sb0) + 1) < LOGSIZE - 1 -> sb s = sb0 -> i_dev x = dev ->
  doomed x -> sl_locked (i_lock x) = 0 -> file_ok sb0 start V x -> inode_typed x -> inode_block S0 sb0 start (iblock sb0 (i_inum x)) ->
  (forall s' V' L' x', file_freed S0 sb0 start V x V' x' -> i_type x' = 0 -> i_valid x' = 0 -> i_ref x' = 0 -> sl_locked (i_lock x') = 0 ->
     lframe (put_inode ip x' s) s' -> linv D V' L' [] o s' -> Q tt s') ->
  wp (iput ip) n s Q.
Proof.
  intros x Hl Ho HL Hsb Hid Hdoom Hfree Hx Hty Hib HQ. pose proof (linv_runs _ _ _ _ _ _ _ Hl) as [Hh Hme _ _].
  unfold iput, iget_. apply wp_bind. eapply wp_lock; [lia|exact Hh|apply not_elem_of_nil|].
  intros h1 H1. apply wp_bind, wp_gets. rewrite doomed_test. change (inodes (hk h1 s) ip) with x.
  rewrite bool_decide_eq_true_2 by done. cbn [when]. apply wp_bind, wp_bind.
  eapply (wp_acquiresleep (c := c) (me := me) (SLinode ip)); [lia|exact H1|by apply not_elem_of_cons; split; [|apply not_elem_of_nil]|done|done|].
  intros h2 H2. cbn [sl_set sl_get]. rewrite upd_put_inode. change (inodes (hk h1 s) ip) with x. change (procs (hk h1 s) me) with (procs s me).
  set (x1 := set_i_lock _ x). apply wp_bind. eapply wp_unlock; [exact H2|]. intros h3 H3.
  change (hk h3 (hk h2 (put_inode ip x1 (hk h1 s)))) with (hk h3 (put_inode ip x1 s)).
  assert (linv D V L [] o (hk h3 (put_inode ip x1 s))) as L1 by (apply linv_hk; [done|]; by apply linv_inodes).
  set (s1 := hk h3 _) in *. assert (inodes s1 ip = x1) as E1 by apply (put_inode_at ip x1 s).
  eapply wp_iput_free; rewrite ?E1; [exact L1|done|done|done|done|by destruct Hx|by destruct Hty|done|].
  intros s2 V2 L2 x2 Hff Ht Hv Hr Hlk F2 L2'. eapply wp_lock; [lia|apply (linv_runs _ _ _ _ _ _ _ L2')|apply not_elem_of_nil|].
  intros h4 H4. eapply wp_iput_drop; [exact L2'|exact H4|]. intros s3 F3 L3. rewrite (lframe_inodes _ _ F2), put_inode_at in F3.
  eapply (HQ s3 V2 L2 (set_i_ref (i_ref x2 - 1) x2)); try done.
  - apply file_freed_drop. by eapply (file_freed_same V x x1).
  - cbn. rewrite Hr. change (i_ref x1) with (i_ref x). destruct Hdoom as [-> _]. done.
  - etrans; [|exact F3]. apply (lframe_put_after ip x2). etrans; [|exact F2]. apply (lframe_put_after ip x1), lframe_hart.
Qed.

End iput.

(** C14: [itrunc] empties a file: it returns, the blocks of the file are marked
    free in the bitmap, every one of them with the indirect block and no other,
    so that the disk has as many free blocks more; the inode, on the disk as in
    the table, has size 0 and no blocks, and no block of another file and no
    other inode has changed. The transaction grows by the blocks of the bitmap
    and that of the inode at most. *)
Theorem itrunc_frees {c me dev : Z} {LY : Layout} {LO : LayoutOk} {DEV : BlockDev} {DOK : BlockDevOk c me} S0 n sb0 start D V L o s ip :
  0 <= dev < 2 ^ 31 -> 0 <= S0 /\ S0 + LOGSIZE < 2 ^ 31 -> (Z.to_nat NBUF < n)%nat -> (dfuel < n)%nat -> layout_ok S0 sb0 start ->
  linv (c := c) (me := me) (dev := dev) S0 D V L [] o s -> 1 <= o -> sb s = sb0 ->
  let x := inodes s ip in
  i_dev x = dev -> file_ok sb0 start V x -> inode_typed x -> inode_block S0 sb0 start (iblock sb0 (i_inum x)) ->
  Z.of_nat (length L + length (bit_blocks sb0)) < LOGSIZE - 1 ->
  exists s' V' L' x', itrunc ip n s = Ret tt s' /\ linv (c := c) (me := me) (dev := dev) S0 D V' L' [] o s' /\
    lframe (put_inode ip x' s) s' /\ x' = set_i_size 0 (set_i_addrs (i_addrs x') x) /\ file_freed S0 sb0 start V x V' x' /\
    (length L' <= length L + length (bit_blocks sb0) + 1)%nat.
Proof.
  intros Hdev HS0 Hn Hdn Hly Hl Ho Hsb x Hid Hx Hty Hib HL.
  assert (wp (itrunc ip) n s (fun _ s' => exists V' L' x', linv (c := c) (me := me) (dev := dev) S0 D V' L' [] o s' /\
    lframe (put_inode ip x' s) s' /\ x' = set_i_size 0 (set_i_addrs (i_addrs x') x) /\ file_freed S0 sb0 start V x V' x' /\
    (length L' <= length L + length (bit_blocks sb0) + 1)%nat)) as (s' & E & V' & L' & x' & HQ)%wp_elim_unit; [|by exists s', V', L', x'].
  eapply (wp_itrunc S0 Hdev HS0 n Hn Hdn sb0 start Hly D o Ho V L); try done. intros s' V' L' x' Ex _ Hff F Hl' HL'. by exists V', L', x'.
Qed.

(** C15: [iput] drops a reference, and deletes the inode with its last one: unless
    the entry is valid, without links and has no other reference, only the count
    of the entry changes; in particular the entry of a file with links stays
    valid when its last reference goes. Otherwise all blocks of the file are free afterwards,
    the inode on the disk is free (its type is 0), the entry can be used again,
    and no block of another file and no other inode has changed. *)
Theorem iput_deletes {c me dev : Z} {LY : Layout} {LO : LayoutOk} {DEV : BlockDev} {DOK : BlockDevOk c me} S0 n sb0 start D V L o s ip :
  0 <= dev < 2 ^ 31 -> 0 <= S0 /\ S0 + LOGSIZE < 2 ^ 31 -> (Z.to_nat NBUF < n)%nat -> (dfuel < n)%nat -> layout_ok S0 sb0 start ->
  linv (c := c) (me := me) (dev := dev) S0 D V L [] o s -> 1 <= o -> sb s = sb0 ->
  let x := inodes s ip in
  (doomed x -> i_dev x = dev /\ sl_locked (i_lock x) = 0 /\ file_ok sb0 start V x /\ inode_typed x /\ inode_block S0 sb0 start (iblock sb0 (i_inum x)) /\
     Z.of_nat (length L + length (bit_blocks sb0) + 1) < LOGSIZE - 1) ->
  exists s' V' L' x', iput ip n s = Ret tt s' /\ linv (c := c) (me := me) (dev := dev) S0 D V' L' [] o s' /\ lframe (put_inode ip x' s) s' /\
    i_ref x' = i_ref x - 1 /\
    if decide (doomed x) then file_freed S0 sb0 start V x V' x' /\ di_type (V' (iblock sb0 (i_inum x))) (dinode_off (i_inum x)) = 0 /\ i_valid x' = 0
    else V' = V /\ L' = L /\ x' = set_i_ref (i_ref x - 1) x.
Proof.
  intros Hdev HS0 Hn Hdn Hly Hl Ho Hsb x Hd.
  assert (wp (iput ip) n s (fun _ s' => exists V' L' x', linv (c := c) (me := me) (dev := dev) S0 D V' L' [] o s' /\ lframe (put_inode ip x' s) s' /\
    i_ref x' = i_ref x - 1 /\
    if decide (doomed x) then file_freed S0 sb0 start V x V' x' /\ di_type (V' (iblock sb0 (i_inum x))) (dinode_off (i_inum x)) = 0 /\ i_valid x' = 0
    else V' = V /\ L' = L /\ x' = set_i_ref (i_ref x - 1) x)) as (s' & E & V' & L' & x' & HQ)%wp_elim_unit; [|by exists s', V', L', x'].
  destruct (decide (doomed x)) as [Hx|Hx].
  - destruct (Hd Hx) as (Hid & Hlk & Hok & Hty & Hib & HL).
    eapply (wp_iput_last S0 n Hn Hdn Hdev HS0 sb0 start Hly D V L); try done.
    intros s' V' L' x' Hff Ht Hv Hr _ F Hl'. exists V', L', x'. split_and!; try done.
    + rewrite Hr. destruct Hx as [Hx _]. lia.
    + etrans; [exact (od_type _ _ _ (ff_disk _ _ _ _ _ _ _ Hff))|done].
  - eapply (wp_iput_keep S0 n Hn Hdn); [exact Hl|done|]. intros s' F Hl'. by exists V, L, (set_i_ref (i_ref x - 1) x).
Qed.
