(* ===== verification/FsPath.v ===== *)
(** * Path names

    [namex] of [src/kernel/fs.c]: the walk from directory to directory that turns
    a path into an entry of the inode table, with the references it counts. *)

From stdpp Require Import gmap.
From S2P Require Import Prelude Riscv Spinlock Str Kalloc Kernel Proc Sleeplock Bio Log Fs KernelWp Ring BioProof LogProof LogOps FsBlocks FsInode FsFile FsWrite FsRead FsDir FsUser File FileProof FsFree Paths.

(** ** Inodes with the same contents *)

Section same.
Context (V : Z -> bytes) (x y : inode) (Hs : same_dinode x y).

Lemma same_iaddr bn : 0 <= bn -> iaddr V x bn = iaddr V y bn.
Proof.
  intros Hb. assert (0 <= NDIRECT) by done. unfold iaddr. rewrite (sd_addrs _ _ Hs NDIRECT) by lia. destruct (Z.ltb_spec bn NDIRECT); [|done].
  apply (sd_addrs _ _ Hs). lia.
Qed.

Lemma same_fbyte i : 0 <= i -> fbyte V x i = fbyte V y i.
Proof. intros Hi. unfold fbyte. rewrite same_iaddr; [done|]. by apply Z.div_pos. Qed.

Lemma same_file_ok sb0 start : file_ok sb0 start V y -> file_ok sb0 start V x.
Proof.
  assert (i_addrs x NDIRECT = i_addrs y NDIRECT) as Ei by by apply (sd_addrs _ _ Hs).
  intros []. split; rewrite ?Ei; try done.
  - intros bn Hb. rewrite same_iaddr by lia. by apply fk_addr.
  - intros b1 b2 H1 H2. rewrite !same_iaddr by lia. by apply fk_inj.
  - intros bn Hb. rewrite same_iaddr by lia. by apply fk_ne.
Qed.

Lemma same_filled : filled V y -> filled V x.
Proof. intros Hf bn Hb. rewrite (sd_size _ _ Hs), same_iaddr by done. by apply Hf. Qed.

Lemma same_dir_map : 0 <= i_size y -> dir_map V x = dir_map V y.
Proof.
  intros Hsz. unfold dir_map. rewrite (sd_size _ _ Hs). f_equal. apply dir_from_ext. intros j Hj. unfold dent, fbytes.
  apply list_fmap_ext. intros k b [-> Hk]%lookup_seqZ. apply same_fbyte. unfold sizeof_dirent in *. lia.
Qed.

Lemma same_dir_ok : dir_ok V y -> dir_ok V x.
Proof.
  intros []. split; rewrite ?(sd_type _ _ Hs), ?(sd_size _ _ Hs); try done.
  intros i Hi. rewrite same_fbyte by lia. by apply dk_bytes.
Qed.

End same.

#[global] Instance same_dinode_equiv : Equivalence same_dinode.
Proof.
  split; [done| |].
  - intros x y []. split; try done. intros i Hi. by rewrite sd_addrs.
  - intros x y z [] []. split; try congruence. intros i Hi. by rewrite sd_addrs, sd_addrs0.
Qed.

(** ** The tree of directories *)

Section tree.
Context (sb0 : superblock) (V : Z -> bytes).

(** Inode [inum] as the disk has it. *)
Definition node (inum : Z) : inode :=
  dinode_get (V (iblock sb0 inum)) (dinode_off inum) (mkInode 0 inum 0 (mkSleep 0 "" 0) 0 0 0 0 0 0 (fun _ => 0)).

Definition allocated_inode (inum : Z) : Prop := 0 < inum < sb_ninodes sb0 /\ i_type (node inum) <> 0.

(** An inode that a name leads to. *)
Definition linked (inum : Z) : Prop := allocated_inode inum /\ i_nlink (node inum) <> 0.

(** The inode with a name in a directory. *)
Definition child (inum : Z) (name : list Z) : option Z :=
  if decide (i_type (node inum) = T_DIR) then dir_map V (node inum) !! name else None.

(** The inode that a list of names leads to, and the directory of the last name. *)
Fixpoint resolve (inum : Z) (names : list (list Z)) : option Z :=
  match names with
  | [] => Some inum
  | name :: names => match child inum name with Some j => resolve j names | None => None end
  end.

Fixpoint resolve_parent (inum : Z) (names : list (list Z)) : option (Z * list Z) :=
  match names with
  | [] => None
  | [name] => if decide (i_type (node inum) = T_DIR) then Some (inum, name) else None
  | name :: names => match child inum name with Some j => resolve_parent j names | None => None end
  end.

(** The directories of the disk are well formed, and every name in one leads
    to an inode in use. *)
Record tree_ok (S0 start : Z) : Prop := {
  tr_block : forall inum, allocated_inode inum -> isdata S0 (iblock sb0 inum);
  tr_file : forall inum, allocated_inode inum -> i_type (node inum) = T_DIR ->
    file_ok sb0 start V (node inum) /\ filled V (node inum) /\ dir_ok V (node inum);
  tr_entry : forall inum name j, allocated_inode inum -> child inum name = Some j -> linked j
}.

End tree.

(** ** The table of inodes *)

Section table.
Context (sb0 : superblock) (V : Z -> bytes) (dev : Z).

(** No entry but [lk] is locked, and what is loaded is as on the disk. *)
Record table_ok (lk : option Z) (I : Z -> inode) : Prop := {
  tb_table : itable_ok I;
  tb_lock : forall j, 0 <= j < NINODE -> lk <> Some j -> sl_locked (i_lock (I j)) = 0;
  tb_loaded : forall j, 0 <= j < NINODE -> 0 < i_ref (I j) -> i_valid (I j) <> 0 -> i_dev (I j) = dev -> same_dinode (I j) (node sb0 V (i_inum (I j)))
}.

Lemma itable_ok_put I ip y :
  itable_ok I -> i_dev y = i_dev (I ip) -> i_inum y = i_inum (I ip) -> 0 <= i_ref y -> (0 < i_ref y -> 0 < i_ref (I ip)) -> itable_ok (<[ip := y]> I).
Proof.
  intros [Hp Hu] Ed Ei Hr Hpos. split.
  - intros i Hi. rewrite fn_insert_spec. destruct (decide (ip = i)); [done|by apply Hp].
  - assert (forall d m k, live (<[ip := y]> I) d m k -> live I d m k) as Hl.
    { intros d m k (Hk & Hl). split; [done|]. rewrite fn_insert_spec in Hl. destruct (decide (ip = k)) as [<-|]; [|done].
      rewrite <-Ed, <-Ei. destruct Hl as (? & ? & ?). auto. }
    intros d m i j Hi Hj. by eapply Hu; apply Hl.
Qed.

(** The entry [ip] changes, but stays for the same inode. *)
Lemma table_put lk lk' I ip y :
  table_ok lk I -> i_dev y = i_dev (I ip) -> i_inum y = i_inum (I ip) -> 0 <= i_ref y -> (0 < i_ref y -> 0 < i_ref (I ip)) ->
  (i_dev y = dev -> i_valid y <> 0 -> same_dinode y (node sb0 V (i_inum y))) -> (lk' <> Some ip -> sl_locked (i_lock y) = 0) ->
  (forall j, j <> ip -> lk = Some j -> lk' = Some j) -> table_ok lk' (<[ip := y]> I).
Proof.
  intros [Ht Hl Hs] Ed Ei Hr Hpos Hy Hyl Hlk. split; [by apply itable_ok_put|..]; intros j Hj; rewrite !fn_insert_spec; destruct (decide (ip = j)) as [<-|Hne]; auto.
Qed.

Lemma table_got lk I inum ip I' : table_ok lk I -> got I dev inum ip I' -> table_ok lk I'.
Proof.
  intros Hok Hg. pose proof (got_ok _ _ _ _ _ (tb_table _ _ Hok) Hg) as Ht. destruct Hok as [_ Hl Hs]. destruct Hg as [(Hr & Hp & Hd & Hi) _|_ Hr H0 _].
  - split; [done|..]; intros j Hj; rewrite !fn_insert_spec; destruct (decide (ip = j)) as [<-|Hne]; [by apply Hl|by apply Hl| |by apply Hs].
    intros _ Hv _. specialize (Hs ip Hj Hp Hv Hd). destruct Hs. by split.
  - split; [done|..]; intros j Hj; rewrite !fn_insert_spec; destruct (decide (ip = j)) as [<-|Hne]; [by apply Hl|by apply Hl|done|by apply Hs].
Qed.

(** The table [I] differs from [I0] in the references [hs]; the entries that
    were in use are for the same inodes. *)
Definition count (hs : list Z) (j : Z) : Z := Z.of_nat (length (filter (.= j) hs)).

Lemma count_cons h hs j : count (h :: hs) j = count hs j + if decide (h = j) then 1 else 0.
Proof. unfold count. rewrite filter_cons. destruct (decide (h = j)); cbn [length]; lia. Qed.

Record refs_held (I0 I : Z -> inode) (hs : list Z) : Prop := {
  hg_ref : forall j, 0 <= j < NINODE -> i_ref (I j) = i_ref (I0 j) + count hs j;
  hg_same : forall j, 0 <= j < NINODE -> 0 < i_ref (I0 j) -> i_dev (I j) = i_dev (I0 j) /\ i_inum (I j) = i_inum (I0 j)
}.

Lemma refs_held_refl I : refs_held I I [].
Proof. split; [|done]. intros j _. change (count [] j) with 0. lia. Qed.

Lemma refs_held_put I0 I hs hs' ip y :
  refs_held I0 I hs -> i_dev y = i_dev (I ip) -> i_inum y = i_inum (I ip) -> i_ref y = i_ref (I ip) + count hs' ip - count hs ip ->
  (forall j, j <> ip -> count hs' j = count hs j) -> refs_held I0 (<[ip := y]> I) hs'.
Proof.
  intros [Hr Hs] Ed Ei Er Hc. split; intros j Hj; rewrite !fn_insert_spec; destruct (decide (ip = j)) as [<-|Hne].
  - rewrite Er, Hr by done. lia.
  - rewrite Hr, Hc by congruence. done.
  - rewrite Ed, Ei. by apply Hs.
  - by apply Hs.
Qed.

Lemma refs_held_got I0 I hs inum ip I' :
  (forall j, 0 <= j < NINODE -> 0 <= i_ref (I0 j)) -> refs_held I0 I hs -> got I dev inum ip I' -> refs_held I0 I' (ip :: hs).
Proof.
  intros Hp0 Hh Hg. destruct Hg as [(Hr & Hp & Hd & Hi) _|Hno Hr H0 _].
  - eapply refs_held_put; [done|done|done|cbn; rewrite count_cons, decide_True by done; lia|].
    intros j Hj. rewrite count_cons, decide_False by congruence. lia.
  - destruct Hh as [Hr' Hs']. assert (0 <= count hs ip) by (unfold count; lia). pose proof (Hr' ip Hr) as E. pose proof (Hp0 ip Hr) as E0.
    split; intros j Hj; rewrite !fn_insert_spec, ?count_cons; destruct (decide (ip = j)) as [<-|Hne]; [cbn; lia|rewrite Hr' by done; lia|lia|by apply Hs'].
Qed.

(** Two entries of the table are free. *)
Definition two_free (I : Z -> inode) : Prop :=
  exists i j, i <> j /\ 0 <= i < NINODE /\ 0 <= j < NINODE /\ i_ref (I i) = 0 /\ i_ref (I j) = 0.

Lemma refs_held_free I0 I hs : two_free I0 -> refs_held I0 I hs -> (length hs <= 1)%nat -> exists j, 0 <= j < NINODE /\ i_ref (I j) = 0.
Proof.
  intros (i & j & Hne & Hi & Hj & Ei & Ej) [Hr _] Hl.
  assert (count hs i = 0 \/ count hs j = 0) as [E|E].
  { destruct hs as [|h [|]]; [by left| |cbn in Hl; lia]. rewrite !count_cons. change (count [] i) with 0. change (count [] j) with 0.
    destruct (decide (h = i)) as [->|]; [right; by rewrite decide_False|by left]. }
  - exists i. split; [done|]. rewrite Hr by done. lia.
  - exists j. split; [done|]. rewrite Hr by done. lia.
Qed.

Lemma refs_held_room I0 I hs inum :
  two_free I0 -> refs_held I0 I hs -> (length hs <= 1)%nat -> exists j, 0 <= j < NINODE /\ (i_ref (I j) = 0 \/ live I dev inum j).
Proof. intros Hf Hh Hl. destruct (refs_held_free _ _ _ Hf Hh Hl) as (j & Hj & E). exists j. split; [done|by left]. Qed.

End table.

(** ** Names *)

Definition path_bytes (path : list Z) : Prop := Forall (fun b => 0 < b < 256) path.
Definition name_bytes (name : bytes) : Prop := forall k, 0 <= name k < 256.

(** The elements of a path as directories have them. *)
Definition names (path : list Z) : list (list Z) := take (Z.to_nat DIRSIZ) <$> elements path.

Lemma wr_bytes_range bs : forall m a, name_bytes m -> path_bytes bs -> name_bytes (wr_bytes m a bs).
Proof.
  induction bs as [|b bs IH]; intros m a Hm Hbs; [done|]. apply Forall_cons in Hbs as [Hb Hbs]. cbn [wr_bytes]. apply IH; [|done].
  intros k. rewrite fn_insert_spec. destruct (decide (a = k)); [lia|apply Hm].
Qed.

Lemma skip_slashes_bytes path : path_bytes path -> path_bytes (skip_slashes path).
Proof. induction 1 as [|c path Hc HF IH]; cbn; [by constructor|]. destruct (c =? slash); [done|by constructor]. Qed.

(** What one call of [skipelem] does to a path that has an element left. *)
Lemma skipelem_next path name :
  path_bytes path -> name_bytes name -> skip_slashes path <> [] ->
  exists rest name', skipelem path name = Some (rest, name') /\ names path = dname name' :: names rest /\
    path_bytes rest /\ name_bytes name' /\ (length rest < length path)%nat /\ (names rest = [] <-> rest = []).
Proof.
  intros Hp Hnm Hne. assert (Forall (.≠ 0) path) as HF by (eapply Forall_impl; [exact Hp|]; cbn; lia).
  destruct (skipelem_some path name HF Hne) as (name' & E & Hn & Hs & Hr & Hl). set (s := (span_elem (skip_slashes path)).1) in *. set (rest := skip_slashes (span_elem _).2) in *.
  exists rest, name'. split; [done|]. pose proof (skip_slashes_bytes _ Hp) as Hp'. rewrite (span_elem_app (skip_slashes path)) in Hp'. fold s in Hp'.
  apply Forall_app in Hp' as [Hps Hpr]. split_and!.
  - unfold names, dname. rewrite Hn, <-(elements_skip path), (elements_span _ Hs). done.
  - by apply skip_slashes_bytes.
  - unfold skipelem in E. destruct (skip_slashes path) as [|a p] eqn:Ep; [done|]. destruct (span_elem (a :: p)) as [s' r']. cbn in s. subst s. injection E as <-.
    destruct (DIRSIZ <=? _); [apply wr_bytes_range; [done|by apply Forall_take]|]. intros k. rewrite fn_insert_spec.
    destruct (decide _); [lia|]. by apply wr_bytes_range.
  - done.
  - split; [|by intros ->]. intros E0. destruct rest as [|a p] eqn:Er; [done|]. exfalso.
    pose proof (skip_slashes_head _ _ _ Er) as Ha. pose proof (elements_span (a :: p) (span_elem_some a p Ha)) as Ee.
    unfold names in E0. by rewrite Ee in E0.
Qed.

(** ** One step of the walk *)

Section walk.
Context {c me dev : Z} {LY : Layout} {LO : LayoutOk} {DEV : BlockDev} {DOK : BlockDevOk c me}.
Context (S0 : Z) (n : nat) (Hn : (Z.to_nat NBUF < n)%nat) (Hdn : (dfuel < n)%nat) (Hfuel : MAXFILE + 1 < Z.of_nat n).
Context (sb0 : superblock) (start : Z) (Hly : layout_ok S0 sb0 start).
Context (D V : Z -> bytes) (L : list Z) (o : Z) (HL : Z.of_nat (length L) < LOGSIZE - 1).
Context (Htree : tree_ok sb0 V S0 start).
Context (Hdirs : forall inum, allocated_inode sb0 V inum -> i_type (node sb0 V inum) = T_DIR -> i_size (node sb0 V inum) / sizeof_dirent < Z.of_nat n).
Context (s0 : kernel) (Hsb : sb s0 = sb0) (Hpos : forall j, 0 <= j < NINODE -> 0 <= i_ref (inodes s0 j)) (Hroom : two_free (inodes s0)).

Abbreviation linv := (linv (c := c) (me := me) (dev := dev) S0).
Abbreviation node := (node sb0 V).
Abbreviation child := (child sb0 V).

(** The state of the walk: entry [lk] is locked, [hs] are the references held. *)
Record walking (lk : option Z) (hs : list Z) (s : kernel) : Prop := {
  wk_linv : linv D V L [] o s;
  wk_frame : fframe s0 s;
  wk_table : table_ok sb0 V dev lk (inodes s);
  wk_holding : refs_held (inodes s0) (inodes s) hs
}.

(** Entry [ip] is for inode [inum], which does not go away when the walk leaves it. *)
Record at_node (inum ip : Z) (s : kernel) : Prop := {
  an_live : live (inodes s) dev inum ip;
  an_alloc : allocated_inode sb0 V inum;
  an_stays : linked sb0 V inum \/ 2 <= i_ref (inodes s ip)
}.

(** The process has the lock of [ip], which is loaded. *)
Record locked_node (inum ip : Z) (s : kernel) : Prop := {
  lk_held : sl_locked (i_lock (inodes s ip)) <> 0;
  lk_mine : sl_pid (i_lock (inodes s ip)) = p_pid (procs s me);
  lk_same : same_dinode (inodes s ip) (node inum)
}.

Lemma walking_step lk hs lk' hs' s s' I' :
  walking lk hs s -> lframe (set_inodes I' s) s' -> linv D V L [] o s' -> table_ok sb0 V dev lk' I' -> refs_held (inodes s0) I' hs' ->
  walking lk' hs' s' /\ inodes s' = I'.
Proof.
  intros [] F Hl Ht Hh. pose proof (lframe_inodes _ _ F) as E. cbn in E. split; [|done]. split; rewrite ?E; try done.
  etrans; [exact wk_frame0|]. by exists I'.
Qed.

Lemma at_node_doomed inum ip s : at_node inum ip s -> table_ok sb0 V dev None (inodes s) -> ~ doomed (inodes s ip).
Proof.
  intros [(Hr & Hp & Hd & Hi) _ Hst] Ht (H1 & Hv & H0). destruct Hst as [[_ Hnl]|?]; [|lia]. apply Hnl.
  rewrite <-Hi, <-(sd_nlink _ _ (tb_loaded _ _ _ _ _ Ht ip Hr Hp Hv Hd)). done.
Qed.

Lemma wp_walk_lock inum ip s (Q : unit -> kernel -> Prop) :
  walking None [ip] s -> at_node inum ip s ->
  (forall s', walking (Some ip) [ip] s' -> at_node inum ip s' -> locked_node inum ip s' -> Q tt s') -> wp (ilock (Some ip)) n s Q.
Proof.
  intros W [(Hr & Hp & Hd & Hi) Ha Hst] HQ. pose proof W as [Hl Hf Ht Hh]. set (x := inodes s ip) in *.
  assert (same_dinode (locked_inode sb0 V (p_pid (procs s me)) x) (node inum)) as Hsame.
  { destruct (decide (i_valid x = 0)) as [Hv|Hv].
    - rewrite locked_loaded, Hi by done. by split.
    - unfold locked_inode. cbn. rewrite (proj2 (Z.eqb_neq _ _) Hv). pose proof (tb_loaded _ _ _ _ _ Ht ip Hr Hp Hv Hd) as Hs. fold x in Hs. rewrite Hi in Hs. destruct Hs. by split. }
  set (y := locked_inode sb0 V _ x) in *.
  assert (i_dev y = i_dev x /\ i_inum y = i_inum x /\ i_ref y = i_ref x /\ i_lock y = mkSleep 1 (sl_name (i_lock x)) (p_pid (procs s me))) as (Yd & Yi & Yr & Yl).
  { subst y. unfold locked_inode. by destruct (_ =? 0). }
  eapply (wp_ilock S0 n Hn Hdn sb0 D V L o); [exact Hl|by rewrite <-Hsb; apply fframe_sb|done| |done|fold x; lia|by apply (tb_lock _ _ _ _ _ Ht)| |].
  { fold x. rewrite Hi. by apply (tr_block _ _ _ _ Htree). }
  { fold x y. rewrite (sd_type _ _ Hsame). apply Ha. }
  fold x y. intros s' F' L'. destruct (walking_step None [ip] (Some ip) [ip] s s' (<[ip := y]> (inodes s))) as [W' E']; try done.
  - eapply table_put; try done; fold x; [lia|by rewrite Yi, Hi].
  - eapply refs_held_put; try done. fold x. lia.
  - assert (inodes s' ip = y) as Ey by by rewrite E', fn_lookup_insert.
    assert (p_pid (procs s' me) = p_pid (procs s me)) as Ep by (apply (woke_pid (procs s)); apply (lframe_procs _ _ F')).
    apply HQ; [done|split; rewrite ?Ey; try done|split; rewrite ?Ey, ?Yl, ?Ep; done].
    + split; [done|]. rewrite Ey, Yr, Yd, Yi. done.
    + by rewrite Yr.
Qed.

Lemma wp_walk_unlock inum ip hs s (Q : unit -> kernel -> Prop) :
  walking (Some ip) hs s -> live (inodes s) dev inum ip -> locked_node inum ip s ->
  (forall s' , walking None hs s' -> (exists y, inodes s' = <[ip := y]> (inodes s) /\ i_ref y = i_ref (inodes s ip) /\ live (inodes s') dev inum ip) -> Q tt s') ->
  wp (iunlock (Some ip)) n s Q.
Proof.
  intros W (Hr & Hp & Hd & Hi) [Hheld Hmine Hsame] HQ. pose proof W as [Hl Hf Ht Hh].
  eapply (wp_iunlock S0 n Hn Hdn); [exact Hl|done|done|lia|]. set (x := inodes s ip) in *. set (y := set_i_lock _ x).
  intros s' F' L'. destruct (walking_step (Some ip) hs None hs s s' (<[ip := y]> (inodes s))) as [W' E']; try done.
  - eapply table_put; try done; fold x; cbn; [lia| |congruence]. intros _ _. rewrite Hi. destruct Hsame. by split.
  - eapply refs_held_put; try done. cbn. fold x. lia.
  - apply HQ; [done|]. exists y. split; [done|]. split; [done|]. rewrite E'. split; [done|]. by rewrite fn_lookup_insert.
Qed.

Lemma wp_walk_put inum ip hs s (Q : unit -> kernel -> Prop) :
  walking None (ip :: hs) s -> at_node inum ip s ->
  (forall s', walking None hs s' -> inodes s' = <[ip := set_i_ref (i_ref (inodes s ip) - 1) (inodes s ip)]> (inodes s) -> Q tt s') ->
  wp (iput ip) n s Q.
Proof.
  intros W Ha HQ. pose proof Ha as [(Hr & Hp & Hd & Hi) _ _]. pose proof W as [Hl Hf Ht Hh].
  eapply (wp_iput_keep S0 n Hn Hdn); [exact Hl|by eapply at_node_doomed|]. set (x := inodes s ip) in *. set (y := set_i_ref _ x).
  intros s' F' L'. destruct (walking_step None (ip :: hs) None hs s s' (<[ip := y]> (inodes s))) as [W' E']; try done.
  - eapply table_put; try done; fold x; cbn; [lia| |by intros _; apply (tb_lock _ _ _ _ _ Ht)].
    intros _ Hv. pose proof (tb_loaded _ _ _ _ _ Ht ip Hr Hp Hv Hd) as []. by split.
  - eapply refs_held_put; try done; fold x.
    + rewrite count_cons, decide_True by done. cbn. lia.
    + intros j Hj. rewrite count_cons, decide_False by congruence. lia.
  - by apply HQ.
Qed.

Lemma wp_walk_leave inum ip hs s (Q : unit -> kernel -> Prop) :
  walking (Some ip) (ip :: hs) s -> at_node inum ip s -> locked_node inum ip s ->
  (forall s', walking None hs s' -> (forall j, i_dev (inodes s' j) = i_dev (inodes s j) /\ i_inum (inodes s' j) = i_inum (inodes s j)) -> Q tt s') ->
  wp (iunlockput ip) n s Q.
Proof.
  intros W [Hl Ha Hst] Hlk HQ. unfold iunlockput. apply wp_bind. eapply wp_walk_unlock; [exact W|done|done|]. intros s1 W1 (y & E1 & Er & Hl1).
  assert (inodes s1 ip = y) as Ey by by rewrite E1, fn_lookup_insert.
  eapply (wp_walk_put inum); [exact W1|split; [done|done|]|].
  { destruct Hst; [by left|right]. by rewrite Ey, Er. }
  intros s2 W2 E2. apply HQ; [done|]. intros j. rewrite E2, fn_insert_spec. destruct (decide (ip = j)) as [<-|Hne].
  - cbn. destruct Hl1 as (_ & _ & -> & ->). by destruct Hl as (_ & _ & -> & ->).
  - rewrite E1, fn_insert_ne by done. done.
Qed.

Lemma wp_walk_lookup inum ip name s (Q : option (Z * Z) -> kernel -> Prop) :
  walking (Some ip) [ip] s -> at_node inum ip s -> locked_node inum ip s -> i_type (node inum) = T_DIR -> (forall k, 0 <= name k < 256) ->
  (forall s', child inum (dname name) = None -> walking (Some ip) [ip] s' -> at_node inum ip s' -> locked_node inum ip s' -> Q None s') ->
  (forall next j off s', child inum (dname name) = Some j -> walking (Some ip) [ip; next] s' -> at_node inum ip s' -> locked_node inum ip s' ->
     live (inodes s') dev j next -> Q (Some (next, off)) s') ->
  wp (dirlookup ip name) n s Q.
Proof.
  intros W [Hlv Ha Hst] [Hheld Hmine Hsame] Hty Hname HQ0 HQ1. pose proof W as [Hl Hf Ht Hh]. pose proof Hlv as (Hr & Hp & Hd & Hi).
  destruct (tr_file _ _ _ _ Htree inum Ha Hty) as (Hfo & Hfi & Hdk). pose proof (dk_size _ _ Hdk) as Hsz.
  assert (dir_map V (inodes s ip) = dir_map V (node inum)) as Em by (apply same_dir_map; [done|lia]).
  assert (forall nm, child inum nm = dir_map V (inodes s ip) !! nm) as Ec by (intros nm; unfold FsPath.child; by rewrite decide_True, Em).
  assert (open_dir (c := c) (me := me) (dev := dev) S0 n sb0 start D V L o ip s) as Hop.
  { split; try done; [change NBUF with LOGSIZE; lia|by eapply same_file_ok|by eapply same_filled|by eapply same_dir_ok|].
    rewrite (sd_size _ _ Hsame). by apply Hdirs. }
  eapply (wp_dirlookup S0 n Hn Hdn Hfuel sb0 start Hly); [exact Hop|done|..].
  - intros m _. by eapply refs_held_room.
  - intros s' F' L' Hnone. pose proof (lframe_inodes _ _ F') as E'.
    assert (p_pid (procs s' me) = p_pid (procs s me)) as Ep by (apply (woke_pid (procs s)); apply (lframe_procs _ _ F')).
    apply HQ0; [by rewrite Ec| |by split; rewrite ?E'|by split; rewrite ?E', ?Ep].
    apply (walking_step (Some ip) [ip] (Some ip) [ip] s s' (inodes s)); try done.
  - intros i next I' s' Hir Hsome _ Hg F' L'. set (j := de_inum _) in *.
    assert (p_pid (procs s' me) = p_pid (procs s me)) as Ep by (apply (woke_pid (procs s)); apply (lframe_procs _ _ F')).
    pose proof (refs_held_got dev _ _ _ _ _ _ Hpos Hh Hg) as Hh'.
    destruct (walking_step (Some ip) [ip] (Some ip) [ip; next] s s' I') as [W' E']; try done.
    { by eapply table_got. }
    { destruct Hh' as [Hr' Hs']. split; [|done]. intros k Hk. rewrite Hr', !count_cons by done. lia. }
    assert (i_ref (inodes s ip) <= i_ref (I' ip) /\ i_dev (I' ip) = i_dev (inodes s ip) /\ i_inum (I' ip) = i_inum (inodes s ip) /\
      i_lock (I' ip) = i_lock (inodes s ip) /\ same_dinode (I' ip) (inodes s ip)) as (Ir & Id & Ii & Il & Is).
    { destruct Hg as [_ _|_ _ H0 _]; rewrite fn_insert_spec; (destruct (decide (next = ip)) as [->|]; [|split_and!; (done || lia)]).
      - split_and!; try done. cbn. lia.
      - lia. }
    eapply (HQ1 next j); [by rewrite Ec|done|split; rewrite ?E'|split; rewrite ?E', ?Il, ?Ep|]; try done.
    + split; [done|]. rewrite Id, Ii. split; [lia|done].
    + destruct Hst; [by left|right; lia].
    + by etrans.
    + rewrite E'. by eapply got_live.
Qed.

(** ** namex *)

(** The result of the walk: the entry of the inode the names lead to, with one
    reference, or nothing and no reference. *)
Definition outcome (parent : bool) (inum : Z) (nms : list (list Z)) (r : option Z * bytes) (s : kernel) : Prop :=
  match (if parent then resolve_parent sb0 V inum nms else (fun j => (j, dname r.2)) <$> resolve sb0 V inum nms) with
  | Some (j, nm) => exists ip, r.1 = Some ip /\ dname r.2 = nm /\ walking None [ip] s /\ at_node j ip s /\ name_bytes r.2
  | None => r.1 = None /\ walking None [] s
  end.

Lemma outcome_child parent inum nm nms j r s :
  child inum nm = Some j -> (parent = true -> nms <> []) -> outcome parent j nms r s -> outcome parent inum (nm :: nms) r s.
Proof.
  intros E Hne. unfold outcome. destruct parent; cbn.
  - destruct nms; [by destruct (Hne eq_refl)|]. by rewrite E.
  - by rewrite E.
Qed.

Lemma outcome_none parent inum nm nms name s :
  child inum nm = None -> (parent = true -> nms = [] -> i_type (node inum) <> T_DIR) -> walking None [] s -> outcome parent inum (nm :: nms) (None, name) s.
Proof.
  intros E Hp W. unfold outcome. destruct parent; cbn.
  - destruct nms; [by rewrite decide_False by auto|]. by rewrite E.
  - by rewrite E.
Qed.

(** The references after the step to the next directory. *)
Lemma at_node_next inum ip j next s s' :
  at_node inum ip s -> child inum j = Some next -> forall nx, live (inodes s) dev next nx -> walking None [nx] s' ->
  (forall k, i_dev (inodes s' k) = i_dev (inodes s k) /\ i_inum (inodes s' k) = i_inum (inodes s k)) -> at_node next nx s'.
Proof.
  intros [_ Ha _] Hc nx (Hr & _ & Hd & Hi) W Hk. pose proof (tr_entry _ _ _ _ Htree _ _ _ Ha Hc) as Hl. split; [|apply Hl|by left].
  destruct (Hk nx) as [E1 E2]. split; [done|]. rewrite E1, E2. split; [|done]. rewrite (hg_ref _ _ _ (wk_holding _ _ _ W)), count_cons, decide_True by done.
  specialize (Hpos nx Hr). change (count [] nx) with 0. lia.
Qed.

Lemma wp_namex_loop (parent : bool) inum ip path name s (Q : option Z * bytes -> kernel -> Prop) :
  walking None [ip] s -> at_node inum ip s -> path_bytes path -> name_bytes name -> (length path < n)%nat ->
  (forall r s', outcome parent inum (names path) r s' -> Q r s') ->
  wp (loop (fun '(ip, path, name) =>
    match skipelem path name with
    | None =>
        if (parent : bool) then iput ip;; mret (Done (None, name))
        else mret (Done (Some ip, name))
    | Some (path, name) =>
        ilock (Some ip);;
        type ← iget_ ip i_type;
        if negb (type =? T_DIR) then
          iunlockput ip;;
          mret (Done (None, name))
        else if parent && bool_decide (path = []) then
          iunlock (Some ip);;
          mret (Done (Some ip, name))
        else
        next ← dirlookup ip name;
        match next with
        | None => iunlockput ip;; mret (Done (None, name))
        | Some (next, _) =>
            iunlockput ip;;
            mret (Next (next, path, name))
        end
    end) (ip, path, name)) n s Q.
Proof.
  intros W Ha Hp Hnm Hlen HQ. set (i0 := inum) in HQ. set (p0 := path) in HQ.
  apply (wp_loop _ (fun k '(ip, path, name) s => k = length path /\ walking None [ip] s /\ path_bytes path /\ name_bytes name /\
    exists inum, at_node inum ip s /\ forall r s', outcome parent inum (names path) r s' -> outcome parent i0 (names p0) r s'))
    with (k := length path); [|done|by split_and!; eauto].
  clearbody i0 p0. clear inum ip path name s W Ha Hp Hnm Hlen.
  intros k [[ip path] name] s (-> & W & Hp & Hnm & inum & Ha & Hout).
  destruct (decide (skip_slashes path = [])) as [E|Hne].
  - assert (skipelem path name = None /\ names path = []) as [-> En].
    { unfold skipelem, names. by rewrite <-elements_skip, E. }
    rewrite En in Hout. destruct parent.
    + apply wp_bind. eapply wp_walk_put; [exact W|exact Ha|]. intros s' W' _. apply wp_ret, HQ, Hout. by split.
    + apply wp_ret, HQ, Hout. unfold outcome. cbn. exists ip. by split_and!.
  - destruct (skipelem_next path name Hp Hnm Hne) as (rest & name' & -> & En & Hp' & Hnm' & Hl & Hnil). rewrite En in Hout.
    apply wp_bind. eapply wp_walk_lock; [exact W|exact Ha|]. intros s1 W1 Ha1 Hk1. unfold iget_. apply wp_bind, wp_gets.
    rewrite (sd_type _ _ (lk_same _ _ _ Hk1)).
    destruct (Z.eqb_spec (i_type (node inum)) T_DIR) as [Ht|Ht]; cbn [negb].
    2: { apply wp_bind. eapply wp_walk_leave; [exact W1|exact Ha1|exact Hk1|]. intros s2 W2 _. apply wp_ret, HQ, Hout.
         apply outcome_none; [|done|done]. unfold FsPath.child. by rewrite decide_False. }
    destruct (parent && bool_decide (rest = [])) eqn:Eb.
    { apply andb_true_iff in Eb as [-> ->%bool_decide_eq_true]. apply wp_bind.
      eapply wp_walk_unlock; [exact W1|apply Ha1|exact Hk1|]. intros s2 W2 (y & E2 & Er2 & Hl2). apply wp_ret, HQ, Hout.
      unfold outcome. change (names []) with (@nil (list Z)). cbn [resolve_parent]. rewrite decide_True by done. exists ip. split_and!; try done. split; [done|apply Ha1|].
      destruct (an_stays _ _ _ Ha1); [by left|right]. rewrite E2, fn_lookup_insert. by rewrite Er2. }
    assert (parent = true -> names rest <> []) as Hmore.
    { intros -> Hr%Hnil. by rewrite bool_decide_eq_true_2 in Eb. }
    apply wp_bind. eapply wp_walk_lookup; [exact W1|exact Ha1|exact Hk1|done|done|..].
    + intros s2 Hc W2 Ha2 Hk2. apply wp_bind. eapply wp_walk_leave; [exact W2|exact Ha2|exact Hk2|]. intros s3 W3 _. apply wp_ret, HQ, Hout.
      apply outcome_none; [done| |done]. intros Hpar Hr. by destruct (Hmore Hpar).
    + intros next j off s2 Hc W2 Ha2 Hk2 Hl2. apply wp_bind. eapply wp_walk_leave; [exact W2|exact Ha2|exact Hk2|]. intros s3 W3 Hsame. apply wp_ret.
      exists (length rest). split; [done|]. split_and!; try done. exists j. split; [by eapply (at_node_next inum ip)|].
      intros r s' Ho. apply Hout. by eapply outcome_child.
Qed.

Lemma wp_idup hs ip inum s (Q : Z -> kernel -> Prop) :
  walking None hs s -> live (inodes s) dev inum ip ->
  (forall s', walking None (ip :: hs) s' -> inodes s' = <[ip := set_i_ref (i_ref (inodes s ip) + 1) (inodes s ip)]> (inodes s) -> Q ip s') ->
  wp (idup ip) n s Q.
Proof.
  intros W (Hr & Hp & Hd & Hi) HQ. pose proof W as [Hl Hf Ht Hh]. unfold idup, iset.
  apply wp_bind. eapply wp_lock; [lia|apply (linv_runs _ _ _ _ _ _ _ Hl)|apply not_elem_of_nil|]. intros h1 H1.
  apply wp_bind, wp_modify. rewrite upd_put_inode. change (inodes (hk h1 s) ip) with (inodes s ip). set (x := inodes s ip) in *. set (y := set_i_ref _ x) in *.
  apply wp_bind. eapply wp_unlock; [exact H1|]. intros h2 H2. change (hk h2 (put_inode ip y (hk h1 s))) with (hk h2 (put_inode ip y s)).
  apply wp_ret. destruct (walking_step None hs None (ip :: hs) s (hk h2 (put_inode ip y s)) (<[ip := y]> (inodes s))) as [W' E']; try done.
  - apply lframe_hart.
  - apply linv_hk; [done|]. by apply linv_inodes.
  - eapply table_put; try done; fold x; cbn; [lia| |by intros _; apply (tb_lock _ _ _ _ _ Ht)].
    intros _ Hv. pose proof (tb_loaded _ _ _ _ _ Ht ip Hr Hp Hv Hd) as []. by split.
  - eapply refs_held_put; try done; fold x.
    + rewrite count_cons, decide_True by done. cbn. lia.
    + intros j Hj. rewrite count_cons, decide_False by congruence. lia.
  - by apply HQ.
Qed.

Lemma wp_namex (parent : bool) path name cwd cinum (Q : option Z * bytes -> kernel -> Prop) :
  walking None [] s0 -> dev = ROOTDEV -> linked sb0 V ROOTINO ->
  (head path <> Some slash -> p_cwd (procs s0 me) = Some cwd /\ live (inodes s0) dev cinum cwd /\ allocated_inode sb0 V cinum) ->
  path_bytes path -> name_bytes name -> (length path < n)%nat ->
  (forall r s', outcome parent (if decide (head path = Some slash) then ROOTINO else cinum) (names path) r s' -> Q r s') ->
  wp (namex path parent name) n s0 Q.
Proof.
  intros W Hdev Hroot Hcwd Hp Hnm Hlen HQ. unfold namex. apply wp_bind. pose proof W as [Hl Hf Ht Hh].
  pose proof (linv_runs _ _ _ _ _ _ _ Hl) as [Hhart Hme _ _].
  destruct (decide (head path = Some slash)) as [Eh|Eh]; [rewrite bool_decide_eq_true_2 by done|rewrite bool_decide_eq_false_2 by done].
  - rewrite <-Hdev. eapply (wp_iget (c := c)); [lia|exact Hhart|eapply (refs_held_room dev _ _ []); [exact Hroom|exact Hh|cbn; lia]|].
    intros ip I' h Hg Hh'. destruct (walking_step None [] None [ip] s0 (hk h (set_inodes I' s0)) I') as [W' E']; try done.
    { apply lframe_hart. } { apply linv_hk; [done|]. by apply linv_inodes. } { by eapply table_got. } { by eapply refs_held_got. }
    eapply (wp_namex_loop parent ROOTINO); [exact W'| |done|done|done|exact HQ]. split; [rewrite E'; by eapply got_live|apply Hroot|by left].
  - destruct (Hcwd Eh) as (Ec & Hlv & Ha). apply wp_bind. eapply wp_myproc; [exact Hhart|]. intros h1 H1. rewrite Hme.
    unfold deref, pget. apply wp_bind, wp_ret, wp_bind, wp_gets. change (procs (hk h1 s0) me) with (procs s0 me). rewrite Ec. apply wp_bind, wp_ret.
    assert (walking None [] (hk h1 s0)) as W1.
    { split; [by apply linv_hk|apply lframe_fframe, lframe_hart|done|done]. }
    eapply (wp_idup []); [exact W1|exact Hlv|]. change (inodes (hk h1 s0)) with (inodes s0). intros s1 W2 E2.
    eapply (wp_namex_loop parent cinum); [exact W2| |done|done|done|exact HQ].
    destruct Hlv as (Hr & Hpos' & Hd & Hi). split; [|done|right].
    + rewrite E2. split; [done|]. rewrite fn_lookup_insert. cbn. split; [lia|done].
    + rewrite E2, fn_lookup_insert. cbn. lia.
Qed.

End walk.

(** C12: [namex] finds what a path names: from the root directory, or from the
    current directory when the path does not start with a slash, it returns the
    entry of the inode that the elements of the path lead to, one directory
    after the other, and null when an element is missing or a file stands where
    a directory should be. With [nameiparent] it returns the directory of the
    last element, and that element in the name buffer. It counts one reference to
    the entry it returns, and gives back all others it took on the way; it
    changes nothing on the disk and leaves no inode locked. *)
Theorem namex_resolves {c me dev : Z} {LY : Layout} {LO : LayoutOk} {DEV : BlockDev} {DOK : BlockDevOk c me}
    S0 n sb0 start D V L o s (parent : bool) path name cwd cinum :
  (Z.to_nat NBUF < n)%nat -> (dfuel < n)%nat -> MAXFILE + 1 < Z.of_nat n -> layout_ok S0 sb0 start -> Z.of_nat (length L) < LOGSIZE - 1 ->
  linv (c := c) (me := me) (dev := dev) S0 D V L [] o s -> sb s = sb0 -> dev = ROOTDEV ->
  tree_ok sb0 V S0 start -> linked sb0 V ROOTINO ->
  (forall inum, allocated_inode sb0 V inum -> i_type (node sb0 V inum) = T_DIR -> i_size (node sb0 V inum) / sizeof_dirent < Z.of_nat n) ->
  table_ok sb0 V dev None (inodes s) -> two_free (inodes s) ->
  (head path <> Some slash -> p_cwd (procs s me) = Some cwd /\ live (inodes s) dev cinum cwd /\ allocated_inode sb0 V cinum) ->
  path_bytes path -> name_bytes name -> (length path < n)%nat ->
  let from := if decide (head path = Some slash) then ROOTINO else cinum in
  exists r s', namex path parent name n s = Ret r s' /\
    linv (c := c) (me := me) (dev := dev) S0 D V L [] o s' /\ fframe s s' /\ table_ok sb0 V dev None (inodes s') /\
    match (if parent then resolve_parent sb0 V from (names path) else (fun j => (j, dname r.2)) <$> resolve sb0 V from (names path)) with
    | Some (j, nm) => exists ip, r.1 = Some ip /\ dname r.2 = nm /\ live (inodes s') dev j ip /\ refs_held (inodes s) (inodes s') [ip]
    | None => r.1 = None /\ refs_held (inodes s) (inodes s') []
    end.
Proof.
  intros Hn Hdn Hf Hly HL Hl Hsb Hdev Htree Hroot Hdirs Ht Hroom Hcwd Hp Hnm Hlen from.
  assert (wp (namex path parent name) n s (fun r s' => outcome (c := c) (me := me) (dev := dev) S0 sb0 D V L o s parent from (names path) r s')) as (r & s' & E & HQ)%wp_elim.
  { eapply (wp_namex S0 n Hn Hdn Hf sb0 start Hly D V L o HL Htree Hdirs s Hsb (proj1 (tb_table _ _ _ _ _ Ht)) Hroom parent path name cwd cinum); try done.
    split; [done|reflexivity|done|apply refs_held_refl]. }
  exists r, s'. split; [done|]. unfold outcome in HQ.
  destruct (if parent then _ else _) as [[j nm]|].
  - destruct HQ as (ip & Er & En & [] & [Hlv _ _] & _). split_and!; try done. by exists ip.
  - destruct HQ as (Er & []). by split_and!.
Qed.
