(* ===== verification/FsCreate.v ===== *)
(** * Making files

    [ialloc] of [src/kernel/fs.c] and [create] of [src/kernel/sysfile.c]: a free
    inode gets a type, and a directory a name for it. *)

From stdpp Require Import gmap.
From S2P Require Import Prelude Riscv Spinlock Str Kalloc Kernel Proc Sleeplock Bio Log Fs Uart Printf File ProcLife Exec Syscall Sysfile KernelWp Ring BioProof LogProof LogOps FsBlocks FsInode FsFile FsWrite FsRead FsDir FsUser FileProof FsFree Paths FsPath.

(** ** Inodes on the disk *)

Section inodes.
Context (sb0 : superblock).

(** The inode blocks are not beyond the end of the disk's numbering. *)
Definition inodes_fit : Prop := 0 <= sb_inodestart sb0 /\ sb_inodestart sb0 + sb_ninodes sb0 / IPB < 2 ^ 32.

(** The block of inode [inum] changes, in the place of this inode only. *)
Definition only_inode (V V' : Z -> bytes) (inum : Z) : Prop :=
  (forall b, b <> iblock sb0 inum -> V' b = V b) /\
  forall y, y < dinode_off inum \/ dinode_off inum + sizeof_dinode <= y -> V' (iblock sb0 inum) y = V (iblock sb0 inum) y.

Lemma iblock_inj i j : inodes_fit -> 0 <= i < sb_ninodes sb0 -> 0 <= j < sb_ninodes sb0 -> iblock sb0 i = iblock sb0 j -> i <> j -> i mod IPB <> j mod IPB.
Proof.
  unfold inodes_fit, iblock, IBLOCK. change IPB with 16. intros Hf Hi Hj. rewrite !u32_small by (Z.div_mod_to_equations; lia).
  intros E Hne E2. apply Hne. Z.div_mod_to_equations. lia.
Qed.

Lemma node_same V V' j : (forall y, dinode_off j <= y < dinode_off j + sizeof_dinode -> V' (iblock sb0 j) y = V (iblock sb0 j) y) -> same_dinode (node sb0 V' j) (node sb0 V j).
Proof. intros He. apply on_disk_get. eapply on_disk_ext; [exact He|]. by split. Qed.

Lemma only_inode_other V V' i j :
  inodes_fit -> 0 <= i < sb_ninodes sb0 -> 0 <= j < sb_ninodes sb0 -> only_inode V V' i -> j <> i -> same_dinode (node sb0 V' j) (node sb0 V j).
Proof.
  intros Hf Hi Hj [Hb Ho] Hne. apply node_same. intros y Hy. destruct (decide (iblock sb0 j = iblock sb0 i)) as [E|E]; [|by rewrite Hb].
  rewrite E. apply Ho. pose proof (dinode_offs_ne _ _ (iblock_inj j i Hf Hj Hi E Hne)). lia.
Qed.

(** The bytes of an inode that [ialloc] has just taken. *)
Definition typed_dinode (o type : Z) (d : bytes) : bytes := Str.st 2 (memset d o 0 sizeof_dinode) o type.

Lemma typed_dinode_out o type d y : y < o \/ o + sizeof_dinode <= y -> typed_dinode o type d y = d y.
Proof.
  intros Hy. unfold typed_dinode. rewrite st_out by (unfold sizeof_dinode in *; cbn; lia). rewrite memset_spec by done. by rewrite decide_False by lia.
Qed.

(** An inode without contents. *)
Definition blank (inum type : Z) : inode := mkInode 0 inum 0 (mkSleep 0 "" 0) 0 type 0 0 0 0 (fun _ => 0).

Lemma typed_dinode_on_disk o type d inum : - 2 ^ 15 <= type < 2 ^ 15 -> on_disk (typed_dinode o type d) o (blank inum type).
Proof.
  intros Ht. assert (forall a k, o + 2 <= a -> a + Z.of_nat k <= o + sizeof_dinode -> ld k (typed_dinode o type d) a = 0) as Hz.
  { intros a k H1 H2. unfold typed_dinode. rewrite ld_st_sep by (cbn; lia). apply ld_zero. intros x Hx.
    rewrite memset_spec by done. rewrite decide_True by lia. done. }
  split; unfold di_type, di_major, di_minor, di_nlink, di_size, di_addr.
  - unfold typed_dinode. rewrite ld_st. by apply s16_u16.
  - rewrite Hz by (unfold sizeof_dinode; cbn; lia). done.
  - rewrite Hz by (unfold sizeof_dinode; cbn; lia). done.
  - rewrite Hz by (unfold sizeof_dinode; cbn; lia). done.
  - rewrite Hz by (unfold sizeof_dinode; cbn; lia). done.
  - intros i Hi. rewrite Hz by (unfold sizeof_dinode, NDIRECT in *; cbn; lia). done.
Qed.

End inodes.

(** ** A change of an inode block leaves files as they are *)

Section meta.
Context (S0 : Z) (sb0 : superblock) (start : Z) (Hly : layout_ok S0 sb0 start).
Context (V V' : Z -> bytes) (blk : Z) (Hblk : inode_block S0 sb0 start blk) (Hsame : forall b, b <> blk -> V' b = V b).

Lemma meta_in_use b : 0 <= b < sb_size sb0 -> in_use sb0 V' b = in_use sb0 V b.
Proof. intros Hb. unfold in_use. rewrite Hsame; [done|]. intros E. by apply (ib_bits _ _ _ _ Hblk b). Qed.

Lemma meta_used b : used sb0 start V' b <-> used sb0 start V b.
Proof. split; intros [Ha Hu]; split; try done; apply (area_range S0 sb0 start Hly) in Ha; [rewrite <-meta_in_use|rewrite meta_in_use]; (done || lia). Qed.

Lemma meta_block b : used sb0 start V b -> V' b = V b.
Proof. intros [Ha _]. apply Hsame. intros ->. by apply (ib_area _ _ _ _ Hblk). Qed.

Lemma meta_iaddr x bn : file_ok sb0 start V x -> iaddr V' x bn = iaddr V x bn.
Proof. intros Hx. apply iaddr_ext. intros Hne. apply meta_block. by destruct (fk_ind _ _ _ _ Hx). Qed.

Lemma meta_file_ok x : file_ok sb0 start V x -> file_ok sb0 start V' x.
Proof.
  intros Hx. pose proof Hx as [A1 A2 A3 A4]. split.
  - destruct A1; [by left|right]. by apply meta_used.
  - intros bn Hb. rewrite meta_iaddr by done. destruct (A2 bn Hb); [by left|right]. by apply meta_used.
  - intros b1 b2 H1 H2. rewrite !meta_iaddr by done. by apply A3.
  - intros bn Hb. rewrite meta_iaddr by done. by apply A4.
Qed.

Lemma meta_filled x : file_ok sb0 start V x -> filled V x -> filled V' x.
Proof. intros Hx Hf bn H1 H2. rewrite meta_iaddr by done. by apply Hf. Qed.

Lemma meta_fbyte x i : file_ok sb0 start V x -> filled V x -> 0 <= i < i_size x -> i_size x <= MAXFILE * BSIZE -> fbyte V' x i = fbyte V x i.
Proof.
  intros Hx Hf Hi Hm. unfold fbyte. rewrite meta_iaddr by done. change BSIZE with 1024 in *.
  assert (0 <= i / 1024 < MAXFILE) as Hb by (Z.div_mod_to_equations; lia).
  destruct (fk_addr _ _ _ _ Hx (i / 1024) Hb) as [E|E]; [|by rewrite meta_block].
  exfalso. apply (Hf (i / 1024)); [lia| |done]. change BSIZE with 1024. Z.div_mod_to_equations. lia.
Qed.

Lemma meta_dir x : file_ok sb0 start V x -> filled V x -> dir_ok V x -> dir_ok V' x /\ dir_map V' x = dir_map V x.
Proof.
  intros Hx Hf [B1 B2 B3 B4]. split.
  - split; try done. intros i Hi. rewrite meta_fbyte by (done || lia). by apply B4.
  - unfold dir_map. f_equal. apply dir_from_ext. intros j Hj. unfold dent, fbytes. apply list_fmap_ext. intros k b [-> Hk]%lookup_seqZ.
    apply meta_fbyte; try done; unfold sizeof_dirent in *; [Z.div_mod_to_equations; lia|lia].
Qed.

Lemma meta_reserved : reserved sb0 start V -> reserved sb0 start V'.
Proof. intros Hr b H1 H2. rewrite meta_in_use by lia. by apply Hr. Qed.

Lemma meta_ndebt x : ndebt sb0 V' x = ndebt sb0 V x.
Proof.
  unfold ndebt, nfree. do 3 f_equal. apply filter_ext_in. intros b Hb%elem_of_seqZ. by rewrite meta_in_use by lia.
Qed.

End meta.

(** ** ialloc *)

Section ialloc.
Context {c me dev : Z} {LY : Layout} {DEV : BlockDev} {DOK : BlockDevOk c me}.
Context (S0 : Z) (Hdev : 0 <= dev < 2 ^ 31) (HS0 : 0 <= S0 /\ S0 + LOGSIZE < 2 ^ 31).
Context (n : nat) (Hn : (Z.to_nat NBUF < n)%nat) (Hdn : (dfuel < n)%nat).
Context (sb0 : superblock).

Abbreviation linv := (linv (c := c) (me := me) (dev := dev) S0).

(** The first inode that is not in use. *)
Definition first_inode (V : Z -> bytes) (inum : Z) : Prop :=
  0 < inum < sb_ninodes sb0 /\ i_type (node sb0 V inum) = 0 /\ forall j, 0 < j < inum -> i_type (node sb0 V j) <> 0.

Lemma wp_ialloc D V L o s type (Q : Z -> kernel -> Prop) :
  linv D V L [] o s -> sb s = sb0 -> 1 <= o -> Z.of_nat (length L) < LOGSIZE - 1 -> sb_ninodes sb0 < Z.of_nat n ->
  (forall i, 0 < i < sb_ninodes sb0 -> isdata S0 (iblock sb0 i)) -> (exists i, 0 < i < sb_ninodes sb0 /\ i_type (node sb0 V i) = 0) ->
  (exists j, 0 <= j < NINODE /\ i_ref (inodes s j) = 0) ->
  (forall inum ip I' s', first_inode V inum -> got (inodes s) dev inum ip I' -> lframe (set_inodes I' s) s' ->
     linv D (<[iblock sb0 inum := typed_dinode (dinode_off inum) type (V (iblock sb0 inum))]> V) (addL L (iblock sb0 inum)) [] o s' -> Q ip s') ->
  wp (ialloc dev type) n s Q.
Proof.
  intros Hl Hsb Ho HL Hfuel Hib (i0 & Hi0 & Hfree) Hroom HQ. unfold ialloc.
  assert (Z.of_nat (length L + length (@nil Z)) < NBUF) as Hbuf by (unfold NBUF, LOGSIZE, MAXOPBLOCKS in *; cbn; lia).
  apply (wp_loop _ (fun k i s1 => k = Z.to_nat (i0 - i) /\ 0 < i <= i0 /\ (forall j, 0 < j < i -> i_type (node sb0 V j) <> 0) /\ lframe s s1 /\ linv D V L [] o s1))
    with (k := Z.to_nat (i0 - 1)); [|lia|split_and!; try done; lia].
  intros k i s1 (-> & Hi & Hno & F1 & L1). apply wp_bind, wp_gets. rewrite (lframe_sb _ _ F1), Hsb. rewrite (proj2 (Z.ltb_lt _ _)) by lia. cbn [negb].
  fold (iblock sb0 i). assert (isdata S0 (iblock sb0 i)) as Hd by (apply Hib; lia).
  apply wp_bind. eapply (wp_get S0 n Hn Hdn); [exact L1|exact Hd|intros (b & Hb & _); by apply not_elem_of_nil in Hb|exact Hbuf|].
  intros bp s2 F2 L2 Hbp Hbn Hda _ Hcl. unfold bget_. apply wp_bind, wp_gets. rewrite Hda.
  change (di_type (V (iblock sb0 i)) (dinode_off i)) with (i_type (node sb0 V i)).
  destruct (Z.eqb_spec (i_type (node sb0 V i)) 0) as [E|E].
  - unfold bset. do 2 apply wp_bind, wp_modify. rewrite upd_buf_twice.
    match goal with |- wp ?m _ (upd_buf bp ?f s2) _ =>
      change (wp (bset bp (fun x => set_b_data (typed_dinode (dinode_off i) type (b_data x)) x);; m) n s2 (fun r s' => match r with Next i' => exists k', (k' < Z.to_nat (i0 - i))%nat /\ (k' = Z.to_nat (i0 - i') /\ 0 < i' <= i0 /\ (forall j, 0 < j < i' -> i_type (node sb0 V j) <> 0) /\ lframe s s' /\ linv D V L [] o s') | Done a => Q a s' end)) end.
    apply wp_seq3. eapply (wp_change S0 Hdev HS0 n Hn Hdn _ _ _ _ _ _ bp (typed_dinode (dinode_off i) type) (iblock sb0 i) _ L2); [done|exact Hbn|done|done|done|done|].
    intros s3 F3 L3 _. assert (lframe s s3) as F03 by (etrans; [exact F1|]; by etrans). pose proof (linv_runs _ _ _ _ _ _ _ L3) as [Hh3 _ _ _].
    apply wp_bind. eapply (wp_iget (c := c)); [lia|exact Hh3| |].
    { rewrite (lframe_inodes _ _ F03). destruct Hroom as (j & Hj & Ej). exists j. split; [done|by left]. }
    rewrite (lframe_inodes _ _ F03). intros ip I' h Hg Hh. apply wp_ret. apply (HQ i ip I').
    + split; [lia|]. split; [done|exact Hno].
    + exact Hg.
    + etrans; [|apply lframe_hart]. by apply lframe_set_inodes.
    + apply linv_hk; [done|]. by apply linv_inodes.
  - apply wp_bind. eapply (wp_put S0 n Hn Hdn); [exact L2|by rewrite Hbn|]. intros s3 F3 L3 _. apply wp_ret.
    assert (i <> i0) as Hne by by intros ->.
    exists (Z.to_nat (i0 - (i + 1))). split; [lia|]. split_and!; try done; try lia.
    + intros j Hj. destruct (decide (j = i)) as [->|]; [done|]. apply Hno. lia.
    + etrans; [exact F1|]. by etrans.
Qed.

(** The entry [y] for a new inode of the disk [V'], made from the table [I] and
    the disk [V]. *)
Record new_inode (I : Z -> inode) (V : Z -> bytes) (inum ip type major minor pid : Z) (y : inode) (V' : Z -> bytes) : Prop := {
  ni_first : first_inode V inum;
  ni_entry : 0 <= ip < NINODE /\ i_ref (I ip) = 0 /\ forall j, ~ live I dev inum j;
  ni_only : only_inode sb0 V V' inum;
  ni_disk : on_disk (V' (iblock sb0 inum)) (dinode_off inum) y;
  ni_same : same_dinode y (set_i_nlink 1 (set_i_minor minor (set_i_major major (blank inum type))));
  ni_keys : i_dev y = dev /\ i_inum y = inum /\ i_ref y = 1;
  ni_lock : sl_locked (i_lock y) = 1 /\ sl_pid (i_lock y) = pid
}.

(** [ialloc] and the lock of the new inode. *)
Lemma wp_ialloc_lock {A} D V L o s type (k : Z -> K A) (Q : A -> kernel -> Prop) :
  linv D V L [] o s -> sb s = sb0 -> 1 <= o -> Z.of_nat (length L) + 1 < LOGSIZE - 1 -> sb_ninodes sb0 < Z.of_nat n ->
  (forall i, 0 < i < sb_ninodes sb0 -> isdata S0 (iblock sb0 i)) -> (exists i, 0 < i < sb_ninodes sb0 /\ i_type (node sb0 V i) = 0) ->
  (exists j, 0 <= j < NINODE /\ i_ref (inodes s j) = 0) ->
  (forall inum j, live (inodes s) dev inum j -> i_type (node sb0 V inum) <> 0) ->
  (forall j, 0 <= j < NINODE -> i_ref (inodes s j) = 0 -> sl_locked (i_lock (inodes s j)) = 0) ->
  type <> 0 -> - 2 ^ 15 <= type < 2 ^ 15 ->
  (forall inum ip y V' s', first_inode V inum -> 0 <= ip < NINODE /\ i_ref (inodes s ip) = 0 /\ (forall j, ~ live (inodes s) dev inum j) ->
     only_inode sb0 V V' inum -> same_dinode y (blank inum type) -> i_dev y = dev /\ i_inum y = inum /\ i_ref y = 1 ->
     sl_locked (i_lock y) = 1 /\ sl_pid (i_lock y) = p_pid (procs s me) ->
     lframe (put_inode ip y s) s' -> linv D V' (addL L (iblock sb0 inum)) [] o s' -> wp (k ip) n s' Q) ->
  wp (ip ← ialloc dev type; ilock (Some ip);; k ip) n s Q.
Proof.
  intros Hl Hsb Ho HL Hfuel Hib Hfree Hroom Hlive Hlocks Ht0 Ht HQ. apply wp_bind. eapply wp_ialloc; [exact Hl|done|done|lia|done|done|done|done|].
  intros inum ip I' s1 Hfi Hg F1 L1. pose proof Hfi as (Hr & Hty & _). pose proof (addL_length L (iblock sb0 inum)) as HaL.
  remember (<[iblock sb0 inum := _]> V) as V1 eqn:EV.
  assert (on_disk (V1 (iblock sb0 inum)) (dinode_off inum) (blank inum type)) as Hd1 by (rewrite EV, fn_lookup_insert; by apply typed_dinode_on_disk).
  destruct Hg as [Hlv _|Hno Hip Hip0 _]; [by destruct (Hlive _ _ Hlv)|]. remember (fresh dev inum (inodes s ip)) as x1 eqn:Ex.
  pose proof (lframe_inodes _ _ F1) as E1. assert (inodes s1 ip = x1) as Ex1 by (rewrite E1; apply fn_lookup_insert).
  assert (p_pid (procs s1 me) = p_pid (procs s me)) as Ep by (apply (woke_pid (procs s)); apply (lframe_procs _ _ F1)).
  pose proof (locked_loaded sb0 V1 (p_pid (procs s me)) x1 ltac:(by rewrite Ex)) as Ey. remember (locked_inode sb0 V1 (p_pid (procs s me)) x1) as y eqn:Ey0.
  assert (i_inum x1 = inum /\ i_dev x1 = dev /\ i_ref x1 = 1 /\ i_lock x1 = i_lock (inodes s ip)) as (X1 & X2 & X3 & X4) by by rewrite Ex.
  rewrite X1 in Ey. assert (same_dinode y (blank inum type)) as Hs1 by (rewrite Ey; destruct Hd1; by split).
  apply wp_bind. eapply (wp_ilock S0 n Hn Hdn sb0 D V1 (addL L (iblock sb0 inum)) o); rewrite ?Ex1, ?Ep, ?X1, ?X3, ?X4, <-?Ey0; [exact L1| |done|by apply Hib|lia|lia|by apply Hlocks| |].
  { etrans; [exact (lframe_sb _ _ F1)|exact Hsb]. }
  { by rewrite (sd_type _ _ Hs1). }
  intros s2 F2 L2. apply (HQ inum ip y V1 s2); [exact Hfi|exact (conj Hip (conj Hip0 Hno))| |exact Hs1|by rewrite Ey|by rewrite Ey| |exact L2].
  - split; [intros b Hb; rewrite EV; by rewrite fn_insert_ne by congruence|]. intros z Hz. rewrite EV, fn_lookup_insert. by apply typed_dinode_out.
  - etrans; [|exact F2]. apply (lframe_put_inode ip y) in F1. etrans; [|exact F1]. unfold put_inode. cbn. by rewrite fn_insert_insert.
Qed.

Lemma wp_new_inode {A} D V L o s type major minor (k : Z -> K A) (Q : A -> kernel -> Prop) :
  linv D V L [] o s -> sb s = sb0 -> 1 <= o -> Z.of_nat (length L) + 1 < LOGSIZE - 1 -> sb_ninodes sb0 < Z.of_nat n ->
  (forall i, 0 < i < sb_ninodes sb0 -> isdata S0 (iblock sb0 i)) -> (exists i, 0 < i < sb_ninodes sb0 /\ i_type (node sb0 V i) = 0) ->
  (exists j, 0 <= j < NINODE /\ i_ref (inodes s j) = 0) ->
  (forall inum j, live (inodes s) dev inum j -> i_type (node sb0 V inum) <> 0) ->
  (forall j, 0 <= j < NINODE -> i_ref (inodes s j) = 0 -> sl_locked (i_lock (inodes s j)) = 0) ->
  type <> 0 -> - 2 ^ 15 <= type < 2 ^ 15 -> - 2 ^ 15 <= major < 2 ^ 15 -> - 2 ^ 15 <= minor < 2 ^ 15 ->
  (forall inum ip y V' s', new_inode (inodes s) V inum ip type major minor (p_pid (procs s me)) y V' ->
     lframe (put_inode ip y s) s' -> linv D V' (addL L (iblock sb0 inum)) [] o s' -> wp (k ip) n s' Q) ->
  wp (ip ← ialloc dev type; ilock (Some ip);; iset ip (set_i_major major);; iset ip (set_i_minor minor);; iset ip (set_i_nlink 1);; iupdate ip;; k ip) n s Q.
Proof.
  intros Hl Hsb Ho HL Hfuel Hib Hfree Hroom Hlive Hlocks Ht0 Ht Hma Hmi HQ. eapply wp_ialloc_lock; [exact Hl|done..|].
  intros inum ip y1 V1 s1 Hfi Hent [Ho1 Ho2] Hs1 Hk1 Hk2 F1 L1. pose proof Hfi as (Hr & _ & _). pose proof (addL_length L (iblock sb0 inum)) as HaL.
  unfold iset. do 3 apply wp_bind, wp_modify. rewrite !upd_put_inode, !put_inode_twice, !put_inode_at.
  assert (inodes s1 ip = y1) as Ex1 by (rewrite (lframe_inodes _ _ F1); apply put_inode_at). rewrite Ex1.
  remember (set_i_nlink 1 (set_i_minor minor (set_i_major major y1))) as y eqn:Ey.
  assert (same_dinode y (set_i_nlink 1 (set_i_minor minor (set_i_major major (blank inum type))))) as Hs by (rewrite Ey; destruct Hs1; by split).
  assert (i_dev y = dev /\ i_inum y = inum /\ i_ref y = 1) as (Y1 & Y2 & Y3) by by rewrite Ey.
  assert (inode_typed y) as Hty by (destruct Hs as [S1 S2 S3 S4 S5 S6]; split; rewrite ?S1, ?S2, ?S3, ?S4, ?S5; try done; intros i Hi; by rewrite S6).
  assert (inodes (put_inode ip y s1) ip = y) as Ex2 by apply put_inode_at.
  apply wp_bind. eapply (wp_iupdate S0 Hdev HS0 n Hn Hdn sb0 D V1 (addL L (iblock sb0 inum)) o _ ip); rewrite ?Ex2, ?Y2;
    [by apply linv_inodes| |done|by apply Hib|done|lia|].
  { etrans; [exact (lframe_sb _ _ F1)|exact Hsb]. }
  intros s2 F2 L2. rewrite addL_in in L2 by (apply addL_elem; by right).
  apply (HQ inum ip y (disk_put sb0 V1 y)); [|etrans; [by eapply lframe_put_after|exact F2]|exact L2].
  unfold disk_put. rewrite Y2. split; try done; [split| |by rewrite Ey].
  - intros b Hb. by rewrite fn_insert_ne by congruence; apply Ho1.
  - intros z Hz. rewrite fn_lookup_insert, dinode_put_out by done. by apply Ho2.
  - rewrite fn_lookup_insert. by apply dinode_put_on_disk.
Qed.

End ialloc.

(** ** create *)

Section create.
Context {c me dev : Z} {LY : Layout} {LO : LayoutOk} {DEV : BlockDev} {DOK : BlockDevOk c me}.
Context (S0 : Z) (Hdev : 0 <= dev < 2 ^ 31) (HS0 : 0 <= S0 /\ S0 + LOGSIZE < 2 ^ 31).
Context (n : nat) (Hn : (Z.to_nat NBUF < n)%nat) (Hdn : (dfuel < n)%nat) (Hfuel : MAXFILE + 1 < Z.of_nat n).
Context (sb0 : superblock) (start : Z) (Hly : layout_ok S0 sb0 start) (Hf2 : sb_size sb0 < Z.of_nat n).
Context (D V : Z -> bytes) (L : list Z) (o : Z) (Ho : 1 <= o) (HL : Z.of_nat (length L) + 8 <= LOGSIZE).

Abbreviation linv := (linv (c := c) (me := me) (dev := dev) S0).
Abbreviation walking := (walking (c := c) (me := me) (dev := dev) S0 sb0 D V L o).

(** The disk and the table of inodes have room for one more file. *)
Record can_create (s0 : kernel) : Prop := {
  cc_sb : sb s0 = sb0;
  cc_tree : tree_ok sb0 V S0 start;
  cc_fuel : forall inum, allocated_inode sb0 V inum -> i_type (node sb0 V inum) = T_DIR -> i_size (node sb0 V inum) / sizeof_dirent < Z.of_nat n;
  cc_table : table_ok sb0 V dev None (inodes s0);
  cc_room : two_free (inodes s0);
  cc_refs : forall j inum, live (inodes s0) dev inum j -> allocated_inode sb0 V inum;
  cc_fit : inodes_fit sb0;
  cc_count : sb_ninodes sb0 < Z.of_nat n /\ sb_ninodes sb0 <= 2 ^ 16;
  cc_blocks : forall i, 0 < i < sb_ninodes sb0 -> inode_block S0 sb0 start (iblock sb0 i);
  cc_bytes : forall i y, 0 < i < sb_ninodes sb0 -> 0 <= V (iblock sb0 i) y < 256;
  cc_free : exists i, 0 < i < sb_ninodes sb0 /\ i_type (node sb0 V i) = 0;
  cc_reserved : reserved sb0 start V;
  cc_space : 2 <= nfree sb0 V
}.

Context (s0 : kernel) (Hcc : can_create s0).

(** A new file [inum] with the name [nm] in the directory [dinum], locked by the
    process through the entry [ip]. *)
Record created (dinum : Z) (nm : list Z) (type major minor inum ip : Z) (V' : Z -> bytes) (L' : list Z) (s' : kernel) : Prop := {
  cr_linv : linv D V' L' [] o s';
  cr_frame : fframe s0 s';
  cr_first : first_inode sb0 V inum;
  cr_node : same_dinode (node sb0 V' inum) (set_i_nlink 1 (set_i_minor minor (set_i_major major (blank inum type))));
  cr_child : forall nm', child sb0 V' dinum nm' = if decide (nm' = nm) then Some inum else child sb0 V dinum nm';
  cr_dir : i_type (node sb0 V' dinum) = T_DIR /\ file_ok sb0 start V' (node sb0 V' dinum) /\ filled V' (node sb0 V' dinum) /\ dir_ok V' (node sb0 V' dinum);
  cr_inodes : forall j, 0 < j < sb_ninodes sb0 -> j <> inum -> j <> dinum -> same_dinode (node sb0 V' j) (node sb0 V j);
  cr_blocks : forall b, used sb0 start V b -> ~ of_file V (node sb0 V dinum) b -> V' b = V b;
  cr_table : table_ok sb0 V' dev (Some ip) (inodes s');
  cr_entry : live (inodes s') dev inum ip /\ sl_locked (i_lock (inodes s' ip)) = 1 /\ sl_pid (i_lock (inodes s' ip)) = p_pid (procs s' me);
  cr_refs : refs_held (inodes s0) (inodes s') [ip]
}.

(** The disk after the new inode [V1] and its name [V2]. *)
Section disks.
Context (dinum inum ip type major minor pid off : Z) (I : Z -> inode) (V1 V2 : Z -> bytes) (x y x2 : inode) (data : list Z).
Context (Hni : new_inode (dev := dev) sb0 I V inum ip type major minor pid y V1).
Context (Hd : allocated_inode sb0 V dinum) (Hxi : i_inum x = dinum) (Hx : same_dinode x (node sb0 V dinum)).
Context (Hw : file_written S0 sb0 start V1 x off data V2 x2).

Lemma new_other : inum <> dinum.
Proof. intros ->. destruct (ni_first _ _ _ _ _ _ _ _ _ _ _ Hni) as (_ & E & _). by apply Hd. Qed.

Lemma disk_other j : 0 < j < sb_ninodes sb0 -> j <> dinum -> same_dinode (node sb0 V2 j) (node sb0 V1 j).
Proof.
  intros Hj Hne. apply node_same. intros z Hz. apply (fw_inodes _ _ _ _ _ _ _ _ _ Hw); [|by apply (cc_blocks _ Hcc)|done]. rewrite Hxi.
  destruct (decide (iblock sb0 j = iblock sb0 dinum)) as [E|E]; [right|by left].
  apply (iblock_inj sb0); [apply Hcc|lia|destruct Hd; lia|done|done].
Qed.

Lemma disk_others j : 0 < j < sb_ninodes sb0 -> j <> inum -> j <> dinum -> same_dinode (node sb0 V2 j) (node sb0 V j).
Proof.
  intros Hj H1 H2. etrans; [by apply disk_other|]. destruct (ni_first _ _ _ _ _ _ _ _ _ _ _ Hni) as (Hr & _).
  eapply (only_inode_other sb0 V V1 inum); [apply Hcc|lia|lia|apply Hni|done].
Qed.

Lemma disk_new : same_dinode (node sb0 V2 inum) y.
Proof.
  destruct (ni_first _ _ _ _ _ _ _ _ _ _ _ Hni) as (Hr & _). etrans; [apply disk_other; [done|apply new_other]|].
  apply on_disk_get, Hni.
Qed.

Lemma disk_dir : same_dinode (node sb0 V2 dinum) x2.
Proof.
  pose proof (fw_disk _ _ _ _ _ _ _ _ _ Hw) as Hdk. rewrite (fw_same _ _ _ _ _ _ _ _ _ Hw) in Hdk at 1 2. cbn [i_inum set_i_size set_i_addrs] in Hdk.
  rewrite Hxi in Hdk. by apply on_disk_get.
Qed.

Context (dp : Z) (x4 : inode) (s : kernel) (Hdp : I dp = x) (HI : inodes s = I) (Hwk : walking s0 (Some dp) [dp] s).
Context (Hlive : live I dev dinum dp) (H4d : i_dev x4 = dev) (H4i : i_inum x4 = dinum) (H4r : i_ref x4 = i_ref x - 1).

Lemma dp_ne_ip : dp <> ip.
Proof. intros ->. destruct Hlive as (_ & Hp & _). destruct (ni_entry _ _ _ _ _ _ _ _ _ _ _ Hni) as (_ & E & _). lia. Qed.

Lemma created_unique : itable_ok (<[dp := x4]> (<[ip := y]> I)).
Proof.
  pose proof (tb_table _ _ _ _ _ (wk_table _ _ _ _ _ _ _ _ _ _ Hwk)) as [Hp Hu]. rewrite HI in Hp, Hu.
  destruct (ni_entry _ _ _ _ _ _ _ _ _ _ _ Hni) as (Hip & Hip0 & Hno). destruct (ni_keys _ _ _ _ _ _ _ _ _ _ _ Hni) as (Y1 & Y2 & Y3).
  pose proof dp_ne_ip as Hne. destruct Hlive as (Hr & Hpos & Hid & Hii). rewrite Hdp in Hpos, Hid, Hii.
  apply itable_ok_put; rewrite ?fn_insert_ne, ?Hdp by done; [|congruence|congruence|lia|lia]. split.
  - intros j Hj. rewrite fn_insert_spec. destruct (decide (ip = j)); [lia|by apply Hp].
  - assert (forall d m k, live (<[ip := y]> I) d m k -> (k = ip /\ d = dev /\ m = inum) \/ live I d m k) as Hl.
    { intros d m k Hk. apply live_insert in Hk as [Hkr Hk]. destruct (decide (k = ip)); [left|by right]. destruct Hk as (_ & E1 & E2). split_and!; congruence. }
    intros d m i j Hi Hj. destruct (Hl _ _ _ Hi) as [(-> & -> & ->)|Hi'], (Hl _ _ _ Hj) as [(-> & E1 & E2)|Hj']; [done|by destruct (Hno j)| |by eapply Hu].
    subst d m. by destruct (Hno i).
Qed.

Lemma created_table : sl_locked (i_lock x4) = 0 -> same_dinode x4 x2 -> (forall j m, live I dev m j -> allocated_inode sb0 V m) ->
  table_ok sb0 V2 dev (Some ip) (<[dp := x4]> (<[ip := y]> I)).
Proof.
  intros Hlk H4 Hal. pose proof (wk_table _ _ _ _ _ _ _ _ _ _ Hwk) as [[_ Hu] Hl Hs]. rewrite HI in Hu, Hl, Hs.
  pose proof dp_ne_ip as Hne. destruct (ni_entry _ _ _ _ _ _ _ _ _ _ _ Hni) as (_ & _ & Hno). destruct (ni_keys _ _ _ _ _ _ _ _ _ _ _ Hni) as (_ & Y2 & _).
  split; [apply created_unique|..].
  - intros j Hj Hji. rewrite !fn_insert_spec. destruct (decide (dp = j)); [done|]. destruct (decide (ip = j)); [congruence|]. apply Hl; congruence.
  - intros j Hj. rewrite !fn_insert_spec. destruct (decide (dp = j)) as [<-|Hjd].
    + intros _ _ _. rewrite H4i. etrans; [exact H4|]. symmetry. apply disk_dir.
    + destruct (decide (ip = j)) as [<-|Hji].
      * intros _ _ _. rewrite Y2. symmetry. apply disk_new.
      * intros Hp Hv Hdv. assert (live I dev (i_inum (I j)) j) as Hlj by done. etrans; [exact (Hs j Hj Hp Hv Hdv)|]. symmetry.
        apply disk_others; [apply (Hal _ _ Hlj)| |].
        -- intros E. apply (Hno j). by rewrite <-E.
        -- intros E. apply Hjd. eapply Hu; [exact Hlive|]. by rewrite <-E.
Qed.

Lemma created_refs : refs_held (inodes s0) (<[dp := x4]> (<[ip := y]> I)) [ip].
Proof.
  pose proof (wk_holding _ _ _ _ _ _ _ _ _ _ Hwk) as [Hr Hs]. rewrite HI in Hr, Hs. pose proof dp_ne_ip as Hne.
  destruct (ni_entry _ _ _ _ _ _ _ _ _ _ _ Hni) as (Hip & Hip0 & _). destruct (ni_keys _ _ _ _ _ _ _ _ _ _ _ Hni) as (_ & _ & Y3).
  assert (forall h j, count [h] j = if decide (h = j) then 1 else 0) as Hc by (intros h k; rewrite count_cons; unfold count; cbn; lia).
  assert (i_ref (inodes s0 ip) = 0) as E0 by (specialize (Hr ip Hip); rewrite Hc, decide_False in Hr by done; lia).
  split; intros j Hj; rewrite !fn_insert_spec; [rewrite Hc|]; (destruct (decide (dp = j)) as [<-|Hjd]; [|destruct (decide (ip = j)) as [<-|Hji]]).
  - specialize (Hr dp Hj). rewrite Hc, decide_True, Hdp in Hr by done. rewrite decide_False by congruence. lia.
  - rewrite Y3. lia.
  - rewrite Hr, Hc, decide_False by done. done.
  - intros Hp. destruct (Hs dp Hj Hp) as [E1 E2]. destruct Hlive as (_ & _ & E3 & E4). split; congruence.
  - lia.
  - by apply Hs.
Qed.

End disks.

(** A directory that is open. *)
Lemma dir_facts dinum x : allocated_inode sb0 V dinum -> i_type (node sb0 V dinum) = T_DIR -> same_dinode x (node sb0 V dinum) ->
  file_ok sb0 start V x /\ filled V x /\ dir_ok V x /\ inode_typed x /\ forall nm, child sb0 V dinum nm = dir_map V x !! nm.
Proof.
  intros Ha Hty Hx. destruct (tr_file _ _ _ _ (cc_tree _ Hcc) dinum Ha Hty) as (Hfo & Hfi & Hdk).
  split; [by eapply same_file_ok|]. split; [by eapply same_filled|]. split; [by eapply same_dir_ok|]. split.
  - assert (inode_typed (node sb0 V dinum)) as [A1 A2 A3 A4 A5 A6] by (apply dinode_get_typed; intros z; apply (cc_bytes _ Hcc), Ha).
    destruct Hx as [B1 B2 B3 B4 B5 B6]. split; rewrite ?B1, ?B2, ?B3, ?B4, ?B5; try done. intros k Hk. rewrite B6 by done. by apply A6.
  - intros nm. unfold child. rewrite decide_True by done. f_equal. symmetry. apply same_dir_map; [done|]. apply (dk_size _ _ Hdk).
Qed.

(** The directory on the disk after its new entry. *)
Lemma dir_after dinum x V2 x2 nm inum off data :
  allocated_inode sb0 V dinum -> i_type (node sb0 V dinum) = T_DIR -> same_dinode x (node sb0 V dinum) -> same_dinode (node sb0 V2 dinum) x2 ->
  forall V1, file_written S0 sb0 start V1 x off data V2 x2 -> dir_map V2 x2 = <[nm := inum]> (dir_map V x) -> dir_ok V2 x2 ->
  (forall nm', child sb0 V2 dinum nm' = if decide (nm' = nm) then Some inum else child sb0 V dinum nm') /\
  i_type (node sb0 V2 dinum) = T_DIR /\ file_ok sb0 start V2 (node sb0 V2 dinum) /\ filled V2 (node sb0 V2 dinum) /\ dir_ok V2 (node sb0 V2 dinum).
Proof.
  intros Ha Hty Hx Hx2 V1 Hw Em Hk. destruct (dir_facts dinum x Ha Hty Hx) as (_ & _ & _ & _ & Hch). pose proof (dk_size _ _ Hk) as Hsz.
  assert (i_type (node sb0 V2 dinum) = T_DIR) as Hty2 by (rewrite (sd_type _ _ Hx2); apply Hk). split; [|split; [done|split; [|split]]].
  - intros nm'. rewrite Hch. unfold child. rewrite decide_True by done. rewrite (same_dir_map V2 _ _ Hx2) by lia. rewrite Em.
    destruct (decide (nm' = nm)) as [->|]; [by rewrite lookup_insert_eq|by rewrite lookup_insert_ne].
  - eapply same_file_ok; [exact Hx2|]. apply Hw.
  - eapply same_filled; [exact Hx2|]. apply Hw.
  - by eapply same_dir_ok.
Qed.

(** The entries in use during the walk are for inodes in use. *)
Lemma walk_live dinum dp s : walking s0 (Some dp) [dp] s -> live (inodes s) dev dinum dp -> allocated_inode sb0 V dinum ->
  forall j m, live (inodes s) dev m j -> allocated_inode sb0 V m.
Proof.
  intros W (_ & _ & _ & Hi) Ha j m (Hj & Hp & Hd & Em). pose proof (wk_holding _ _ _ _ _ _ _ _ _ _ W) as [Hr Hs].
  pose proof (proj1 (tb_table _ _ _ _ _ (cc_table _ Hcc)) j Hj) as H0. destruct (decide (0 < i_ref (inodes s0 j))) as [Hpos|Hno].
  - destruct (Hs j Hj Hpos) as [E1 E2]. apply (cc_refs _ Hcc j). split; [done|]. split; [done|]. split; congruence.
  - specialize (Hr j Hj). rewrite count_cons in Hr. change (count [] j) with 0 in Hr. destruct (decide (dp = j)) as [<-|]; [congruence|lia].
Qed.

Lemma blocks_after dinum x inum V1 V2 x2 off data :
  only_inode sb0 V V1 inum -> inode_block S0 sb0 start (iblock sb0 inum) -> file_ok sb0 start V x -> same_dinode x (node sb0 V dinum) ->
  file_written S0 sb0 start V1 x off data V2 x2 -> forall b, used sb0 start V b -> ~ of_file V (node sb0 V dinum) b -> V2 b = V b.
Proof.
  intros [Hon _] Hblk Hfo Hx Hw b Hb Hnf. rewrite <-(meta_block S0 sb0 start V V1 _ Hblk Hon b Hb). apply (fw_others _ _ _ _ _ _ _ _ _ Hw).
  - by apply (meta_used S0 sb0 start Hly V V1 _ Hblk Hon).
  - intros Hof. apply Hnf. destruct Hof as [->|(bn & Hbn & E)]; [left; by apply (sd_addrs _ _ Hx)|right]. exists bn. split; [done|].
    rewrite <-(same_iaddr V _ _ Hx) by lia. rewrite <-E. symmetry. by apply (meta_iaddr S0 sb0 start V V1 _ Hblk Hon).
Qed.

(** The directory is unlocked and its reference given back. *)
Lemma wp_create_done dinum dp nm type major minor s inum ip y V1 s1 V2 x2 L2 s2 off data (Q : option Z -> kernel -> Prop) :
  let x := inodes s dp in
  walking s0 (Some dp) [dp] s -> at_node (dev := dev) sb0 V dinum dp s -> locked_node (me := me) sb0 V dinum dp s -> i_type (node sb0 V dinum) = T_DIR ->
  new_inode (dev := dev) sb0 (inodes s) V inum ip type major minor (p_pid (procs s me)) y V1 ->
  lframe (put_inode ip y s) s1 -> lframe (put_inode dp x2 s1) s2 -> linv D V2 L2 [] o s2 ->
  dir_map V2 x2 = <[nm := inum]> (dir_map V x) -> dir_ok V2 x2 -> file_written S0 sb0 start V1 x off data V2 x2 ->
  (forall s', created dinum nm type major minor inum ip V2 L2 s' -> Q (Some ip) s') ->
  wp (iunlockput dp;; mret (Some ip)) n s2 Q.
Proof.
  intros x W [Hlv Hal Hst] [Hheld Hmine Hsame] Hty Hni F1 F2 L2' Em Hk2 Hw HQ. pose proof W as [_ Hfr Htb _]. fold x in Hheld, Hmine, Hsame.
  pose proof Hni as [Hff (Hip & Hip0 & _) Hon _ Hys (Y1 & Y2 & Y3) (Y4 & Y5)]. pose proof Hlv as (Hr & Hp & Hd & Hi). fold x in Hp, Hd, Hi.
  assert (dp <> ip) as Hne by (intros E; subst ip; fold x in Hip0; lia). pose proof (fw_same _ _ _ _ _ _ _ _ _ Hw) as Ex2.
  assert (i_lock x2 = i_lock x /\ i_ref x2 = i_ref x /\ i_dev x2 = dev /\ i_inum x2 = dinum /\ i_nlink x2 = i_nlink x) as (X1 & X2 & X3 & X4 & X5) by by rewrite Ex2.
  pose proof (lframe_inodes _ _ F1) as E1. pose proof (lframe_inodes _ _ F2) as E2. cbn in E1, E2.
  assert (inodes s2 dp = x2) as E2d by by rewrite E2, fn_lookup_insert.
  assert (p_pid (procs s2 me) = p_pid (procs s me)) as Ep by (etrans; [apply (woke_pid (procs s1)), (lframe_procs _ _ F2)|apply (woke_pid (procs s)), (lframe_procs _ _ F1)]).
  unfold iunlockput. apply wp_bind, wp_bind. eapply (wp_iunlock S0 n Hn Hdn); [exact L2'|by rewrite E2d, X1|by rewrite E2d, X1, Ep|rewrite E2d, X2; lia|].
  rewrite E2d. remember (set_i_lock _ x2) as x3 eqn:Ex3. intros s3 F3 L3. pose proof (lframe_inodes _ _ F3) as E3. cbn in E3.
  assert (inodes s3 dp = x3) as E3d by by rewrite E3, fn_lookup_insert.
  eapply (wp_iput_keep S0 n Hn Hdn); [exact L3|rewrite E3d, Ex3|].
  { intros (H1 & _ & H0). cbn in H1, H0. destruct Hst as [[_ Hnl]|H2]; [|fold x in H2; lia]. apply Hnl. rewrite <-(sd_nlink _ _ Hsame). congruence. }
  rewrite E3d. remember (set_i_ref _ x3) as x4 eqn:Ex4. intros s4 F4 L4. apply wp_ret. apply HQ.
  assert (inodes s4 = <[dp := x4]> (<[ip := y]> (inodes s))) as E4 by (rewrite (lframe_inodes _ _ F4); cbn; rewrite E3, E2, E1, !fn_insert_insert; done).
  destruct (dir_facts dinum x Hal Hty Hsame) as (Hfo & _).
  destruct (dir_after dinum x V2 x2 nm inum off data Hal Hty Hsame (disk_dir dinum off V1 V2 x x2 data Hi Hw) V1 Hw Em Hk2) as (Hch & Hdir).
  assert (p_pid (procs s4 me) = p_pid (procs s me)) as Ep4.
  { etrans; [apply (woke_pid (procs s3)), (lframe_procs _ _ F4)|]. etrans; [apply (woke_pid (procs s2)), (lframe_procs _ _ F3)|done]. }
  split; rewrite ?E4; try done.
  - etrans; [exact Hfr|]. etrans; [by exists (<[ip := y]> (inodes s))|]. etrans; [by exists (<[dp := x2]> (inodes s1))|].
    etrans; [by exists (<[dp := x3]> (inodes s2))|]. by exists (<[dp := x4]> (inodes s3)).
  - etrans; [|exact Hys]. exact (disk_new dinum inum ip type major minor _ off _ V1 V2 x y x2 data Hni Hal Hi Hw).
  - exact (disk_others dinum inum ip type major minor _ off _ V1 V2 x y x2 data Hni Hal Hi Hw).
  - exact (blocks_after dinum x inum V1 V2 x2 off data Hon (cc_blocks _ Hcc inum (proj1 Hff)) Hfo Hsame Hw).
  - eapply (created_table dinum inum ip type major minor (p_pid (procs s me)) off (inodes s) V1 V2 x y x2 data); try done; rewrite ?Ex4, ?Ex3; try done.
    + cbn. by rewrite X2.
    + intros j m. by eapply walk_live.
  - rewrite fn_insert_ne, fn_lookup_insert, Ep4 by done. split; [|done]. split; [done|]. rewrite fn_insert_ne, fn_lookup_insert by done. split; [lia|done].
  - eapply (created_refs dinum inum ip type major minor (p_pid (procs s me)) (inodes s) V1 x y); try done; rewrite ?Ex4, ?Ex3; try done. cbn. by rewrite X2.
Qed.

(** The file is new: from the directory, which is locked, to the new inode. *)
Lemma wp_create_new dinum dp name type major minor s (Q : option Z -> kernel -> Prop) :
  walking s0 (Some dp) [dp] s -> at_node (dev := dev) sb0 V dinum dp s -> locked_node (me := me) sb0 V dinum dp s -> i_type (node sb0 V dinum) = T_DIR ->
  child sb0 V dinum (dname name) = None -> name_bytes name -> i_size (node sb0 V dinum) + sizeof_dirent <= MAXFILE * BSIZE ->
  type <> 0 -> type <> T_DIR -> - 2 ^ 15 <= type < 2 ^ 15 -> - 2 ^ 15 <= major < 2 ^ 15 -> - 2 ^ 15 <= minor < 2 ^ 15 ->
  (forall inum ip V' L' s', created dinum (dname name) type major minor inum ip V' L' s' -> Q (Some ip) s') ->
  wp (dev ← iget_ dp i_dev;
      ip ← ialloc dev type;
      ilock (Some ip);;
      iset ip (set_i_major major);;
      iset ip (set_i_minor minor);;
      iset ip (set_i_nlink 1);;
      iupdate ip;;
      inum ← iget_ ip i_inum;
      when (type =? T_DIR)
        (nlink_add dp 1;;
         iupdate dp;;
         r ← dirlink ip (buf_of (chars ".")) inum;
         if r <? 0 then panic "create dots" else
         dinum ← iget_ dp i_inum;
         r ← dirlink ip (buf_of (chars "..")) dinum;
         if r <? 0 then panic "create dots" else mret tt);;
      r ← dirlink dp name inum;
      if r <? 0 then panic "create: dirlink" else
      iunlockput dp;;
      mret (Some ip)) n s Q.
Proof.
  intros W Ha Hlk Hty Hch Hnm Hsz Ht0 Htd Ht Hma Hmi HQ. pose proof W as [Hl Hfr Htb Hrf]. pose proof Ha as [Hlv Hal Hst]. pose proof Hlv as (Hr & Hp & Hd & Hi).
  remember (inodes s dp) as x eqn:Ex. unfold iget_ at 1. apply wp_bind, wp_gets. rewrite <-Ex, Hd.
  destruct (dir_facts dinum x Hal Hty ltac:(rewrite Ex; apply Hlk)) as (Hfo & Hfi & Hdk & Hit & Hcm).
  destruct Hlk as [Hheld Hmine Hsame]. rewrite <-Ex in Hheld, Hmine, Hsame.
  assert (sb s = sb0) as Hsb by (rewrite (fframe_sb _ _ Hfr); apply Hcc).
  eapply (wp_new_inode S0 Hdev HS0 n Hn Hdn sb0 D V L o); [exact Hl|exact Hsb|done|lia|apply Hcc|intros i Hi'; apply (ib_data _ _ _ _ (cc_blocks _ Hcc i Hi'))|apply Hcc| | | |done|done|done|done|].
  { eapply (refs_held_free (inodes s0)); [apply Hcc|exact Hrf|done]. }
  { intros m j Hlj. apply (walk_live dinum dp s W Hlv Hal j m Hlj). }
  { intros j Hj Hj0. apply (tb_lock _ _ _ _ _ Htb); [done|]. intros [= E]. subst j. rewrite <-Ex in Hj0. lia. }
  intros inum ip y V1 s1 Hni F1 L1. pose proof Hni as [Hff (Hip & Hip0 & Hno) Hon Hdi Hys (Y1 & Y2 & Y3) (Y4 & Y5)].
  assert (dp <> ip) as Hne by (intros E; rewrite <-E, <-Ex in Hip0; lia).
  pose proof Hff as (Hinr & _ & _). pose proof (cc_blocks _ Hcc inum Hinr) as Hblk.
  assert (inodes s1 = <[ip := y]> (inodes s)) as E1 by exact (lframe_inodes _ _ F1).
  assert (inodes s1 ip = y /\ inodes s1 dp = x) as [E1i E1d] by (rewrite E1, fn_lookup_insert, fn_insert_ne by done; done).
  unfold iget_ at 1. apply wp_bind, wp_gets. rewrite E1i, Y2. rewrite (proj2 (Z.eqb_neq _ _) Htd). cbn [when]. apply wp_bind, wp_ret.
  destruct (meta_dir S0 sb0 start V V1 _ Hblk (proj1 Hon) x Hfo Hfi Hdk) as [Hdk1 Em1].
  assert (pot (addL L (iblock sb0 inum)) x <= Z.of_nat (length L) + 3) as Hpot by (pose proof (pot_add L x (iblock sb0 inum)); unfold pot in *; repeat case_decide; lia).
  assert (open_dir (c := c) (me := me) (dev := dev) S0 n sb0 start D V1 (addL L (iblock sb0 inum)) o dp s1) as Hod.
  { split; rewrite ?E1d; try done.
    - pose proof (addL_length L (iblock sb0 inum)). change NBUF with LOGSIZE. lia.
    - exact (meta_file_ok S0 sb0 start Hly V V1 _ Hblk (proj1 Hon) x Hfo).
    - exact (meta_filled S0 sb0 start V V1 _ Hblk (proj1 Hon) x Hfo Hfi).
    - rewrite (sd_size _ _ Hsame). by apply (cc_fuel _ Hcc). }
  apply wp_bind. eapply (wp_dirlink S0 n sb0 start D V1 (addL L (iblock sb0 inum)) o dp s1); rewrite ?E1d; try done.
  - etrans; [exact (lframe_sb _ _ F1)|exact Hsb].
  - pose proof (cc_count _ Hcc). lia.
  - exact (meta_reserved S0 sb0 start V V1 _ Hblk (proj1 Hon) (cc_reserved _ Hcc)).
  - rewrite Hi. apply (cc_blocks _ Hcc), Hal.
  - by rewrite (sd_size _ _ Hsame).
  - lia.
  - rewrite (meta_ndebt S0 sb0 start V V1 _ Hblk (proj1 Hon)). pose proof (cc_space _ Hcc). unfold ndebt. destruct (decide _); lia.
  - by rewrite Em1, <-Hcm.
  - intros s2 V2 x2 L2 i L2' F2 Em Hk2 Hw. change (0 <? 0) with false. cbv iota. rewrite Em1 in Em.
    eapply (wp_create_done dinum dp (dname name) type major minor s inum ip y V1 s1 V2 x2 L2 s2); rewrite <-?Ex; try done.
    + split; rewrite <-?Ex; done.
    + intros s' Hcr. by eapply HQ.
Qed.

Lemma resolve_parent_dir nms : forall inum j nm, resolve_parent sb0 V inum nms = Some (j, nm) -> i_type (node sb0 V j) = T_DIR.
Proof.
  induction nms as [|a nms IH]; intros inum j nm; [done|]. cbn. destruct nms as [|b nms].
  - case_decide; [|done]. by intros [= <- <-].
  - destruct (child sb0 V inum a); [apply IH|done].
Qed.

(** C13: [create] makes a file or a device, that is an inode of any type but that
    of a directory: for a path that leads to a directory without the last name, it
    returns an entry for the first free inode, locked by the process and with one
    reference. On the disk this inode has the given type and numbers,
    one link and no contents; the directory has the name for it, its other names
    stand for what they stood for, and it is well formed; no other inode and no
    block of another file has changed. The table has no other reference more or
    less, and agrees with the disk. *)
Theorem create_creates path type major minor cwd cinum dinum nm :
  linv D V L [] o s0 -> dev = ROOTDEV -> linked sb0 V ROOTINO ->
  (head path <> Some slash -> p_cwd (procs s0 me) = Some cwd /\ live (inodes s0) dev cinum cwd) ->
  path_bytes path -> (length path < n)%nat ->
  resolve_parent sb0 V (if decide (head path = Some slash) then ROOTINO else cinum) (names path) = Some (dinum, nm) ->
  child sb0 V dinum nm = None -> i_size (node sb0 V dinum) + sizeof_dirent <= MAXFILE * BSIZE ->
  type <> 0 -> type <> T_DIR -> - 2 ^ 15 <= type < 2 ^ 15 -> - 2 ^ 15 <= major < 2 ^ 15 -> - 2 ^ 15 <= minor < 2 ^ 15 ->
  exists ip s' inum V' L', create path type major minor n s0 = Ret (Some ip) s' /\ created dinum nm type major minor inum ip V' L' s'.
Proof.
  intros Hl Hrd Hroot Hcwd Hpb Hlen Hres Hno Hsz Ht0 Htd Ht Hma Hmi.
  assert (Z.of_nat (length L) < LOGSIZE - 1) as HL' by lia. pose proof (cc_table _ Hcc) as Htb.
  assert (wp (create path type major minor) n s0 (fun r s' => exists ip inum V' L', r = Some ip /\ created dinum nm type major minor inum ip V' L' s'))
    as (r & s' & E & ip & inum & V' & L' & -> & Hcr)%wp_elim; [|by exists ip, s', inum, V', L'].
  unfold create, nameiparent. apply wp_bind.
  eapply (wp_namex S0 n Hn Hdn Hfuel sb0 start Hly D V L o HL' (cc_tree _ Hcc) (cc_fuel _ Hcc) s0 (cc_sb _ Hcc) (proj1 (tb_table _ _ _ _ _ Htb)) (cc_room _ Hcc) true path _ cwd cinum); try done.
  { split; [done|reflexivity|done|apply refs_held_refl]. }
  { intros Hh. destruct (Hcwd Hh) as [E1 E2]. split; [done|]. split; [done|]. by eapply (cc_refs _ Hcc). }
  intros [q name] s1. unfold outcome. rewrite Hres. intros (dp & E1 & E2 & W1 & Ha1 & Hnm). cbn in E1, E2, Hnm. subst q nm.
  pose proof (resolve_parent_dir _ _ _ _ Hres) as Hty.
  apply wp_bind. eapply (wp_walk_lock S0 n Hn Hdn sb0 start D V L o HL' (cc_tree _ Hcc) s0 (cc_sb _ Hcc)); [exact W1|exact Ha1|]. intros s2 W2 Ha2 Hk2.
  apply wp_bind. eapply (wp_walk_lookup S0 n Hn Hdn Hfuel sb0 start Hly D V L o HL' (cc_tree _ Hcc) (cc_fuel _ Hcc) s0 (proj1 (tb_table _ _ _ _ _ Htb)) (cc_room _ Hcc));
    [exact W2|exact Ha2|exact Hk2|done|done|..].
  - intros s3 _ W3 Ha3 Hk3. eapply wp_create_new; [exact W3|exact Ha3|exact Hk3|done..|]. intros inum ip V' L' s' Hcr. by exists ip, inum, V', L'.
  - intros next j off s3 Hc. congruence.
Qed.

End create.
