(* ===== verification/FsSample.v ===== *)
(** * A small file system

    A disk of 100 blocks with a bitmap and a file of five bytes, inside a
    transaction of the kernel of [SampleKernel], used to instantiate the
    theorems about files. *)

From stdpp Require Import gmap.
From S2P Require Import Prelude Riscv Spinlock Str Kalloc Vm PageTable Cow Pages UserMem Fork CopyUser PageFault Sample Kernel Proc Sleeplock Bio Log Fs KernelWp KernelVm Ring BioProof BioBoot LogProof LogOps LogCrash Await SampleKernel PipeProof FsBlocks FsInode FsFile FsWrite FsRead FsUser FsDir File Sysfile FileProof FsFree Paths FsPath FsCreate.

#[local] Existing Instance small_kernel.
#[local] Existing Instance small_kernel_ok.
#[local] Existing Instance sync_disk.
#[local] Existing Instance sync_disk_ok.

(** A file with one block, an empty one, a directory, and an entry that is not loaded. *)
Definition hello : inode := mkInode 1 2 1 (mkSleep 0 "" 0) 1 2 0 0 1 5 (fun i => if i =? 0 then 50 else 0).
Definition empty : inode := mkInode 1 3 1 (mkSleep 0 "" 0) 1 2 0 0 1 0 (fun _ => 0).
Definition rootdir : inode := mkInode 1 1 1 (mkSleep 0 "" 0) 1 1 0 0 1 48 (fun i => if i =? 0 then 51 else 0).
Definition unloaded : inode := mkInode 1 2 1 (mkSleep 0 "" 0) 0 0 0 0 0 0 (fun _ => 0).

(** The layout of mkfs on 100 blocks: the log is in blocks 2 to 31, inodes in
    32 to 44, the bitmap in 45, data from 46 on. Blocks 0 to 45, 50 and 51 are in
    use; inode 1 is the directory, inode 2 is [hello]; the directory has the
    names . and a for them, with a free entry between the two. *)
Definition super1 : superblock := mkSuper FSMAGIC 100 54 200 LOGSIZE 2 32 45.
Definition letter (a : Z) : bytes := fun k => if k =? 0 then a else 0.
Definition dirblock : list Z := dirent_bytes (letter 46) 1 ++ replicate 16 0 ++ dirent_bytes (letter 97) 2.
Definition image1 : Z -> bytes := fun b i =>
  if b =? 45 then (if i <? 5 then 255 else if i =? 5 then 63 else if i =? 6 then 12 else 0)
  else if b =? 32 then dinode_put rootdir 64 (dinode_put hello 128 (fun _ => 0)) i
  else if b =? 50 then (if i <? 5 then [104; 101; 108; 108; 111] !!! Z.to_nat i else 0)
  else if b =? 51 then (if i <? 48 then dirblock !!! Z.to_nat i else 0)
  else 0.

Definition world (s : kernel) : kernel :=
  set_sb super1 (set_inodes (fun i => if i =? 1 then hello else if i =? 2 then empty else if i =? 4 then rootdir else unloaded) (set_procs (procs kernel1) (set_ms (ms kernel1)
    (set_files (fun f => mkFile FD_INODE 1 1 1 0 (Some 1) (if f =? 4 then 0 else 5) 0) s)))).

Abbreviation nfuel := 300%nat.

Lemma linv_world D V L o s : linv0 D V L [] o s -> linv0 D V L [] o (world s).
Proof.
  intros [[[]] []]. pose proof (ur_hart _ _ kernel1_ready). split; try done; split; try done.
  by intros b Hb%not_elem_of_nil.
Qed.

(** The file system between transactions, and inside one. *)
Lemma sample_idle : exists s V, linv0 image1 V [] [] 0 s /\ forall b, b <> 2 -> V b = image1 b.
Proof.
  assert (0 <= 1 < 2 ^ 31) as H1 by lia. assert (0 <= 2 /\ 2 + LOGSIZE < 2 ^ 31) as H2 by (unfold LOGSIZE, MAXOPBLOCKS; lia).
  assert (Z.to_nat NBUF < fuel)%nat as H3 by (by apply Nat.ltb_lt). assert (dfuel < fuel)%nat as H4 by (cbn; lia).
  assert (wp (binit;; initlog 1 super1) fuel (set_image0 image1 kernel0) (fun _ s =>
    exists V, linv0 image1 V [] [] 0 s /\ forall b, b <> 2 -> V b = image1 b)) as (_ & s & _ & V & Hl)%wp_elim; [|by exists s, V].
  apply wp_bind. apply (wp_binit 0 1); [apply kernel0_runs|by split|]. intros h B Hh HB.
  set (s0 := set_bufs B _).
  assert (booted (c := 0) (me := 0) (dev := 1) image1 s0) as Hb by (destruct kernel0_runs; by split).
  assert (lists (image1 2) []) as HL by (split; [by vm_compute|done]).
  apply (wp_initlog 2 H1 H2 fuel H3 H4 image1 []); [done|done|done|..].
  { split; [apply NoDup_nil_2|apply Forall_nil_2|by vm_compute]. }
  intros s1 _ _ L1. eexists. split; [exact L1|]. intros b Hb2. apply applyw_out. cbn. intros Hin%list_elem_of_singleton. done.
Qed.

Lemma sample_fs : exists s V, linv0 image1 V [] [] 1 (world s) /\ forall b, b <> 2 -> V b = image1 b.
Proof.
  assert (Z.to_nat NBUF < fuel)%nat as H3 by (by apply Nat.ltb_lt). assert (dfuel < fuel)%nat as H4 by (cbn; lia).
  destruct sample_idle as (s & V & L1 & HV).
  assert (wp begin_op fuel s (fun _ s' => linv0 image1 V [] [] 1 s')) as (_ & s2 & _ & L2)%wp_elim; [|exists s2, V; split; [by apply linv_world|done]].
  apply (wp_begin_op 2 fuel H3 H4 _ _ _ _ _ _ _ L1); [lia|by vm_compute|]. intros s2 _ _ _ L2. exact L2.
Qed.

(** ** The conditions of the theorems *)

Section facts.
Context (V : Z -> bytes) (HV : forall b, b <> 2 -> V b = image1 b).

Lemma bit_block1 b : 0 <= b < 100 -> bit_block super1 b = 45.
Proof. intros Hb. unfold bit_block, BBLOCK. rewrite Z.div_small by (unfold BPB, BSIZE; lia). done. Qed.

Lemma layout1 : layout_ok 2 super1 46.
Proof.
  assert (LOGSIZE = 30) as EL by done. split.
  - split; [done|by vm_compute|]. intros b Hb. rewrite bit_block1 by done. unfold isdata. lia.
  - done.
  - intros b Hb. unfold area in Hb. cbn in Hb. unfold isdata. lia.
  - intros b b' Hb Hb'. rewrite bit_block1 by done. unfold area in Hb. lia.
Qed.

(** A property of finitely many blocks, by evaluation. *)
Lemma below_forall (f : Z -> bool) (k : nat) : forallb f (seqZ 0 (Z.of_nat k)) = true -> forall b, 0 <= b < Z.of_nat k -> f b = true.
Proof. intros Hf b Hb. rewrite forallb_forall in Hf. apply Hf, list_elem_of_In, elem_of_seqZ. lia. Qed.

Lemma in_use1 b : 0 <= b < 100 -> in_use super1 V b = in_use super1 image1 b.
Proof. intros Hb. unfold in_use. by rewrite bit_block1, HV by lia. Qed.

Lemma reserved1 : reserved super1 46 V.
Proof.
  intros b Hb _. rewrite in_use1 by lia. apply (below_forall (fun b => in_use super1 image1 b) 46); [by vm_compute|lia].
Qed.

Lemma nfree1 : nfree super1 V = 52.
Proof.
  transitivity (nfree super1 image1); [|by vm_compute]. unfold nfree. do 2 f_equal. apply filter_ext_in.
  intros b Hb%elem_of_seqZ. rewrite in_use1; [done|exact Hb].
Qed.

(** A file with one block. *)
Section one.
Context (x : inode) (a : Z) (Hx : i_addrs x = fun i => if i =? 0 then a else 0) (Ha : 46 <= a < 100) (Hu : in_use super1 image1 a = true).

Lemma iaddr_one bn : 0 <= bn -> iaddr V x bn = if bn =? 0 then a else 0.
Proof.
  intros Hb. unfold iaddr. rewrite Hx. change (NDIRECT =? 0) with false. cbn.
  destruct (Z.ltb_spec bn NDIRECT); [done|]. rewrite (proj2 (Z.eqb_neq bn 0)); [done|]. unfold NDIRECT in *. lia.
Qed.

Lemma one_ok : file_ok super1 46 V x.
Proof.
  split; rewrite ?Hx.
  - by left.
  - intros bn Hb. rewrite iaddr_one by lia. destruct (bn =? 0); [right|by left]. split; [unfold area; cbn; lia|].
    by rewrite in_use1 by lia.
  - intros bn bn' Hb Hb'. rewrite !iaddr_one by lia. destruct (Z.eqb_spec bn 0), (Z.eqb_spec bn' 0); lia.
  - intros bn Hb H0. done.
Qed.

Lemma one_filled : i_size x <= BSIZE -> filled V x.
Proof. intros Hs bn Hb Hlt. rewrite iaddr_one by done. unfold BSIZE in *. rewrite (proj2 (Z.eqb_eq bn 0)) by lia. lia. Qed.

Lemma one_byte i : 0 <= i < BSIZE -> fbyte V x i = image1 a i.
Proof.
  intros Hi. unfold fbyte. rewrite Z.div_small, Z.mod_small, iaddr_one by (done || lia). cbn. rewrite HV by lia. done.
Qed.

End one.

Lemma iaddr_empty bn : iaddr V empty bn = 0.
Proof. unfold iaddr. cbn. by destruct (bn <? NDIRECT). Qed.

Lemma hello_ok : file_ok super1 46 V hello.
Proof. by apply (one_ok hello 50). Qed.
Lemma hello_filled : filled V hello.
Proof. by apply (one_filled hello 50). Qed.

Lemma rootdir_ok : file_ok super1 46 V rootdir /\ filled V rootdir /\ dir_ok V rootdir.
Proof.
  split; [by apply (one_ok rootdir 51)|]. split; [by apply (one_filled rootdir 51)|]. split; try by vm_compute.
  intros i Hi. cbn in Hi. rewrite (one_byte rootdir 51) by (done || (unfold BSIZE; lia)).
  pose proof (below_forall (fun j => (0 <=? image1 51 j) && (image1 51 j <? 256))%bool 48 ltac:(by vm_compute) i ltac:(lia)) as Hb.
  cbn beta in Hb. lia.
Qed.

Lemma rootdir_map : dir_map V rootdir = dir_map image1 rootdir.
Proof.
  unfold dir_map. f_equal. apply dir_from_ext. intros j Hj. unfold dent, fbytes. apply list_fmap_ext. intros k y [-> Hk]%lookup_seqZ.
  change (i_size rootdir / sizeof_dirent) with 3 in Hj. assert (0 <= sizeof_dirent * j + Z.of_nat k < BSIZE) as Hr by (unfold sizeof_dirent, BSIZE in *; lia).
  rewrite (one_byte rootdir 51) by done. unfold fbyte. rewrite Z.div_small, Z.mod_small by done. done.
Qed.

Lemma empty_ok : file_ok super1 46 V empty.
Proof.
  split; [by left|intros bn _; left; apply iaddr_empty|..]; intros bn; [intros bn' _ _|intros _]; by rewrite iaddr_empty.
Qed.

Lemma inode_block1 : inode_block 2 super1 46 32.
Proof.
  assert (LOGSIZE = 30) as EL by done. split; [unfold isdata; lia|unfold area; lia|].
  intros b Hb. by rewrite bit_block1.
Qed.

Lemma hello_bytes : fbytes V hello 0 5 = [104; 101; 108; 108; 111].
Proof. transitivity (V 50 <$> [0; 1; 2; 3; 4]); [by vm_compute|]. by rewrite HV. Qed.

End facts.

Lemma inode_typed1 : inode_typed hello /\ inode_typed empty.
Proof. split; split; cbn; try lia. intros i _. destruct (i =? 0); lia. Qed.

(** Two bytes for the empty file: a block is allocated. *)
Lemma writei_writes_witness : exists s s' V' x',
  writei 2 (Skernel [104; 105]) 0 2 nfuel (world s) = Ret 2 s' /\ i_size x' = 2 /\ fbyte V' x' 0 = 104 /\ fbyte V' x' 1 = 105.
Proof.
  destruct sample_fs as (s & V & Hl & HV).
  destruct (writei_writes (c := 0) (me := 0) (dev := 1) (DOK := sync_disk_ok) 2 nfuel super1 46 image1 1 2 V [] (world s)
    (Skernel [104; 105]) [104; 105] 0 ltac:(lia) ltac:(unfold LOGSIZE, MAXOPBLOCKS; lia) ltac:(by apply Nat.ltb_lt) ltac:(cbn; lia)
    layout1 ltac:(cbn; lia) eq_refl ltac:(lia) Hl eq_refl (reserved1 V HV) (empty_ok V) (proj2 inode_typed1)
    ltac:(intros bn H1 H2; cbn in H2; unfold BSIZE in H2; lia) inode_block1 ltac:(cbn; lia) ltac:(by vm_compute) ltac:(by vm_compute)
    (gives_kernel nfuel [104; 105] (world s)) ltac:(by vm_compute) ltac:(unfold ndebt; rewrite nfree1 by done; by vm_compute))
    as (s' & V' & x' & L' & E & _ & _ & Hw & _).
  pose proof (fw_size _ _ _ _ _ _ _ _ _ Hw) as Hs. cbn in Hs.
  exists s, s', V', x'. split; [exact E|]. split; [exact Hs|].
  rewrite !(fw_bytes _ _ _ _ _ _ _ _ _ Hw) by lia. done.
Defined.

(** The five bytes of the file, to address 100. *)
Lemma readi_reads_witness : exists s res bs s', readi 1 (Duser 100) 0 10 nfuel (world s) = Ret (res, bs) s' /\
  (res = 5 \/ res = -1) /\ (res = 5 -> ubyte (ms s') tabA 104 = Some 111).
Proof.
  destruct sample_fs as (s & V & Hl & HV). pose proof kernel1_ready as [_ _ Hp _ _ Hvm].
  destruct (readi_reads (c := 0) (me := 0) (dev := 1) (DOK := sync_disk_ok) 2 nfuel super1 46 image1 V [] 1 1 tabA 100 (world s) 0 10
    ltac:(by apply Nat.ltb_lt) ltac:(cbn; lia) ltac:(by vm_compute) layout1 Hl ltac:(by vm_compute) (Build_has_memory tabA (world s) Hp Hvm)
    eq_refl (hello_ok V HV) (hello_filled V) ltac:(cbn; lia) ltac:(by vm_compute) ltac:(lia) ltac:(lia) ltac:(lia) ltac:(lia))
    as (res & bs & s' & E & _ & _ & _ & Hd).
  exists s, res, bs, s'. split; [exact E|]. destruct Hd as [[-> Hu]|(-> & _)]; [|split; [by right|done]].
  change (inodes (world s) 1) with hello in Hu. change (Z.min 10 (i_size hello - 0)) with 5 in Hu. rewrite (hello_bytes V HV) in Hu.
  split; [by left|]. intros _. rewrite Hu by (rewrite MAXVA_eq; lia). done.
Defined.

(** Three bytes written at the end of the file and read back. *)
Lemma writei_readi_witness : exists s res s',
  (w ← writei 1 (Skernel [1; 2; 3]) 5 3; g ← readi 1 (Duser 100) 5 3; mret (w, fst g)) nfuel (world s) = Ret (3, res) s' /\
  (res = 3 -> ubyte (ms s') tabA 101 = Some 2).
Proof.
  destruct sample_fs as (s & V & Hl & HV). pose proof kernel1_ready as [_ _ Hp _ _ Hvm].
  destruct (writei_readi (c := 0) (me := 0) (dev := 1) (DOK := sync_disk_ok) 2 nfuel super1 46 image1 V [] 1 1 tabA 100 (world s)
    (Skernel [1; 2; 3]) [1; 2; 3] 5 ltac:(lia) ltac:(unfold LOGSIZE, MAXOPBLOCKS; lia) ltac:(by apply Nat.ltb_lt) ltac:(cbn; lia)
    ltac:(by vm_compute) layout1 ltac:(cbn; lia) eq_refl ltac:(lia) Hl (Build_has_memory tabA (world s) Hp Hvm) eq_refl (reserved1 V HV)
    (hello_ok V HV) (proj1 inode_typed1) (hello_filled V) inode_block1 ltac:(cbn; lia) ltac:(by vm_compute) ltac:(by vm_compute)
    (gives_kernel nfuel [1; 2; 3] (world s)) ltac:(by vm_compute) ltac:(unfold ndebt; rewrite nfree1 by done; by vm_compute)
    ltac:(lia) ltac:(cbn; lia)) as (res & s' & E & Hd).
  exists s, res, s'. split; [exact E|]. intros ->. destruct Hd as [[_ Hu]|[? _]]; [|lia].
  rewrite Hu by (rewrite MAXVA_eq; lia). done.
Defined.

Lemma image1_block32 i : 0 <= image1 32 i < 256.
Proof.
  destruct (decide (64 <= i < 192)) as [Hi|Hi].
  - pose proof (below_forall (fun j => (0 <=? image1 32 (64 + j)) && (image1 32 (64 + j) <? 256))%bool 128 ltac:(by vm_compute) (i - 64) ltac:(lia)) as Hb.
    cbn beta in Hb. replace (64 + (i - 64)) with i in Hb by lia. lia.
  - change (image1 32 i) with (dinode_put rootdir 64 (dinode_put hello 128 (fun _ => 0)) i). rewrite !dinode_put_out by (unfold sizeof_dinode; lia). lia.
Qed.

(** Inode 2 from the disk. *)
Lemma ilock_typed_witness : exists s s', ilock (Some 3) nfuel (world s) = Ret tt s' /\ inode_typed (inodes s' 3) /\ i_size (inodes s' 3) = 5.
Proof.
  destruct sample_fs as (s & V & Hl & HV).
  pose proof (ilock_typed (c := 0) (me := 0) (dev := 1) (DOK := sync_disk_ok) 2 nfuel super1 image1 V [] 1 (world s) 3
    ltac:(by apply Nat.ltb_lt) ltac:(cbn; lia) Hl eq_refl ltac:(by vm_compute) eq_refl (ib_data _ _ _ _ inode_block1) ltac:(cbn; lia) eq_refl
    ltac:(change (iblock super1 (i_inum (inodes (world s) 3))) with 32; rewrite HV by lia; apply image1_block32)
    ltac:(done)) as H.
  change (iblock super1 (i_inum (inodes (world s) 3))) with 32 in H. rewrite HV in H by lia.
  rewrite decide_False in H by (intros [_ Ht]; by vm_compute in Ht). destruct H as (s' & E & _ & Hty & _ & _ & Hod & _).
  exists s, s'. split; [exact E|]. split; [exact Hty|]. rewrite <-(od_size _ _ _ (Hod eq_refl)). by vm_compute.
Defined.

(** The file of entry 1 stored, and loaded into entry 3. *)
Lemma iupdate_ilock_witness : exists s s', (iupdate 1;; ilock (Some 3)) nfuel (world s) = Ret tt s' /\ same_dinode (inodes s' 3) hello.
Proof.
  destruct sample_fs as (s & V & Hl & HV).
  destruct (iupdate_ilock (c := 0) (me := 0) (dev := 1) (DOK := sync_disk_ok) 2 nfuel super1 image1 V [] 1 (world s) 1 3
    ltac:(lia) ltac:(unfold LOGSIZE, MAXOPBLOCKS; lia) ltac:(by apply Nat.ltb_lt) ltac:(cbn; lia) Hl eq_refl ltac:(lia) ltac:(by vm_compute)
    eq_refl (ib_data _ _ _ _ inode_block1) (proj1 inode_typed1) ltac:(done) eq_refl eq_refl eq_refl ltac:(cbn; lia) eq_refl)
    as (s' & E & Hs & _).
  exists s, s'. split; [exact E|exact Hs].
Defined.

(** Inode 7 in an empty table. *)
Lemma iget_unique_witness : exists ip s', iget 1 7 fuel kernel0 = Ret ip s' /\ live (inodes s') 1 7 ip.
Proof.
  destruct (iget_unique (c := 0) fuel kernel0 1 7 ltac:(lia) ltac:(apply kernel0_runs)
    ltac:(split; [done|intros d m i j (_ & Hr & _); cbn in Hr; lia])
    ltac:(exists 0; split; [done|by left])) as (ip & s' & E & _ & Hl & _).
  exists ip, s'. split; [exact E|exact Hl].
Defined.

Lemma letter_range a k : 0 <= a < 256 -> 0 <= letter a k < 256.
Proof. intros Ha. unfold letter. destruct (k =? 0); lia. Qed.

Lemma rootdir_open V s :
  linv0 image1 V [] [] 1 (world s) -> (forall b, b <> 2 -> V b = image1 b) ->
  open_dir (c := 0) (me := 0) (dev := 1) 2 nfuel super1 46 image1 V [] 1 4 (world s).
Proof. intros Hl HV. destruct (rootdir_ok V HV) as (H1 & H2 & H3). by split. Qed.

Lemma dirlookup_finds_witness : exists s s' ip i,
  dirlookup 4 (letter 97) nfuel (world s) = Ret (Some (ip, sizeof_dirent * i)) s' /\ i_inum (inodes s' ip) = 2.
Proof.
  destruct sample_fs as (s & V & Hl & HV).
  assert (dir_map V rootdir !! dname (letter 97) = Some 2) as Hm by (rewrite (rootdir_map V HV); by vm_compute).
  destruct (dirlookup_finds (c := 0) (me := 0) (dev := 1) (DOK := sync_disk_ok) 2 nfuel super1 46 image1 V [] 1 4 (world s) (letter 97)
    ltac:(by apply Nat.ltb_lt) ltac:(cbn; lia) ltac:(by vm_compute) layout1 (rootdir_open V s Hl HV) ltac:(intros k; apply letter_range; lia))
    as (r & s' & E & _ & H).
  { change (inodes (world s) 4) with rootdir. rewrite Hm. intros inum [= <-]. exists 1. split; [done|]. by right. }
  change (inodes (world s) 4) with rootdir in H. rewrite Hm in H. destruct H as (ip & i & -> & Hg & Hi & Hd).
  exists s, s', ip, i. split; [exact E|]. apply (got_live _ _ _ _ _ Hg).
Defined.

(** The name b for inode 1. *)
Lemma dirlink_links_witness : exists s s' V' x', dirlink 4 (letter 98) 1 nfuel (world s) = Ret 0 s' /\
  dir_map V' x' !! [98] = Some 1 /\ dir_map V' x' !! [97] = Some 2.
Proof.
  destruct sample_fs as (s & V & Hl & HV).
  destruct (dirlink_links (c := 0) (me := 0) (dev := 1) (DOK := sync_disk_ok) 2 nfuel super1 46 image1 V [] 1 4 (world s) (letter 98) 1
    ltac:(lia) ltac:(unfold LOGSIZE, MAXOPBLOCKS; lia) ltac:(by apply Nat.ltb_lt) ltac:(cbn; lia) ltac:(by vm_compute) layout1 ltac:(cbn; lia)
    eq_refl ltac:(lia) (rootdir_open V s Hl HV) ltac:(intros k; apply letter_range; lia) ltac:(lia) (reserved1 V HV)
    ltac:(split; cbn; try lia; intros i _; destruct (i =? 0); lia) inode_block1 ltac:(by vm_compute) ltac:(by vm_compute)
    ltac:(unfold ndebt; rewrite nfree1 by done; by vm_compute)
    ltac:(change (inodes (world s) 4) with rootdir; rewrite (rootdir_map V HV); by vm_compute))
    as (s' & V' & x' & L' & E & _ & _ & Hm & _).
  exists s, s', V', x'. split; [exact E|]. rewrite Hm. change (inodes (world s) 4) with rootdir. rewrite (rootdir_map V HV). split; by vm_compute.
Defined.

Lemma balloc_bfree_witness : exists s a s1 s2 V1, balloc 1 nfuel (world s) = Ret a s1 /\ allocates super1 46 image1 a V1 /\ bfree 1 a nfuel s1 = Ret tt s2.
Proof.
  destruct sample_fs as (s & V & Hl & HV).
  destruct (balloc_bfree (c := 0) (me := 0) (dev := 1) (DOK := sync_disk_ok) 2 nfuel super1 46 image1 V [] 1 (world s)
    ltac:(lia) ltac:(unfold LOGSIZE, MAXOPBLOCKS; lia) ltac:(by apply Nat.ltb_lt) ltac:(cbn; lia) layout1 ltac:(cbn; lia) eq_refl ltac:(lia)
    (reserved1 V HV) ltac:(rewrite nfree1 by done; done) Hl ltac:(by vm_compute)) as (a & s1 & V1 & L1 & s2 & V2 & L2 & E1 & _ & Ha & E2 & _).
  exists s, a, s1, s2, V1. split; [exact E1|]. split; [|exact E2]. destruct Ha as [H1 (H2 & H3 & H4) H5 H6 H7 H8].
  split; try done.
  - split; [done|]. split; [by rewrite <-(in_use1 V HV)|]. intros b Hb. rewrite <-(in_use1 V HV) by (cbn in H2; lia). by apply H4.
  - intros b Hb. by rewrite H6, (in_use1 V HV).
  - intros b Hb Hne. rewrite H7, HV by (done || (unfold area in Hb; cbn in Hb; lia)). done.
  - by rewrite H8, (nfree1 V HV), (nfree1 image1).
Defined.

(** The file of five bytes is open twice, as file 3 with the offset at its end
    and as file 4 with the offset 0. *)
Lemma hello_open f : exists s, open_file (c := 0) (me := 0) (dev := 1) 2 super1 46 tabA image1 f 1 (world s).
Proof.
  destruct sample_idle as (s & V & Hl & HV). exists s. pose proof kernel1_ready as [_ _ Hp _ _ Hvm].
  split; try done.
  - exists V. split; [by apply linv_world|]. intros b [_ Hb]. apply HV. intros ->. apply Hb. unfold LOGSIZE, MAXOPBLOCKS. lia.
  - by apply (hello_ok image1).
  - by apply (hello_filled image1).
  - apply inode_typed1.
  - apply (on_disk_ext (dinode_put hello 128 (fun _ => 0))); [|apply dinode_put_on_disk, inode_typed1].
    intros y Hy. change (dinode_off (i_inum (inodes (world s) 1))) with 128 in Hy. apply (dinode_put_out rootdir 64). unfold sizeof_dinode in *. lia.
  - apply inode_block1.
  - by apply (reserved1 image1).
Qed.

Lemma zeros_readable s : reads (ms (world s)) tabA 100 [0; 0; 0].
Proof.
  destruct grown_facts as (ρ & l & own & _ & _ & _ & _ & Hz & _).
  assert (forall va, 0 <= va < 8192 -> ubyte (ms (world s)) tabA va = Some 0) as Hb.
  { intros va Hva. change (ms (world s)) with (ms kernel1). unfold kernel1. rewrite ubyte_kernel. apply Hz. pages. lia. }
  intros i b Hi. do 3 (destruct i as [|i]; [injection Hi as <-; split; [rewrite MAXVA_eq; lia|apply Hb; lia]|]). done.
Qed.

(** Three zeros appended. *)
Lemma filewrite_writes_witness : exists s s' D', filewrite 3 100 3 nfuel (world s) = Ret 3 s' /\ i_size (inodes s' 1) = 8 /\
  fbyte D' (inodes s' 1) 4 = 111 /\ fbyte D' (inodes s' 1) 5 = 0.
Proof.
  destruct (hello_open 3) as [s Ho].
  destruct (filewrite_writes (c := 0) (me := 0) (dev := 1) (DOK := sync_disk_ok) 2 nfuel super1 46 tabA image1 (world s) 3 1 100 [0; 0; 0]
    ltac:(lia) ltac:(unfold LOGSIZE, MAXOPBLOCKS; lia) ltac:(by apply Nat.ltb_lt) ltac:(cbn; lia) layout1 ltac:(cbn; lia) Ho ltac:(done)
    ltac:(cbn; lia) ltac:(by vm_compute) ltac:(by vm_compute) ltac:(lia) ltac:(cbn; lia) (zeros_readable s) ltac:(by vm_compute)
    ltac:(unfold ndebt; rewrite nfree1 by done; by vm_compute)) as (D' & s' & E & _ & _ & Hw & _).
  pose proof (fw_size _ _ _ _ _ _ _ _ _ Hw) as Hs. change (i_size (inodes s' 1) = 8) in Hs.
  exists s, s', D'. split; [exact E|]. split; [exact Hs|]. rewrite !(fw_bytes _ _ _ _ _ _ _ _ _ Hw) by lia. split; by vm_compute.
Defined.

(** The five bytes of the file, to address 100. *)
Lemma fileread_reads_witness : exists s res s', fileread 4 100 10 nfuel (world s) = Ret res s' /\ (res = 5 \/ res = -1) /\
  (res = 5 -> ubyte (ms s') tabA 104 = Some 111 /\ f_off (files s' 4) = 5).
Proof.
  destruct (hello_open 4) as [s Ho].
  destruct (fileread_reads (c := 0) (me := 0) (dev := 1) (DOK := sync_disk_ok) 2 nfuel super1 46 tabA image1 (world s) 4 1 100 10
    ltac:(by apply Nat.ltb_lt) ltac:(cbn; lia) ltac:(by vm_compute) layout1 Ho ltac:(done)
    ltac:(cbn; lia) ltac:(by vm_compute) ltac:(lia) ltac:(cbn; lia) ltac:(lia) ltac:(lia)) as (res & s' & E & _ & _ & Hd & Hf).
  exists s, res, s'. split; [exact E|]. destruct Hd as [[-> Hu]|[-> _]]; [|split; [by right|done]].
  change (inodes (world s) 1) with hello in Hu, Hf. change (f_off (files (world s) 4)) with 0 in Hu, Hf.
  change (Z.min 10 (i_size hello - 0)) with 5 in Hu, Hf. rewrite (hello_bytes image1 (fun _ _ => eq_refl)) in Hu.
  split; [by left|]. intros _. rewrite Hu by (rewrite MAXVA_eq; lia). rewrite Hf. done.
Defined.

(** The file of entry 1 emptied. *)
Lemma itrunc_frees_witness : exists s s' V', itrunc 1 nfuel (world s) = Ret tt s' /\ nfree super1 V' = 53 /\ i_size (inodes s' 1) = 0.
Proof.
  destruct sample_fs as (s & V & Hl & HV).
  destruct (itrunc_frees (c := 0) (me := 0) (dev := 1) (DOK := sync_disk_ok) 2 nfuel super1 46 image1 V [] 1 (world s) 1
    ltac:(lia) ltac:(unfold LOGSIZE, MAXOPBLOCKS; lia) ltac:(by apply Nat.ltb_lt) ltac:(cbn; lia) layout1 Hl ltac:(lia) eq_refl
    eq_refl (hello_ok V HV) (proj1 inode_typed1) inode_block1 ltac:(by vm_compute)) as (s' & V' & L' & x' & E & _ & F & Ex & Hff & _).
  exists s, s', V'. split; [exact E|]. split.
  - rewrite (ff_count _ _ _ _ _ _ _ Hff), (nfree1 V HV). by vm_compute.
  - rewrite (lframe_inodes _ _ F), put_inode_at. by rewrite Ex.
Defined.

(** The same file without links, in an entry of its own. *)
Definition gone : inode := set_i_nlink 0 hello.

Lemma iput_deletes_witness : exists s s' V', iput 7 nfuel (put_inode 7 gone (world s)) = Ret tt s' /\ nfree super1 V' = 53 /\
  di_type (V' 32) 128 = 0 /\ i_ref (inodes s' 7) = 0.
Proof.
  destruct sample_fs as (s & V & Hl & HV).
  destruct (iput_deletes (c := 0) (me := 0) (dev := 1) (DOK := sync_disk_ok) 2 nfuel super1 46 image1 V [] 1 (put_inode 7 gone (world s)) 7
    ltac:(lia) ltac:(unfold LOGSIZE, MAXOPBLOCKS; lia) ltac:(by apply Nat.ltb_lt) ltac:(cbn; lia) layout1 (linv_inodes _ _ _ _ _ _ _ _ Hl) ltac:(lia) eq_refl)
    as (s' & V' & L' & x' & E & _ & F & Er & Hd).
  { intros _. change (inodes (put_inode 7 gone (world s)) 7) with gone. split_and!; try done.
    - by apply (one_ok V HV gone 50).
    - destruct (proj1 inode_typed1). by split.
    - apply inode_block1. }
  change (inodes (put_inode 7 gone (world s)) 7) with gone in Er, Hd. rewrite decide_True in Hd by done. destruct Hd as (Hff & Ht & _).
  exists s, s', V'. split; [exact E|]. split; [|split; [exact Ht|]].
  - rewrite (ff_count _ _ _ _ _ _ _ Hff), (nfree1 V HV). by vm_compute.
  - rewrite (lframe_inodes _ _ F), put_inode_at. exact Er.
Defined.

(** ** The tree *)

Section tree.
Context (V : Z -> bytes) (HV : forall b, b <> 2 -> V b = image1 b).

Lemma iblock1 inum : 0 <= inum < 200 -> 32 <= iblock super1 inum <= 44.
Proof.
  intros Hi. unfold iblock, IBLOCK. change IPB with 16. cbn [sb_inodestart super1].
  assert (0 <= inum / 16 <= 12) by (Z.div_mod_to_equations; lia). rewrite u32_small by lia. lia.
Qed.

Lemma node1 inum : 0 <= inum < 200 -> node super1 V inum = node super1 image1 inum.
Proof. intros Hi. unfold node. rewrite HV; [done|]. pose proof (iblock1 inum Hi). lia. Qed.

Lemma node_rootdir : same_dinode (node super1 V 1) rootdir.
Proof.
  rewrite node1 by lia. apply (on_disk_get (image1 32) 64), (dinode_put_on_disk rootdir 64).
  split; cbn; try lia. intros i _. destruct (i =? 0); lia.
Qed.

Lemma allocated1 inum : allocated_inode super1 V inum -> inum = 1 \/ inum = 2.
Proof.
  intros [Hr Ht]. change (sb_ninodes super1) with 200 in Hr. rewrite node1 in Ht by lia.
  pose proof (below_forall (fun b => (b =? 1) || (b =? 2) || (i_type (node super1 image1 b) =? 0))%bool 200 ltac:(by vm_compute) inum ltac:(lia)) as Hb.
  cbn beta in Hb. rewrite (proj2 (Z.eqb_neq _ _) Ht) in Hb. lia.
Qed.

Lemma linked1 inum : inum = 1 \/ inum = 2 -> linked super1 V inum.
Proof.
  intros Hi. assert (0 <= inum < 200) by lia. unfold linked, allocated_inode. rewrite node1 by done. change (sb_ninodes super1) with 200.
  destruct Hi as [->| ->]; (split; [split; [lia|by vm_compute]|by vm_compute]).
Qed.

Lemma dir_type1 inum : allocated_inode super1 V inum -> i_type (node super1 V inum) = T_DIR -> inum = 1.
Proof. intros Ha. destruct (allocated1 inum Ha) as [->| ->]; [done|]. rewrite node1 by lia. by vm_compute. Qed.

Lemma rootdir_names nm j : dir_map image1 rootdir !! nm = Some j -> j = 1 \/ j = 2.
Proof.
  intros Hj%elem_of_list_to_map_2. assert (dir_from image1 rootdir 0 (i_size rootdir / sizeof_dirent) = [([46], 1); ([97], 2)]) as E by by vm_compute.
  rewrite E in Hj. apply elem_of_cons in Hj as [[= _ ->]|[= _ ->]%list_elem_of_singleton]; auto.
Qed.

Lemma child1 nm : child super1 V 1 nm = dir_map image1 rootdir !! nm.
Proof.
  unfold child. rewrite (sd_type _ _ node_rootdir), decide_True by done. by rewrite (same_dir_map V _ _ node_rootdir), (rootdir_map V HV) by done.
Qed.

Lemma tree1 : tree_ok super1 V 2 46.
Proof.
  destruct (rootdir_ok V HV) as (H1 & H2 & H3). assert (LOGSIZE = 30) as EL by done. split.
  - intros inum [Hr _]. change (sb_ninodes super1) with 200 in Hr. pose proof (iblock1 inum ltac:(lia)). unfold isdata. lia.
  - intros inum Ha Ht. rewrite (dir_type1 inum Ha Ht). pose proof node_rootdir as Hs.
    split; [by eapply same_file_ok|]. split; [by eapply same_filled|by eapply same_dir_ok].
  - intros inum nm j Ha Hc. assert (inum = 1) as ->.
    { apply dir_type1; [done|]. unfold child in Hc. by destruct (decide _). }
    rewrite child1 in Hc. apply linked1. by eapply rootdir_names.
Qed.

Lemma dirs1 inum : allocated_inode super1 V inum -> i_type (node super1 V inum) = T_DIR -> i_size (node super1 V inum) / sizeof_dirent < Z.of_nat nfuel.
Proof. intros Ha Ht. rewrite (dir_type1 inum Ha Ht), (sd_size _ _ node_rootdir). done. Qed.

(** A table with the root directory only. *)
Definition table1 : Z -> inode := fun i => if i =? 4 then rootdir else set_i_ref 0 unloaded.

Lemma table1_ok : table_ok super1 V 1 None table1.
Proof.
  split; [split|..].
  - intros i _. unfold table1. by destruct (i =? 4).
  - intros d m i j (_ & Hi & _) (_ & Hj & _). unfold table1 in *. destruct (Z.eqb_spec i 4), (Z.eqb_spec j 4); cbn in *; lia.
  - intros j _ _. unfold table1. by destruct (j =? 4).
  - intros j _. unfold table1. destruct (j =? 4); [|cbn; lia]. intros _ _ _. symmetry. apply node_rootdir.
Qed.

End tree.

(** The path /a leads to inode 2. *)
Lemma namex_resolves_witness : exists s r s' ip, namex [47; 97] false (fun _ => 0) nfuel (set_inodes table1 (world s)) = Ret r s' /\
  r.1 = Some ip /\ live (inodes s') 1 2 ip /\ i_ref (inodes s' 4) = 1.
Proof.
  destruct sample_fs as (s & V & Hl & HV).
  destruct (namex_resolves (c := 0) (me := 0) (dev := 1) (DOK := sync_disk_ok) 2 nfuel super1 46 image1 V [] 1 (set_inodes table1 (world s)) false [47; 97] (fun _ => 0) 0 0
    ltac:(by apply Nat.ltb_lt) ltac:(cbn; lia) ltac:(by vm_compute) layout1 ltac:(by vm_compute) (linv_inodes _ _ _ _ _ _ _ _ Hl) eq_refl eq_refl
    (tree1 V HV) (linked1 V HV 1 ltac:(by left)) (dirs1 V HV) (table1_ok V HV) ltac:(by exists 0, 1) ltac:(done)
    ltac:(apply (bool_decide_unpack _); by vm_compute) ltac:(intros k; lia) ltac:(cbn; lia)) as (r & s' & E & _ & _ & _ & Hr).
  assert (resolve super1 V ROOTINO (names [47; 97]) = Some 2) as Er.
  { change (names [47; 97]) with [[97]]. cbn [resolve]. change ROOTINO with 1. rewrite (child1 V HV). by vm_compute. }
  rewrite decide_True, Er in Hr by done. destruct Hr as (ip & E1 & _ & Hlv & Hh).
  exists s, r, s', ip. split; [exact E|]. clear E. split; [exact E1|]. split; [exact Hlv|]. rewrite (hg_ref _ _ _ Hh) by (unfold NINODE; lia). rewrite count_cons.
  destruct (decide (ip = 4)) as [->|]; [|by vm_compute]. exfalso. destruct Hlv as (_ & _ & _ & Hi).
  destruct (hg_same _ _ _ Hh 4 ltac:(unfold NINODE; lia) ltac:(cbn; lia)) as [_ Hi']. rewrite Hi in Hi'. done.
Defined.

Lemma inode_blocks1 inum : 0 < inum < 200 -> inode_block 2 super1 46 (iblock super1 inum).
Proof.
  intros Hi. pose proof (iblock1 inum ltac:(lia)) as Hb. assert (LOGSIZE = 30) as EL by done. split.
  - unfold isdata. lia.
  - unfold area. lia.
  - intros b Hr. unfold bit_block, BBLOCK. change BPB with 8192. cbn [sb_size sb_bmapstart super1] in *.
    rewrite u32_small by (Z.div_mod_to_equations; lia). Z.div_mod_to_equations. lia.
Qed.

Lemma inode_bytes1 b y : 32 <= b <= 44 -> 0 <= image1 b y < 256.
Proof.
  intros Hb. unfold image1. destruct (Z.eqb_spec b 45); [lia|]. destruct (Z.eqb_spec b 32) as [->|]; [|destruct (Z.eqb_spec b 50), (Z.eqb_spec b 51); lia].
  destruct (decide (0 <= y < 192)) as [Hy|Hy].
  - pose proof (below_forall (fun y => (0 <=? image1 32 y) && (image1 32 y <? 256))%bool 192 ltac:(by vm_compute) y Hy) as E.
    apply andb_true_iff in E as [E1%Z.leb_le E2%Z.ltb_lt]. unfold image1 in E1, E2. cbn in E1, E2. lia.
  - rewrite !dinode_put_out by (unfold sizeof_dinode; lia). lia.
Qed.

Lemma can_create1 V s : (forall b, b <> 2 -> V b = image1 b) -> can_create (dev := 1) 2 nfuel super1 46 V (set_inodes table1 (world s)).
Proof.
  intros HV. split.
  - reflexivity.
  - by apply tree1.
  - by apply dirs1.
  - by apply table1_ok.
  - by exists 0, 1.
  - intros j inum (_ & Hp & _ & Hi). cbn in Hp, Hi. unfold table1 in Hp, Hi. destruct (Z.eqb_spec j 4); [|cbn in Hp; lia]. subst inum. apply (linked1 V HV). by left.
  - by split.
  - by split.
  - apply inode_blocks1.
  - intros i y Hi. change (sb_ninodes super1) with 200 in Hi. pose proof (iblock1 i ltac:(lia)). rewrite HV by lia. by apply inode_bytes1.
  - exists 3. split; [by split|]. rewrite node1 by done. by vm_compute.
  - by apply reserved1.
  - rewrite nfree1 by done. lia.
Qed.

(** The file /b. *)
Lemma create_creates_witness : exists s ip s', create [47; 98] T_FILE 0 0 nfuel (set_inodes table1 (world s)) = Ret (Some ip) s' /\
  live (inodes s') 1 3 ip.
Proof.
  destruct sample_fs as (s & V & Hl & HV).
  assert (resolve_parent super1 V 1 (names [47; 98]) = Some (1, [98])) as Er.
  { change (names [47; 98]) with [[98]]. cbn [resolve_parent]. by rewrite (sd_type _ _ (node_rootdir V HV)), decide_True. }
  destruct (create_creates (c := 0) (me := 0) (dev := 1) (DOK := sync_disk_ok) 2 ltac:(lia) ltac:(unfold LOGSIZE, MAXOPBLOCKS; lia) nfuel
    ltac:(by apply Nat.ltb_lt) ltac:(cbn; lia) ltac:(by vm_compute) super1 46 layout1 ltac:(cbn; lia) image1 V [] 1 ltac:(lia) ltac:(by vm_compute)
    (set_inodes table1 (world s)) (can_create1 V s HV) [47; 98] T_FILE 0 0 0 0 1 [98] (linv_inodes _ _ _ _ _ _ _ _ Hl) eq_refl (linked1 V HV 1 ltac:(by left))
    ltac:(done) ltac:(apply (bool_decide_unpack _); by vm_compute) ltac:(cbn; lia) Er ltac:(rewrite (child1 V HV); by vm_compute)
    ltac:(rewrite (sd_size _ _ (node_rootdir V HV)); by vm_compute) ltac:(done) ltac:(done) ltac:(by vm_compute) ltac:(by vm_compute) ltac:(by vm_compute))
    as (ip & s' & inum & V' & L' & E & Hcr).
  exists s, ip, s'. split; [exact E|]. clear E. destruct (cr_first _ _ _ _ _ _ _ _ _ _ _ _ _ _ _ _ _ Hcr) as (Hr & H0 & Hno).
  assert (inum = 3) as ->; [|apply Hcr]. change (sb_ninodes super1) with 200 in Hr. destruct (decide (3 < inum)) as [Hgt|Hle].
  - exfalso. apply (Hno 3); [lia|]. rewrite node1 by (done || lia). by vm_compute.
  - assert (allocated_inode super1 V 1 /\ allocated_inode super1 V 2) as [[_ A1] [_ A2]] by (split; apply (linked1 V HV); auto).
    destruct (decide (inum = 1)) as [->|]; [done|]. destruct (decide (inum = 2)) as [->|]; [done|]. lia.
Defined.
